(* ===== verification/_CoqProject ===== *)
-Q . S2P
Prelude.v
Float64.v
Rounding.v
FloatBounds.v
GoStrings.v
GoPath.v
Json.v
Utf8.v
Text.v
Blank.v
Compress.v
Task.v
Regexp.v
GoFmt.v
Sanitize.v
Slice.v
Transcript.v
Extract.v
Distill.v
ReuseBlock.v
Bm25.v
Fuse.v
Store.v
StoreSpec.v
StoreOps.v
StoreMem.v
StoreProps.v
SliceStore.v
Consolidate.v
Maintenance.v
Prune.v
Promote.v
Zone.v
Lookup.v
Judge.v
Inject.v
L3.v
Sched.v
Prefetch.v
Planner.v
PrefetchRun.v
Evolve.v
Adapt.v
GatewayConfig.v
Chat.v
Messages.v
Levenshtein.v
Quota.v
UsageWire.v
Usage.v
Stream.v
Relay.v
Anthropic.v
Gateway.v
ShellParse.v
ShellSafe.v
ShellEffect.v
ShellReader.v
Permission.v
