(* ===== verification/Prelude.v ===== *)
(** * Semantix: the reuse kernel, verified

    Semantix caches pieces of an agent's work as slices and decides, for each
    request, whether a cached answer may be served as it is (L3), injected as
    context (L2) or ignored.  This library models the deciding parts of the Go
    kernel (under src/kernel), of its gateway (under src/gateway) and of the
    permissions of its agent harness (under src/harness) and proves that they keep
    their promises.

    ** How the parts meet

    - A session transcript (Transcript.v) becomes slices: the prompts, tool
      sequences, repeated paths and the final result (Extract.v, with the text
      rules of Compress.v), and the cards distilled from it (Distill.v, with the
      task inside its host framing, Task.v).
    - A slice (Slice.v) enters the store through the admission matrix and is
      journalled; the store (Store.v) is opened, appended to, compacted, pruned
      (Prune.v) and reopened after a crash.  Behind the interface of SliceStore.v
      it is backed up, restored and garbage-collected (Maintenance.v) and its
      near-duplicate Context slices are merged (Consolidate.v).
    - The slices are indexed (Bm25.v); the ranking by words and the one by vectors
      are fused (Fuse.v); an agent may ask for hits itself (Lookup.v).
    - A request's search hits get a zone (Zone.v).  The L3 decider (L3.v) serves
      a hit when its zone, provenance, lexical support, age, isolation keys and
      dependency fingerprints allow it; a grey one is confirmed first by the
      promotions of earlier confirmations (Promote.v) or by the judge chain and
      its verdict cache (Judge.v).
    - What is not served may be injected: the injector (Inject.v) selects fresh,
      supported slices within a byte budget, cleans each (Sanitize.v) and renders
      them between two markers (ReuseBlock.v).
    - The gateway (Gateway.v) is configured and routes by model name
      (GatewayConfig.v).  A request passes its gates, is reduced to a query and a
      context hash (Chat.v), and goes through the L3 decider; what is not served
      goes upstream with the injected block, after the clean-up of its prefix
      (Chat.v) and, for an upstream that speaks the Messages API, its translation
      (Messages.v).
    - The gateway sends a served answer as a stream of its own, or relays the
      upstream's (Relay.v) while an aggregator reads it (Stream.v); an answer
      in the Messages API's form is translated (Anthropic.v).  The tokens of
      every dialect are folded into one convention (UsageWire.v) and logged
      (Usage.v); the quota gate (Quota.v) meters what reaches an upstream.
    - The outcome of each reuse feeds the slice's own threshold (Adapt.v), the
      feedback signals move the global one (Evolve.v), and a query that repeats
      a served one is told by its edit distance (Levenshtein.v).
    - The scheduler (Sched.v) turns a round of tool calls into groups, a model
      tier, injected IDs and prefetches; the prefetches come from a matrix learned
      online (Prefetch.v) or one learned from the library (Planner.v), and the
      runner (PrefetchRun.v) executes them.
    - The agent asks a gate before each tool call (Permission.v): rules decide on
      the subjects of the call, and a shell command is read off its syntax tree
      (ShellParse.v), split into parts, and each part's effects are classified from
      tables (ShellSafe.v, ShellEffect.v), so that what only reads runs unasked.

    ** Files and the code they model

    - Prelude.v: field updates, Go results, machine integers, sorting, the
      state-and-error monad [st].
    - Float64.v: IEEE binary64 as the standard library's SpecFloat, with an order
      by keys that decides comparisons ([float_order]) and the operations that
      cannot yield NaN; Rounding.v: correct rounding is monotone; FloatBounds.v:
      the values of floats as rationals, with the error of one rounding.
    - GoStrings.v: bytes, runes, white space, Unicode classes, lower-casing;
      Text.v: package strings (Cut, Split, Trim, Replace and their laws);
      Utf8.v: encoding and decoding, cutting at rune boundaries; GoPath.v:
      path/filepath; Regexp.v: a backtracking model of the part of [regexp] the
      sanitizer uses; GoFmt.v: the verbs of [fmt] a reuse block uses; Blank.v:
      trimming and collapsing white space; Json.v: a decoded JSON value (Go's any).
    - Slice.v: kernel/slice/{slice,admission,score}.go.  Types, provenance
      levels, the user-scope matrix, the value function.
    - Store.v: kernel/slice/file_store.go, the JSONL base and its journal.  A
      disk holds decoded lines with their length, and a line over the 8 MiB of the
      reader ([readJSONLLine]) is read back as dropped; the outcomes of system calls
      are an argument [IO].  StoreSpec.v states what opening and replaying
      denote (a list of entries, [view]) and that the definitions implement it;
      StoreOps.v gives each operation a [wp]-style specification of memory and disk,
      for lines within that limit; StoreMem.v one of the memory alone, without it;
      StoreProps.v draws the durability, atomicity, read-back, admission and
      compaction theorems from them.  Prune.v: kernel/slice/{prune,prune_store}.go.
    - Transcript.v: the reading of a transcript in kernel/slice/extractor.go and the
      verdict on its last change; Extract.v: the rest of that file; Compress.v,
      Distill.v: the files of those names; Task.v: task_body.go and task_type.go.
    - SliceStore.v: the Store interface of kernel/slice/store.go as a class with laws,
      and the file store as an instance of both; Consolidate.v and Maintenance.v:
      kernel/slice/{consolidate,maintenance}.go over any instance.
    - Bm25.v: kernel/bm25; Fuse.v: kernel/fuse; Lookup.v: kernel/lookup.
    - Promote.v: kernel/promote.  [Store] and [RejectionStore] are classes with
      laws ([StoreLaws], [RejectionLaws]); the decision is verified against the
      laws and the memory and file implementations discharge them.
    - Zone.v: kernel/zone/zone.go.
    - Judge.v: kernel/fingerprint, kernel/judge/{judge,cache}.go.  A judge is a
      class; the verdict cache is an instance of it wrapped around another.
    - L3.v: kernel/cache/{cache,judge_observe,l3}.go, over any judge and any
      promotion store.
    - Sanitize.v: kernel/sanitize; ReuseBlock.v and Inject.v: kernel/inject.
    - Sched.v: kernel/sched.  A nil dereference is the error value
      [nil_dereference].  Prefetch.v, Planner.v, PrefetchRun.v: kernel/prefetch.
    - Evolve.v: kernel/evolve/evolve.go; Adapt.v: kernel/adapt/adapt.go with its
      state file.
    - UsageWire.v: gateway/usagewire.go and the usage objects of
      gateway/anthropic.go; Usage.v: kernel/usage; Stream.v: gateway/sse.go;
      Relay.v: the replies of gateway/pipeline.go; Anthropic.v: the response side
      of gateway/anthropic.go; Levenshtein.v: gateway/levenshtein.go; Quota.v:
      gateway/quota.go and the metering of gateway/pipeline.go.
    - GatewayConfig.v: gateway/config.go; Chat.v: gateway/{normalize,thinking,
      sanitize}.go and the rewriting of gateway/pipeline.go; Messages.v: the request
      side of gateway/anthropic.go; Gateway.v: gateway/server.go, the pipeline of
      gateway/pipeline.go and the scopes, freshness and sidecars of
      gateway/gateway.go.  The pipeline is a function from a state to a reply, the
      trace of its effects in the order of the code, and the next state; the L3
      decider is a class, [Decider], that L3.v implements.
    - ShellParse.v: harness/shellparse, over the syntax tree of the parser;
      ShellSafe.v, ShellEffect.v: harness/shellsafe; ShellReader.v: what the classifier
      has checked of a command it calls a reader; Permission.v: harness/permission.

    ** What the theorems show

    - Store: every content of the files opens; what was acknowledged is there
      after a restart while lines fit the reader's limit, and whatever call fails, a
      restart shows the state before or after the operation, or between two records
      of a batch; a [Put] is read back; the admission matrix holds for
      everything stored; a scored compaction stores what its callback kept; a
      prune removes only what its reasons allow, as one atomic step.  Three
      theorems say when an acknowledged [Put] is lost: behind a torn tail, over the
      reader's limit, and without an ID.
    - Extraction: every slice has the identifier of its sanitised content, the
      project's scope and the provenance the transcript shows; a result is verified
      exactly when its last change is; compressed text keeps every line with content
      or is a valid beginning and end; cards report what the host observed, within
      their budget before sanitising.
    - Maintenance: an import never inherits trust, is idempotent and restores a backup
      up to provenance, verification and vectors; the eviction plan is exact, ordered
      and independent of the listing, and a pass applies it to any store, archiving
      before it removes; a consolidation loses no slice,
      source or counter.
    - Search: the index implements a scan of the remaining slices under any
      sequence of insertions and removals; fused scores stay between 0 and 1
      whatever the rounding and the map order, and respect agreement of the
      routes; the lookup tool answers with distinct slices of its scope.
    - Reuse: nothing is served without relevance, provenance or a confirmation,
      lexical support, isolation and clean dependencies; judge errors, fingerprint
      errors and timeouts reject; cached verdicts come from the judge that was
      asked; promotions expire, can be blacklisted and disappear when the source
      changes; the two promotion stores answer alike.
    - Injection: a slice is injected only after every enabled check; the block
      keeps its budget and cannot be closed by a slice's content; freshness is
      characterised exactly (historical observations are exempt from the file checks,
      and injectors without a root and a commit check nothing).  Sanitising leaves no
      escape control; a theorem shows a payload that survives next to a redacted
      key, another that a header field can break the block.
    - Gateway: a replayed answer is read back byte for byte, with one finish, one
      usage event and one [DONE]; a relay keeps the upstream bytes and adds only its
      own frames; a translated stream means what the original meant, down to the
      finish reasons and the usage figures its client decodes; the aggregator is bounded and does not depend on how the
      network cut the stream; what enters the library and what is billed is what
      the stream said; the edit distance is optimal; the free tier is granted
      once across restarts.
    - Requests: an answer from the cache went through the whole decider for this
      conversation and is still stored and fresh; every answered request is
      accounted once and every refused one never; nothing happens before the gates but
      the health probes, which need no key;
      a retry of a served answer goes upstream; a disabled gateway only forwards;
      the memory of served answers is bounded over any sequence of requests; an
      accepted configuration satisfies every check; a cleaned body is canonical; a
      translated request is well formed for the Messages API as far as the client's
      messages are, and says what an independent reading of them says.
    - Tuning: thresholds and feedback keep to their bands through every history,
      and a restart keeps what was learned.
    - Scheduling: each call is scheduled once and in order, a shared group holds
      only proven read-only calls, injected IDs are canonical, and the budget
      ladder is respected; the learned tier can dereference a nil bucket; plans
      propose only tools seen read-only, a demoted one is probed fairly by plans
      without observations in between, and an egress task is never executed.
    - Permissions: a command that runs unasked is a sequence of programs of the
      tables without an option that the tables name as writing or running code and
      without redirections to files - the tables miss some, as examples show; the gate
      asks about everything else, as long as it reads the command the tool runs; a deny rule wins over everything on the same subject; code-running parts
      are out of the reach of prefix rules; the glob matcher is exact.

    ** Conventions

    Mutexes are not modelled: an operation that holds its lock throughout is one
    step, and histories are sequences of such steps ([StoreOps.run],
    [Evolve.run_events], [Adapt.observe_all], [Quota.run]); the background
    refresh of the verdict cache, which runs outside the lock, is a step of its
    own ([Judge.warmed]).  Floating point is evaluated without fused
    multiply-add.  Log lines are not modelled.  Maps iterated in an unspecified
    order are sorted by the code, folded by an order-independent function, or
    iterated in an order that is an argument.  Loops over lists are structural;
    the fuels are the length of the input (UTF-8 decoding, the regular
    expressions, the payload fixed point, the partition of a round and the
    splitting of its groups), the size of the buffer (the digits of a number), the
    product of the lengths of a glob and its subject, or the two levels of a command
    and its parts (enough when parts do not split again, [decide_bash_total]), and the theorems about these functions hold without a bound on the input.

    Parameters, with what is assumed of them: [math.Exp] and [math.Log] (nothing),
    SHA-256 and the file reader of fingerprints (nothing; identifiers of slices are
    not empty), the clock of a session, [strings.EqualFold] and the conversion of a
    float to an integer (nothing), [reflect.DeepEqual] (it implies equality),
    the decoding of transcripts and of slices (nothing; the round trip of a backup
    assumes that the lines of the exported slices decode to them), the marshalled form of
    a vector (not the literal null), the lower-casing and the Unicode classes of
    non-ASCII runes (nothing), the random source of the prefetcher (nothing), the
    prefetch planner, executor, index and embedder and the judge model (nothing),
    [encoding/json] on the wire (it reads back what it writes, on one line:
    [Relay.wire_laws], the usage object with its figures; in the pipeline, a record of
    codecs without laws), the answers to the health probes (nothing), the
    environment, the home directory and [net/url] (nothing), the iteration order of
    the map of served answers (a permutation of the map), the Bash parser and the
    splitting of braces (nothing; the kinds of nodes are those the code tells apart),
    the decoding of a tool's arguments and the user who is asked (nothing).

    ** Not modelled yet

    kernel/embed (approximate vector search), kernel/ingest, kernel/event,
    kernel/audit, kernel/config, the store lock and embedding cache of kernel/slice,
    the consensus and model judges, the gateway's start-up,
    shutdown, retrievers and background ingestion, and the rest of the harness
    (the loop of the agent, its sessions, tools and front-ends).
    The desktop application, the command-line programs, the site and the
    deployment files are I/O. *)

From Stdlib Require Import ZArith Lia Bool Ascii String.
From stdpp Require Import tactics base option list sorting gmap strings.

#[global] Open Scope Z_scope.

(** ** Field updates

    [r <| f := v |>] is Go's [r.f = v] on a record value and [r <| f ::= g |>]
    is [r.f = g(r.f)].  A record type opts in by an [Eta] instance, from which
    the setters are derived. *)

Class Eta (R : Type) := eta : R -> R.
Class Setter {R T : Type} (proj : R -> T) := set_field : (T -> T) -> R -> R.
Arguments set_field {R T} proj {Setter} f r /.

Ltac build_setter :=
  lazymatch goal with
  | |- @Setter ?R ?T ?proj =>
      let f := fresh "f" in
      let r := fresh "r" in
      intros f r;
      let e := constr:(_ : Eta R) in
      let e := eval hnf in e in
      let b := eval cbv beta in (e r) in
      let b := eval pattern (proj r) in b in
      lazymatch b with
      | ?g _ => let t := eval cbv beta in (g (f (proj r))) in exact t
      end
  end.

#[export] Hint Extern 1 (Setter _) => build_setter : typeclass_instances.

#[warnings="-postfix-notation-not-level-1"]
Notation "r <| p ::= f |>" := (set_field p f r) (at level 12, left associativity).
#[warnings="-postfix-notation-not-level-1"]
Notation "r <| p := v |>" := (set_field p (fun _ => v) r) (at level 12, left associativity).

(** ** Go's [(value, error)] results *)

Inductive result (A : Type) : Type :=
| Ok (a : A)
| Err (e : string).
Arguments Ok {A} a.
Arguments Err {A} e.

Definition is_ok {A} (r : result A) : bool :=
  match r with Ok _ => true | Err _ => false end.

Definition result_bind {A B} (r : result A) (k : A -> result B) : result B :=
  match r with Ok a => k a | Err e => Err e end.

Declare Scope go_scope.
Delimit Scope go_scope with go.
Notation "'let?' x ':=' r 'in' k" := (result_bind r (fun x => k))
  (at level 10, x name, r at level 100, k at level 200) : go_scope.
#[global] Open Scope go_scope.

(** ** Machine integers

    Go's [int] and [int64] are 64-bit two's complement, [uint64] is modulo
    2^64; arithmetic wraps silently. *)

Definition i64 (z : Z) : Z := (z + 2 ^ 63) mod 2 ^ 64 - 2 ^ 63.
Definition u64 (z : Z) : Z := z mod 2 ^ 64.
Definition in_i64 (z : Z) : Prop := - 2 ^ 63 <= z < 2 ^ 63.
Definition in_u64 (z : Z) : Prop := 0 <= z < 2 ^ 64.

Notation "a +! b" := (i64 (a + b)) (at level 50, left associativity) : go_scope.
Notation "a -! b" := (i64 (a - b)) (at level 50, left associativity) : go_scope.
Notation "a *! b" := (i64 (a * b)) (at level 40, left associativity) : go_scope.

Create HintDb go discriminated.

Lemma i64_id z : in_i64 z -> i64 z = z.
Proof. unfold i64, in_i64. intros. rewrite Z.mod_small; lia. Qed.

Lemma i64_range z : in_i64 (i64 z).
Proof.
  unfold i64, in_i64. pose proof (Z.mod_pos_bound (z + 2 ^ 63) (2 ^ 64)). lia.
Qed.

Lemma u64_id z : in_u64 z -> u64 z = z.
Proof. unfold u64, in_u64. intros. rewrite Z.mod_small; lia. Qed.

Lemma u64_range z : in_u64 (u64 z).
Proof. unfold u64, in_u64. pose proof (Z.mod_pos_bound z (2 ^ 64)). lia. Qed.

Lemma i64_succ z : in_i64 z -> z < 2 ^ 63 - 1 -> z +! 1 = z + 1.
Proof. intros [??] ?. apply i64_id. unfold in_i64. lia. Qed.

Lemma i64_add_idemp a b : i64 (i64 a + b) = i64 (a + b).
Proof.
  unfold i64. f_equal. replace ((a + 2 ^ 63) mod 2 ^ 64 - 2 ^ 63 + b + 2 ^ 63) with ((a + 2 ^ 63) mod 2 ^ 64 + b) by lia.
  rewrite Z.add_mod_idemp_l by lia. f_equal. lia.
Qed.

#[export] Hint Resolve i64_range u64_range : go.

(** ** Tactics *)

(** Split every [match] and [if] of the goal and simplify the equations. *)
Ltac go_cases :=
  repeat match goal with
  | |- context [match ?x with _ => _ end] => destruct x eqn:?; simplify_eq/=
  end; try done.

(** The same on a hypothesis. *)
Ltac go_inv H :=
  repeat match type of H with
  | context [match ?x with _ => _ end] => destruct x eqn:?; simplify_eq/=
  end; try done.

(** Turn boolean tests into the propositions they decide. *)
Ltac go_bool :=
  repeat match goal with
  | H : _ && _ = true |- _ => apply andb_true_iff in H as [? ?]
  | H : _ || _ = false |- _ => apply orb_false_iff in H as [? ?]
  | H : negb _ = true |- _ => apply negb_true_iff in H
  | H : negb _ = false |- _ => apply negb_false_iff in H
  | H : (_ <? _) = true |- _ => apply Z.ltb_lt in H
  | H : (_ <? _) = false |- _ => apply Z.ltb_ge in H
  | H : (_ <=? _) = true |- _ => apply Z.leb_le in H
  | H : (_ <=? _) = false |- _ => apply Z.leb_gt in H
  | H : (_ =? _)%Z = true |- _ => apply Z.eqb_eq in H
  | H : (_ =? _)%Z = false |- _ => apply Z.eqb_neq in H
  | H : (_ =? _)%string = true |- _ => apply String.eqb_eq in H
  | H : (_ =? _)%string = false |- _ => apply String.eqb_neq in H
  end.

(** ** Sorting

    [go_sort less] is [sort.SliceStable] with comparator [less], written as the
    stable insertion sort.  [sort.Slice] and [sort.Strings] promise only some
    sorted permutation; where the comparator separates the elements that
    permutation is unique ([sorted_permutation_unique]), so the same function
    models them. *)

Section Sort.
Context {A : Type} (less : A -> A -> bool).

Fixpoint sort_insert (x : A) (l : list A) : list A :=
  match l with
  | [] => [x]
  | y :: l' => if less x y then x :: l else y :: sort_insert x l'
  end.

Definition go_sort (l : list A) : list A := foldl (fun acc x => sort_insert x acc) [] l.

(** [x] may stand before [y]. *)
Definition not_after (x y : A) : Prop := less y x = false.

Lemma sort_insert_perm x l : sort_insert x l ≡ₚ x :: l.
Proof.
  induction l as [|y l IH]; simpl; [done|]. destruct (less x y); [done|].
  rewrite IH. apply Permutation_swap.
Qed.

Lemma foldl_insert_perm l acc :
  foldl (fun acc x => sort_insert x acc) acc l ≡ₚ l ++ acc.
Proof.
  revert acc. induction l as [|x l IH]; intros acc; simpl; [done|].
  rewrite IH, sort_insert_perm. by rewrite Permutation_middle.
Qed.

Lemma go_sort_perm l : go_sort l ≡ₚ l.
Proof. unfold go_sort. by rewrite foldl_insert_perm, app_nil_r. Qed.

Lemma go_sort_length l : length (go_sort l) = length l.
Proof. by rewrite go_sort_perm. Qed.

Lemma elem_of_go_sort x l : x ∈ go_sort l <-> x ∈ l.
Proof. by rewrite go_sort_perm. Qed.

Lemma go_sort_NoDup l : NoDup l -> NoDup (go_sort l).
Proof. by rewrite go_sort_perm. Qed.

Lemma go_sort_nil l : go_sort l = [] <-> l = [].
Proof.
  split; [|by intros ->]. intros H. apply Permutation_nil_r.
  by rewrite <- H, go_sort_perm.
Qed.

(** The comparator is a strict weak order on the elements satisfying [P]. *)
Context (P : A -> Prop).
Hypothesis less_asym : forall x y, P x -> P y -> less x y = true -> less y x = false.
Hypothesis less_cotrans : forall x y z,
  P x -> P y -> P z -> not_after x y -> not_after y z -> not_after x z.

Lemma sort_insert_sorted x l :
  P x -> Forall P l -> StronglySorted not_after l -> StronglySorted not_after (sort_insert x l).
Proof using less_asym less_cotrans.
  intros Px Pl Hs. induction Hs as [|y l Hs IH Hy]; simpl; [repeat constructor|].
  inversion Pl as [|? ? Py Pl']; subst.
  destruct (less x y) eqn:E.
  - constructor; [by constructor|].
    assert (Hxy : not_after x y) by (apply less_asym; done).
    constructor; [done|]. rewrite Forall_forall in Hy, Pl'. rewrite Forall_forall.
    intros z Hz. eapply less_cotrans; [done|exact Py|by apply Pl'|done|by apply Hy].
  - constructor; [by apply IH|]. rewrite Forall_forall. intros z.
    rewrite sort_insert_perm, elem_of_cons. intros [->|Hz]; [done|].
    rewrite Forall_forall in Hy. by apply Hy.
Qed.

Lemma go_sort_sorted l : Forall P l -> StronglySorted not_after (go_sort l).
Proof using less_asym less_cotrans.
  intros Hl. unfold go_sort.
  assert (Hgen : forall l acc, Forall P l -> Forall P acc -> StronglySorted not_after acc ->
    StronglySorted not_after (foldl (fun acc x => sort_insert x acc) acc l)).
  { clear l Hl. induction l as [|x l IH]; intros acc Hl Ha Hs; simpl; [done|].
    inversion Hl; subst. apply IH; [done| |by apply sort_insert_sorted].
    rewrite sort_insert_perm. by constructor. }
  apply Hgen; [done|constructor|constructor].
Qed.
End Sort.

(** Two sorted arrangements of the same elements agree when the comparator
    separates distinct elements. *)
Lemma sorted_permutation_unique {A} (less : A -> A -> bool) (l1 l2 : list A) :
  (forall x y, x ∈ l1 -> y ∈ l1 -> less x y = false -> less y x = false -> x = y) ->
  StronglySorted (not_after less) l1 -> StronglySorted (not_after less) l2 -> l1 ≡ₚ l2 -> l1 = l2.
Proof.
  intros Hsep H1 H2 Hp. apply (StronglySorted_unique_strong (not_after less)); [|done..].
  intros x1 x2 Hx1 Hx2 Ha Hb. apply Hsep; [done|by rewrite Hp|done|done].
Qed.

(** A map's entries come in no particular order; a function of them that is
    sorted by a separating comparator does not depend on it. *)
Lemma go_sort_perm_eq {A} (less : A -> A -> bool) (P : A -> Prop) (l1 l2 : list A) :
  (forall x y, P x -> P y -> less x y = true -> less y x = false) ->
  (forall x y z, P x -> P y -> P z ->
    not_after less x y -> not_after less y z -> not_after less x z) ->
  (forall x y, x ∈ l1 -> y ∈ l1 -> less x y = false -> less y x = false -> x = y) ->
  Forall P l1 -> l1 ≡ₚ l2 -> go_sort less l1 = go_sort less l2.
Proof.
  intros Ha Hc Hs HP Hp. apply (sorted_permutation_unique less).
  - intros x y. rewrite !elem_of_go_sort. apply Hs.
  - by apply (go_sort_sorted less P).
  - apply (go_sort_sorted less P); [done|done|by rewrite <- Hp].
  - by rewrite !go_sort_perm.
Qed.

(** A sorted list is left alone, and sorting commutes with a map that respects the
    comparator. *)
Lemma sort_insert_last {A} (less : A -> A -> bool) x l : Forall (fun y => not_after less y x) l -> sort_insert less x l = l ++ [x].
Proof.
  induction 1 as [|y l Hy _ IH]; [done|]. cbn [sort_insert]. unfold not_after in Hy. by rewrite Hy, IH.
Qed.

Lemma go_sort_sorted_id {A} (less : A -> A -> bool) l : StronglySorted (not_after less) l -> go_sort less l = l.
Proof.
  intros Hs. unfold go_sort. change l with ([] ++ l) at 2.
  assert (H : forall acc, Forall (fun y => Forall (not_after less y) l) acc ->
    foldl (fun acc x => sort_insert less x acc) acc l = acc ++ l); [|by apply H].
  induction Hs as [|x l _ IH Hx]; intros acc Ha; [by rewrite app_nil_r|]. cbn [foldl].
  rewrite sort_insert_last by (eapply Forall_impl; [exact Ha|]; intros y Hy; by apply Forall_cons in Hy as [? _]).
  rewrite IH; [by rewrite <- app_assoc|]. apply Forall_app. split; [|by constructor].
  eapply Forall_impl; [exact Ha|]. intros y Hy. by apply Forall_cons in Hy as [_ ?].
Qed.

Lemma go_sort_map {A B} (f : A -> B) (lessA : A -> A -> bool) (lessB : B -> B -> bool) l :
  (forall x y, lessB (f x) (f y) = lessA x y) -> go_sort lessB (map f l) = map f (go_sort lessA l).
Proof.
  intros Hf. unfold go_sort. change (@nil B) with (map f []). generalize (@nil A).
  assert (Hi : forall x acc, sort_insert lessB (f x) (map f acc) = map f (sort_insert lessA x acc)).
  { intros x acc. induction acc as [|y acc IH]; [done|]. cbn. rewrite Hf. destruct (lessA x y); [done|]. cbn. by rewrite IH. }
  induction l as [|x l IH]; intros acc; [done|]. cbn [map foldl]. by rewrite Hi, IH.
Qed.

(** ** String order *)

(** Go compares strings byte by byte. *)
Definition string_less (a b : string) : bool := String.ltb a b.

Lemma string_less_leb a b : string_less a b = negb (String.leb b a).
Proof.
  unfold string_less, String.ltb, String.leb. rewrite (String.compare_antisym b a).
  by destruct (String.compare a b).
Qed.

Lemma string_less_irrefl a : string_less a a = false.
Proof.
  rewrite string_less_leb. destruct (String.leb_total a a) as [->| ->]; done.
Qed.

Lemma string_less_asym a b : string_less a b = true -> string_less b a = false.
Proof.
  rewrite !string_less_leb. intros H%negb_true_iff.
  destruct (String.leb_total a b) as [->|H']; [done|congruence].
Qed.

Lemma string_less_cotrans (a b c : string) :
  string_less b a = false -> string_less c b = false -> string_less c a = false.
Proof.
  rewrite !string_less_leb, !negb_false_iff. intros Hab Hbc.
  apply Is_true_eq_true. apply (transitivity (R := String.le) (y := b)); by apply Is_true_eq_left.
Qed.

Lemma string_less_total a b : string_less a b = false -> string_less b a = false -> a = b.
Proof.
  rewrite !string_less_leb, !negb_false_iff. intros Hba Hab.
  by apply String.leb_antisym.
Qed.

#[export] Hint Resolve string_less_irrefl string_less_asym string_less_total : go.

(** [sort.Strings]. *)
Definition sort_strings : list string -> list string := go_sort string_less.

Lemma sort_strings_sorted l : StronglySorted (not_after string_less) (sort_strings l).
Proof.
  apply (go_sort_sorted _ (fun _ => True)); [auto with go| |by apply Forall_true].
  unfold not_after. eauto using string_less_cotrans.
Qed.

Lemma sort_strings_perm_eq l1 l2 : l1 ≡ₚ l2 -> sort_strings l1 = sort_strings l2.
Proof.
  intros Hp. apply (go_sort_perm_eq string_less (fun _ => True)); auto with go.
  - unfold not_after. eauto using string_less_cotrans.
  - by apply Forall_true.
Qed.

#[export] Instance bool_filter_perm {A} (f : A -> bool) :
  Proper (Permutation ==> Permutation) (List.filter f).
Proof.
  induction 1 as [|x l l' _ IH|x y l|l1 l2 l3 _ IH1 _ IH2]; simpl; [done| | |by rewrite IH1].
  - destruct (f x); by rewrite IH.
  - destruct (f x), (f y); by try apply Permutation_swap.
Qed.

Lemma NoDup_map_inj {A B} (f : A -> B) (l : list A) x y :
  NoDup (map f l) -> x ∈ l -> y ∈ l -> f x = f y -> x = y.
Proof.
  intros Hn Hx Hy Hf. induction l as [|z l IH]; [by apply not_elem_of_nil in Hx|].
  simpl in Hn. apply NoDup_cons in Hn as [Hz Hn].
  rewrite !elem_of_cons in *. destruct Hx as [->|Hx], Hy as [->|Hy]; auto; exfalso; apply Hz;
    apply list_elem_of_fmap; eauto.
Qed.

(** The first [max] elements of a list, the slice expression [l[:max]] under
    the guard [len(l) > max]. *)
Definition cap_list {A} (max : Z) (l : list A) : list A :=
  if max <? Z.of_nat (length l) then take (Z.to_nat max) l else l.

Lemma cap_list_length {A} max (l : list A) :
  0 <= max -> Z.of_nat (length (cap_list max l)) <= max.
Proof.
  intros ?. unfold cap_list. destruct (Z.ltb_spec max (Z.of_nat (length l))); [|lia].
  rewrite length_take. lia.
Qed.

Lemma cap_list_prefix {A} max (l : list A) : cap_list max l `prefix_of` l.
Proof. unfold cap_list. case_match; [apply prefix_take|done]. Qed.

Lemma sublist_NoDup_take {A} n (l : list A) : NoDup l -> NoDup (take n l).
Proof. intros H. eapply sublist_NoDup; [done|apply sublist_take]. Qed.

Lemma StronglySorted_take {A} (R : relation A) n l :
  StronglySorted R l -> StronglySorted R (take n l).
Proof.
  intros H. revert n. induction H as [|x l H IH Hx]; intros [|n]; simpl; try constructor; [done|].
  by apply Forall_take.
Qed.

(** ** Stateful calls that may fail

    A Go method with an error result mutates its receiver and returns; an error
    keeps the mutations made before it. *)

Definition st (S A : Type) : Type := S -> result A * S.

Definition st_ret {S A} (a : A) : st S A := fun s => (Ok a, s).
Definition st_fail {S A} (e : string) : st S A := fun s => (Err e, s).
Definition st_bind {S A B} (m : st S A) (k : A -> st S B) : st S B := fun s =>
  match m s with
  | (Ok a, s') => k a s'
  | (Err e, s') => (Err e, s')
  end.
Definition st_get {S} : st S S := fun s => (Ok s, s).
Definition st_modify {S} (f : S -> S) : st S unit := fun s => (Ok tt, f s).
Definition st_require {S} (b : bool) (e : string) : st S unit :=
  if b then st_ret tt else st_fail e.

Notation "'let!' x ':=' m 'in' k" := (st_bind m (fun x => k))
  (at level 10, x name, m at level 100, k at level 200) : go_scope.
Notation "m ;! k" := (st_bind m (fun _ => k))
  (at level 90, right associativity) : go_scope.

(** [for _, x := range l { if err := f(x); err != nil { return err } }]. *)
Fixpoint st_each {S A} (f : A -> st S unit) (l : list A) : st S unit :=
  match l with
  | [] => st_ret tt
  | x :: l' => f x ;! st_each f l'
  end.

Lemma st_bind_ok {S A B} (m : st S A) (k : A -> st S B) s b s' :
  st_bind m k s = (Ok b, s') -> exists a s1, m s = (Ok a, s1) /\ k a s1 = (Ok b, s').
Proof. unfold st_bind. destruct (m s) as [[a|e] s1]; [eauto|done]. Qed.

Lemma st_require_ok {S} b e (s s' : S) x : st_require b e s = (Ok x, s') -> b = true /\ s' = s.
Proof. unfold st_require, st_ret, st_fail. destruct b; naive_solver. Qed.

(** Unfold the binds of a successful run. *)
Ltac st_steps H :=
  repeat match type of H with
  | st_bind _ _ _ = (Ok _, _) =>
      let a := fresh "a" in let s := fresh "s" in let H1 := fresh "Hm" in
      apply st_bind_ok in H as (a & s & H1 & H); st_steps H1
  | st_require _ _ _ = (Ok _, _) => apply st_require_ok in H as [? ->]
  | st_ret _ _ = _ => unfold st_ret in H; simplify_eq
  | st_get _ = _ => unfold st_get in H; simplify_eq
  | st_modify _ _ = _ => unfold st_modify in H; simplify_eq
  | st_fail _ _ = _ => unfold st_fail in H; simplify_eq
  end.

(** ** Sums over maps *)

Definition msum {A} (w : A -> Z) (D : gmap string A) : Z := map_fold (fun _ x n => w x + n) 0 D.

Lemma msum_insert {A} (w : A -> Z) D k x : D !! k = None -> msum w (<[k := x]> D) = w x + msum w D.
Proof. intros Hk. unfold msum. rewrite map_fold_insert_L; [done|intros; lia|done]. Qed.

Lemma msum_delete {A} (w : A -> Z) D k x : D !! k = Some x -> msum w D = w x + msum w (delete k D).
Proof. intros Hk. unfold msum. rewrite (map_fold_delete_L _ _ k x); [done|intros; lia|done]. Qed.

Lemma msum_zero {A} (w : A -> Z) D : map_Forall (fun _ x => w x = 0) D -> msum w D = 0.
Proof.
  intros H. induction D as [|k x D Hk IH] using map_ind; [done|]. rewrite msum_insert by done.
  apply map_Forall_insert in H as [-> H]; [|done]. by rewrite IH.
Qed.
