(* ===== verification/Float64.v ===== *)
(** IEEE 754 binary64: Go's [float64].

    The operations are the Standard Library's executable specification of
    correctly rounded arithmetic at precision 53 and maximal exponent 1024, so
    witnesses evaluate bit for bit; a decimal constant of the source is the
    correctly rounded quotient of two integers.  The second half shows that the
    comparisons form a total preorder away from NaN, which is all the sorting
    and threshold arguments of the development need. *)

From Stdlib Require Import ZArith Lia Bool String Floats.SpecFloat.
From stdpp Require Import tactics base option list sorting strings.
From S2P Require Import Prelude.

#[global] Open Scope Z_scope.

Abbreviation f64 := spec_float.

Definition f64_prec : Z := 53.
Definition f64_emax : Z := 1024.

Definition fadd : f64 -> f64 -> f64 := SFadd f64_prec f64_emax.
Definition fsub : f64 -> f64 -> f64 := SFsub f64_prec f64_emax.
Definition fmul : f64 -> f64 -> f64 := SFmul f64_prec f64_emax.
Definition fdiv : f64 -> f64 -> f64 := SFdiv f64_prec f64_emax.
Definition fsqrt : f64 -> f64 := SFsqrt f64_prec f64_emax.
Definition fopp : f64 -> f64 := SFopp.

(** [float64(n)] for an integer [n]. *)
Definition f_of_int (n : Z) : f64 := binary_normalize f64_prec f64_emax n 0 false.

(** The constant [n/d], correctly rounded. *)
Definition f_of_ratio (n d : Z) : f64 := fdiv (f_of_int n) (f_of_int d).

Definition f0 : f64 := S754_zero false.
Definition f1 : f64 := f_of_int 1.
Definition fnan : f64 := S754_nan.
Definition finf : f64 := S754_infinity false.
(** [math.SmallestNonzeroFloat64]. *)
Definition fsmallest : f64 := S754_finite false 1 (-1074).

Definition feqb (x y : f64) : bool := SFeqb x y.
Definition fltb (x y : f64) : bool := SFltb x y.
Definition fleb (x y : f64) : bool := SFleb x y.

(** [math.IsNaN] and [math.IsInf(x, 0)]. *)
Definition is_nan (x : f64) : bool := match x with S754_nan => true | _ => false end.
Definition is_inf (x : f64) : bool := match x with S754_infinity _ => true | _ => false end.
Definition finite (x : f64) : bool := negb (is_nan x) && negb (is_inf x).

Declare Scope f64_scope.
Delimit Scope f64_scope with f64.
Bind Scope f64_scope with spec_float.
Notation "x + y" := (fadd x y) : f64_scope.
Notation "x - y" := (fsub x y) : f64_scope.
Notation "x * y" := (fmul x y) : f64_scope.
Notation "x / y" := (fdiv x y) : f64_scope.
Notation "x <? y" := (fltb x y) : f64_scope.
Notation "x <=? y" := (fleb x y) : f64_scope.
Notation "x >? y" := (fltb y x) (only parsing) : f64_scope.
Notation "x >=? y" := (fleb y x) (only parsing) : f64_scope.
Notation "x =? y" := (feqb x y) : f64_scope.

(** ** The order *)

(** A float's place in the order: class, signed exponent, signed mantissa. *)
Definition fkey (x : f64) : Z * Z * Z :=
  match x with
  | S754_nan => (3, 0, 0)
  | S754_infinity true => (-2, 0, 0)
  | S754_infinity false => (2, 0, 0)
  | S754_zero _ => (0, 0, 0)
  | S754_finite true m e => (-1, - e, - Z.pos m)
  | S754_finite false m e => (1, e, Z.pos m)
  end.

Definition key_lt (a b : Z * Z * Z) : Prop :=
  let '(a1, a2, a3) := a in
  let '(b1, b2, b3) := b in
  a1 < b1 \/ (a1 = b1 /\ (a2 < b2 \/ (a2 = b2 /\ a3 < b3))).

Definition fle (x y : f64) : Prop := is_nan x = false /\ is_nan y = false /\ ~ key_lt (fkey y) (fkey x).
Definition flt (x y : f64) : Prop := is_nan x = false /\ is_nan y = false /\ key_lt (fkey x) (fkey y).

Lemma SFcompare_key x y :
  is_nan x = false -> is_nan y = false ->
  match SFcompare x y with
  | Some Lt => key_lt (fkey x) (fkey y)
  | Some Eq => fkey x = fkey y
  | Some Gt => key_lt (fkey y) (fkey x)
  | None => False
  end.
Proof.
  intros Hx Hy.
  destruct x as [sx|sx| |sx mx ex], y as [sy|sy| |sy my ey];
    try destruct sx; try destruct sy; simpl in *; try done; try lia;
    destruct (Z.compare_spec ex ey); subst; simpl; try lia;
    change (Pos.compare_cont Eq mx my) with (Pos.compare mx my);
    destruct (Pos.compare_spec mx my); subst; simpl; try lia; done.
Qed.

Lemma SFcompare_nan x y : is_nan x = true \/ is_nan y = true -> SFcompare x y = None.
Proof. destruct x, y; simpl; intros [?|?]; try done; repeat case_match; done. Qed.

Lemma key_lt_irrefl a : ~ key_lt a a.
Proof. destruct a as [[??]?]; simpl; lia. Qed.

Lemma key_lt_eq_false a b : key_lt a b -> a = b -> False.
Proof. intros H ->. by apply key_lt_irrefl in H. Qed.

Lemma key_lt_asym a b : key_lt a b -> key_lt b a -> False.
Proof. destruct a as [[??]?], b as [[??]?]; simpl; lia. Qed.

#[local] Ltac compare_cases x y :=
  destruct (is_nan x) eqn:Hx; [rewrite SFcompare_nan by auto; split; [done|by intros [? _]]|];
  destruct (is_nan y) eqn:Hy; [rewrite SFcompare_nan by auto; split; [done|by intros (_ & ? & _)]|];
  let H := fresh in
  pose proof (SFcompare_key x y Hx Hy) as H; destruct (SFcompare x y) as [[]|]; try done;
  (split; [intros ?; split; [done|]; split; [done|]|intros (_ & _ & ?)]); try done;
  try (rewrite H; apply key_lt_irrefl);
  eauto using key_lt_asym; exfalso; eauto using key_lt_eq_false, key_lt_asym.

Lemma fltb_flt x y : fltb x y = true <-> flt x y.
Proof. unfold fltb, SFltb, flt. compare_cases x y. Qed.

Lemma fleb_fle x y : fleb x y = true <-> fle x y.
Proof. unfold fleb, SFleb, fle. compare_cases x y. Qed.

Lemma feqb_key x y : feqb x y = true <-> is_nan x = false /\ is_nan y = false /\ fkey x = fkey y.
Proof. unfold feqb, SFeqb. compare_cases x y. Qed.

Lemma fltb_false x y : fltb x y = false <-> ~ flt x y.
Proof. rewrite <- fltb_flt. by destruct (fltb x y). Qed.

Lemma fleb_false x y : fleb x y = false <-> ~ fle x y.
Proof. rewrite <- fleb_fle. by destruct (fleb x y). Qed.

(** Decide a goal about float comparisons by linear arithmetic on the keys. *)
Ltac float_order :=
  rewrite ?fltb_flt, ?fleb_fle, ?feqb_key, ?fltb_false, ?fleb_false in *;
  unfold flt, fle in *;
  intros; destruct_and?;
  repeat match goal with
  | H : context [fkey ?x] |- _ => destruct (fkey x) as [[? ?] ?]; simpl in *
  | |- context [fkey ?x] => destruct (fkey x) as [[? ?] ?]; simpl in *
  end;
  (split_and? || intros (? & ? & ?)); try done; lia.

Lemma fltb_irrefl x : fltb x x = false.
Proof. apply fltb_false. intros (_ & _ & H). by apply key_lt_irrefl in H. Qed.

Lemma fltb_asym x y : fltb x y = true -> fltb y x = false.
Proof. float_order. Qed.

Lemma fltb_trans x y z : fltb x y = true -> fltb y z = true -> fltb x z = true.
Proof. float_order. Qed.

Lemma fltb_fleb_trans x y z : fltb x y = true -> fleb y z = true -> fltb x z = true.
Proof. float_order. Qed.

Lemma fleb_fltb_trans x y z : fleb x y = true -> fltb y z = true -> fltb x z = true.
Proof. float_order. Qed.

Lemma fleb_trans x y z : fleb x y = true -> fleb y z = true -> fleb x z = true.
Proof. float_order. Qed.

Lemma fltb_fleb x y : fltb x y = true -> fleb x y = true.
Proof. float_order. Qed.

Lemma feqb_not_lt x y : feqb x y = true -> fltb y x = false.
Proof.
  rewrite feqb_key, fltb_false. intros (_ & _ & E) (_ & _ & H). rewrite E in H.
  by apply key_lt_irrefl in H.
Qed.

Lemma feqb_sym x y : feqb x y = feqb y x.
Proof. apply eq_true_iff_eq. rewrite !feqb_key. naive_solver. Qed.

Lemma fleb_refl x : is_nan x = false -> fleb x x = true.
Proof. intros. apply fleb_fle. split; [done|]. split; [done|]. apply key_lt_irrefl. Qed.

Lemma fltb_ge x y : is_nan x = false -> is_nan y = false -> fltb x y = false -> fleb y x = true.
Proof. intros Hx Hy. rewrite fltb_false, fleb_fle. unfold flt, fle. naive_solver. Qed.

Lemma fleb_gt x y : is_nan x = false -> is_nan y = false -> fleb x y = false -> fltb y x = true.
Proof.
  intros Hx Hy. rewrite fleb_false, fltb_flt. unfold flt, fle.
  destruct (fkey x) as [[??]?], (fkey y) as [[??]?]; simpl. intros H.
  split; [done|]. split; [done|]. apply Decidable.not_not; [unfold Decidable.decidable; lia|naive_solver].
Qed.

Lemma fltb_not_nan x y : fltb x y = true -> is_nan x = false /\ is_nan y = false.
Proof. rewrite fltb_flt. unfold flt. by intros (? & ? & _). Qed.

Lemma fleb_not_nan x y : fleb x y = true -> is_nan x = false /\ is_nan y = false.
Proof. rewrite fleb_fle. unfold fle. by intros (? & ? & _). Qed.

(** Not below, on non-NaN values, is transitive. *)
Lemma fltb_cotrans x y z :
  is_nan x = false -> is_nan y = false -> is_nan z = false ->
  fltb y x = false -> fltb z y = false -> fltb z x = false.
Proof.
  intros Hx Hy Hz H1 H2. apply fltb_false. rewrite <- fltb_flt. intros H.
  apply (fltb_ge _ _ Hy Hx) in H1. apply (fltb_ge _ _ Hz Hy) in H2.
  assert (fltb x x = true) by eauto using fleb_fltb_trans, fleb_trans.
  by rewrite fltb_irrefl in *.
Qed.

#[export] Hint Resolve fltb_irrefl fltb_asym fleb_refl fltb_fleb : go.

(** ** Rankings

    The comparator the kernel sorts candidates with: a float descending, ties by
    a string ascending. *)

Section Ranked.
Context {A : Type} (score : A -> f64) (key : A -> string).

Definition ranked_less (a b : A) : bool :=
  if negb (score a =? score b)%f64 then (score a >? score b)%f64 else string_less (key a) (key b).

Lemma ranked_asym x y : ranked_less x y = true -> ranked_less y x = false.
Proof.
  unfold ranked_less. rewrite (feqb_sym (score y)). destruct (score x =? score y)%f64; simpl.
  - apply string_less_asym.
  - apply fltb_asym.
Qed.

Definition scored (a : A) : Prop := is_nan (score a) = false.

Lemma ranked_not_after x y :
  scored x -> scored y ->
  not_after ranked_less x y <->
  fltb (score x) (score y) = false /\ (feqb (score x) (score y) = true -> string_less (key y) (key x) = false).
Proof.
  intros Hx Hy. unfold not_after, ranked_less. rewrite (feqb_sym (score y)).
  destruct (score x =? score y)%f64 eqn:E; simpl; [|naive_solver].
  rewrite feqb_sym in E. rewrite (feqb_not_lt _ _ E). naive_solver.
Qed.

Lemma feqb_cycle x y z :
  is_nan x = false -> is_nan y = false -> is_nan z = false ->
  fltb x y = false -> fltb y z = false -> feqb x z = true -> feqb x y = true /\ feqb y z = true.
Proof.
  rewrite !feqb_key, !fltb_false. unfold flt. intros Hx Hy Hz H1 H2 (_ & _ & E).
  rewrite Hx, Hy, Hz in *. assert (Hk : forall a b : Z * Z * Z, ~ key_lt a b -> ~ key_lt b a -> a = b).
  { intros [[??]?] [[??]?]. simpl. intros ??. repeat f_equal; lia. }
  rewrite E in *. assert (fkey z = fkey y) as -> by (apply Hk; tauto). done.
Qed.

Lemma ranked_cotrans x y z :
  scored x -> scored y -> scored z ->
  not_after ranked_less x y -> not_after ranked_less y z -> not_after ranked_less x z.
Proof.
  intros Hx Hy Hz. rewrite !ranked_not_after by done. intros [H1 K1] [H2 K2].
  split; [by apply (fltb_cotrans (score z) (score y))|]. intros E.
  destruct (feqb_cycle (score x) (score y) (score z)) as [E1 E2]; [done..|].
  eapply string_less_cotrans; eauto.
Qed.

(** Distinct keys are separated, so a sort by rank does not depend on the order
    of its input. *)
Lemma ranked_separates x y :
  ranked_less x y = false -> ranked_less y x = false -> scored x -> scored y -> key x = key y.
Proof.
  intros H1 H2 Hx Hy. unfold ranked_less in *. rewrite (feqb_sym (score y)) in H2.
  destruct (score x =? score y)%f64 eqn:E; simpl in *; [by apply string_less_total|].
  exfalso. apply not_true_iff_false in E. apply E, feqb_key. split; [done|]. split; [done|].
  revert H1 H2. rewrite !fltb_false. unfold flt. rewrite Hx, Hy.
  destruct (fkey (score x)) as [[??]?], (fkey (score y)) as [[??]?]. simpl. intros H1 H2.
  repeat f_equal; lia.
Qed.

Lemma ranked_sort_sorted l :
  Forall scored l -> StronglySorted (not_after ranked_less) (go_sort ranked_less l).
Proof. apply go_sort_sorted; [by intros; apply ranked_asym|apply ranked_cotrans]. Qed.

Lemma ranked_sort_perm l1 l2 :
  Forall scored l1 -> NoDup (map key l1) -> l1 ≡ₚ l2 -> go_sort ranked_less l1 = go_sort ranked_less l2.
Proof.
  intros Hs Hd. apply (go_sort_perm_eq ranked_less scored); [|apply ranked_cotrans| |done].
  - by intros; apply ranked_asym.
  - intros x y Hx Hy H1 H2. rewrite Forall_forall in Hs.
    assert (E : key x = key y) by (apply ranked_separates; auto).
    apply list_elem_of_lookup in Hx as [i Hi], Hy as [j Hj].
    assert (i = j) as ->; [|by simplify_eq].
    eapply NoDup_lookup; [exact Hd| |]; change (map key l1) with (key <$> l1);
      rewrite list_lookup_fmap; [by rewrite Hi|by rewrite Hj, E].
Qed.
End Ranked.

(** ** Clamps

    [if x < lo { x = lo }; if x > hi { x = hi }]. *)

Definition fclamp (lo hi x : f64) : f64 :=
  let x := if (x <? lo)%f64 then lo else x in
  if (x >? hi)%f64 then hi else x.

Lemma fclamp_range lo hi x :
  is_nan x = false -> fleb lo hi = true ->
  fleb lo (fclamp lo hi x) = true /\ fleb (fclamp lo hi x) hi = true.
Proof.
  intros Hx Hle. destruct (fleb_not_nan _ _ Hle) as [Hlo Hhi]. unfold fclamp.
  destruct (fltb x lo) eqn:E1.
  - destruct (fltb hi lo) eqn:E2; [|by auto with go]. split; [done|by apply fleb_refl].
  - apply fltb_ge in E1; [|done..].
    destruct (fltb hi x) eqn:E2; split; auto with go. by apply fltb_ge in E2.
Qed.

Lemma fclamp_not_nan lo hi x :
  is_nan lo = false -> is_nan hi = false -> is_nan x = false -> is_nan (fclamp lo hi x) = false.
Proof. intros. unfold fclamp. go_cases. Qed.

(** ** Arithmetic that is not NaN

    Rounding a non-negative significand never yields the NaN of the rounding
    function's impossible case, so sums and products of finite numbers are
    numbers. *)

Lemma shr_1_nonneg r : 0 <= shr_m r -> 0 <= shr_m (shr_1 r).
Proof. destruct r as [[|[]|[]] ? ?]; simpl; lia. Qed.

Lemma iter_shr_nonneg p r : 0 <= shr_m r -> 0 <= shr_m (SpecFloat.iter_pos shr_1 p r).
Proof.
  revert r. induction p as [p IH|p IH|]; intros r Hr; simpl; [| |by apply shr_1_nonneg].
  - by apply IH, IH, shr_1_nonneg.
  - by apply IH, IH.
Qed.

Lemma shr_fexp_nonneg m e l : 0 <= m -> 0 <= shr_m (shr_fexp f64_prec f64_emax m e l).1.
Proof.
  intros Hm. unfold shr_fexp, shr.
  assert (Hl : 0 <= shr_m (shr_record_of_loc m l)) by (by destruct l as [|[]]).
  destruct (fexp _ _ _ - e); simpl; [done|by apply iter_shr_nonneg|done].
Qed.

Lemma round_nearest_nonneg m l : 0 <= m -> 0 <= round_nearest_even m l.
Proof. intros. destruct l as [|[]]; simpl; try destruct (Z.even m); lia. Qed.

Lemma binary_round_aux_not_nan s m e l :
  0 <= m -> is_nan (binary_round_aux f64_prec f64_emax s m e l) = false.
Proof.
  intros Hm. unfold binary_round_aux. pose proof (shr_fexp_nonneg m e l Hm) as H1.
  destruct (shr_fexp _ _ m e l) as [r1 e1]. simpl in H1.
  pose proof (shr_fexp_nonneg _ e1 loc_Exact (round_nearest_nonneg _ (loc_of_shr_record r1) H1)) as H2.
  destruct (shr_fexp _ _ (round_nearest_even _ _) _ _) as [r2 e2]. simpl in H2.
  destruct (shr_m r2); [done|by destruct (_ <=? _)|lia].
Qed.

Lemma binary_normalize_not_nan m e z : is_nan (binary_normalize f64_prec f64_emax m e z) = false.
Proof.
  unfold binary_normalize, binary_round. destruct m; [done| |];
    destruct (shl_align _ _ _); by apply binary_round_aux_not_nan.
Qed.

Lemma fadd_not_nan x y : finite x = true -> is_nan y = false -> is_nan (fadd x y) = false.
Proof.
  unfold finite, fadd. destruct x as [[]|[]| |[] ? ?], y as [[]|[]| |[] ? ?]; try done;
    intros _ _; by apply binary_normalize_not_nan.
Qed.

Lemma fsub_not_nan x y : is_nan x = false -> finite y = true -> is_nan (fsub x y) = false.
Proof.
  unfold finite, fsub. destruct x as [[]|[]| |[] ? ?], y as [[]|[]| |[] ? ?]; try done;
    intros _ _; by apply binary_normalize_not_nan.
Qed.

Lemma fmul_not_nan x y : finite x = true -> finite y = true -> is_nan (fmul x y) = false.
Proof.
  unfold finite, fmul. destruct x as [[]|[]| |[] ? ?], y as [[]|[]| |[] ? ?]; try done;
    intros _ _; by apply binary_round_aux_not_nan.
Qed.

(** Between two numbers everything is finite. *)
Lemma fleb_finite lo x hi :
  finite lo = true -> finite hi = true -> fleb lo x = true -> fleb x hi = true -> finite x = true.
Proof. unfold finite, fleb. destruct lo, x as [|[]| |], hi; done. Qed.
