(* ===== verification/Rounding.v ===== *)
(** Correct rounding is monotone.

    The operations of Float64.v round an exact quotient [a / b * 2^e] once.
    [Rounded a b e x] says that [x] is that rounding; it does not depend on how
    the value is written, so one lemma ([Rounded_le]) gives the monotonicity of
    sums, products, quotients and conversions on non-negative numbers, and the
    bounds of the averages and ratios the kernel computes.

    A [valid] float is one a 64-bit pattern can hold: Go has no others. *)

From Stdlib Require Import ZArith Lia Bool Floats.SpecFloat.
From stdpp Require Import tactics base numbers list.
From S2P Require Import Prelude Float64.

#[global] Open Scope Z_scope.

Definition emin64 : Z := -1074.
Abbreviation fexp64 := (fexp f64_prec f64_emax).

Definition valid (x : f64) : bool := valid_binary f64_prec f64_emax x.

Lemma fexp64_eq e : fexp64 e = Z.max (e - 53) (-1074).
Proof. reflexivity. Qed.

(** ** Digits *)

Lemma digits2_log2 p : Z.pos (digits2_pos p) = Z.log2 (Z.pos p) + 1.
Proof.
  induction p as [p IH|p IH|]; simpl digits2_pos; [| |done].
  - rewrite Pos2Z.inj_succ, IH, Pos2Z.inj_xI, Z.log2_succ_double by lia. lia.
  - rewrite Pos2Z.inj_succ, IH, Pos2Z.inj_xO, Z.log2_double by lia. lia.
Qed.

Lemma digits_bounds m :
  0 < m -> 2 ^ (Zdigits2 m - 1) <= m < 2 ^ Zdigits2 m /\ 0 < Zdigits2 m.
Proof.
  destruct m as [|p|]; [lia| |lia]. intros _. simpl. rewrite digits2_log2.
  pose proof (Z.log2_spec (Z.pos p) ltac:(lia)). pose proof (Z.log2_nonneg (Z.pos p)).
  rewrite Z.add_simpl_r, Z.add_1_r. split; [done|lia].
Qed.

Lemma digits_le m k : 0 <= k -> 0 <= m < 2 ^ k -> Zdigits2 m <= k.
Proof.
  intros Hk Hm. destruct (decide (m = 0)) as [->|]; [done|].
  destruct (digits_bounds m) as [[Hl _] ?]; [lia|].
  apply Z.le_trans with ((Zdigits2 m - 1) + 1); [lia|].
  assert (Zdigits2 m - 1 < k); [|lia]. apply (Z.pow_lt_mono_r_iff 2); lia.
Qed.

Lemma digits_ge m k : 0 <= k -> 2 ^ k <= m -> k + 1 <= Zdigits2 m.
Proof.
  intros Hk Hm. pose proof (Z.pow_pos_nonneg 2 k ltac:(lia) Hk).
  destruct (digits_bounds m) as [[_ Hu] ?]; [lia|].
  assert (k < Zdigits2 m); [|lia]. apply (Z.pow_lt_mono_r_iff 2); lia.
Qed.

(** ** Sticky codes

    Mantissa, round bit and sticky bit as one integer; the code of [a / b]
    halves with the record. *)

Definition rcode (r : shr_record) : Z := 4 * shr_m r + 2 * Z.b2z (shr_r r) + Z.b2z (shr_s r).
Definition qcode (a b : Z) : Z := 2 * ((2 * a) / b) + Z.b2z (negb ((2 * a) mod b =? 0)).

Lemma b2z_range b : 0 <= Z.b2z b <= 1.
Proof. destruct b; simpl; lia. Qed.

(** The location of a remainder: nothing, below, at or above the half. *)
Lemma new_location_cases b r :
  0 <= r < b ->
  new_location b r = if r =? 0 then loc_Exact else loc_Inexact (2 * r ?= b).
Proof.
  intros Hr. unfold new_location. destruct (Z.even b) eqn:Ev; [done|].
  unfold new_location_odd. destruct (Z.eqb_spec r 0); [done|]. f_equal.
  assert (2 * r <> b) by (intros <-; by rewrite Z.even_mul in Ev).
  change (Z.mul (Zpos 2) r) with (2 * r).
  destruct (Z.compare_spec (2 * r + 1) b), (Z.compare_spec (2 * r) b); done || lia.
Qed.

Lemma qcode_loc a b :
  0 <= a -> 0 < b ->
  rcode (shr_record_of_loc (a / b) (new_location b (a mod b))) = qcode a b.
Proof.
  intros Ha Hb. unfold rcode, qcode.
  pose proof (Z.div_mod a b ltac:(lia)) as Hd. pose proof (Z.mod_pos_bound a b Hb) as Hr.
  rewrite new_location_cases by done. set (q := a / b) in *. set (r := a mod b) in *.
  destruct (Z.ltb_spec (2 * r) b) as [Hlt|Hge].
  - rewrite <- (Z.div_unique (2 * a) b (2 * q) (2 * r)), <- (Z.mod_unique (2 * a) b (2 * q) (2 * r)) by lia.
    destruct (Z.eqb_spec r 0), (Z.eqb_spec (2 * r) 0); simpl; try lia.
    destruct (Z.compare_spec (2 * r) b); simpl; lia.
  - rewrite <- (Z.div_unique (2 * a) b (2 * q + 1) (2 * r - b)),
      <- (Z.mod_unique (2 * a) b (2 * q + 1) (2 * r - b)) by lia.
    destruct (Z.eqb_spec r 0), (Z.eqb_spec (2 * r - b) 0); simpl; try lia;
      destruct (Z.compare_spec (2 * r) b); simpl; lia.
Qed.

Lemma shr_1_code r : 0 <= shr_m r ->
  rcode (shr_1 r) = 2 * shr_m r + Z.b2z (shr_r r || shr_s r) /\ 0 <= shr_m (shr_1 r).
Proof. destruct r as [[|[p|p|]|p] r s]; simpl; intros; try lia; unfold rcode; simpl; lia. Qed.

(** Halving a quotient: a record coding [a / b], shifted once, codes [a / 2b]. *)
Lemma shr_1_qcode r a b :
  0 <= a -> 0 < b -> 0 <= shr_m r -> rcode r = qcode a b ->
  rcode (shr_1 r) = qcode a (2 * b) /\ 0 <= shr_m (shr_1 r).
Proof.
  intros Ha Hb Hm Hc. destruct (shr_1_code r Hm) as [-> ?]. split; [|done].
  unfold rcode, qcode in *. rewrite Z.div_mul_cancel_l, Z.mul_mod_distr_l by lia.
  pose proof (Z.div_mod (2 * a) b ltac:(lia)). pose proof (Z.mod_pos_bound (2 * a) b Hb).
  pose proof (Z.div_mod a b ltac:(lia)). pose proof (Z.mod_pos_bound a b Hb).
  destruct (shr_r r), (shr_s r), (Z.eqb_spec ((2 * a) mod b) 0), (Z.eqb_spec (2 * (a mod b)) 0);
    simpl in *; nia.
Qed.

Lemma iter_shr_qcode p r a b :
  0 <= a -> 0 < b -> 0 <= shr_m r -> rcode r = qcode a b ->
  rcode (SpecFloat.iter_pos shr_1 p r) = qcode a (b * 2 ^ Z.pos p)
  /\ 0 <= shr_m (SpecFloat.iter_pos shr_1 p r).
Proof.
  intros Ha. revert r b. induction p as [p IH|p IH|]; intros r b Hb Hm Hc; simpl SpecFloat.iter_pos.
  - destruct (shr_1_qcode r a b) as [H1 M1]; try done.
    apply (IH _ (2 * b)) in H1 as [H2 M2]; [|lia|done].
    apply IH in H2 as [H3 M3]; [|lia|done]. split; [|done]. rewrite H3. f_equal.
    rewrite (Pos2Z.inj_xI p). replace (2 * Z.pos p + 1) with (1 + Z.pos p + Z.pos p) by lia.
    rewrite !Z.pow_add_r by lia. lia.
  - apply IH in Hc as [H2 M2]; [|lia|done].
    apply IH in H2 as [H3 M3]; [|lia|done]. split; [|done]. rewrite H3. f_equal.
    rewrite (Pos2Z.inj_xO p). replace (2 * Z.pos p) with (Z.pos p + Z.pos p) by lia.
    rewrite Z.pow_add_r by lia. lia.
  - destruct (shr_1_qcode r a b) as [H1 M1]; try done. split; [|done]. rewrite H1. f_equal. lia.
Qed.

(** Rounding to nearest, ties to even, on codes. *)
Definition rint (c : Z) : Z :=
  c / 4 + Z.b2z ((c mod 4 =? 3) || ((c mod 4 =? 2) && Z.odd (c / 4))).
Definition nearest (a b : Z) : Z := rint (qcode a b).

Lemma rint_code r : 0 <= shr_m r ->
  round_nearest_even (shr_m r) (loc_of_shr_record r) = rint (rcode r).
Proof.
  intros Hm. destruct r as [m x y]. unfold rcode, rint. simpl in *.
  assert (Hq : forall c, 0 <= c < 4 -> (4 * m + c) / 4 = m /\ (4 * m + c) mod 4 = c).
  { intros c Hc. split; [symmetry; apply (Z.div_unique _ _ _ c)|symmetry; apply (Z.mod_unique _ _ m)]; lia. }
  assert (Hc : forall e c, e = 4 * m + c -> 0 <= c < 4 ->
    e / 4 + Z.b2z ((e mod 4 =? 3) || ((e mod 4 =? 2) && Z.odd (e / 4)))
    = m + Z.b2z ((c =? 3) || ((c =? 2) && Z.odd m))).
  { intros e c -> Hc. by destruct (Hq c Hc) as [-> ->]. }
  destruct x, y; simpl.
  - rewrite (Hc _ 3) by lia. done.
  - rewrite (Hc _ 2) by lia. rewrite <- Z.negb_even. destruct (Z.even m); simpl; lia.
  - rewrite (Hc _ 1) by lia. simpl. lia.
  - rewrite (Hc _ 0) by lia. simpl. lia.
Qed.

Lemma rint_mono c d : c <= d -> rint c <= rint d.
Proof.
  intros H. unfold rint. pose proof (Z.div_mod c 4 ltac:(lia)). pose proof (Z.div_mod d 4 ltac:(lia)).
  pose proof (Z.mod_pos_bound c 4 ltac:(lia)). pose proof (Z.mod_pos_bound d 4 ltac:(lia)).
  pose proof (b2z_range ((c mod 4 =? 3) || ((c mod 4 =? 2) && Z.odd (c / 4)))).
  pose proof (b2z_range ((d mod 4 =? 3) || ((d mod 4 =? 2) && Z.odd (d / 4)))).
  destruct (decide (c / 4 = d / 4)) as [E|E]; [|lia]. rewrite E in *.
  destruct (Z.eqb_spec (c mod 4) 3), (Z.eqb_spec (c mod 4) 2), (Z.eqb_spec (d mod 4) 3),
    (Z.eqb_spec (d mod 4) 2), (Z.odd (d / 4)); simpl in *; lia.
Qed.

Lemma qcode_mono a1 b1 a2 b2 :
  0 < b1 -> 0 < b2 -> a1 * b2 <= a2 * b1 -> qcode a1 b1 <= qcode a2 b2.
Proof.
  intros H1 H2 H. unfold qcode.
  pose proof (Z.div_mod (2 * a1) b1 ltac:(lia)) as D1. pose proof (Z.mod_pos_bound (2 * a1) b1 H1) as R1.
  pose proof (Z.div_mod (2 * a2) b2 ltac:(lia)) as D2. pose proof (Z.mod_pos_bound (2 * a2) b2 H2) as R2.
  set (q1 := 2 * a1 / b1) in *. set (q2 := 2 * a2 / b2) in *.
  set (r1 := (2 * a1) mod b1) in *. set (r2 := (2 * a2) mod b2) in *.
  assert (Hx : (b1 * q1 + r1) * b2 <= (b2 * q2 + r2) * b1) by (rewrite <- D1, <- D2; lia).
  clear D1 D2.
  assert (Hb : 0 < b1 * b2) by lia.
  assert (q1 < q2 + 1).
  { apply (Z.mul_lt_mono_pos_l (b1 * b2)); [done|].
    assert (0 <= r1 * b2) by (apply Z.mul_nonneg_nonneg; lia).
    assert (r2 * b1 < b2 * b1) by (apply Z.mul_lt_mono_pos_r; lia). lia. }
  destruct (decide (q1 = q2)) as [E|]; [|destruct (Z.eqb_spec r1 0), (Z.eqb_spec r2 0); simpl; lia].
  rewrite E in *. destruct (Z.eqb_spec r1 0), (Z.eqb_spec r2 0); simpl; lia.
Qed.

Lemma nearest_mono a1 b1 a2 b2 :
  0 < b1 -> 0 < b2 -> a1 * b2 <= a2 * b1 -> nearest a1 b1 <= nearest a2 b2.
Proof. intros. by apply rint_mono, qcode_mono. Qed.

Lemma nearest_exact k b : 0 < b -> nearest (k * b) b = k.
Proof.
  intros. unfold nearest, qcode, rint. replace (2 * (k * b)) with (2 * k * b) by lia.
  rewrite Z.div_mul, Z.mod_mul by lia. simpl. replace (2 * (2 * k) + 0) with (k * 4) by lia.
  rewrite Z.div_mul, Z.mod_mul by lia. simpl. lia.
Qed.

(** ** Rounding a quotient *)

Definition round_to (a b e : Z) : f64 :=
  binary_round_aux f64_prec f64_emax false (a / b) e (new_location b (a mod b)).

(** The exponent of the result, before a carry. *)
Definition target (a b e : Z) : Z := fexp64 (Zdigits2 (a / b) + e).

Definition fin (m e : Z) : f64 :=
  if e <=? 971 then match m with Z.pos p => S754_finite false p e | _ => f0 end else finf.

(** A rounded mantissa and its exponent; a carry to 2^53 is renormalised. *)
Definition pack (r t : Z) : f64 :=
  if r =? 0 then f0 else if r =? 2 ^ 53 then fin (2 ^ 52) (t + 1) else fin r t.

Lemma shr_fexp_exact m e :
  0 <= m < 2 ^ 53 -> -1074 <= e ->
  shr_fexp f64_prec f64_emax m e loc_Exact = (Build_shr_record m false false, e).
Proof.
  intros Hm He. unfold shr_fexp. rewrite fexp64_eq.
  pose proof (digits_le m 53 ltac:(lia) Hm).
  destruct (Z.max (Zdigits2 m + e - 53) (-1074) - e) eqn:E; [done|lia|done].
Qed.

Lemma shr_fexp_carry e :
  -1074 <= e -> shr_fexp f64_prec f64_emax (2 ^ 53) e loc_Exact = (Build_shr_record (2 ^ 52) false false, e + 1).
Proof.
  intros He. unfold shr_fexp. rewrite fexp64_eq. change (Zdigits2 (2 ^ 53)) with 54.
  replace (Z.max (54 + e - 53) (-1074) - e) with 1 by lia. done.
Qed.

Lemma shr_code a b e l n :
  0 <= a -> 0 < b -> 0 <= n ->
  rcode (shr_record_of_loc (a / b) l) = qcode a b ->
  rcode (shr (shr_record_of_loc (a / b) l) e n).1 = qcode a (b * 2 ^ n)
  /\ 0 <= shr_m (shr (shr_record_of_loc (a / b) l) e n).1
  /\ (shr (shr_record_of_loc (a / b) l) e n).2 = e + n.
Proof.
  intros Ha Hb Hn Hc.
  assert (Hm : 0 <= shr_m (shr_record_of_loc (a / b) l)).
  { pose proof (Z.div_pos a b Ha Hb). by destruct l as [|[]]. }
  destruct n as [|p|p]; simpl; [|by destruct (iter_shr_qcode p _ a b Ha Hb Hm Hc)|lia].
  rewrite Z.mul_1_r, Z.add_0_r. done.
Qed.

Lemma target_spec a b e (t := target a b e) :
  0 <= a -> 0 < b -> e <= t ->
  -1074 <= t /\ a < 2 ^ 53 * (b * 2 ^ (t - e))
  /\ (t = -1074 \/ 2 ^ 52 * (b * 2 ^ (t - e)) <= a).
Proof.
  intros Ha Hb He. subst t. unfold target in *. rewrite fexp64_eq in *.
  set (q := a / b) in *. set (t := Z.max _ _) in *.
  pose proof (Z.div_mod a b ltac:(lia)) as Hd. pose proof (Z.mod_pos_bound a b Hb) as Hr.
  assert (0 <= q) by (by apply Z.div_pos). fold q in Hd.
  assert (Hp : 0 < 2 ^ (t - e)) by (apply Z.pow_pos_nonneg; lia).
  split; [lia|].
  destruct (decide (q = 0)) as [Hq|Hq].
  - assert (Zdigits2 q = 0) by (by rewrite Hq). assert (t = -1074) by (unfold t in *; lia).
    rewrite Hq in Hd. split; [|by left].
    assert (1 * b <= 2 ^ (t - e) * b) by (apply Z.mul_le_mono_nonneg_r; lia). lia.
  - destruct (digits_bounds q) as [[Hl Hu] Hd0]; [lia|].
    split.
    + assert (2 ^ Zdigits2 q <= 2 ^ 53 * 2 ^ (t - e)).
      { rewrite <- Z.pow_add_r by lia. apply Z.pow_le_mono_r; lia. }
      apply Z.lt_le_trans with (b * 2 ^ Zdigits2 q); [|nia]. nia.
    + destruct (decide (t = -1074)) as [|Ht]; [by left|right].
      assert (2 ^ 52 * 2 ^ (t - e) = 2 ^ (Zdigits2 q - 1)).
      { rewrite <- Z.pow_add_r by lia. f_equal. lia. }
      nia.
Qed.

Lemma nearest_bounds a b :
  0 <= a -> 0 < b -> a < 2 ^ 53 * b -> 0 <= nearest a b <= 2 ^ 53.
Proof.
  intros Ha Hb Hu. pose proof (nearest_mono (0 * b) b a b Hb Hb ltac:(nia)).
  pose proof (nearest_mono a b (2 ^ 53 * b) b Hb Hb ltac:(nia)). by rewrite !nearest_exact in *.
Qed.

Lemma round_to_pack a b e (t := target a b e) :
  0 <= a -> 0 < b -> e <= t ->
  round_to a b e = pack (nearest a (b * 2 ^ (t - e))) t.
Proof.
  intros Ha Hb He. destruct (target_spec a b e Ha Hb He) as (Ht & Hu & _). fold t in Ht, Hu.
  assert (Hp : 0 < b * 2 ^ (t - e)) by (apply Z.mul_pos_pos; [lia|apply Z.pow_pos_nonneg; lia]).
  pose proof (nearest_bounds a _ Ha Hp Hu) as Hn.
  unfold round_to, binary_round_aux, shr_fexp at 1. fold (target a b e). fold t.
  destruct (shr_code a b e (new_location b (a mod b)) (t - e) Ha Hb) as (Hc & Hm & Hs);
    [lia|by apply qcode_loc|].
  destruct (shr _ _ _) as [rec t'] eqn:E. simpl in Hc, Hm, Hs. replace t' with t by lia. clear E Hs t'.
  rewrite rint_code, Hc by done. fold (nearest a (b * 2 ^ (t - e))).
  set (r := nearest _ _) in *. unfold pack.
  destruct (Z.eqb_spec r (2 ^ 53)) as [->|Hr].
  - rewrite shr_fexp_carry by done. done.
  - rewrite shr_fexp_exact by lia. simpl. unfold fin. destruct r; [done|done|lia].
Qed.

Lemma pack_le r1 t1 r2 t2 :
  0 <= r1 <= 2 ^ 53 -> 0 <= r2 <= 2 ^ 53 ->
  (t1 = t2 /\ r1 <= r2) \/ (t1 < t2 /\ 2 ^ 52 <= r2) ->
  fleb (pack r1 t1) (pack r2 t2) = true.
Proof.
  intros H1 H2 H. apply fleb_fle. unfold pack, fin.
  destruct (Z.eqb_spec r1 0), (Z.eqb_spec r2 0); try lia;
    destruct (Z.eqb_spec r1 (2 ^ 53)), (Z.eqb_spec r2 (2 ^ 53));
    repeat match goal with |- context [?a <=? ?b] => destruct (Z.leb_spec a b) end;
    destruct r1, r2; try lia; (split; [done|split; [done|]]); simpl; lia.
Qed.

(** ** The relation *)

Record Rounded (a b e : Z) (x : f64) : Prop := {
  rd_num : 0 <= a;
  rd_den : 0 < b;
  rd_fine : e <= target a b e;
  rd_eq : x = round_to a b e;
}.

(** [a1/b1 * 2^e1 <= a2/b2 * 2^e2]. *)
Definition qle (a1 b1 e1 a2 b2 e2 : Z) : Prop :=
  a1 * 2 ^ (e1 - Z.min e1 e2) * b2 <= a2 * 2 ^ (e2 - Z.min e1 e2) * b1.

Theorem Rounded_le a1 b1 e1 x1 a2 b2 e2 x2 :
  Rounded a1 b1 e1 x1 -> Rounded a2 b2 e2 x2 -> qle a1 b1 e1 a2 b2 e2 -> fleb x1 x2 = true.
Proof.
  intros [A1 B1 F1 ->] [A2 B2 F2 ->] Hq. unfold qle in Hq.
  rewrite !round_to_pack by done.
  destruct (target_spec a1 b1 e1 A1 B1 F1) as (T1 & U1 & L1).
  destruct (target_spec a2 b2 e2 A2 B2 F2) as (T2 & U2 & L2).
  set (t1 := target a1 b1 e1) in *. set (t2 := target a2 b2 e2) in *.
  set (e0 := Z.min e1 e2) in *.
  assert (P1 : 0 < 2 ^ (t1 - e1)) by (apply Z.pow_pos_nonneg; lia).
  assert (P2 : 0 < 2 ^ (t2 - e2)) by (apply Z.pow_pos_nonneg; lia).
  assert (D1 : 0 < b1 * 2 ^ (t1 - e1)) by (by apply Z.mul_pos_pos).
  assert (D2 : 0 < b2 * 2 ^ (t2 - e2)) by (by apply Z.mul_pos_pos).
  assert (X1 : 2 ^ (t1 - e0) = 2 ^ (t1 - e1) * 2 ^ (e1 - e0)) by (rewrite <- Z.pow_add_r by lia; f_equal; lia).
  assert (X2 : 2 ^ (t2 - e0) = 2 ^ (t2 - e2) * 2 ^ (e2 - e0)) by (rewrite <- Z.pow_add_r by lia; f_equal; lia).
  assert (Q1 : 0 < 2 ^ (e1 - e0)) by (apply Z.pow_pos_nonneg; lia).
  assert (Q2 : 0 < 2 ^ (e2 - e0)) by (apply Z.pow_pos_nonneg; lia).
  assert (U2' : a2 * 2 ^ (e2 - e0) < 2 ^ 53 * (b2 * 2 ^ (t2 - e0))).
  { rewrite X2. apply (Z.mul_lt_mono_pos_r (2 ^ (e2 - e0))) in U2; [lia|done]. }
  assert (L1' : t1 = -1074 \/ 2 ^ 52 * (b1 * 2 ^ (t1 - e0)) <= a1 * 2 ^ (e1 - e0)).
  { destruct L1 as [|L1]; [by left|right]. rewrite X1.
    apply (Z.mul_le_mono_nonneg_r _ _ (2 ^ (e1 - e0))) in L1; lia. }
  assert (Ht : t1 <= t2).
  { apply Z.nlt_ge. intros Hlt. destruct L1' as [|L1']; [lia|].
    assert (2 ^ (t2 - e0 + 1) <= 2 ^ (t1 - e0)) as Hp by (apply Z.pow_le_mono_r; lia).
    rewrite Z.pow_add_r in Hp by lia.
    apply (Z.mul_le_mono_nonneg_r _ _ b2) in L1'; [|lia].
    apply (Z.mul_lt_mono_pos_r b1) in U2'; [|lia].
    apply (Z.mul_le_mono_nonneg_r _ _ (b1 * b2)) in Hp; [lia|].
    assert (0 < b1 * b2) by (by apply Z.mul_pos_pos). lia. }
  apply pack_le; [by apply nearest_bounds..|].
  destruct (decide (t1 = t2)) as [E|E]; [left|right].
  - split; [done|]. apply nearest_mono; [done..|].
    apply (Z.mul_le_mono_pos_r _ _ (2 ^ (e1 - e0) * 2 ^ (e2 - e0))); [by apply Z.mul_pos_pos|].
    rewrite E in *. clear -Hq X1 X2 P1 P2 Q1 Q2.
    apply (Z.mul_le_mono_nonneg_r _ _ (2 ^ (t2 - e0))) in Hq; [|lia].
    rewrite X2 in Hq at 1. rewrite X1 in Hq. lia.
  - split; [lia|]. rewrite <- (nearest_exact (2 ^ 52) _ D2). apply nearest_mono; [done..|].
    destruct L2 as [|L2]; [lia|]. apply Z.mul_le_mono_nonneg_r; lia.
Qed.
