(* ===== verification/FloatBounds.v ===== *)
(** The values of floats, as rationals, and the arithmetic on them.

    [fval x] is the exact value of a non-negative finite float and
    [Rounds v x] says that [x] is the correct rounding of the value [v].  Each
    operation rounds the exact operation on values; rounding is monotone; so a
    comparison of results follows from one of rationals, by linear arithmetic. *)

From Stdlib Require Import ZArith Lia Bool QArith Qpower Qfield Lqa Floats.SpecFloat.
From stdpp Require Import tactics base list.
From S2P Require Import Prelude Float64 Rounding.

#[global] Open Scope Z_scope.

(** The non-negative finite floats but minus zero. *)
Definition num (x : f64) : bool :=
  match x with
  | S754_zero s => negb s
  | S754_finite s m e => negb s && bounded f64_prec f64_emax m e
  | _ => false
  end.

Definition pow2 (e : Z) : Q := Qpower 2 e.
Definition val (a b e : Z) : Q := (inject_Z a / inject_Z b * pow2 e)%Q.
Definition fval (x : f64) : Q :=
  match x with S754_finite _ m e => (inject_Z (Z.pos m) * pow2 e)%Q | _ => 0%Q end.

(** ** Powers of two *)

Lemma pow2_pos e : (0 < pow2 e)%Q.
Proof. apply Qpower_0_lt. reflexivity. Qed.

Lemma pow2_add a b : (pow2 (a + b) == pow2 a * pow2 b)%Q.
Proof. by apply Qpower_plus. Qed.

Lemma pow2_Z n : 0 <= n -> (inject_Z (2 ^ n) == pow2 n)%Q.
Proof. intros. unfold pow2. rewrite Zpower_Qpower by done. reflexivity. Qed.

Lemma inject_pos b : 0 < b -> (0 < inject_Z b)%Q.
Proof. intros. change 0%Q with (inject_Z 0). by rewrite <- Zlt_Qlt. Qed.

Lemma inject_nonneg b : 0 <= b -> (0 <= inject_Z b)%Q.
Proof. intros. change 0%Q with (inject_Z 0). by rewrite <- Zle_Qle. Qed.

#[local] Hint Resolve pow2_pos inject_pos inject_nonneg : core.

Lemma val_scale a b e k :
  0 < b -> 0 <= k -> (val (a * 2 ^ k) b (e - k) == val a b e)%Q.
Proof.
  intros Hb Hk. unfold val. rewrite inject_Z_mult, pow2_Z by done.
  rewrite <- (Z.sub_add k e) at 2. rewrite pow2_add. field.
  intros E. pose proof (inject_pos b Hb). lra.
Qed.

Lemma qle_val a1 b1 e1 a2 b2 e2 :
  0 < b1 -> 0 < b2 -> (val a1 b1 e1 <= val a2 b2 e2)%Q -> qle a1 b1 e1 a2 b2 e2.
Proof.
  intros B1 B2 H. unfold qle. set (e0 := Z.min e1 e2).
  rewrite Zle_Qle, !inject_Z_mult, !pow2_Z by lia. unfold val in H.
  pose proof (inject_pos _ B1) as P1. pose proof (inject_pos _ B2) as P2.
  rewrite <- (Z.sub_add e0 e1), <- (Z.sub_add e0 e2), !pow2_add in H.
  rewrite <- (Qmult_le_r _ _ (pow2 e0)) by done.
  rewrite <- (Qmult_le_r _ _ (inject_Z b1 * inject_Z b2)) in H by nra.
  assert (E1 : (inject_Z a1 * pow2 (e1 - e0) * inject_Z b2 * pow2 e0
    == inject_Z a1 / inject_Z b1 * (pow2 (e1 - e0) * pow2 e0) * (inject_Z b1 * inject_Z b2))%Q)
    by (field; intros E; lra).
  assert (E2 : (inject_Z a2 * pow2 (e2 - e0) * inject_Z b1 * pow2 e0
    == inject_Z a2 / inject_Z b2 * (pow2 (e2 - e0) * pow2 e0) * (inject_Z b1 * inject_Z b2))%Q)
    by (field; intros E; lra).
  by rewrite E1, E2.
Qed.

(** ** Rounding a value *)

Definition Rounds (v : Q) (x : f64) : Prop :=
  exists a b e, Rounded a b e x /\ (val a b e == v)%Q.

#[export] Instance Rounds_proper : Proper (Qeq ==> eq ==> iff) Rounds.
Proof.
  intros v w Hvw x ? <-. unfold Rounds. split; intros (a & b & e & H & E);
    exists a, b, e; split; try done; by rewrite E, Hvw.
Qed.

Theorem Rounds_le v w x y : Rounds v x -> Rounds w y -> (v <= w)%Q -> fleb x y = true.
Proof.
  intros (a1 & b1 & e1 & H1 & E1) (a2 & b2 & e2 & H2 & E2) Hvw.
  apply (Rounded_le _ _ _ _ _ _ _ _ H1 H2), qle_val; [apply H1|apply H2|]. by rewrite E1, E2.
Qed.

(** What rounding gives: a number or an overflow. *)
Lemma pack_num r t : 0 <= r <= 2 ^ 53 -> -1074 <= t -> (t = -1074 \/ 2 ^ 52 <= r) ->
  pack r t = finf \/ num (pack r t) = true.
Proof.
  intros Hr Ht Hn. unfold pack, fin.
  destruct (Z.eqb_spec r 0); [by right|].
  destruct (Z.eqb_spec r (2 ^ 53)).
  - destruct (Z.leb_spec (t + 1) 971); [right|by left]. simpl. unfold bounded, canonical_mantissa.
    apply andb_true_iff. split; [|apply Z.leb_le; unfold f64_prec, f64_emax; lia].
    apply Z.eqb_eq. rewrite fexp64_eq. simpl digits2_pos. lia.
  - destruct (Z.leb_spec t 971); [right|by left]. destruct r as [|m|m]; [done| |lia]. simpl.
    unfold bounded, canonical_mantissa.
    apply andb_true_iff. split; [|apply Z.leb_le; unfold f64_prec, f64_emax; lia].
    apply Z.eqb_eq. rewrite fexp64_eq. change (Z.pos (digits2_pos m)) with (Zdigits2 (Z.pos m)).
    pose proof (digits_le (Z.pos m) 53 ltac:(lia) ltac:(lia)).
    destruct Hn as [->|Hn]; [lia|]. pose proof (digits_ge (Z.pos m) 52 ltac:(lia) Hn). lia.
Qed.

Lemma Rounded_num a b e x : Rounded a b e x -> x = finf \/ num x = true.
Proof.
  intros [A B F ->]. rewrite round_to_pack by done.
  destruct (target_spec a b e A B F) as (T & U & L).
  assert (D : 0 < b * 2 ^ (target a b e - e)) by (apply Z.mul_pos_pos; [done|apply Z.pow_pos_nonneg; lia]).
  apply pack_num; [by apply nearest_bounds|done|].
  destruct L as [|L]; [by left|right]. rewrite <- (nearest_exact (2 ^ 52) _ D). apply nearest_mono; [done..|].
  apply Z.mul_le_mono_nonneg_r; lia.
Qed.

Lemma Rounds_num v x : Rounds v x -> x = finf \/ num x = true.
Proof. intros (a & b & e & H & _). by eapply Rounded_num. Qed.

Lemma num_finite x : num x = true -> finite x = true.
Proof. by destruct x. Qed.

Lemma num_not_nan x : num x = true -> is_nan x = false.
Proof. by destruct x. Qed.

(** A number and infinity are told apart by the order. *)
Lemma fleb_antisym_num x y :
  (x = finf \/ num x = true) -> (y = finf \/ num y = true) ->
  fleb x y = true -> fleb y x = true -> x = y.
Proof.
  intros Hx Hy. rewrite !fleb_fle. unfold fle. intros (_ & _ & H1) (_ & _ & H2).
  destruct Hx as [->|Hx], Hy as [->|Hy];
    repeat match goal with H : num ?x = true |- _ => destruct x as [[]|[]| |[] ? ?]; try discriminate H; clear H end;
    simpl in *; try done; try lia.
  f_equal; lia.
Qed.

(** Two roundings of one value are equal. *)
Lemma Rounds_unique v x y : Rounds v x -> Rounds v y -> x = y.
Proof.
  intros Hx Hy. apply fleb_antisym_num; [by eapply Rounds_num..| |];
    [apply (Rounds_le v v)|apply (Rounds_le v v)]; done || apply Qle_refl.
Qed.

Lemma bounded_spec m e :
  bounded f64_prec f64_emax m e = true ->
  Z.pos m < 2 ^ 53 /\ -1074 <= e <= 971 /\ (e = -1074 \/ 2 ^ 52 <= Z.pos m).
Proof.
  unfold bounded, canonical_mantissa. rewrite andb_true_iff, Z.eqb_eq, Z.leb_le, fexp64_eq.
  change (Z.pos (digits2_pos m)) with (Zdigits2 (Z.pos m)). unfold f64_prec, f64_emax. intros [H1 H2].
  destruct (digits_bounds (Z.pos m)) as [[Hl Hu] Hd]; [lia|].
  assert (2 ^ Zdigits2 (Z.pos m) <= 2 ^ 53) by (apply Z.pow_le_mono_r; lia).
  split; [lia|]. split; [lia|].
  destruct (decide (e = -1074)) as [|He]; [by left|right].
  assert (Zdigits2 (Z.pos m) = 53) as E by lia. by rewrite E in Hl.
Qed.

(** A float is its own rounding. *)
Lemma Rounds_fval x : num x = true -> Rounds (fval x) x.
Proof.
  destruct x as [[]|[]| |[] m e]; try done.
  - intros _. exists 0, 1, (-1074). split; [|unfold val; simpl; field].
    split; [done|done|done|by vm_compute].
  - intros Hb. simpl in Hb. destruct (bounded_spec m e Hb) as (Hm & He & Hn).
    assert (Ht : target (Z.pos m) 1 e = e).
    { unfold target. rewrite Z.div_1_r. unfold bounded, canonical_mantissa in Hb.
      apply andb_true_iff in Hb as [Hb _]. by apply Z.eqb_eq in Hb. }
    exists (Z.pos m), 1, e. split; [|unfold val; simpl; field].
    split; [done|done|by rewrite Ht|].
    rewrite round_to_pack, Ht, Z.sub_diag, Z.pow_0_r, Z.mul_1_r by (rewrite ?Ht; lia).
    rewrite <- (Z.mul_1_r (Z.pos m)), nearest_exact by done. unfold pack, fin.
    destruct (Z.eqb_spec (Z.pos m) 0), (Z.eqb_spec (Z.pos m) (2 ^ 53)), (Z.leb_spec e 971); try lia. done.
Qed.

Lemma fval_nonneg x : (0 <= fval x)%Q.
Proof.
  destruct x; simpl; try apply Qle_refl.
  apply Qmult_le_0_compat; [apply inject_nonneg; lia|apply Qlt_le_weak, pow2_pos].
Qed.

(** ** The operations round the exact ones *)

Lemma Rounds_aux q e :
  0 <= q -> e <= fexp64 (Zdigits2 q + e) ->
  Rounds (inject_Z q * pow2 e) (binary_round_aux f64_prec f64_emax false q e loc_Exact).
Proof.
  intros Hq He. exists q, 1, e. split; [|unfold val; simpl; field].
  split; [done|done| |]; unfold target, round_to; rewrite Z.div_1_r; [done|].
  by rewrite Z.mod_1_r.
Qed.

Lemma iter_xO m d : Z.pos (Pos.iter xO m d) = Z.pos m * 2 ^ Z.pos d.
Proof.
  induction d as [|d IH] using Pos.peano_ind; [simpl; lia|].
  rewrite Pos.iter_succ, (Pos2Z.inj_xO (Pos.iter _ _ _)), IH, Pos2Z.inj_succ, Z.pow_succ_r by lia. lia.
Qed.

Lemma shl_align_spec m e e' :
  let '(m', ez) := shl_align m e e' in
  exists k, 0 <= k /\ ez = e - k /\ Z.pos m' = Z.pos m * 2 ^ k /\ ez <= e' \/ ez = e /\ m' = m /\ e <= e'.
Proof.
  unfold shl_align. destruct (e' - e) eqn:E; [exists 0; right; lia|exists 0; right; lia|].
  exists (Z.pos p). left. rewrite iter_xO. lia.
Qed.

Lemma shl_align_fst m e e' : e' <= e -> Z.pos (fst (shl_align m e e')) = Z.pos m * 2 ^ (e - e').
Proof.
  intros He. unfold shl_align. destruct (e' - e) eqn:E; simpl; [|lia|].
  - replace (e - e') with 0 by lia. lia.
  - rewrite iter_xO. f_equal. f_equal. lia.
Qed.

Lemma digits_shift m k : 0 < m -> 0 <= k -> Zdigits2 (m * 2 ^ k) = Zdigits2 m + k.
Proof.
  intros Hm Hk. pose proof (Z.pow_pos_nonneg 2 k ltac:(lia) Hk) as Hp.
  destruct (digits_bounds m Hm) as [[Hl Hu] Hd].
  apply Z.le_antisymm.
  - apply digits_le; [lia|]. split; [lia|]. rewrite Z.pow_add_r by lia. apply Z.mul_lt_mono_pos_r; lia.
  - replace (Zdigits2 m + k) with ((Zdigits2 m - 1 + k) + 1) by lia. apply digits_ge; [lia|].
    rewrite Z.pow_add_r by lia. apply Z.mul_le_mono_nonneg_r; lia.
Qed.

Lemma scale_val a e k : 0 <= k -> (inject_Z (a * 2 ^ k) * pow2 (e - k) == inject_Z a * pow2 e)%Q.
Proof.
  intros Hk. rewrite inject_Z_mult, pow2_Z by done.
  rewrite <- (Z.sub_add k e) at 2. rewrite pow2_add. ring.
Qed.

Lemma Rounds_binary_round m e :
  Rounds (inject_Z (Z.pos m) * pow2 e) (binary_round f64_prec f64_emax false m e).
Proof.
  unfold binary_round. pose proof (shl_align_spec m e (fexp64 (Z.pos (digits2_pos m) + e))) as H.
  destruct (shl_align _ _ _) as [m' ez]. destruct H as (k & [(Hk & -> & Hm & He)|(-> & -> & He)]).
  - rewrite <- (scale_val _ e k) by done. rewrite <- Hm. apply Rounds_aux; [lia|].
    rewrite Hm, digits_shift by lia. simpl Zdigits2.
    replace (Z.pos (digits2_pos m) + k + (e - k)) with (Z.pos (digits2_pos m) + e) by lia. done.
  - by apply Rounds_aux; [lia|].
Qed.

Lemma Rounds_zero v : (v == 0)%Q -> Rounds v f0.
Proof. intros ->. by apply (Rounds_fval f0). Qed.

Lemma Rounds_normalize m e :
  0 <= m -> Rounds (inject_Z m * pow2 e) (binary_normalize f64_prec f64_emax m e false).
Proof.
  intros Hm. destruct m as [|m|m]; [|apply Rounds_binary_round|lia]. simpl. apply Rounds_zero. ring.
Qed.

Theorem Rounds_of_int n : 0 <= n -> Rounds (inject_Z n) (f_of_int n).
Proof.
  intros Hn. assert (E : (inject_Z n == inject_Z n * pow2 0)%Q) by (unfold pow2; simpl; ring).
  rewrite E. by apply Rounds_normalize.
Qed.

(** The common exponent of two operands. *)
Lemma align_val m e e0 :
  e0 <= e -> (inject_Z (Z.pos m * 2 ^ (e - e0)) * pow2 e0 == inject_Z (Z.pos m) * pow2 e)%Q.
Proof. intros He. replace e0 with (e - (e - e0)) at 2 by lia. apply scale_val. lia. Qed.

Theorem Rounds_fadd x y :
  num x = true -> num y = true -> Rounds (fval x + fval y) (fadd x y).
Proof.
  intros Hx Hy.
  destruct x as [[]|[]| |[] m1 e1], y as [[]|[]| |[] m2 e2]; try done; unfold fadd, SFadd.
  - apply Rounds_zero. simpl. ring.
  - assert (E : (fval (S754_zero false) + fval (S754_finite false m2 e2) == fval (S754_finite false m2 e2))%Q)
      by apply Qplus_0_l.
    rewrite E. by apply Rounds_fval.
  - assert (E : (fval (S754_finite false m1 e1) + fval (S754_zero false) == fval (S754_finite false m1 e1))%Q)
      by apply Qplus_0_r.
    rewrite E. by apply Rounds_fval.
  - cbn [cond_Zopp fval]. rewrite <- (align_val m1 e1 (Z.min e1 e2)), <- (align_val m2 e2 (Z.min e1 e2)) by lia.
    rewrite <- Qmult_plus_distr_l, <- inject_Z_plus, <- !shl_align_fst by lia. by apply Rounds_normalize.
Qed.

Lemma fval_pos m e : (0 < fval (S754_finite false m e))%Q.
Proof. simpl. apply Qmult_lt_0_compat; [by apply inject_pos|apply pow2_pos]. Qed.

Theorem Rounds_fsub x y :
  num x = true -> num y = true -> (fval y <= fval x)%Q -> Rounds (fval x - fval y) (fsub x y).
Proof.
  intros Hx Hy Hle.
  destruct x as [[]|[]| |[] m1 e1], y as [[]|[]| |[] m2 e2]; try done; unfold fsub, SFsub.
  - apply Rounds_zero. simpl. ring.
  - pose proof (fval_pos m2 e2). simpl in *. lra.
  - assert (E : (fval (S754_finite false m1 e1) - fval (S754_zero false) == fval (S754_finite false m1 e1))%Q)
      by (unfold fval at 2; ring).
    rewrite E. by apply Rounds_fval.
  - simpl in Hle. simpl cond_Zopp. simpl fval.
    rewrite <- (align_val m1 e1 (Z.min e1 e2)), <- (align_val m2 e2 (Z.min e1 e2)) in * by lia.
    rewrite !shl_align_fst by lia.
    assert (Hz : Z.pos m2 * 2 ^ (e2 - Z.min e1 e2) <= Z.pos m1 * 2 ^ (e1 - Z.min e1 e2)).
    { rewrite Zle_Qle. by rewrite Qmult_le_r in Hle by apply pow2_pos. }
    set (a := Z.pos m1 * _) in *. set (b := Z.pos m2 * _) in *.
    assert (E : (inject_Z a * pow2 (Z.min e1 e2) - inject_Z b * pow2 (Z.min e1 e2)
                 == inject_Z (a - b) * pow2 (Z.min e1 e2))%Q)
      by (unfold Z.sub; rewrite inject_Z_plus, inject_Z_opp; ring).
    rewrite E. apply Rounds_normalize. lia.
Qed.

Theorem Rounds_fmul x y :
  num x = true -> num y = true -> Rounds (fval x * fval y) (fmul x y).
Proof.
  intros Hx Hy.
  destruct x as [[]|[]| |[] m1 e1], y as [[]|[]| |[] m2 e2]; try done; unfold fmul, SFmul;
    try (apply Rounds_zero; simpl; ring).
  simpl in Hx, Hy. destruct (bounded_spec _ _ Hx) as (U1 & R1 & L1), (bounded_spec _ _ Hy) as (U2 & R2 & L2).
  simpl fval. simpl xorb.
  assert (E : (inject_Z (Z.pos m1) * pow2 e1 * (inject_Z (Z.pos m2) * pow2 e2)
    == inject_Z (Z.pos (m1 * m2)) * pow2 (e1 + e2))%Q)
    by (rewrite pow2_add, Pos2Z.inj_mul, inject_Z_mult; ring).
  rewrite E. apply Rounds_aux; [lia|]. rewrite fexp64_eq, Pos2Z.inj_mul.
  destruct (Z.le_gt_cases (e1 + e2) (-1074)); [lia|].
  assert (53 <= Zdigits2 (Z.pos m1 * Z.pos m2)); [|lia].
  change 53 with (52 + 1). apply digits_ge; [lia|]. destruct L1, L2; nia.
Qed.

Lemma div_core_spec m1 e1 m2 e2 :
  exists s e', 0 <= s /\ e' = e1 - e2 - s /\ e' <= target (Z.pos m1 * 2 ^ s) (Z.pos m2) e'
  /\ SFdiv_core_binary f64_prec f64_emax (Z.pos m1) e1 (Z.pos m2) e2
     = ((Z.pos m1 * 2 ^ s) / Z.pos m2, e', new_location (Z.pos m2) ((Z.pos m1 * 2 ^ s) mod Z.pos m2)).
Proof.
  unfold SFdiv_core_binary. set (D := Zdigits2 (Z.pos m1) + e1 - (Zdigits2 (Z.pos m2) + e2)).
  change (Z.add (Zdigits2 (Z.pos m1)) e1 - Z.add (Zdigits2 (Z.pos m2)) e2) with D.
  set (e' := Z.min (fexp64 D) (e1 - e2)). set (s := e1 - e2 - e').
  exists s, e'. split; [lia|]. split; [lia|].
  assert (Hs : 0 <= s) by lia. split.
  - unfold target. rewrite fexp64_eq. assert (He : e' <= fexp64 D) by lia. rewrite fexp64_eq in He.
    destruct (Z.le_gt_cases e' (-1074)); [lia|].
    destruct (digits_bounds (Z.pos m1)) as [[Hl1 _] Hd1]; [lia|].
    destruct (digits_bounds (Z.pos m2)) as [[_ Hu2] Hd2]; [lia|].
    set (d1 := Zdigits2 (Z.pos m1)) in *. set (d2 := Zdigits2 (Z.pos m2)) in *.
    assert (Hk : 0 <= d1 - 1 + s - d2) by lia.
    assert (2 ^ (d1 - 1 + s - d2) <= Z.pos m1 * 2 ^ s / Z.pos m2).
    { apply Z.div_le_lower_bound; [lia|].
      apply Z.le_trans with (2 ^ d2 * 2 ^ (d1 - 1 + s - d2)); [apply Z.mul_le_mono_nonneg_r; lia|].
      rewrite <- Z.pow_add_r by lia. replace (d2 + (d1 - 1 + s - d2)) with (d1 - 1 + s) by lia.
      rewrite Z.pow_add_r by lia. apply Z.mul_le_mono_nonneg_r; lia. }
    pose proof (digits_ge _ _ Hk H0). lia.
  - assert (Hm : match s with Z0 => Z.pos m1 | Z.pos _ => Z.shiftl (Z.pos m1) s | Z.neg _ => 0 end = Z.pos m1 * 2 ^ s).
    { destruct s eqn:E; [lia|by apply Z.shiftl_mul_pow2|lia]. }
    fold s. rewrite Hm. unfold Z.div, Z.modulo. by destruct (Z.div_eucl _ _).
Qed.

Theorem Rounds_fdiv x y :
  num x = true -> num y = true -> (0 < fval y)%Q -> Rounds (fval x / fval y) (fdiv x y).
Proof.
  intros Hx Hy Hpos.
  destruct x as [[]|[]| |[] m1 e1], y as [[]|[]| |[] m2 e2]; try done; unfold fdiv, SFdiv;
    try (simpl in Hpos; lra).
  { apply Rounds_zero. unfold fval at 1, Qdiv. ring. }
  destruct (div_core_spec m1 e1 m2 e2) as (s & e' & Hs & He & Ht & ->).
  exists (Z.pos m1 * 2 ^ s), (Z.pos m2), e'. split; [by split; [lia|lia|done|]|].
  subst e'. rewrite val_scale by lia. unfold val. simpl fval.
  pose proof (pow2_pos e2). pose proof (inject_pos (Z.pos m2) ltac:(lia)).
  assert (E : (pow2 e1 == pow2 (e1 - e2) * pow2 e2)%Q) by (by rewrite <- pow2_add, Z.sub_add).
  rewrite E. field. split; intros E'; lra.
Qed.

(** ** Bounds *)

Lemma Rounds_bounded v x y :
  Rounds v x -> num y = true -> (v <= fval y)%Q ->
  num x = true /\ fleb f0 x = true /\ fleb x y = true.
Proof.
  intros Hx Hy Hv. assert (Hle : fleb x y = true) by (eapply Rounds_le; [done|by apply Rounds_fval|done]).
  destruct (Rounds_num _ _ Hx) as [->|Hn]; [destruct y as [[]|[]| |[] ? ?]; done|].
  split; [done|]. split; [|done]. by destruct x as [[]|[]| |[] ? ?].
Qed.

Lemma fval_le x y : num x = true -> num y = true -> fleb x y = true -> (fval x <= fval y)%Q.
Proof.
  intros Hx Hy Hle. apply Qnot_lt_le. intros Hlt.
  assert (Hge : fleb y x = true) by (apply (Rounds_le (fval y) (fval x)); [by apply Rounds_fval..|by apply Qlt_le_weak]).
  rewrite (fleb_antisym_num x y) in Hlt by auto. by apply Qlt_irrefl in Hlt.
Qed.

Lemma fval_lt x y : num x = true -> num y = true -> (fval x < fval y)%Q -> fltb x y = true.
Proof.
  intros Hx Hy Hlt. apply not_false_iff_true. intros H.
  apply fltb_ge in H; [|by apply num_not_nan..]. apply fval_le in H; [|done..]. lra.
Qed.

Lemma fval_pos_iff x : num x = true -> fltb f0 x = true <-> (0 < fval x)%Q.
Proof.
  intros Hx. split; [|by apply (fval_lt f0)]. intros H.
  destruct x as [[]|[]| |[] m e]; try done. apply fval_pos.
Qed.

(** Numbers between zero and one. *)
Definition in_unit (x : f64) : Prop := num x = true /\ fleb x f1 = true.

Lemma fval_f1 : (fval f1 == 1)%Q.
Proof. reflexivity. Qed.

Lemma in_unit_fval x : in_unit x -> (0 <= fval x <= 1)%Q.
Proof.
  intros [Hn Hl]. split; [apply fval_nonneg|]. rewrite <- fval_f1. by apply fval_le.
Qed.

Lemma Rounds_in_unit v x : Rounds v x -> (v <= 1)%Q -> in_unit x.
Proof. intros Hx Hv. destruct (Rounds_bounded v x f1 Hx) as (? & _ & ?); [done|by rewrite fval_f1|done]. Qed.

Lemma in_unit_f0 : in_unit f0.
Proof. done. Qed.
Lemma in_unit_f1 : in_unit f1.
Proof. done. Qed.

(** Integers up to 2^63 convert to numbers, exactly up to 2^53 and in order. *)
Lemma f_of_int_num n : 0 <= n <= 2 ^ 63 -> num (f_of_int n) = true.
Proof.
  intros Hn. destruct (Rounds_bounded _ _ (f_of_int (2 ^ 63)) (Rounds_of_int n (proj1 Hn))) as [? _]; [done| |done].
  assert (E : (fval (f_of_int (2 ^ 63)) == inject_Z (2 ^ 63))%Q) by reflexivity. rewrite E. rewrite <- Zle_Qle. lia.
Qed.

Lemma f_of_int_mono n m : 0 <= n <= m -> fleb (f_of_int n) (f_of_int m) = true.
Proof.
  intros [Hn Hm]. eapply Rounds_le; [by apply Rounds_of_int|apply Rounds_of_int; lia|by rewrite <- Zle_Qle].
Qed.

Lemma f_of_int_pos n : 0 < n <= 2 ^ 63 -> (1 <= fval (f_of_int n))%Q.
Proof.
  intros Hn. rewrite <- fval_f1. apply fval_le; [done|apply f_of_int_num; lia|].
  apply (f_of_int_mono 1). lia.
Qed.

(** A count over a positive total is a proportion. *)
Theorem ratio_in_unit c t : 0 <= c <= t -> 0 < t <= 2 ^ 63 -> in_unit (f_of_int c / f_of_int t)%f64.
Proof.
  intros Hc Ht. pose proof (f_of_int_pos t Ht) as Hp.
  assert (num (f_of_int c) = true) by (apply f_of_int_num; lia).
  assert (num (f_of_int t) = true) by (apply f_of_int_num; lia).
  eapply Rounds_in_unit; [by apply Rounds_fdiv; [done..|lra]|].
  apply Qle_shift_div_r; [lra|]. rewrite Qmult_1_l. apply fval_le; [done..|]. by apply f_of_int_mono.
Qed.

Lemma in_unit_not_nan x : in_unit x -> is_nan x = false.
Proof. intros [H _]. by apply num_not_nan. Qed.

Lemma in_unit_range x : in_unit x -> fleb f0 x = true /\ fleb x f1 = true.
Proof. intros [H ?]. split; [|done]. by destruct x as [[]|[]| |[] ? ?]. Qed.

Lemma in_unit_complement d : in_unit d -> in_unit (f1 - d)%f64.
Proof.
  intros Hd. pose proof (in_unit_fval _ Hd). destruct Hd as [Hn Hl].
  eapply Rounds_in_unit; [apply Rounds_fsub; [done|done|by apply fval_le]|]. rewrite fval_f1. lra.
Qed.

(** Scaling by a proportion does not increase. *)
Lemma fmul_shrinks a x :
  num a = true -> in_unit x -> num (a * x)%f64 = true /\ (fval (a * x)%f64 <= fval a)%Q.
Proof.
  intros Ha Hx. pose proof (in_unit_fval x Hx) as Hv. pose proof (fval_nonneg a).
  destruct (Rounds_bounded _ _ a (Rounds_fmul a x Ha (proj1 Hx))) as (Hn & _ & Hle); [done|nra|].
  split; [done|]. by apply fval_le.
Qed.

(** An exponentially weighted average of proportions is one, as soon as the two
    weights add up to at most one after rounding. *)
Theorem ewma_in_unit a d x y :
  num a = true -> num d = true -> in_unit (a + d)%f64 -> in_unit x -> in_unit y ->
  in_unit (a * x + d * y)%f64.
Proof.
  intros Ha Hd Hs Hx Hy.
  destruct (fmul_shrinks a x Ha Hx) as [H1 L1], (fmul_shrinks d y Hd Hy) as [H2 L2].
  assert (Hle : fleb (a * x + d * y)%f64 (a + d)%f64 = true).
  { eapply Rounds_le; [by apply Rounds_fadd|by apply Rounds_fadd|]. by apply Qplus_le_compat. }
  destruct Hs as [Hn Hs]. destruct (Rounds_num _ _ (Rounds_fadd _ _ H1 H2)) as [E|Hn'].
  - rewrite E in Hle. by destruct (a + d)%f64 as [[]|[]| |[] ? ?].
  - split; [done|]. by eapply fleb_trans.
Qed.

(** ** The error of one rounding *)

Lemma nearest_up a b : 0 < b -> 2 * b * nearest a b <= 2 * a + b.
Proof.
  intros Hb. unfold nearest, qcode, rint.
  pose proof (Z.div_mod (2 * a) b ltac:(lia)) as D. pose proof (Z.mod_pos_bound (2 * a) b Hb) as R.
  set (q := 2 * a / b) in *. set (r := (2 * a) mod b) in *. rewrite D. clear D. clearbody q r.
  set (c := 2 * q + _). pose proof (Z.div_mod c 4 ltac:(lia)) as C. pose proof (Z.mod_pos_bound c 4 ltac:(lia)).
  set (u := c / 4) in *. set (v := c mod 4) in *. clearbody u v. subst c.
  destruct (Z.eqb_spec v 3), (Z.eqb_spec v 2), (Z.odd u), (Z.eqb_spec r 0); simpl in *; nia.
Qed.

Lemma pack_value r t : 0 <= r <= 2 ^ 53 -> num (pack r t) = true -> (fval (pack r t) == inject_Z r * pow2 t)%Q.
Proof.
  intros Hr. unfold pack, fin.
  destruct (Z.eqb_spec r 0) as [->|]; [intros _; simpl; ring|].
  destruct (Z.eqb_spec r (2 ^ 53)) as [->|].
  - destruct (_ <=? _); [|done]. intros _. change (fval _) with (inject_Z (2 ^ 52) * pow2 (t + 1))%Q.
    rewrite pow2_add, !pow2_Z by done. change 53 with (52 + 1). rewrite pow2_add. ring.
  - destruct (_ <=? _); [|done]. destruct r; [done|done|lia].
Qed.

(** A rounding exceeds its value by at most half a unit in the last place. *)
Lemma Rounds_ulp v x : Rounds v x -> num x = true ->
  exists t, -1074 <= t /\ (fval x <= v + pow2 (t - 1))%Q /\ (t = -1074 \/ (pow2 (t + 52) <= v)%Q).
Proof.
  intros (a & b & e & [A B F ->] & E0) Hn. rewrite round_to_pack in * by done.
  destruct (target_spec a b e A B F) as (T & U & L). set (t := target a b e) in *.
  set (p := 2 ^ (t - e)) in *. assert (P : 0 < p) by (apply Z.pow_pos_nonneg; lia).
  assert (D : 0 < b * p) by (by apply Z.mul_pos_pos).
  pose proof (nearest_bounds a _ A D U) as Hr. pose proof (pack_value _ _ Hr Hn) as Hval.
  pose proof (nearest_up a _ D) as Hu. set (r := nearest a (b * p)) in *. set (x := pack r t) in *. clearbody x r.
  assert (Ev : (v * inject_Z (b * p) == inject_Z a * pow2 t)%Q).
  { rewrite <- E0. unfold val. rewrite inject_Z_mult. subst p. rewrite pow2_Z by lia. rewrite <- (Z.sub_add e t) at 2. rewrite pow2_add.
    pose proof (inject_pos b B). field. intros E. lra. }
  pose proof (inject_pos _ D) as HD. pose proof (pow2_pos t) as Ht.
  assert (Eh : (pow2 (t - 1) * 2 == pow2 t)%Q).
  { change 2%Q with (pow2 1). by rewrite <- pow2_add, Z.sub_add. }
  exists t. split; [done|]. split.
  - rewrite Hval. rewrite Zle_Qle, inject_Z_plus, !inject_Z_mult in Hu. change (inject_Z 2) with 2%Q in Hu. rewrite inject_Z_mult in Ev, HD.
    set (d := (inject_Z b * inject_Z p)%Q) in *.
    apply (Qmult_le_r _ _ (2 * d)); [lra|]. nra.
  - destruct L as [|L]; [by left|right]. rewrite Zle_Qle, inject_Z_mult in L.
    apply (Qmult_le_r _ _ (inject_Z (b * p))); [done|]. rewrite Ev, Z.add_comm, pow2_add, <- pow2_Z by lia. nra.
Qed.

Lemma pow2_mono a b : a <= b -> (pow2 a <= pow2 b)%Q.
Proof.
  intros H. replace b with (a + (b - a)) by lia. rewrite pow2_add. pose proof (pow2_pos a).
  assert (1 <= pow2 (b - a))%Q; [|nra]. rewrite <- pow2_Z by lia. change 1%Q with (inject_Z 1). rewrite <- Zle_Qle.
  pose proof (Z.pow_pos_nonneg 2 (b - a)). lia.
Qed.

Lemma Rounds_abs v x : Rounds v x -> (v <= 1)%Q -> (fval x <= v + pow2 (-53))%Q.
Proof.
  intros Hx Hv. destruct (Rounds_in_unit v x Hx Hv) as [Hn _]. destruct (Rounds_ulp v x Hx Hn) as (t & Ht & Hl & Hc).
  assert (t - 1 <= -53).
  { destruct Hc as [->|Hc]; [lia|]. apply Z.nlt_ge. intros Hlt.
    assert (pow2 1 <= pow2 (t + 52))%Q as Hp by (apply pow2_mono; lia). change (pow2 1) with 2%Q in Hp. lra. }
  assert (pow2 (t - 1) <= pow2 (-53))%Q by (by apply pow2_mono). lra.
Qed.

Lemma Rounds_rel v x : Rounds v x -> num x = true -> (pow2 (-1022) <= v)%Q -> (fval x <= v * (1 + pow2 (-53)))%Q.
Proof.
  intros Hx Hn Hv. destruct (Rounds_ulp v x Hx Hn) as (t & Ht & Hl & Hc).
  assert (pow2 (t + 52) <= v)%Q as Hv' by (destruct Hc as [->|Hc]; [exact Hv|exact Hc]).
  assert (pow2 (t - 1) == pow2 (t + 52) * pow2 (-53))%Q as E by (rewrite <- pow2_add; by replace (t + 52 + -53) with (t - 1) by lia).
  pose proof (pow2_pos (-53)). nra.
Qed.

(** A value up to halfway above one rounds to at most one: the tie goes to even. *)
Lemma Rounds_tie v x : Rounds v x -> (v <= 1 + pow2 (-53))%Q -> in_unit x.
Proof.
  intros Hx Hv.
  assert (H1 : Rounds (1 + pow2 (-53)) f1).
  { assert (E : (1 + pow2 (-53) == inject_Z (2 ^ 53 + 1) * pow2 (-53))%Q) by (vm_compute; reflexivity).
    rewrite E. change f1 with (binary_normalize f64_prec f64_emax (2 ^ 53 + 1) (-53) false). by apply Rounds_normalize. }
  assert (Hle : fleb x f1 = true) by (by eapply Rounds_le).
  destruct (Rounds_num _ _ Hx) as [->|Hn]; done.
Qed.

(** A proportion and its complement add up to at most one. *)
Lemma weights_in_unit w : in_unit w -> in_unit (w + (f1 - w))%f64.
Proof.
  intros Hw. pose proof (in_unit_fval w Hw) as Hv. pose proof (in_unit_complement w Hw) as Hc.
  destruct Hw as [Hn Hl].
  assert (Hs : Rounds (fval f1 - fval w) (f1 - w)%f64) by (apply Rounds_fsub; [done|done|by apply fval_le]).
  apply Rounds_abs in Hs; [|rewrite fval_f1; lra]. rewrite fval_f1 in Hs.
  eapply Rounds_tie; [apply Rounds_fadd; [done|apply Hc]|]. lra.
Qed.

(** ** Exact results *)

(** A 53-bit integer times a power of two in range is a number. *)
Lemma representable m e :
  0 <= m < 2 ^ 53 -> -1074 <= e <= 971 -> exists y, num y = true /\ (fval y == inject_Z m * pow2 e)%Q.
Proof.
  intros Hm He. destruct (decide (m = 0)) as [->|Hm0]; [exists f0; split; [done|simpl; ring]|].
  set (s := Z.min (53 - Zdigits2 m) (e + 1074)).
  pose proof (digits_le m 53 ltac:(lia) Hm). destruct (digits_bounds m) as [_ Hd]; [lia|].
  assert (Hs : 0 <= s) by lia. assert (Hp : 0 < m * 2 ^ s) by (apply Z.mul_pos_pos; [lia|apply Z.pow_pos_nonneg; lia]).
  pose proof (digits_shift m s ltac:(lia) Hs) as Hds. pose proof (scale_val m e s Hs) as Hv.
  destruct (m * 2 ^ s) as [|p|p]; [lia| |lia]. exists (S754_finite false p (e - s)). split; [|exact Hv].
  simpl. unfold bounded, canonical_mantissa. rewrite fexp64_eq.
  change (Z.pos (digits2_pos p)) with (Zdigits2 (Z.pos p)). rewrite Hds.
  apply andb_true_iff. split; [apply Z.eqb_eq; lia|apply Z.leb_le; unfold f64_prec, f64_emax; lia].
Qed.

Lemma Rounds_exact v x y : Rounds v x -> num y = true -> (v == fval y)%Q -> x = y.
Proof. intros Hx Hy E. apply (Rounds_unique v); [done|]. rewrite E. by apply Rounds_fval. Qed.

Lemma f_of_int_exact n : 0 <= n < 2 ^ 53 -> (fval (f_of_int n) == inject_Z n)%Q.
Proof.
  intros Hn. destruct (representable n 0 Hn ltac:(lia)) as (y & Hy & E).
  change (pow2 0) with 1%Q in E. rewrite Qmult_1_r in E.
  rewrite (Rounds_exact (inject_Z n) (f_of_int n) y); [done|apply Rounds_of_int; lia|done|by rewrite E].
Qed.

Lemma fadd_zero_l x : num x = true -> (f0 + x)%f64 = x.
Proof. by destruct x as [[]|[]| |[] ? ?]. Qed.
Lemma fadd_zero_r x : num x = true -> (x + f0)%f64 = x.
Proof. by destruct x as [[]|[]| |[] ? ?]. Qed.
Lemma fmul_zero_r x : num x = true -> (x * f0)%f64 = f0.
Proof. by destruct x as [[]|[]| |[] ? ?]. Qed.

(** Doubling is exact below half of the largest number. *)
Lemma fadd_double x : in_unit x -> (fval (x + x)%f64 == 2 * fval x)%Q.
Proof.
  intros [Hn Hl]. pose proof (fval_le x f1 Hn eq_refl Hl) as Hv. rewrite fval_f1 in Hv.
  assert (exists y, num y = true /\ (fval x + fval x == fval y)%Q) as (y & Hy & E).
  { destruct x as [[]|[]| |[] m e]; try done; [by exists f0|]. destruct (bounded_spec m e Hn) as (Hm & He & _).
    simpl fval in Hv. assert (e < 1).
    { apply Z.nle_gt. intros He1. pose proof (pow2_mono 1 e He1) as Hp. change (pow2 1) with 2%Q in Hp.
      assert (1 <= inject_Z (Z.pos m))%Q by (change 1%Q with (inject_Z 1); rewrite <- Zle_Qle; lia). nra. }
    destruct (representable (Z.pos m) (e + 1) ltac:(lia) ltac:(lia)) as (y & Hy & E). exists y. split; [done|].
    rewrite E, pow2_add. change (pow2 1) with 2%Q. simpl fval. ring. }
  rewrite (Rounds_exact _ (x + x)%f64 y (Rounds_fadd x x Hn Hn) Hy E), <- E. ring.
Qed.

(** The operations are monotone on numbers. *)
Lemma fadd_mono a b c d :
  num a = true -> num b = true -> num c = true -> num d = true ->
  (fval a <= fval c)%Q -> (fval b <= fval d)%Q -> fleb (a + b)%f64 (c + d)%f64 = true.
Proof. intros. eapply Rounds_le; [by apply Rounds_fadd..|]. by apply Qplus_le_compat. Qed.

Lemma fmul_mono a b c d :
  num a = true -> num b = true -> num c = true -> num d = true ->
  (fval a <= fval c)%Q -> (fval b <= fval d)%Q -> fleb (a * b)%f64 (c * d)%f64 = true.
Proof.
  intros. eapply Rounds_le; [by apply Rounds_fmul..|]. pose proof (fval_nonneg a). pose proof (fval_nonneg b). nra.
Qed.

Lemma fdiv_mono a b c d :
  num a = true -> num b = true -> num c = true -> num d = true -> (0 < fval d)%Q ->
  (fval a <= fval c)%Q -> (fval d <= fval b)%Q -> fleb (a / b)%f64 (c / d)%f64 = true.
Proof.
  intros. eapply Rounds_le; [apply Rounds_fdiv; done || lra|apply Rounds_fdiv; done|].
  pose proof (fval_nonneg a). apply Qle_shift_div_r; [lra|].
  assert (E : (fval c / fval d * fval b == fval c * (fval b / fval d))%Q) by (field; lra). rewrite E.
  assert (1 <= fval b / fval d)%Q by (apply Qle_shift_div_l; lra). nra.
Qed.

(** A positive finite float is a number, a quotient by a larger one a proportion. *)
Lemma num_positive x : valid x = true -> finite x = true -> fltb f0 x = true -> num x = true.
Proof. by destruct x as [[]|[]| |[] ? ?]. Qed.

Lemma quotient_in_unit a b : num a = true -> num b = true -> (0 < fval b)%Q -> fleb a b = true -> in_unit (a / b)%f64.
Proof.
  intros Ha Hb Hp Hl. eapply Rounds_in_unit; [by apply Rounds_fdiv|].
  apply Qle_shift_div_r; [done|]. rewrite Qmult_1_l. by apply fval_le.
Qed.
