(* ===== verification/GoStrings.v ===== *)
(** The parts of Go's [strings], [unicode/utf8], [strconv] and [fmt] the
    modelled packages call.  A Go string is a byte sequence; runes are decoded
    by Go's rules, an ill-formed byte being U+FFFD of width one.

    The Unicode case and class tables for runes from U+0080 on are data of the Go
    distribution, so they are classes, [UnicodeLower] and [UnicodeClasses];
    everything else computes. *)

From Stdlib Require Import ZArith Lia Bool Ascii String.
From stdpp Require Import tactics base list strings pretty.
From S2P Require Import Prelude.

#[global] Open Scope Z_scope.

Definition byte_of (a : ascii) : Z := Z.of_N (N_of_ascii a).
Definition ascii_of (z : Z) : ascii := ascii_of_N (Z.to_N z).

Definition string_bytes (s : string) : list Z := map byte_of (list_ascii_of_string s).
Definition bytes_string (l : list Z) : string := string_of_list_ascii (map ascii_of l).

(** [len(s)]. *)
Definition slen (s : string) : Z := Z.of_nat (String.length s).

Lemma byte_of_ascii a : ascii_of (byte_of a) = a.
Proof. unfold ascii_of, byte_of. rewrite N2Z.id. apply ascii_N_embedding. Qed.

Lemma bytes_string_bytes s : bytes_string (string_bytes s) = s.
Proof.
  unfold bytes_string, string_bytes. rewrite map_map.
  rewrite (map_ext _ id) by apply byte_of_ascii. rewrite map_id.
  apply string_of_list_ascii_of_string.
Qed.

Lemma slen_app s t : slen (s +:+ t) = slen s + slen t.
Proof.
  unfold slen. rewrite <- Nat2Z.inj_add. f_equal. induction s; simpl; [done|]. by f_equal.
Qed.

Lemma slen_nonneg s : 0 <= slen s.
Proof. unfold slen. lia. Qed.

(** Concatenation. *)
Definition concat_strings (l : list string) : string := foldr String.append ""%string l.

Lemma string_app_assoc (a b c : string) : (a +:+ b) +:+ c = a +:+ (b +:+ c).
Proof. induction a as [|x a IH]; [done|]. exact (f_equal (String x) IH). Qed.

Lemma string_app_nil (a : string) : a +:+ "" = a.
Proof. induction a as [|x a IH]; [done|]. exact (f_equal (String x) IH). Qed.

Lemma str_cons c (s t : string) : String c s +:+ t = String c (s +:+ t).
Proof. done. Qed.

Lemma str_nil_l (t : string) : "" +:+ t = t.
Proof. done. Qed.

Lemma concat_strings_app l1 l2 : concat_strings (l1 ++ l2) = concat_strings l1 +:+ concat_strings l2.
Proof.
  induction l1 as [|x l1 IH]; [by rewrite str_nil_l|]. cbn [app].
  change (concat_strings (x :: l1 ++ l2)) with (x +:+ concat_strings (l1 ++ l2)).
  by rewrite IH, <- string_app_assoc.
Qed.

(** ** UTF-8 *)

Definition rune_error : Z := 65533.

Definition cont_byte (lo hi b : Z) : bool := (lo <=? b) && (b <=? hi).

(** [utf8.DecodeRune]: the first rune and the bytes left. *)
Definition decode_rune (l : list Z) : option (Z * list Z) :=
  match l with
  | [] => None
  | b0 :: t =>
    if b0 <? 128 then Some (b0, t) else
    let bad := Some (rune_error, t) in
    if cont_byte 194 223 b0 then
      match t with
      | b1 :: t1 => if cont_byte 128 191 b1
                    then Some ((b0 - 192) * 64 + (b1 - 128), t1) else bad
      | _ => bad
      end
    else if cont_byte 224 239 b0 then
      let lo := if b0 =? 224 then 160 else 128 in
      let hi := if b0 =? 237 then 159 else 191 in
      match t with
      | b1 :: b2 :: t2 =>
          if cont_byte lo hi b1 && cont_byte 128 191 b2
          then Some ((b0 - 224) * 4096 + (b1 - 128) * 64 + (b2 - 128), t2) else bad
      | _ => bad
      end
    else if cont_byte 240 244 b0 then
      let lo := if b0 =? 240 then 144 else 128 in
      let hi := if b0 =? 244 then 143 else 191 in
      match t with
      | b1 :: b2 :: b3 :: t3 =>
          if cont_byte lo hi b1 && cont_byte 128 191 b2 && cont_byte 128 191 b3
          then Some ((b0 - 240) * 262144 + (b1 - 128) * 4096 + (b2 - 128) * 64 + (b3 - 128), t3)
          else bad
      | _ => bad
      end
    else bad
  end.

Fixpoint decode_fuel (n : nat) (l : list Z) : list Z :=
  match n with
  | O => []
  | S n => match decode_rune l with
           | None => []
           | Some (r, t) => r :: decode_fuel n t
           end
  end.

(** [[]rune(s)]; every rune takes at least one byte, so the length is fuel enough. *)
Definition decode_runes (l : list Z) : list Z := decode_fuel (length l) l.
Definition runes (s : string) : list Z := decode_runes (string_bytes s).

(** [utf8.EncodeRune]; surrogates and out-of-range values encode U+FFFD. *)
Definition encode_rune (r : Z) : list Z :=
  let r := if (r <? 0) || (1114111 <? r) || ((55296 <=? r) && (r <=? 57343)) then rune_error else r in
  if r <? 128 then [r]
  else if r <? 2048 then [192 + r / 64; 128 + r mod 64]
  else if r <? 65536 then [224 + r / 4096; 128 + (r / 64) mod 64; 128 + r mod 64]
  else [240 + r / 262144; 128 + (r / 4096) mod 64; 128 + (r / 64) mod 64; 128 + r mod 64].

Lemma decode_rune_shorter l r t : decode_rune l = Some (r, t) -> (length t < length l)%nat.
Proof.
  destruct l as [|b0 l]; simpl; [done|]. intros H. go_inv H; simpl; lia.
Qed.

Lemma decode_rune_cons b l : is_Some (decode_rune (b :: l)).
Proof. unfold decode_rune. repeat case_match; eauto. Qed.

(** The fuel is enough: more changes nothing. *)
Lemma decode_fuel_enough n m l :
  (length l <= n)%nat -> (n <= m)%nat -> decode_fuel m l = decode_fuel n l.
Proof.
  revert m l. induction n as [|n IH]; intros [|m] l Hl Hm; try lia; [done| |].
  - destruct l; [done|simpl in Hl; lia].
  - simpl. destruct (decode_rune l) as [[r t]|] eqn:E; [|done].
    apply decode_rune_shorter in E. f_equal. apply IH; lia.
Qed.

(** ** White space

    [unicode.IsSpace], on the bytes of one encoded rune. *)

Definition space1 (a : Z) : bool := ((9 <=? a) && (a <=? 13)) || (a =? 32).
Definition space2 (a b : Z) : bool := (a =? 194) && ((b =? 133) || (b =? 160)).
Definition space3 (a b c : Z) : bool :=
  ((a =? 225) && (b =? 154) && (c =? 128))
  || ((a =? 226) && (b =? 128)
      && (((128 <=? c) && (c <=? 138)) || (c =? 168) || (c =? 169) || (c =? 175)))
  || ((a =? 226) && (b =? 129) && (c =? 159))
  || ((a =? 227) && (b =? 128) && (c =? 128)).

Fixpoint trim_left (l : list Z) : list Z :=
  match l with
  | [] => []
  | a :: t =>
      if space1 a then trim_left t else
      match t with
      | [] => l
      | b :: t1 =>
          if space2 a b then trim_left t1 else
          match t1 with
          | [] => l
          | c :: t2 => if space3 a b c then trim_left t2 else l
          end
      end
  end.

(** The same from the end, on the reversed bytes. *)
Fixpoint trim_left_rev (l : list Z) : list Z :=
  match l with
  | [] => []
  | a :: t =>
      if space1 a then trim_left_rev t else
      match t with
      | [] => l
      | b :: t1 =>
          if space2 b a then trim_left_rev t1 else
          match t1 with
          | [] => l
          | c :: t2 => if space3 c b a then trim_left_rev t2 else l
          end
      end
  end.

Definition trim_bytes (l : list Z) : list Z := rev (trim_left_rev (rev (trim_left l))).

(** [strings.TrimSpace]. *)
Definition trim_space (s : string) : string := bytes_string (trim_bytes (string_bytes s)).

(** [strings.Fields]: [cur] is the reversed field being read. *)
Fixpoint fields_aux (cur l : list Z) : list (list Z) :=
  let flush := if cur is [] then [] else [rev cur] in
  match l with
  | [] => flush
  | a :: t =>
      if space1 a then flush ++ fields_aux [] t else
      match t with
      | [] => fields_aux (a :: cur) t
      | b :: t1 =>
          if space2 a b then flush ++ fields_aux [] t1 else
          match t1 with
          | [] => fields_aux (a :: cur) t
          | c :: t2 => if space3 a b c then flush ++ fields_aux [] t2
                       else fields_aux (a :: cur) t
          end
      end
  end.

Definition fields (s : string) : list string := map bytes_string (fields_aux [] (string_bytes s)).

Lemma fields_aux_nonempty n cur l f : (length l <= n)%nat -> f ∈ fields_aux cur l -> f <> [].
Proof.
  assert (Hflush : forall (c f : list Z), f ∈ (if c is [] then [] else [rev c] : list (list Z)) -> f <> ([] : list Z)).
  { intros [|x c] g; [by intros ?%not_elem_of_nil|]. intros ->%list_elem_of_singleton H.
    apply (f_equal length) in H. by rewrite length_rev in H. }
  revert cur l. induction n as [|n IH]; intros cur [|a l] Hl; simpl in Hl; try lia; [apply Hflush..|].
  cbn [fields_aux]. destruct (space1 a).
  { intros [H|H]%elem_of_app; [by eapply Hflush|]. eapply IH; [|done]. lia. }
  destruct l as [|b l]; [apply IH; simpl; lia|]. destruct (space2 a b).
  { intros [H|H]%elem_of_app; [by eapply Hflush|]. eapply IH; [|done]. simpl in Hl. lia. }
  destruct l as [|c l]; [apply IH; simpl in *; lia|]. destruct (space3 a b c).
  { intros [H|H]%elem_of_app; [by eapply Hflush|]. eapply IH; [|done]. simpl in Hl. lia. }
  apply IH. simpl in *. lia.
Qed.

(** A field is never empty. *)
Lemma fields_nonempty s f : f ∈ fields s -> f <> ""%string.
Proof.
  unfold fields. rewrite list_elem_of_In, in_map_iff. intros (x & <- & Hx%list_elem_of_In) E.
  eapply fields_aux_nonempty; [done|exact Hx|]. by destruct x.
Qed.

(** ** Case folding *)

(** [unicode.ToLower] on runes from U+0080 on. *)
Class UnicodeLower := rune_lower_ext : Z -> Z.

Section Lower.
Context `{UnicodeLower}.

Definition rune_lower (r : Z) : Z :=
  if r <? 128 then (if (65 <=? r) && (r <=? 90) then r + 32 else r) else rune_lower_ext r.

(** [strings.ToLower]. *)
Definition to_lower (s : string) : string :=
  bytes_string (flat_map (fun r => encode_rune (rune_lower r)) (runes s)).
End Lower.

(** ** Character classes *)

(** [unicode.IsLetter], [unicode.IsDigit] and the scripts from U+0080 on. *)
Class UnicodeClasses := {
  letter_ext : Z -> bool;
  digit_ext : Z -> bool;
  han_ext : Z -> bool;
  hiragana_ext : Z -> bool;
  katakana_ext : Z -> bool;
  hangul_ext : Z -> bool;
}.

Definition in_range (lo hi r : Z) : bool := (lo <=? r) && (r <=? hi).

Section Classes.
Context `{UnicodeClasses}.

Definition is_letter (r : Z) : bool := if r <? 128 then in_range 65 90 r || in_range 97 122 r else letter_ext r.
Definition is_digit (r : Z) : bool := if r <? 128 then in_range 48 57 r else digit_ext r.
Definition is_han (r : Z) : bool := if r <? 128 then false else han_ext r.
Definition is_hiragana (r : Z) : bool := if r <? 128 then false else hiragana_ext r.
Definition is_katakana (r : Z) : bool := if r <? 128 then false else katakana_ext r.
Definition is_hangul (r : Z) : bool := if r <? 128 then false else hangul_ext r.
End Classes.

(** [unicode.IsSpace]. *)
Definition is_space (r : Z) : bool :=
  in_range 9 13 r || (r =? 32) || (r =? 133) || (r =? 160) || (r =? 5760) || in_range 8192 8202 r
  || (r =? 8232) || (r =? 8233) || (r =? 8239) || (r =? 8287) || (r =? 12288).

(** Tables without letters beyond ASCII, for concrete evaluations. *)
Definition ascii_lower : UnicodeLower := fun r => r.
Definition ascii_classes : UnicodeClasses :=
  {| letter_ext _ := false; digit_ext _ := false; han_ext _ := false; hiragana_ext _ := false; katakana_ext _ := false; hangul_ext _ := false |}.

(** ** Numbers and prefixes *)

(** [strconv.Itoa], [%d]. *)
Definition itoa (z : Z) : string := pretty z.

(** [strings.HasPrefix(s, p)] and [strings.TrimPrefix(s, p)]. *)
Definition has_prefix (s p : string) : bool := String.prefix p s.
Definition trim_prefix (s p : string) : string :=
  if has_prefix s p then String.substring (String.length p) (String.length s - String.length p) s
  else s.

Lemma prefix_app_inv s t : String.prefix s t = true <-> exists u, t = s +:+ u.
Proof.
  revert t. induction s as [|a s IH]; intros t.
  - split; [by exists t|]. intros _. by destruct t.
  - destruct t as [|b t]; [split; [done|by intros [u ?]]|]. cbn [String.prefix].
    destruct (ascii_dec a b) as [->|Hne].
    + split.
      * intros [u ->]%IH. by exists u.
      * intros [u E]. injection E as E. apply IH. by exists u.
    + split; [done|]. intros [u E]. injection E as E1 E2. by subst.
Qed.

Lemma substring_all s : String.substring 0 (String.length s) s = s.
Proof. induction s as [|c s IH]; [done|]. cbn. by rewrite IH. Qed.

Lemma trim_prefix_app p s : trim_prefix (p +:+ s) p = s.
Proof.
  unfold trim_prefix, has_prefix. assert (H : String.prefix p (p +:+ s) = true).
  { induction p as [|c p IH]; [rewrite str_nil_l; by destruct s|]. rewrite str_cons. cbn [String.prefix]. by destruct (ascii_dec c c). }
  rewrite H. clear H. assert (Hl : (String.length (p +:+ s) - String.length p)%nat = String.length s).
  { pose proof (slen_app p s). unfold slen in *. lia. }
  rewrite Hl. clear Hl. induction p as [|c p IH]; [apply substring_all|]. exact IH.
Qed.

(** [strings.Join(l, sep)]. *)
Definition join (sep : string) (l : list string) : string := String.concat sep l.

(** ** Test vectors *)

Example trim_space_nbsp :
  trim_space (bytes_string [32; 194; 160; 97; 32; 98; 227; 128; 128; 10]) = "a b"%string.
Proof. reflexivity. Qed.

Example fields_tabs : fields (bytes_string [32; 97; 98; 9; 10; 99; 32]) = ["ab"; "c"]%string.
Proof. reflexivity. Qed.

Example runes_mixed : runes (bytes_string [65; 226; 134; 146; 255; 240; 159; 152; 128]) = [65; 8594; 65533; 128512].
Proof. reflexivity. Qed.
