(* ===== verification/GoPath.v ===== *)
(** Go's [path/filepath] on Unix: [Clean], [Join] and [Abs], lexically.

    A path is cleaned by running through its slash-separated elements with a
    stack; [contained] is containment of element lists, and [prefix_contained]
    shows that the usual test - equal, or prefixed by the root and a slash -
    decides it for cleaned absolute paths other than the file-system root. *)

From Stdlib Require Import ZArith Lia Bool Ascii String.
From stdpp Require Import tactics base option list strings.
From S2P Require Import Prelude GoStrings.

#[global] Open Scope Z_scope.

Definition slash : ascii := "/".

(** The elements between slashes, empty ones included. *)
Fixpoint elements_aux (cur s : string) : list string :=
  match s with
  | EmptyString => [cur]
  | String a s => if Ascii.eqb a slash then cur :: elements_aux "" s
                  else elements_aux (cur +:+ String a "") s
  end.
Definition elements (s : string) : list string := elements_aux "" s.

Definition is_abs (s : string) : bool := match s with String a _ => Ascii.eqb a slash | EmptyString => false end.

(** One element of the path against the reversed elements kept. *)
Definition clean_step (rooted : bool) (out : list string) (e : string) : list string :=
  if (e =? "")%string || (e =? ".")%string then out
  else if (e =? "..")%string then
    match out with
    | [] => if rooted then [] else [e]
    | x :: rest => if (x =? "..")%string then e :: out else rest
    end
  else e :: out.

Definition clean_elements (s : string) : list string :=
  rev (foldl (clean_step (is_abs s)) [] (elements s)).

Definition slashed (l : list string) : string := String.concat "/" l.

Definition Clean (s : string) : string :=
  if is_abs s then "/" +:+ slashed (clean_elements s)
  else match clean_elements s with [] => "." | l => slashed l end.

(** [filepath.Join(a, b)]: empty elements are dropped. *)
Definition Join (a b : string) : string :=
  if (a =? "")%string then (if (b =? "")%string then "" else Clean b)
  else Clean (if (b =? "")%string then a else a +:+ "/" +:+ b).

(** [filepath.Abs]; [cwd] is what [os.Getwd] answers. *)
Definition Abs (cwd : result string) (p : string) : result string :=
  if is_abs p then Ok (Clean p) else let? d := cwd in Ok (Join d p).

(** ** Cleaned absolute paths *)

(** An element proper: not empty, not a dot name, no slash. *)
Fixpoint no_slash (s : string) : bool :=
  match s with EmptyString => true | String a s => negb (Ascii.eqb a slash) && no_slash s end.
Definition name (e : string) : Prop := e <> ""%string /\ e <> ".."%string /\ no_slash e = true.

Definition abs_path (l : list string) : string := "/" +:+ slashed l.
Arguments abs_path : simpl never.

Lemma no_slash_app s t : no_slash (s +:+ t) = no_slash s && no_slash t.
Proof. induction s as [|a s IH]; simpl; [done|]. destruct (Ascii.eqb a slash); simpl; [done|exact IH]. Qed.

Lemma elements_aux_no_slash cur s e : no_slash cur = true -> e ∈ elements_aux cur s -> no_slash e = true.
Proof.
  revert cur. induction s as [|a s IH]; intros cur Hc; simpl; [by intros ->%list_elem_of_singleton|].
  destruct (Ascii.eqb a slash) eqn:Ea.
  - intros [->|H]%elem_of_cons; [done|]. by apply (IH EmptyString).
  - apply IH. rewrite no_slash_app, Hc. simpl. by rewrite Ea.
Qed.

Lemma clean_step_names out e :
  no_slash e = true -> Forall name out -> Forall name (clean_step true out e).
Proof.
  intros He Ho. unfold clean_step. destruct (String.eqb_spec e ""); [done|]. simpl.
  destruct (String.eqb_spec e "."); [done|]. destruct (String.eqb_spec e "..").
  - destruct Ho as [|x out [_ [Hx _]] Ho]; [constructor|]. by rewrite (proj2 (String.eqb_neq x "..")).
  - by constructor.
Qed.

(** A cleaned absolute path is a slash and names: nothing climbs. *)
Lemma Clean_abs s : is_abs s = true -> exists l, Clean s = abs_path l /\ Forall name l.
Proof.
  intros Ha. unfold Clean. rewrite Ha. exists (clean_elements s). split; [done|].
  unfold clean_elements. rewrite Ha. apply Forall_rev.
  assert (Hgen : forall es out, Forall (fun e => no_slash e = true) es -> Forall name out ->
    Forall name (foldl (clean_step true) out es)).
  { induction es as [|e es IH]; intros out Hes Ho; simpl; [done|]. inversion Hes; subst.
    apply IH; [done|]. by apply clean_step_names. }
  apply Hgen; [|constructor]. apply Forall_forall. intros e. by apply elements_aux_no_slash.
Qed.

Lemma abs_path_is_abs l : is_abs (abs_path l) = true.
Proof. done. Qed.

Lemma Join_is_abs a b : is_abs a = true -> exists l, Join a b = abs_path l /\ Forall name l.
Proof.
  intros Ha. unfold Join. destruct (String.eqb_spec a ""); [by subst|].
  destruct (String.eqb b ""); [by apply Clean_abs|]. apply Clean_abs. by destruct a.
Qed.

Lemma Abs_abs cwd p q :
  (forall d, cwd = Ok d -> is_abs d = true) -> Abs cwd p = Ok q -> exists l, q = abs_path l /\ Forall name l.
Proof.
  intros Hc. unfold Abs. destruct (is_abs p) eqn:E; [intros [= <-]; by apply Clean_abs|].
  destruct cwd as [d|]; [|done]. intros [= <-]. apply Join_is_abs. by apply Hc.
Qed.

(** *** The prefix test *)

Lemma app_string_inv_l (a b c : string) : a +:+ b = a +:+ c -> b = c.
Proof. induction a as [|x a IH]; [done|]. intros E. injection E as E. by apply IH. Qed.

Lemma slashed_cons e l : slashed (e :: l) = match l with [] => e | _ => e +:+ "/" +:+ slashed l end.
Proof. unfold slashed. by destruct l. Qed.

(** An element ends where the first slash is. *)
Lemma first_slash (e f u v : string) :
  no_slash e = true -> no_slash f = true -> e +:+ "/" +:+ u = f +:+ "/" +:+ v -> e = f /\ u = v.
Proof.
  revert f. induction e as [|a e IH]; intros [|b f] He Hf E.
  - injection E as E. done.
  - injection E as <- E. done.
  - injection E as -> E. done.
  - injection E as <- E. simpl in He, Hf. apply andb_true_iff in He as [_ He], Hf as [_ Hf].
    destruct (IH f He Hf E) as [-> ->]. done.
Qed.

Lemma no_slash_not_slashed e u f : no_slash f = true -> f = e +:+ "/" +:+ u -> False.
Proof. intros Hf ->. rewrite !no_slash_app in Hf. simpl in Hf. by rewrite andb_false_r in Hf. Qed.

Lemma slashed_prefix r l u :
  r <> [] -> Forall name r -> Forall name l -> slashed l = slashed r +:+ "/" +:+ u -> r `prefix_of` l.
Proof.
  revert l. induction r as [|e r IH]; intros l Hne Hr Hl E; [done|]. clear Hne.
  inversion Hr as [|? ? (He1 & He2 & He) Hr']; subst.
  destruct l as [|f l]; [rewrite slashed_cons in E; destruct e; [done|destruct r; done]|].
  inversion Hl as [|? ? (Hf1 & Hf2 & Hf) Hl']; subst. rewrite !slashed_cons in E.
  destruct l as [|g l].
  { destruct r; [by apply no_slash_not_slashed in E|].
    rewrite !string_app_assoc in E. by apply no_slash_not_slashed in E. }
  destruct r as [|d r].
  - apply first_slash in E as [-> _]; [|done..]. apply prefix_cons, prefix_nil.
  - rewrite !string_app_assoc in E. apply first_slash in E as [-> E]; [|done..]. apply prefix_cons.
    apply IH; done.
Qed.

(** The test decides containment below a root that is not the file system's. *)
Theorem prefix_contained r l :
  r <> [] -> Forall name r -> Forall name l ->
  String.prefix (abs_path r +:+ "/") (abs_path l) = true -> r `prefix_of` l.
Proof.
  intros Hne Hr Hl [u E]%prefix_app_inv. unfold abs_path in E.
  rewrite !string_app_assoc in E. apply app_string_inv_l in E. by eapply slashed_prefix.
Qed.

(** Under the file-system root itself the test rejects everything. *)
Lemma prefix_root_rejects l : Forall name l -> String.prefix (abs_path [] +:+ "/") (abs_path l) = false.
Proof.
  intros Hl. apply not_true_iff_false. intros [u E]%prefix_app_inv. unfold abs_path in E.
  rewrite !string_app_assoc in E. apply app_string_inv_l in E. change (slashed l = "/" +:+ u) in E.
  destruct Hl as [|e l (He1 & _ & He) Hl]; [done|].
  rewrite slashed_cons in E. destruct e as [|a e]; [done|].
  destruct l; injection E as -> _; done.
Qed.

Example clean_dots : map Clean ["/a/../../b/./c//"; "a/../.."; ""; "/"; "x//y/"]%string = ["/b/c"; ".."; "."; "/"; "x/y"]%string.
Proof. reflexivity. Qed.

(** [filepath.IsLocal] on Unix: relative, not empty, and not climbing out. *)
Definition IsLocal (s : string) : bool :=
  negb (s =? "")%string && negb (is_abs s)
  && negb (match clean_elements s with e :: _ => (e =? "..")%string | [] => false end).
