(* ===== verification/Json.v ===== *)
(** Decoded JSON, as Go's [any] holds it.

    An object is a finite map, so that neither the order of its keys nor a
    repeated key (the last one wins) is visible; a number is a float64.  A missing
    field reads as [JNull], the nil interface.  [keyed] builds an object from its
    fields, [size] is the measure that makes induction through maps possible. *)

From Stdlib Require Import ZArith Lia Bool Ascii String.
From stdpp Require Import tactics base option list gmap strings.
From S2P Require Import Prelude Float64 GoStrings.

Inductive json : Type :=
| JNull
| JBool (b : bool)
| JNumber (n : f64)
| JString (s : string)
| JArray (l : list json)
| JObject (m : gmap string json).

(** ** Type assertions *)

Definition as_string (v : json) : option string := match v with JString s => Some s | _ => None end.
Definition as_map (v : json) : option (gmap string json) := match v with JObject m => Some m | _ => None end.
Definition as_array (v : json) : option (list json) := match v with JArray l => Some l | _ => None end.

(** [m[k]]. *)
Definition field (m : gmap string json) (k : string) : json := default JNull (m !! k).

(** [m[k].(string)], with the zero value when the assertion fails. *)
Definition text_field (m : gmap string json) (k : string) : string := default ""%string (as_string (field m k)).

(** [v == "s"] on an interface value. *)
Definition is_text (v : json) (s : string) : bool := match v with JString t => (t =? s)%string | _ => false end.

Definition keyed (l : list (string * json)) : json := JObject (list_to_map (rev l)).

Lemma is_text_spec v s : is_text v s = true <-> v = JString s.
Proof.
  destruct v; simpl; try done. rewrite String.eqb_eq. naive_solver.
Qed.

(** ** Induction *)

Fixpoint size (v : json) : nat :=
  match v with
  | JArray l => S (list_sum (map size l))
  | JObject m => S (map_fold (fun _ n a => n + a)%nat 0%nat (size <$> m))
  | _ => 1%nat
  end.

Lemma size_array v l : v ∈ l -> (size v < size (JArray l))%nat.
Proof.
  intros H. simpl. apply Nat.lt_succ_r.
  induction H as [v l|v w l _ IH]; simpl; lia.
Qed.

Lemma size_field k v m : m !! k = Some v -> (size v < size (JObject m))%nat.
Proof.
  intros H. simpl. apply Nat.lt_succ_r.
  assert (Hf : (size <$> m) !! k = Some (size v)) by (by rewrite lookup_fmap, H).
  rewrite (map_fold_delete_L (fun _ n a => n + a)%nat 0%nat k (size v)); [lia|intros; lia|done].
Qed.

Lemma json_rec_ind (P : json -> Prop) :
  P JNull -> (forall b, P (JBool b)) -> (forall n, P (JNumber n)) -> (forall s, P (JString s)) ->
  (forall l, (forall v, v ∈ l -> P v) -> P (JArray l)) ->
  (forall m, (forall k v, m !! k = Some v -> P v) -> P (JObject m)) -> forall v, P v.
Proof.
  intros Hn Hb Hd Hs Ha Ho v. remember (size v) as n eqn:E. revert v E.
  induction (lt_wf n) as [n _ IH]. intros v ->.
  destruct v as [| | | |l|m]; auto.
  - apply Ha. intros v Hv. apply (IH (size v)); [by apply size_array|done].
  - apply Ho. intros k v Hv. apply (IH (size v)); [by apply (size_field k)|done].
Qed.
