(* ===== verification/Utf8.v ===== *)
(** Valid UTF-8 and the cutting of a text at rune boundaries
    (gateway/pipeline.go, replayStream). *)

From Stdlib Require Import ZArith Lia Bool Ascii String.
From stdpp Require Import tactics base option list strings.
From S2P Require Import Prelude GoStrings.

#[global] Open Scope Z_scope.

(** ** Strings and their bytes *)

Lemma bytes_string_app l1 l2 : bytes_string (l1 ++ l2) = bytes_string l1 +:+ bytes_string l2.
Proof. induction l1 as [|x l1 IH]; [done|]. exact (f_equal (String (ascii_of x)) IH). Qed.

Lemma string_bytes_app s t : string_bytes (s +:+ t) = string_bytes s ++ string_bytes t.
Proof. induction s as [|c s IH]; [done|]. exact (f_equal (cons (byte_of c)) IH). Qed.

Lemma bytes_string_inv c : Forall (fun b => 0 <= b < 256) c -> string_bytes (bytes_string c) = c.
Proof.
  induction 1 as [|b c Hb _ IH]; [done|]. change (byte_of (ascii_of b) :: string_bytes (bytes_string c) = b :: c).
  rewrite IH. f_equal. unfold byte_of, ascii_of. rewrite N_ascii_embedding by lia. lia.
Qed.

Lemma string_bytes_range s : Forall (fun b => 0 <= b < 256) (string_bytes s).
Proof.
  induction s as [|c s IH]; [constructor|]. constructor; [|exact IH]. unfold byte_of. pose proof (N_ascii_bounded c). lia.
Qed.

(** [utf8.RuneStart]. *)
Definition rune_start (b : Z) : bool := negb (cont_byte 128 191 b).

(** The bytes of one rune: decoding them takes them all and is no error. *)
Definition rune (r : list Z) : Prop :=
  exists c, decode_rune r = Some (c, []) /\ (c = rune_error -> length r = 3%nat).

Definition utf8 (l : list Z) : Prop := exists rs, l = concat rs /\ Forall rune rs.
Definition utf8_string (s : string) : Prop := utf8 (string_bytes s).

Lemma if_ge (c : bool) n x y : n <= x -> n <= y -> n <= (if c then x else y).
Proof. by destruct c. Qed.
Lemma if_le (c : bool) n x y : x <= n -> y <= n -> (if c then x else y) <= n.
Proof. by destruct c. Qed.

Lemma rune_shape r : rune r -> exists b t, r = b :: t /\ rune_start b = true /\ Forall (fun x => rune_start x = false) t
  /\ (length r <= 4)%nat.
Proof.
  intros (c & Hd & He). destruct r as [|b t]; [done|]. exists b, t. split; [done|].
  unfold decode_rune in Hd. destruct (Z.ltb_spec b 128).
  { simplify_eq. split; [|split; [constructor|simpl; lia]]. unfold rune_start, cont_byte.
    apply negb_true_iff, andb_false_iff. left. apply Z.leb_gt. lia. }
  assert (Hbad : forall x : list Z, Some (rune_error, t) = Some (c, []) -> False).
  { intros _ Hx. simplify_eq. by specialize (He eq_refl). }
  cbv zeta in Hd. unfold cont_byte in Hd at 1.
  assert (Hstart : forall lo hi, 192 <= lo -> (lo <=? b) && (b <=? hi) = true -> rune_start b = true).
  { intros lo hi Hlo Hb. go_bool. unfold rune_start, cont_byte. apply negb_true_iff, andb_false_iff. right. apply Z.leb_gt. lia. }
  assert (Hcont : forall lo hi x, 128 <= lo -> hi <= 191 -> cont_byte lo hi x = true -> rune_start x = false).
  { intros lo hi x Hlo Hhi Hx. unfold cont_byte in Hx. go_bool. unfold rune_start, cont_byte.
    apply negb_false_iff, andb_true_iff. split; apply Z.leb_le; lia. }
  destruct ((194 <=? b) && (b <=? 223)) eqn:E2.
  { destruct t as [|b1 t]; [by destruct (Hbad [])|]. destruct (cont_byte 128 191 b1) eqn:C1; [|by destruct (Hbad [])].
    simplify_eq. split; [by eapply (Hstart 194)|]. split; [|simpl; lia]. repeat constructor. by eapply (Hcont 128 191). }
  destruct (cont_byte 224 239 b) eqn:E3.
  { destruct t as [|b1 [|b2 t]]; [by destruct (Hbad [])..|].
    destruct (cont_byte _ _ b1 && cont_byte 128 191 b2) eqn:C; [|by destruct (Hbad [])]. go_bool.
    simplify_eq. split; [by eapply (Hstart 224)|]. split; [|simpl; lia].
    repeat constructor; [|by eapply (Hcont 128 191)].
    match goal with H : cont_byte ?lo ?hi b1 = true |- _ => apply (Hcont lo hi b1); [by apply if_ge|by apply if_le|exact H] end. }
  destruct (cont_byte 240 244 b) eqn:E4; [|by destruct (Hbad [])].
  destruct t as [|b1 [|b2 [|b3 t]]]; [by destruct (Hbad [])..|].
  destruct (cont_byte _ _ b1 && cont_byte 128 191 b2 && cont_byte 128 191 b3) eqn:C; [|by destruct (Hbad [])]. go_bool.
  simplify_eq. split; [by eapply (Hstart 240)|]. split; [|simpl; lia].
  repeat constructor; [|by eapply (Hcont 128 191)..].
  match goal with H : cont_byte ?lo ?hi b1 = true |- _ => apply (Hcont lo hi b1); [by apply if_ge|by apply if_le|exact H] end.
Qed.

Lemma utf8_nil : utf8 [].
Proof. by exists []. Qed.

(** Bytes below 128 are runes of their own. *)
Definition ascii_only (l : list Z) : bool := forallb (fun b => b <? 128) l.

Lemma ascii_utf8 l : ascii_only l = true -> utf8 l.
Proof.
  intros H. exists (map (fun b => [b]) l). unfold ascii_only in H. rewrite forallb_forall in H. induction l as [|b l IH]; [done|].
  destruct IH as [E F]; [intros x Hx; apply H; by right|]. split; [simpl; by rewrite <- E|]. simpl. constructor; [|done].
  exists b. unfold decode_rune. rewrite (H b (or_introl eq_refl)). split; [done|]. intros ->. by specialize (H _ (or_introl eq_refl)).
Qed.

Lemma utf8_app l1 l2 : utf8 l1 -> utf8 l2 -> utf8 (l1 ++ l2).
Proof.
  intros (r1 & -> & H1) (r2 & -> & H2). exists (r1 ++ r2). by rewrite concat_app, Forall_app.
Qed.

(** A valid text cut before a rune start, or at its end, gives valid parts. *)
Lemma utf8_cut l pre suf :
  utf8 l -> l = pre ++ suf -> match suf with [] => True | b :: _ => rune_start b = true end ->
  utf8 pre /\ utf8 suf.
Proof.
  intros (rs & -> & Hrs). revert pre suf. induction Hrs as [|r rs Hr Hrs IH]; intros pre suf E Hs; simpl in E.
  { symmetry in E. apply app_nil in E as [-> ->]. split; apply utf8_nil. }
  destruct (rune_shape r Hr) as (b & t & -> & Hb & Ht & _). destruct pre as [|p pre].
  { split; [apply utf8_nil|]. simpl in E. subst suf. exists ((b :: t) :: rs). split; [done|by constructor]. }
  destruct (decide (length (b :: t) <= length (p :: pre))%nat) as [Hle|Hgt].
  - apply app_eq_inv in E as [(k & E1 & E2)|(k & E1 & E2)].
    + assert (k = []) as ->.
      { apply (f_equal length) in E1. rewrite length_app in E1. destruct k; [done|]. simpl in *. lia. }
      rewrite app_nil_r in E1. rewrite app_nil_l in E2. destruct (IH [] suf) as [_ H]; [done|done|].
      split; [|done]. rewrite <- E1. exists [b :: t]. simpl. rewrite app_nil_r. split; [done|]. by repeat constructor.
    + destruct (IH k suf E2 Hs) as [H1 H2]. split; [|done]. rewrite E1. apply utf8_app; [|done].
      exists [b :: t]. simpl. rewrite app_nil_r. split; [done|]. by repeat constructor.
  - exfalso. apply app_eq_inv in E as [(k & E1 & E2)|(k & E1 & E2)].
    + destruct k as [|x k]; [rewrite app_nil_r in E1; rewrite E1 in Hgt; lia|]. subst suf. simpl in Hs.
      injection E1 as _ ->. rewrite Forall_app, Forall_cons in Ht. destruct Ht as (_ & Hx & _). congruence.
    + rewrite E1, length_app in Hgt. lia.
Qed.

(** ** Cutting into chunks *)

(** The loop [for n > 0 && !utf8.RuneStart(content[n]) { n-- }]. *)
Fixpoint back_off (n : nat) (l : list Z) : nat :=
  match n with
  | O => O
  | S n' => if rune_start (nth n l 0) then n else back_off n' l
  end.

Definition chunk_len (l : list Z) : nat :=
  if (length l <=? 256)%nat then length l
  else match back_off 256 l with O => length l | n => n end.

Fixpoint chunks_fuel (fuel : nat) (l : list Z) : list (list Z) :=
  match fuel, l with
  | S fuel, _ :: _ => take (chunk_len l) l :: chunks_fuel fuel (drop (chunk_len l) l)
  | _, _ => []
  end.

(** Every chunk takes at least one byte, so the length is fuel enough. *)
Definition chunks (l : list Z) : list (list Z) := chunks_fuel (length l) l.

Lemma back_off_spec n l : back_off n l = O \/ rune_start (nth (back_off n l) l 0) = true.
Proof.
  induction n as [|n IH]; [by left|]. cbn [back_off]. destruct (rune_start (nth (S n) l 0)) eqn:E; [by right|done].
Qed.

Lemma back_off_le n l : (back_off n l <= n)%nat.
Proof. induction n as [|n IH]; cbn [back_off]; [done|]. destruct (rune_start _); lia. Qed.

Lemma chunk_len_pos l : l <> [] -> (0 < chunk_len l <= length l)%nat.
Proof.
  intros Hl. assert (0 < length l)%nat by (destruct l; simpl; [done|lia]).
  unfold chunk_len. destruct (Nat.leb_spec (length l) 256); [lia|].
  pose proof (back_off_le 256 l). destruct (back_off 256 l); lia.
Qed.

(** The cut is at a rune start, or takes everything. *)
Lemma chunk_len_boundary l :
  match drop (chunk_len l) l with [] => True | b :: _ => rune_start b = true end.
Proof.
  unfold chunk_len. destruct (Nat.leb_spec (length l) 256); [by rewrite drop_all|].
  destruct (back_off_spec 256 l) as [->|H1]; [by rewrite drop_all|]. pose proof (back_off_le 256 l) as Hle.
  destruct (back_off 256 l) as [|n]; [by rewrite drop_all|].
  destruct (lookup_lt_is_Some_2 l (S n)) as [x Hx]; [lia|]. rewrite (drop_S l x (S n)) by done.
  rewrite nth_lookup, Hx in H1. done.
Qed.

Lemma chunks_fuel_spec fuel l : (length l <= fuel)%nat ->
  concat (chunks_fuel fuel l) = l /\ Forall (fun c => c <> []) (chunks_fuel fuel l)
  /\ (utf8 l -> Forall utf8 (chunks_fuel fuel l)).
Proof.
  revert l. induction fuel as [|fuel IH]; intros [|b l] Hl; simpl in Hl; try lia; [by repeat split; constructor..|].
  cbn [chunks_fuel]. set (n := chunk_len (b :: l)).
  assert (Hn : (0 < n <= length (b :: l))%nat) by by apply chunk_len_pos.
  destruct (IH (drop n (b :: l))) as (Hc & Hne & Hu); [rewrite length_drop; simpl in *; lia|].
  split; [|split].
  - cbn [concat]. by rewrite Hc, take_drop.
  - constructor; [|done]. intros E. apply (f_equal length) in E. rewrite length_take in E. simpl in E, Hn. lia.
  - intros Hv. destruct (utf8_cut (b :: l) (take n (b :: l)) (drop n (b :: l))) as [H1 H2];
      [done|by rewrite take_drop|apply chunk_len_boundary|]. constructor; auto.
Qed.

Lemma utf8_chunks_spec l :
  concat (chunks l) = l /\ Forall (fun c => c <> []) (chunks l) /\ (utf8 l -> Forall utf8 (chunks l)).
Proof. by apply chunks_fuel_spec. Qed.

(** A chunk of a valid text has at most 256 bytes: a rune start lies within the
    last four. *)
Lemma back_off_pos m l n :
  (m <= n)%nat -> (0 < m)%nat -> rune_start (nth m l 0) = true -> (0 < back_off n l)%nat.
Proof.
  intros Hmn Hm Hs. induction n as [|n IH]; [lia|]. cbn [back_off]. destruct (rune_start (nth (S n) l 0)) eqn:E; [lia|].
  apply IH. destruct (decide (m = S n)) as [->|]; [congruence|lia].
Qed.

Lemma chunk_len_bound l : utf8 l -> (chunk_len l <= 256)%nat.
Proof.
  intros (rs & -> & Hrs). unfold chunk_len. destruct (Nat.leb_spec (length (concat rs)) 256) as [|Hlen]; [done|].
  pose proof (back_off_le 256 (concat rs)). assert (0 < back_off 256 (concat rs))%nat; [|destruct (back_off 256 _); lia].
  destruct Hrs as [|r rs Hr Hrs]; [simpl in Hlen; lia|]. destruct (rune_shape r Hr) as (b & t & -> & _ & _ & H4).
  destruct Hrs as [|r2 rs Hr2 Hrs]; [simpl in Hlen, H4; rewrite app_nil_r in Hlen; lia|].
  destruct (rune_shape r2 Hr2) as (b2 & t2 & -> & Hb2 & _).
  apply (back_off_pos (length (b :: t))); [lia|simpl; lia|]. cbn [concat].
  by rewrite app_nth2, Nat.sub_diag by lia.
Qed.

Lemma utf8_chunks_small l : utf8 l -> Forall (fun c => (length c <= 256)%nat) (chunks l).
Proof.
  unfold chunks. generalize (Nat.le_refl (length l)). generalize (length l) at 2 3. intros fuel. revert l.
  induction fuel as [|fuel IH]; intros [|b l] Hl Hu; simpl in Hl; try lia; [by constructor..|].
  cbn [chunks_fuel]. pose proof (chunk_len_bound _ Hu) as Hb. set (n := chunk_len (b :: l)) in *.
  assert (Hn : (0 < n <= length (b :: l))%nat) by by apply chunk_len_pos.
  constructor; [rewrite length_take; lia|]. apply IH; [rewrite length_drop; simpl in *; lia|].
  by destruct (utf8_cut (b :: l) (take n (b :: l)) (drop n (b :: l))) as [_ H2]; [done|by rewrite take_drop|apply chunk_len_boundary|].
Qed.

(** ** Encoding and decoding *)

Definition valid_rune (r : Z) : bool := negb ((r <? 0) || (1114111 <? r) || ((55296 <=? r) && (r <=? 57343))).
(** What a rune reads back as. *)
Definition norm_rune (r : Z) : Z := if valid_rune r then r else rune_error.

Lemma decode_runes_eq l : decode_runes l = match decode_rune l with None => [] | Some (r, t) => r :: decode_runes t end.
Proof.
  unfold decode_runes. destruct l as [|b l]; [done|]. cbn [length decode_fuel].
  destruct (decode_rune (b :: l)) as [[r t]|] eqn:E; [|done]. apply decode_rune_shorter in E. cbn [length] in E.
  f_equal. apply decode_fuel_enough; lia.
Qed.

Ltac leb_cases :=
  repeat match goal with
  | |- context [?a =? ?b] => destruct (Z.eqb_spec a b); try lia
  | |- context [?a <=? ?b] => destruct (Z.leb_spec a b); try lia
  | |- context [?a <? ?b] => destruct (Z.ltb_spec a b); try lia
  end.

Lemma encode_rune_norm r : encode_rune r = encode_rune (norm_rune r).
Proof.
  unfold encode_rune, norm_rune, valid_rune. destruct ((r <? 0) || (1114111 <? r) || ((55296 <=? r) && (r <=? 57343))) eqn:E; cbn [negb]; [done|].
  by rewrite E.
Qed.

Lemma norm_rune_valid r : valid_rune (norm_rune r) = true.
Proof. unfold norm_rune. by destruct (valid_rune r) eqn:E. Qed.

Lemma decode_encode r t : decode_rune (encode_rune r ++ t) = Some (norm_rune r, t).
Proof.
  rewrite encode_rune_norm. pose proof (norm_rune_valid r) as Hv. set (x := norm_rune r) in *. clearbody x. clear r.
  unfold encode_rune. unfold valid_rune in Hv. apply negb_true_iff in Hv. rewrite Hv.
  apply orb_false_iff in Hv as [[H0 H1]%orb_false_iff H2]. apply Z.ltb_ge in H0, H1.
  assert (Hs : x < 55296 \/ 57343 < x) by (apply andb_false_iff in H2 as [?%Z.leb_gt|?%Z.leb_gt]; lia). clear H2.
  destruct (Z.ltb_spec x 128); [cbn [app]; unfold decode_rune; leb_cases; done|].
  destruct (Z.ltb_spec x 2048); [|destruct (Z.ltb_spec x 65536)]; cbn [app]; unfold decode_rune, cont_byte.
  - pose proof (Z.div_mod x 64 ltac:(lia)). pose proof (Z.mod_pos_bound x 64 ltac:(lia)).
    set (q := x / 64) in *. set (m := x mod 64) in *. clearbody q m. leb_cases; cbn [andb]; do 2 f_equal; lia.
  - pose proof (Z.div_mod x 64 ltac:(lia)). pose proof (Z.mod_pos_bound x 64 ltac:(lia)).
    replace (x / 4096) with (x / 64 / 64) by (rewrite Z.div_div by lia; done).
    set (q := x / 64) in *. set (m := x mod 64) in *. pose proof (Z.div_mod q 64 ltac:(lia)). pose proof (Z.mod_pos_bound q 64 ltac:(lia)).
    set (q' := q / 64) in *. set (m' := q mod 64) in *. clearbody q m q' m'. leb_cases; cbn [andb]; do 2 f_equal; lia.
  - pose proof (Z.div_mod x 64 ltac:(lia)). pose proof (Z.mod_pos_bound x 64 ltac:(lia)).
    replace (x / 4096) with (x / 64 / 64) by (rewrite Z.div_div by lia; done).
    replace (x / 262144) with (x / 64 / 64 / 64) by (rewrite !Z.div_div by lia; done).
    set (q := x / 64) in *. set (m := x mod 64) in *. pose proof (Z.div_mod q 64 ltac:(lia)). pose proof (Z.mod_pos_bound q 64 ltac:(lia)).
    set (q' := q / 64) in *. set (m' := q mod 64) in *. pose proof (Z.div_mod q' 64 ltac:(lia)). pose proof (Z.mod_pos_bound q' 64 ltac:(lia)).
    set (q2 := q' / 64) in *. set (m2 := q' mod 64) in *. clearbody q m q' m' q2 m2. leb_cases; cbn [andb]; do 2 f_equal; lia.
Qed.

Definition encode_runes (rs : list Z) : list Z := flat_map encode_rune rs.

Lemma decode_encode_runes rs : decode_runes (encode_runes rs) = map norm_rune rs.
Proof.
  induction rs as [|r rs IH]; [done|]. rewrite decode_runes_eq. unfold encode_runes. cbn [flat_map]. rewrite decode_encode.
  cbn [map]. f_equal. exact IH.
Qed.

(** Decoded runes are valid. *)
Lemma decode_rune_valid l r t : Forall (fun b => 0 <= b < 256) l -> decode_rune l = Some (r, t) -> valid_rune r = true.
Proof.
  intros Hl. destruct l as [|b0 l]; [done|]. apply Forall_cons in Hl as [Hb Hl]. unfold decode_rune.
  destruct (Z.ltb_spec b0 128); [intros [= <- <-]; unfold valid_rune; leb_cases; done|].
  intros E. cbv zeta in E. unfold cont_byte in E.
  destruct ((194 <=? b0) && (b0 <=? 223)) eqn:E2; [|destruct ((224 <=? b0) && (b0 <=? 239)) eqn:E3; [|destruct ((240 <=? b0) && (b0 <=? 244)) eqn:E4; [|by simplify_eq]]].
  - destruct l as [|b1 l]; [by simplify_eq|]. destruct (_ && _) eqn:C in E; [|by simplify_eq]. go_bool. simplify_eq.
    unfold valid_rune. leb_cases; done.
  - destruct l as [|b1 [|b2 l]]; [by simplify_eq..|]. destruct (_ && _ && (_ && _)) eqn:C in E; [|by simplify_eq].
    destruct (Z.eqb_spec b0 224), (Z.eqb_spec b0 237); go_bool; simplify_eq; unfold valid_rune; leb_cases; done.
  - destruct l as [|b1 [|b2 [|b3 l]]]; [by simplify_eq..|]. destruct (_ && _ && _ && _) eqn:C in E; [|by simplify_eq].
    destruct (Z.eqb_spec b0 240), (Z.eqb_spec b0 244); go_bool; simplify_eq; unfold valid_rune; leb_cases; done.
Qed.

(** ** Pieces: what one decoding step takes *)

Lemma decode_rune_suffix l r t : decode_rune l = Some (r, t) -> exists p, l = p ++ t /\ p <> [].
Proof.
  destruct l as [|b0 l]; [done|]. unfold decode_rune.
  assert (Hone : exists p, b0 :: l = p ++ l /\ p <> []) by by exists [b0].
  repeat (case_match; simplify_eq; try (intros [= <- <-]; exact Hone)); intros [= <- <-];
    first [by eexists [_; _]|by eexists [_; _; _]|by eexists [_; _; _; _]].
Qed.

(** One step either takes a whole rune, whatever follows it, or an ill-formed byte. *)
Lemma decode_rune_cases l r t : decode_rune l = Some (r, t) ->
  exists p, l = p ++ t /\ p <> []
    /\ ((forall u, decode_rune (p ++ u) = Some (r, u)) /\ (r = rune_error -> length p = 3%nat)
        \/ exists b, p = [b] /\ 128 <= b /\ r = rune_error).
Proof.
  destruct l as [|b0 l]; [done|]. unfold decode_rune at 1. destruct (Z.ltb_spec b0 128) as [H0|H0].
  { intros [= <- <-]. exists [b0]. split; [done|]. split; [done|]. left. split; [|unfold rune_error; lia].
    intros u. cbn [app]. unfold decode_rune. destruct (Z.ltb_spec b0 128); [done|lia]. }
  assert (Hbad : Some (rune_error, l) = Some (r, t) -> exists p, b0 :: l = p ++ t /\ p <> []
    /\ ((forall u, decode_rune (p ++ u) = Some (r, u)) /\ (r = rune_error -> length p = 3%nat)
        \/ exists b, p = [b] /\ 128 <= b /\ r = rune_error)).
  { intros [= <- <-]. exists [b0]. split; [done|]. split; [done|]. right. by exists b0. }
  assert (H128 : (b0 <? 128) = false) by (by apply Z.ltb_ge). cbv zeta.
  destruct (cont_byte 194 223 b0) eqn:E2.
  { destruct l as [|b1 l]; [exact Hbad|]. destruct (cont_byte 128 191 b1) eqn:C1; [|exact Hbad]. intros [= <- <-].
    exists [b0; b1]. split; [done|]. split; [done|]. left. split.
    - intros u. cbn [app]. unfold decode_rune. rewrite H128, E2. cbv zeta. by rewrite C1.
    - unfold cont_byte, rune_error in *. go_bool. lia. }
  destruct (cont_byte 224 239 b0) eqn:E3.
  { destruct l as [|b1 [|b2 l]]; [exact Hbad..|]. destruct (_ && cont_byte 128 191 b2) eqn:C1; [|exact Hbad]. intros [= <- <-].
    exists [b0; b1; b2]. split; [done|]. split; [done|]. left. split; [|done].
    intros u. cbn [app]. unfold decode_rune. rewrite H128, E2, E3. cbv zeta. by rewrite C1. }
  destruct (cont_byte 240 244 b0) eqn:E4; [|exact Hbad].
  destruct l as [|b1 [|b2 [|b3 l]]]; [exact Hbad..|]. destruct (_ && cont_byte 128 191 b3) eqn:C1; [|exact Hbad]. intros [= <- <-].
  exists [b0; b1; b2; b3]. split; [done|]. split; [done|]. left. split.
  - intros u. cbn [app]. unfold decode_rune. rewrite H128, E2, E3, E4. cbv zeta. by rewrite C1.
  - unfold cont_byte, rune_error in *. destruct (Z.eqb_spec b0 240); go_bool; lia.
Qed.

(** A continuation byte where a rune should start is ill-formed. *)
Lemma decode_cont b t : 128 <= b < 194 -> decode_rune (b :: t) = Some (rune_error, t).
Proof.
  intros Hb. unfold decode_rune, cont_byte. destruct (Z.ltb_spec b 128); [lia|].
  destruct (Z.leb_spec 194 b); [lia|]. destruct (Z.leb_spec 224 b); [lia|]. destruct (Z.leb_spec 240 b); [lia|]. done.
Qed.

(** ** Texts joined at an ASCII byte *)

(** An ASCII byte ends whatever was being decoded. *)
Lemma decode_rune_app_ascii l r t b y :
  decode_rune l = Some (r, t) -> 0 <= b < 128 -> decode_rune (l ++ b :: y) = Some (r, t ++ b :: y).
Proof.
  intros E Hb. destruct (decode_rune_cases l r t E) as (p & -> & Hp & [[Hu _]|(b0 & -> & Hb0 & ->)]).
  { rewrite <- app_assoc. apply Hu. }
  cbn [app] in *. unfold decode_rune in *. destruct (Z.ltb_spec b0 128); [lia|]. cbv zeta in *.
  assert (Hc : forall lo hi, 128 <= lo -> cont_byte lo hi b = false).
  { intros lo hi Hlo. unfold cont_byte. apply andb_false_iff. left. apply Z.leb_gt. lia. }
  assert (Hlo : forall c : bool, 128 <= (if c then 160 else 128)) by by intros [].
  assert (Hlo' : forall c : bool, 128 <= (if c then 144 else 128)) by by intros [].
  assert (Hbad : forall (x : Z) (p u : list Z), p <> [] -> Some (x, u) = Some (rune_error, p ++ u) -> False).
  { intros x p u Hne Hx. injection Hx as _ Hx. apply (f_equal length) in Hx. rewrite length_app in Hx. destruct p; [done|]. simpl in Hx. lia. }
  destruct (cont_byte 194 223 b0).
  { destruct t as [|b1 t]; cbn [app]; [by rewrite Hc|]. destruct (cont_byte 128 191 b1); [|done]. by destruct (Hbad _ [b1] _ ltac:(done) E). }
  destruct (cont_byte 224 239 b0).
  { destruct t as [|b1 [|b2 t]]; cbn [app].
    - destruct y; [done|]. by rewrite Hc by apply Hlo.
    - by rewrite (Hc 128 191), andb_false_r.
    - destruct (_ && cont_byte 128 191 b2); [|done]. by destruct (Hbad _ [b1; b2] _ ltac:(done) E). }
  destruct (cont_byte 240 244 b0); [|done].
  destruct t as [|b1 [|b2 [|b3 t]]]; cbn [app].
  - destruct y as [|? [|? ?]]; [done..|]. by rewrite Hc by apply Hlo'.
  - destruct y as [|? ?]; [done|]. by rewrite (Hc 128 191), andb_false_r.
  - by rewrite (Hc 128 191), andb_false_r.
  - destruct (_ && cont_byte 128 191 b3); [|done]. by destruct (Hbad _ [b1; b2; b3] _ ltac:(done) E).
Qed.

Lemma decode_runes_app_ascii x b y : 0 <= b < 128 -> decode_runes (x ++ b :: y) = decode_runes x ++ b :: decode_runes y.
Proof.
  intros Hb. assert (H : forall n x, (length x <= n)%nat -> decode_runes (x ++ b :: y) = decode_runes x ++ b :: decode_runes y); [|by eapply H].
  clear x. assert (Hnil : decode_runes (b :: y) = b :: decode_runes y).
  { rewrite decode_runes_eq. unfold decode_rune. destruct (Z.ltb_spec b 128); [done|lia]. }
  induction n as [|n IH]; intros x Hx; [destruct x; [exact Hnil|simpl in Hx; lia]|].
  destruct (decode_rune x) as [[r t]|] eqn:E.
  - rewrite (decode_runes_eq (x ++ b :: y)), (decode_rune_app_ascii x r t b y E Hb), (decode_runes_eq x), E.
    apply decode_rune_shorter in E. rewrite IH by lia. done.
  - destruct x as [|c x]; [exact Hnil|]. destruct (decode_rune_cons c x). congruence.
Qed.

Lemma encode_rune_range r : Forall (fun b => 0 <= b < 256) (encode_rune r).
Proof.
  rewrite encode_rune_norm. pose proof (norm_rune_valid r) as Hv. set (x := norm_rune r) in *. clearbody x.
  unfold encode_rune. unfold valid_rune in Hv. apply negb_true_iff in Hv. rewrite Hv.
  apply orb_false_iff in Hv as [[H0 H1]%orb_false_iff _]. apply Z.ltb_ge in H0, H1.
  assert (Hm : forall a, 0 <= 128 + a mod 64 < 256) by (intros a; pose proof (Z.mod_pos_bound a 64 ltac:(lia)); lia).
  assert (Hd : forall d n, 0 < d -> x < n * d -> 0 <= x / d < n).
  { intros d n Hd Hx. split; [apply Z.div_pos; lia|]. apply Z.div_lt_upper_bound; lia. }
  destruct (Z.ltb_spec x 128); [repeat constructor; lia|].
  destruct (Z.ltb_spec x 2048); [|destruct (Z.ltb_spec x 65536)]; repeat constructor; try apply Hm.
  1,2: pose proof (Hd 64 32 ltac:(lia) ltac:(lia)); lia.
  1,2: pose proof (Hd 4096 16 ltac:(lia) ltac:(lia)); lia.
  1,2: pose proof (Hd 262144 5 ltac:(lia) ltac:(lia)); lia.
Qed.

Lemma encode_runes_range rs : Forall (fun b => 0 <= b < 256) (encode_runes rs).
Proof. induction rs as [|r rs IH]; [constructor|]. apply Forall_app. split; [apply encode_rune_range|exact IH]. Qed.

(** The runes of an encoding. *)
Lemma runes_encode rs : runes (bytes_string (encode_runes rs)) = map norm_rune rs.
Proof. unfold runes. rewrite bytes_string_inv by apply encode_runes_range. apply decode_encode_runes. Qed.

Lemma runes_valid s : Forall (fun r => valid_rune r = true) (runes s).
Proof.
  unfold runes. assert (H : forall n l, (length l <= n)%nat -> Forall (fun b => 0 <= b < 256) l -> Forall (fun r => valid_rune r = true) (decode_runes l));
    [|by eapply H; [|apply string_bytes_range]].
  clear s. induction n as [|n IH]; intros l Hl Hb; rewrite decode_runes_eq; destruct (decode_rune l) as [[r t]|] eqn:E; try constructor.
  - by eapply decode_rune_valid.
  - apply decode_rune_shorter in E. lia.
  - by eapply decode_rune_valid.
  - pose proof (decode_rune_shorter _ _ _ E). destruct (decode_rune_suffix _ _ _ E) as (p & -> & _). apply Forall_app in Hb as [_ Hb]. apply IH; [lia|done].
Qed.

Lemma norm_valid rs : Forall (fun r => valid_rune r = true) rs -> map norm_rune rs = rs.
Proof. induction 1 as [|r rs Hr _ IH]; [done|]. cbn [map]. rewrite IH. unfold norm_rune. by rewrite Hr. Qed.

Lemma decode_rune_ascii l r t : decode_rune l = Some (r, t) -> r < 128 -> l = r :: t.
Proof.
  destruct l as [|b0 l]; [done|]. unfold decode_rune. destruct (Z.ltb_spec b0 128); [by intros [= -> ->]|]. cbv zeta.
  assert (Hbad : Some (rune_error, l) = Some (r, t) -> r < 128 -> b0 :: l = r :: t) by (unfold rune_error; intros [= <- _]; lia).
  intros E Hr. unfold cont_byte in E. destruct ((194 <=? b0) && (b0 <=? 223)) eqn:E2.
  { destruct l as [|b1 l]; [by apply Hbad|]. destruct ((128 <=? b1) && (b1 <=? 191)) eqn:C; [|by apply Hbad]. injection E as <- <-. go_bool. lia. }
  destruct ((224 <=? b0) && (b0 <=? 239)) eqn:E3.
  { destruct l as [|b1 [|b2 l]]; [by apply Hbad..|]. destruct (_ && _ && (_ && _)) eqn:C in E; [|by apply Hbad].
    injection E as <- <-. destruct (Z.eqb_spec b0 224), (Z.eqb_spec b0 237); go_bool; lia. }
  destruct ((240 <=? b0) && (b0 <=? 244)) eqn:E4; [|by apply Hbad].
  destruct l as [|b1 [|b2 [|b3 l]]]; [by apply Hbad..|]. destruct (_ && _ && _ && _) eqn:C in E; [|by apply Hbad].
  injection E as <- <-. destruct (Z.eqb_spec b0 240), (Z.eqb_spec b0 244); go_bool; lia.
Qed.

(** An ASCII rune is a byte of the text. *)
Lemma ascii_rune_byte c l : 0 <= c < 128 -> c ∈ decode_runes l <-> c ∈ l.
Proof.
  intros Hc. split.
  - assert (H : forall n l, (length l <= n)%nat -> c ∈ decode_runes l -> c ∈ l); [|by eapply H].
    clear l. induction n as [|n IH]; intros l Hl; rewrite decode_runes_eq; destruct (decode_rune l) as [[r t]|] eqn:E; try by intros ?%not_elem_of_nil.
    + apply decode_rune_shorter in E. lia.
    + pose proof (decode_rune_shorter _ _ _ E). destruct (decode_rune_cases _ _ _ E) as (p & -> & Hp & Hcase).
      intros [->|Hin]%elem_of_cons; [|apply elem_of_app; right; apply IH; [lia|done]].
      apply elem_of_app. left. destruct Hcase as [[Hu _]|(b & -> & Hb & Hr)]; [|unfold rune_error in Hr; lia].
      specialize (Hu []). rewrite app_nil_r in Hu. apply decode_rune_ascii in Hu as ->; [by left|lia].
  - intros (l1 & l2 & ->)%list_elem_of_split. rewrite decode_runes_app_ascii by done. apply elem_of_app. right. left.
Qed.
