(* ===== verification/Text.v ===== *)
(** More of Go's [strings]: cutting, splitting, trimming cut sets and replacing, as
    structural functions, with the lemmas the text-processing components share. *)

From Stdlib Require Import ZArith Lia Bool Ascii String.
From stdpp Require Import tactics base option list strings.
From S2P Require Import Prelude GoStrings.

#[global] Open Scope Z_scope.

(** [strings.Cut]: around the first occurrence of [sep]. *)
Fixpoint cut (sep s : string) : option (string * string) :=
  if has_prefix s sep then Some (""%string, trim_prefix s sep)
  else match s with
       | EmptyString => None
       | String c t => match cut sep t with Some (a, b) => Some (String c a, b) | None => None end
       end.

(** [strings.Contains]. *)
Definition contains (s sub : string) : bool := if cut sub s is Some _ then true else false.

(** Around the last occurrence of [sep]. *)
Fixpoint last_cut (sep s : string) : option (string * string) :=
  match s with
  | EmptyString => if has_prefix s sep then Some (""%string, ""%string) else None
  | String c t =>
      match last_cut sep t with
      | Some (a, b) => Some (String c a, b)
      | None => if has_prefix s sep then Some (""%string, trim_prefix s sep) else None
      end
  end.

(** [strings.Split] at one character. *)
Fixpoint split_on (c : ascii) (s : string) : list string :=
  match s with
  | EmptyString => [""%string]
  | String d t =>
      if Ascii.eqb d c then ""%string :: split_on c t
      else match split_on c t with x :: r => String d x :: r | [] => [String d ""] end
  end.

Definition lf : ascii := ascii_of 10.
Definition split_lines (s : string) : list string := split_on lf s.
Definition lf_string : string := String lf "".

(** [strings.TrimRightFunc] and [strings.TrimLeftFunc] on bytes. *)
Fixpoint trim_right_if (p : ascii -> bool) (s : string) : string :=
  match s with
  | EmptyString => ""
  | String c t => let t := trim_right_if p t in if (t =? "")%string && p c then "" else String c t
  end.
Fixpoint trim_left_if (p : ascii -> bool) (s : string) : string :=
  match s with EmptyString => "" | String c t => if p c then trim_left_if p t else s end.

Definition one_char (cutset : string) (c : ascii) : bool := existsb (Ascii.eqb c) (list_ascii_of_string cutset).
(** [strings.TrimRight] and [strings.Trim] for a cut set of ASCII characters. *)
Definition trim_right (s cutset : string) : string := trim_right_if (one_char cutset) s.
Definition trim (s cutset : string) : string := trim_right (trim_left_if (one_char cutset) s) cutset.

Definition has_suffix (s p : string) : bool :=
  (String.length p <=? String.length s)%nat && (String.substring (String.length s - String.length p) (String.length p) s =? p)%string.

(** [strings.ReplaceAll] for a pattern that is not empty; [skip] bytes of a match are
    left to drop. *)
Fixpoint replace_from (skip : nat) (old new s : string) : string :=
  match s with
  | EmptyString => ""
  | String c t =>
      match skip with
      | S k => replace_from k old new t
      | O => if has_prefix s old then new +:+ replace_from (String.length old - 1) old new t
             else String c (replace_from 0 old new t)
      end
  end.
Definition replace_all (s old new : string) : string := replace_from 0 old new s.

(** ** Lemmas *)

Lemma cut_sound sep s a b : cut sep s = Some (a, b) -> s = a +:+ sep +:+ b.
Proof.
  assert (Hp : forall t, has_prefix t sep = true -> t = "" +:+ sep +:+ trim_prefix t sep).
  { intros t [u ->]%prefix_app_inv. by rewrite trim_prefix_app. }
  revert a b. induction s as [|c s IH]; intros a b; cbn [cut].
  - destruct (has_prefix "" sep) eqn:E; [|done]. intros [= <- <-]. by apply Hp.
  - destruct (has_prefix (String c s) sep) eqn:E; [intros [= <- <-]; by apply Hp|].
    destruct (cut sep s) as [[a' b']|]; [|done]. intros [= <- <-]. by rewrite (IH a' b' eq_refl).
Qed.

Lemma cut_here sep t : cut sep (sep +:+ t) = Some (""%string, t).
Proof.
  assert (H : has_prefix (sep +:+ t) sep = true) by (apply prefix_app_inv; by exists t).
  rewrite <- (trim_prefix_app sep t) at 2. by destruct (sep +:+ t); cbn [cut]; rewrite H.
Qed.

Lemma cut_first sep s a b : (sep =? "")%string = false -> cut sep s = Some (a, b) -> cut sep a = None.
Proof.
  intros Hs. revert a b. induction s as [|c s IH]; intros a b; cbn [cut]; (destruct (has_prefix _ sep) eqn:E;
    [intros [= <- <-]; destruct sep; [done|]; by cbn|]); [done|].
  destruct (cut sep s) as [[a' b']|] eqn:Ec; [|done]. intros [= <- <-]. cbn [cut]. rewrite (IH a' b' eq_refl).
  replace (has_prefix (String c a') sep) with false; [done|]. symmetry. apply not_true_is_false. intros H.
  apply cut_sound in Ec as ->. apply prefix_app_inv in H as [u Hu].
  unfold has_prefix in E. rewrite (proj2 (prefix_app_inv sep _)) in E; [done|]. exists (u +:+ sep +:+ b').
  rewrite <- str_cons, Hu. by rewrite string_app_assoc.
Qed.

Lemma prefix_nil s : String.prefix "" s = true.
Proof. by destruct s. Qed.

Lemma slen_string s : slen s = Z.of_nat (String.length s).
Proof. done. Qed.

Lemma string_length_app s t : String.length (s +:+ t) = (String.length s + String.length t)%nat.
Proof. induction s as [|c s IH]; [done|]. rewrite str_cons. cbn [String.length]. by rewrite IH. Qed.

Lemma split_on_nonempty c s : split_on c s <> [].
Proof. destruct s as [|d t]; [done|]. cbn [split_on]. destruct (Ascii.eqb d c); [done|]. by destruct (split_on c t). Qed.

(** [x] has no [c]. *)
Definition free_of (c : ascii) (x : string) : Prop := cut (String c "") x = None.

Lemma prefix_one c d t : has_prefix (String d t) (String c "") = Ascii.eqb d c.
Proof.
  unfold has_prefix. cbn [String.prefix]. rewrite prefix_nil. destruct (ascii_dec c d) as [->|Hn]; [by rewrite Ascii.eqb_refl|].
  symmetry. apply Ascii.eqb_neq. congruence.
Qed.

Lemma free_of_cons c d x : free_of c (String d x) <-> d <> c /\ free_of c x.
Proof.
  unfold free_of. cbn [cut]. rewrite prefix_one. destruct (Ascii.eqb_spec d c) as [->|Hn].
  - split; [done|by intros [? _]].
  - destruct (cut _ x) as [[]|]; naive_solver.
Qed.

Lemma cut_free c x t : free_of c x -> cut (String c "") (x +:+ String c t) = Some (x, t).
Proof.
  induction x as [|d x IH]; intros Hx.
  - rewrite str_nil_l. pose proof (cut_here (String c "") t) as H. by rewrite str_cons, str_nil_l in H.
  - apply free_of_cons in Hx as [Hd Hx]. rewrite str_cons. cbn [cut]. rewrite prefix_one. apply Ascii.eqb_neq in Hd. by rewrite Hd, IH.
Qed.

Lemma free_of_app c x y : free_of c (x +:+ y) <-> free_of c x /\ free_of c y.
Proof.
  induction x as [|d x IH]; [rewrite str_nil_l; split; [by split|by intros [_ ?]]|]. rewrite str_cons, !free_of_cons, IH. tauto.
Qed.

Lemma split_on_free c s : Forall (free_of c) (split_on c s).
Proof.
  induction s as [|d t IH]; [by constructor|]. cbn [split_on]. destruct (Ascii.eqb_spec d c) as [->|Hn]; [by constructor|].
  destruct (split_on c t) as [|x r]; [constructor; [by apply free_of_cons|constructor]|].
  apply Forall_cons in IH as [? ?]. constructor; [by apply free_of_cons|done].
Qed.

Lemma join_cons sep x y l : join sep (x :: y :: l) = x +:+ sep +:+ join sep (y :: l).
Proof. done. Qed.

Lemma join_split c s : join (String c "") (split_on c s) = s.
Proof.
  induction s as [|d t IH]; [done|]. cbn [split_on]. pose proof (split_on_nonempty c t) as Hn.
  destruct (Ascii.eqb_spec d c) as [->|_].
  - destruct (split_on c t) as [|x r]; [done|]. rewrite join_cons, IH. done.
  - destruct (split_on c t) as [|x [|y r]]; [done|by rewrite <- IH|]. rewrite join_cons in IH |- *. rewrite <- IH. done.
Qed.

Lemma split_on_app c x s : free_of c x ->
  split_on c (x +:+ s) = match split_on c s with y :: r => (x +:+ y) :: r | [] => [x] end.
Proof.
  induction x as [|d x IH]; intros Hx.
  - rewrite str_nil_l. pose proof (split_on_nonempty c s). by destruct (split_on c s).
  - apply free_of_cons in Hx as [Hd Hx]. rewrite str_cons. cbn [split_on]. apply Ascii.eqb_neq in Hd. rewrite Hd, IH by done.
    by destruct (split_on c s).
Qed.

Lemma split_on_sep c x s : free_of c x -> split_on c (x +:+ String c s) = x :: split_on c s.
Proof. intros Hx. rewrite split_on_app by done. cbn [split_on]. by rewrite Ascii.eqb_refl, string_app_nil. Qed.

Lemma split_join c l : l <> [] -> Forall (free_of c) l -> split_on c (join (String c "") l) = l.
Proof.
  induction l as [|x [|y l] IH]; intros Hne Hl; [done| |].
  - apply Forall_cons in Hl as [Hx _]. change (join (String c "") [x]) with x. rewrite <- (string_app_nil x) at 1.
    rewrite split_on_app by done. cbn [split_on]. by rewrite string_app_nil.
  - apply Forall_cons in Hl as [Hx Hl]. rewrite join_cons, str_cons, str_nil_l, split_on_sep by done. by rewrite IH.
Qed.

Lemma trim_right_length p s : (String.length (trim_right_if p s) <= String.length s)%nat.
Proof. induction s as [|c s IH]; [done|]. cbn [trim_right_if]. destruct (_ && _); cbn [String.length]; lia. Qed.

(** What is trimmed is a suffix of characters of the cut set. *)
Lemma trim_right_spec p s : exists t, s = trim_right_if p s +:+ t /\ Forall (fun c => p c = true) (list_ascii_of_string t).
Proof.
  induction s as [|c s (t & E & Ht)]; [by exists ""%string|]. cbn [trim_right_if].
  destruct (String.eqb_spec (trim_right_if p s) ""%string) as [En|En]; cbn [andb].
  - rewrite En, str_nil_l in E. subst t. destruct (p c) eqn:Ep.
    + exists (String c s). split; [done|]. cbn. by constructor.
    + exists s. rewrite En. by split.
  - exists t. split; [|done]. rewrite str_cons. by rewrite <- E.
Qed.

Lemma has_suffix_spec s p : has_suffix s p = true <-> exists u, s = u +:+ p.
Proof.
  unfold has_suffix. split.
  - intros [Hl He]%andb_true_iff. apply Nat.leb_le in Hl. apply String.eqb_eq in He.
    exists (String.substring 0 (String.length s - String.length p) s).
    assert (H : forall n u, (n <= String.length u)%nat -> u = String.substring 0 n u +:+ String.substring n (String.length u - n) u).
    { induction n as [|n IH]; intros u Hn; [cbn; destruct u; cbn [String.substring String.length]; [done|rewrite str_nil_l, Nat.sub_0_r; f_equal; symmetry; apply substring_all]|].
      destruct u as [|d u]; [cbn in Hn; lia|]. cbn [String.substring String.length Nat.sub]. rewrite str_cons. f_equal. apply IH. cbn in Hn. lia. }
    rewrite (H (String.length s - String.length p)%nat s) at 1 by lia. f_equal.
    replace (String.length s - (String.length s - String.length p))%nat with (String.length p) by lia. exact He.
  - intros [u ->]. rewrite string_length_app, andb_true_iff. split; [apply Nat.leb_le; lia|]. apply String.eqb_eq.
    replace (String.length u + String.length p - String.length p)%nat with (String.length u) by lia.
    induction u as [|d u IH]; [rewrite str_nil_l; apply substring_all|]. rewrite str_cons. exact IH.
Qed.

Lemma last_cut_sound sep s a b : last_cut sep s = Some (a, b) -> s = a +:+ sep +:+ b.
Proof.
  assert (Hp : forall t, has_prefix t sep = true -> t = "" +:+ sep +:+ trim_prefix t sep).
  { intros t [u ->]%prefix_app_inv. by rewrite trim_prefix_app. }
  revert a b. induction s as [|c s IH]; intros a b; cbn [last_cut].
  - destruct (has_prefix "" sep) eqn:E; [|done]. intros [= <- <-]. destruct sep; [done|]. done.
  - destruct (last_cut sep s) as [[a' b']|].
    + intros [= <- <-]. by rewrite (IH a' b' eq_refl).
    + destruct (has_prefix (String c s) sep) eqn:E; [|done]. intros [= <- <-]. by apply Hp.
Qed.

(** The last occurrence is the given one when none starts inside it or after it. *)
Lemma last_cut_app sep a b :
  (forall u v, sep +:+ b = u +:+ v -> u <> ""%string -> has_prefix v sep = false) -> has_prefix "" sep = false ->
  last_cut sep (a +:+ sep +:+ b) = Some (a, b).
Proof.
  intros H He. assert (Hn : forall v, (exists u, u <> ""%string /\ sep +:+ b = u +:+ v) -> last_cut sep v = None).
  { induction v as [|c v IH]; intros (u & Hu & E); cbn [last_cut]; [by rewrite He|]. rewrite IH; [by rewrite (H u _ E Hu)|].
    exists (u +:+ String c ""). split; [by destruct u|]. by rewrite string_app_assoc. }
  induction a as [|c a IH]; [|rewrite str_cons; cbn [last_cut]; by rewrite IH].
  rewrite str_nil_l. destruct sep as [|c sep]; [done|]. rewrite str_cons. cbn [last_cut].
  rewrite Hn; [|exists (String c ""); split; [done|by rewrite str_cons]]. rewrite <- str_cons.
  assert (Hp : has_prefix (String c sep +:+ b) (String c sep) = true) by (apply prefix_app_inv; by exists b).
  by rewrite Hp, trim_prefix_app.
Qed.
