(* ===== verification/Blank.v ===== *)
(** White space: the laws of [strings.TrimSpace], and the replacement of the
    runs of [regexp]'s ASCII class [\s] by one space. *)

From Stdlib Require Import ZArith Lia Bool Ascii String.
From stdpp Require Import tactics base option list strings.
From S2P Require Import Prelude GoStrings Utf8.

(** ** One trimmed character *)

Definition space_head (l : list Z) : option (list Z) :=
  match l with
  | [] => None
  | a :: t =>
      if space1 a then Some t else
      match t with
      | [] => None
      | b :: t1 =>
          if space2 a b then Some t1 else
          match t1 with
          | [] => None
          | c :: t2 => if space3 a b c then Some t2 else None
          end
      end
  end.

Definition space_last (l : list Z) : option (list Z) :=
  match l with
  | [] => None
  | a :: t =>
      if space1 a then Some t else
      match t with
      | [] => None
      | b :: t1 =>
          if space2 b a then Some t1 else
          match t1 with
          | [] => None
          | c :: t2 => if space3 c b a then Some t2 else None
          end
      end
  end.

Lemma trim_left_step l : trim_left l = match space_head l with Some t => trim_left t | None => l end.
Proof. destruct l as [|a [|b [|c l]]]; cbn; go_cases. Qed.

Lemma trim_rev_step l : trim_left_rev l = match space_last l with Some t => trim_left_rev t | None => l end.
Proof. destruct l as [|a [|b [|c l]]]; cbn; go_cases. Qed.

Lemma space_head_suffix l t : space_head l = Some t -> exists p, l = p ++ t /\ p <> [].
Proof.
  destruct l as [|a [|b [|c l]]]; cbn; intros E; go_inv E.
  all: match goal with |- context [?x :: ?y :: ?z :: ?t = _ ++ ?t] => exists [x; y; z] | |- context [?x :: ?y :: ?t = _ ++ ?t] => exists [x; y]
       | |- context [?x :: ?t = _ ++ ?t] => exists [x] end; done.
Qed.

Lemma space_last_suffix l t : space_last l = Some t -> exists p, l = p ++ t /\ p <> [].
Proof.
  destruct l as [|a [|b [|c l]]]; cbn; intros E; go_inv E.
  all: match goal with |- context [?x :: ?y :: ?z :: ?t = _ ++ ?t] => exists [x; y; z] | |- context [?x :: ?y :: ?t = _ ++ ?t] => exists [x; y]
       | |- context [?x :: ?t = _ ++ ?t] => exists [x] end; done.
Qed.

Lemma longer {A} (p t : list A) : p <> [] -> (length t < length (p ++ t))%nat.
Proof. intros. rewrite length_app. destruct p; [done|]. simpl. lia. Qed.

(** Trimming drops a prefix and stops before a character that is no space. *)
Lemma trim_left_spec l : space_head (trim_left l) = None /\ exists p, l = p ++ trim_left l.
Proof.
  remember (length l) as n eqn:E. revert l E. induction (lt_wf n) as [n _ IH]. intros l ->.
  rewrite trim_left_step. destruct (space_head l) as [t|] eqn:Es; [|by split; [|exists []]].
  destruct (space_head_suffix _ _ Es) as (p & -> & Hp).
  destruct (IH (length t) (longer p t Hp) t eq_refl) as [Hn [q Hq]]. split; [done|].
  exists (p ++ q). by rewrite <- app_assoc, <- Hq.
Qed.

Lemma trim_rev_spec l : space_last (trim_left_rev l) = None /\ exists p, l = p ++ trim_left_rev l.
Proof.
  remember (length l) as n eqn:E. revert l E. induction (lt_wf n) as [n _ IH]. intros l ->.
  rewrite trim_rev_step. destruct (space_last l) as [t|] eqn:Es; [|by split; [|exists []]].
  destruct (space_last_suffix _ _ Es) as (p & -> & Hp).
  destruct (IH (length t) (longer p t Hp) t eq_refl) as [Hn [q Hq]]. split; [done|].
  exists (p ++ q). by rewrite <- app_assoc, <- Hq.
Qed.

Lemma space_head_prefix p s : space_head (p ++ s) = None -> space_head p = None.
Proof. destruct p as [|a [|b [|c p]]]; cbn; go_cases. Qed.

Lemma space_last_prefix p s : space_last (p ++ s) = None -> space_last p = None.
Proof. destruct p as [|a [|b [|c p]]]; cbn; go_cases. Qed.

(** What is left neither starts nor ends with a space. *)
Definition trimmed (l : list Z) : Prop := space_head l = None /\ space_last (rev l) = None.

Lemma trim_trimmed l : trimmed (trim_bytes l).
Proof.
  unfold trimmed, trim_bytes. rewrite rev_involutive.
  destruct (trim_rev_spec (rev (trim_left l))) as [Hl [p Hp]]. split; [|done].
  apply (f_equal (@rev Z)) in Hp. rewrite rev_involutive, rev_app_distr in Hp.
  apply (space_head_prefix _ (rev p)). rewrite <- Hp. apply trim_left_spec.
Qed.

Lemma trimmed_trim l : trimmed l -> trim_bytes l = l.
Proof.
  intros [Hh Hl]. unfold trim_bytes.
  rewrite trim_left_step, Hh, trim_rev_step, Hl. apply rev_involutive.
Qed.

(** A trimmed text is an infix of the text. *)
Lemma trim_infix l : exists p s, l = p ++ trim_bytes l ++ s.
Proof.
  unfold trim_bytes. destruct (trim_left_spec l) as [_ [p Hp]].
  destruct (trim_rev_spec (rev (trim_left l))) as [_ [q Hq]].
  exists p, (rev q). apply (f_equal (@rev Z)) in Hq. rewrite rev_involutive, rev_app_distr in Hq.
  by rewrite <- Hq.
Qed.

Lemma trim_left_app l s : trim_left (l ++ s) = if decide (trim_left l = []) then trim_left s else trim_left (l ++ s).
Proof.
  case_decide as E; [|done]. revert E. remember (length l) as n eqn:En. revert l En.
  induction (lt_wf n) as [n _ IH]. intros l -> E. rewrite trim_left_step in E.
  destruct (space_head l) as [t|] eqn:Es; [|by subst l].
  destruct (space_head_suffix _ _ Es) as (p & Hp & Hne). rewrite trim_left_step.
  assert (Hs : space_head (l ++ s) = Some (t ++ s)).
  { clear -Es. destruct l as [|a [|b [|c l]]]; cbn in *; go_inv Es; go_cases. }
  rewrite Hs. apply (IH (length t)); [rewrite Hp; by apply longer|done|done].
Qed.

(** Trimming ignores an ASCII space at either end. *)
Lemma trim_space_front b l : space1 b = true -> trim_bytes (b :: l) = trim_bytes l.
Proof. intros Hb. unfold trim_bytes. rewrite (trim_left_step (b :: l)). cbn. by rewrite Hb. Qed.

Lemma space1_ascii b : space1 b = true -> 9 <= b <= 32.
Proof. unfold space1. intros H. apply orb_true_iff in H as [H|H]; go_bool; lia. Qed.

Lemma space_head_snoc l b : space1 b = true -> l <> [] -> space_head (l ++ [b]) = (fun t => t ++ [b]) <$> space_head l.
Proof.
  intros Hb%space1_ascii Hl. destruct l as [|x [|y [|z l]]]; [done|..]; cbn [app space_head].
  - destruct (space1 x); [done|]. by replace (space2 x b) with false by (unfold space2; lia).
  - destruct (space1 x); [done|]. destruct (space2 x y); [done|].
    by replace (space3 x y b) with false by (unfold space3; lia).
  - destruct (space1 x); [done|]. destruct (space2 x y); [done|]. by destruct (space3 x y z).
Qed.

Lemma trim_left_snoc l b : space1 b = true ->
  trim_left (l ++ [b]) = if decide (trim_left l = []) then [] else trim_left l ++ [b].
Proof.
  intros Hb. remember (length l) as n eqn:E. revert l E. induction (lt_wf n) as [n _ IH]. intros l ->.
  destruct l as [|a l]; [cbn; by rewrite Hb|].
  rewrite (trim_left_step ((a :: l) ++ [b])), (trim_left_step (a :: l)), space_head_snoc by done.
  destruct (space_head (a :: l)) as [t|] eqn:Es; cbn [fmap option_fmap option_map]; [|by rewrite decide_False].
  destruct (space_head_suffix _ _ Es) as (p & Hp & Hne). apply (IH (length t)); [|done].
  rewrite Hp. by apply longer.
Qed.

Lemma trim_space_back b l : space1 b = true -> trim_bytes (l ++ [b]) = trim_bytes l.
Proof.
  intros Hb. unfold trim_bytes. rewrite trim_left_snoc by done.
  case_decide as E; [by rewrite E|]. rewrite rev_app_distr. cbn [rev app].
  rewrite (trim_rev_step (b :: _)). cbn. by rewrite Hb.
Qed.

(** ** Collapsing runs *)

(** The class [\s]: tab, line feed, form feed, carriage return, space. *)
Definition class_space (b : Z) : bool := (b =? 9) || (b =? 10) || (b =? 12) || (b =? 13) || (b =? 32).

(** [ReplaceAllString(s, " ")] with the pattern [\s+]; [inside] a run. *)
Fixpoint collapse (inside : bool) (l : list Z) : list Z :=
  match l with
  | [] => []
  | b :: t => if class_space b then (if inside then collapse true t else 32 :: collapse true t) else b :: collapse false t
  end.

Lemma class_space1 b : class_space b = true -> space1 b = true.
Proof. unfold class_space, space1. lia. Qed.

(** No class character but single spaces. *)
Definition collapsed (inside : bool) (l : list Z) : Prop := collapse inside l = l.

Lemma collapse_fixed inside l : collapsed inside (collapse inside l).
Proof.
  unfold collapsed. revert inside. induction l as [|b l IH]; intros inside; [done|]. cbn.
  destruct (class_space b) eqn:E; [destruct inside; [apply IH|]|]; cbn; [by rewrite IH|by rewrite E, IH].
Qed.

Lemma collapse_shorter inside l : (length (collapse inside l) <= length l)%nat.
Proof.
  revert inside. induction l as [|b l IH]; intros inside; cbn; [lia|].
  pose proof (IH true). pose proof (IH false). destruct (class_space b), inside; cbn; lia.
Qed.

Lemma collapsed_false l : collapsed true l -> collapsed false l.
Proof.
  unfold collapsed. destruct l as [|b l]; [done|]. cbn. destruct (class_space b) eqn:E; [|done].
  intros H. apply (f_equal length) in H. pose proof (collapse_shorter true l). cbn in H. lia.
Qed.

Lemma collapsed_cons inside b l : collapsed inside (b :: l) -> collapsed (class_space b) l.
Proof.
  unfold collapsed. cbn. destruct (class_space b) eqn:E, inside; intros Hc; try by injection Hc.
  apply (f_equal length) in Hc. pose proof (collapse_shorter true l). cbn in Hc. lia.
Qed.

Lemma collapsed_infix p l s inside : collapsed inside (p ++ l ++ s) -> collapsed false l.
Proof.
  revert inside. induction p as [|b p IH]; intros inside H; cbn in H.
  - assert (H' : collapsed false (l ++ s)) by (destruct inside; [by apply collapsed_false|done]). clear H inside.
    assert (G : forall i, collapsed i (l ++ s) -> collapsed i l); [|by apply G].
    clear. induction l as [|b l IH]; intros i; [done|]. intros Hc. pose proof (IH _ (collapsed_cons _ _ _ Hc)) as Hl.
    unfold collapsed in *. cbn in Hc |- *. revert Hc Hl. destruct (class_space b), i; intros Hc Hl; [|injection Hc as <- _; by rewrite Hl|by rewrite Hl..].
    apply (f_equal length) in Hc. pose proof (collapse_shorter true (l ++ s)). cbn in Hc. lia.
  - by apply collapsed_cons, IH in H.
Qed.

Lemma collapse_run w inside l : Forall (fun b => class_space b = true) w -> w <> [] ->
  collapse inside (w ++ l) = (if inside then [] else [32]) ++ collapse true l.
Proof.
  intros Hw Hne. destruct Hw as [|b w Hb Hw]; [done|]. cbn. rewrite Hb.
  assert (E : collapse true (w ++ l) = collapse true l).
  { clear Hne. induction Hw as [|c w Hc _ IH]; [done|]. cbn. by rewrite Hc. }
  rewrite E. by destruct inside.
Qed.

Lemma collapse_app_run a inside w w' l :
  Forall (fun b => class_space b = true) w -> Forall (fun b => class_space b = true) w' -> w <> [] -> w' <> [] ->
  collapse inside (a ++ w ++ l) = collapse inside (a ++ w' ++ l).
Proof.
  intros Hw Hw' Hn Hn'. revert inside. induction a as [|b a IH]; intros inside; [by rewrite !app_nil_l, !collapse_run|].
  cbn. destruct (class_space b), inside; by rewrite IH.
Qed.

Lemma collapse_back a inside w : Forall (fun b => class_space b = true) w ->
  collapse inside (a ++ w) = collapse inside a \/ collapse inside (a ++ w) = collapse inside a ++ [32].
Proof.
  intros Hw. revert inside. induction a as [|b a IH]; intros inside; cbn [app collapse].
  - destruct w as [|b w]; [by left|]. pose proof (collapse_run (b :: w) inside [] Hw). rewrite app_nil_r in H.
    rewrite H by done. destruct inside; auto.
  - destruct (class_space b), inside; cbn; [edestruct IH as [->| ->]; eauto..].
Qed.

Lemma trim_collapse_true l : trim_bytes (collapse true l) = trim_bytes (collapse false l).
Proof. destruct l as [|b l]; [done|]. cbn [collapse]. destruct (class_space b); [|done]. by rewrite trim_space_front. Qed.
