(* ===== verification/Compress.v ===== *)
(** kernel/slice/compress.go: the text rules of the extractor - line clean-up outside
    code fences, then the head and the tail of what is too long.

    Lengths are in bytes; the prefix and the suffix are shortened until they are
    valid UTF-8. *)

From Stdlib Require Import ZArith Lia Bool Ascii String.
From stdpp Require Import tactics base option list strings.
From S2P Require Import Prelude GoStrings Text Utf8 Blank.

#[global] Open Scope Z_scope.

Definition compressionVersion : string := "rules-v1".
Definition compactionMarker : string := lf_string +:+ "...[content compacted]..." +:+ lf_string.

(** ** Lines *)

Definition cr : ascii := ascii_of 13.
Definition backquote : ascii := ascii_of 96.
Definition tilde : ascii := ascii_of 126.

Definition markdownFenceDelimiter (line : string) : option ascii :=
  match trim_space line with
  | String a (String b (String c _)) =>
      if Ascii.eqb a backquote && Ascii.eqb b backquote && Ascii.eqb c backquote then Some backquote
      else if Ascii.eqb a tilde && Ascii.eqb b tilde && Ascii.eqb c tilde then Some tilde
      else None
  | _ => None
  end.

Definition isMarkdownDecoration (line : string) : bool :=
  let l := runes (trim_space line) in
  negb (length l <? 3)%nat && forallb (fun r => existsb (Z.eqb r) (runes "-*_=~#")) l.

(** One line: the lines kept so far and the fence that is open. *)
Definition compress_line (st : list string * option ascii) (line : string) : list string * option ascii :=
  let '(kept, fence) := st in
  let line := trim_right line (String " " (String (ascii_of 9) "")) in
  match markdownFenceDelimiter line with
  | Some d => (kept ++ [line], match fence with None => Some d | Some f => if Ascii.eqb f d then None else fence end)
  | None =>
      match fence with
      | Some _ => (kept ++ [line], fence)
      | None =>
          let blank := (trim_space line =? "")%string in
          if isMarkdownDecoration line then (kept, fence)
          else match last kept with
               | Some previous =>
                   if blank && (trim_space previous =? "")%string then (kept, fence)
                   else if negb blank && (line =? previous)%string then (kept, fence)
                   else (kept ++ [line], fence)
               | None => (kept ++ [line], fence)
               end
      end
  end.

Definition normalize_ends (content : string) : string :=
  replace_all (replace_all content (String cr lf_string) lf_string) (String cr "") lf_string.

Definition kept_lines (content : string) : list string :=
  (foldl compress_line ([], None) (split_lines (normalize_ends content))).1.
Definition compact_lines (content : string) : string := trim_space (join lf_string (kept_lines content)).

(** ** Bytes *)

(** [utf8.Valid]. *)
Fixpoint valid_fuel (n : nat) (l : list Z) : bool :=
  match l, n with
  | [], _ => true
  | _, O => false
  | _, S n =>
      match decode_rune l with
      | Some (r, t) => negb ((r =? rune_error) && (length l =? S (length t))%nat) && valid_fuel n t
      | None => false
      end
  end.
Definition valid_utf8 (l : list Z) : bool := valid_fuel (length l) l.

(** The loop that shortens a prefix of [n] bytes. *)
Fixpoint shorten (n : nat) (l : list Z) : list Z :=
  match n with
  | O => []
  | S k => if valid_utf8 (take n l) then take n l else shorten k l
  end.
Definition utf8Prefix (l : list Z) (max : nat) : list Z := if (length l <=? max)%nat then l else shorten max l.

Fixpoint shorten_front (l : list Z) : list Z :=
  match l with [] => [] | _ :: t => if valid_utf8 l then l else shorten_front t end.
Definition utf8Suffix (l : list Z) (max : nat) : list Z :=
  if (length l <=? max)%nat then l else shorten_front (drop (length l - max) l).

Definition retainHeadAndTail (l : list Z) (max : nat) : list Z :=
  if (length l <=? max)%nat then l
  else
    let marker := string_bytes compactionMarker in
    if (max <=? length marker)%nat then utf8Prefix l max
    else
      let available := (max - length marker)%nat in
      let headBudget := (available / 2)%nat in
      utf8Prefix l headBudget ++ marker ++ utf8Suffix l (available - headBudget).

(** The limits of the callers are constants. *)
Definition compressText (content : string) (max : nat) : string :=
  let compacted := string_bytes (compact_lines content) in
  bytes_string (if (length compacted <=? max)%nat then compacted else retainHeadAndTail compacted max).

(** ** Valid text *)

Lemma valid_utf8_sound l : valid_utf8 l = true -> utf8 l.
Proof.
  unfold valid_utf8. generalize (length l) at 1. intros n. revert l.
  induction n as [|n IH]; intros [|b l] H; try done; try apply utf8_nil. cbn [valid_fuel] in H.
  destruct (decode_rune (b :: l)) as [[r t]|] eqn:E; [|done]. apply andb_true_iff in H as [Hr Ht].
  destruct (decode_rune_cases _ _ _ E) as (p & Hl & _ & [[Hu He]|(c & -> & _ & ->)]).
  - rewrite Hl. apply utf8_app; [|by apply IH]. exists [p]. split; [by rewrite concat_cons, app_nil_r|]. repeat constructor.
    exists r. split; [|done]. specialize (Hu []). by rewrite app_nil_r in Hu.
  - exfalso. rewrite Hl, Z.eqb_refl in Hr. cbn [app length] in Hr. by rewrite Nat.eqb_refl in Hr.
Qed.

Lemma shorten_spec n l : utf8 (shorten n l) /\ (length (shorten n l) <= n)%nat /\ exists t, l = shorten n l ++ t.
Proof.
  induction n as [|n (IH1 & IH2 & IH3)]; [split; [apply utf8_nil|]; split; [done|by exists l]|]. cbn [shorten].
  destruct (valid_utf8 (take (S n) l)) eqn:E; [|split; [done|]; split; [lia|done]].
  split; [by apply valid_utf8_sound|]. split; [rewrite length_take; lia|]. exists (drop (S n) l). by rewrite take_drop.
Qed.

Lemma shorten_front_spec l : utf8 (shorten_front l) /\ (length (shorten_front l) <= length l)%nat /\ exists h, l = h ++ shorten_front l.
Proof.
  induction l as [|b l (IH1 & IH2 & h & IH3)]; [split; [apply utf8_nil|]; split; [done|by exists []]|]. cbn [shorten_front].
  destruct (valid_utf8 (b :: l)) eqn:E; [split; [by apply valid_utf8_sound|]; split; [done|by exists []]|].
  split; [done|]. split; [cbn [length]; lia|]. exists (b :: h). cbn [app]. by rewrite <- IH3.
Qed.

Lemma utf8Prefix_spec l max : (max < length l)%nat ->
  utf8 (utf8Prefix l max) /\ (length (utf8Prefix l max) <= max)%nat /\ exists t, l = utf8Prefix l max ++ t.
Proof. intros Hm. unfold utf8Prefix. destruct (Nat.leb_spec (length l) max); [lia|]. apply shorten_spec. Qed.

Lemma utf8Suffix_spec l max : (max < length l)%nat ->
  utf8 (utf8Suffix l max) /\ (length (utf8Suffix l max) <= max)%nat /\ exists h, l = h ++ utf8Suffix l max.
Proof.
  intros Hm. unfold utf8Suffix. destruct (Nat.leb_spec (length l) max); [lia|].
  destruct (shorten_front_spec (drop (length l - max) l)) as (H1 & H2 & h & H3). rewrite length_drop in H2.
  split; [done|]. split; [lia|]. exists (take (length l - max) l ++ h). by rewrite <- app_assoc, <- H3, take_drop.
Qed.

(** The head and the tail of what is too long, around the marker. *)
Definition head_and_tail (l r : list Z) : Prop :=
  exists h m t, l = h ++ m ++ t /\ r = h ++ string_bytes compactionMarker ++ t.

Lemma marker_ascii : utf8 (string_bytes compactionMarker).
Proof. by apply ascii_utf8. Qed.

Lemma retain_spec l max : (max < length l)%nat ->
  let r := retainHeadAndTail l max in
  utf8 r /\ (length r <= max)%nat
  /\ if (max <=? length (string_bytes compactionMarker))%nat then exists t, l = r ++ t else head_and_tail l r.
Proof.
  intros Hm r. subst r. unfold retainHeadAndTail. destruct (Nat.leb_spec (length l) max); [lia|].
  set (mk := string_bytes compactionMarker). destruct (Nat.leb_spec max (length mk)) as [|Hk]; [by apply utf8Prefix_spec|].
  set (av := (max - length mk)%nat). assert (Hd : (av / 2 <= av)%nat) by (apply Nat.Div0.div_le_upper_bound; lia).
  destruct (utf8Prefix_spec l (av / 2)) as (Hp1 & Hp2 & t & Hp3); [lia|].
  destruct (utf8Suffix_spec l (av - av / 2)) as (Hs1 & Hs2 & h & Hs3); [lia|].
  split; [apply utf8_app; [done|]; apply utf8_app; [apply marker_ascii|done]|]. split; [rewrite !length_app; lia|].
  unfold head_and_tail. fold mk. rewrite Hp3 in Hs3 at 1. apply app_eq_inv in Hs3 as [(k & E1 & E2)|(k & E1 & E2)].
  - exfalso. apply (f_equal length) in E2, Hp3. rewrite !length_app in *. lia.
  - exists (utf8Prefix l (av / 2)), k, (utf8Suffix l (av - av / 2)). split; [|done]. rewrite <- E2. exact Hp3.
Qed.

(** ** Lines that stay *)

Definition trimmed_line (line : string) : string := trim_right line (String " " (String (ascii_of 9) "")).

Definition contentful (line : string) : bool :=
  negb (trim_space line =? "")%string && negb (isMarkdownDecoration line).

Lemma compress_line_spec kept fence line :
  let st := compress_line (kept, fence) line in
  (st.1 = kept ++ [trimmed_line line] \/ st.1 = kept /\ fence = None)
  /\ (contentful (trimmed_line line) = true -> trimmed_line line ∈ st.1).
Proof.
  cbv zeta. unfold compress_line. fold (trimmed_line line). set (l := trimmed_line line).
  assert (Hin : l ∈ kept ++ [l]) by (apply elem_of_app; right; by apply list_elem_of_singleton).
  destruct (markdownFenceDelimiter l) as [d|]; [by repeat split; [left|]|]. destruct fence as [f|]; [by repeat split; [left|]|].
  unfold contentful. destruct (isMarkdownDecoration l) eqn:Ed; [split; [by right|by rewrite andb_false_r]|].
  destruct (last kept) as [previous|] eqn:El; [|by repeat split; [left|]].
  destruct (trim_space l =? "")%string eqn:Eb; cbn [andb negb].
  - destruct (trim_space previous =? "")%string; (split; [first [by left|by right]|done]).
  - destruct (String.eqb_spec l previous) as [->|]; [|by split; [left|]].
    split; [by right|]. intros _. apply last_Some_elem_of in El. exact El.
Qed.

Lemma compress_fold lines : forall kept fence,
  let r := (foldl compress_line (kept, fence) lines).1 in
  exists added, r = kept ++ added /\ added `sublist_of` map trimmed_line lines
    /\ Forall (fun l => contentful l = true -> l ∈ r) (map trimmed_line lines).
Proof.
  induction lines as [|line lines IH]; intros kept fence; cbv zeta; cbn [foldl map].
  { exists []. rewrite app_nil_r. split; [done|]. split; [constructor|constructor]. }
  destruct (compress_line_spec kept fence line) as [Hk Hc]. destruct (compress_line (kept, fence) line) as [kept' fence'] eqn:E.
  cbn [fst] in *. destruct (IH kept' fence') as (added & Hr & Hs & Hf). rewrite Hr in *.
  assert (Hhead : contentful (trimmed_line line) = true -> trimmed_line line ∈ kept' ++ added).
  { intros H. apply elem_of_app. left. by apply Hc. }
  destruct Hk as [->|[-> _]].
  - exists (trimmed_line line :: added). rewrite <- app_assoc. split; [done|]. split; [by constructor|].
    rewrite <- app_assoc in *. by constructor.
  - exists added. split; [done|]. split; [by constructor|]. by constructor.
Qed.

(** A line inside a fence is kept. *)
Lemma fence_kept kept f line : (compress_line (kept, Some f) line).1 = kept ++ [trimmed_line line].
Proof. destruct (compress_line_spec kept (Some f) line) as [[H|[_ H]] _]; [exact H|done]. Qed.

(** ** The whole text *)

Lemma compressText_bytes content max :
  let c := string_bytes (compact_lines content) in
  string_bytes (compressText content max) = if (length c <=? max)%nat then c else retainHeadAndTail c max.
Proof.
  intros c. unfold compressText. fold c. rewrite bytes_string_inv; [done|].
  assert (Hc : Forall (fun b => 0 <= b < 256) c) by apply string_bytes_range.
  destruct (Nat.leb_spec (length c) max) as [|Hm]; [done|]. destruct (retain_spec c max Hm) as (_ & _ & H).
  destruct (max <=? _)%nat.
  - destruct H as [t Ht]. rewrite Ht in Hc. by apply Forall_app in Hc as [? _].
  - destruct H as (h & m & t & Ht & ->). rewrite Ht, !Forall_app in Hc. destruct Hc as (Hh & _ & Ht').
    rewrite !Forall_app. split; [done|]. split; [apply string_bytes_range|done].
Qed.

Lemma string_bytes_inj s t : string_bytes s = string_bytes t -> s = t.
Proof. intros H. rewrite <- (bytes_string_bytes s), <- (bytes_string_bytes t). by rewrite H. Qed.

Lemma kept_lines_spec content :
  kept_lines content `sublist_of` map trimmed_line (split_lines (normalize_ends content))
  /\ Forall (fun l => contentful l = true -> l ∈ kept_lines content) (map trimmed_line (split_lines (normalize_ends content))).
Proof.
  destruct (compress_fold (split_lines (normalize_ends content)) [] None) as (added & Hr & Hs & Hf).
  unfold kept_lines. rewrite Hr in *. by split.
Qed.

Lemma slen_bytes s : slen s = Z.of_nat (length (string_bytes s)).
Proof. unfold slen. induction s as [|c s IH]; [done|]. cbn [String.length]. change (string_bytes (String c s)) with (byte_of c :: string_bytes s). cbn [length]. lia. Qed.

(** ** Properties *)

Section Witnesses.

(** Whatever the transcript holds, the text the extractor stores has at most [max]
    bytes.  When the kept lines fit they are stored as they are; otherwise what is
    stored is valid UTF-8 and is either a beginning of the kept text (a limit no larger
    than the marker) or a beginning, the marker and an end of it, with a gap between
    them.  The kept lines are a subsequence of the lines of the transcript without
    their trailing blanks, and no line with content is lost: one that is neither blank
    nor a decoration is among them. *)
Theorem compressText_faithful content max :
  let lines := map trimmed_line (split_lines (normalize_ends content)) in
  let kept := trim_space (join lf_string (kept_lines content)) in
  let stored := compressText content max in
  slen stored <= Z.of_nat max
  /\ kept_lines content `sublist_of` lines
  /\ Forall (fun l => contentful l = true -> l ∈ kept_lines content) lines
  /\ if slen kept <=? Z.of_nat max then stored = kept
     else utf8_string stored
          /\ if Z.of_nat max <=? slen compactionMarker then exists cut, kept = stored +:+ cut
             else exists head gap tail, kept = head +:+ gap +:+ tail /\ stored = head +:+ compactionMarker +:+ tail.
Proof.
  intros lines kept stored.
  assert (Hb : string_bytes stored
    = if (length (string_bytes kept) <=? max)%nat then string_bytes kept else retainHeadAndTail (string_bytes kept) max)
    by exact (compressText_bytes content max).
  destruct (kept_lines_spec content) as [Hs Hf]. rewrite !slen_bytes.
  destruct (Z.leb_spec (Z.of_nat (length (string_bytes kept))) (Z.of_nat max)) as [Hm|Hm].
  - destruct (Nat.leb_spec (length (string_bytes kept)) max); [|lia]. apply string_bytes_inj in Hb as ->. by repeat split; [lia| |].
  - destruct (Nat.leb_spec (length (string_bytes kept)) max); [lia|]. destruct (retain_spec (string_bytes kept) max) as (Hu & Hl & Hr); [lia|].
    rewrite <- Hb in Hu, Hl, Hr. split; [lia|]. split; [done|]. split; [done|]. split; [done|].
    destruct (Z.leb_spec (Z.of_nat max) (Z.of_nat (length (string_bytes compactionMarker)))) as [Hk|Hk];
      destruct (Nat.leb_spec max (length (string_bytes compactionMarker))); try lia.
    + destruct Hr as [t Ht]. exists (bytes_string t). by rewrite <- (bytes_string_bytes kept), Ht, bytes_string_app, bytes_string_bytes.
    + destruct Hr as (h & m & t & Hk1 & Hk2). exists (bytes_string h), (bytes_string m), (bytes_string t).
      rewrite <- (bytes_string_bytes kept), <- (bytes_string_bytes stored), Hk1, Hk2, !bytes_string_app. by rewrite bytes_string_bytes.
Qed.

(** A decoration, a repeated line and a fenced one. *)
Example compress_sample :
  compressText (join lf_string ["a  "; "----"; "a"; ""; "```"; "----"; "x"; "x"; "```"; "z"]) 100
  = join lf_string ["a"; ""; "```"; "----"; "x"; "x"; "```"; "z"].
Proof. by vm_compute. Qed.

(** The head loses the first byte of a rune it would cut. *)
Example compress_cut :
  compressText (bytes_string (repeat 97 9 ++ [195; 169] ++ repeat 98 40)) 47
  = bytes_string (repeat 97 9) +:+ compactionMarker +:+ bytes_string (repeat 98 10).
Proof. by vm_compute. Qed.

End Witnesses.
