(* ===== verification/Task.v ===== *)
(** kernel/slice/{task_body,task_type}.go: the task inside its host framing, and its
    type by keywords.

    Offsets into the text are structural recursions over what follows: [skip]
    counts the bytes of a match that are left to step over. *)

From Stdlib Require Import ZArith Lia Bool Ascii String.
From stdpp Require Import tactics base option list strings.
From S2P Require Import Prelude GoStrings Text.

#[global] Open Scope Z_scope.

(** ** Tagged blocks (task_body.go) *)

Definition ascii_upper (c : ascii) : bool := in_range 65 90 (byte_of c).
Fixpoint asciiLower (s : string) : string :=
  match s with
  | EmptyString => ""
  | String c t => String (if ascii_upper c then ascii_of (byte_of c + 32) else c) (asciiLower t)
  end.

Definition lt_sign : ascii := "<".
Definition gt_sign : ascii := ">".

(** What may follow the name of a tag: nothing, [>], or white space. *)
Definition tag_end (s : string) : bool :=
  match s with EmptyString => true | String c _ => existsb (Z.eqb (byte_of c)) [62; 32; 9; 13; 10; 12] end.

(** The text after [p], when it starts with [p]. *)
Definition after_prefix (p s : string) : option string := if has_prefix s p then Some (trim_prefix s p) else None.

Definition opens (tag s : string) : bool :=
  match after_prefix (String lt_sign tag) s with Some r => tag_end r | None => false end.

(** The offset of the first opening tag; a longer name is stepped over. *)
Fixpoint open_at (skip : nat) (tag s : string) : option nat :=
  match s with
  | EmptyString => None
  | String _ t =>
      match skip with
      | S k => S <$> open_at k tag t
      | O =>
          if has_prefix s (String lt_sign tag) then if opens tag s then Some O else S <$> open_at (String.length tag) tag t
          else S <$> open_at 0 tag t
      end
  end.

Definition close_tag (tag : string) : string := "</" +:+ tag +:+ ">".

(** [matchTaggedClose]: the offset past the closing tag that balances [depth] open
    ones. *)
Fixpoint matchTaggedClose (skip depth : nat) (tag s : string) : option nat :=
  match s with
  | EmptyString => None
  | String c t =>
      match skip with
      | S k => S <$> matchTaggedClose k depth tag t
      | O =>
          if negb (Ascii.eqb c lt_sign) then S <$> matchTaggedClose 0 depth tag t
          else if has_prefix s (close_tag tag) then
            match depth with
            | S (S d) => S <$> matchTaggedClose (String.length (close_tag tag) - 1) (S d) tag t
            | _ => Some (String.length (close_tag tag))
            end
          else if opens tag s then S <$> matchTaggedClose (String.length tag) (S depth) tag t
          else S <$> matchTaggedClose 0 depth tag t
      end
  end.

Definition string_take (n : nat) (s : string) : string := String.substring 0 n s.
Fixpoint string_drop (n : nat) (s : string) : string :=
  match n, s with O, _ => s | S n, EmptyString => "" | S n, String _ t => string_drop n t end.

(** One round of the loop: the text and whether to go on. *)
Definition strip_round (text tag : string) : string * bool :=
  let lower := asciiLower text in
  match open_at 0 tag lower with
  | None => (text, false)
  | Some start =>
      match cut (String gt_sign "") (string_drop start lower) with
      | None => (string_take start text, false)
      | Some (name, _) =>
          let from := (start + String.length name + 1)%nat in
          match matchTaggedClose 0 1 tag (string_drop from lower) with
          | None => (string_take start text, false)
          | Some n => (string_take start text +:+ " " +:+ string_drop (from + n) text, true)
          end
      end
  end.

Fixpoint strip_rounds (fuel : nat) (text tag : string) : string :=
  match fuel with
  | O => text
  | S n => let '(text, more) := strip_round text tag in if more then strip_rounds n text tag else text
  end.
(** Every round that goes on shortens the text. *)
Definition stripTaggedBlock (text tag : string) : string := strip_rounds (S (String.length text)) text tag.

Definition taggedBody (text tag : string) : option string :=
  let lower := asciiLower text in
  match cut ("<" +:+ tag +:+ ">") lower with
  | None => None
  | Some (before, rest) =>
      let start := (String.length before + String.length ("<" +:+ tag +:+ ">"))%nat in
      match cut (close_tag tag) rest with
      | None => None
      | Some (body, _) => Some (string_take (String.length body) (string_drop start text))
      end
  end.

Definition testbedPrefix : string :=
  "Fix the following issue in /testbed. The matching Python environment and dependencies are preinstalled at /opt/miniconda3/envs/testbed; use that Python and the existing tests."
  +:+ lf_string +:+ lf_string.
Definition issue_heading : string := "Issue:" +:+ lf_string.
Definition runner_issue : string := lf_string +:+ lf_string +:+ issue_heading.
Definition runner_requirements : string :=
  lf_string +:+ lf_string +:+ "Requirements:" +:+ lf_string +:+ "- Find the root cause and implement a complete fix".

Definition framed (body : string) : option string :=
  if has_prefix body "You are working in a git checkout of the " || has_prefix body "You are solving a real GitHub issue in this repository." then
    match cut runner_issue body with
    | Some (_, task) => Some (trim_space (match cut runner_requirements task with Some (a, _) => a | None => task end))
    | None => None
    end
  else None.

Definition TaskBody (raw : string) : string :=
  let body := trim_space (stripTaggedBlock (replace_all raw (String (ascii_of 13) lf_string) lf_string) "execution-policy") in
  match taggedBody body "issue" with
  | Some issue => trim_space issue
  | None =>
      match after_prefix testbedPrefix body with
      | Some task => trim_space task
      | None =>
          match framed body with
          | Some task => task
          | None => match after_prefix issue_heading body with Some task => trim_space task | None => body end
          end
      end
  end.

(** ** Task types (task_type.go) *)

Definition TaskTestUpdate : string := "test-update".
Definition TaskBugfix : string := "bugfix".
Definition TaskRefactor : string := "refactor".
Definition TaskDocs : string := "docs".
Definition TaskFeature : string := "feature".
Definition TaskInvestigate : string := "investigate".
Definition TaskGeneral : string := "general".

Definition taskRules : list (string * list string) :=
  [(TaskTestUpdate, ["test fail"; "failing test"; "broken test"; "update test"; "fix test"; "assertionerror"; "测试失败"; "修测试"; "断言失败"]);
   (TaskBugfix, ["fix"; "bug"; "error"; "crash"; "regression"; "incorrect"; "wrong"; "exception"; "traceback"; "unexpected"; "fails"; "broken";
                 "修复"; "报错"; "崩溃"; "异常"; "错误"; "不正确"]);
   (TaskRefactor, ["refactor"; "rename"; "clean up"; "cleanup"; "restructure"; "simplify"; "deduplicate"; "重构"; "重命名"; "整理代码"]);
   (TaskDocs, ["document"; "docs"; "readme"; "docstring"; "changelog"; "文档"; "注释补全"]);
   (TaskFeature, ["add "; "support"; "implement"; "introduce"; "new feature"; "enable"; "allow "; "新增"; "支持"; "实现"; "增加"]);
   (TaskInvestigate, ["why "; "investigate"; "diagnose"; "figure out"; "root cause"; "what happens"; "为什么"; "排查"; "诊断"; "定位原因"])]%string.

Definition asciiTaskWord (c : ascii) : bool := in_range 97 122 (byte_of c) || in_range 48 57 (byte_of c) || (byte_of c =? 95).

Definition first_char (s : string) : option ascii := match s with EmptyString => None | String c _ => Some c end.
Fixpoint last_char (s : string) : option ascii :=
  match s with EmptyString => None | String c t => match last_char t with Some d => Some d | None => Some c end end.

(** Two neighbours that are both word characters do not part. *)
Definition parts (a b : option ascii) : bool :=
  match a, b with Some a, Some b => negb (asciiTaskWord a && asciiTaskWord b) | _, _ => true end.

(** The occurrences of [key] from left to right; [prev] is the byte before. *)
Fixpoint key_from (prev : option ascii) (text key : string) : bool :=
  match after_prefix key text with
  | Some rest => parts prev (first_char key) && parts (last_char key) (first_char rest)
  | None => false
  end || match text with EmptyString => false | String c t => key_from (Some c) t key end.
Definition containsTaskKey (text key : string) : bool := key_from None text key.

Section Classify.
Context `{UnicodeLower}.

Definition ClassifyTask (text : string) : string :=
  let t := to_lower text in
  if (trim_space t =? "")%string then TaskGeneral
  else match list_find (fun rule => existsb (containsTaskKey t) rule.2) taskRules with
       | Some (_, rule) => rule.1
       | None => TaskGeneral
       end.
End Classify.

(** ** Test vectors *)

Example task_policy :
  TaskBody ("<Execution-Policy x>keep <execution-policy>y</execution-policy> out</execution-policy>" +:+ " do it")%string = "do it"%string.
Proof. by vm_compute. Qed.
Example task_issue : TaskBody "x <ISSUE> a b </issue> y" = "a b"%string.
Proof. by vm_compute. Qed.
Example task_runner :
  TaskBody ("You are solving a real GitHub issue in this repository. Go." +:+ runner_issue +:+ "the bug" +:+ runner_requirements +:+ ".") = "the bug"%string.
Proof. by vm_compute. Qed.
Example classify_prefix : @ClassifyTask ascii_lower "Add a prefix" = TaskFeature.
Proof. by vm_compute. Qed.
Example classify_fix : @ClassifyTask ascii_lower "Fix the prefix" = TaskBugfix.
Proof. by vm_compute. Qed.

(** ** Tagged blocks: every round that goes on shortens the text *)

Lemma after_prefix_spec p s r : after_prefix p s = Some r <-> s = p +:+ r.
Proof.
  unfold after_prefix. split.
  - destruct (has_prefix s p) eqn:E; [|done]. intros [= <-]. unfold has_prefix in E. apply prefix_app_inv in E as [u ->].
    by rewrite trim_prefix_app.
  - intros ->. unfold has_prefix. rewrite (proj2 (prefix_app_inv p _)) by eauto. by rewrite trim_prefix_app.
Qed.

Lemma string_take_app a b : string_take (String.length a) (a +:+ b) = a.
Proof.
  induction a as [|c a IH]; [by destruct b|]. rewrite str_cons. unfold string_take in *. cbn [String.length String.substring]. by rewrite IH.
Qed.
Lemma string_drop_app a b : string_drop (String.length a) (a +:+ b) = b.
Proof. induction a as [|c a IH]; [by destruct b|]. rewrite str_cons. exact IH. Qed.
Lemma string_drop_length n s : String.length (string_drop n s) = (String.length s - n)%nat.
Proof. revert s. induction n as [|n IH]; intros [|c s]; try done. cbn [string_drop String.length]. by rewrite IH. Qed.
Lemma string_take_length n s : (String.length (string_take n s) <= n)%nat.
Proof. revert s. induction n as [|n IH]; intros [|c s]; cbn; try lia. specialize (IH s). unfold string_take in IH. lia. Qed.
Lemma string_drop_drop n m s : string_drop n (string_drop m s) = string_drop (m + n) s.
Proof. revert s. induction m as [|m IH]; intros [|c s]; try done. - by destruct n. - apply IH. Qed.

Lemma asciiLower_length s : String.length (asciiLower s) = String.length s.
Proof. induction s as [|c s IH]; [done|]. cbn. by rewrite IH. Qed.
Lemma asciiLower_app s t : asciiLower (s +:+ t) = asciiLower s +:+ asciiLower t.
Proof. induction s as [|c s IH]; [done|]. rewrite str_cons. cbn [asciiLower]. by rewrite IH. Qed.
Lemma asciiLower_drop n s : asciiLower (string_drop n s) = string_drop n (asciiLower s).
Proof. revert s. induction n as [|n IH]; intros [|c s]; try done. apply IH. Qed.

(** A tag that is found is there. *)
Lemma open_at_opens skip tag s n : open_at skip tag s = Some n -> opens tag (string_drop n s) = true.
Proof.
  revert skip n. induction s as [|c s IH]; intros skip n; [done|]. cbn [open_at]. destruct skip as [|k].
  - destruct (has_prefix _ _); [destruct (opens _ _) eqn:E|]; [by intros [= <-]|..]; intros (m & Hm & ->)%fmap_Some; by apply IH in Hm.
  - intros (m & Hm & ->)%fmap_Some. by apply IH in Hm.
Qed.

Lemma close_bound skip depth tag s n : matchTaggedClose skip depth tag s = Some n -> (0 < n <= String.length s)%nat.
Proof.
  revert skip depth n. induction s as [|c s IH]; intros skip depth n; [done|]. cbn [matchTaggedClose String.length].
  assert (Hrec : forall k d m, S <$> matchTaggedClose k d tag s = Some m -> (0 < m <= S (String.length s))%nat).
  { intros k d m (x & Hx & ->)%fmap_Some. apply IH in Hx. lia. }
  destruct skip as [|k]; [|apply Hrec]. destruct (negb _); [apply Hrec|].
  destruct (has_prefix (String c s) (close_tag tag)) eqn:E; [|destruct (opens _ _); apply Hrec].
  unfold has_prefix in E. apply prefix_app_inv in E as [u Hu]. pose proof (string_length_app (close_tag tag) u) as Hl.
  rewrite <- Hu in Hl. cbn [String.length] in Hl. assert (0 < String.length (close_tag tag))%nat by (unfold close_tag; rewrite string_length_app; cbn [String.length]; lia).
  destruct depth as [|[|d]]; [intros Hn; apply (inj Some) in Hn; lia..|apply Hrec].
Qed.

Lemma strip_round_shorter text tag text' : strip_round text tag = (text', true) ->
  (String.length text' < String.length text)%nat.
Proof.
  unfold strip_round. destruct (open_at 0 tag (asciiLower text)) as [start|] eqn:Eo; [|done].
  destruct (cut _ _) as [[name rest]|] eqn:Ec; [|done]. destruct (matchTaggedClose _ _ _ _) as [n|] eqn:Em; [|done].
  intros [= <-]. apply close_bound in Em.
  rewrite !string_length_app, string_drop_length. pose proof (string_take_length start text).
  rewrite string_drop_length, asciiLower_length in Em. cbn [String.length]. lia.
Qed.

Lemma strip_rounds_fuel n m text tag : (String.length text < n)%nat -> (String.length text < m)%nat ->
  strip_rounds n text tag = strip_rounds m text tag.
Proof.
  revert m text. induction n as [|n IH]; intros [|m] text Hn Hm; try lia. cbn [strip_rounds].
  destruct (strip_round text tag) as [t []] eqn:E; [|done]. apply strip_round_shorter in E. apply IH; lia.
Qed.

(** The loop is its own unfolding: the fuel is never spent. *)
Lemma strip_block_eq text tag :
  stripTaggedBlock text tag = let '(t, more) := strip_round text tag in if more then stripTaggedBlock t tag else t.
Proof.
  unfold stripTaggedBlock at 1. cbn [strip_rounds]. destruct (strip_round text tag) as [t []] eqn:E; [|done].
  apply strip_round_shorter in E. unfold stripTaggedBlock. apply strip_rounds_fuel; lia.
Qed.

(** ** A block without tags inside it *)

Lemma lower_lt c : (if ascii_upper c then ascii_of (byte_of c + 32) else c) = lt_sign -> c = lt_sign.
Proof. destruct c as [[] [] [] [] [] [] [] []]; vm_compute; congruence. Qed.

Lemma lower_free s : free_of lt_sign s -> free_of lt_sign (asciiLower s).
Proof.
  induction s as [|c s IH]; [done|]. cbn [asciiLower]. rewrite !free_of_cons. intros [Hc Hs]. split; [|by apply IH].
  intros E. by apply lower_lt in E.
Qed.

Lemma has_prefix_head c p d s : has_prefix (String d s) (String c p) = Ascii.eqb c d && has_prefix s p.
Proof.
  unfold has_prefix. cbn [String.prefix]. destruct (ascii_dec c d) as [->|Hn]; [by rewrite Ascii.eqb_refl|].
  apply Ascii.eqb_neq in Hn. by rewrite Hn.
Qed.

Lemma open_at_skip tag a s : free_of lt_sign a -> open_at 0 tag (a +:+ s) = (fun n => String.length a + n)%nat <$> open_at 0 tag s.
Proof.
  induction a as [|c a IH]; intros Ha; [rewrite str_nil_l; cbn; by destruct (open_at 0 tag s)|].
  apply free_of_cons in Ha as [Hc Ha]. rewrite str_cons. cbn [open_at]. rewrite has_prefix_head.
  destruct (Ascii.eqb_spec lt_sign c) as [E|_]; [by subst|]. cbn [andb]. rewrite IH by done.
  destruct (open_at 0 tag s); [|done]. cbn. done.
Qed.

Lemma close_skip tag p s : free_of lt_sign p ->
  matchTaggedClose 0 1 tag (p +:+ close_tag tag +:+ s) = Some (String.length p + String.length (close_tag tag))%nat.
Proof.
  induction p as [|c p IH]; intros Hp.
  - rewrite str_nil_l. cbn [String.length Nat.add]. assert (Hx : has_prefix (close_tag tag +:+ s) (close_tag tag) = true)
      by (unfold has_prefix; apply prefix_app_inv; by exists s).
    destruct (close_tag tag +:+ s) as [|c r] eqn:E; [done|]. assert (c = lt_sign) as -> by (unfold close_tag in E; by injection E as <- _).
    cbn [matchTaggedClose]. rewrite Ascii.eqb_refl. cbn [negb]. by rewrite Hx.
  - apply free_of_cons in Hp as [Hc Hp]. rewrite str_cons. cbn [matchTaggedClose]. apply Ascii.eqb_neq in Hc. rewrite Hc. cbn [negb].
    rewrite IH by done. done.
Qed.

(** A block without tags inside it, after a text without any, gives a space. *)
Lemma strip_one tag a p b : free_of lt_sign a -> free_of lt_sign p -> free_of gt_sign tag -> asciiLower tag = tag ->
  stripTaggedBlock (a +:+ ("<" +:+ tag +:+ ">") +:+ p +:+ close_tag tag +:+ b) tag = stripTaggedBlock (a +:+ " " +:+ b) tag.
Proof.
  intros Ha Hp Hg Hl. set (o := ("<" +:+ tag +:+ ">")%string). rewrite strip_block_eq. unfold strip_round.
  assert (Hlow : asciiLower (a +:+ o +:+ p +:+ close_tag tag +:+ b) = asciiLower a +:+ o +:+ asciiLower p +:+ close_tag tag +:+ asciiLower b).
  { unfold o, close_tag. by rewrite !asciiLower_app, Hl. }
  rewrite Hlow. clear Hlow. rewrite open_at_skip by by apply lower_free.
  assert (Ho : open_at 0 tag (o +:+ asciiLower p +:+ close_tag tag +:+ asciiLower b) = Some O).
  { assert (E : exists r, (o +:+ asciiLower p +:+ close_tag tag +:+ asciiLower b) = String lt_sign tag +:+ String gt_sign r).
    { eexists. unfold o. rewrite !string_app_assoc, !str_cons, !str_nil_l. done. }
    destruct E as [r ->]. rewrite str_cons. cbn [open_at]. rewrite <- str_cons.
    unfold opens. rewrite (proj2 (after_prefix_spec _ _ (String gt_sign r)) eq_refl). cbn [tag_end].
    unfold has_prefix. by rewrite (proj2 (prefix_app_inv (String lt_sign tag) _)) by eauto. }
  rewrite Ho. cbn [fmap option_fmap option_map]. rewrite Nat.add_0_r, asciiLower_length.
  rewrite <- (asciiLower_length a) at 1. rewrite string_drop_app.
  assert (Hc : cut (String gt_sign "") (o +:+ asciiLower p +:+ close_tag tag +:+ asciiLower b)
    = Some (String lt_sign tag, asciiLower p +:+ close_tag tag +:+ asciiLower b)).
  { assert (E : (o +:+ asciiLower p +:+ close_tag tag +:+ asciiLower b)
      = String lt_sign tag +:+ String gt_sign (asciiLower p +:+ close_tag tag +:+ asciiLower b)).
    { unfold o. by rewrite !string_app_assoc, !str_cons, !str_nil_l. }
    rewrite E. apply cut_free, free_of_cons. by split. }
  rewrite Hc. cbn [String.length].
  assert (Hd : forall u v w, string_drop (String.length u + String.length v) (u +:+ v +:+ w) = w).
  { intros u v w. rewrite <- string_length_app, <- string_app_assoc. apply string_drop_app. }
  assert (Hlo : String.length o = S (S (String.length tag))) by (unfold o; rewrite !string_length_app; cbn [String.length]; lia).
  replace (String.length a + S (String.length tag) + 1)%nat with (String.length a + String.length o)%nat by lia.
  rewrite <- (asciiLower_length a) at 1. rewrite Hd, close_skip by by apply lower_free.
  rewrite string_take_app, <- string_drop_drop, Hd, asciiLower_length, Hd. done.
Qed.

Lemma replace_all_free c p new s : free_of c s -> replace_all s (String c p) new = s.
Proof.
  unfold replace_all. induction s as [|d s IH]; intros Hs; [done|]. apply free_of_cons in Hs as [Hd Hs]. cbn [replace_from].
  rewrite has_prefix_head. destruct (Ascii.eqb_spec c d) as [->|_]; [done|]. cbn [andb]. by rewrite IH.
Qed.

(** ** Keywords *)

Lemma last_char_app a c t : last_char (a +:+ String c t) = last_char (String c t).
Proof.
  induction a as [|d a IH]; [done|]. rewrite str_cons. cbn [last_char] in *. rewrite IH. by destruct (last_char t).
Qed.

(** An occurrence that word characters do not continue on either side. *)
Definition occurs (prev : option ascii) (text key : string) : Prop :=
  exists a b, text = a +:+ key +:+ b
    /\ parts (match last_char a with Some c => Some c | None => prev end) (first_char key) = true
    /\ parts (last_char key) (first_char b) = true.

Lemma key_from_spec prev text key : key_from prev text key = true <-> occurs prev text key.
Proof.
  revert prev. induction text as [|c t IH]; intros prev; unfold occurs; cbn [key_from].
  - rewrite orb_false_r. split.
    + destruct (after_prefix key "") as [r|] eqn:E; [|done]. apply after_prefix_spec in E. intros [H1 H2]%andb_true_iff.
      exists ""%string, r. by rewrite str_nil_l.
    + intros (a & b & E & H1 & H2). destruct a; [|done]. rewrite str_nil_l in E.
      rewrite (proj2 (after_prefix_spec _ _ b) E). cbn in H1. by rewrite H1, H2.
  - rewrite orb_true_iff, IH. unfold occurs. split.
    + intros [H|(a & b & -> & H1 & H2)].
      * destruct (after_prefix key _) as [r|] eqn:E; [|done]. apply after_prefix_spec in E. apply andb_true_iff in H as [H1 H2].
        exists ""%string, r. by rewrite str_nil_l.
      * exists (String c a), b. rewrite str_cons. split; [done|]. split; [|done]. cbn [last_char]. by destruct (last_char a).
    + intros ([|d a] & b & E & H1 & H2).
      * left. rewrite str_nil_l in E. rewrite (proj2 (after_prefix_spec _ _ b) E). cbn in H1. by rewrite H1, H2.
      * right. rewrite str_cons in E. injection E as <- E. exists a, b. split; [done|]. split; [|done]. cbn [last_char] in H1.
        by destruct (last_char a).
Qed.

(** The reference: [key] stands in [text] as a word, as far as its own first and last
    characters are word characters. *)
Definition keyword (text key : string) : Prop :=
  exists a b, text = a +:+ key +:+ b /\ parts (last_char a) (first_char key) = true /\ parts (last_char key) (first_char b) = true.

Lemma containsTaskKey_spec text key : containsTaskKey text key = true <-> keyword text key.
Proof.
  unfold containsTaskKey. rewrite key_from_spec. unfold occurs, keyword.
  split; intros (a & b & ? & H & ?); exists a, b; (split; [done|]; split; [|done]); by destruct (last_char a).
Qed.

(** ** Properties *)

Section Witnesses.
Context `{UnicodeLower}.

(** The host's execution policy never reaches the task: a text in which the policy
    block (with a body that holds no tag) stands after a text without tags has the
    task of the text with a space in its place, whatever the policy says. *)
Theorem TaskBody_policy_erased a p b :
  free_of lt_sign a -> free_of lt_sign p -> free_of (ascii_of 13) (a +:+ p +:+ b) ->
  TaskBody (a +:+ "<execution-policy>" +:+ p +:+ "</execution-policy>" +:+ b) = TaskBody (a +:+ " " +:+ b).
Proof.
  intros Ha Hp Hr. rewrite !free_of_app in Hr. destruct Hr as (Ra & Rp & Rb). unfold TaskBody.
  rewrite !replace_all_free by (rewrite !free_of_app; repeat split; done).
  assert (E : stripTaggedBlock (a +:+ "<execution-policy>" +:+ p +:+ "</execution-policy>" +:+ b) "execution-policy"
    = stripTaggedBlock (a +:+ " " +:+ b) "execution-policy") by exact (strip_one "execution-policy" a p b Ha Hp eq_refl eq_refl).
  by rewrite E.
Qed.

(** A task is classified by the first rule that has a keyword of the text, as a
    word, and is general when none has, so the type is always one of the closed set. *)
Theorem ClassifyTask_first text :
  let t := to_lower text in
  (ClassifyTask text = TaskGeneral /\ (trim_space t = ""%string \/ forall rule key, rule ∈ taskRules -> key ∈ rule.2 -> ~ keyword t key))
  \/ exists before rule after, taskRules = before ++ rule :: after /\ ClassifyTask text = rule.1
     /\ (exists key, key ∈ rule.2 /\ keyword t key)
     /\ forall r key, r ∈ before -> key ∈ r.2 -> ~ keyword t key.
Proof.
  cbv zeta. unfold ClassifyTask. set (t := to_lower text). clearbody t.
  assert (Hno : forall r : string * list string, ~ existsb (containsTaskKey t) r.2 = true -> forall key, key ∈ r.2 -> ~ keyword t key).
  { intros r Hr key Hk Hw. apply Hr, existsb_exists. exists key. split; [by apply list_elem_of_In|by apply containsTaskKey_spec]. }
  destruct (trim_space t =? "")%string eqn:Eb; [left; split; [done|]; left; by apply String.eqb_eq|].
  destruct (list_find _ taskRules) as [[i rule]|] eqn:E.
  - apply list_find_Some in E as (Hi & Hk & Hb). right. exists (take i taskRules), rule, (drop (S i) taskRules).
    split; [symmetry; by apply take_drop_middle|]. split; [done|]. split.
    + apply Is_true_true, existsb_exists in Hk as (key & Hin%list_elem_of_In & Hw%containsTaskKey_spec). by exists key.
    + intros r key (j & Hj)%list_elem_of_lookup Hin. apply lookup_take_Some in Hj as [Hj Hlt]. apply (Hno r); [|done].
      intros Hx. by apply (Hb j r Hj Hlt), Is_true_true.
  - apply list_find_None in E. rewrite Forall_forall in E. left. split; [done|]. right. intros rule key Hr Hin. apply (Hno rule); [|done].
    intros Hx. by apply (E rule Hr), Is_true_true.
Qed.

Lemma TaskBody_policy_erased_witness :
  TaskBody ("Fix it." +:+ "<execution-policy>" +:+ "Never use git." +:+ "</execution-policy>" +:+ " Soon.") = TaskBody ("Fix it." +:+ " " +:+ " Soon.")
  /\ TaskBody ("Fix it." +:+ " " +:+ " Soon.") = "Fix it.  Soon."%string.
Proof. split; [apply (TaskBody_policy_erased "Fix it." "Never use git." " Soon."); by vm_compute|by vm_compute]. Defined.

End Witnesses.
