(* ===== verification/Regexp.v ===== *)
(** The part of Go's [regexp] the redaction patterns use.

    A text is a list of tokens, a rune with its bytes (an ill-formed byte is the
    error rune).  Matching is leftmost-first, as in Perl and in Go: alternatives
    in order, repetitions of a class as long as possible. *)

From Stdlib Require Import ZArith Lia Bool Ascii String.
From stdpp Require Import tactics base option list strings.
From S2P Require Import Prelude GoStrings Utf8.

#[global] Open Scope Z_scope.

Abbreviation token := (Z * list Z)%type.

Fixpoint tokens_fuel (n : nat) (l : list Z) : list token :=
  match n with
  | O => []
  | S n => match decode_rune l with
           | None => []
           | Some (r, t) => (r, take (length l - length t) l) :: tokens_fuel n t
           end
  end.
Definition tokens (l : list Z) : list token := tokens_fuel (length l) l.
Definition untokens (ts : list token) : list Z := concat ts.*2.

Inductive regexp :=
| RClass (f : Z -> bool)
| RSeq (a b : regexp)
| RAlt (a b : regexp)
| RRepeat (f : Z -> bool) (min : nat) (max : option nat)    (* a class, greedy *)
| RWordB.                                                   (* \b *)

(** [\b] knows ASCII words only. *)
Definition is_word (r : option Z) : bool :=
  match r with None => false | Some r => in_range 48 57 r || in_range 65 90 r || in_range 97 122 r || (r =? 95) end.

Definition under (n : nat) (max : option nat) : bool := match max with None => true | Some m => (n <? m)%nat end.

(** A repetition that has matched [n] tokens. *)
Fixpoint repeat_match (f : Z -> bool) (min : nat) (max : option nat) (n : nat) (prev : option Z) (l : list token)
    (k : option Z -> list token -> option (list token)) : option (list token) :=
  let stop := if (min <=? n)%nat then k prev l else None in
  match l with
  | t :: l' =>
      if under n max && f t.1 then
        match repeat_match f min max (S n) (Some t.1) l' k with Some x => Some x | None => stop end
      else stop
  | [] => stop
  end.

Fixpoint match_re (r : regexp) (prev : option Z) (l : list token) (k : option Z -> list token -> option (list token)) :
    option (list token) :=
  match r with
  | RClass f => match l with t :: l' => if f t.1 then k (Some t.1) l' else None | [] => None end
  | RSeq a b => match_re a prev l (fun prev l => match_re b prev l k)
  | RAlt a b => match match_re a prev l k with Some x => Some x | None => match_re b prev l k end
  | RRepeat f min max => repeat_match f min max 0 prev l k
  | RWordB => if xorb (is_word prev) (is_word (fst <$> head l)) then k prev l else None
  end.

(** What is left after the match that starts here. *)
Definition match_here (r : regexp) (prev : option Z) (l : list token) : option (list token) :=
  match_re r prev l (fun _ l => Some l).

(** [re.ReplaceAllString], for a pattern that matches no empty text and a
    replacement without [$]. *)
Fixpoint replace_fuel (r : regexp) (repl : list Z) (n : nat) (prev : option Z) (l : list token) : list Z :=
  match n, l with
  | S n, t :: l' =>
      match match_here r prev l with
      | Some rest => repl ++ replace_fuel r repl n (fst <$> last (take (length l - length rest) l)) rest
      | None => t.2 ++ replace_fuel r repl n (Some t.1) l'
      end
  | _, _ => []
  end.
Definition replace_all (r : regexp) (repl : list Z) (l : list token) : list Z := replace_fuel r repl (length l) None l.

(** ** Notation for patterns *)

Definition lit (s : string) : regexp :=
  match runes s with
  | [] => RRepeat (fun _ => false) 0 None
  | r :: rs => foldl (fun acc r => RSeq acc (RClass (fun x => x =? r))) (RClass (fun x => x =? r)) rs
  end.

(** Under [(?i)] an ASCII letter also matches its other case and, for [k] and
    [s], the Kelvin sign and the long s. *)
Definition fold_letter (f : Z -> bool) (x : Z) : bool :=
  f x || (if in_range 65 90 x then f (x + 32) else if in_range 97 122 x then f (x - 32)
          else if x =? 8490 then f 75 || f 107 else if x =? 383 then f 83 || f 115 else false).

Fixpoint seq (rs : list regexp) : regexp :=
  match rs with [] => RRepeat (fun _ => false) 0 None | [r] => r | r :: rs => RSeq r (seq rs) end.
Definition lit_fold (s : string) : regexp := seq (map (fun c => RClass (fold_letter (fun x => x =? c))) (runes s)).

Definition upper (x : Z) : bool := in_range 65 90 x.
Definition alnum (x : Z) : bool := in_range 65 90 x || in_range 97 122 x || in_range 48 57 x.
Definition one_of (s : string) (x : Z) : bool := existsb (Z.eqb x) (runes s).

(** ** Matching only takes a prefix *)

Lemma tokens_concat l : untokens (tokens l) = l.
Proof.
  unfold tokens, untokens. assert (H : forall n l, (length l <= n)%nat -> concat (tokens_fuel n l).*2 = l); [|by apply H].
  clear l. induction n as [|n IH]; intros l Hl; [destruct l; [done|simpl in Hl; lia]|]. cbn [tokens_fuel].
  destruct (decode_rune l) as [[r t]|] eqn:E.
  - cbn [fmap list_fmap concat snd]. pose proof (decode_rune_shorter _ _ _ E). rewrite IH by lia.
    destruct (decode_rune_suffix _ _ _ E) as (p & -> & _). rewrite length_app, Nat.add_sub, take_app_length. done.
  - destruct l as [|b l]; [done|]. destruct (decode_rune_cons b l) as [x Hx]. congruence.
Qed.

(** The least number of tokens a pattern takes. *)
Fixpoint min_len (r : regexp) : nat :=
  match r with
  | RClass _ => 1
  | RSeq a b => min_len a + min_len b
  | RAlt a b => Nat.min (min_len a) (min_len b)
  | RRepeat _ min _ => min
  | RWordB => 0
  end.

Lemma repeat_match_takes f min max n prev l k x :
  repeat_match f min max n prev l k = Some x ->
  exists prev' taken l', l = taken ++ l' /\ (min <= n + length taken)%nat /\ k prev' l' = Some x.
Proof.
  revert n prev. induction l as [|t l IH]; intros n prev; cbn [repeat_match].
  - destruct (Nat.leb_spec min n); [|done]. intros E. exists prev, [], []. split; [done|]. split; [simpl; lia|done].
  - assert (Hstop : (if (min <=? n)%nat then k prev (t :: l) else None) = Some x ->
      exists prev' taken l', t :: l = taken ++ l' /\ (min <= n + length taken)%nat /\ k prev' l' = Some x).
    { destruct (Nat.leb_spec min n); [|done]. intros E. exists prev, [], (t :: l). split; [done|]. split; [simpl; lia|done]. }
    destruct (under n max && f t.1); [|exact Hstop].
    destruct (repeat_match f min max (S n) (Some t.1) l k) as [y|] eqn:E; [|exact Hstop].
    intros [= <-]. apply IH in E as (p & taken & l' & -> & Hn & Hk). exists p, (t :: taken), l'.
    split; [done|]. split; [simpl; lia|done].
Qed.

Lemma match_re_takes r prev l k x :
  match_re r prev l k = Some x ->
  exists prev' taken l', l = taken ++ l' /\ (min_len r <= length taken)%nat /\ k prev' l' = Some x.
Proof.
  revert prev l k. induction r as [f|a IHa b IHb|a IHa b IHb|f min max|]; intros prev l k; cbn [match_re min_len].
  - destruct l as [|t l]; [done|]. destruct (f t.1); [|done]. intros E. by exists (Some t.1), [t], l.
  - intros (p1 & t1 & l1 & -> & H1 & (p2 & t2 & l2 & -> & H2 & Hk)%IHb)%IHa.
    exists p2, (t1 ++ t2), l2. rewrite app_assoc, length_app. split; [done|]. split; [lia|done].
  - destruct (match_re a prev l k) as [y|] eqn:E.
    + intros [= <-]. apply IHa in E as (p & t & l' & -> & Hl & Hk). exists p, t, l'. split; [done|]. split; [lia|done].
    + intros (p & t & l' & -> & Hl & Hk)%IHb. exists p, t, l'. split; [done|]. split; [lia|done].
  - intros (p & t & l' & -> & Hl & Hk)%repeat_match_takes. exists p, t, l'. split; [done|]. split; [simpl in Hl; lia|done].
  - destruct (xorb _ _); [|done]. intros E. exists prev, [], l. split; [done|]. split; [simpl; lia|done].
Qed.

Lemma match_here_takes r prev l rest : match_here r prev l = Some rest ->
  exists taken, l = taken ++ rest /\ (min_len r <= length taken)%nat.
Proof. intros (p & t & l' & -> & Hl & [= <-])%match_re_takes. by exists t. Qed.

(** The scan reaches the end of the text. *)
Lemma replace_fuel_enough r repl n m prev l :
  (0 < min_len r)%nat -> (length l <= n)%nat -> (n <= m)%nat -> replace_fuel r repl m prev l = replace_fuel r repl n prev l.
Proof.
  intros Hr. revert m prev l. induction n as [|n IH]; intros [|m] prev [|t l] Hl Hm; simpl in Hl; try lia; try done.
  cbn [replace_fuel]. destruct (match_here r prev (t :: l)) as [rest|] eqn:E.
  - apply match_here_takes in E as (taken & E & Ht). apply (f_equal length) in E. rewrite length_app in E. simpl in E. f_equal. apply IH; lia.
  - f_equal. apply IH; lia.
Qed.

Lemma replace_all_eq r repl prev l : (0 < min_len r)%nat ->
  replace_fuel r repl (length l) prev l =
  match l with
  | [] => []
  | t :: l' => match match_here r prev l with
               | Some rest => repl ++ replace_fuel r repl (length rest) (fst <$> last (take (length l - length rest) l)) rest
               | None => t.2 ++ replace_fuel r repl (length l') (Some t.1) l'
               end
  end.
Proof.
  intros Hr. destruct l as [|t l']; [done|]. cbn [length replace_fuel]. destruct (match_here r prev (t :: l')) as [rest|] eqn:E; [|done].
  apply match_here_takes in E as (taken & E & Ht). apply (f_equal length) in E. rewrite length_app in E. simpl in E.
  f_equal. apply replace_fuel_enough; [done|lia|lia].
Qed.

Lemma tokens_runes l : (tokens l).*1 = decode_runes l.
Proof.
  unfold tokens, decode_runes. generalize (length l) as n. intros n. revert l. induction n as [|n IH]; intros l; [done|].
  cbn [tokens_fuel decode_fuel]. destruct (decode_rune l) as [[r t]|]; [|done]. cbn [fmap list_fmap fst]. by rewrite IH.
Qed.
