(* ===== verification/GoFmt.v ===== *)
(** The parts of Go's [fmt] and [strconv] that render a reuse block: [%q],
    [%.4f] and [%d].

    [unicode.IsPrint] beyond ASCII is data of the Go distribution, a class. *)

From Stdlib Require Import ZArith Lia Bool Ascii String Floats.SpecFloat.
From stdpp Require Import tactics base option list strings pretty.
From S2P Require Import Prelude Float64 Rounding GoStrings Utf8 Regexp.

#[global] Open Scope Z_scope.

Class UnicodePrint := print_ext : Z -> bool.

(** [n] lower-case hexadecimal digits. *)
Definition hex_digit (d : Z) : Z := if d <? 10 then 48 + d else 87 + d.
Fixpoint hex (n : nat) (x : Z) : list Z := match n with O => [] | S n => hex n (x / 16) ++ [hex_digit (x mod 16)] end.

Section Quote.
Context `{UnicodePrint}.

(** One rune of [strconv.Quote]; an ill-formed byte is a token of one byte. *)
Definition quote_token (t : token) : list Z :=
  let r := t.1 in
  if (r =? rune_error) && (length t.2 =? 1)%nat then [92; 120] ++ hex 2 (hd 0 t.2)
  else if (r =? 34) || (r =? 92) then [92; r]
  else if if r <? 128 then in_range 32 126 r else print_ext r then encode_rune r
  else if r =? 7 then [92; 97] else if r =? 8 then [92; 98] else if r =? 12 then [92; 102]
  else if r =? 10 then [92; 110] else if r =? 13 then [92; 114] else if r =? 9 then [92; 116] else if r =? 11 then [92; 118]
  else if (r <? 32) || (r =? 127) then [92; 120] ++ hex 2 r
  else if r <? 65536 then [92; 117] ++ hex 4 r
  else [92; 85] ++ hex 8 r.

(** [%q]. *)
Definition quote (s : string) : string :=
  bytes_string ([34] ++ flat_map quote_token (tokens (string_bytes s)) ++ [34]).
End Quote.

(** [%.4f]: the exact value times [10^4], rounded to nearest, ties to even. *)
Definition ten_thousandths (m e : Z) : Z :=
  if 0 <=? e then m * 10000 * 2 ^ e else nearest (m * 10000) (2 ^ (- e)).

Definition pad4 (n : Z) : string :=
  (if (n <? 1000)%Z then "0" else "")%string +:+ (if (n <? 100)%Z then "0" else "")%string +:+ (if (n <? 10)%Z then "0" else "")%string +:+ itoa n.

Definition fixed4 (x : f64) : string :=
  match x with
  | S754_nan => "NaN"%string
  | S754_infinity s => (if s then "-Inf" else "+Inf")%string
  | S754_zero s => (if s then "-0.0000" else "0.0000")%string
  | S754_finite s m e =>
      let n := ten_thousandths (Z.pos m) e in
      (if s then "-" else "")%string +:+ itoa (n / 10000)%Z +:+ "." +:+ pad4 (n mod 10000)%Z
  end.

Module GoFmtSample.
#[local] Instance print : UnicodePrint := fun _ => true.

Example quoted_text : string_bytes (quote (bytes_string [97; 10; 34; 255; 27; 230; 151; 165])) =
  [34; 97; 92; 110; 92; 34; 92; 120; 102; 102; 92; 120; 49; 98; 230; 151; 165; 34].
Proof. vm_compute. done. Qed.

Example two_thirds : fixed4 (f_of_ratio 2 3) = "0.6667"%string.
Proof. vm_compute. done. Qed.
Example tie_to_even : fixed4 (f_of_ratio 1 32) = "0.0312"%string.
Proof. vm_compute. done. Qed.
Example large : fixed4 (f_of_ratio 123456789 1000) = "123456.7890"%string.
Proof. vm_compute. done. Qed.
End GoFmtSample.

(** ** Characters of a rendering *)

(** Whether a byte occurs in a text. *)
Definition has_byte (c : Z) (s : string) : bool := existsb (Z.eqb c) (string_bytes s).

Lemma has_byte_app c s t : has_byte c (s +:+ t) = has_byte c s || has_byte c t.
Proof. unfold has_byte. by rewrite string_bytes_app, existsb_app. Qed.

Lemma pretty_char_digit n : (n < 10)%N -> 48 <= byte_of (pretty_N_char n) <= 57.
Proof.
  intros Hn. destruct n as [|p]; [vm_compute; split; discriminate|].
  repeat (destruct p as [p|p|]; try lia; try (vm_compute; split; discriminate)).
Qed.

Lemma pretty_N_bytes c n s : ~ 48 <= c <= 57 -> has_byte c (pretty_N_go n s) = has_byte c s.
Proof.
  intros Hc. revert s. induction (N.lt_wf_0 n) as [n _ IH]. intros s.
  destruct (decide (0 < n)%N) as [Hn|Hn]; [|replace n with 0%N by lia; by rewrite pretty_N_go_0].
  rewrite pretty_N_go_step by done. rewrite IH by (apply N.div_lt; lia).
  unfold has_byte. cbn [string_bytes list_ascii_of_string map existsb].
  pose proof (pretty_char_digit (n `mod` 10)%N ltac:(apply N.mod_lt; lia)). unfold string_bytes. cbn [list_ascii_of_string map existsb].
  destruct (Z.eqb_spec c (byte_of (pretty_N_char (n `mod` 10)%N))); [lia|done].
Qed.

Lemma itoa_bytes c z : ~ 48 <= c <= 57 -> c <> 45 -> has_byte c (itoa z) = false.
Proof.
  intros Hc Hm. assert (HN : forall n : N, has_byte c (pretty n) = false).
  { intros n. unfold pretty, pretty_N. destruct (decide (n = 0)%N).
    - change (has_byte c "0") with ((c =? 48) || false). destruct (Z.eqb_spec c 48); [lia|done].
    - rewrite pretty_N_bytes by exact Hc. reflexivity. }
  unfold itoa, pretty, pretty_Z. destruct z as [|p|p].
  - change (has_byte c "0") with ((c =? 48) || false). destruct (Z.eqb_spec c 48); [lia|done].
  - apply (HN (N.pos p)).
  - rewrite has_byte_app. apply orb_false_iff. split; [|apply (HN (N.pos p))].
    change (has_byte c "-") with ((c =? 45) || false). destruct (Z.eqb_spec c 45); [lia|done].
Qed.

Lemma has_byte_spec c s : has_byte c s = false <-> c ∉ string_bytes s.
Proof.
  unfold has_byte. rewrite <- not_true_iff_false, existsb_exists. split.
  - intros Hn Hin. apply Hn. exists c. rewrite <- list_elem_of_In. split; [done|apply Z.eqb_refl].
  - intros Hn (x & Hx & ->%Z.eqb_eq). apply Hn. by apply list_elem_of_In.
Qed.

(** [c] is a byte no rendering introduces. *)
Definition foreign (c : Z) : Prop := 0 <= c < 128 /\ ~ 48 <= c <= 57 /\ ~ 97 <= c <= 122 /\ c <> 34 /\ c <> 92 /\ c <> 85 /\ c <> 45 /\ c <> 46.

Lemma hex_bytes n x : Forall (fun b => 0 <= b < 256 /\ (48 <= b <= 57 \/ 97 <= b <= 102)) (hex n x).
Proof.
  revert x. induction n as [|n IH]; intros x; [constructor|]. cbn [hex]. apply Forall_app. split; [apply IH|].
  constructor; [|constructor]. unfold hex_digit. pose proof (Z.mod_pos_bound x 16 ltac:(lia)). destruct (Z.ltb_spec (x mod 16) 10); lia.
Qed.

Lemma encode_rune_foreign c r : 0 <= c < 128 -> c ∈ encode_rune r -> norm_rune r = c.
Proof.
  intros Hc Hin. pose proof (decode_encode_runes [r]) as E. unfold encode_runes in E. cbn [flat_map map] in E. rewrite app_nil_r in E.
  apply (ascii_rune_byte c _ Hc) in Hin. rewrite E in Hin. by apply list_elem_of_singleton in Hin.
Qed.

Lemma quote_bytes `{UnicodePrint} c s : foreign c -> has_byte c s = false -> has_byte c (quote s) = false.
Proof.
  intros Hc Hs. apply has_byte_spec. apply has_byte_spec in Hs. unfold quote.
  assert (Hf : Forall (fun b => 0 <= b < 256 /\ b <> c) (flat_map quote_token (tokens (string_bytes s)))).
  { assert (Ht : Forall (fun t : token => t.1 <> c) (tokens (string_bytes s))).
    { apply Forall_forall. intros t Ht E. apply Hs, (ascii_rune_byte c); [apply Hc|]. rewrite <- tokens_runes, <- E. by apply list_elem_of_fmap_2. }
    assert (Hhex : forall n x, Forall (fun b => 0 <= b < 256 /\ b <> c) (hex n x)).
    { intros n x. eapply Forall_impl; [apply hex_bytes|]. cbn. unfold foreign in Hc. lia. }
    induction Ht as [|[r p] ts Hr _ IH]; [constructor|]. cbn [flat_map]. apply Forall_app. split; [|done]. cbn [fst] in Hr.
    assert (Hcons : forall x l, 0 <= x < 256 -> x <> c -> Forall (fun b => 0 <= b < 256 /\ b <> c) l -> Forall (fun b => 0 <= b < 256 /\ b <> c) (x :: l))
      by (intros x l Hx1 Hx2 Hl; by constructor).
    assert (Hnil : Forall (fun b => 0 <= b < 256 /\ b <> c) []) by constructor.
    unfold foreign in Hc. unfold quote_token. cbn [fst snd].
    destruct (_ && _); [apply Hcons; [lia..|]; apply Hcons; [lia..|]; apply Hhex|].
    destruct (Z.eqb_spec r 34) as [->|]; [apply Hcons; [lia..|]; apply Hcons; [lia..|]; exact Hnil|].
    destruct (Z.eqb_spec r 92) as [->|]; [apply Hcons; [lia..|]; apply Hcons; [lia..|]; exact Hnil|]. cbn [orb].
    destruct (if r <? 128 then in_range 32 126 r else print_ext r).
    { apply Forall_forall. intros b Hb. pose proof (encode_rune_range r) as Hrg. rewrite Forall_forall in Hrg. split; [by apply Hrg|]. intros ->.
      apply encode_rune_foreign in Hb; [|lia]. unfold norm_rune in Hb. destruct (valid_rune r); [done|]. unfold rune_error in Hb. lia. }
    repeat match goal with |- Forall _ (if ?b then _ else _) => destruct b end;
      (apply Hcons; [lia..|]; apply Hcons; [lia..|]; first [exact Hnil|apply Hhex]). }
  rewrite bytes_string_inv.
  - rewrite !not_elem_of_app. unfold foreign in Hc. split; [by intros ?%list_elem_of_singleton; lia|]. split; [|by intros ?%list_elem_of_singleton; lia].
    intros Hin. rewrite Forall_forall in Hf. by apply (Hf c Hin).
  - apply Forall_app. split; [repeat constructor; lia|]. apply Forall_app. split; [|repeat constructor; lia].
    eapply Forall_impl; [exact Hf|]. by intros b [? _].
Qed.

Lemma fixed4_bytes c x : foreign c -> c <> 43 -> ~ 65 <= c <= 90 -> has_byte c (fixed4 x) = false.
Proof.
  intros Hc Hp Hu. unfold foreign in Hc.
  assert (Hconst : forall l, forallb (fun b => negb (c =? b)) (string_bytes l) = true -> has_byte c l = false).
  { intros l Hl. apply has_byte_spec. intros Hin%list_elem_of_In. rewrite forallb_forall in Hl. specialize (Hl _ Hin). by rewrite Z.eqb_refl in Hl. }
  assert (Hz : has_byte c "0" = false) by (apply Hconst; cbn; apply andb_true_iff; split; [apply negb_true_iff, Z.eqb_neq; change (byte_of "0") with 48; lia|done]).
  assert (He : has_byte c "" = false) by done.
  destruct x as [s|s| |s m e]; cbn [fixed4].
  - destruct s; apply Hconst; cbn; repeat (apply andb_true_iff; split); try done; apply negb_true_iff, Z.eqb_neq; vm_compute byte_of; lia.
  - destruct s; apply Hconst; cbn; repeat (apply andb_true_iff; split); try done; apply negb_true_iff, Z.eqb_neq; vm_compute byte_of; lia.
  - apply Hconst; cbn; repeat (apply andb_true_iff; split); try done; apply negb_true_iff, Z.eqb_neq; vm_compute byte_of; lia.
  - unfold pad4. rewrite !has_byte_app, !itoa_bytes by lia. rewrite !orb_false_r.
    assert (Hd : has_byte c "." = false) by (apply Hconst; cbn; apply andb_true_iff; split; [apply negb_true_iff, Z.eqb_neq; change (byte_of ".") with 46; lia|done]).
    assert (Hm : has_byte c "-" = false) by (apply Hconst; cbn; apply andb_true_iff; split; [apply negb_true_iff, Z.eqb_neq; change (byte_of "-") with 45; lia|done]).
    rewrite Hd. repeat match goal with |- context [if ?b then _ else _] => destruct b end; rewrite ?Hz, ?He, ?Hm; done.
Qed.
