(* ===== verification/Slice.v ===== *)
(** kernel/slice: the slice value, its provenance, statistics, admission
    matrix and value function (slice.go, admission.go, score.go). *)

From Stdlib Require Import ZArith Lia Bool Ascii String Floats.SpecFloat.
From stdpp Require Import tactics base option list gmap strings.
From S2P Require Import Prelude Float64 GoStrings.

#[global] Open Scope Z_scope.

(** ** Types and scopes *)

Inductive SliceType : Type :=
| Prompt
| Context
| ToolPattern
| Result
| Memory
| UnknownType (n : Z).   (* any other value of the Go int *)

#[export] Instance SliceType_eq_dec : EqDecision SliceType.
Proof. solve_decision. Defined.

Inductive Scope : Type :=
| Session
| Project
| User
| UnknownScope (n : Z).

#[export] Instance Scope_eq_dec : EqDecision Scope.
Proof. solve_decision. Defined.

Definition type_string (t : SliceType) : string :=
  match t with
  | Prompt => "prompt"
  | Context => "context"
  | ToolPattern => "tool_pattern"
  | Result => "result"
  | Memory => "memory"
  | UnknownType _ => "unknown"
  end.

Definition TypeFromString (s : string) : option SliceType :=
  if decide (s = "prompt"%string) then Some Prompt
  else if decide (s = "context"%string) then Some Context
  else if decide (s = "tool_pattern"%string) then Some ToolPattern
  else if decide (s = "result"%string) then Some Result
  else if decide (s = "memory"%string) then Some Memory
  else None.

Definition EvictPriorityOf (t : SliceType) : Z :=
  match t with
  | Result => 0
  | ToolPattern => 1
  | Memory => 2
  | Prompt => 3
  | Context => 4
  | UnknownType _ => 5
  end.

Definition scope_string (s : Scope) : string :=
  match s with
  | Session => "session"
  | Project => "project"
  | User => "user"
  | UnknownScope _ => "unknown"
  end.

(** ** Origins *)

Abbreviation Origin := string.

Definition OriginSessionAuto : Origin := "session-auto".
Definition OriginPrefetch : Origin := "prefetch".
Definition OriginImport : Origin := "import".
Definition OriginUserCurated : Origin := "user-curated".

Definition Level (o : Origin) : Z :=
  if decide (o = OriginUserCurated) then 3
  else if decide (o = OriginSessionAuto) then 2
  else if decide (o = OriginPrefetch) then 2
  else 1.

Definition Valid (o : Origin) : bool :=
  bool_decide (o = OriginSessionAuto) || bool_decide (o = OriginPrefetch)
  || bool_decide (o = OriginImport) || bool_decide (o = OriginUserCurated).

(** ** Statistics *)

Record SliceStats := mkStats {
  Hits : Z;                (* uint64 counters *)
  Misses : Z;
  Injected : Z;
  Rejected : Z;
  Useful : Z;
  Neutral : Z;
  Harmful : Z;
  UserFeedback : f64;
  LastUsed : Z;            (* int64, unix seconds *)
}.

#[export] Instance SliceStats_eta : Eta SliceStats := fun r =>
  mkStats (Hits r) (Misses r) (Injected r) (Rejected r) (Useful r) (Neutral r) (Harmful r)
    (UserFeedback r) (LastUsed r).

Definition zero_stats : SliceStats := mkStats 0 0 0 0 0 0 0 f0 0.

Definition mergeStats (cur delta : SliceStats) : SliceStats :=
  mkStats
    (u64 (Hits cur + Hits delta))
    (u64 (Misses cur + Misses delta))
    (u64 (Injected cur + Injected delta))
    (u64 (Rejected cur + Rejected delta))
    (u64 (Useful cur + Useful delta))
    (u64 (Neutral cur + Neutral delta))
    (u64 (Harmful cur + Harmful delta))
    (UserFeedback cur + UserFeedback delta)%f64
    (if LastUsed cur <? LastUsed delta then LastUsed delta else LastUsed cur).

(** ** Provenance and the slice value *)

Abbreviation ResultStatus := string.

Definition ResultStatusProbation : ResultStatus := "probation".
Definition ResultStatusVerified : ResultStatus := "verified".

(** A nil map and an empty one behave alike in everything modelled here. *)
Abbreviation Deps := (gmap string string).

Record SliceMeta := mkMeta {
  SourceSession : string;
  SourceSessions : list string;
  TaskType : string;
  Language : string;
  ProjectSlug : string;
  BaseCommit : string;
  MetaOrigin : Origin;
  CompressionVersion : string;
  SanitizeVersion : string;
  OriginalBytes : Z;
  StoredBytes : Z;
  Historical : bool;
  MetaDeps : Deps;
  Mtimes : gmap string Z;
  L3Safe : bool;
  EmbedModel : string;
  EmbedDim : Z;
  EmbedSource : string;
  EmbedContentHash : string;
  ContextHash : string;
  MetaModel : string;
  MetaResultStatus : ResultStatus;
  ResultVerifiedBy : string;
  ResultVerificationEvidence : string;
}.

#[export] Instance SliceMeta_eta : Eta SliceMeta := fun r =>
  mkMeta (SourceSession r) (SourceSessions r) (TaskType r) (Language r) (ProjectSlug r)
    (BaseCommit r) (MetaOrigin r) (CompressionVersion r) (SanitizeVersion r) (OriginalBytes r)
    (StoredBytes r) (Historical r) (MetaDeps r) (Mtimes r) (L3Safe r) (EmbedModel r) (EmbedDim r)
    (EmbedSource r) (EmbedContentHash r) (ContextHash r) (MetaModel r) (MetaResultStatus r)
    (ResultVerifiedBy r) (ResultVerificationEvidence r).

Definition zero_meta : SliceMeta :=
  mkMeta "" [] "" "" "" "" "" "" "" 0 0 false ∅ ∅ false "" 0 "" "" "" "" "" "" "".

Definition EffectiveResultStatus (m : SliceMeta) : ResultStatus :=
  if decide (MetaResultStatus m = ResultStatusVerified) then ResultStatusVerified
  else ResultStatusProbation.

(** [Embedding] is a float32 vector by its bit patterns; [None] is nil. *)
Record Slice := mkSlice {
  ID : string;
  SType : SliceType;
  SScope : Scope;
  Content : string;
  Embedding : option (list Z);
  Stats : SliceStats;
  Weight : f64;
  Meta : SliceMeta;
  CreatedAt : Z;
}.

#[export] Instance Slice_eta : Eta Slice := fun r =>
  mkSlice (ID r) (SType r) (SScope r) (Content r) (Embedding r) (Stats r) (Weight r) (Meta r)
    (CreatedAt r).

Definition IsHistoricalObservation (s : Slice) : bool :=
  Historical (Meta s)
  && (bool_decide (SType s = Context) || bool_decide (SType s = Memory))
  && (Level OriginSessionAuto <=? Level (MetaOrigin (Meta s)))
  && negb (bool_decide (SourceSession (Meta s) = ""%string))
  && negb (bool_decide (BaseCommit (Meta s) = ""%string)).

(** [Hit.Slice] is a pointer: [None] is nil. *)
Record Hit := mkHit {
  HitSlice : option Slice;
  Score : f64;
  QueryCoverage : f64;
  QueryCoverageValid : bool;
  Lexical : f64;
  LexicalValid : bool;
}.

(** ** Scope admission *)

(** The adjusted slice and whether its scope changed. *)
Definition EnforceAdmission (s : Slice) : Slice * bool :=
  if decide (SScope s <> User) then (s, false) else
  match SType s with
  | ToolPattern | Result => (s <| SScope := Project |>, true)
  | _ => (s, false)
  end.

(** ** The value function *)

Record ScoreParams := mkParams {
  HalfLifeDays : f64;
  GraceDays : f64;
  FreqPseudo : f64;
  RejectCost : f64;
  FeedbackGain : f64;
}.

Definition DefaultScoreParams : ScoreParams :=
  mkParams (f_of_int 30) (f_of_int 7) (f_of_int 3) (f_of_int 2) (f_of_ratio 1 2).

Definition withDefaults (p : ScoreParams) : ScoreParams :=
  let d := DefaultScoreParams in
  mkParams
    (if (HalfLifeDays p <=? f0)%f64 then HalfLifeDays d else HalfLifeDays p)
    (if (GraceDays p <? f0)%f64 then f0 else GraceDays p)
    (if (FreqPseudo p <=? f0)%f64 then FreqPseudo d else FreqPseudo p)
    (if (RejectCost p <=? f0)%f64 then RejectCost d else RejectCost p)
    (if (FeedbackGain p <=? f0)%f64 then FeedbackGain d else FeedbackGain p).

Definition minWeight : f64 := f_of_ratio 1 1000.
Definition maxWeight : f64 := f1.

(** [math.Ln2]. *)
Definition ln2 : f64 := S754_finite false 6243314768165359 (-53).

Section Score.
(** [math.Exp], whose result the Go standard library leaves to the platform. *)
Context (math_exp : f64 -> f64).

Definition ComputeWeight (s : Slice) (now : Z) (p : ScoreParams) : f64 :=
  let p := withDefaults p in
  let active := if LastUsed (Stats s) <? CreatedAt s then CreatedAt s else LastUsed (Stats s) in
  let decay :=
    if 0 <? active then
      let age := f_of_int (now -! active) in
      let age := if (age <? f0)%f64 then f0 else age in
      math_exp (fopp ln2 * age / (HalfLifeDays p * f_of_int 86400))%f64
    else f_of_ratio 1 2 in
  let use := f_of_int (u64 (Hits (Stats s) + Injected (Stats s))) in
  let freq := ((use + f_of_ratio 1 2) / (use + FreqPseudo p))%f64 in
  let inj := f_of_int (Injected (Stats s)) in
  let success := ((inj + f1) / (inj + f1 + RejectCost p * f_of_int (Rejected (Stats s))))%f64 in
  let fbRaw := UserFeedback (Stats s) in
  let fbRaw := if is_nan fbRaw || is_inf fbRaw then f0 else fbRaw in
  let fb := (f1 + FeedbackGain p * fbRaw)%f64 in
  let fb := if (fb <? f_of_ratio 1 4)%f64 then f_of_ratio 1 4 else fb in
  let fb := if (fb >? f_of_int 2)%f64 then f_of_int 2 else fb in
  let w := (decay * freq * success * fb)%f64 in
  let w := if (w <? minWeight)%f64 || is_nan w then minWeight else w in
  if (w >? maxWeight)%f64 then maxWeight else w.

(** The rescored list and how many weights changed ([!=] on floats). *)
Definition Rescore (all : list Slice) (now : Z) (p : ScoreParams) : list Slice * Z :=
  foldr (fun s '(l, n) =>
    let w := ComputeWeight s now p in
    if feqb (Weight s) w then (s :: l, n) else ((s <| Weight := w |>) :: l, n + 1)) ([], 0) all.
End Score.

(** ** Lemmas *)

Lemma TypeFromString_spec s t : TypeFromString s = Some t -> type_string t = s.
Proof. unfold TypeFromString. repeat case_decide; naive_solver. Qed.

Lemma Level_range o : 1 <= Level o <= 3.
Proof. unfold Level. repeat case_decide; lia. Qed.

Lemma EnforceAdmission_other s :
  ID (EnforceAdmission s).1 = ID s /\ SType (EnforceAdmission s).1 = SType s.
Proof. unfold EnforceAdmission. case_decide; [done|]. by destruct (SType s) eqn:?. Qed.

(** A stored slice never has User scope with a low-abstraction type. *)
Definition admitted (s : Slice) : Prop :=
  SScope s = User -> SType s <> ToolPattern /\ SType s <> Result.

Lemma EnforceAdmission_admitted s : admitted (EnforceAdmission s).1.
Proof.
  unfold EnforceAdmission, admitted. case_decide; simpl; [done|].
  destruct (SType s) eqn:E; simpl; rewrite ?E; done.
Qed.

Lemma EnforceAdmission_id s : admitted s -> EnforceAdmission s = (s, false).
Proof.
  unfold EnforceAdmission, admitted. intros H. case_decide as Hu; [done|].
  destruct (decide (SScope s = User)) as [Hs|]; [|done]. destruct (H Hs).
  by destruct (SType s).
Qed.
#[export] Hint Resolve EnforceAdmission_admitted Level_range : go.

Lemma mergeStats_LastUsed cur d : LastUsed (mergeStats cur d) = Z.max (LastUsed cur) (LastUsed d).
Proof. simpl. destruct (Z.ltb_spec (LastUsed cur) (LastUsed d)); lia. Qed.

(** ** Properties *)

(** Whatever the platform's [math.Exp] returns, including NaN and
    infinities, the value function stays inside the documented weight band. *)
Theorem ComputeWeight_bounds (math_exp : f64 -> f64) s now p :
  (minWeight <=? ComputeWeight math_exp s now p)%f64 = true
  /\ (ComputeWeight math_exp s now p <=? maxWeight)%f64 = true.
Proof.
  unfold ComputeWeight. set (w := (_ * _)%f64). clearbody w.
  assert (Hle : fleb minWeight maxWeight = true) by (by vm_compute).
  destruct (is_nan w) eqn:Hn.
  - rewrite orb_true_r. replace (maxWeight <? minWeight)%f64 with false by (by vm_compute).
    split; [by apply fleb_refl; vm_compute|done].
  - rewrite orb_false_r. apply (fclamp_range minWeight maxWeight w Hn Hle).
Qed.
