(* ===== verification/Transcript.v ===== *)
(** kernel/slice/{extractor,distill}.go: the transcript of a session, its tool calls
    and the verdict on its last change.

    A transcript is read line by line; a line that does not decode is skipped and one
    that does not fit the scanner's buffer ends the reading.  JSON decoding is an
    argument ([TranscriptJson]), without laws. *)

From Stdlib Require Import ZArith Lia Bool Ascii String.
From stdpp Require Import tactics base option list gmap strings.
From S2P Require Import Prelude Float64 GoStrings Json Text GoPath.

#[global] Open Scope Z_scope.

(** ** Lines *)

(** A tool call of a line; its arguments are raw JSON. *)
Record tool_call := mkCall { call_id : string; call_name : string; call_args : string }.

Record transcriptLine := mkLine {
  Role : string;
  LType : string;
  LContent : string;
  RawContent : string;
  LName : string;
  ToolCall : string;
  Verification : string;
  WorkspaceMutation : bool;
  ToolCalls : list tool_call;
}.

#[export] Instance transcriptLine_eta : Eta transcriptLine := fun r =>
  mkLine (Role r) (LType r) (LContent r) (RawContent r) (LName r) (ToolCall r) (Verification r) (WorkspaceMutation r) (ToolCalls r).

(** [json.Unmarshal] into a line and into an [any]; [None] is an error. *)
Class TranscriptJson := {
  line_of_json : string -> option transcriptLine;
  any_of_json : string -> option json;
}.

Definition maxScanLine : Z := 4 * 1024 * 1024.

(** The tokens of [bufio.Scanner] and its error: a line that fills the buffer without a
    newline ends the scan.  The carriage return [ScanLines] drops is trimmed anyway. *)
Fixpoint scan (lines : list string) : list string * option string :=
  match lines with
  | [] => ([], None)
  | l :: rest =>
      if maxScanLine <=? slen l then ([], Some "bufio.Scanner: token too long"%string)
      else let '(ts, e) := scan rest in (l :: ts, e)
  end.

(** [storedContent]. *)
Definition storedContent (l : transcriptLine) : string :=
  if negb (trim_space (RawContent l) =? "")%string then RawContent l else LContent l.

Section Json.
Context `{TranscriptJson}.

Definition decode_line (line : string) : option transcriptLine :=
  let line := trim_space line in
  if (line =? "")%string then None else line_of_json line.

Definition transcript_line (line : string) : option transcriptLine :=
  match decode_line line with
  | None => None
  | Some tl =>
      let tl := if (Role tl =? "")%string && (LType tl =? "tool")%string then tl <| Role := "tool"%string |> else tl in
      if (Role tl =? "")%string then None else Some tl
  end.

Definition parseTranscript (data : string) : list transcriptLine * option string :=
  let '(ts, e) := scan (split_lines data) in (omap transcript_line ts, e).

(** [JNull] is the nil [any]. *)
Definition decodeToolArgs (raw : string) : json :=
  if (raw =? "")%string then JNull
  else match any_of_json raw with
       | None => JNull
       | Some (JString encoded) => default JNull (any_of_json encoded)
       | Some v => v
       end.
End Json.

(** ** Tool arguments *)

Definition contextPathKeys : list string :=
  ["path"; "paths"; "file"; "files"; "file_path"; "file_paths"; "source_path"; "destination_path";
   "directory"; "directories"; "dir"; "dirs"; "cwd"; "workdir"]%string.
Definition shellToolNames : list string := ["bash"; "shell"; "exec_command"; "run_command"]%string.
Definition commandFamilies : list string :=
  ["cargo"; "docker"; "git"; "go"; "make"; "npm"; "pnpm"; "python"; "python3"; "uv"; "yarn"]%string.

Definition listed (l : list string) (x : string) : bool := existsb (String.eqb x) l.

Fixpoint stringValues (v : json) : list string :=
  match v with
  | JString s => [s]
  | JArray l => concat (map stringValues l)
  | _ => []
  end.

Definition commandValue (v : json) : string :=
  match as_map v with Some m => text_field m "command" | None => "" end.

(** A call by its name and its decoded arguments. *)
Abbreviation toolCall := (string * json)%type.
Abbreviation call_table := (gmap string toolCall).

Section Words.
Context `{UnicodeLower}.

Definition under_path_key (k : string) (l : list string) : list string :=
  if listed contextPathKeys (to_lower k) then l else [].

(** Go walks an object in no particular order; the callers count the paths or search
    them. *)
Fixpoint contextPaths (v : json) : list string :=
  match v with
  | JObject m =>
      map_fold (fun k (e : list string * list string) acc => under_path_key k e.1 ++ e.2 ++ acc) []
        ((fun f => (stringValues f,
                    match f with
                    | JObject _ => contextPaths f
                    | JArray l => concat (map contextPaths l)
                    | _ => []
                    end)) <$> m)
  | _ => []
  end.

(** [isTestCommand] (distill.go). *)
Definition isTestCommand (cmd : string) : bool :=
  let l := to_lower cmd in
  existsb (contains l) ["pytest"; "runtests"; "unittest"; "tox "]%string
  || existsb (String.eqb "test") (tail (fields l)).

(** [verifyBoundary]. *)
Definition verifyBoundary (c : toolCall) : bool :=
  let lower := to_lower c.1 in
  if contains lower "test" then true
  else if negb (listed shellToolNames lower) then false
  else isTestCommand (commandValue c.2).

(** ** Verification *)

Context `{TranscriptJson}.

Definition decoded_call (c : tool_call) : toolCall := (call_name c, decodeToolArgs (call_args c)).

(** The calls by their ID, the last one of an ID; a missing one reads as the zero call. *)
Definition calls_of (lines : list transcriptLine) : call_table :=
  foldl (fun m l => foldl (fun m c => <[call_id c := decoded_call c]> m) m (ToolCalls l)) ∅ lines.
Definition lookup_call (calls : call_table) (id : string) : toolCall := default (""%string, JNull) (calls !! id).

Record verification := mkVerification {
  seenCalls : gset string;
  seenResults : gset string;
  pending : gset string;
  latestMutation : Z;
  latestVerification : Z;
  latestPassed : bool;
  evidence : string;
}.
#[export] Instance verification_eta : Eta verification := fun r =>
  mkVerification (seenCalls r) (seenResults r) (pending r) (latestMutation r) (latestVerification r) (latestPassed r) (evidence r).

Definition verification0 : verification := mkVerification ∅ ∅ ∅ (-1) (-1) false "".

Definition announce (calls : call_table) (st : verification) (c : tool_call) : verification :=
  let id := call_id c in
  if negb (id =? "")%string && negb (bool_decide (id ∈ seenCalls st)) then
    let st := st <| seenCalls ::= fun s => {[id]} ∪ s |> in
    if verifyBoundary (lookup_call calls id) && negb (bool_decide (id ∈ seenResults st))
    then st <| pending ::= fun s => {[id]} ∪ s |> else st
  else st.

(** The host's classification wins over the guess from the command. *)
Definition verifies (calls : call_table) (l : transcriptLine) : bool :=
  negb (Verification l =? "not_verification")%string
  && ((Verification l =? "passed")%string || (Verification l =? "failed")%string || verifyBoundary (lookup_call calls (ToolCall l))).

Definition evidence_of (calls : call_table) (l : transcriptLine) : string :=
  let call := lookup_call calls (ToolCall l) in
  if negb (commandValue call.2 =? "")%string then commandValue call.2
  else if negb (call.1 =? "")%string then call.1 else LName l.

Definition tool_result (calls : call_table) (i : Z) (l : transcriptLine) (st : verification) : verification :=
  let st := if WorkspaceMutation l then st <| latestMutation := i |> else st in
  if verifies calls l then
    st <| latestVerification := i |> <| latestPassed := (Verification l =? "passed")%string |> <| evidence := evidence_of calls l |>
  else st.

Definition verify_line (calls : call_table) (st : verification) (e : nat * transcriptLine) : verification :=
  let '(i, l) := e in
  let st := foldl (announce calls) st (ToolCalls l) in
  if negb (Role l =? "tool")%string then st
  else if (ToolCall l =? "")%string then tool_result calls (Z.of_nat i) l st
  else if bool_decide (ToolCall l ∈ seenResults st) then st
  else tool_result calls (Z.of_nat i) l
         (st <| seenResults ::= fun s => {[ToolCall l]} ∪ s |> <| pending ::= fun s => s ∖ {[ToolCall l]} |>).

Definition verify_lines (calls : call_table) (lines : list transcriptLine) : verification :=
  foldl (verify_line calls) verification0 (imap pair lines).

(** The evidence and whether the last change is verified. *)
Definition resultVerifiedAfterLatestMutation (lines : list transcriptLine) : string * bool :=
  let st := verify_lines (calls_of lines) lines in
  (evidence st, bool_decide (pending st = ∅) && latestPassed st && (latestMutation st <? latestVerification st)).

(** ** What counts *)

(** A tool line counts when it is the first with its ID, or has none. *)
Definition counted (lines : list transcriptLine) (i : nat) (l : transcriptLine) : Prop :=
  lines !! i = Some l /\ Role l = "tool"%string
  /\ (ToolCall l = ""%string \/ forall j l', (j < i)%nat -> lines !! j = Some l' -> Role l' = "tool"%string -> ToolCall l' <> ToolCall l).

Definition announced (lines : list transcriptLine) (id : string) : Prop :=
  id <> ""%string /\ exists l c, l ∈ lines /\ c ∈ ToolCalls l /\ call_id c = id.
Definition answered (lines : list transcriptLine) (id : string) : Prop :=
  id <> ""%string /\ exists l, l ∈ lines /\ Role l = "tool"%string /\ ToolCall l = id.

(** The last index that counts and satisfies [p], or -1. *)
Definition latest (lines : list transcriptLine) (p : transcriptLine -> bool) (n : Z) (at_last : transcriptLine -> Prop) : Prop :=
  (n = -1 /\ forall i l, counted lines i l -> p l = false)
  \/ exists i l, n = Z.of_nat i /\ counted lines i l /\ p l = true /\ at_last l
     /\ forall j l', (i < j)%nat -> counted lines j l' -> p l' = false.

Record tracks (calls : call_table) (lines : list transcriptLine) (st : verification) : Prop := {
  tr_calls : forall id, id ∈ seenCalls st <-> announced lines id;
  tr_results : forall id, id ∈ seenResults st <-> answered lines id;
  tr_pending : forall id, id ∈ pending st <-> announced lines id /\ verifyBoundary (lookup_call calls id) = true /\ ~ answered lines id;
  tr_mutation : latest lines WorkspaceMutation (latestMutation st) (fun _ => True);
  tr_verification : latest lines (verifies calls) (latestVerification st)
    (fun l => latestPassed st = (Verification l =? "passed")%string /\ evidence st = evidence_of calls l);
  tr_none : latestVerification st = -1 -> latestPassed st = false;
}.


(** ** One more line *)

Lemma announced_snoc lines x id :
  announced (lines ++ [x]) id <-> announced lines id \/ id <> ""%string /\ exists c, c ∈ ToolCalls x /\ call_id c = id.
Proof.
  unfold announced. setoid_rewrite elem_of_app. setoid_rewrite list_elem_of_singleton. split.
  - intros (Hne & l & c & [Hl | ->] & Hc & E); [left|right]; eauto 10.
  - intros [(Hne & l & c & Hl & Hc & E)|(Hne & c & Hc & E)]; eauto 10.
Qed.

Lemma answered_snoc lines x id :
  answered (lines ++ [x]) id <-> answered lines id \/ id <> ""%string /\ Role x = "tool"%string /\ ToolCall x = id.
Proof.
  unfold answered. setoid_rewrite elem_of_app. setoid_rewrite list_elem_of_singleton. naive_solver.
Qed.

(** The line counts at the end of [lines]. *)
Definition counts (lines : list transcriptLine) (x : transcriptLine) : Prop :=
  Role x = "tool"%string /\ ~ answered lines (ToolCall x).

Lemma counted_snoc lines x i l :
  counted (lines ++ [x]) i l <-> counted lines i l \/ i = length lines /\ l = x /\ counts lines x.
Proof.
  unfold counted, counts, answered. split.
  - intros (Hi & Hr & Hf). destruct (decide (i < length lines)%nat) as [Hlt|Hge].
    + left. rewrite lookup_app_l in Hi by done. split; [done|]. split; [done|]. destruct Hf as [|Hf]; [by left|]. right.
      intros j l' Hj Hl. apply (Hf j); [done|]. rewrite lookup_app_l by lia. done.
    + right. pose proof (lookup_lt_Some _ _ _ Hi) as Hlt. rewrite length_app in Hlt. cbn in Hlt. assert (i = length lines) as -> by lia.
      rewrite list_lookup_middle in Hi by done. injection Hi as ->. split; [done|]. split; [done|]. split; [done|].
      intros (Hne & l' & (j & Hj)%list_elem_of_lookup & Hr' & E). destruct Hf as [|Hf]; [done|].
      pose proof (lookup_lt_Some _ _ _ Hj). apply (Hf j l'); [done|by rewrite lookup_app_l by done|done|done].
  - intros [(Hi & Hr & Hf)|(-> & -> & Hr & Hn)].
    + pose proof (lookup_lt_Some _ _ _ Hi). split; [by rewrite lookup_app_l by done|]. split; [done|]. destruct Hf as [|Hf]; [by left|]. right.
      intros j l' Hj Hl. rewrite lookup_app_l in Hl by lia. by apply (Hf j).
    + split; [by rewrite list_lookup_middle|]. split; [done|]. destruct (decide (ToolCall x = ""%string)) as [|Hne]; [by left|]. right.
      intros j l' Hj Hl Hr' E. rewrite lookup_app_l in Hl by done. apply Hn. split; [done|]. exists l'. split; [|done].
      by apply list_elem_of_lookup_2 in Hl.
Qed.

Lemma latest_skip lines x p n A : latest lines p n A -> (counts lines x -> p x = false) -> latest (lines ++ [x]) p n A.
Proof.
  intros [(-> & Hno)|(i & l & -> & Hc & Hp & HA & Hno)] Hx.
  - left. split; [done|]. intros i l [Hc|(-> & -> & Hc)]%counted_snoc; [by eapply Hno|by apply Hx].
  - right. exists i, l. split; [done|]. split; [apply counted_snoc; by left|]. split; [done|]. split; [done|].
    intros j l' Hj [Hc'|(-> & -> & Hc')]%counted_snoc; [by apply (Hno j)|by apply Hx].
Qed.

Lemma latest_here lines x p (A : transcriptLine -> Prop) : counts lines x -> p x = true -> A x ->
  latest (lines ++ [x]) p (Z.of_nat (length lines)) A.
Proof.
  intros Hc Hp HA. right. exists (length lines), x. split; [done|]. split; [apply counted_snoc; by right|]. split; [done|]. split; [done|].
  intros j l' Hj [(Hl & _)|(-> & _)]%counted_snoc; [|lia]. apply lookup_lt_Some in Hl. lia.
Qed.

(** Announcements only touch the two sets of calls. *)
Definition same_results (st st' : verification) : Prop :=
  seenResults st' = seenResults st /\ latestMutation st' = latestMutation st /\ latestVerification st' = latestVerification st
  /\ latestPassed st' = latestPassed st /\ evidence st' = evidence st.

Definition new_boundary (calls : call_table) (st : verification) (id : string) : Prop :=
  id <> ""%string /\ (id ∉ seenCalls st) /\ (verifyBoundary (lookup_call calls id) = true /\ id ∉ seenResults st).

Lemma announce_spec calls st c :
  let st' := announce calls st c in
  same_results st st'
  /\ (forall id, id ∈ seenCalls st' <-> (id ∈ seenCalls st \/ (id <> ""%string /\ call_id c = id)))
  /\ (forall id, id ∈ pending st' <-> (id ∈ pending st \/ (new_boundary calls st id /\ call_id c = id))).
Proof.
  unfold announce, new_boundary, same_results. cbv zeta. destruct (String.eqb_spec (call_id c) ""%string) as [Ee|Ee]; cbn [negb andb].
  { split; [done|]. split; intros id; naive_solver. }
  destruct (bool_decide_reflect (call_id c ∈ seenCalls st)) as [Hs|Hs]; cbn [negb andb].
  { split; [done|]. split; intros id; naive_solver. }
  destruct (verifyBoundary _) eqn:Ev; cbn; [destruct (bool_decide_reflect (call_id c ∈ seenResults st)) as [Hr|Hr]; cbn|].
  all: split; [done|]; split; intros id; rewrite ?elem_of_union, ?elem_of_singleton; destruct (decide (id = call_id c)) as [->|]; intuition congruence.
Qed.

Lemma announce_fold calls cs st :
  let st' := foldl (announce calls) st cs in
  same_results st st'
  /\ (forall id, id ∈ seenCalls st' <-> (id ∈ seenCalls st \/ (id <> ""%string /\ exists c, c ∈ cs /\ call_id c = id)))
  /\ (forall id, id ∈ pending st' <-> (id ∈ pending st \/ (new_boundary calls st id /\ exists c, c ∈ cs /\ call_id c = id))).
Proof.
  revert st. induction cs as [|c cs IH]; intros st; cbv zeta; cbn [foldl].
  { split; [done|]. setoid_rewrite elem_of_nil. naive_solver. }
  destruct (announce_spec calls st c) as (Hs1 & Hc1 & Hp1). destruct (IH (announce calls st c)) as (Hs2 & Hc2 & Hp2). clear IH.
  split; [unfold same_results in *; naive_solver congruence|]. setoid_rewrite elem_of_cons.
  split; intros id.
  - rewrite Hc2, Hc1. naive_solver.
  - rewrite Hp2, Hp1. unfold new_boundary. rewrite Hc1. destruct Hs1 as [-> _].
    destruct (decide (call_id c = id)) as [E|E]; naive_solver.
Qed.

Lemma announced_line calls lines x st : tracks calls lines st ->
  let st1 := foldl (announce calls) st (ToolCalls x) in
  same_results st st1
  /\ (forall id, id ∈ seenCalls st1 <-> announced (lines ++ [x]) id)
  /\ (forall id, id ∈ pending st1 <->
        announced (lines ++ [x]) id /\ verifyBoundary (lookup_call calls id) = true /\ ~ answered lines id).
Proof.
  intros T. cbv zeta. destruct (announce_fold calls (ToolCalls x) st) as (Hs & Hc & Hp). split; [done|]. split; intros id.
  - by rewrite Hc, announced_snoc, (tr_calls _ _ _ T).
  - rewrite Hp, announced_snoc, (tr_pending _ _ _ T). unfold new_boundary. rewrite (tr_results _ _ _ T), <- (tr_calls _ _ _ T).
    destruct (decide (id ∈ seenCalls st)); tauto.
Qed.

(** What a result that counts leaves. *)
Lemma tool_result_tracks calls lines x st : tracks calls lines st -> counts lines x ->
  forall st2, same_results st (st2 <| seenResults := seenResults st |>) ->
  let st' := tool_result calls (Z.of_nat (length lines)) x st2 in
  seenCalls st' = seenCalls st2 /\ seenResults st' = seenResults st2 /\ pending st' = pending st2
  /\ latest (lines ++ [x]) WorkspaceMutation (latestMutation st') (fun _ => True)
  /\ latest (lines ++ [x]) (verifies calls) (latestVerification st')
       (fun l => latestPassed st' = (Verification l =? "passed")%string /\ evidence st' = evidence_of calls l)
  /\ (latestVerification st' = -1 -> latestPassed st' = false).
Proof.
  intros T Hc st2 (_ & E1 & E2 & E3 & E4). cbn in E1, E2, E3, E4. cbv zeta. unfold tool_result.
  set (st3 := if WorkspaceMutation x then _ else _).
  assert (F : seenCalls st3 = seenCalls st2 /\ seenResults st3 = seenResults st2 /\ pending st3 = pending st2
    /\ latestVerification st3 = latestVerification st /\ latestPassed st3 = latestPassed st /\ evidence st3 = evidence st).
  { unfold st3. by destruct (WorkspaceMutation x). }
  assert (Hm : latest (lines ++ [x]) WorkspaceMutation (latestMutation st3) (fun _ => True)).
  { unfold st3. destruct (WorkspaceMutation x) eqn:Em; [by apply latest_here|]. rewrite E1. by apply latest_skip; [apply (tr_mutation _ _ _ T)|]. }
  clearbody st3. destruct F as (F1 & F2 & F3 & F4 & F5 & F6). destruct (verifies calls x) eqn:Ev; cbn.
  - repeat (split; [done|]). split; [by apply latest_here|lia].
  - repeat (split; [done|]). rewrite F4, F5, F6. split; [|apply (tr_none _ _ _ T)]. by apply latest_skip; [apply (tr_verification _ _ _ T)|].
Qed.

Lemma verify_line_tracks calls lines x st : tracks calls lines st ->
  tracks calls (lines ++ [x]) (verify_line calls st (length lines, x)).
Proof.
  intros T. destruct (announced_line calls lines x st T) as (Hs & Hcs & Hps). unfold verify_line.
  set (st1 := foldl (announce calls) st (ToolCalls x)) in *. clearbody st1. cbv zeta.
  assert (Hquiet : ~ counts lines x -> (forall id, answered (lines ++ [x]) id <-> answered lines id) -> tracks calls (lines ++ [x]) st1).
  { intros Hn Ha. destruct Hs as (E0 & E1 & E2 & E3 & E4). constructor; rewrite ?E0, ?E1, ?E2, ?E3, ?E4.
    - exact Hcs.
    - intros id. by rewrite (tr_results _ _ _ T), Ha.
    - intros id. by rewrite Hps, Ha.
    - by apply latest_skip; [apply (tr_mutation _ _ _ T)|].
    - by apply latest_skip; [apply (tr_verification _ _ _ T)|].
    - apply (tr_none _ _ _ T). }
  destruct (String.eqb_spec (Role x) "tool"%string) as [Er|Er]; cbn [negb].
  2:{ apply Hquiet; [by intros [? _]|]. intros id. rewrite answered_snoc. tauto. }
  destruct (String.eqb_spec (ToolCall x) ""%string) as [Et|Et].
  - assert (Hc : counts lines x) by (split; [done|]; rewrite Et; by intros [? _]).
    destruct (tool_result_tracks calls lines x st T Hc st1) as (R1 & R2 & R3 & R4 & R5 & R6).
    { destruct Hs as (? & ? & ? & ? & ?). by repeat split. }
    assert (Ha : forall id, answered (lines ++ [x]) id <-> answered lines id) by (intros id; rewrite answered_snoc, Et; intuition congruence).
    constructor; rewrite ?R1, ?R2, ?R3; [exact Hcs| | |done..].
    + intros id. destruct Hs as [-> _]. by rewrite (tr_results _ _ _ T), Ha.
    + intros id. by rewrite Hps, Ha.
  - destruct (bool_decide_reflect (ToolCall x ∈ seenResults st1)) as [Hin|Hin]; destruct Hs as (E0 & Hs); rewrite E0, (tr_results _ _ _ T) in Hin.
    + apply Hquiet; [by intros [_ ?]|]. intros id. rewrite answered_snoc. naive_solver.
    + assert (Hc : counts lines x) by by split.
      edestruct (tool_result_tracks calls lines x st T Hc) as (R1 & R2 & R3 & R4 & R5 & R6); [|constructor; rewrite ?R1, ?R2, ?R3; [| | |done..]].
      { destruct Hs as (? & ? & ? & ?). by repeat split. }
      * exact Hcs.
      * intros id. cbn. rewrite elem_of_union, elem_of_singleton, answered_snoc, E0, (tr_results _ _ _ T). intuition congruence.
      * intros id. cbn. rewrite elem_of_difference, elem_of_singleton, Hps, answered_snoc. intuition congruence.
Qed.

Lemma imap_snoc {A B} (f : nat -> A -> B) l x : imap f (l ++ [x]) = imap f l ++ [f (length l) x].
Proof. rewrite imap_app. cbn. by rewrite Nat.add_0_r. Qed.

Lemma verify_lines_tracks calls lines : tracks calls lines (verify_lines calls lines).
Proof.
  unfold verify_lines. induction lines as [|x lines IH] using rev_ind.
  - constructor; cbn; unfold announced, answered, latest.
    + intros id. split; [by intros ?%not_elem_of_empty|]. intros (_ & ? & ? & Hn & _). by apply not_elem_of_nil in Hn.
    + intros id. split; [by intros ?%not_elem_of_empty|]. intros (_ & ? & Hn & _). by apply not_elem_of_nil in Hn.
    + intros id. split; [by intros ?%not_elem_of_empty|]. intros ((_ & ? & ? & Hn & _) & _). by apply not_elem_of_nil in Hn.
    + left. split; [done|]. by intros i l [? _].
    + left. split; [done|]. by intros i l [? _].
    + done.
  - rewrite imap_snoc, foldl_snoc. by apply verify_line_tracks.
Qed.

(** ** Properties *)

(** C26: A result counts as verified exactly when the transcript shows it: a tool line
    that counts (mirror copies do not) says "passed" and changed nothing itself, no
    later line that counts changed the workspace or was a verification, and every
    announced call that runs tests has an answer.  The evidence is the command, the tool
    or the name of that line. *)
Theorem verified_iff lines e :
  resultVerifiedAfterLatestMutation lines = (e, true) <->
  (exists i l, counted lines i l /\ Verification l = "passed"%string /\ WorkspaceMutation l = false /\ e = evidence_of (calls_of lines) l
     /\ forall j l', (i < j)%nat -> counted lines j l' -> WorkspaceMutation l' = false /\ verifies (calls_of lines) l' = false)
  /\ forall id, announced lines id -> verifyBoundary (lookup_call (calls_of lines) id) = true -> answered lines id.
Proof.
  unfold resultVerifiedAfterLatestMutation. set (calls := calls_of lines). pose proof (verify_lines_tracks calls lines) as T.
  set (st := verify_lines calls lines) in *. clearbody st calls. destruct T as [_ Hr Hp Hm Hv Hn]. split.
  - intros [= He Hb]. apply andb_true_iff in Hb as [[Hb%bool_decide_eq_true Hpt]%andb_true_iff Hlt%Z.ltb_lt]. split.
    + destruct Hv as [(E & _)|(i & l & Ei & Hc & Hl & (Hpass & Hev) & Hafter)]; [by rewrite Hn in Hpt|].
      exists i, l. split; [done|]. split; [apply String.eqb_eq; congruence|].
      assert (Hmut : forall j l', (i <= j)%nat -> counted lines j l' -> WorkspaceMutation l' = false).
      { intros j l' Hj Hc'. destruct Hm as [(_ & Hno)|(k & m & Ek & _ & _ & _ & Hno)]; [by eapply Hno|]. apply (Hno j); [lia|done]. }
      split; [by apply (Hmut i)|]. split; [congruence|]. intros j l' Hj Hc'. split; [apply (Hmut j); [lia|done]|by apply (Hafter j)].
    + intros id Ha Hb'. destruct (decide (id ∈ seenResults st)) as [Hin|Hin]; [by apply Hr|]. exfalso.
      apply (not_elem_of_empty (C := gset string) id). rewrite <- Hb. apply Hp. split; [done|]. split; [done|]. by rewrite <- Hr.
  - intros ((i & l & Hc & Hpass & Hmut & -> & Hafter) & Hall).
    assert (Hvl : verifies calls l = true) by (unfold verifies; by rewrite Hpass).
    assert (Hver : latestVerification st = Z.of_nat i /\ latestPassed st = true /\ evidence st = evidence_of calls l).
    { destruct Hv as [(_ & Hno)|(k & m & Ek & Hck & Hvk & (Hpk & Hek) & Hno)]; [by rewrite (Hno i l Hc) in Hvl|].
      assert (k = i) as ->.
      { destruct (lt_eq_lt_dec k i) as [[Hlt|]|Hlt]; [by rewrite (Hno i l Hlt Hc) in Hvl|done|].
        destruct (Hafter k m Hlt Hck) as [_ Hx]. congruence. }
      destruct Hc as [Hi _], Hck as [Hk _]. rewrite Hi in Hk. injection Hk as <-. split; [done|]. split; [by rewrite Hpk, Hpass|done]. }
    destruct Hver as (-> & -> & ->). f_equal. rewrite andb_true_r. apply andb_true_iff. split.
    + apply bool_decide_eq_true, set_eq. intros id. rewrite Hp. split; [|by intros ?%not_elem_of_empty].
      intros (Ha & Hb & Hna). destruct Hna. by apply Hall.
    + apply Z.ltb_lt. destruct Hm as [(-> & _)|(k & m & -> & Hck & Hmk & _)]; [lia|]. apply inj_lt.
      destruct (lt_eq_lt_dec k i) as [[Hlt| ->]|Hlt]; [done|..].
      * destruct Hc as [Hi _], Hck as [Hk _]. rewrite Hi in Hk. injection Hk as <-. congruence.
      * destruct (Hafter k m Hlt Hck). congruence.
Qed.
End Words.
