(* ===== verification/Extract.v ===== *)
(** kernel/slice/extractor.go: the slices of a transcript - the prompt and the tool
    sequence of each turn, the repeated paths and commands, and the final result.

    Identifiers are [sha], the first eight bytes of SHA-256 in hexadecimal; [clock id]
    is the second at which the slice of an identifier is built. *)

From Stdlib Require Import ZArith Lia Bool Ascii String Sorted.
From stdpp Require Import tactics base option list sorting gmap strings.
From S2P Require Import Prelude Float64 GoStrings GoPath Json Text Sanitize Slice Compress Transcript.

#[global] Open Scope Z_scope.

Definition maxPromptLen : nat := Z.to_nat 4000.
Definition maxResultLen : nat := Z.to_nat 8000.
Definition minToolSeq : nat := 2.
Definition minContextUse : Z := 2.
Definition maxContextTop : nat := 5.
Definition sanitize_version : string := "v2".

(** ** Paths and commands *)

Definition dquote : ascii := ascii_of 34.
Definition backslash : ascii := ascii_of 92.
Definition quotes : string := String dquote "'".

(** [path.Dir]. *)
Definition Dir (p : string) : string :=
  Clean (match last_cut "/" p with Some (a, _) => a +:+ "/" | None => "" end).

(** The drive of a Windows path: [p[1] == ':']. *)
Definition drive (p : string) : bool :=
  match p with String _ (String c _) => Ascii.eqb c ":" | _ => false end.

Definition normalizeContextPath (raw : string) : option string :=
  let p := trim_space (trim raw quotes) in
  let p := replace_all p (String backslash "") "/" in
  if (p =? "")%string || (p =? ".")%string || has_prefix p "/" || has_prefix p "~" || contains p "://" || drive p then None
  else
    let p := trim_prefix (Clean p) "./" in
    if (p =? "")%string || (p =? ".")%string || (p =? "..")%string || has_prefix p "../" then None else Some p.

Definition token_rune (r : Z) : bool :=
  (r =? 45) || (r =? 95) || (r =? 46) || in_range 48 57 r || in_range 65 90 r || in_range 97 122 r.
Definition validCommandToken (token : string) : bool :=
  negb ((token =? "")%string || existsb (fun r => existsb (Z.eqb r) (runes "/\=:$")) (runes token))
  && forallb token_rune (runes token).

Record contextEntry := mkEntry { value : string; count : Z }.

(** By count, then by value. *)
Definition entry_less (a b : contextEntry) : bool :=
  if count a =? count b then string_less (value a) (value b) else count b <? count a.

Definition count_in (m : gmap string Z) (k : string) : gmap string Z := <[k := default 0 (m !! k) +! 1]> m.
Definition counts_of (l : list string) : gmap string Z := foldl count_in ∅ l.

Definition topContextEntries (counts : gmap string Z) : list contextEntry :=
  take maxContextTop (go_sort entry_less
    (map (fun e => mkEntry e.1 e.2) (List.filter (fun e => minContextUse <=? e.2) (map_to_list counts)))).

Definition context_line (e : contextEntry) : string := "- " +:+ value e +:+ " (" +:+ itoa (count e) +:+ ")" +:+ lf_string.
Definition writeContextSection (title : string) (entries : list contextEntry) : string :=
  if entries is [] then "" else title +:+ lf_string +:+ join "" (map context_line entries).

Section Extract.
Context `{UnicodeLower} `{UnicodeClasses} `{TranscriptJson} (sha : string -> string) (clock : string -> Z).

Definition commandHead (command : string) : string :=
  match fields command with
  | [] => ""
  | f :: rest =>
      let first := trim f quotes in
      if negb (validCommandToken first) then ""
      else if listed commandFamilies (to_lower first) then
        match rest with
        | s :: _ =>
            let second := trim s quotes in
            if negb (has_prefix second "-") && validCommandToken second then first +:+ " " +:+ second else first
        | [] => first
        end
      else first
  end.

(** ** Slices *)

(** [sliceID]: the type and the scope are a byte each. *)
Definition type_byte (t : SliceType) : Z :=
  match t with Prompt => 0 | Context => 1 | ToolPattern => 2 | Result => 3 | Memory => 4 | UnknownType n => n mod 256 end.
Definition scope_byte (s : Scope) : Z :=
  match s with Session => 0 | Project => 1 | User => 2 | UnknownScope n => n mod 256 end.
Definition sliceID (content : string) (t : SliceType) (sc : Scope) : string :=
  sha (String (ascii_of (type_byte t)) (String (ascii_of (scope_byte sc)) content)).

Definition newSlice (t : SliceType) (sc : Scope) (content : string) (meta : SliceMeta) : Slice :=
  let content := Sanitize content in
  let id := sliceID content t sc in
  mkSlice id t sc content None zero_stats f1
    (meta <| Historical := false |> <| SanitizeVersion := sanitize_version |>) (clock id).

Definition observedSlice (t : SliceType) (sc : Scope) (content : string) (meta : SliceMeta) : Slice :=
  let s := newSlice t sc content meta in s <| Meta ::= fun m => m <| Historical := true |> |>.

Definition compressionMeta (meta : SliceMeta) (original stored : string) : SliceMeta :=
  meta <| CompressionVersion := compressionVersion |> <| OriginalBytes := slen original |> <| StoredBytes := slen stored |>.

Definition text_slice (t : SliceType) (meta : SliceMeta) (max : nat) (l : transcriptLine) : option Slice :=
  let text := storedContent l in
  let content := compressText text max in
  if (content =? "")%string then None else Some (newSlice t Project content (compressionMeta meta text content)).

(** The first user line decides, even when its text is empty. *)
Definition promptSlice (turn : list transcriptLine) (meta : SliceMeta) : option Slice :=
  match find (fun l => (Role l =? "user")%string) turn with
  | Some l => text_slice Prompt meta maxPromptLen l
  | None => None
  end.

Definition toolCallsOf (turn : list transcriptLine) : list toolCall :=
  map decoded_call (List.filter (fun c => negb (call_name c =? "")%string) (concat (map ToolCalls turn))).

Definition toolPatternSlice (turn : list transcriptLine) (meta : SliceMeta) : option Slice :=
  let names := map fst (toolCallsOf turn) in
  if (length names <? minToolSeq)%nat then None else Some (newSlice ToolPattern Project (join " " names) meta).

(** The calls cut after every verification; the last segment may be empty. *)
Fixpoint segments (seg : list string) (calls : list toolCall) : list (list string) :=
  match calls with
  | [] => [seg]
  | c :: rest => if verifyBoundary c then (seg ++ [c.1]) :: segments [] rest else segments (seg ++ [c.1]) rest
  end.
Definition toolPatternSlicesStepSplit (turn : list transcriptLine) (meta : SliceMeta) : list Slice :=
  map (fun seg => newSlice ToolPattern Project (join " " seg) meta)
    (List.filter (fun seg => (minToolSeq <=? length seg)%nat) (segments [] (toolCallsOf turn))).

(** The tool calls of a session, and what they mention. *)
Definition calls_in (lines : list transcriptLine) : list tool_call := concat (map ToolCalls lines).
Definition paths_in (lines : list transcriptLine) : list string :=
  omap normalizeContextPath (concat (map (fun c => contextPaths (decodeToolArgs (call_args c))) (calls_in lines))).
Definition dirs_in (lines : list transcriptLine) : list string :=
  List.filter (fun d => negb (d =? ".")%string) (map Dir (paths_in lines)).
Definition heads_in (lines : list transcriptLine) : list string :=
  List.filter (fun h => negb (h =? "")%string)
    (map (fun c => commandHead (commandValue (decodeToolArgs (call_args c))))
       (List.filter (fun c => listed shellToolNames (to_lower (call_name c))) (calls_in lines))).

Definition context_header : string := "Project context observed from repeated tool calls:" +:+ lf_string.
Definition contextSlice (lines : list transcriptLine) (meta : SliceMeta) : option Slice :=
  let pathTop := topContextEntries (counts_of (paths_in lines)) in
  let dirTop := topContextEntries (counts_of (dirs_in lines)) in
  let commandTop := topContextEntries (counts_of (heads_in lines)) in
  if (length pathTop + length dirTop + length commandTop =? 0)%nat then None
  else
    Some (observedSlice Context Project
      (trim_space (context_header +:+ writeContextSection "Frequent paths:" pathTop
         +:+ writeContextSection "Frequent directories:" dirTop +:+ writeContextSection "Common command heads:" commandTop)) meta).

Definition result_meta (lines : list transcriptLine) (meta : SliceMeta) : SliceMeta :=
  let '(ev, ok) := resultVerifiedAfterLatestMutation lines in
  if ok then meta <| MetaResultStatus := ResultStatusVerified |> <| ResultVerifiedBy := "command"%string |> <| ResultVerificationEvidence := ev |>
  else meta <| MetaResultStatus := ResultStatusProbation |> <| ResultVerifiedBy := ""%string |> <| ResultVerificationEvidence := ""%string |>.

Definition answer_line (l : transcriptLine) : bool := (Role l =? "assistant")%string && (length (ToolCalls l) =? 0)%nat.
Definition finalResultSlice (lines : list transcriptLine) (meta : SliceMeta) : option Slice :=
  match find answer_line (rev lines) with
  | Some l => text_slice Result (result_meta lines meta) maxResultLen l
  | None => None
  end.

(** ** Extraction *)

(** The search alphabet of the index. *)
Definition searchable_rune (r : Z) : bool :=
  is_letter r || is_digit r || (r =? 95) || (is_han r || is_hiragana r || is_katakana r || is_hangul r).
Definition searchable (content : string) : bool := existsb searchable_rune (runes content).

Definition dedup_step (st : gset string * list Slice) (s : Slice) : gset string * list Slice :=
  let '(seen, out) := st in
  if negb (searchable (Content s)) then st
  else if bool_decide (ID s ∈ seen) then st else ({[ID s]} ∪ seen, out ++ [s]).
Definition dedup (slices : list Slice) : list Slice := (foldl dedup_step (∅, []) slices).2.

(** A turn starts at a user line. *)
Definition turn_step (st : list (list transcriptLine) * list transcriptLine) (l : transcriptLine) : list (list transcriptLine) * list transcriptLine :=
  let '(done, turn) := st in
  if (Role l =? "user")%string && negb (length turn =? 0)%nat then (done ++ [turn], [l]) else (done, turn ++ [l]).
Definition turns (lines : list transcriptLine) : list (list transcriptLine) :=
  let '(done, turn) := foldl turn_step ([], []) lines in if turn is [] then done else done ++ [turn].

Definition turn_slices (step_split : bool) (meta : SliceMeta) (turn : list transcriptLine) : list Slice :=
  option_list (promptSlice turn meta)
  ++ (if step_split then toolPatternSlicesStepSplit turn meta else option_list (toolPatternSlice turn meta)).

Definition extracted (step_split : bool) (lines : list transcriptLine) (meta : SliceMeta) : list Slice :=
  concat (map (turn_slices step_split meta) (turns lines)) ++ option_list (contextSlice lines meta) ++ option_list (finalResultSlice lines meta).

(** The slices and the error of a scan that was cut short. *)
Definition Extract (step_split : bool) (sessionJSONL : string) (meta : SliceMeta) : list Slice * option string :=
  let '(lines, perr) := parseTranscript sessionJSONL in (dedup (extracted step_split lines meta), perr).
End Extract.

(** ** Turns *)

Lemma turns_fold lines st : let st' := foldl turn_step st lines in
  (concat st'.1 ++ st'.2 = concat st.1 ++ st.2 ++ lines).
Proof.
  revert st. induction lines as [|l lines IH]; intros [done turn]; cbn; [by rewrite app_nil_r|]. rewrite IH. clear IH.
  unfold turn_step. destruct (_ && _); cbn [fst snd]; [rewrite concat_app; cbn [concat]; rewrite app_nil_r|]; by rewrite <- !app_assoc.
Qed.

Lemma concat_turns lines : concat (turns lines) = lines.
Proof.
  pose proof (turns_fold lines ([], [])) as Hf. cbv zeta in Hf. unfold turns. destruct (foldl turn_step ([], []) lines) as [done turn].
  cbn in Hf. destruct turn as [|l turn]; [by rewrite app_nil_r in Hf|]. rewrite concat_app. cbn [concat]. by rewrite app_nil_r.
Qed.

Lemma elem_of_turns lines turn l : turn ∈ turns lines -> l ∈ turn -> l ∈ lines.
Proof.
  intros Ht Hl. rewrite <- (concat_turns lines). apply list_elem_of_In, in_concat. exists turn. by rewrite <- !list_elem_of_In.
Qed.

(** ** Frequencies *)

Fixpoint occurrences (k : string) (l : list string) : Z :=
  match l with [] => 0 | x :: l => (if (x =? k)%string then 1 else 0) + occurrences k l end.

Lemma occurrences_range k l : 0 <= occurrences k l <= Z.of_nat (length l).
Proof. induction l as [|x l IH]; cbn [occurrences length]; [lia|]. destruct (x =? k)%string; lia. Qed.

Lemma counts_fold k l m : default 0 (foldl count_in m l !! k) = i64 (default 0 (m !! k) + occurrences k l) \/ default 0 (foldl count_in m l !! k) = default 0 (m !! k) /\ occurrences k l = 0.
Proof.
  revert m. induction l as [|x l IH]; intros m; cbn [foldl occurrences]; [by right|]. unfold count_in in *.
  specialize (IH (<[x := default 0 (m !! x) +! 1]> m)). destruct (String.eqb_spec x k) as [->|Hn].
  - rewrite lookup_insert_eq in IH. cbn [default] in IH. left. destruct IH as [-> |[-> ->]]; cbn; [by rewrite i64_add_idemp, Z.add_assoc|].
    by rewrite Z.add_0_r.
  - rewrite lookup_insert_ne in IH by done. by rewrite Z.add_0_l.
Qed.

(** Counting does not wrap before the list has 2^63 elements. *)
Lemma counts_of_spec l k : Z.of_nat (length l) < 2 ^ 63 -> default 0 (counts_of l !! k) = occurrences k l.
Proof.
  intros Hl. pose proof (occurrences_range k l). destruct (counts_fold k l ∅) as [E|[E ->]]; unfold counts_of; rewrite E, lookup_empty; cbn [default]; [|done].
  apply i64_id. unfold in_i64. lia.
Qed.

(** ** Deduplication *)

Section Dedup.
Context `{UnicodeClasses}.

Record deduped (slices : list Slice) (seen : gset string) (out : list Slice) : Prop := {
  de_seen : forall id, id ∈ seen <-> id ∈ map ID out;
  de_nodup : NoDup (map ID out);
  de_from : out `sublist_of` slices;
  de_words : Forall (fun s => searchable (Content s) = true) out;
  de_all : forall s, s ∈ slices -> searchable (Content s) = true -> ID s ∈ map ID out;
}.

Lemma dedup_step_spec slices seen out s : deduped slices seen out ->
  let st := dedup_step (seen, out) s in deduped (slices ++ [s]) st.1 st.2.
Proof.
  intros [Hs Hn Hf Hw Ha]. cbv zeta. unfold dedup_step.
  assert (Hsub : out `sublist_of` slices ++ [s]) by (by apply sublist_inserts_r).
  destruct (searchable (Content s)) eqn:Es; cbn [negb].
  2:{ split; cbn; try done. intros x [Hx| ->%list_elem_of_singleton]%elem_of_app Hc; [by apply Ha|congruence]. }
  destruct (bool_decide_reflect (ID s ∈ seen)) as [Hin|Hin]; cbn.
  - split; cbn; try done. intros x [Hx| ->%list_elem_of_singleton]%elem_of_app Hc; [by apply Ha|by apply Hs].
  - split.
    + intros id. rewrite elem_of_union, elem_of_singleton, Hs, map_app, elem_of_app. cbn. rewrite list_elem_of_singleton. tauto.
    + rewrite map_app. cbn. apply NoDup_app. split; [done|]. split; [|apply NoDup_singleton].
      intros id Hid ->%list_elem_of_singleton. by apply Hin, Hs.
    + by apply sublist_app.
    + apply Forall_app. split; [done|]. by repeat constructor.
    + intros x Hx Hc. rewrite map_app, elem_of_app. apply elem_of_app in Hx as [Hx| ->%list_elem_of_singleton]; [left; by apply Ha|].
      right. by apply list_elem_of_singleton.
Qed.

Lemma dedup_spec slices : exists seen, deduped slices seen (dedup slices).
Proof.
  exists (foldl dedup_step (∅, []) slices).1. unfold dedup. induction slices as [|s slices IH] using rev_ind.
  - split; cbn; [|constructor..|by intros s ?%not_elem_of_nil]. intros id. by rewrite elem_of_empty, elem_of_nil.
  - rewrite foldl_snoc. destruct (foldl dedup_step (∅, []) slices) as [seen out]. by apply dedup_step_spec.
Qed.

End Dedup.

#[local] Arguments Sanitize : simpl never.
#[local] Arguments sliceID : simpl never.
#[local] Arguments compressText : simpl never.

(** ** Where a slice comes from *)

Section Facts.
Context `{UnicodeLower} `{UnicodeClasses} `{TranscriptJson} (sha : string -> string) (clock : string -> Z).

Definition tool_names (lines : list transcriptLine) : list string := map fst (toolCallsOf lines).

(** The provenance a slice of this session may claim. *)
Definition provenance (lines : list transcriptLine) (meta : SliceMeta) (s : Slice) : Prop :=
  let verdict := resultVerifiedAfterLatestMutation lines in
  ID s = sliceID sha (Content s) (SType s) (SScope s)
  /\ SScope s = Project /\ Stats s = zero_stats /\ Weight s = f1
  /\ MetaOrigin (Meta s) = MetaOrigin meta /\ SourceSession (Meta s) = SourceSession meta /\ BaseCommit (Meta s) = BaseCommit meta
  /\ SanitizeVersion (Meta s) = sanitize_version
  /\ Historical (Meta s) = bool_decide (SType s = Context)
  /\ (SType s = Result -> MetaResultStatus (Meta s) = (if verdict.2 then ResultStatusVerified else ResultStatusProbation)
      /\ ResultVerificationEvidence (Meta s) = (if verdict.2 then verdict.1 else ""%string)).

(** What a slice holds, after sanitising. *)
Definition content_of (lines : list transcriptLine) (meta : SliceMeta) (s : Slice) : Prop :=
  match SType s with
  | Prompt => exists l, l ∈ lines /\ Role l = "user"%string /\ Content s = Sanitize (compressText (storedContent l) maxPromptLen)
  | ToolPattern => exists before names after, tool_names lines = before ++ names ++ after /\ (minToolSeq <= length names)%nat
      /\ Content s = Sanitize (join " " names)
  | Context => contextSlice sha clock lines meta = Some s
  | Result => exists before l after, lines = before ++ l :: after /\ answer_line l = true /\ forallb (fun x => negb (answer_line x)) after = true
      /\ Content s = Sanitize (compressText (storedContent l) maxResultLen)
  | _ => False
  end.

Definition well_made (lines : list transcriptLine) (meta : SliceMeta) (s : Slice) : Prop :=
  provenance lines meta s /\ content_of lines meta s.

Lemma newSlice_provenance lines meta t content meta' :
  (t = Prompt \/ t = ToolPattern) -> MetaOrigin meta' = MetaOrigin meta -> SourceSession meta' = SourceSession meta -> BaseCommit meta' = BaseCommit meta ->
  provenance lines meta (newSlice sha clock t Project content meta').
Proof. intros Ht E1 E2 E3. unfold provenance. destruct Ht as [-> | ->]; cbn; rewrite ?E1, ?E2, ?E3; repeat split; done. Qed.

Lemma text_slice_some t meta max l s : text_slice sha clock t meta max l = Some s ->
  s = newSlice sha clock t Project (compressText (storedContent l) max) (compressionMeta meta (storedContent l) (compressText (storedContent l) max)).
Proof. unfold text_slice. destruct (_ =? "")%string; congruence. Qed.

Lemma promptSlice_made lines turn meta s : turn ∈ turns lines -> promptSlice sha clock turn meta = Some s -> well_made lines meta s.
Proof.
  intros Ht. unfold promptSlice. destruct (find _ turn) as [l|] eqn:Ef; [|done]. intros ->%text_slice_some.
  apply find_some in Ef as [Hl%list_elem_of_In Hr%String.eqb_eq]. split; [apply newSlice_provenance; try done; by left|].
  exists l. split; [by eapply elem_of_turns|]. done.
Qed.

Lemma tool_names_app l1 l2 : tool_names (l1 ++ l2) = tool_names l1 ++ tool_names l2.
Proof. unfold tool_names, toolCallsOf. by rewrite map_app, concat_app, List.filter_app, !map_app. Qed.

(** The names of a turn are a part of those of the session. *)
Lemma turn_names lines turn : turn ∈ turns lines -> exists before after, tool_names lines = before ++ tool_names turn ++ after.
Proof.
  intros (l1 & l2 & E)%list_elem_of_split. exists (tool_names (concat l1)), (tool_names (concat l2)).
  rewrite <- (concat_turns lines), E, concat_app. cbn [concat]. by rewrite !tool_names_app.
Qed.

Lemma toolPatternSlice_made lines turn meta s : turn ∈ turns lines -> toolPatternSlice sha clock turn meta = Some s -> well_made lines meta s.
Proof.
  intros (before & after & E)%turn_names. unfold toolPatternSlice. fold (tool_names turn).
  destruct (Nat.ltb_spec (length (tool_names turn)) minToolSeq) as [|Hlen]; [done|]. intros [= <-].
  split; [apply newSlice_provenance; try done; by right|]. by exists before, (tool_names turn), after.
Qed.

(** The segments hold the calls in order; only the last call of one is a
    verification, and each but the last ends with one. *)
Lemma segments_spec calls : forall seg,
  concat (segments seg calls) = seg ++ map fst calls
  /\ forall x, x ∈ segments seg calls -> exists before after, seg ++ map fst calls = before ++ x ++ after.
Proof.
  induction calls as [|c calls IH]; intros seg; cbn [segments map].
  { cbn. split; [done|]. intros x ->%list_elem_of_singleton. exists [], []. by rewrite !app_nil_r. }
  replace (seg ++ c.1 :: map fst calls) with ((seg ++ [c.1]) ++ map fst calls) by (by rewrite <- app_assoc).
  destruct (verifyBoundary c); [|apply IH]. destruct (IH []) as [Hc Hp]. cbn [concat]. rewrite Hc. split; [done|].
  intros x [->|Hx]%elem_of_cons; [by exists [], (map fst calls)|]. destruct (Hp x Hx) as (b & a & E). exists ((seg ++ [c.1]) ++ b), a.
  cbn [app] in E. by rewrite E, !app_assoc.
Qed.

Lemma stepSplit_made lines turn meta s : turn ∈ turns lines -> s ∈ toolPatternSlicesStepSplit sha clock turn meta -> well_made lines meta s.
Proof.
  intros (before & after & E)%turn_names (seg & -> & Hs)%list_elem_of_fmap.
  apply list_elem_of_In, filter_In in Hs as [Hs%list_elem_of_In Hlen%Nat.leb_le].
  split; [apply newSlice_provenance; try done; by right|]. destruct (segments_spec (toolCallsOf turn) []) as [_ Hseg].
  destruct (Hseg seg Hs) as (b & a & Es). cbn [app] in Es. exists (before ++ b), seg, (a ++ after).
  unfold tool_names in E |- *. rewrite E, Es. split; [by rewrite <- !app_assoc|]. done.
Qed.

Lemma contextSlice_made lines meta s : contextSlice sha clock lines meta = Some s -> well_made lines meta s.
Proof.
  intros E. assert (Ht : SType s = Context) by (unfold contextSlice in E; by go_inv E). split; [|unfold content_of; by rewrite Ht].
  unfold contextSlice in E. destruct (_ =? 0)%nat; [done|]. injection E as <-. unfold provenance. cbn. repeat split; done.
Qed.

Lemma find_rev lines l : find answer_line (rev lines) = Some l ->
  exists before after, lines = before ++ l :: after /\ answer_line l = true /\ forallb (fun x => negb (answer_line x)) after = true.
Proof.
  induction lines as [|x lines IH] using rev_ind; [done|]. rewrite rev_app_distr. cbn [rev app find]. destruct (answer_line x) eqn:Ex.
  - intros [= <-]. by exists lines, [].
  - intros (b & a & -> & Hl & Ha)%IH. exists b, (a ++ [x]). rewrite <- app_assoc. split; [done|]. split; [done|].
    rewrite forallb_app, Ha. cbn. by rewrite Ex.
Qed.

Lemma finalResultSlice_made lines meta s : finalResultSlice sha clock lines meta = Some s -> well_made lines meta s.
Proof.
  unfold finalResultSlice. destruct (find _ _) as [l|] eqn:Ef; [|done]. intros ->%text_slice_some.
  apply find_rev in Ef as (b & a & E & Hl & Ha). split; [|by exists b, l, a].
  unfold provenance, result_meta. destruct (resultVerifiedAfterLatestMutation lines) as [ev []]; cbn; repeat split; done.
Qed.

Lemma elem_of_option {A} (o : option A) x : x ∈ option_list o -> o = Some x.
Proof. destruct o as [y|]; cbn; [by intros ->%list_elem_of_singleton|by intros ?%not_elem_of_nil]. Qed.

Lemma extracted_made step lines meta s : s ∈ extracted sha clock step lines meta -> well_made lines meta s.
Proof.
  unfold extracted. rewrite !elem_of_app. intros [Hs|[Hs|Hs]].
  - apply list_elem_of_In, in_concat in Hs as (ss & (turn & <- & Ht)%in_map_iff & Hs). rewrite <- list_elem_of_In in Hs. rewrite <- list_elem_of_In in Ht.
    unfold turn_slices in Hs. apply elem_of_app in Hs as [Hs|Hs].
    + apply elem_of_option in Hs. by eapply promptSlice_made.
    + destruct step; [by eapply stepSplit_made|]. apply elem_of_option in Hs. by eapply toolPatternSlice_made.
  - apply elem_of_option in Hs. by eapply contextSlice_made.
  - apply elem_of_option in Hs. by eapply finalResultSlice_made.
Qed.

(** ** Properties *)

(** C32: Whatever the transcript and the caller's metadata, every extracted slice is what
    it says: its identifier is that of its sanitised content, type and scope, no two
    share one, it can be found by a word, it has the project's scope and no
    statistics yet, only a tool-observation summary is marked historical, and a result
    is verified only when the transcript shows it.  A prompt is the compressed text of a
    user line, a tool pattern names consecutive calls of the session, the result is the
    last answer without tool calls; and every candidate with a word has its identifier
    among the slices. *)
Theorem Extract_sound step data meta :
  let lines := (parseTranscript data).1 in
  let out := (Extract sha clock step data meta).1 in
  NoDup (map ID out)
  /\ Forall (fun s => searchable (Content s) = true /\ well_made lines meta s) out
  /\ Forall (fun s => searchable (Content s) = true -> ID s ∈ map ID out) (extracted sha clock step lines meta).
Proof.
  unfold Extract. destruct (parseTranscript data) as [lines perr]. cbn [fst]. cbv zeta.
  destruct (dedup_spec (extracted sha clock step lines meta)) as [seen [_ Hn Hf Hw Ha]]. split; [done|]. split.
  - apply Forall_forall. intros s Hs. split; [rewrite Forall_forall in Hw; by apply Hw|]. apply (extracted_made step).
    by eapply elem_of_sublist.
  - apply Forall_forall. intros s Hs Hc. by apply Ha.
Qed.
End Facts.

(** ** The most frequent values *)

Lemma entry_asym a b : entry_less a b = true -> entry_less b a = false.
Proof.
  unfold entry_less. destruct (Z.eqb_spec (count a) (count b)) as [E|Hn].
  - rewrite E, Z.eqb_refl. auto with go.
  - destruct (Z.eqb_spec (count b) (count a)); [lia|]. intros ?%Z.ltb_lt. apply Z.ltb_ge. lia.
Qed.

Lemma entry_cotrans a b c : not_after entry_less a b -> not_after entry_less b c -> not_after entry_less a c.
Proof.
  unfold not_after, entry_less. intros Hab Hbc.
  destruct (Z.eqb_spec (count b) (count a)), (Z.eqb_spec (count c) (count b)), (Z.eqb_spec (count c) (count a)); try lia;
    repeat match goal with Hx : (_ <? _) = false |- _ => apply Z.ltb_ge in Hx end; try lia; try (apply Z.ltb_ge; lia).
  by eapply string_less_cotrans.
Qed.

Definition frequent (counts : gmap string Z) : list contextEntry :=
  map (fun e => mkEntry e.1 e.2) (List.filter (fun e => minContextUse <=? e.2) (map_to_list counts)).

Lemma elem_of_frequent counts e : e ∈ frequent counts <-> counts !! value e = Some (count e) /\ minContextUse <= count e.
Proof.
  unfold frequent. rewrite list_elem_of_In, in_map_iff. split.
  - intros ([k n] & <- & [Hin Hc]%filter_In). apply list_elem_of_In, elem_of_map_to_list in Hin. cbn in *. split; [done|]. by apply Z.leb_le.
  - intros [Hl Hc]. exists (value e, count e). split; [by destruct e|]. apply filter_In. split; [|by apply Z.leb_le].
    apply list_elem_of_In. by apply elem_of_map_to_list.
Qed.

(** The retained values are used as often as they say, at least twice, in descending
    order; a value that is left out comes after every retained one, and is left out only
    because the section is full. *)
Lemma context_top l : Z.of_nat (length l) < 2 ^ 63 ->
  let top := topContextEntries (counts_of l) in
  (length top <= maxContextTop)%nat
  /\ StronglySorted (not_after entry_less) top
  /\ Forall (fun e => count e = occurrences (value e) l /\ minContextUse <= count e) top
  /\ forall k, minContextUse <= occurrences k l -> mkEntry k (occurrences k l) ∈ top
       \/ length top = maxContextTop /\ Forall (fun e => entry_less (mkEntry k (occurrences k l)) e = false) top.
Proof.
  intros Hl. cbv zeta. unfold topContextEntries. fold (frequent (counts_of l)). set (all := frequent (counts_of l)).
  assert (Hall : forall e, e ∈ all <-> count e = occurrences (value e) l /\ minContextUse <= count e).
  { intros e. unfold all. rewrite elem_of_frequent, <- (counts_of_spec l) by done. unfold minContextUse.
    destruct (counts_of l !! value e); cbn; split; intros [? ?]; try (split; [congruence|done]); try done; lia. }
  assert (Hs : StronglySorted (not_after entry_less) (go_sort entry_less all)).
  { apply (go_sort_sorted _ (fun _ => True)); [intros ? ? _ _; apply entry_asym|intros ? ? ? _ _ _; apply entry_cotrans|by apply Forall_true]. }
  split; [rewrite length_take; lia|]. split; [by apply StronglySorted_take|]. split.
  - apply Forall_forall. intros e He. apply Hall. rewrite <- (elem_of_go_sort entry_less). apply (elem_of_sublist _ _ _ He), sublist_take.
  - intros k Hk. assert (Hin : mkEntry k (occurrences k l) ∈ go_sort entry_less all) by by apply elem_of_go_sort, Hall.
    rewrite <- (take_drop maxContextTop (go_sort entry_less all)) in Hin, Hs.
    apply elem_of_app in Hin as [Hin|Hin]; [by left|]. right. split.
    + rewrite length_take. apply list_elem_of_lookup in Hin as [i Hi%lookup_lt_Some]. rewrite length_drop in Hi. lia.
    + apply Forall_forall. intros e He. exact (StronglySorted_app_1_elem_of _ _ _ _ _ Hs He Hin).
Qed.

(** ** A session: an edit, a pass, and the answer *)

Module ExtractSample.
Definition user (s : string) : transcriptLine := mkLine "user" "" s "" "" "" "" false [].
Definition calls (cs : list tool_call) : transcriptLine := mkLine "assistant" "" "" "" "" "" "" false cs.
Definition edited : transcriptLine := mkLine "tool" "tool" "edited parser.go" "" "edit_file" "edit" "" true [].
Definition passed (id : string) : transcriptLine := mkLine "tool" "tool" "ok" "" "bash" id "passed" false [].
Definition answer : transcriptLine := mkLine "assistant" "" "The parser change is complete." "" "" "" "" false [].
Definition run (id : string) : tool_call := mkCall id "bash" "T".
Definition read (id : string) : tool_call := mkCall id "read_file" "P".
Definition session : list transcriptLine :=
  [user "Fix the parser"; calls [mkCall "edit" "edit_file" "P"; read "r"]; edited; calls [run "pass"]; passed "pass"; answer].
Definition data : string := "0
1
x
2
3
4
5".
#[export] Instance codec : TranscriptJson := {|
  line_of_json s := if decide (s = "x"%string) then None else session !! N.to_nat (default 0%N (match s with String c _ => Some (N_of_ascii c - 48)%N | _ => None end));
  any_of_json s := if decide (s = "T"%string) then Some (keyed [("command"%string, JString "go test ./...")])
                   else if decide (s = "P"%string) then Some (keyed [("path"%string, JString "kernel/parser.go")]) else None;
|}.
#[export] Instance lower : UnicodeLower := ascii_lower.
#[export] Instance classes : UnicodeClasses := ascii_classes.
Definition sha (s : string) : string := s.
Definition meta : SliceMeta := zero_meta <| MetaOrigin := OriginSessionAuto |>.

Example session_slices :
  map (fun s => (SType s, Content s, MetaResultStatus (Meta s))) (Extract sha (fun _ => 0) false data meta).1
  = [(Prompt, "Fix the parser", ""); (ToolPattern, "edit_file read_file bash", "");
     (Context, trim_space (context_header +:+ writeContextSection "Frequent paths:" [mkEntry "kernel/parser.go" 2]
        +:+ writeContextSection "Frequent directories:" [mkEntry "kernel" 2]), "");
     (Result, "The parser change is complete.", "verified")]%string.
Proof. by vm_compute. Qed.

(** A mirror copy of the pass, or a later run without an answer, verifies nothing. *)
Example mirrored : (resultVerifiedAfterLatestMutation (session ++ [edited <| ToolCall := "edit2"%string |>; passed "pass"])).2 = false.
Proof. by vm_compute. Qed.
Example unanswered : (resultVerifiedAfterLatestMutation (session ++ [calls [run "next"]])).2 = false.
Proof. by vm_compute. Qed.
Example evidence_command : resultVerifiedAfterLatestMutation session = ("go test ./..."%string, true).
Proof. by vm_compute. Qed.
End ExtractSample.
