(* ===== verification/Distill.v ===== *)
(** kernel/slice/distill.go: the cards of a session - the observed commands and
    pitfalls, the plan skeleton and the outcome.

    [equal_fold] is [strings.EqualFold], whose tables are outside; [sha] and [clock]
    are those of Extract.v. *)

From Stdlib Require Import ZArith Lia Bool Ascii String Sorted.
From stdpp Require Import tactics base option list sorting gmap pretty strings.
From S2P Require Import Prelude Float64 GoStrings GoPath Json Utf8 Text Blank Compress Task Sanitize Slice Transcript Extract.

#[global] Open Scope Z_scope.

Definition maxVerifiedCommands : nat := 8.
Definition maxCommandLen : nat := 160.
Definition maxPitfalls : nat := 6.
Definition maxPitfallLen : nat := 120.
Definition maxEditedFiles : nat := 10.
Definition maxSummaryLen : nat := 240.
Definition maxSkeletonStages : nat := 24.

(** ** Cutting *)

Definition ellipsis : string := "…".
Definition shortened (limit : nat) (s : string) : string :=
  if (limit <? String.length s)%nat then string_take limit s +:+ ellipsis else s.

Definition first_of_lines (s : string) : string := match cut lf_string s with Some (a, _) => a | None => s end.
Definition firstLine (s : string) (limit : nat) : string := shortened limit (trim_space (first_of_lines s)).

Definition normalizeCommand (cmd : string) : string :=
  let cmd := trim_space cmd in
  let cmd := if has_prefix cmd "cd " then match cut "&&" cmd with Some (_, rest) => trim_space rest | None => cmd end else cmd in
  shortened maxCommandLen cmd.

(** [strings.SplitN(s, lf, n)]: the last piece is the rest, newlines included. *)
Fixpoint split_n (n : nat) (s : string) : list string :=
  match n with
  | O => []
  | 1%nat => [s]
  | S m => match cut lf_string s with Some (a, b) => a :: split_n m b | None => [s] end
  end.

Definition editReceiptPaths (result : string) : list string :=
  omap (fun line =>
    let line := trim_space line in
    match after_prefix "edited " line with
    | Some p => Some (trim_space p)
    | None => match cut " bytes to " line with
              | Some (_, rest) => if has_prefix line "wrote " then Some (trim_space rest) else None
              | None => None
              end
    end) (split_n 4 result).

Fixpoint summarize (lines : list string) : string :=
  match lines with
  | [] => ""
  | line :: rest =>
      let line := trim_space line in
      if (line =? "")%string || has_prefix line "<" then summarize rest else shortened maxSummaryLen line
  end.
Definition summarizeTask (text : string) : string := summarize (split_lines text).

(** Up to the first character of a set: [s[:strings.IndexAny(s, set)]]. *)
Fixpoint until_any (set s : string) : string :=
  match s with EmptyString => "" | String c t => if one_char set c then "" else String c (until_any set t) end.

(** ** The document *)

(** Results are kept by the ID of their call, calls in the order they were first seen. *)
Record distillDoc := mkDoc {
  userText : string;
  doc_calls : list tool_call;
  doc_results : gmap string transcriptLine;
  verificationLines : list transcriptLine;
}.
#[export] Instance distillDoc_eta : Eta distillDoc := fun r => mkDoc (userText r) (doc_calls r) (doc_results r) (verificationLines r).

Definition has_call (id : string) (l : list tool_call) : bool := existsb (fun c => (call_id c =? id)%string) l.

(** Streamed mirrors repeat a call; the longest arguments stay. *)
Definition add_call (l : list tool_call) (tc : tool_call) : list tool_call :=
  if (call_id tc =? "")%string || (call_name tc =? "")%string then l
  else if has_call (call_id tc) l then
    map (fun c => if (call_id c =? call_id tc)%string && (slen (call_args c) <? slen (call_args tc))
                  then mkCall (call_id c) (call_name c) (call_args tc) else c) l
  else l ++ [tc].

Definition distill_line (doc : distillDoc) (dl : transcriptLine) : distillDoc :=
  if (Role dl =? "user")%string then
    let text := storedContent dl in
    if (userText doc =? "")%string && negb (trim_space text =? "")%string then doc <| userText := text |> else doc
  else if (Role dl =? "assistant")%string then
    doc <| verificationLines ::= fun l => l ++ [dl] |> <| doc_calls ::= fun l => foldl add_call l (ToolCalls dl) |>
  else if ((Role dl =? "")%string || (Role dl =? "tool")%string) && negb (ToolCall dl =? "")%string then
    if bool_decide (is_Some (doc_results doc !! ToolCall dl)) then doc
    else let dl := dl <| Role := "tool"%string |> in
         doc <| doc_results ::= <[ToolCall dl := dl]> |> <| verificationLines ::= fun l => l ++ [dl] |>
  else doc.

(** ** Cards *)

Definition pitfallPatterns : list string :=
  ["blocked:"; "outside the writable roots"; "no module named"; "modulenotfounderror"; "importerror"; "command not found"; "permission denied"]%string.

Record observed := mkObserved { obs_command : string; obs_outcome : string }.

(** The freshest outcome of a command stays, at the place it was first seen. *)
Definition observe (l : list observed) (o : observed) : list observed :=
  if existsb (fun x => (obs_command x =? obs_command o)%string) l
  then map (fun x => if (obs_command x =? obs_command o)%string then o else x) l
  else l ++ [o].

Definition pitfall_less (counts : gmap string Z) (a b : string) : bool :=
  let ca := default 0 (counts !! a) in
  let cb := default 0 (counts !! b) in
  if ca =? cb then string_less a b else cb <? ca.

Record stageRun := mkRun { stage : string; runs : Z }.
Definition add_stage (l : list stageRun) (s : string) : list stageRun :=
  if (s =? "")%string then l
  else match last l with
       | Some r => if (stage r =? s)%string then removelast l ++ [mkRun s (runs r +! 1)] else l ++ [mkRun s 1]
       | None => l ++ [mkRun s 1]
       end.

Definition commandOutcome (result : option transcriptLine) : option string :=
  match result with
  | None => None
  | Some r =>
      if (Verification r =? "passed")%string then Some "ok"%string
      else if (Verification r =? "failed")%string then Some "failed"%string
      else match last_cut "exit status " (LContent r) with
           | Some (_, rest) =>
               let code := trim_space (firstLine rest 8) in
               Some (if (code =? "")%string then "unknown"%string else "exit " +:+ code)
           | None => Some "unknown"%string
           end
  end.

Section Cards.
Context `{UnicodeLower} `{UnicodeClasses} `{TranscriptJson} (equal_fold : string -> string -> bool)
  (sha : string -> string) (clock : string -> Z).

Definition verified_by (doc : distillDoc) : string :=
  let '(ev, ok) := resultVerifiedAfterLatestMutation (verificationLines doc) in
  if ok then normalizeCommand ev else "".

Definition parseDistillDoc (data : string) : distillDoc * option string :=
  let '(ts, e) := scan (split_lines data) in
  (foldl distill_line (mkDoc "" [] ∅ []) (omap decode_line ts), e).

Definition isBuildCommand (cmd : string) : bool :=
  let l := to_lower cmd in
  contains l "install" || contains l "setup.py" || contains l " build"
  || (has_prefix l "make" || has_prefix l "cargo build" || has_prefix l "go build").

Definition result_of (doc : distillDoc) (c : tool_call) : option transcriptLine := doc_results doc !! call_id c.

(** The pitfall a result tells. *)
Definition pitfall_of (doc : distillDoc) (c : tool_call) : option string :=
  match result_of doc c with
  | None => None
  | Some r =>
      let head := string_take 200 (to_lower (trim_space (LContent r))) in
      if existsb (contains head) pitfallPatterns then Some (firstLine (LContent r) maxPitfallLen) else None
  end.

(** The command of a call and its outcome. *)
Definition observation (doc : distillDoc) (c : tool_call) : option observed :=
  if negb (listed shellToolNames (to_lower (call_name c))) then None
  else
    let cmd := normalizeCommand (commandValue (decodeToolArgs (call_args c))) in
    if (cmd =? "")%string || negb (isTestCommand cmd || isBuildCommand cmd) then None
    else match commandOutcome (result_of doc c) with
         | Some o => if (o =? "")%string then None else Some (mkObserved cmd o)
         | None => None
         end.

Definition commands_of (doc : distillDoc) : list observed := foldl observe [] (omap (observation doc) (doc_calls doc)).
Definition pitfalls_of (doc : distillDoc) : list string := omap (pitfall_of doc) (doc_calls doc).

(** The values in the order they were first seen. *)
Definition first_seen (l : list string) : list string :=
  foldl (fun acc x => if existsb (String.eqb x) acc then acc else acc ++ [x]) [] l.

Definition command_line (o : observed) : string := "- " +:+ obs_command o +:+ " (" +:+ obs_outcome o +:+ ")" +:+ lf_string.
Definition pitfall_line (counts : gmap string Z) (p : string) : string :=
  "- " +:+ p +:+ " (seen " +:+ itoa (default 0 (counts !! p)) +:+ ")" +:+ lf_string.

(** The text of the repo-operations card. *)
Definition repo_ops_text (doc : distillDoc) : option string :=
  let commands := commands_of doc in
  let counts := counts_of (pitfalls_of doc) in
  let order := first_seen (pitfalls_of doc) in
  if (length commands + length order =? 0)%nat then None
  else
    let commands := take maxVerifiedCommands commands in
    let order := take maxPitfalls (go_sort (pitfall_less counts) order) in
    Some (trim_space ("Repo operations (distilled from session):" +:+ lf_string
      +:+ (if commands is [] then "" else "Observed commands:" +:+ lf_string +:+ join "" (map command_line commands))
      +:+ (if order is [] then "" else "Known pitfalls:" +:+ lf_string +:+ join "" (map (pitfall_line counts) order)))).

Definition repoOpsSlice (doc : distillDoc) (meta : SliceMeta) : option Slice :=
  (fun text => observedSlice sha clock Context Project text meta) <$> repo_ops_text doc.

Definition locate_commands : list string := ["rg"; "grep"; "find"; "ls"; "cat"; "head"; "tail"; "git"; "sed"; "awk"]%string.

Definition shell_stage (cmd : string) : string :=
  if (cmd =? "")%string then ""
  else if contains cmd "repro" then "reproduce"
  else match fields cmd with
       | h :: _ => if listed locate_commands h then "locate" else if listed ["python"; "python3"]%string h then "reproduce" else ""
       | [] => ""
       end.

Definition stageOf (call : tool_call) : string :=
  let name := to_lower (call_name call) in
  let args := decodeToolArgs (call_args call) in
  if verifyBoundary (name, args) then "verify"
  else if listed shellToolNames name then shell_stage (to_lower (normalizeCommand (commandValue args)))
  else if existsb (contains name) ["read"; "grep"; "search"; "find"; "list"; "glob"]%string then "locate"
  else if existsb (contains name) ["edit"; "write"; "patch"; "replace"]%string then
    if existsb (fun p => contains (to_lower p) "repro") (contextPaths args) then "reproduce" else "edit"
  else "".

Definition run_text (r : stageRun) : string :=
  if 1 <? runs r then stage r +:+ "(×" +:+ itoa (runs r) +:+ ")" else stage r.

Definition planSkeletonSlice (doc : distillDoc) (meta : SliceMeta) : option Slice :=
  let rs := foldl add_stage [] (map stageOf (doc_calls doc)) in
  if (length rs <? 2)%nat then None
  else
    let parts := map run_text (take maxSkeletonStages rs) ++ (if (maxSkeletonStages <? length rs)%nat then [ellipsis] else []) in
    Some (observedSlice sha clock Memory Project
      ("Plan skeleton (task=" +:+ TaskType meta +:+ "):" +:+ lf_string +:+ join " → " parts) meta).

(** ** The outcome *)

Definition slashed_path (p : string) : string := replace_all p (String backslash "") "/".

Definition cd_root (c : tool_call) : option string :=
  if negb (listed shellToolNames (to_lower (call_name c))) then None
  else
    match after_prefix "cd " (trim_space (commandValue (decodeToolArgs (call_args c)))) with
    | None => None
    | Some target =>
        let target := trim_right (trim_space (until_any (" " +:+ String (ascii_of 9) "&;") target)) "/" in
        if (target =? "")%string then None else Some target
    end.

Definition cdRoots (doc : distillDoc) : list string :=
  go_sort (fun a b => slen b <? slen a) (first_seen (omap cd_root (doc_calls doc))).

Definition windows_path (p : string) : bool :=
  match p with String _ (String c (String d _)) => Ascii.eqb c ":" && Ascii.eqb d "/" | _ => false end.

Fixpoint stripRoots (p : string) (roots : list string) : string :=
  match roots with
  | [] => p
  | r :: rest =>
      let prefix := trim_right (slashed_path r) "/" +:+ "/" in
      match after_prefix prefix p with
      | Some q => q
      | None =>
          if windows_path p && (String.length prefix <=? String.length p)%nat && equal_fold (string_take (String.length prefix) p) prefix
          then string_drop (String.length prefix) p
          else stripRoots p rest
      end
  end.

Definition edited_files (doc : distillDoc) : list string :=
  first_seen (map (fun p => stripRoots (slashed_path p) (cdRoots doc))
    (concat (map (fun c => match result_of doc c with Some r => editReceiptPaths (LContent r) | None => [] end) (doc_calls doc)))).

Definition outcome_text (doc : distillDoc) (taskType : string) : option string :=
  let summary := summarizeTask (userText doc) in
  if (summary =? "")%string then None
  else
    match edited_files doc with
    | [] => None
    | edited =>
        Some (trim_space ("Task outcome (task=" +:+ taskType +:+ "): " +:+ summary +:+ lf_string +:+ "Edited:" +:+ lf_string
          +:+ join "" (map (fun p => "- " +:+ p +:+ lf_string) (take maxEditedFiles edited))
          +:+ (if (verified_by doc =? "")%string then "" else "Verified-by: " +:+ verified_by doc +:+ lf_string)))
    end.

Definition outcomeSlice (doc : distillDoc) (meta : SliceMeta) : option Slice :=
  (fun text => observedSlice sha clock Memory Project text meta) <$> outcome_text doc (TaskType meta).

(** ** Distillation *)

Definition task_meta (doc : distillDoc) (meta : SliceMeta) : SliceMeta :=
  if (TaskType meta =? "")%string then meta <| TaskType := ClassifyTask (userText doc) |> else meta.

(** The cards, or the error of the scan. *)
Definition Distill (sessionJSONL : string) (meta : SliceMeta) : result (list Slice) :=
  match parseDistillDoc sessionJSONL with
  | (_, Some e) => Err e
  | (doc, None) =>
      let doc := doc <| userText ::= TaskBody |> in
      let meta := task_meta doc meta in
      Ok (dedup (option_list (repoOpsSlice doc meta) ++ option_list (planSkeletonSlice doc meta) ++ option_list (outcomeSlice doc meta)))
  end.
End Cards.

(** ** Lengths *)








(** ** Observed commands *)




Section Facts.
Context `{UnicodeLower} `{UnicodeClasses} `{TranscriptJson} (equal_fold : string -> string -> bool)
  (sha : string -> string) (clock : string -> Z).






(** ** Properties *)


(** A session that was read in full gives at most three cards, all historical
    observations of the project with distinct identifiers, that can be found by a word;
    one that was cut short gives none. *)
Theorem Distill_sound data meta cards :
  Distill equal_fold sha clock data meta = Ok cards ->
  (parseDistillDoc data).2 = None /\ (length cards <= 3)%nat /\ NoDup (map ID cards)
  /\ Forall (fun s => searchable (Content s) = true /\ Historical (Meta s) = true /\ (SType s = Context \/ SType s = Memory)
       /\ SScope s = Project /\ ID s = sliceID sha (Content s) (SType s) (SScope s) /\ MetaOrigin (Meta s) = MetaOrigin meta) cards.
Proof.
  unfold Distill. destruct (parseDistillDoc data) as [doc0 [e|]]; [done|]. cbv zeta.
  set (doc := doc0 <| userText ::= TaskBody |>). clearbody doc. set (m := task_meta doc meta).
  assert (Hm : MetaOrigin m = MetaOrigin meta) by (unfold m, task_meta; by destruct (_ =? "")%string). clearbody m.
  intros [= <-]. split; [done|]. set (l := _ ++ _). destruct (dedup_spec l) as [seen [_ Hn Hf Hw _]]. split.
  { apply sublist_length in Hf. etrans; [exact Hf|]. unfold l. rewrite !length_app.
    assert (Ho : forall o : option Slice, (length (option_list o) <= 1)%nat) by (intros []; cbn; lia).
    pose proof (Ho (repoOpsSlice sha clock doc m)). pose proof (Ho (planSkeletonSlice sha clock doc m)).
    pose proof (Ho (outcomeSlice equal_fold sha clock doc m)). lia. }
  split; [done|]. apply Forall_forall. intros s Hs. split; [rewrite Forall_forall in Hw; by apply Hw|].
  assert (Hobs : forall t text, t = Context \/ t = Memory -> let c := observedSlice sha clock t Project text m in
    Historical (Meta c) = true /\ (SType c = Context \/ SType c = Memory)
       /\ SScope c = Project /\ ID c = sliceID sha (Content c) (SType c) (SScope c) /\ MetaOrigin (Meta c) = MetaOrigin meta).
  { intros t text Ht c. split; [done|]. split; [done|]. split; [done|]. split; [done|]. exact Hm. }
  apply (elem_of_sublist _ _ _ Hs) in Hf. unfold l in Hf. apply elem_of_app in Hf as [Hf|[Hf|Hf]%elem_of_app]; apply elem_of_option in Hf.
  - unfold repoOpsSlice in Hf. destruct (repo_ops_text doc) as [text|]; [|done]. injection Hf as <-. apply Hobs. by left.
  - unfold planSkeletonSlice in Hf. destruct (_ <? 2)%nat; [done|]. injection Hf as <-. apply Hobs. by right.
  - unfold outcomeSlice in Hf. destruct (outcome_text _ doc _) as [text|]; [|done]. injection Hf as <-. apply Hobs. by right.
Qed.
End Facts.

(** ** A session *)

Module DistillSample.
Import ExtractSample.
Definition fold_eq (a b : string) : bool := (asciiLower a =? asciiLower b)%string.

Definition receipt (n : nat) : transcriptLine := edited <| LContent := "edited " +:+ bytes_string (repeat 97 n) |>.
Definition doc (n : nat) : distillDoc := mkDoc "Fix it." [mkCall "edit" "edit_file" "P"] (<["edit"%string := receipt n]> ∅) [].

Example session_cards :
  match Distill fold_eq sha (fun _ => 0) data meta with
  | Ok cards => map Content cards
  | Err _ => []
  end = ["Repo operations (distilled from session):" +:+ lf_string +:+ "Observed commands:" +:+ lf_string +:+ "- go test ./... (ok)";
         "Plan skeleton (task=bugfix):" +:+ lf_string +:+ "edit → locate → verify";
         "Task outcome (task=bugfix): Fix the parser" +:+ lf_string +:+ "Edited:" +:+ lf_string +:+ "- parser.go" +:+ lf_string
           +:+ "Verified-by: go test ./..."]%string.
Proof. by vm_compute. Qed.

(** An outcome card is as long as the paths of its receipts: it can outgrow the whole
    injection budget of 4096 bytes. *)
Theorem outcome_unbounded : exists text, outcome_text fold_eq (doc (Z.to_nat 5000)) "bugfix" = Some text /\ 4096 < slen text.
Proof. eexists. split; [vm_compute; reflexivity|by vm_compute]. Qed.

(** Short addresses in the commands and in the answers: a text of less than 2500 bytes
    makes a card of more than the budget of 4096. *)
Definition addresses (n : nat) : string := join " " (repeat "a@b.cc"%string n).
Definition literal : TranscriptJson :=
  {| line_of_json := fun _ => None; any_of_json := fun s => Some (keyed [("command"%string, JString s)]) |}.
Definition mail_call (i : nat) : tool_call := mkCall (itoa (Z.of_nat i)) "bash" ("go test " +:+ itoa (Z.of_nat i) +:+ " " +:+ addresses 20).
Definition mail_answer (i : nat) : transcriptLine := passed (itoa (Z.of_nat i)) <| LContent := "blocked: " +:+ itoa (Z.of_nat i) +:+ " " +:+ addresses 15 |>.
Definition mails : distillDoc :=
  mkDoc "" (map mail_call (seq 0 8)) (list_to_map (map (fun i => (itoa (Z.of_nat i), mail_answer i)) (seq 0 8))) [].

Example card_outgrows :
  match @repo_ops_text lower literal mails, @repoOpsSlice lower classes literal sha (fun _ => 0) mails meta with
  | Some text, Some card => (slen text <? 2500) && (4096 <? slen (Content card))
  | _, _ => false
  end = true.
Proof. by vm_compute. Qed.

(** The fourth line of a receipt is the rest of it. *)
Example receipt_rest :
  editReceiptPaths (join lf_string ["a"; "b"; "c"; "edited x.go"; "done"]) = ["x.go" +:+ lf_string +:+ "done"]%string.
Proof. by vm_compute. Qed.
End DistillSample.

Lemma Distill_sound_witness :
  exists cards, @Distill ExtractSample.lower ExtractSample.classes ExtractSample.codec DistillSample.fold_eq ExtractSample.sha (fun _ => 0)
    ExtractSample.data ExtractSample.meta = Ok cards /\ length cards = 3%nat /\ NoDup (map ID cards).
Proof.
  eexists. split; [vm_compute; reflexivity|]. split; [done|].
  eapply (@Distill_sound ExtractSample.lower ExtractSample.classes ExtractSample.codec DistillSample.fold_eq ExtractSample.sha (fun _ => 0)
    ExtractSample.data ExtractSample.meta). vm_compute. reflexivity.
Defined.
