(* ===== verification/ReuseBlock.v ===== *)
(** kernel/inject: the text of the reuse block - marker escaping, the task tag of
    a card and the rendering of one slice. *)

From Stdlib Require Import ZArith Lia Bool Ascii String Floats.SpecFloat.
From stdpp Require Import tactics base option list strings.
From S2P Require Import Prelude Float64 GoStrings Utf8 Regexp GoFmt Slice.

#[global] Open Scope Z_scope.

Definition blockOpen : string := "[semantix-reuse]" +:+ bytes_string [10].
Definition blockClose : string := "[/semantix-reuse]".

Section Markers.
Context `{UnicodeLower}.

(** The inner loop of [replaceFold]: a folded match of [ro] at the front. *)
Fixpoint starts (ro rs : list Z) : bool :=
  match ro, rs with
  | [], _ => true
  | c :: ro, r :: rs => (rune_lower r =? c) && starts ro rs
  | _, [] => false
  end.

Fixpoint fold_replace (n : nat) (ro new rs : list Z) : list Z :=
  match n, rs with
  | S n, r :: rs' =>
      if starts ro rs then new ++ fold_replace n ro new (drop (length ro) rs) else r :: fold_replace n ro new rs'
  | _, _ => []
  end.

Definition replaceFold (s old new : string) : string :=
  let rs := runes s in
  let ro := runes (to_lower old) in
  bytes_string (encode_runes (fold_replace (length rs) ro (runes new) rs)).

Definition escapeMarker (s : string) : string :=
  let s := replaceFold s "[/semantix-reuse]" "[\/semantix-reuse]" in
  replaceFold s "[semantix-reuse]" "[\semantix-reuse]".
End Markers.

(** [taskTagOf]: what follows the first [task=] of the first line. *)
Fixpoint first_line (s : list Z) : list Z :=
  match s with [] => [] | c :: s => if c =? 10 then [] else c :: first_line s end.

Fixpoint cut_after (sep s : list Z) : option (list Z) :=
  if bool_decide (take (length sep) s = sep) then Some (drop (length sep) s)
  else match s with [] => None | _ :: s => cut_after sep s end.

Definition tag_byte (r : Z) : bool := (r =? 45) || (r =? 95) || ((48 <=? r) && (r <=? 57)) || ((97 <=? r) && (r <=? 122)).
Fixpoint tag_prefix (s : list Z) : list Z :=
  match s with [] => [] | c :: s => if tag_byte c then c :: tag_prefix s else [] end.

Definition taskTagOf (content : string) : string :=
  match cut_after (string_bytes "task=") (first_line (string_bytes content)) with
  | None => ""
  | Some rest => bytes_string (tag_prefix rest)
  end.

Definition newline : string := bytes_string [10].

Definition formatSliceItem `{UnicodePrint} (sl : Slice) (score : f64) (content : string) (grey : bool) : string :=
  let header := "--- slice " +:+ ID sl +:+ (if grey then " (grey, unverified) ---" else " ---") +:+ newline in
  let verified := if decide (SType sl = Result) then EffectiveResultStatus (Meta sl) else "unknown"%string in
  let provenance :=
    "type=" +:+ type_string (SType sl) +:+ " project=" +:+ quote (ProjectSlug (Meta sl))
    +:+ " source=" +:+ quote (SourceSession (Meta sl)) +:+ " commit=" +:+ quote (BaseCommit (Meta sl))
    +:+ " origin=" +:+ MetaOrigin (Meta sl) +:+ " verified=" +:+ verified
    +:+ " score=" +:+ fixed4 score +:+ " created_at=" +:+ itoa (CreatedAt sl) +:+ newline in
  let provenance :=
    if IsHistoricalObservation sl then provenance +:+ "applicability=historical_observation; revalidate_before_use" +:+ newline
    else provenance in
  header +:+ provenance +:+ content +:+ newline.

(** ** Markers *)

Section Closed.
Context `{UnicodeLower}.

Definition open_runes : list Z := runes (to_lower "[semantix-reuse]").
Definition close_runes : list Z := runes (to_lower "[/semantix-reuse]").

(** Nowhere a marker in any case. *)
Definition free_of (ro rs : list Z) : Prop := forall i, starts ro (drop i rs) = false.
Definition no_marker (s : string) : Prop := free_of open_runes (runes s) /\ free_of close_runes (runes s).

Lemma markers : open_runes = [91; 115; 101; 109; 97; 110; 116; 105; 120; 45; 114; 101; 117; 115; 101; 93]
  /\ close_runes = [91; 47; 115; 101; 109; 97; 110; 116; 105; 120; 45; 114; 101; 117; 115; 101; 93].
Proof using. split; vm_compute; reflexivity. Qed.

Lemma free_cons ro r rs : free_of ro (r :: rs) <-> starts ro (r :: rs) = false /\ free_of ro rs.
Proof using.
  split; [intros Hf; split; [apply (Hf O)|intros i; apply (Hf (S i))]|]. intros [Hs Hf] [|i]; [done|apply Hf].
Qed.

Lemma starts_app ro rs x : starts ro rs = true -> starts ro (rs ++ x) = true.
Proof using.
  revert rs. induction ro as [|c ro IH]; intros [|r rs]; cbn [starts app]; try done.
  intros [Hc Hs]%andb_true_iff. by rewrite Hc, IH.
Qed.

(** The part of a marker after its bracket has no bracket, so it is read from
    copied text only. *)
Lemma copied n ro new rs k :
  (length rs <= n)%nat -> head new = Some 91 -> Forall (fun r => r <> 91) (take k (fold_replace n ro new rs)) ->
  (k <= length (fold_replace n ro new rs))%nat -> take k (fold_replace n ro new rs) = take k rs.
Proof using.
  revert rs k. induction n as [|n IH]; intros rs k Hl Hnew Hk Hlen.
  { destruct rs; [|simpl in Hl; lia]. done. }
  destruct rs as [|r rs]; [done|]. destruct k as [|k]; [done|]. cbn [fold_replace] in *.
  destruct (starts ro (r :: rs)).
  - destruct new as [|c new]; [done|]. simpl in Hnew. simplify_eq. cbn [app take] in Hk. by apply Forall_cons in Hk as [Hc _].
  - cbn [take length] in *. apply Forall_cons in Hk as [_ Hk]. f_equal. apply IH; [lia|done|done|lia].
Qed.

Lemma starts_take ro rs x : starts ro rs = true -> take (length ro) x = take (length ro) rs -> starts ro x = true.
Proof using.
  revert rs x. induction ro as [|c ro IH]; intros rs x; [by destruct x|]. destruct rs as [|r rs]; [done|]. cbn [starts length take].
  intros [Hc Hs]%andb_true_iff Ht. destruct x as [|y x]; [done|]. cbn [take] in Ht. injection Ht as -> Ht. by rewrite Hc, (IH rs x Hs Ht).
Qed.

Lemma starts_length ro rs : starts ro rs = true -> (length ro <= length rs)%nat.
Proof using.
  revert rs. induction ro as [|c ro IH]; intros [|r rs]; cbn [starts length]; try done; try lia.
  intros [_ Hs%IH]%andb_true_iff. lia.
Qed.

Lemma starts_no_bracket ro rs : Forall (fun c => c <> 91) ro -> starts ro rs = true -> Forall (fun r => r <> 91) (take (length ro) rs).
Proof using.
  intros Hro. revert rs. induction Hro as [|c ro Hc _ IH]; intros [|r rs]; cbn [starts length take]; [by constructor|by constructor|done|].
  intros [Hr%Z.eqb_eq Hs]%andb_true_iff. constructor; [|by apply IH]. intros ->. apply Hc. by rewrite <- Hr.
Qed.

(** What the replacements and the markers look like. *)
Record shape (ro new : list Z) (x : Z) (ro' : list Z) : Prop := {
  sh_ro : ro = 91 :: x :: ro';
  sh_plain : Forall (fun c => c <> 91) (x :: ro');
  sh_x : x <> 92;
  sh_new : exists new', new = 91 :: 92 :: new' /\ Forall (fun c => rune_lower c <> 91) new';
}.

Lemma free_app_plain ro x ro' l rest :
  ro = 91 :: x :: ro' -> Forall (fun c => rune_lower c <> 91) l -> free_of ro rest -> free_of ro (l ++ rest).
Proof using.
  intros -> Hl Hr. induction Hl as [|c l Hc _ IH]; [done|]. apply free_cons. split; [|done]. cbn [starts].
  by destruct (Z.eqb_spec (rune_lower c) 91).
Qed.

(** A replacement leaves no marker of its own kind, nor one of a kind that was
    not there. *)
Lemma replace_free n ro1 x1 ro1' ro new rs :
  shape ro1 new x1 ro1' -> ro <> [] -> (length rs <= n)%nat ->
  (ro1 = ro \/ free_of ro1 rs) -> free_of ro1 (fold_replace n ro new rs).
Proof using.
  intros [Ero1 Hplain Hx (new' & Enew & Hnew)] Hne. revert rs. induction n as [|n IH]; intros rs Hl Hro; [by subst; intros [|i]|].
  destruct rs as [|r rs]; [by subst; intros [|i]|]. cbn [fold_replace]. simpl in Hl. destruct (starts ro (r :: rs)) eqn:Es.
  - assert (Hrest : free_of ro1 (fold_replace n ro new (drop (length ro) (r :: rs)))).
    { apply IH; [rewrite length_drop; simpl; destruct ro; [done|simpl; lia]|].
      destruct Hro as [Hro|Hro]; [by left|right]. intros i. rewrite drop_drop. apply Hro. }
    rewrite Enew at 1. cbn [app]. apply free_cons. split.
    + rewrite Ero1. cbn [starts]. change (rune_lower 92) with 92. destruct (Z.eqb_spec 92 x1); [congruence|]. by rewrite andb_false_r.
    + apply (free_app_plain ro1 x1 ro1' (92 :: new') _ Ero1); [by constructor|done].
  - assert (Hrest : free_of ro1 (fold_replace n ro new rs)).
    { apply IH; [lia|]. destruct Hro as [Hro|Hro]; [by left|right]. by apply free_cons in Hro as [_ Hro]. }
    apply free_cons. split; [|done]. apply not_true_is_false. rewrite Ero1. change (starts (91 :: ?l) (r :: ?t)) with ((rune_lower r =? 91) && starts l t).
    intros [Hr Hs]%andb_true_iff. set (out := fold_replace n ro new rs) in *.
    pose proof (starts_no_bracket _ _ Hplain Hs) as Hk. pose proof (starts_length _ _ Hs) as Hlen.
    assert (Hc : take (length (x1 :: ro1')) out = take (length (x1 :: ro1')) rs) by (apply copied; [lia|by rewrite Enew|done|done]).
    assert (Hin : starts ro1 (r :: rs) = true).
    { rewrite Ero1. change ((rune_lower r =? 91) && starts (x1 :: ro1') rs = true). rewrite Hr. by eapply starts_take. }
    destruct Hro as [->|Hro]; [congruence|]. specialize (Hro O). rewrite drop_0 in Hro. congruence.
Qed.

Lemma fold_replace_valid n ro new rs :
  Forall (fun r => valid_rune r = true) new -> Forall (fun r => valid_rune r = true) rs ->
  Forall (fun r => valid_rune r = true) (fold_replace n ro new rs).
Proof using.
  intros Hn. revert rs. induction n as [|n IH]; intros [|r rs] Hr; cbn [fold_replace]; try constructor.
  destruct (starts ro (r :: rs)); [apply Forall_app; split; [done|]; by apply IH, Forall_drop|].
  apply Forall_cons in Hr as [Hr Hrs]. constructor; [done|by apply IH].
Qed.

Lemma runes_replaceFold s old new :
  runes (replaceFold s old new) = fold_replace (length (runes s)) (runes (to_lower old)) (runes new) (runes s).
Proof using.
  unfold replaceFold. rewrite runes_encode. apply norm_valid, fold_replace_valid; apply runes_valid.
Qed.

Definition open_new : list Z := runes "[\semantix-reuse]".
Definition close_new : list Z := runes "[\/semantix-reuse]".

Ltac marker_shape :=
  constructor; [apply markers|repeat constructor; discriminate|discriminate|
    eexists; split; [vm_compute; reflexivity|repeat constructor; discriminate]].

Lemma escapeMarker_free s : no_marker (escapeMarker s).
Proof using.
  assert (Hoo : exists l, shape open_runes open_new 115 l) by (eexists; marker_shape).
  assert (Hcc : exists l, shape close_runes close_new 47 l) by (eexists; marker_shape).
  assert (Hco : exists l, shape close_runes open_new 47 l) by (eexists; marker_shape).
  destruct Hoo as [lo Hoo], Hcc as [lc Hcc], Hco as [l' Hco].
  unfold no_marker, escapeMarker. rewrite !runes_replaceFold. fold open_runes close_runes open_new close_new.
  assert (Ho : open_runes <> []) by (by rewrite (proj1 markers)). assert (Hc : close_runes <> []) by (by rewrite (proj2 markers)).
  split.
  - eapply replace_free; [exact Hoo|done|done|by left].
  - eapply replace_free; [exact Hco|done|done|right]. eapply replace_free; [exact Hcc|done|done|by left].
Qed.
End Closed.

(** ** A block of items *)

Section Block.
Context `{UnicodeLower} `{UnicodePrint}.
(** No rune beyond ASCII is the upper case of an opening bracket. *)
Context (brackets : forall r, 128 <= r -> rune_lower_ext r <> 91).

Lemma free_join ro a b :
  ro <> [] -> 10 ∉ ro -> free_of ro a -> free_of ro b -> free_of ro (a ++ 10 :: b).
Proof using.
  intros Hne Hro Ha Hb. induction a as [|r a IH]; cbn [app].
  - apply free_cons. split; [|done]. destruct ro as [|c ro]; [done|]. cbn [starts]. change (rune_lower 10) with 10.
    destruct (Z.eqb_spec 10 c); [|done]. subst. exfalso. apply Hro. by left.
  - apply free_cons in Ha as [Hs Ha]. apply free_cons. split; [|by apply IH].
    apply not_true_is_false. intros Ht. apply not_true_iff_false in Hs. apply Hs.
    clear -Ht Hro. change (starts ro ((r :: a) ++ 10 :: b) = true) in Ht. revert Ht. generalize (r :: a) as l. intros l. revert ro Hro.
    induction l as [|x l IH]; intros ro Hro; destruct ro as [|c ro]; cbn [starts app]; try done.
    + change (rune_lower 10) with 10. intros [Hc%Z.eqb_eq _]%andb_true_iff. subst. exfalso. apply Hro. by left.
    + intros [Hx Hs]%andb_true_iff. rewrite Hx. cbn. apply IH; [|done]. intros Hin. apply Hro. by right.
Qed.

Lemma runes_join a b : runes (a +:+ newline +:+ b) = runes a ++ 10 :: runes b.
Proof using. unfold runes. rewrite !string_bytes_app. apply (decode_runes_app_ascii (string_bytes a) 10 (string_bytes b)). lia. Qed.

Lemma no_marker_join a b : no_marker a -> no_marker b -> no_marker (a +:+ newline +:+ b).
Proof using.
  unfold no_marker. rewrite runes_join. destruct markers as [-> ->]. intros [Ha1 Ha2] [Hb1 Hb2].
  split; apply free_join; try done; rewrite !not_elem_of_cons; repeat split; try lia; apply not_elem_of_nil.
Qed.

Lemma no_bracket_no_marker s : has_byte 91 s = false -> no_marker s.
Proof using brackets.
  intros Hs%has_byte_spec.
  assert (Hr : Forall (fun r => rune_lower r <> 91) (runes s)).
  { apply Forall_forall. intros r Hr E. pose proof (runes_valid s) as Hv. rewrite Forall_forall in Hv. specialize (Hv r Hr).
    unfold rune_lower in E. destruct (Z.ltb_spec r 128) as [Hlt|Hge]; [|by apply (brackets r)].
    assert (r = 91) as ->; [|by apply Hs, (ascii_rune_byte 91)].
    unfold valid_rune in Hv. apply negb_true_iff, orb_false_iff in Hv as [[Hz%Z.ltb_ge _]%orb_false_iff _].
    destruct (Z.leb_spec 65 r), (Z.leb_spec r 90); simpl in E; lia. }
  unfold no_marker. destruct markers as [-> ->].
  split; (induction Hr as [|r l Hr _ IH]; [by intros [|i]|]; apply free_cons; split; [|exact IH]; cbn [starts]; by destruct (Z.eqb_spec (rune_lower r) 91)).
Qed.

(** The fields of a slice that an item shows outside its content. *)
Definition plain_fields (s : Slice) : Prop :=
  Forall (fun f => has_byte 91 f = false)
    [ID s; ProjectSlug (Meta s); SourceSession (Meta s); BaseCommit (Meta s); MetaOrigin (Meta s)].

Lemma foreign_bracket : foreign 91.
Proof using. unfold foreign. lia. Qed.

(** An item: a heading, the content and a line end. *)
Lemma item_parts s score content grey : plain_fields s -> exists heading,
  formatSliceItem s score content grey = heading +:+ newline +:+ content +:+ newline /\ has_byte 91 heading = false.
Proof using.
  intros Hp. unfold plain_fields in Hp. rewrite !Forall_cons in Hp. destruct Hp as (Hf1 & Hf2 & Hf3 & Hf4 & Hf5 & _).
  set (heading1 := "--- slice " +:+ ID s +:+ (if grey then " (grey, unverified) ---" else " ---")).
  set (prov := "type=" +:+ type_string (SType s) +:+ " project=" +:+ quote (ProjectSlug (Meta s))
    +:+ " source=" +:+ quote (SourceSession (Meta s)) +:+ " commit=" +:+ quote (BaseCommit (Meta s))
    +:+ " origin=" +:+ MetaOrigin (Meta s) +:+ " verified=" +:+ (if decide (SType s = Result) then EffectiveResultStatus (Meta s) else "unknown"%string)
    +:+ " score=" +:+ fixed4 score +:+ " created_at=" +:+ itoa (CreatedAt s)).
  exists (heading1 +:+ newline +:+ prov +:+ (if IsHistoricalObservation s then newline +:+ "applicability=historical_observation; revalidate_before_use" else "")).
  split.
  - unfold formatSliceItem, heading1, prov. destruct (IsHistoricalObservation s); by rewrite ?string_app_nil, ?string_app_assoc.
  - assert (Hq : forall f, has_byte 91 f = false -> has_byte 91 (quote f) = false) by (intros; by apply quote_bytes; [apply foreign_bracket|]).
    unfold heading1, prov. rewrite !has_byte_app, Hf1, Hf5, !Hq, fixed4_bytes, itoa_bytes by (done || lia || apply foreign_bracket).
    destruct grey, (IsHistoricalObservation s), (decide (SType s = Result)); rewrite ?has_byte_app;
      unfold EffectiveResultStatus; try destruct (decide _); by destruct (SType s).
Qed.

(** The body of a block of escaped items has no marker. *)
Lemma items_free (items : list (Slice * f64 * string * bool)) :
  Forall (fun i => plain_fields i.1.1.1 /\ no_marker i.1.2) items ->
  no_marker (concat_strings (map (fun i => formatSliceItem i.1.1.1 i.1.1.2 i.1.2 i.2) items)).
Proof using brackets.
  induction 1 as [|i items [Hf Hc] _ IH]; [by split; intros [|i]|]. cbn [map concat_strings foldr].
  destruct (item_parts i.1.1.1 i.1.1.2 i.1.2 i.2 Hf) as (heading & -> & Hh). rewrite !string_app_assoc.
  apply no_marker_join; [by apply no_bracket_no_marker|]. by apply no_marker_join.
Qed.
End Block.
