(* ===== verification/Bm25.v ===== *)
(** kernel/bm25: the tokenizer, the in-memory index and its ranked search.

    The Unicode tables beyond ASCII are classes, [math.Log] an argument.  A map
    that Go deletes when it becomes empty is deleted here too; reading a missing
    entry gives the zero value. *)

From Stdlib Require Import ZArith Lia Bool Ascii String Floats.SpecFloat.
From stdpp Require Import tactics base option list sorting sets gmap fin_maps strings.
From S2P Require Import Prelude Float64 GoStrings Slice.

#[global] Open Scope Z_scope.

(** ** Tokens *)

Section Tokens.
Context `{UnicodeLower} `{UnicodeClasses}.

Definition isCJK (r : Z) : bool := is_han r || is_hiragana r || is_katakana r || is_hangul r.

(** The state of [Tokenize]: the tokens so far and the bytes of the word. *)
Definition flush (word : list Z) (tokens : list string) : list string :=
  match word with [] => tokens | _ => tokens ++ [bytes_string word] end.

Definition token_step (s : list string * list Z) (r : Z) : list string * list Z :=
  let '(tokens, word) := s in
  if isCJK r then (flush word tokens ++ [bytes_string (encode_rune r)], [])
  else if is_letter r || is_digit r || (r =? 95) then (tokens, word ++ encode_rune (rune_lower r))
  else (flush word tokens, []).

Definition Tokenize (text : string) : list string :=
  let '(tokens, word) := foldl token_step ([], []) (runes text) in flush word tokens.

Definition countTerms (terms : list string) : gmap string Z :=
  foldl (fun m t => <[t := default 0 (m !! t) +! 1]> m) ∅ terms.

Definition uniqueTerms (terms : list string) : list string :=
  foldl (fun u t => if bool_decide (t ∈ u) then u else u ++ [t]) [] terms.

Definition covered (qt : list string) (ct : gmap string Z) : Z :=
  Z.of_nat (length (List.filter (fun q => bool_decide (is_Some (ct !! q))) qt)).

Definition QueryCoverage (query content : string) : f64 :=
  let qt := uniqueTerms (Tokenize query) in
  match qt with
  | [] => f0
  | _ => (f_of_int (covered qt (countTerms (Tokenize content))) / f_of_int (Z.of_nat (length qt)))%f64
  end.
End Tokens.

(** ** The index *)

#[export] Instance Scope_countable : Countable Scope.
Proof.
  refine (inj_countable' (fun s => match s with Session => inl 0 | Project => inl 1 | User => inl 2 | UnknownScope n => inr n end)
    (fun x => match x with inl 0 => Session | inl 1 => Project | inl _ => User | inr n => UnknownScope n end) _).
  by intros [].
Defined.

Record document := mkDoc { value : Slice; terms : gmap string Z; doc_length : Z }.

Record Index := mkIndex {
  k1 : f64;
  b : f64;
  docs : gmap string document;
  postings : gmap string (gmap string Z);
  scopeDocs : gmap Scope (gset string);
  scopeDF : gmap Scope (gmap string Z);
  scopeTotalLength : gmap Scope Z;
}.
#[export] Instance Index_eta : Eta Index := fun r =>
  mkIndex (k1 r) (b r) (docs r) (postings r) (scopeDocs r) (scopeDF r) (scopeTotalLength r).

Definition defaultK1 : f64 := f_of_ratio 12 10.
Definition defaultB : f64 := f_of_ratio 3 4.

Definition New : Index := mkIndex defaultK1 defaultB ∅ ∅ ∅ ∅ ∅.

(** [initLocked]: a zero [Index] becomes usable; nil maps are empty here. *)
Definition initLocked (ix : Index) : Index :=
  ix <| k1 ::= fun x => if (x =? f0)%f64 then defaultK1 else x |> <| b ::= fun x => if (x =? f0)%f64 then defaultB else x |>.

(** A map entry that is dropped when [empty] holds of it. *)
Definition put_or_drop {K A} `{Countable K} (empty : A -> bool) (k : K) (x : A) (m : gmap K A) : gmap K A :=
  if empty x then delete k m else <[k := x]> m.

Definition is_empty_map {A} (m : gmap string A) : bool := bool_decide (m = ∅).
Definition is_empty_set (m : gset string) : bool := bool_decide (m = ∅).

Definition drop_posting (id term : string) (p : gmap string (gmap string Z)) : gmap string (gmap string Z) :=
  put_or_drop is_empty_map term (delete id (default ∅ (p !! term))) p.
Definition add_posting (id term : string) (frequency : Z) (p : gmap string (gmap string Z)) : gmap string (gmap string Z) :=
  <[term := <[id := frequency]> (default ∅ (p !! term))]> p.
Definition less_df (term : string) (df : gmap string Z) : gmap string Z :=
  put_or_drop (fun n => n =? 0) term (default 0 (df !! term) -! 1) df.
Definition more_df (term : string) (df : gmap string Z) : gmap string Z :=
  <[term := default 0 (df !! term) +! 1]> df.

(** [removeLocked]; an indexed document's scope has its maps ([indexed] below). *)
Definition removeLocked (id : string) (doc : document) (ix : Index) : Index :=
  let scope := SScope (value doc) in
  let left := default ∅ (scopeDocs ix !! scope) ∖ {[id]} in
  let ix := ix <| docs ::= delete id |>
              <| postings ::= fun p => map_fold (fun t _ p => drop_posting id t p) p (terms doc) |> in
  if is_empty_set left then
    ix <| scopeDocs ::= delete scope |> <| scopeDF ::= delete scope |> <| scopeTotalLength ::= delete scope |>
  else
    ix <| scopeDocs ::= <[scope := left]> |>
       <| scopeDF ::= fun m => <[scope := map_fold (fun t _ df => less_df t df) (default ∅ (m !! scope)) (terms doc)]> m |>
       <| scopeTotalLength ::= fun m => <[scope := default 0 (m !! scope) -! doc_length doc]> m |>.

Definition addLocked (id : string) (doc : document) (ix : Index) : Index :=
  let scope := SScope (value doc) in
  ix <| docs ::= <[id := doc]> |>
     <| scopeDocs ::= fun m => <[scope := {[id]} ∪ default ∅ (m !! scope)]> m |>
     <| scopeTotalLength ::= fun m => <[scope := default 0 (m !! scope) +! doc_length doc]> m |>
     <| postings ::= fun p => map_fold (fun t n p => add_posting id t n p) p (terms doc) |>
     <| scopeDF ::= fun m => <[scope := map_fold (fun t _ df => more_df t df) (default ∅ (m !! scope)) (terms doc)]> m |>.

Section Index.
Context `{UnicodeLower} `{UnicodeClasses} (math_log : f64 -> f64).

Definition Remove (id : string) (ix : option Index) : result (option Index) :=
  match ix with
  | None => Err "bm25: nil index"
  | Some ix =>
      if (id =? "")%string then Err "bm25: empty slice ID" else
      Ok (Some (match docs ix !! id with Some doc => removeLocked id doc ix | None => ix end))
  end.

Definition document_of (s : Slice) : document :=
  let ts := Tokenize (Content s) in mkDoc s (countTerms ts) (Z.of_nat (length ts)).

Definition Insert (s : option Slice) (ix : option Index) : result (option Index) :=
  match ix, s with
  | None, _ => Err "bm25: nil index"
  | _, None => Err "bm25: nil slice"
  | Some ix, Some s =>
      if (ID s =? "")%string then Err "bm25: empty slice ID" else
      match Tokenize (Content s) with
      | [] => Remove (ID s) (Some ix)
      | _ =>
          let ix := initLocked ix in
          let ix := match docs ix !! ID s with Some old => removeLocked (ID s) old ix | None => ix end in
          Ok (Some (addLocked (ID s) (document_of s) ix))
      end
  end.

(** One query term's share of a score. *)
Definition term_score (ix : Index) (tf df totalDocs : Z) (docLength avgLength : f64) : f64 :=
  let idf := math_log (f1 + (f_of_int totalDocs - f_of_int df + f_of_ratio 1 2) / (f_of_int df + f_of_ratio 1 2))%f64 in
  let frequency := f_of_int tf in
  let numerator := (frequency * (k1 ix + f1))%f64 in
  let denominator := (frequency + k1 ix * (f1 - b ix + b ix * docLength / avgLength))%f64 in
  (idf * numerator / denominator)%f64.

Definition score (ix : Index) (doc : option document) (queryTerms : list string) (scope : Scope) (totalDocs : Z) (avgLength : f64) : f64 :=
  match doc with
  | None => f0
  | Some doc =>
      if doc_length doc =? 0 then f0 else
      foldl (fun acc t =>
        let tf := default 0 (terms doc !! t) in
        let df := default 0 (default ∅ (scopeDF ix !! scope) !! t) in
        if (tf =? 0) || (df =? 0) then acc
        else (acc + term_score ix tf df totalDocs (f_of_int (doc_length doc)) avgLength)%f64) f0 queryTerms
  end.

Definition covered_terms (doc : document) (queryTerms : list string) : Z :=
  Z.of_nat (length (List.filter (fun t => 0 <? default 0 (terms doc !! t)) queryTerms)).

Definition search_hit (doc : document) (queryTerms : list string) (sc : f64) : Hit :=
  mkHit (Some (value doc)) sc (f_of_int (covered_terms doc queryTerms) / f_of_int (Z.of_nat (length queryTerms)))%f64 true f1 true.

(** [Search]'s order: by score, then by ID. *)
Definition hit_id (h : Hit) : string := match HitSlice h with Some s => ID s | None => "" end.
Definition hit_less : Hit -> Hit -> bool := ranked_less Score hit_id.

Definition candidates (ix : Index) (queryTerms : list string) (docIDs : gset string) : gset string :=
  foldl (fun c t => c ∪ (dom (default ∅ (postings ix !! t)) ∩ docIDs)) ∅ queryTerms.

(** A candidate's hit; a score that is not positive is no hit. *)
Definition candidate_hit (ix : Index) (queryTerms : list string) (scope : Scope) (totalDocs : Z) (avgLength : f64) (id : string) : option Hit :=
  let sc := score ix (docs ix !! id) queryTerms scope totalDocs avgLength in
  if (sc <=? f0)%f64 then None
  else match docs ix !! id with Some doc => Some (search_hit doc queryTerms sc) | None => None end.

Definition Search (ix : option Index) (query : string) (k : Z) (scope : Scope) : result (list Hit) :=
  match ix with
  | None => Err "bm25: nil index"
  | Some ix =>
      if k <=? 0 then Ok [] else
      match uniqueTerms (Tokenize query) with
      | [] => Err "bm25: query must contain at least one letter or number"
      | queryTerms =>
          let docIDs := default ∅ (scopeDocs ix !! scope) in
          let totalDocs := Z.of_nat (size docIDs) in
          if totalDocs =? 0 then Ok [] else
          let avgLength := (f_of_int (default 0 (scopeTotalLength ix !! scope)) / f_of_int totalDocs)%f64 in
          if (avgLength <=? f0)%f64 then Ok [] else
          let hits := omap (candidate_hit ix queryTerms scope totalDocs avgLength) (elements (candidates ix queryTerms docIDs)) in
          Ok (take (Z.to_nat k) (go_sort hit_less hits))
      end
  end.
End Index.

(** ** Sums and folds over maps *)

(** A fold that treats each key on its own. *)
Lemma fold_pointwise {A B} (f : string -> A -> gmap string B -> gmap string B) (g : A -> option B -> option B) :
  (forall t x p, f t x p !! t = g x (p !! t)) -> (forall t x p u, u <> t -> f t x p !! u = p !! u) ->
  forall ts p u, map_fold f p ts !! u = match ts !! u with Some x => g x (p !! u) | None => p !! u end.
Proof.
  intros Hg Hf ts p. revert ts. apply (map_fold_weak_ind (fun r (ts : gmap string A) =>
    forall u, r !! u = match ts !! u with Some x => g x (p !! u) | None => p !! u end)).
  - intros u. by rewrite lookup_empty.
  - intros t x ts r Ht IH u. destruct (decide (u = t)) as [->|Hne].
    + rewrite Hg, IH, lookup_insert_eq, Ht. done.
    + rewrite Hf, IH, lookup_insert_ne by done. done.
Qed.

Lemma put_or_drop_lookup {K A} `{Countable K} (empty : A -> bool) (k u : K) x (m : gmap K A) :
  put_or_drop empty k x m !! u = if decide (u = k) then (if empty x then None else Some x) else m !! u.
Proof.
  unfold put_or_drop. destruct (empty x), (decide (u = k)) as [->|Hne];
    rewrite ?lookup_delete_eq, ?lookup_insert_eq, ?lookup_delete_ne, ?lookup_insert_ne by done; done.
Qed.

(** An entry that is dropped when empty. *)
Definition kept {A} (m : gmap string A) : option (gmap string A) := if is_empty_map m then None else Some m.
Definition kept_set (m : gset string) : option (gset string) := if is_empty_set m then None else Some m.

Lemma default_kept {A} (m : gmap string A) : default ∅ (kept m) = m.
Proof. unfold kept, is_empty_map. by case_bool_decide. Qed.
Lemma default_kept_set m : default ∅ (kept_set m) = m.
Proof. unfold kept_set, is_empty_set. by case_bool_decide. Qed.

Lemma kept_insert {A} k (x : A) m : kept (<[k := x]> m) = Some (<[k := x]> m).
Proof. unfold kept, is_empty_map. case_bool_decide as E; [by apply insert_non_empty in E|done]. Qed.

(** ** What the index represents *)

#[local] Arguments terms : simpl never.
#[local] Arguments doc_length : simpl never.

Section Refinement.
Context `{UnicodeLower} `{UnicodeClasses} (math_log : f64 -> f64).

Abbreviation document_of := document_of.
Definition term_count (t : string) (s : Slice) : option Z := terms (document_of s) !! t.

(** The documents of a scope, their number with a term, their length. *)
Definition scoped (D : gmap string Slice) (sc : Scope) : gset string :=
  dom (omap (fun s => if decide (SScope s = sc) then Some s else None) D).
Definition df_weight (sc : Scope) (t : string) (s : Slice) : Z :=
  if decide (SScope s = sc) then (if term_count t s is Some _ then 1 else 0) else 0.
Definition len_weight (sc : Scope) (s : Slice) : Z := if decide (SScope s = sc) then doc_length (document_of s) else 0.
Definition df_of (D : gmap string Slice) (sc : Scope) (t : string) : Z := msum (df_weight sc t) D.
Definition len_of (D : gmap string Slice) (sc : Scope) : Z := msum (len_weight sc) D.

Record indexed (ix : Index) (D : gmap string Slice) : Prop := {
  ix_params : k1 ix = defaultK1 /\ b ix = defaultB;
  ix_keys : map_Forall (fun id s => ID s = id /\ id <> ""%string /\ Tokenize (Content s) <> []) D;
  ix_docs : docs ix = document_of <$> D;
  ix_postings : forall t, postings ix !! t = kept (omap (term_count t) D);
  ix_scopeDocs : forall sc, scopeDocs ix !! sc = kept_set (scoped D sc);
  ix_df : forall sc t, default 0 (default ∅ (scopeDF ix !! sc) !! t) = i64 (df_of D sc t);
  ix_len : forall sc, default 0 (scopeTotalLength ix !! sc) = i64 (len_of D sc);
}.

Lemma New_indexed : indexed New ∅.
Proof using.
  split; done.
Qed.

Lemma scoped_delete D sc id : scoped (delete id D) sc = scoped D sc ∖ {[id]}.
Proof using. unfold scoped. by rewrite omap_delete, dom_delete_L. Qed.

Lemma scoped_insert D s : scoped (<[ID s := s]> D) (SScope s) = {[ID s]} ∪ scoped D (SScope s).
Proof using. unfold scoped. rewrite (omap_insert_Some _ _ _ _ s), dom_insert_L; [done|]. by rewrite decide_True. Qed.

Lemma scoped_insert_ne D s sc : SScope s <> sc -> D !! ID s = None -> scoped (<[ID s := s]> D) sc = scoped D sc.
Proof using.
  intros Hne Hid. unfold scoped. rewrite omap_insert_None by (by rewrite decide_False). rewrite delete_id; [done|].
  by rewrite lookup_omap, Hid.
Qed.

Lemma scoped_delete_ne D id s sc : D !! id = Some s -> SScope s <> sc -> scoped (delete id D) sc = scoped D sc.
Proof using.
  intros Hid Hne. unfold scoped. rewrite omap_delete, delete_id; [done|]. rewrite lookup_omap, Hid. simpl. by rewrite decide_False.
Qed.

Lemma scoped_empty D sc : scoped D sc = ∅ -> len_of D sc = 0 /\ forall t, df_of D sc t = 0.
Proof using.
  intros E. assert (Hs : map_Forall (fun _ s => SScope s <> sc) D).
  { intros id s Hid Hs. assert (Hin : id ∈ scoped D sc); [|rewrite E in Hin; by apply not_elem_of_empty in Hin].
    apply elem_of_dom. exists s. rewrite lookup_omap, Hid. simpl. by rewrite decide_True. }
  split; [|intros t]; apply msum_zero; intros id s Hid; specialize (Hs id s Hid); unfold len_weight, df_weight; by rewrite decide_False.
Qed.
Lemma less_df_lookup t u df : default 0 (less_df t df !! u) = if decide (u = t) then default 0 (df !! t) -! 1 else default 0 (df !! u).
Proof using.
  unfold less_df. rewrite put_or_drop_lookup. destruct (decide (u = t)); [|done].
  destruct (Z.eqb_spec (default 0 (df !! t) -! 1) 0) as [->|]; done.
Qed.

(** The folds over a document's terms, entry by entry. *)
Lemma drop_postings_lookup id ts p u :
  map_fold (fun t (_ : Z) p => drop_posting id t p) p ts !! u
  = match ts !! u with Some _ => kept (delete id (default ∅ (p !! u))) | None => p !! u end.
Proof using.
  apply (fold_pointwise _ (fun _ o => kept (delete id (default ∅ o)))).
  - intros t _ q. unfold drop_posting. by rewrite put_or_drop_lookup, decide_True.
  - intros t _ q v Hne. unfold drop_posting. by rewrite put_or_drop_lookup, decide_False.
Qed.

Lemma add_postings_lookup id ts p u :
  map_fold (fun t n p => add_posting id t n p) p ts !! u
  = match ts !! u with Some n => Some (<[id := n]> (default ∅ (p !! u))) | None => p !! u end.
Proof using.
  apply (fold_pointwise _ (fun n o => Some (<[id := n]> (default ∅ o)))); intros t n q; unfold add_posting.
  - by rewrite lookup_insert_eq.
  - intros v Hne. by rewrite lookup_insert_ne.
Qed.

Lemma more_dfs_lookup (ts : gmap string Z) df u :
  default 0 (map_fold (fun t _ df => more_df t df) df ts !! u)
  = match ts !! u with Some _ => default 0 (df !! u) +! 1 | None => default 0 (df !! u) end.
Proof using.
  rewrite (fold_pointwise _ (fun _ o => Some (default 0 o +! 1))); [by destruct (ts !! u)|..]; intros t n q; unfold more_df.
  - by rewrite lookup_insert_eq.
  - intros v Hne. by rewrite lookup_insert_ne.
Qed.

Lemma less_dfs_lookup (ts : gmap string Z) df u :
  default 0 (map_fold (fun t _ df => less_df t df) df ts !! u)
  = match ts !! u with Some _ => default 0 (df !! u) -! 1 | None => default 0 (df !! u) end.
Proof using.
  rewrite (fold_pointwise _ (fun _ o => let n := default 0 o -! 1 in if n =? 0 then None else Some n)).
  - destruct (ts !! u); [|done]. cbv zeta. destruct (Z.eqb_spec (default 0 (df !! u) -! 1) 0) as [->|]; done.
  - intros t n q. unfold less_df. by rewrite put_or_drop_lookup, decide_True.
  - intros t n q v Hne. unfold less_df. by rewrite put_or_drop_lookup, decide_False.
Qed.

Lemma remove_indexed ix D id s :
  indexed ix D -> D !! id = Some s -> indexed (removeLocked id (document_of s) ix) (delete id D).
Proof using.
  intros [P K Hd Hp Hs Hf Hl] Hid.
  assert (Hdf : forall sc t, df_of (delete id D) sc t = df_of D sc t - df_weight sc t s).
  { intros sc t. unfold df_of. rewrite (msum_delete _ D id s) by done. lia. }
  assert (Hlen : forall sc, len_of (delete id D) sc = len_of D sc - len_weight sc s).
  { intros sc. unfold len_of. rewrite (msum_delete _ D id s) by done. lia. }
  assert (Hpost : forall t, map_fold (fun t _ p => drop_posting id t p) (postings ix) (terms (document_of s)) !! t
                    = kept (omap (term_count t) (delete id D))).
  { intros t. rewrite drop_postings_lookup, Hp, omap_delete. unfold term_count at 1.
    destruct (terms (document_of s) !! t) as [n|] eqn:E; [by rewrite default_kept|]. rewrite delete_id; [done|].
    rewrite lookup_omap, Hid. exact E. }
  assert (Hleft : default ∅ (scopeDocs ix !! SScope s) ∖ {[id]} = scoped (delete id D) (SScope s)).
  { by rewrite Hs, default_kept_set, scoped_delete. }
  unfold removeLocked. change (SScope (value (document_of s))) with (SScope s). cbv zeta. rewrite Hleft.
  unfold is_empty_set. case_bool_decide as Ee; split; simpl; try done.
  1,6: by apply map_Forall_delete.
  1,5: by rewrite Hd, fmap_delete.
  - intros sc. rewrite lookup_delete. case_decide as Es; [|by rewrite Hs, (scoped_delete_ne D id s)].
    subst sc. rewrite Ee. by rewrite <- (default_kept_set ∅).
  - intros sc t. rewrite lookup_delete. case_decide as Es.
    + subst sc. by rewrite (proj2 (scoped_empty _ _ Ee)).
    + rewrite Hf, Hdf. unfold df_weight. rewrite decide_False by done. f_equal. lia.
  - intros sc. rewrite lookup_delete. case_decide as Es.
    + subst sc. by rewrite (proj1 (scoped_empty _ _ Ee)).
    + rewrite Hl, Hlen. unfold len_weight. rewrite decide_False by done. f_equal. lia.
  - intros sc. rewrite lookup_insert. case_decide as Es; [|by rewrite Hs, (scoped_delete_ne D id s)].
    subst sc. unfold kept_set, is_empty_set. by rewrite bool_decide_false.
  - intros sc t. rewrite lookup_insert. case_decide as Es; rewrite Hdf; unfold df_weight, term_count.
    + subst sc. cbn [from_option]; unfold Datatypes.id. rewrite less_dfs_lookup, Hf, decide_True by done.
      destruct (terms (document_of s) !! t); [|f_equal; lia]. by rewrite <- Z.add_opp_r, i64_add_idemp.
    + rewrite Hf, decide_False by done. f_equal. lia.
  - intros sc. rewrite lookup_insert. case_decide as Es; rewrite Hlen; unfold len_weight.
    + subst sc. simpl. rewrite Hl, decide_True by done. by rewrite <- Z.add_opp_r, i64_add_idemp.
    + rewrite Hl, decide_False by done. f_equal. lia.
Qed.

Lemma add_indexed ix D s :
  indexed ix D -> D !! ID s = None -> ID s <> ""%string -> Tokenize (Content s) <> [] ->
  indexed (addLocked (ID s) (document_of s) ix) (<[ID s := s]> D).
Proof using.
  intros [P K Hd Hp Hs Hf Hl] Hid Hne Htok.
  assert (Hdf : forall sc t, df_of (<[ID s := s]> D) sc t = df_of D sc t + df_weight sc t s).
  { intros sc t. unfold df_of. rewrite msum_insert by done. lia. }
  assert (Hlen : forall sc, len_of (<[ID s := s]> D) sc = len_of D sc + len_weight sc s).
  { intros sc. unfold len_of. rewrite msum_insert by done. lia. }
  unfold addLocked. change (SScope (value (document_of s))) with (SScope s). split; simpl; try done.
  - apply map_Forall_insert; done.
  - by rewrite Hd, fmap_insert.
  - intros t. rewrite add_postings_lookup, Hp, default_kept.
    change (terms (document_of s) !! t) with (term_count t s).
    destruct (term_count t s) as [n|] eqn:E; [by rewrite (omap_insert_Some _ _ _ _ n), kept_insert|].
    rewrite omap_insert_None by done. rewrite delete_id; [done|]. by rewrite lookup_omap, Hid.
  - intros sc. rewrite lookup_insert, !Hs. case_decide as Es.
    + subst sc. rewrite default_kept_set, scoped_insert. unfold kept_set at 1, is_empty_set. rewrite bool_decide_false; [done|]. set_solver.
    + by rewrite scoped_insert_ne.
  - intros sc t. rewrite lookup_insert. case_decide as Es; rewrite Hdf; unfold df_weight, term_count.
    + subst sc. cbn [from_option]; unfold Datatypes.id. rewrite more_dfs_lookup, Hf, decide_True by done.
      destruct (terms (document_of s) !! t); [by rewrite i64_add_idemp|f_equal; lia].
    + rewrite Hf, decide_False by done. f_equal. lia.
  - intros sc. rewrite lookup_insert. case_decide as Es; rewrite Hlen; unfold len_weight.
    + subst sc. simpl. rewrite Hl, decide_True by done. by rewrite i64_add_idemp.
    + rewrite Hl, decide_False by done. f_equal. lia.
Qed.
(** ** The index as a map of slices *)

(** An insertion keeps the latest content of an ID; content without tokens is
    removed; an operation that fails changes nothing. *)
Inductive index_op := OpInsert (s : Slice) | OpRemove (id : string).

Definition index_step (ix : option Index) (o : index_op) : option Index :=
  match (match o with OpInsert s => Insert (Some s) ix | OpRemove id => Remove id ix end) with
  | Ok ix' => ix'
  | Err _ => ix
  end.

Definition contents_step (D : gmap string Slice) (o : index_op) : gmap string Slice :=
  match o with
  | OpInsert s =>
      if (ID s =? "")%string then D else
      match Tokenize (Content s) with [] => delete (ID s) D | _ => <[ID s := s]> D end
  | OpRemove id => delete id D
  end.

Lemma remove_step ix D id : indexed ix D ->
  indexed (match docs ix !! id with Some doc => removeLocked id doc ix | None => ix end) (delete id D).
Proof using.
  intros Hix. rewrite (ix_docs _ _ Hix), lookup_fmap. destruct (D !! id) as [s|] eqn:E; simpl.
  - by apply remove_indexed.
  - by rewrite delete_id.
Qed.

Lemma initLocked_id ix D : indexed ix D -> initLocked ix = ix.
Proof using. intros [[P1 P2] _ _ _ _ _ _]. destruct ix. simpl in *. subst. reflexivity. Qed.

Lemma index_step_indexed ix D o :
  indexed ix D -> exists ix', index_step (Some ix) o = Some ix' /\ indexed ix' (contents_step D o).
Proof using.
  intros Hix. unfold index_step, contents_step. destruct o as [s|id]; unfold Insert, Remove.
  - destruct (String.eqb_spec (ID s) "") as [Hs|Hne]; [by eauto|].
    destruct (Tokenize (Content s)) eqn:Et; [eexists; split; [done|]; by apply remove_step|].
    rewrite (initLocked_id ix D Hix). eexists. split; [done|]. rewrite <- insert_delete_eq.
    apply add_indexed; [by apply remove_step|apply lookup_delete_eq|done|by rewrite Et].
  - destruct (String.eqb_spec id "") as [->|Hne]; [|eexists; split; [done|]; by apply remove_step].
    eexists. split; [done|]. rewrite delete_id; [done|]. destruct (D !! ""%string) eqn:E; [|done].
    by destruct (ix_keys _ _ Hix _ _ E) as (_ & ? & _).
Qed.

Definition contents (ops : list index_op) : gmap string Slice := foldl contents_step ∅ ops.

Lemma run_indexed ops : exists ix, foldl index_step (Some New) ops = Some ix /\ indexed ix (contents ops).
Proof using.
  unfold contents. induction ops as [|o ops IH] using rev_ind; [eexists; split; [done|]; apply New_indexed|].
  destruct IH as (ix & E & Hix). rewrite !foldl_app, E. by apply index_step_indexed.
Qed.

(** ** Ranked search over the slices themselves *)

Definition matching (D : gmap string Slice) (queryTerms : list string) (sc : Scope) : gset string :=
  filter (fun id => existsb (fun t => bool_decide (is_Some (D !! id ≫= term_count t))) queryTerms = true) (scoped D sc).

(** BM25 with a slice's own term counts and the scope's document counts. *)
Definition bm25_score (D : gmap string Slice) (queryTerms : list string) (sc : Scope) (s : Slice) : f64 :=
  let n := Z.of_nat (size (scoped D sc)) in
  let avgLength := (f_of_int (i64 (len_of D sc)) / f_of_int n)%f64 in
  if doc_length (document_of s) =? 0 then f0 else
  foldl (fun acc t =>
    let tf := default 0 (term_count t s) in let df := i64 (df_of D sc t) in
    if (tf =? 0) || (df =? 0) then acc
    else (acc + term_score math_log New tf df n (f_of_int (doc_length (document_of s))) avgLength)%f64) f0 queryTerms.

Definition ranked_hit (D : gmap string Slice) (queryTerms : list string) (sc : Scope) (id : string) : option Hit :=
  s ← D !! id;
  let score := bm25_score D queryTerms sc s in
  if (score <=? f0)%f64 then None else Some (search_hit (document_of s) queryTerms score).

Definition ranked_search (D : gmap string Slice) (query : string) (k : Z) (sc : Scope) : result (list Hit) :=
  if k <=? 0 then Ok [] else
  match uniqueTerms (Tokenize query) with
  | [] => Err "bm25: query must contain at least one letter or number"
  | queryTerms =>
      let n := Z.of_nat (size (scoped D sc)) in
      if n =? 0 then Ok [] else
      if (f_of_int (i64 (len_of D sc)) / f_of_int n <=? f0)%f64 then Ok [] else
      Ok (take (Z.to_nat k) (go_sort hit_less (omap (ranked_hit D queryTerms sc) (elements (matching D queryTerms sc)))))
  end.

Lemma candidates_matching ix D queryTerms sc :
  indexed ix D -> candidates ix queryTerms (scoped D sc) = matching D queryTerms sc.
Proof using.
  intros Hix. apply set_eq. intros id. unfold candidates, matching. rewrite elem_of_filter.
  assert (Hc : forall t, id ∈ dom (default ∅ (postings ix !! t)) <-> is_Some (D !! id ≫= term_count t)).
  { intros t. rewrite (ix_postings _ _ Hix), default_kept, elem_of_dom, lookup_omap. done. }
  assert (H1 : forall c, id ∈ foldl (fun c t => c ∪ (dom (default ∅ (postings ix !! t)) ∩ scoped D sc)) c queryTerms
    <-> id ∈ c \/ (existsb (fun t => bool_decide (is_Some (D !! id ≫= term_count t))) queryTerms = true /\ id ∈ scoped D sc)).
  { induction queryTerms as [|t ts IH]; intros c; simpl; [naive_solver|].
    rewrite IH, elem_of_union, elem_of_intersection, Hc, orb_true_iff, bool_decide_eq_true. tauto. }
  rewrite H1. set_solver.
Qed.

Lemma score_spec ix D queryTerms sc s :
  indexed ix D ->
  score math_log ix (Some (document_of s)) queryTerms sc (Z.of_nat (size (scoped D sc)))
    (f_of_int (i64 (len_of D sc)) / f_of_int (Z.of_nat (size (scoped D sc))))%f64 = bm25_score D queryTerms sc s.
Proof using.
  intros Hix.
  assert (Ht : forall tf df n l avg, term_score math_log ix tf df n l avg = term_score math_log New tf df n l avg).
  { intros. unfold term_score. destruct (ix_params _ _ Hix) as [-> ->]. done. }
  unfold score, bm25_score. cbv zeta. destruct (doc_length (document_of s) =? 0); [done|].
  generalize f0 at 1 2. intros acc. revert acc. induction queryTerms as [|t ts IH]; intros acc; [done|]. cbn [foldl].
  rewrite (ix_df _ _ Hix), Ht. apply IH.
Qed.

Lemma candidate_hit_spec ix D queryTerms sc id :
  indexed ix D ->
  candidate_hit math_log ix queryTerms sc (Z.of_nat (size (scoped D sc)))
    (f_of_int (i64 (len_of D sc)) / f_of_int (Z.of_nat (size (scoped D sc))))%f64 id = ranked_hit D queryTerms sc id.
Proof using.
  intros Hix. unfold candidate_hit, ranked_hit. rewrite (ix_docs _ _ Hix), lookup_fmap.
  destruct (D !! id) as [s|]; cbn [fmap option_fmap option_map mbind option_bind]; [|done]. cbv zeta. by rewrite (score_spec ix D) by done.
Qed.

Lemma Search_ranked ix D query k sc : indexed ix D -> Search math_log (Some ix) query k sc = ranked_search D query k sc.
Proof using.
  intros Hix. unfold Search, ranked_search. destruct (k <=? 0); [done|].
  destruct (uniqueTerms (Tokenize query)) as [|q qs]; [done|].
  rewrite (ix_scopeDocs _ _ Hix), default_kept_set, (ix_len _ _ Hix). cbv zeta.
  destruct (_ =? 0); [done|]. destruct (_ <=? f0)%f64; [done|]. rewrite (candidates_matching ix D) by done.
  do 3 f_equal. apply list_omap_ext. apply Forall_Forall2_diag, Forall_true. intros id. by apply candidate_hit_spec.
Qed.
(** ** Properties *)

(** C20: the index is a ranking of its slices.  After any sequence of insertions and
    removals - replaced contents, content without tokens and failing calls
    included - a search returns what a scan over the slices that are left would:
    the postings, document frequencies and lengths that are updated in place
    never drift from them. *)
Theorem Search_refines ops query k sc :
  exists ix, foldl index_step (Some New) ops = Some ix
    /\ Search math_log (Some ix) query k sc = ranked_search (contents ops) query k sc.
Proof using.
  destruct (run_indexed ops) as (ix & E & Hix). exists ix. split; [done|]. by apply Search_ranked.
Qed.

Lemma ranked_hits_ids D qs sc (l : list string) :
  map_Forall (fun id s => ID s = id) D -> map hit_id (omap (ranked_hit D qs sc) l) `sublist_of` l.
Proof using.
  intros HD. induction l as [|id l IH]; [constructor|]. cbn [omap list_omap]. unfold ranked_hit at 1.
  destruct (D !! id) as [s|] eqn:E; cbn [mbind option_bind]; [|by constructor]. cbv zeta.
  destruct (_ <=? f0)%f64; [by constructor|]. cbn [map]. unfold hit_id at 1. cbn [HitSlice search_hit value document_of].
  rewrite (HD id s E). by constructor.
Qed.

Lemma elem_of_ranked D qs sc h (l : list string) :
  h ∈ omap (ranked_hit D qs sc) l <->
  exists id s, id ∈ l /\ D !! id = Some s /\ (bm25_score D qs sc s <=? f0)%f64 = false
    /\ h = search_hit (document_of s) qs (bm25_score D qs sc s).
Proof using.
  rewrite list_elem_of_omap. split.
  - intros (id & Hin & Hr). unfold ranked_hit in Hr. destruct (D !! id) as [s|] eqn:E; [|done]. cbn [mbind option_bind] in Hr. cbv zeta in Hr.
    destruct (_ <=? f0)%f64 eqn:El; [done|]. exists id, s. by simplify_eq.
  - intros (id & s & Hin & E & Hl & ->). exists id. split; [done|]. unfold ranked_hit. rewrite E. cbn [mbind option_bind]. cbv zeta.
    by rewrite Hl.
Qed.
Lemma elem_of_matching D qs sc id :
  id ∈ matching D qs sc <->
  exists s, D !! id = Some s /\ SScope s = sc /\ exists t, t ∈ qs /\ is_Some (term_count t s).
Proof using.
  unfold matching, scoped. rewrite elem_of_filter, elem_of_dom, lookup_omap, existsb_exists. split.
  - intros [(t & Ht & Hb) Hs]. destruct (D !! id) as [s|]; [|by destruct Hs]. cbn [mbind option_bind] in *.
    destruct (decide (SScope s = sc)); [|by destruct Hs]. apply bool_decide_eq_true in Hb.
    exists s. split; [done|]. split; [done|]. exists t. by rewrite list_elem_of_In.
  - intros (s & -> & Hs & t & Ht & Hc). cbn [mbind option_bind]. rewrite decide_True by done. split; [|done].
    exists t. rewrite <- list_elem_of_In, bool_decide_eq_true. done.
Qed.

Lemma contents_keyed ops : map_Forall (fun id s => ID s = id) (contents ops).
Proof using. destruct (run_indexed ops) as (ix & _ & Hix). intros id s Hs. by destruct (ix_keys _ _ Hix id s Hs). Qed.

(** The ranking of the matching slices, unless scores are NaN. *)
Lemma ranking_spec D qs sc :
  map_Forall (fun id s => ID s = id) D -> map_Forall (fun _ s => is_nan (bm25_score D qs sc s) = false) D ->
  let l := go_sort hit_less (omap (ranked_hit D qs sc) (elements (matching D qs sc))) in
  NoDup (map hit_id l) /\ StronglySorted (not_after hit_less) l
  /\ forall h, h ∈ l <-> exists s, D !! ID s = Some s /\ SScope s = sc /\ (exists t, t ∈ qs /\ is_Some (term_count t s))
       /\ (bm25_score D qs sc s <=? f0)%f64 = false /\ h = search_hit (document_of s) qs (bm25_score D qs sc s).
Proof using.
  intros HD Hn l. subst l. split; [|split].
  - change (map hit_id ?l) with (hit_id <$> l). rewrite go_sort_perm. change (hit_id <$> ?l) with (map hit_id l).
    pose proof (ranked_hits_ids D qs sc (elements (matching D qs sc)) HD) as Hs. eapply sublist_NoDup; [|exact Hs]. apply NoDup_elements.
  - apply ranked_sort_sorted, Forall_forall. intros h Hh. apply elem_of_ranked in Hh as (id & s & _ & E & _ & ->). exact (Hn id s E).
  - intros h. rewrite elem_of_go_sort, elem_of_ranked. split.
    + intros (id & s & Hid & E & Hl & ->). rewrite elem_of_elements, elem_of_matching in Hid.
      destruct Hid as (s' & E' & Hsc & Ht). simplify_eq. exists s'. by rewrite (HD id s' E').
    + intros (s & E & Hsc & Ht & Hl & ->). exists (ID s), s. rewrite elem_of_elements, elem_of_matching. eauto 10.
Qed.

(** Its hits are slices of the scope, whatever the scores are. *)
Lemma ranked_search_hits D query k sc hits :
  map_Forall (fun id s => ID s = id) D -> ranked_search D query k sc = Ok hits ->
  (length hits <= Z.to_nat k)%nat /\ NoDup (map hit_id hits)
  /\ forall h, h ∈ hits -> exists s, HitSlice h = Some s /\ D !! ID s = Some s /\ SScope s = sc /\ QueryCoverageValid h = true.
Proof using.
  intros HD. unfold ranked_search.
  assert (Hnil : forall hits : list Hit, [] = hits -> (length hits <= Z.to_nat k)%nat /\ NoDup (map hit_id hits)
    /\ forall h, h ∈ hits -> exists s, HitSlice h = Some s /\ D !! ID s = Some s /\ SScope s = sc /\ QueryCoverageValid h = true).
  { intros ? <-. split; [simpl; lia|]. split; [constructor|]. by intros h ?%not_elem_of_nil. }
  destruct (k <=? 0); [by intros [= E]; apply Hnil|]. destruct (uniqueTerms _) as [|q qs]; [done|]. cbv zeta.
  destruct (_ =? 0); [by intros [= E]; apply Hnil|]. destruct (_ <=? f0)%f64; [by intros [= E]; apply Hnil|].
  intros [= <-]. split; [rewrite length_take; lia|]. split.
  - change (map hit_id ?x) with (hit_id <$> x). rewrite fmap_take. apply sublist_NoDup_take. rewrite go_sort_perm.
    change (hit_id <$> ?l) with (map hit_id l). eapply sublist_NoDup; [|by apply ranked_hits_ids]. apply NoDup_elements.
  - intros h Hh. apply elem_of_take in Hh as (i & Hi & _). apply list_elem_of_lookup_2 in Hi. rewrite elem_of_go_sort, elem_of_ranked in Hi.
    destruct Hi as (id & s & Hid & E & _ & ->). rewrite elem_of_elements, elem_of_matching in Hid. destruct Hid as (s' & E' & Hsc & _).
    simplify_eq. exists s'. by rewrite (HD id s' E').
Qed.

Lemma ranked_search_fails D query k sc e : ranked_search D query k sc = Err e -> uniqueTerms (Tokenize query) = [].
Proof using. unfold ranked_search. destruct (k <=? 0); [done|]. destruct (uniqueTerms _); [done|]. repeat case_match; done. Qed.

Lemma ranked_search_words D query k sc :
  0 < k -> uniqueTerms (Tokenize query) <> [] ->
  ranked_search D query k sc =
    let n := Z.of_nat (size (scoped D sc)) in
    if n =? 0 then Ok [] else
    if (f_of_int (i64 (len_of D sc)) / f_of_int n <=? f0)%f64 then Ok [] else
    let qs := uniqueTerms (Tokenize query) in
    Ok (take (Z.to_nat k) (go_sort hit_less (omap (ranked_hit D qs sc) (elements (matching D qs sc))))).
Proof using.
  intros Hk Hq. unfold ranked_search. destruct (Z.leb_spec k 0); [lia|]. by destruct (uniqueTerms (Tokenize query)).
Qed.

(** a search returns the best.  If no score is NaN, a search for a positive
    number of results and a query with words succeeds; its hits are distinct
    slices of the scope that share a word with the query, scored by BM25 and
    positive, in order of score and then of ID; and any other slice of which that
    could be said is left out only because [k] hits that do not rank after it
    were found. *)
Theorem Search_top ops query k sc :
  0 < k -> uniqueTerms (Tokenize query) <> [] ->
  let D := contents ops in let qs := uniqueTerms (Tokenize query) in
  map_Forall (fun _ s => is_nan (bm25_score D qs sc s) = false) D ->
  (f_of_int (i64 (len_of D sc)) / f_of_int (Z.of_nat (size (scoped D sc))) <=? f0)%f64 = false ->
  exists ix hits, foldl index_step (Some New) ops = Some ix /\ Search math_log (Some ix) query k sc = Ok hits
    /\ (length hits <= Z.to_nat k)%nat /\ NoDup (map hit_id hits) /\ StronglySorted (not_after hit_less) hits
    /\ (forall h, h ∈ hits -> exists s, HitSlice h = Some s /\ Score h = bm25_score D qs sc s
          /\ D !! ID s = Some s /\ SScope s = sc /\ (exists t, t ∈ qs /\ is_Some (term_count t s)) /\ (Score h <=? f0)%f64 = false)
    /\ (forall s, D !! ID s = Some s -> SScope s = sc -> (exists t, t ∈ qs /\ is_Some (term_count t s)) ->
          (bm25_score D qs sc s <=? f0)%f64 = false ->
          let h := search_hit (document_of s) qs (bm25_score D qs sc s) in
          h ∈ hits \/ (length hits = Z.to_nat k /\ forall h', h' ∈ hits -> not_after hit_less h' h)).
Proof using.
  intros Hk Hq D qs Hn Ha. destruct (run_indexed ops) as (ix & E & Hix).
  destruct (ranking_spec D qs sc (contents_keyed ops) Hn) as (Hnd & Hsort & Hin). set (l := go_sort _ _) in *.
  exists ix. rewrite (Search_ranked ix (contents ops)), ranked_search_words by done. fold D qs. cbv zeta. rewrite Ha.
  destruct (Z.eqb_spec (Z.of_nat (size (scoped D sc))) 0) as [Hz|Hz].
  { exists []. assert (Hs : scoped D sc = ∅) by (apply leibniz_equiv, size_empty_inv; lia).
    split; [done|]. split; [done|]. split; [simpl; lia|]. split; [constructor|]. split; [constructor|].
    split; [by intros h Hh%not_elem_of_nil|]. intros s E' Hsc _ _. exfalso.
    assert (Hm : ID s ∈ scoped D sc); [|by rewrite Hs in Hm; apply not_elem_of_empty in Hm].
    apply elem_of_dom. exists s. rewrite lookup_omap, E'. cbn [mbind option_bind]. by rewrite decide_True. }
  exists (take (Z.to_nat k) l). split; [done|]. split; [done|]. split; [rewrite length_take; lia|].
  split; [change (map hit_id ?x) with (hit_id <$> x); rewrite fmap_take; by apply sublist_NoDup_take|].
  split; [by apply StronglySorted_take|]. split.
  - intros h Hh. assert (Hh' : h ∈ l) by (apply elem_of_take in Hh as (i & Hi & _); by eapply list_elem_of_lookup_2).
    apply Hin in Hh' as (s & ? & ? & ? & ? & ->). exists s. done.
  - intros s Hs Hsc Ht Hp. set (h := search_hit _ _ _). assert (Hh : h ∈ l) by (apply Hin; exists s; done).
    rewrite <- (take_drop (Z.to_nat k) l) in Hh, Hsort. apply elem_of_app in Hh as [Hh|Hh]; [by left|]. right. split.
    + rewrite length_take_le; [done|]. destruct (decide (Z.to_nat k <= length l)%nat); [done|]. rewrite drop_ge in Hh by lia.
      by apply not_elem_of_nil in Hh.
    + intros h' Hh'. by eapply (StronglySorted_app_1_elem_of (not_after hit_less)).
Qed.
End Refinement.

(** ** On a small library *)

Module Bm25Sample.
#[local] Existing Instance ascii_lower.
#[local] Existing Instance ascii_classes.
(** A logarithm that is good enough to rank: its first-order approximation. *)
Definition log1 (x : f64) : f64 := (x - f1)%f64.

Definition doc (id content : string) : Slice := mkSlice id Prompt Project content None zero_stats f0 zero_meta 1.
Definition ops : list index_op :=
  [OpInsert (doc "a" "fix the Parser"); OpInsert (doc "b" "run tests"); OpInsert (doc "c" "parser tests, parser");
   OpInsert (doc "b" "fix tests"); OpRemove "zz"; OpInsert (doc "" "parser"); OpInsert (doc "d" "...")].
Definition found : result (list Hit) :=
  match foldl index_step (Some New) ops with Some ix => Search log1 (Some ix) "PARSER fix" 2 Project | None => Err "none" end.

Example tokens : Tokenize "Fix a_1 (now)" = ["fix"; "a_1"; "now"]%string.
Proof. vm_compute. done. Qed.

Example top_two : match found with Ok hits => map hit_id hits = ["a"; "c"]%string | Err _ => False end.
Proof. vm_compute. done. Qed.

Lemma Search_top_witness :
  exists ix hits, foldl index_step (Some New) ops = Some ix /\ Search log1 (Some ix) "PARSER fix" 2 Project = Ok hits
    /\ (length hits <= 2)%nat.
Proof.
  assert (Hn : map_Forall (fun _ s => is_nan (bm25_score log1 (contents ops) (uniqueTerms (Tokenize "PARSER fix")) Project s) = false) (contents ops)).
  { apply map_Forall_to_list, Forall_forall. intros [id s] Hs%list_elem_of_In.
    assert (H : forallb (fun p => negb (is_nan (bm25_score log1 (contents ops) (uniqueTerms (Tokenize "PARSER fix")) Project p.2)))
      (map_to_list (contents ops)) = true) by (vm_compute; reflexivity).
    rewrite forallb_forall in H. specialize (H _ Hs). by apply negb_true_iff in H. }
  destruct (Search_top log1 ops "PARSER fix" 2 Project) as (ix & hits & E & Hs & Hl & _);
    [lia|vm_compute; discriminate|exact Hn|vm_compute; reflexivity|].
  exists ix, hits. split; [exact E|]. split; [exact Hs|exact Hl].
Defined.
End Bm25Sample.
