(* ===== verification/Fuse.v ===== *)
(** kernel/fuse: merging the BM25 and the vector route into one ranking.

    Go ranges over a map in any order: the order is an argument of the
    definitions, a permutation of the entries.  A nil slice in a route makes the
    code panic: [None]. *)

From Stdlib Require Import ZArith Lia Bool QArith Lqa String Floats.SpecFloat.
From stdpp Require Import tactics base option list sorting gmap fin_maps strings.
From S2P Require Import Prelude Float64 Rounding FloatBounds GoStrings Slice Bm25.

#[global] Open Scope Z_scope.

Variant Strategy := Weighted | RRF | UnknownStrategy (n : Z).

Record Config := mkConfig {
  CfgStrategy : Strategy;
  RrfK : Z;
  BM25Weight : option f64;      (* a pointer: [None] is nil *)
}.

Definition DefaultRrfK : Z := 60.
Definition DefaultBM25Weight : f64 := f_of_ratio 1 2.

Definition rrfK (c : Config) : Z := if RrfK c <=? 0 then DefaultRrfK else RrfK c.
Definition bm25Weight (c : Config) : f64 := match BM25Weight c with None => DefaultBM25Weight | Some w => w end.

(** [normalize]: a route's scores relative to its own first. *)
Definition normalize_step (top1 : f64) (m : option (gmap string f64)) (h : Hit) : option (gmap string f64) :=
  m ← m; if (Score h >? f0)%f64 then s ← HitSlice h; Some (<[ID s := (Score h / top1)%f64]> m) else Some m.

Definition normalize (hits : list Hit) : option (gmap string f64) :=
  match hits with
  | [] => Some ∅
  | h :: _ => let top1 := Score h in if (top1 <=? f0)%f64 then Some ∅ else foldl (normalize_step top1) (Some ∅) hits
  end.

(** The first slice seen under an ID is kept. *)
Definition merge_slice (m : gmap string Slice) (s : Slice) : gmap string Slice :=
  match m !! ID s with Some _ => m | None => <[ID s := s]> m end.

Definition fused_hit (score lexical : f64) (s : Slice) : option Hit :=
  if (score <=? f0)%f64 then None else Some (mkHit (Some s) score f0 false lexical true).

Definition orderHits (out : list Hit) : list Hit := go_sort (ranked_less Score hit_id) out.

Section Fuse.
Context `{UnicodeLower} `{UnicodeClasses} (map_range : gmap string Slice -> list (string * Slice)).

Definition weighted_score (w : f64) (bmN vecN : gmap string f64) (id : string) : f64 :=
  let score := f0 in
  let score := match bmN !! id with Some v => (score + w * v)%f64 | None => score end in
  match vecN !! id with Some v => (score + (f1 - w) * v)%f64 | None => score end.

Definition fuseWeighted (bm vec : list Hit) (cfg : Config) : option (list Hit) :=
  let w := bm25Weight cfg in
  bmN ← normalize bm;
  vecN ← normalize vec;
  if bool_decide (bmN = ∅) && bool_decide (vecN = ∅) then Some [] else
  bms ← mapM HitSlice bm;
  vecs ← mapM HitSlice vec;
  let merged := foldl merge_slice (foldl merge_slice ∅ bms) vecs in
  Some (orderHits (omap (fun e => fused_hit (weighted_score w bmN vecN e.1) (default f0 (bmN !! e.1)) e.2) (map_range merged))).

(** [addRoute]: the reciprocal ranks of one route. *)
Definition reciprocal (kk : Z) (i : nat) : f64 := (f1 / (f_of_int kk + f_of_int (Z.of_nat i) + f1))%f64.

Fixpoint addRoute (kk : Z) (i : nat) (hits : list Hit) (st : gmap string Slice * gmap string f64) :
    option (gmap string Slice * gmap string f64) :=
  match hits with
  | [] => Some st
  | h :: hits =>
      s ← HitSlice h;
      let '(merged, score) := st in
      addRoute kk (S i) hits (merge_slice merged s, <[ID s := (default f0 (score !! ID s) + reciprocal kk i)%f64]> score)
  end.

Definition rrf_scale (kk : Z) : f64 := (f_of_int (kk +! 1) / f_of_int 2)%f64.

Definition fuseRRF (bm vec : list Hit) (query : string) (cfg : Config) : option (list Hit) :=
  let kk := rrfK cfg in
  st ← addRoute kk 0 bm (∅, ∅);
  st ← addRoute kk 0 vec st;
  let '(merged, score) := st in
  if bool_decide (score = ∅) then Some [] else
  Some (orderHits (omap (fun e =>
    fused_hit (default f0 (score !! e.1) * rrf_scale kk)%f64 (Bm25.QueryCoverage query (Content e.2)) e.2) (map_range merged))).

Definition Fuse (bm vec : list Hit) (query : string) (k : Z) (cfg : Config) : option (list Hit) :=
  if k <=? 0 then Some [] else
  out ← match CfgStrategy cfg with RRF => fuseRRF bm vec query cfg | _ => fuseWeighted bm vec cfg end;
  Some (cap_list k out).
End Fuse.

(** ** The reference ranking *)

(** A hit's place in a route and the hit. *)
Definition place (hits : list Hit) (id : string) : option (nat * Hit) := list_find (fun h => hit_id h = id) hits.

(** A route as the indexes return it: slices with distinct IDs, in descending
    order of finite scores. *)
Record route (hits : list Hit) : Prop := {
  rt_slices : Forall (fun h => is_Some (HitSlice h)) hits;
  rt_ids : NoDup (map hit_id hits);
  rt_scores : Forall (fun h => valid (Score h) = true /\ finite (Score h) = true) hits;
  rt_sorted : StronglySorted (fun h h' => (Score h' <=? Score h)%f64 = true) hits;
  rt_length : Z.of_nat (length hits) <= 2 ^ 53;
}.

Definition config_ok (c : Config) : Prop :=
  match CfgStrategy c with RRF => rrfK c < 2 ^ 53 - 1 | _ => in_unit (bm25Weight c) end.

(** What a route contributes to an ID under each strategy; nothing is zero. *)
Definition weighted_part (hits : list Hit) (id : string) : f64 :=
  match hits, place hits id with
  | top :: _, Some (_, h) => if (Score h >? f0)%f64 then (Score h / Score top)%f64 else f0
  | _, _ => f0
  end.
Definition rrf_part (kk : Z) (hits : list Hit) (id : string) : f64 :=
  match place hits id with Some (i, _) => reciprocal kk i | None => f0 end.

Definition fused_score (c : Config) (bm vec : list Hit) (id : string) : f64 :=
  match CfgStrategy c with
  | RRF => ((rrf_part (rrfK c) bm id + rrf_part (rrfK c) vec id) * rrf_scale (rrfK c))%f64
  | _ => let w := bm25Weight c in (w * weighted_part bm id + (f1 - w) * weighted_part vec id)%f64
  end.

Definition merged (bm vec : list Hit) : gmap string Slice :=
  foldl merge_slice (foldl merge_slice ∅ (omap HitSlice bm)) (omap HitSlice vec).

Lemma merge_slices_lookup l m id :
  foldl merge_slice m l !! id = match m !! id with Some s => Some s | None => snd <$> list_find (fun s => ID s = id) l end.
Proof.
  revert m. induction l as [|s l IH]; intros m; cbn [foldl list_find]; [by destruct (m !! id)|].
  rewrite IH. unfold merge_slice. destruct (m !! ID s) as [s'|] eqn:E.
  - case_decide as Hd; [subst; by rewrite E|]. destruct (m !! id); [done|]. by destruct (list_find _ l) as [[]|].
  - destruct (decide (ID s = id)) as [<-|Hd]; [by rewrite lookup_insert_eq, E|].
    rewrite lookup_insert_ne by done. destruct (m !! id); [done|]. by destruct (list_find _ l) as [[]|].
Qed.

Lemma hit_id_slice h s : HitSlice h = Some s -> hit_id h = ID s.
Proof. unfold hit_id. by intros ->. Qed.

(** A fold with distinct keys touches each key once. *)
Lemma place_cons h hits id :
  place (h :: hits) id = if decide (hit_id h = id) then Some (0%nat, h) else prod_map S Datatypes.id <$> place hits id.
Proof. done. Qed.

Lemma place_Some hits id i h : place hits id = Some (i, h) -> hits !! i = Some h /\ hit_id h = id.
Proof. intros (? & ? & _)%list_find_Some. done. Qed.

Lemma place_None hits id : place hits id = None <-> id ∉ map hit_id hits.
Proof.
  unfold place. rewrite list_find_None, Forall_forall, list_elem_of_fmap. naive_solver.
Qed.

Lemma place_lookup hits i h : NoDup (map hit_id hits) -> hits !! i = Some h -> place hits (hit_id h) = Some (i, h).
Proof.
  intros Hnd Hi. apply list_find_Some. split; [done|]. split; [done|]. intros j y Hj Hlt E.
  assert (i = j); [|lia]. eapply NoDup_lookup; [exact Hnd| |]; change (map hit_id hits) with (hit_id <$> hits);
    rewrite list_lookup_fmap; [by rewrite Hi|by rewrite Hj, <- E].
Qed.

Lemma mapM_slices hits : Forall (fun h => is_Some (HitSlice h)) hits -> mapM HitSlice hits = Some (omap HitSlice hits).
Proof.
  induction 1 as [|h hits [s Hs] _ IH]; [done|]. cbn [mapM omap list_omap]. rewrite IH, Hs. done.
Qed.

Lemma normalize_fold top1 hits m :
  Forall (fun h => is_Some (HitSlice h)) hits -> NoDup (map hit_id hits) ->
  exists m', foldl (normalize_step top1) (Some m) hits = Some m'
    /\ forall id, m' !! id = match place hits id with
         | Some (_, h) => if (Score h >? f0)%f64 then Some (Score h / top1)%f64 else m !! id
         | None => m !! id end.
Proof.
  intros Hs. revert m. induction Hs as [|h hits [s Hs] _ IH]; intros m Hnd; [by exists m|].
  cbn [map] in Hnd. apply NoDup_cons in Hnd as [Hni Hnd]. cbn [foldl]. pose proof (hit_id_slice h s Hs) as Hid.
  set (m1 := if (Score h >? f0)%f64 then <[ID s := (Score h / top1)%f64]> m else m).
  assert (E : normalize_step top1 (Some m) h = Some m1).
  { unfold normalize_step, m1. cbn [mbind option_bind]. destruct (_ <? _)%f64; [|done]. by rewrite Hs. }
  rewrite E. destruct (IH m1 Hnd) as (m' & Ef & Hm). exists m'. split; [done|]. intros id. rewrite Hm, place_cons.
  destruct (decide (hit_id h = id)) as [<-|Hne].
  - rewrite (proj2 (place_None _ _) Hni). unfold m1. destruct (_ <? _)%f64; [|done]. by rewrite Hid, lookup_insert_eq.
  - assert (Em : m1 !! id = m !! id).
    { unfold m1. destruct (_ <? _)%f64; [|done]. apply lookup_insert_ne. by rewrite <- Hid. }
    rewrite Em. by destruct (place hits id) as [[]|].
Qed.

Lemma route_top h hits : route (h :: hits) -> Forall (fun h' => (Score h' <=? Score h)%f64 = true) (h :: hits).
Proof.
  intros [_ _ Hf Hs _]. apply StronglySorted_inv in Hs as [_ Hs]. constructor; [|done].
  apply Forall_cons in Hf as [[_ Hf] _]. apply fleb_refl. revert Hf. unfold finite. by destruct (is_nan _).
Qed.

Lemma normalize_spec hits : route hits ->
  exists m, normalize hits = Some m /\ forall id, default f0 (m !! id) = weighted_part hits id.
Proof.
  intros Hr. destruct hits as [|top hits]; [by exists ∅|]. unfold normalize.
  destruct (Score top <=? f0)%f64 eqn:Ht.
  - exists ∅. split; [done|]. intros id. rewrite lookup_empty. cbn [default]. unfold weighted_part.
    enough (E : match place (top :: hits) id with Some (_, h) => if (Score h >? f0)%f64 then (Score h / Score top)%f64 else f0 | None => f0 end = f0)
      by (by rewrite E).
    destruct (place (top :: hits) id) as [[i h]|] eqn:Ep; [|done]. apply place_Some in Ep as [Hi _].
    pose proof (route_top _ _ Hr) as Hall. rewrite Forall_forall in Hall. specialize (Hall h (list_elem_of_lookup_2 _ _ _ Hi)).
    destruct (Score h >? f0)%f64 eqn:Eh; [|done]. pose proof (fltb_fleb_trans _ _ _ Eh Hall) as Hp.
    pose proof (fleb_fltb_trans _ _ _ Ht Hp) as Hx. by rewrite fltb_irrefl in Hx.
  - destruct (normalize_fold (Score top) (top :: hits) ∅ (rt_slices _ Hr) (rt_ids _ Hr)) as (m & Em & Hm).
    exists m. split; [done|]. intros id. rewrite Hm, lookup_empty. unfold weighted_part.
    destruct (place (top :: hits) id) as [[i h]|]; [|done]. by destruct (_ <? _)%f64.
Qed.

Lemma addRoute_spec kk i hits mg sc :
  Forall (fun h => is_Some (HitSlice h)) hits -> NoDup (map hit_id hits) ->
  exists sc', addRoute kk i hits (mg, sc) = Some (foldl merge_slice mg (omap HitSlice hits), sc')
    /\ forall id, sc' !! id = match place hits id with
         | Some (j, _) => Some (default f0 (sc !! id) + reciprocal kk (i + j))%f64 | None => sc !! id end.
Proof.
  intros Hs. revert i mg sc. induction Hs as [|h hits [s Hs] _ IH]; intros i mg sc Hnd; [by exists sc|].
  cbn [map] in Hnd. apply NoDup_cons in Hnd as [Hni Hnd]. cbn [addRoute omap list_omap]. rewrite Hs. cbn [mbind option_bind foldl].
  pose proof (hit_id_slice h s Hs) as Hid. rewrite <- Hid.
  destruct (IH (S i) (merge_slice mg s) (<[hit_id h := (default f0 (sc !! hit_id h) + reciprocal kk i)%f64]> sc) Hnd) as (sc' & E & Hsc).
  exists sc'. split; [done|]. intros id. rewrite Hsc, place_cons.
  destruct (decide (hit_id h = id)) as [<-|Hne].
  - rewrite (proj2 (place_None _ _) Hni), lookup_insert_eq. cbn [prod_map fst]. by rewrite Nat.add_0_r.
  - rewrite lookup_insert_ne by done. destruct (place hits id) as [[j h']|]; [|done]. cbn. by rewrite Nat.add_succ_r.
Qed.

(** ** The scores *)

Definition denominator (kk : Z) (i : nat) : f64 := (f_of_int kk + f_of_int (Z.of_nat i) + f1)%f64.

Lemma fval_int n : 0 <= n <= 2 ^ 53 -> (0 <= fval (f_of_int n) <= inject_Z (2 ^ 53))%Q.
Proof.
  intros Hn. split; [apply fval_nonneg|]. assert (E : (fval (f_of_int (2 ^ 53)) == inject_Z (2 ^ 53))%Q) by reflexivity.
  rewrite <- E. apply fval_le; [apply f_of_int_num; lia|done|]. by apply f_of_int_mono.
Qed.

Section Reciprocal.
Context (kk : Z) (Hkk : 0 < kk < 2 ^ 53 - 1).

Lemma sum_num i : Z.of_nat i <= 2 ^ 53 -> num (f_of_int kk + f_of_int (Z.of_nat i))%f64 = true.
Proof using Hkk.
  intros Hi. pose proof (fval_int kk ltac:(lia)). pose proof (fval_int (Z.of_nat i) ltac:(lia)).
  destruct (Rounds_bounded _ _ (f_of_int (2 ^ 54)) (Rounds_fadd (f_of_int kk) (f_of_int (Z.of_nat i)) (f_of_int_num kk ltac:(lia)) (f_of_int_num (Z.of_nat i) ltac:(lia))))
    as (Hn & _); [done| |done].
  assert (E : (fval (f_of_int (2 ^ 54)) == inject_Z (2 ^ 53) + inject_Z (2 ^ 53))%Q) by reflexivity. rewrite E. lra.
Qed.

Lemma denominator_mono i j : (i <= j)%nat -> Z.of_nat j <= 2 ^ 53 ->
  num (denominator kk j) = true /\ (fval (denominator kk i) <= fval (denominator kk j))%Q.
Proof using Hkk.
  assert (Hn : forall i, Z.of_nat i <= 2 ^ 53 -> num (denominator kk i) = true).
  { intros n Hi. pose proof (fval_int kk ltac:(lia)). pose proof (fval_int (Z.of_nat n) ltac:(lia)).
    destruct (Rounds_bounded _ _ (f_of_int (2 ^ 55)) (Rounds_fadd _ f1 (sum_num n Hi) eq_refl)) as (Hn & _); [done| |done].
    assert (Hs : (fval (f_of_int kk + f_of_int (Z.of_nat n))%f64 <= fval (f_of_int (2 ^ 54)))%Q).
    { assert (E : (fval (f_of_int (2 ^ 54)) == inject_Z (2 ^ 53) + inject_Z (2 ^ 53))%Q) by reflexivity.
      apply fval_le; [by apply sum_num|done|].
      eapply Rounds_le; [apply Rounds_fadd; apply f_of_int_num; lia|by apply Rounds_fval|]. rewrite E. lra. }
    assert (E : (fval (f_of_int (2 ^ 55)) == fval (f_of_int (2 ^ 54)) + inject_Z (2 ^ 54))%Q) by reflexivity.
    assert (1 <= inject_Z (2 ^ 54))%Q by (change 1%Q with (inject_Z 1); rewrite <- Zle_Qle; lia).
    rewrite E, fval_f1. lra. }
  intros Hij Hj. split; [by apply Hn|]. apply fval_le; [apply Hn; lia|by apply Hn|].
  apply fadd_mono; [apply sum_num; lia|done|by apply sum_num|done| |lra].
  apply fval_le; [apply sum_num; lia|by apply sum_num|].
  apply fadd_mono; try (apply f_of_int_num; lia); [lra|]. apply fval_le; [apply f_of_int_num; lia..|]. apply f_of_int_mono. lia.
Qed.

Lemma denominator_0 : (fval (denominator kk 0) == inject_Z (kk + 1))%Q.
Proof using Hkk.
  unfold denominator. change (f_of_int (Z.of_nat 0)) with f0. rewrite fadd_zero_r by (apply f_of_int_num; lia).
  destruct (representable (kk + 1) 0 ltac:(lia) ltac:(lia)) as (y & Hy & E). change (pow2 0) with 1%Q in E. rewrite Qmult_1_r in E.
  rewrite (Rounds_exact _ _ y (Rounds_fadd (f_of_int kk) f1 (f_of_int_num kk ltac:(lia)) eq_refl)); [done|done|].
  rewrite E, f_of_int_exact, inject_Z_plus, fval_f1 by lia. reflexivity.
Qed.

Lemma denominator_ge i : Z.of_nat i <= 2 ^ 53 -> (inject_Z (kk + 1) <= fval (denominator kk i))%Q.
Proof using Hkk. intros Hi. rewrite <- denominator_0. by apply (denominator_mono 0 i); [lia|]. Qed.

Lemma one_le_K : (1 <= inject_Z (kk + 1))%Q.
Proof using Hkk. change 1%Q with (inject_Z 1). rewrite <- Zle_Qle. lia. Qed.

Lemma reciprocal_unit i : Z.of_nat i <= 2 ^ 53 -> in_unit (reciprocal kk i).
Proof using Hkk.
  intros Hi. destruct (denominator_mono i i ltac:(lia) Hi) as [Hn _]. pose proof (denominator_ge i Hi). pose proof one_le_K.
  apply quotient_in_unit; [done|done|unfold denominator in *; lra|].
  eapply Rounds_le; [by apply (Rounds_fval f1)|by apply Rounds_fval|]. rewrite fval_f1. unfold denominator in *. lra.
Qed.

Lemma reciprocal_mono i j : (i <= j)%nat -> Z.of_nat j <= 2 ^ 53 -> (reciprocal kk j <=? reciprocal kk i)%f64 = true.
Proof using Hkk.
  intros Hij Hj. destruct (denominator_mono i j Hij Hj) as [Hn Hle]. destruct (denominator_mono i i ltac:(lia) ltac:(lia)) as [Hn' _].
  pose proof (denominator_ge i ltac:(lia)). pose proof one_le_K.
  apply fdiv_mono; [done|done|done|done|unfold denominator in *; lra|lra|exact Hle].
Qed.

Lemma scale_exact : num (rrf_scale kk) = true /\ (fval (rrf_scale kk) == inject_Z (kk + 1) / 2)%Q.
Proof using Hkk.
  unfold rrf_scale. rewrite (i64_succ kk) by (unfold in_i64; lia).
  destruct (representable (kk + 1) (-1) ltac:(lia) ltac:(lia)) as (y & Hy & E).
  assert (E' : (fval y == inject_Z (kk + 1) / 2)%Q) by exact E.
  rewrite (Rounds_exact _ _ y (Rounds_fdiv (f_of_int (kk + 1)) (f_of_int 2) (f_of_int_num (kk + 1) ltac:(lia)) eq_refl eq_refl)); [done|done|].
  assert (E2 : (fval (f_of_int 2) == 2)%Q) by reflexivity. rewrite E', E2, (f_of_int_exact (kk + 1)) by lia. reflexivity.
Qed.

(** Two reciprocal ranks scaled stay within the unit: the error of the first
    reciprocal is absorbed by the tie at one. *)
Lemma rrf_unit a b :
  num a = true -> num b = true -> (a <=? reciprocal kk 0)%f64 = true -> (b <=? reciprocal kk 0)%f64 = true ->
  in_unit ((a + b) * rrf_scale kk)%f64.
Proof using Hkk.
  intros Ha Hb La Lb. set (r := reciprocal kk 0) in *. pose proof (reciprocal_unit 0 ltac:(lia)) as Hr. fold r in Hr.
  destruct scale_exact as [Hsn Hs]. pose proof one_le_K as HK.
  destruct (denominator_mono 0 0 ltac:(lia) ltac:(lia)) as [Hdn _].
  assert (Hd : Rounds (1 / inject_Z (kk + 1)) r).
  { rewrite <- denominator_0, <- fval_f1. apply Rounds_fdiv; [done|done|]. rewrite denominator_0. lra. }
  assert (Hlow : (pow2 (-1022) <= 1 / inject_Z (kk + 1))%Q).
  { apply Qle_shift_div_l; [lra|]. assert (inject_Z (kk + 1) <= inject_Z (2 ^ 53))%Q by (rewrite <- Zle_Qle; lia).
    assert (E : (pow2 (-1022) * inject_Z (2 ^ 53) <= 1)%Q) by (vm_compute; discriminate). pose proof (pow2_pos (-1022)). nra. }
  pose proof (Rounds_rel _ _ Hd (proj1 Hr) Hlow) as Hrel.
  pose proof (fval_le a r Ha (proj1 Hr) La). pose proof (fval_le b r Hb (proj1 Hr) Lb).
  assert (Hsum : (a + b <=? r + r)%f64 = true) by (apply fadd_mono; [done|done|apply Hr|apply Hr|lra|lra]).
  assert (Hrr : num (r + r)%f64 = true).
  { destruct (Rounds_bounded _ _ (f_of_int 2) (Rounds_fadd r r (proj1 Hr) (proj1 Hr))) as (? & _); [done| |done].
    pose proof (in_unit_fval r Hr). assert (E : (fval (f_of_int 2) == 2)%Q) by reflexivity. rewrite E. lra. }
  assert (Hab : num (a + b)%f64 = true).
  { destruct (Rounds_num _ _ (Rounds_fadd a b Ha Hb)) as [E|]; [|done]. rewrite E in Hsum.
    by destruct (r + r)%f64 as [[]|[]| |[] ? ?]. }
  pose proof (fval_le _ _ Hab Hrr Hsum) as Hv. rewrite (fadd_double r Hr) in Hv.
  eapply Rounds_tie; [by apply Rounds_fmul|]. rewrite Hs. pose proof (fval_nonneg (a + b)%f64).
  assert (Hx : (fval r * inject_Z (kk + 1) <= 1 + pow2 (-53))%Q).
  { apply Qle_trans with (1 / inject_Z (kk + 1) * (1 + pow2 (-53)) * inject_Z (kk + 1))%Q; [nra|]. apply Qle_lteq. right. field. lra. }
  apply Qle_trans with (2 * fval r * (inject_Z (kk + 1) / 2))%Q; [|apply Qle_trans with (fval r * inject_Z (kk + 1))%Q; [apply Qle_lteq; right; field|done]].
  apply Qmult_le_compat_r; [done|]. apply Qle_shift_div_l; lra.
Qed.
End Reciprocal.

Lemma DefaultBM25Weight_unit : in_unit DefaultBM25Weight.
Proof. by split; vm_compute. Qed.

Lemma rrfK_range c : CfgStrategy c = RRF -> config_ok c -> 0 < rrfK c < 2 ^ 53 - 1.
Proof. unfold config_ok. intros ->. unfold rrfK, DefaultRrfK. destruct (Z.leb_spec (RrfK c) 0); lia. Qed.

Lemma weighted_part_unit hits id : route hits -> in_unit (weighted_part hits id).
Proof.
  intros Hr. unfold weighted_part. destruct hits as [|top hits]; [apply in_unit_f0|].
  destruct (place _ _) as [[i h]|] eqn:Ep; [|apply in_unit_f0]. apply place_Some in Ep as [Hi _].
  apply list_elem_of_lookup_2 in Hi. pose proof (rt_scores _ Hr) as Hf. pose proof (route_top _ _ Hr) as Ht.
  rewrite Forall_forall in Hf, Ht. destruct (Hf h Hi) as [Hv Hfin], (Hf top ltac:(left)) as [Hvt Hft]. specialize (Ht h Hi).
  destruct (Score h >? f0)%f64 eqn:Eh; [|apply in_unit_f0]. pose proof (fltb_fleb_trans _ _ _ Eh Ht) as Eh'.
  pose proof (num_positive _ Hv Hfin Eh). pose proof (num_positive _ Hvt Hft Eh').
  apply quotient_in_unit; [done|done| |done]. by apply fval_pos_iff.
Qed.

Lemma place_bound hits id i h : route hits -> place hits id = Some (i, h) -> Z.of_nat i <= 2 ^ 53.
Proof. intros Hr [Hi%lookup_lt_Some _]%place_Some. pose proof (rt_length _ Hr). lia. Qed.

Lemma rrf_part_spec kk hits id : 0 < kk < 2 ^ 53 - 1 -> route hits ->
  in_unit (rrf_part kk hits id) /\ (rrf_part kk hits id <=? reciprocal kk 0)%f64 = true.
Proof.
  intros Hk Hr. unfold rrf_part. pose proof (reciprocal_unit kk Hk 0 ltac:(lia)) as H0.
  destruct (place hits id) as [[i h]|] eqn:E.
  - apply place_bound in E; [|done]. split; [by apply reciprocal_unit|]. apply reciprocal_mono; [done|lia|done].
  - split; [apply in_unit_f0|]. by apply in_unit_range.
Qed.

Lemma fused_score_unit c bm vec id : route bm -> route vec -> config_ok c -> in_unit (fused_score c bm vec id).
Proof.
  intros Hb Hv Hc. unfold fused_score. pose proof (weighted_part_unit bm id Hb). pose proof (weighted_part_unit vec id Hv).
  destruct (CfgStrategy c) eqn:E; try (unfold config_ok in Hc; rewrite E in Hc);
    try (apply ewma_in_unit; [apply Hc|by apply in_unit_complement|by apply weights_in_unit|done|done]).
  pose proof (rrfK_range c E) as Hk. unfold config_ok in Hk. rewrite E in Hk. specialize (Hk Hc).
  destruct (rrf_part_spec _ bm id Hk Hb) as [[? _] ?], (rrf_part_spec _ vec id Hk Hv) as [[? _] ?]. by apply rrf_unit.
Qed.

(** ** The ranking *)

Section Ranking.
Context `{UnicodeLower} `{UnicodeClasses}.

Definition lexical (c : Config) (query : string) (bm : list Hit) (s : Slice) : f64 :=
  match CfgStrategy c with RRF => Bm25.QueryCoverage query (Content s) | _ => weighted_part bm (ID s) end.
Definition fused (c : Config) (query : string) (bm vec : list Hit) (s : Slice) : option Hit :=
  fused_hit (fused_score c bm vec (ID s)) (lexical c query bm s) s.
Definition ranking (c : Config) (query : string) (bm vec : list Hit) : list Hit :=
  orderHits (omap (fun e => fused c query bm vec e.2) (map_to_list (merged bm vec))).

Lemma merged_lookup bm vec id :
  merged bm vec !! id = match snd <$> list_find (fun s => ID s = id) (omap HitSlice bm) with
    | Some s => Some s | None => snd <$> list_find (fun s => ID s = id) (omap HitSlice vec) end.
Proof using. unfold merged. rewrite !merge_slices_lookup, lookup_empty. done. Qed.

Lemma merged_keyed bm vec id s : merged bm vec !! id = Some s -> ID s = id.
Proof using.
  rewrite merged_lookup. intros E.
  repeat match type of E with context [list_find ?P ?l] => destruct (list_find P l) as [[]|] eqn:?; simplify_eq/= end;
    match goal with H : list_find _ _ = Some _ |- _ => by apply list_find_Some in H as (_ & ? & _) end.
Qed.

Lemma fused_inv c query bm vec s h : fused c query bm vec s = Some h ->
  h = mkHit (Some s) (fused_score c bm vec (ID s)) f0 false (lexical c query bm s) true
  /\ (Score h <=? f0)%f64 = false.
Proof using. unfold fused, fused_hit. destruct (_ <=? f0)%f64 eqn:E; [done|]. intros [= <-]. done. Qed.

Lemma entries_ids c query bm vec (l : list (string * Slice)) :
  Forall (fun e => ID e.2 = e.1) l -> map hit_id (omap (fun e => fused c query bm vec e.2) l) `sublist_of` l.*1.
Proof using.
  induction 1 as [|e l He _ IH]; [constructor|]. cbn [omap list_omap fmap list_fmap].
  destruct (fused _ _ _ _ _) as [h|] eqn:E; [|by constructor]. apply fused_inv in E as [-> _]. cbn [map]. unfold hit_id at 1. cbn [HitSlice].
  rewrite He. by constructor.
Qed.

Section Range.
Context (map_range : gmap string Slice -> list (string * Slice)) (map_range_perm : forall m, map_range m ≡ₚ map_to_list m).

Lemma ranking_any_order c query bm vec :
  route bm -> route vec -> config_ok c ->
  orderHits (omap (fun e => fused c query bm vec e.2) (map_range (merged bm vec))) = ranking c query bm vec.
Proof using map_range_perm.
  intros Hb Hv Hc. unfold ranking, orderHits.
  assert (Hk : Forall (fun e => ID e.2 = e.1) (map_range (merged bm vec))).
  { apply Forall_forall. intros [id s] Hin. rewrite map_range_perm, elem_of_map_to_list in Hin. by apply merged_keyed in Hin. }
  apply ranked_sort_perm.
  - apply Forall_forall. intros h (e & _ & He)%list_elem_of_omap. apply fused_inv in He as [-> _]. unfold scored. cbn [Score].
    by apply in_unit_not_nan, fused_score_unit.
  - eapply sublist_NoDup; [|by apply entries_ids]. rewrite map_range_perm. apply NoDup_fst_map_to_list.
  - by rewrite map_range_perm.
Qed.

Lemma ranking_nothing c query bm vec : (forall id, fused_score c bm vec id = f0) -> ranking c query bm vec = [].
Proof using.
  intros Hz. unfold ranking. assert (E : omap (fun e : string * Slice => fused c query bm vec e.2) (map_to_list (merged bm vec)) = []); [|by rewrite E].
  apply elem_of_nil_inv. intros h (e & _ & He)%list_elem_of_omap. apply fused_inv in He as [-> He]. cbn [Score] in He. by rewrite Hz in He.
Qed.

Lemma weighted_score_parts w bmN vecN id p q :
  in_unit w -> in_unit p -> in_unit q -> default f0 (bmN !! id) = p -> default f0 (vecN !! id) = q ->
  weighted_score w bmN vecN id = (w * p + (f1 - w) * q)%f64.
Proof using.
  intros Hw Hp Hq Ep Eq. pose proof (in_unit_complement w Hw) as Hc. unfold weighted_score.
  destruct (fmul_shrinks w p (proj1 Hw) Hp) as [Hwp _], (fmul_shrinks (f1 - w)%f64 q (proj1 Hc) Hq) as [Hcq _].
  destruct (bmN !! id) as [v|]; cbn [default] in Ep; subst p; destruct (vecN !! id) as [u|]; cbn [default] in Eq; subst q;
    rewrite ?fmul_zero_r, ?fadd_zero_l, ?fadd_zero_r by first [done|apply Hw|apply Hc]; done.
Qed.

Lemma fuseWeighted_spec c query bm vec :
  CfgStrategy c <> RRF -> route bm -> route vec -> config_ok c -> fuseWeighted map_range bm vec c = Some (ranking c query bm vec).
Proof using map_range_perm.
  intros Hs Hb Hv Hc. unfold fuseWeighted.
  destruct (normalize_spec bm Hb) as (bmN & -> & HB), (normalize_spec vec Hv) as (vecN & -> & HV). cbn [mbind option_bind].
  assert (Hw : in_unit (bm25Weight c)) by (unfold config_ok in Hc; by destruct (CfgStrategy c)).
  assert (Hf : forall id, weighted_score (bm25Weight c) bmN vecN id = fused_score c bm vec id).
  { intros id. rewrite (weighted_score_parts _ _ _ _ _ _ Hw (weighted_part_unit bm id Hb) (weighted_part_unit vec id Hv) (HB id) (HV id)).
    unfold fused_score. by destruct (CfgStrategy c). }
  destruct (bool_decide (bmN = ∅) && bool_decide (vecN = ∅)) eqn:Ee.
  - apply andb_true_iff in Ee as [->%bool_decide_eq_true ->%bool_decide_eq_true].
    rewrite ranking_nothing; [done|]. intros id. rewrite <- Hf. unfold weighted_score. by rewrite lookup_empty.
  - rewrite !mapM_slices by by apply rt_slices. cbn [mbind option_bind].
    rewrite <- (ranking_any_order c query bm vec Hb Hv Hc). do 2 f_equal. apply list_omap_ext.
    apply Forall_Forall2_diag, Forall_forall. intros [id s] Hin. cbn [fst snd].
    rewrite map_range_perm in Hin. apply elem_of_map_to_list, merged_keyed in Hin. rewrite Hf. unfold fused, lexical.
    rewrite (HB id), Hin. by destruct (CfgStrategy c).
Qed.

Lemma fuseRRF_spec c query bm vec :
  CfgStrategy c = RRF -> route bm -> route vec -> config_ok c -> fuseRRF map_range bm vec query c = Some (ranking c query bm vec).
Proof using map_range_perm.
  intros Hs Hb Hv Hc. pose proof (rrfK_range c Hs Hc) as Hk. unfold fuseRRF.
  destruct (addRoute_spec (rrfK c) 0 bm ∅ ∅ (rt_slices _ Hb) (rt_ids _ Hb)) as (sc1 & -> & H1). cbn [mbind option_bind].
  destruct (addRoute_spec (rrfK c) 0 vec (foldl merge_slice ∅ (omap HitSlice bm)) sc1 (rt_slices _ Hv) (rt_ids _ Hv)) as (sc & -> & H2).
  cbn [mbind option_bind]. fold (merged bm vec).
  assert (Hf : forall id, (default f0 (sc !! id) * rrf_scale (rrfK c))%f64 = fused_score c bm vec id).
  { intros id. rewrite H2, H1, lookup_empty. unfold fused_score. rewrite Hs. f_equal.
    destruct (rrf_part_spec _ bm id Hk Hb) as [[Hn1 _] _], (rrf_part_spec _ vec id Hk Hv) as [[Hn2 _] _]. revert Hn1 Hn2. unfold rrf_part.
    destruct (place bm id) as [[i h]|], (place vec id) as [[j h']|]; cbn [default Nat.add]; intros Hn1 Hn2;
      rewrite ?fadd_zero_l, ?fadd_zero_r by done; done. }
  case_bool_decide as Ee.
  - rewrite ranking_nothing; [done|]. intros id. rewrite <- Hf, Ee, lookup_empty. cbn [default].
    destruct (scale_exact _ Hk) as [Hn _]. by destruct (rrf_scale _) as [[]|[]| |[] ? ?].
  - rewrite <- (ranking_any_order c query bm vec Hb Hv Hc). do 2 f_equal. apply list_omap_ext.
    apply Forall_Forall2_diag, Forall_forall. intros [id s] Hin. cbn [fst snd].
    rewrite map_range_perm in Hin. apply elem_of_map_to_list, merged_keyed in Hin. rewrite Hf. unfold fused, lexical. by rewrite Hs, Hin.
Qed.

Lemma Fuse_ranked c query bm vec k :
  0 < k -> route bm -> route vec -> config_ok c -> Fuse map_range bm vec query k c = Some (cap_list k (ranking c query bm vec)).
Proof using map_range_perm.
  intros Hk Hb Hv Hc. unfold Fuse. destruct (Z.leb_spec k 0); [lia|].
  destruct (CfgStrategy c) eqn:E; [rewrite (fuseWeighted_spec c query)|rewrite fuseRRF_spec|rewrite (fuseWeighted_spec c query)]; try done; by rewrite E.
Qed.
End Range.

Lemma ranking_sorted c query bm vec :
  route bm -> route vec -> config_ok c -> StronglySorted (not_after (ranked_less Score hit_id)) (ranking c query bm vec).
Proof using.
  intros Hb Hv Hc. apply ranked_sort_sorted, Forall_forall. intros h (e & _ & He)%list_elem_of_omap.
  apply fused_inv in He as [-> _]. by apply in_unit_not_nan, fused_score_unit.
Qed.

Lemma ranking_ids c query bm vec : NoDup (map hit_id (ranking c query bm vec)).
Proof using.
  change (map hit_id ?l) with (hit_id <$> l). unfold ranking, orderHits. rewrite go_sort_perm. change (hit_id <$> ?l) with (map hit_id l).
  eapply sublist_NoDup; [|apply entries_ids]; [apply NoDup_fst_map_to_list|].
  apply Forall_forall. intros [id s] Hin%elem_of_map_to_list. by apply merged_keyed in Hin.
Qed.

Lemma elem_of_ranking c query bm vec h :
  h ∈ ranking c query bm vec <-> exists s, merged bm vec !! ID s = Some s /\ fused c query bm vec s = Some h.
Proof using.
  unfold ranking, orderHits. rewrite elem_of_go_sort, list_elem_of_omap. split.
  - intros ([id s] & Hin & He). apply elem_of_map_to_list in Hin. exists s. split; [|done]. by rewrite (merged_keyed _ _ _ _ Hin).
  - intros (s & Hin & He). exists (ID s, s). split; [by apply elem_of_map_to_list|done].
Qed.

(** ** Properties *)

Lemma merged_source bm vec id s : merged bm vec !! id = Some s -> exists h, h ∈ bm ++ vec /\ HitSlice h = Some s.
Proof using.
  rewrite merged_lookup. intros E.
  repeat match type of E with context [list_find ?P ?l] => destruct (list_find P l) as [[]|] eqn:?; simplify_eq/= end;
    match goal with H : list_find _ _ = Some _ |- _ => apply list_find_Some in H as (Hl & _ & _) end;
    apply list_elem_of_lookup_2, list_elem_of_omap in Hl as (h & Hh & Hs); exists h; split; try done; apply elem_of_app; auto.
Qed.

Lemma cover_in_unit query content : in_i64 (Z.of_nat (length (uniqueTerms (Tokenize query)))) -> in_unit (Bm25.QueryCoverage query content).
Proof using.
  unfold Bm25.QueryCoverage, in_i64, covered. intros Hq. set (qt := uniqueTerms _) in *. destruct qt as [|q qt]; [apply in_unit_f0|].
  set (f := fun q => _). pose proof (List.filter_length_le f (q :: qt)) as Hl. cbn [length] in *. apply ratio_in_unit; lia.
Qed.

(** C21: what the zone thresholds need of a fused ranking.  From two routes in
    descending order of finite scores, whatever the order in which the maps are
    ranged over, [Fuse] returns at most [k] hits, distinct, in descending order
    with ties by ID; each is a slice of a route, its score and its lexical support
    are numbers between 0 and 1 - the roundings of both strategies included - and
    its score is positive. *)
Theorem Fuse_contract c query bm vec k :
  0 < k -> route bm -> route vec -> config_ok c -> in_i64 (Z.of_nat (length (uniqueTerms (Tokenize query)))) ->
  exists out, (forall map_range, (forall m, map_range m ≡ₚ map_to_list m) -> Fuse map_range bm vec query k c = Some out)
    /\ Z.of_nat (length out) <= k /\ NoDup (map hit_id out) /\ StronglySorted (not_after (ranked_less Score hit_id)) out
    /\ (forall h, h ∈ out -> in_unit (Score h) /\ (Score h >? f0)%f64 = true /\ in_unit (Lexical h) /\ LexicalValid h = true
          /\ exists h0, h0 ∈ bm ++ vec /\ is_Some (HitSlice h0) /\ HitSlice h = HitSlice h0).
Proof using.
  intros Hk Hb Hv Hc Hq. exists (cap_list k (ranking c query bm vec)).
  split; [intros r Hr; by apply Fuse_ranked|]. split; [apply cap_list_length; lia|].
  pose proof (ranking_ids c query bm vec) as Hnd. pose proof (ranking_sorted c query bm vec Hb Hv Hc) as Hs.
  split; [|split].
  - unfold cap_list. case_match; [|done]. change (map hit_id ?x) with (hit_id <$> x). rewrite fmap_take. by apply sublist_NoDup_take.
  - unfold cap_list. case_match; [|done]. by apply StronglySorted_take.
  - intros h Hh. assert (Hr : h ∈ ranking c query bm vec) by (destruct (cap_list_prefix k (ranking c query bm vec)) as [l ->]; apply elem_of_app; by left).
    apply elem_of_ranking in Hr as (s & Hin & He). apply fused_inv in He as [-> Hp]. cbn [Score Lexical LexicalValid HitSlice] in *.
    pose proof (fused_score_unit c bm vec (ID s) Hb Hv Hc) as Hu. split; [done|].
    split; [apply fleb_gt; [by apply in_unit_not_nan|done|done]|]. split; [unfold lexical; destruct (CfgStrategy c); [by apply weighted_part_unit|by apply cover_in_unit|by apply weighted_part_unit]|].
    split; [done|]. apply merged_source in Hin as (h0 & Hh0 & E). exists h0. rewrite E. by eauto.
Qed.

(** [a] is found wherever [b] is, and not after it. *)
Definition ahead (hits : list Hit) (a b : string) : Prop :=
  forall j hb, place hits b = Some (j, hb) -> exists i ha, place hits a = Some (i, ha) /\ (i <= j)%nat.

Lemma weighted_part_mono hits a b : route hits -> ahead hits a b -> (weighted_part hits b <=? weighted_part hits a)%f64 = true.
Proof using.
  intros Hr Ha. pose proof (weighted_part_unit hits a Hr) as Hua. pose proof (in_unit_range _ Hua) as [Hz _].
  destruct hits as [|top hits]; [done|]. unfold weighted_part at 1. destruct (place (top :: hits) b) as [[j hb]|] eqn:Eb; [|done].
  destruct (Ha j hb Eb) as (i & ha & Ea & Hij). unfold weighted_part. rewrite Ea.
  unfold weighted_part in Hz. rewrite Ea in Hz. destruct (Score hb >? f0)%f64 eqn:Hp; [|done]. clear Hz.
  pose proof (route_top _ _ Hr) as Ht. pose proof (rt_scores _ Hr) as Hf. rewrite Forall_forall in Ht, Hf.
  apply place_Some in Eb as [Hj _], Ea as [Hi _].
  assert (Hle : (Score hb <=? Score ha)%f64 = true).
  { destruct (decide (i = j)) as [->|Hne].
    - assert (ha = hb) as -> by congruence. apply fleb_refl. exact (proj2 (fltb_not_nan _ _ Hp)).
    - pose proof (rt_sorted _ Hr) as Hso. rewrite <- (take_drop (S i) (top :: hits)) in Hso.
      eapply StronglySorted_app_1_elem_of in Hso; [exact Hso| |].
      + apply (list_elem_of_lookup_2 _ i). rewrite lookup_take_lt by lia. done.
      + apply (list_elem_of_lookup_2 _ (j - S i)). rewrite lookup_drop. replace (S i + (j - S i))%nat with j by lia. done. }
  apply list_elem_of_lookup_2 in Hi, Hj. pose proof (fltb_fleb_trans _ _ _ Hp Hle) as Hpa. rewrite Hpa.
  pose proof (fltb_fleb_trans _ _ _ Hpa (Ht ha Hi)) as Hpt. destruct (Hf ha Hi), (Hf hb Hj), (Hf top ltac:(left)).
  assert (num (Score top) = true) by (by apply num_positive).
  apply fdiv_mono; try (by apply num_positive); [by apply fval_pos_iff| |apply Qle_refl].
  apply fval_le; [by apply num_positive..|done].
Qed.

Lemma rrf_part_mono kk hits a b : 0 < kk < 2 ^ 53 - 1 -> route hits -> ahead hits a b ->
  (rrf_part kk hits b <=? rrf_part kk hits a)%f64 = true.
Proof using.
  intros Hk Hr Ha. destruct (rrf_part_spec kk hits a Hk Hr) as [Hua _]. pose proof (in_unit_range _ Hua) as [Hz _].
  unfold rrf_part at 1. destruct (place hits b) as [[j hb]|] eqn:Eb; [|done]. destruct (Ha j hb Eb) as (i & ha & Ea & Hij).
  unfold rrf_part. rewrite Ea. apply reciprocal_mono; [done|done|]. by eapply place_bound.
Qed.

Lemma fused_score_mono c bm vec a b :
  route bm -> route vec -> config_ok c -> ahead bm a b -> ahead vec a b ->
  (fused_score c bm vec b <=? fused_score c bm vec a)%f64 = true.
Proof using.
  intros Hb Hv Hc Ab Av.
  assert (Hw : in_unit (bm25Weight c) -> let w := bm25Weight c in
    (w * weighted_part bm b + (f1 - w) * weighted_part vec b <=? w * weighted_part bm a + (f1 - w) * weighted_part vec a)%f64 = true).
  { intros Hw w. pose proof (in_unit_complement w Hw) as Hcw.
    pose proof (weighted_part_unit bm a Hb) as U1. pose proof (weighted_part_unit bm b Hb) as U2.
    pose proof (weighted_part_unit vec a Hv) as U3. pose proof (weighted_part_unit vec b Hv) as U4.
    destruct (fmul_shrinks w _ (proj1 Hw) U1) as [N1 _], (fmul_shrinks w _ (proj1 Hw) U2) as [N2 _].
    destruct (fmul_shrinks _ _ (proj1 Hcw) U3) as [N3 _], (fmul_shrinks _ _ (proj1 Hcw) U4) as [N4 _].
    apply fadd_mono; try done; apply fval_le; try done;
      (apply fmul_mono; [apply Hw || apply Hcw|apply U2 || apply U4|apply Hw || apply Hcw|apply U1 || apply U3|apply Qle_refl|]);
      (apply fval_le; [apply U2 || apply U4|apply U1 || apply U3|by apply weighted_part_mono]). }
  unfold fused_score. destruct (CfgStrategy c) eqn:E; [apply Hw; unfold config_ok in Hc; by rewrite E in Hc| |apply Hw; unfold config_ok in Hc; by rewrite E in Hc].
  pose proof (rrfK_range c E Hc) as Hk. destruct (scale_exact _ Hk) as [Hsn _].
  destruct (rrf_part_spec _ bm a Hk Hb) as [U1 _], (rrf_part_spec _ bm b Hk Hb) as [U2 _].
  destruct (rrf_part_spec _ vec a Hk Hv) as [U3 _], (rrf_part_spec _ vec b Hk Hv) as [U4 _].
  assert (Hn : forall x y, in_unit x -> in_unit y -> num (x + y)%f64 = true).
  { intros x y Ux Uy. destruct (Rounds_bounded _ _ (f_of_int 2) (Rounds_fadd x y (proj1 Ux) (proj1 Uy))) as (? & _); [done| |done].
    pose proof (in_unit_fval x Ux). pose proof (in_unit_fval y Uy). assert (E2 : (fval (f_of_int 2) == 2)%Q) by reflexivity. rewrite E2. lra. }
  apply fmul_mono; [by apply Hn|done|by apply Hn|done| |apply Qle_refl].
  apply fval_le; [by apply Hn..|]. apply fadd_mono; [apply U2|apply U4|apply U1|apply U3|apply fval_le|apply fval_le];
    try apply U1; try apply U2; try apply U3; try apply U4; by apply rrf_part_mono.
Qed.

Lemma find_omap (hits : list Hit) id : Forall (fun h => is_Some (HitSlice h)) hits ->
  (snd <$> list_find (fun s => ID s = id) (omap HitSlice hits) = None <-> place hits id = None).
Proof using.
  induction 1 as [|h hits [s Hs] _ IH]; [done|]. cbn [omap list_omap]. rewrite Hs, place_cons. cbn [list_find].
  rewrite (hit_id_slice h s Hs). destruct (decide (ID s = id)); [done|]. revert IH.
  destruct (list_find _ _) as [[]|], (place hits id) as [[]|]; cbn; naive_solver.
Qed.

Lemma merged_lookup_None bm vec id : route bm -> route vec ->
  merged bm vec !! id = None <-> place bm id = None /\ place vec id = None.
Proof using.
  intros Hb Hv. rewrite merged_lookup, <- (find_omap bm), <- (find_omap vec) by by apply rt_slices.
  destruct (snd <$> _); naive_solver.
Qed.

(** fusion keeps what the routes agree on.  If wherever a route lists [b] it
    lists [a] no later, then [a] does not score below [b] under either strategy,
    and if [b] is among the fused hits so is [a], unless the two scores are equal
    and the cut to [k] fell on their tie. *)
Theorem Fuse_agreement map_range c query bm vec k out a hb :
  (forall m, map_range m ≡ₚ map_to_list m) -> route bm -> route vec -> config_ok c ->
  Fuse map_range bm vec query k c = Some out -> hb ∈ out -> ahead bm a (hit_id hb) -> ahead vec a (hit_id hb) ->
  (fused_score c bm vec (hit_id hb) <=? fused_score c bm vec a)%f64 = true
  /\ ((exists ha, ha ∈ out /\ hit_id ha = a /\ (Score hb <=? Score ha)%f64 = true)
      \/ (Z.of_nat (length out) = k /\ (fused_score c bm vec a =? Score hb)%f64 = true /\ string_less a (hit_id hb) = false)).
Proof using.
  intros Hm Hb Hv Hc HF Hin Ab Av. pose proof (fused_score_mono c bm vec a _ Hb Hv Hc Ab Av) as Hle. split; [done|].
  destruct (Z.leb_spec k 0) as [Hk|Hk].
  { unfold Fuse in HF. destruct (Z.leb_spec k 0); [|lia]. simplify_eq. by apply not_elem_of_nil in Hin. }
  rewrite (Fuse_ranked map_range Hm c query bm vec k Hk Hb Hv Hc) in HF. simplify_eq.
  set (R := ranking c query bm vec) in *. assert (HbR : hb ∈ R) by (destruct (cap_list_prefix k R) as [l ->]; apply elem_of_app; by left).
  pose proof (elem_of_ranking c query bm vec hb) as [(s & Hs & He) _]; [done|]. apply fused_inv in He as [E Hpos].
  assert (Hid : hit_id hb = ID s) by (by rewrite E). assert (Hsc : Score hb = fused_score c bm vec (ID s)) by (by rewrite E).
  assert (Ha : exists sa, merged bm vec !! a = Some sa).
  { destruct (merged bm vec !! a) as [sa|] eqn:Ea; [by exists sa|]. exfalso. apply merged_lookup_None in Ea as [Na Nv]; [|done..].
    enough (En : merged bm vec !! hit_id hb = None) by (rewrite Hid in En; congruence). apply merged_lookup_None; [done..|]. split.
    - destruct (place bm (hit_id hb)) as [[j h']|] eqn:Ep; [|done]. destruct (Ab j h' Ep) as (i & ha & Ei & _). congruence.
    - destruct (place vec (hit_id hb)) as [[j h']|] eqn:Ep; [|done]. destruct (Av j h' Ep) as (i & ha & Ei & _). congruence. }
  destruct Ha as [sa Hsa]. pose proof (merged_keyed _ _ _ _ Hsa) as Ida. rewrite Hid in Hle.
  assert (Hpa : (fused_score c bm vec a <=? f0)%f64 = false).
  { apply not_true_iff_false. intros Hx. rewrite Hsc in Hpos. pose proof (fleb_trans _ _ _ Hle Hx). congruence. }
  set (ha := mkHit (Some sa) (fused_score c bm vec a) f0 false (lexical c query bm sa) true).
  assert (HaR : ha ∈ R).
  { apply elem_of_ranking. exists sa. rewrite Ida. split; [done|]. unfold fused, fused_hit. by rewrite Ida, Hpa. }
  pose proof (ranking_sorted c query bm vec Hb Hv Hc) as Hso. fold R in Hso. revert Hin. unfold cap_list.
  destruct (Z.ltb_spec k (Z.of_nat (length R))) as [Hkl|]; [|intros _; left; exists ha; by rewrite Hsc].
  intros Hin. rewrite <- (take_drop (Z.to_nat k) R) in HaR, Hso. apply elem_of_app in HaR as [Hx|Hx]; [left; exists ha; by rewrite Hsc|].
  right. split; [rewrite length_take; lia|].
  eapply StronglySorted_app_1_elem_of in Hso; [|exact Hin|exact Hx]. unfold not_after, ranked_less in Hso. cbn [Score ha] in Hso.
  rewrite Hsc, Hid. rewrite Hsc, Hid in Hso. change (hit_id ha) with (ID sa) in Hso. rewrite Ida in Hso.
  destruct (fused_score c bm vec a =? fused_score c bm vec (ID s))%f64 eqn:Ee; [done|]. cbn [negb] in Hso. exfalso.
  pose proof (fused_score_unit c bm vec a Hb Hv Hc) as Ua. pose proof (fused_score_unit c bm vec (ID s) Hb Hv Hc) as Us.
  apply fltb_ge in Hso; [|by apply in_unit_not_nan..]. rewrite (fleb_antisym_num _ _ (or_intror (proj1 Ua)) (or_intror (proj1 Us)) Hso Hle) in Ee.
  rewrite (proj2 (feqb_key _ _)) in Ee; [done|]. split; [by apply in_unit_not_nan|]. split; [by apply in_unit_not_nan|done].
Qed.
End Ranking.

(** ** On two small routes *)

Module FuseSample.
#[local] Existing Instance ascii_lower.
#[local] Existing Instance ascii_classes.

Definition slice (id : string) : Slice := mkSlice id Prompt Project "fix the parser" None zero_stats f0 zero_meta 1.
Definition hit (id : string) (n d : Z) : Hit := mkHit (Some (slice id)) (f_of_ratio n d) f0 false f0 false.
Definition bm : list Hit := [hit "a" 37 10; hit "b" 22 10; hit "c" 1 10].
Definition vec : list Hit := [hit "b" 9 10; hit "d" 8 10; hit "a" 3 10].
Definition rrf : Config := mkConfig RRF 0 None.
Definition weighted : Config := mkConfig Weighted 0 None.
Definition fuse (c : Config) (k : Z) : option (list Hit) := Fuse map_to_list bm vec "parser tests" k c.

Lemma sample_route hits :
  forallb (fun h => match HitSlice h with Some _ => valid (Score h) && finite (Score h) | None => false end) hits = true ->
  NoDup (map hit_id hits) -> Sorted.StronglySorted (fun h h' => (Score h' <=? Score h)%f64 = true) hits ->
  Z.of_nat (length hits) <= 2 ^ 53 -> route hits.
Proof.
  rewrite forallb_forall. intros Hf Hn Hs Hl. split; [|done| |done|done]; apply Forall_forall; intros h Hh%list_elem_of_In;
    specialize (Hf h Hh); destruct (HitSlice h) eqn:E; rewrite ?E; try done.
  by apply andb_true_iff in Hf.
Qed.

Lemma bm_route : route bm.
Proof.
  apply sample_route; [vm_compute; done|by apply (bool_decide_unpack _); vm_compute| |done].
  repeat constructor.
Qed.
Lemma vec_route : route vec.
Proof.
  apply sample_route; [vm_compute; done|by apply (bool_decide_unpack _); vm_compute| |done].
  repeat constructor.
Qed.

Example fused_rrf : map hit_id <$> fuse rrf 3 = Some ["b"; "a"; "d"]%string.
Proof. vm_compute. done. Qed.

Example fused_weighted : map hit_id <$> fuse weighted 3 = Some ["b"; "a"; "d"]%string.
Proof. vm_compute. done. Qed.

Example agreed_top : option_map (map Score) (Fuse map_to_list bm bm "parser" 1 rrf) = Some [f1].
Proof. vm_compute. done. Qed.

Lemma Fuse_contract_witness : exists out, fuse rrf 3 = Some out /\ Z.of_nat (length out) <= 3.
Proof.
  destruct (Fuse_contract rrf "parser tests" bm vec 3) as (out & E & Hl & _);
    [lia|exact bm_route|exact vec_route|vm_compute; done|vm_compute; split; [discriminate|done]|].
  exists out. split; [apply E; intros m; reflexivity|exact Hl].
Defined.

Lemma Fuse_agreement_witness : exists out hb, fuse weighted 3 = Some out /\ hb ∈ out /\ hit_id hb = "d"%string
  /\ ((exists ha, ha ∈ out /\ hit_id ha = "b"%string /\ (Score hb <=? Score ha)%f64 = true)
      \/ (Z.of_nat (length out) = 3 /\ (fused_score weighted bm vec "b" =? Score hb)%f64 = true /\ string_less "b" (hit_id hb) = false)).
Proof.
  destruct (fuse weighted 3) as [[|h1 [|h2 [|h3 [|]]]]|] eqn:E; try (vm_compute in E; discriminate E).
  exists [h1; h2; h3], h3. assert (Hin : h3 ∈ [h1; h2; h3]) by (right; right; left).
  assert (Hid : hit_id h3 = "d"%string) by (vm_compute in E; injection E as <- <- <-; reflexivity).
  split; [reflexivity|]. split; [exact Hin|]. split; [exact Hid|].
  apply (Fuse_agreement map_to_list weighted "parser tests" bm vec 3 _ "b" h3);
    [intros m; reflexivity|exact bm_route|exact vec_route|exact DefaultBM25Weight_unit|exact E|exact Hin| |]; rewrite Hid.
  - intros j hb Hp. vm_compute in Hp. discriminate Hp.
  - intros j hb Hp. exists 0%nat, (hit "b" 9 10). split; [vm_compute; reflexivity|lia].
Defined.
End FuseSample.
