(* ===== verification/Store.v ===== *)
(** kernel/slice/file_store.go: the JSONL store with its append-only journal.

    A file is a list of lines, each with its length in bytes and what
    [json.Unmarshal] makes of it ([doc]); strings are valid UTF-8, so a record
    that was marshalled reads back as itself.  The in-memory store keeps the
    code's sharing: [order] owns the entries and [entries] points into it, so
    marking an entry dead or merging its statistics is seen through both.  Every
    system call that can fail takes its outcome from [IO]. *)

From Stdlib Require Import ZArith Lia Bool Ascii String Floats.SpecFloat.
From stdpp Require Import tactics base option list sorting gmap strings.
From S2P Require Import Prelude Float64 GoStrings Slice.

#[global] Open Scope Z_scope.

(** ** Lines and files *)

(** What a line is to the decoder.  [Doc strict d]: it unmarshals to [d], and
    [strict] says whether the strict decoder accepts it too. *)
Inductive doc (A : Type) : Type :=
| TooLong
| Blank
| Corrupt
| Doc (strict : bool) (d : A).
Arguments TooLong {A}.
Arguments Blank {A}.
Arguments Corrupt {A}.
Arguments Doc {A} strict d.

(** A line and its length without the newline. *)
Definition line (A : Type) : Type := (Z * doc A)%type.

(** The longest line the reader accepts, its newline included ([maxImportLine]). *)
Definition maxImportLine : Z := 8 * 1024 * 1024.

(** What [readJSONLLine] makes of a line with [newline] bytes at its end: one that is
    too long is drained and reported as such. *)
Definition readJSONLLine {A} (newline : Z) (l : line A) : line A :=
  if maxImportLine <? l.1 + newline then (l.1, TooLong) else l.

(** Written lines as the next open reads them; only the last may lack its newline. *)
Fixpoint landed {A} (torn : bool) (ls : list (line A)) : list (line A) :=
  match ls with
  | [] => []
  | [l] => [readJSONLLine (if torn then 0 else 1) l]
  | l :: ls => readJSONLLine 1 l :: landed torn ls
  end.

Record sliceDTO := mkDTO {
  dto_ID : string;
  dto_Type : SliceType;
  dto_Scope : Scope;
  dto_Content : string;
  dto_Embedding : option string;   (* json.RawMessage; [None] when absent *)
  dto_Stats : SliceStats;
  dto_Weight : f64;
  dto_Meta : SliceMeta;
  dto_CreatedAt : Z;
}.

Definition journalVersion : Z := 1.

Record journalHeader := mkHeader {
  hdr_J : Z;
  hdr_BSize : Z;
  hdr_BMtime : Z;
  hdr_BSha : string;
}.

Record journalRecord := mkRecord {
  rec_Op : string;
  rec_S : option sliceDTO;
  rec_ID : string;
  rec_D : option SliceStats;
}.

(** A journal line is the header or a record; decoded as the other kind it
    yields that kind's zero fields. *)
Inductive jdoc : Type :=
| JHeader (h : journalHeader)
| JRecord (r : journalRecord).

Definition as_header (d : jdoc) : journalHeader :=
  match d with JHeader h => h | JRecord _ => mkHeader 0 0 0 "" end.
Definition as_record (d : jdoc) : journalRecord :=
  match d with JRecord r => r | JHeader _ => mkRecord "" None "" None end.

Definition is_header (d : jdoc) : bool := match d with JHeader _ => true | JRecord _ => false end.

Record Disk := mkDisk {
  d_base : list (line sliceDTO);
  d_size : Z;                          (* Stat of the base file *)
  d_mtime : Z;
  d_sha : string;
  d_journal : option (list (line jdoc));
  d_torn : bool;                       (* the journal's last line has no newline *)
  d_stash : list (list (line jdoc));
}.

#[export] Instance Disk_eta : Eta Disk := fun r =>
  mkDisk (d_base r) (d_size r) (d_mtime r) (d_sha r) (d_journal r) (d_torn r) (d_stash r).

(** What a failed write leaves after the whole lines it wrote. *)
Inductive tail : Type :=
| NoTail
| Fragment          (* part of the next line *)
| Unterminated.     (* all of the next line but its newline *)

(** The outcomes of the system calls of one operation.  [io_flush = Some (k, t)]:
    the write failed after [k] whole lines and left [t]. *)
Record IO := mkIO {
  io_create : bool;                    (* writing and renaming a fresh journal *)
  io_open : bool;                      (* opening the journal for append *)
  io_flush : option (nat * tail);
  io_sync : bool;
  io_close : bool;
  io_tmp : bool;                       (* writing the temporary base *)
  io_rename : bool;
  io_stat : bool;
  io_mtime : Z;                        (* modification time and digest of a new base *)
  io_sha : string;
  io_remove : bool;
}.

(** ** Entries *)

Record storedEntry := mkEntry {
  e_s : Slice;
  e_embRaw : option string;
  e_dead : bool;
}.

#[export] Instance storedEntry_eta : Eta storedEntry := fun r =>
  mkEntry (e_s r) (e_embRaw r) (e_dead r).

Definition entryFromDTO (d : sliceDTO) : storedEntry :=
  let raw := match dto_Embedding d with
             | Some b => if decide (trim_space b = "null"%string) then None else Some b
             | None => None
             end in
  mkEntry
    (mkSlice (dto_ID d) (dto_Type d) (dto_Scope d) (dto_Content d) None (dto_Stats d)
       (dto_Weight d) (dto_Meta d) (dto_CreatedAt d))
    raw false.

Definition dtoFromEntry (e : storedEntry) : sliceDTO :=
  mkDTO (ID (e_s e)) (SType (e_s e)) (SScope (e_s e)) (Content (e_s e)) (e_embRaw e)
    (Stats (e_s e)) (Weight (e_s e)) (Meta (e_s e)) (CreatedAt (e_s e)).

Definition cloneStored (e : storedEntry) : Slice := e_s e <| Embedding := None |>.

(** [json.Marshal] refuses NaN and infinities. *)
Definition marshalable_stats (s : SliceStats) : bool := finite (UserFeedback s).
Definition marshalable (d : sliceDTO) : bool :=
  marshalable_stats (dto_Stats d) && finite (dto_Weight d).
Definition marshalable_record (r : journalRecord) : bool :=
  match rec_S r with Some d => marshalable d | None => true end
  && match rec_D r with Some d => marshalable_stats d | None => true end.

(** ** The store *)

Record fileStore := mkStore {
  closed : bool;
  readOnly : bool;
  entries : gmap string nat;           (* live entry of an ID, as an index of [order] *)
  order : list storedEntry;
  baseSkipped : Z;
  journalSkipped : Z;
  baseSize : Z;
  baseMtime : Z;
  baseSha : string;
  jw : option (list (line jdoc));      (* the open writer's unflushed lines *)
  jw_err : bool;                       (* bufio's sticky write error *)
  jOps : Z;
  jBytes : Z;
  opsSinceSync : Z;
  bytesSinceSync : Z;
  compactions : Z;
}.

#[export] Instance fileStore_eta : Eta fileStore := fun r =>
  mkStore (closed r) (readOnly r) (entries r) (order r) (baseSkipped r) (journalSkipped r)
    (baseSize r) (baseMtime r) (baseSha r) (jw r) (jw_err r) (jOps r) (jBytes r)
    (opsSinceSync r) (bytesSinceSync r) (compactions r).

Definition emptyStore (ro : bool) : fileStore :=
  mkStore false ro ∅ [] 0 0 0 0 "" None false 0 0 0 0 0.

(** The running process: the store and the disk under it. *)
Record World := mkWorld { w_store : fileStore; w_disk : Disk }.

#[export] Instance World_eta : Eta World := fun r => mkWorld (w_store r) (w_disk r).

Abbreviation op A := (st World A).

Definition on_store (f : fileStore -> fileStore) : op unit :=
  st_modify (fun w => w <| w_store ::= f |>).
Definition on_disk (f : Disk -> Disk) : op unit := st_modify (fun w => w <| w_disk ::= f |>).

(** Mark the entry [id] points to dead; nothing when there is none. *)
Definition kill (id : string) (s : fileStore) : list storedEntry :=
  match entries s !! id with
  | Some i => alter (fun e => e <| e_dead := true |>) i (order s)
  | None => order s
  end.

Definition upsertLocked (e : storedEntry) (s : fileStore) : fileStore :=
  let o := kill (ID (e_s e)) s in
  s <| entries ::= <[ID (e_s e) := length o]> |> <| order := o ++ [e] |>.

Definition deleteLocked (id : string) (s : fileStore) : fileStore :=
  match entries s !! id with
  | Some _ => s <| order := kill id s |> <| entries ::= delete id |>
  | None => s
  end.

Definition statLocked (id : string) (d : SliceStats) (s : fileStore) : fileStore :=
  match entries s !! id with
  | Some i => s <| order ::= alter (fun e => e <| e_s ::= fun sl => sl <| Stats ::= fun c => mergeStats c d |> |>) i |>
  | None => s
  end.

Definition lookup_live (id : string) (s : fileStore) : option storedEntry :=
  i ← entries s !! id; order s !! i.

Definition live (s : fileStore) : list storedEntry := filter (fun e => e_dead e = false) (order s).

(** ** Opening *)

Definition journal_mismatch (h : journalHeader) (s : fileStore) : bool :=
  negb (hdr_BSize h =? baseSize s) || negb (hdr_BMtime h =? baseMtime s).

(** Base wins: the journal is moved aside. *)
Definition stashJournal (io : IO) : op unit :=
  let! w := st_get in
  if readOnly (w_store w) then st_fail "slice: maintenance requires a healthy journal"%string else
  st_require (io_rename io) "rename"%string ;!
  on_disk (fun d => match d_journal d with
                    | Some j => d <| d_journal := None |> <| d_torn := false |> <| d_stash ::= fun l => l ++ [j] |>
                    | None => d
                    end).

(** One base line. *)
Definition load_line (l : line sliceDTO) (s : fileStore) : result fileStore :=
  match l.2 with
  | TooLong => Ok (s <| baseSkipped ::= Z.succ |>)
  | Blank => Ok s
  | Corrupt => if readOnly s then Err "slice: malformed or unsupported maintenance data"
               else Ok (s <| baseSkipped ::= Z.succ |>)
  | Doc strict d =>
      if readOnly s && negb strict then Err "slice: malformed or unsupported maintenance data"
      else if decide (dto_ID d = ""%string) then Ok (s <| baseSkipped ::= Z.succ |>)
      else Ok (upsertLocked (entryFromDTO d) s)
  end.

(** The effect of one decoded journal record. *)
Definition replay_record (r : journalRecord) (s : fileStore) : fileStore :=
  if decide (rec_Op r = "put"%string) then
    match rec_S r with
    | Some d => if decide (dto_ID d = ""%string) then s <| journalSkipped ::= Z.succ |>
                else upsertLocked (entryFromDTO d) s
    | None => s <| journalSkipped ::= Z.succ |>
    end
  else if decide (rec_Op r = "del"%string) then deleteLocked (rec_ID r) s
  else if decide (rec_Op r = "stat"%string) then
    match rec_D r with Some d => statLocked (rec_ID r) d s | None => s end
  else s <| journalSkipped ::= Z.succ |>.

(** What the strict decoder refuses in a record. *)
Definition strict_record_bad (r : journalRecord) : bool :=
  (bool_decide (rec_Op r = "del"%string) && bool_decide (rec_ID r = ""%string))
  || (bool_decide (rec_Op r = "stat"%string)
      && (bool_decide (rec_ID r = ""%string) || bool_decide (rec_D r = None))).

Definition journal_line (l : line jdoc) (s : fileStore) : result fileStore :=
  match l.2 with
  | TooLong => Ok (s <| journalSkipped ::= Z.succ |>)
  | Blank => Ok s
  | Corrupt =>
      let s := s <| jOps ::= Z.succ |> <| jBytes ::= fun b => b + l.1 + 1 |> in
      if readOnly s then Err "slice: malformed or unsupported maintenance data"
      else Ok (s <| journalSkipped ::= Z.succ |>)
  | Doc strict d =>
      let s := s <| jOps ::= Z.succ |> <| jBytes ::= fun b => b + l.1 + 1 |> in
      if readOnly s && (negb strict || is_header d) then Err "slice: malformed or unsupported maintenance data"
      else if readOnly s && strict_record_bad (as_record d) then Err "slice: invalid journal record"
      else Ok (replay_record (as_record d) s)
  end.

Fixpoint load_lines {A} (step : A -> fileStore -> result fileStore) (l : list A) (s : fileStore) :
    result fileStore :=
  match l with
  | [] => Ok s
  | x :: l' => match step x s with Ok s' => load_lines step l' s' | Err e => Err e end
  end.

Definition lift_store (f : fileStore -> result fileStore) : op unit := fun w =>
  match f (w_store w) with
  | Ok s => (Ok tt, w <| w_store := s |>)
  | Err e => (Err e, w)
  end.

Definition loadJournal (io : IO) : op unit :=
  let! w := st_get in
  match d_journal (w_disk w) with
  | None => st_ret tt
  | Some [] => stashJournal io
  | Some ((_, hd) :: records) =>
      let ro := readOnly (w_store w) in
      match hd with
      | TooLong => stashJournal io
      | Blank | Corrupt =>
          if ro then st_fail "slice: malformed or unsupported maintenance data"%string
          else stashJournal io
      | Doc strict d =>
          let h := as_header d in
          if ro && negb (strict && is_header d) then st_fail "slice: malformed or unsupported maintenance data"%string
          else if hdr_J h =? 0 then stashJournal io
          else if negb (hdr_J h =? journalVersion) then stashJournal io
          else if journal_mismatch h (w_store w) then stashJournal io
          else if ro && negb (bool_decide (hdr_BSha h = ""%string))
                  && negb (bool_decide (hdr_BSha h = baseSha (w_store w)))
               then st_fail "slice: journal base content mismatch"%string
          else
            lift_store (load_lines journal_line records) ;!
            if ro then st_ret tt else
            st_require (io_open io) "open"%string ;!
            on_store (fun s => s <| jw := Some [] |> <| jw_err := false |>)
      end
  end.

Definition load (io : IO) : op unit :=
  let! w := st_get in
  lift_store (load_lines load_line (d_base (w_disk w))) ;!
  on_store (fun s => s <| baseSize := d_size (w_disk w) |> <| baseMtime := d_mtime (w_disk w) |>
                       <| baseSha := d_sha (w_disk w) |>) ;!
  loadJournal io.

(** [NewFileStore] on an existing or freshly created base. *)
Definition NewFileStore (io : IO) (d : Disk) : result fileStore * Disk :=
  match load io (mkWorld (emptyStore false) d) with
  | (Ok _, w) => (Ok (w_store w), w_disk w)
  | (Err e, w) => (Err e, w_disk w)
  end.

(** ** The journal *)

Section Ops.
(** The size of a marshalled line, and [json.Marshal] of a vector. *)
Context (json_len : jdoc -> Z) (dto_len : sliceDTO -> Z) (marshal_vec : list Z -> option string).

Definition header_of (s : fileStore) : journalHeader :=
  mkHeader journalVersion (baseSize s) (baseMtime s) (baseSha s).

(** A line as it is written; how it is read back depends on its length. *)
Definition jline (d : jdoc) : line jdoc := (json_len d, Doc true d).

Definition ensureJournalLocked (io : IO) : op unit :=
  let! w := st_get in
  if closed (w_store w) then st_fail "os: file already closed"%string else
  match jw (w_store w) with
  | Some _ => st_ret tt
  | None =>
      st_require (io_create io) "create journal"%string ;!
      (* three numbers and a digest: never too long *)
      on_disk (fun d => d <| d_journal := Some [jline (JHeader (header_of (w_store w)))] |>
                          <| d_torn := false |>) ;!
      st_require (io_open io) "open"%string ;!
      on_store (fun s => s <| jw := Some [] |> <| jw_err := false |> <| jOps := 0 |> <| jBytes := 0 |>)
  end.

Definition reopenJournalLocked (io : IO) : op unit :=
  st_require (io_open io) "open"%string ;!
  on_store (fun s => s <| jw := Some [] |> <| jw_err := false |>).

Definition appendLocked (r : journalRecord) : op unit :=
  let! w := st_get in
  st_require (marshalable_record r) "json: unsupported value"%string ;!
  st_require (negb (jw_err (w_store w))) "write"%string ;!
  let n := json_len (JRecord r) + 1 in
  on_store (fun s => s <| jw ::= fmap (fun b => b ++ [jline (JRecord r)]) |>
                       <| jOps ::= Z.succ |> <| jBytes ::= Z.add n |>
                       <| opsSinceSync ::= Z.succ |> <| bytesSinceSync ::= Z.add n |>).

(** Bytes appended after an unterminated line join it, and the two documents
    on one line no longer decode. *)
Definition join_torn (torn : bool) (j ls : list (line jdoc)) : list (line jdoc) :=
  match rev j, ls with
  | (n, _) :: j', (m, _) :: ls' => rev j' ++ landed torn ((n + m, Corrupt) :: ls')
  | _, _ => j ++ landed torn ls
  end.

Definition journal_append (ls : list (line jdoc)) (torn : bool) (d : Disk) : Disk :=
  match ls with
  | [] => d
  | _ => d <| d_journal ::= fmap (fun j => if d_torn d then join_torn torn j ls else j ++ landed torn ls) |>
           <| d_torn := torn |>
  end.

(** The lines a failed write leaves, and whether the last is unterminated. *)
Definition failed_write (k : nat) (t : tail) (buf : list (line jdoc)) : list (line jdoc) * bool :=
  match t, drop k buf with
  | Fragment, (n, _) :: _ => (take k buf ++ [(n - 1, Corrupt)], true)
  | Unterminated, l :: _ => (take k buf ++ [l], true)
  | _, _ => (take k buf, false)
  end.

(** [jw.Flush()], nothing when the buffer is empty: a failure leaves whole records and maybe a torn one behind,
    and sticks to the writer. *)
Definition flush_writer (io : IO) : op unit :=
  let! w := st_get in
  let buf := match jw (w_store w) with Some b => b | None => [] end in
  if jw_err (w_store w) then st_fail "write"%string else
  match buf, io_flush io with
  | [], _ => st_ret tt
  | _, None =>
      on_disk (journal_append buf false) ;! on_store (fun s => s <| jw := Some [] |>)
  | _, Some (k, t) =>
      let '(ls, torn) := failed_write k t buf in
      on_disk (journal_append ls torn) ;!
      on_store (fun s => s <| jw_err := true |>) ;!
      st_fail "write"%string
  end.

Definition syncEveryOps : Z := 128.
Definition syncEveryBytes : Z := 2 ^ 20.

Definition flushLocked (io : IO) : op unit :=
  flush_writer io ;!
  let! w := st_get in
  if (syncEveryOps <=? opsSinceSync (w_store w)) || (syncEveryBytes <=? bytesSinceSync (w_store w))
  then st_require (io_sync io) "sync"%string ;!
       on_store (fun s => s <| opsSinceSync := 0 |> <| bytesSinceSync := 0 |>)
  else st_ret tt.

Definition entryFromSlice (sl : Slice) : storedEntry :=
  mkEntry (sl <| Embedding := None |>)
    (match Embedding sl with Some v => marshal_vec v | None => None end) false.

(** ** Compaction *)

Definition compactMinOps : Z := 1024.
Definition compactMinBytes : Z := 4 * 2 ^ 20.

Definition raw_by_id (l : list storedEntry) (id : string) : option string :=
  foldl (fun acc e => if decide (ID (e_s e) = id) then e_embRaw e else acc) None l.

(** What [rescore] keeps, with the raw vectors of the live entries. *)
Definition rescored (rescore : list Slice -> list (option Slice)) (lives : list storedEntry) :
    list storedEntry :=
  flat_map (fun o => match o with
                     | Some sl => if decide (ID sl = ""%string) then []
                                  else [entryFromSlice sl <| e_embRaw := raw_by_id lives (ID sl) |>]
                     | None => []
                     end) (rescore (map cloneStored lives)).

(** A base line as the next open reads it. *)
Definition base_line (e : storedEntry) : line sliceDTO :=
  readJSONLLine 1 (dto_len (dtoFromEntry e), Doc true (dtoFromEntry e)).

Definition base_size (ls : list (line sliceDTO)) : Z :=
  foldr (fun l n => l.1 + 1 + n) 0 ls.

Definition index_entries (kept : list storedEntry) : gmap string nat :=
  list_to_map (reverse (imap (fun i e => (ID (e_s e), i)) kept)).

Definition compactLocked (io : IO) (rescore : option (list Slice -> list (option Slice))) : op unit :=
  let! w := st_get in
  if closed (w_store w) then st_fail "os: file already closed"%string else
  let lives := live (w_store w) in
  let kept := match rescore with Some f => rescored f lives | None => lives end in
  st_require (forallb (fun e => marshalable (dtoFromEntry e)) kept) "json: unsupported value"%string ;!
  st_require (io_tmp io) "temporary base"%string ;!
  let retired := match jw (w_store w) with Some _ => true | None => false end in
  (if retired then
     flush_writer io ;!
     (if io_close io then on_store (fun s => s <| jw := None |>)
      else on_store (fun s => s <| jw_err := true |>) ;! st_fail "close"%string)
   else st_ret tt) ;!
  if negb (io_rename io) then
    (if retired then reopenJournalLocked io else st_ret tt) ;! st_fail "rename"%string
  else
  let lines := map base_line kept in
  on_disk (fun d => d <| d_base := lines |> <| d_size := base_size lines |>
                      <| d_mtime := io_mtime io |> <| d_sha := io_sha io |>) ;!
  st_require (io_stat io) "stat"%string ;!
  on_store (fun s => s <| baseSize := base_size lines |> <| baseMtime := io_mtime io |>
                       <| baseSha := io_sha io |>) ;!
  st_require (io_remove io) "remove"%string ;!
  on_disk (fun d => d <| d_journal := None |> <| d_torn := false |>) ;!
  ensureJournalLocked io ;!
  on_store (fun s => s <| opsSinceSync := 0 |> <| bytesSinceSync := 0 |>
                       <| baseSkipped := 0 |> <| journalSkipped := 0 |>
                       <| entries := index_entries kept |> <| order := kept |>
                       <| compactions ::= Z.succ |>).

Definition maybeCompactLocked (io : IO) : op unit :=
  let! w := st_get in
  let s := w_store w in
  let opsTrig := (compactMinOps <=? jOps s) && (Z.of_nat (size (entries s)) <=? jOps s) in
  let byteTrig := (compactMinBytes <=? jBytes s) && (baseSize s <=? jBytes s) in
  if negb opsTrig && negb byteTrig then st_ret tt else compactLocked io None.

Definition Compact (io : IO) : op unit :=
  let! w := st_get in
  let s := w_store w in
  if closed s then st_fail "os: file already closed"%string
  else if (jOps s =? 0) && (baseSkipped s =? 0) && (journalSkipped s =? 0) then st_ret tt
  else compactLocked io None.

Definition CompactWith (io : IO) (rescore : list Slice -> list (option Slice)) : op unit :=
  compactLocked io (Some rescore).

(** ** The operations *)

Definition put_record (e : storedEntry) : journalRecord :=
  mkRecord "put" (Some (dtoFromEntry e)) "" None.
Definition del_record (id : string) : journalRecord := mkRecord "del" None id None.
Definition stat_record (id : string) (d : SliceStats) : journalRecord :=
  mkRecord "stat" None id (Some d).

Definition Put (io : IO) (sl : Slice) : op unit :=
  let e := entryFromSlice (EnforceAdmission sl).1 in
  ensureJournalLocked io ;!
  appendLocked (put_record e) ;!
  flushLocked io ;!
  on_store (upsertLocked e) ;!
  maybeCompactLocked io.

Definition Get (id : string) (s : fileStore) : option Slice :=
  cloneStored <$> lookup_live id s.

Definition List_ (scope : Scope) (s : fileStore) : list Slice :=
  map cloneStored (filter (fun e => e_dead e = false /\ SScope (e_s e) = scope) (order s)).

Definition ListAll (s : fileStore) : list Slice := map cloneStored (live s).

Definition Delete (io : IO) (id : string) : op unit :=
  let! w := st_get in
  match entries (w_store w) !! id with
  | None => st_ret tt
  | Some _ =>
      ensureJournalLocked io ;!
      appendLocked (del_record id) ;!
      flushLocked io ;!
      on_store (deleteLocked id) ;!
      maybeCompactLocked io
  end.

Definition UpdateStats (io : IO) (id : string) (delta : SliceStats) : op unit :=
  let! w := st_get in
  match entries (w_store w) !! id with
  | None => st_fail "slice: not found"%string
  | Some _ =>
      ensureJournalLocked io ;!
      appendLocked (stat_record id delta) ;!
      flushLocked io ;!
      on_store (statLocked id delta) ;!
      maybeCompactLocked io
  end.

(** The IDs of a batch that have a live entry, in journal order. *)
Definition batch_ids (deltas : gmap string SliceStats) (s : fileStore) : list (string * SliceStats) :=
  go_sort (fun a b => string_less a.1 b.1)
    (filter (fun kv => is_Some (entries s !! kv.1)) (map_to_list deltas)).

Definition UpdateStatsBatch (io : IO) (deltas : gmap string SliceStats) : op unit :=
  let! w := st_get in
  match batch_ids deltas (w_store w) with
  | [] => st_ret tt
  | ids =>
      ensureJournalLocked io ;!
      st_each (fun '(id, d) => appendLocked (stat_record id d)) ids ;!
      flushLocked io ;!
      on_store (fun s => foldl (fun s '(id, d) => statLocked id d s) s ids) ;!
      maybeCompactLocked io
  end.

(** [Close]: the writer is flushed and dropped even when that fails. *)
Definition Close (io : IO) : op unit := fun w =>
  if closed (w_store w) then (Ok tt, w) else
  let w := w <| w_store ::= fun s => s <| closed := true |> |> in
  match jw (w_store w) with
  | None => (Ok tt, w)
  | Some _ =>
      let '(r, w) := flush_writer io w in
      let w := w <| w_store ::= fun s => s <| jw := None |> |> in
      if is_ok r && io_sync io && io_close io then (Ok tt, w) else (Err "close", w)
  end.

Definition ReadEmbedding (id : string) (s : fileStore) : result (option string) :=
  if closed s then Err "os: file already closed" else
  Ok (e ← lookup_live id s; e_embRaw e).

(** The lines of a backup and how many were dropped. *)
Definition exportLines (s : fileStore) : result (list sliceDTO * Z) :=
  let l := map dtoFromEntry (live s) in
  if forallb marshalable l then Ok (l, baseSkipped s + journalSkipped s)
  else Err "json: unsupported value".
End Ops.
