(* ===== verification/StoreSpec.v ===== *)
(** The slice store against its contract: an ordered list of live entries with
    distinct IDs, [put] moving an entry to the end, [del] removing it and [stat]
    merging its counters.  The in-memory operations and the journal replay both
    implement that specification, so the file a successful operation leaves
    behind reopens to the state the process holds. *)

From Stdlib Require Import ZArith Lia Bool Ascii String Floats.SpecFloat.
From stdpp Require Import tactics base option list sorting gmap strings.
From S2P Require Import Prelude Float64 GoStrings Slice Store.

#[global] Open Scope Z_scope.

(** ** The contract *)

Definition has_id (id : string) (e : storedEntry) : Prop := ID (e_s e) = id.
#[export] Instance has_id_dec id e : Decision (has_id id e).
Proof. unfold has_id. apply _. Defined.

Definition spec_put (e : storedEntry) (l : list storedEntry) : list storedEntry :=
  filter (fun x => ~ has_id (ID (e_s e)) x) l ++ [e].
Definition spec_del (id : string) (l : list storedEntry) : list storedEntry :=
  filter (fun x => ~ has_id id x) l.
Definition merge_entry (d : SliceStats) (e : storedEntry) : storedEntry :=
  e <| e_s ::= fun sl => sl <| Stats ::= fun c => mergeStats c d |> |>.
Definition spec_stat (id : string) (d : SliceStats) (l : list storedEntry) : list storedEntry :=
  map (fun x => if decide (has_id id x) then merge_entry d x else x) l.

Definition spec_record (r : journalRecord) (l : list storedEntry) : list storedEntry :=
  if decide (rec_Op r = "put"%string) then
    match rec_S r with
    | Some d => if decide (dto_ID d = ""%string) then l else spec_put (entryFromDTO d) l
    | None => l
    end
  else if decide (rec_Op r = "del"%string) then spec_del (rec_ID r) l
  else if decide (rec_Op r = "stat"%string) then
    match rec_D r with Some d => spec_stat (rec_ID r) d l | None => l end
  else l.

Definition spec_base_line (b : line sliceDTO) (l : list storedEntry) : list storedEntry :=
  match b.2 with
  | Doc _ d => if decide (dto_ID d = ""%string) then l else spec_put (entryFromDTO d) l
  | _ => l
  end.

Definition spec_journal_line (b : line jdoc) (l : list storedEntry) : list storedEntry :=
  match b.2 with Doc _ d => spec_record (as_record d) l | _ => l end.

Definition spec_lines {A} (step : line A -> list storedEntry -> list storedEntry)
    (ls : list (line A)) (l : list storedEntry) : list storedEntry :=
  foldl (fun l b => step b l) l ls.

(** Does the journal belong to this base? *)
Definition journal_binds (d : Disk) (hd : line jdoc) : bool :=
  match hd.2 with
  | Doc _ j => (hdr_J (as_header j) =? journalVersion)
               && (hdr_BSize (as_header j) =? d_size d) && (hdr_BMtime (as_header j) =? d_mtime d)
  | _ => false
  end.

(** What is on disk: the base, and the journal on top of it when it belongs to it. *)
Definition view (d : Disk) : list storedEntry :=
  let base := spec_lines spec_base_line (d_base d) [] in
  match d_journal d with
  | Some (hd :: recs) => if journal_binds d hd then spec_lines spec_journal_line recs base else base
  | _ => base
  end.

(** ** The pointer structure *)

Record wf (s : fileStore) : Prop := {
  wf_ptr : forall id i, entries s !! id = Some i ->
    exists e, order s !! i = Some e /\ e_dead e = false /\ ID (e_s e) = id;
  wf_live : forall i e, order s !! i = Some e -> e_dead e = false ->
    entries s !! ID (e_s e) = Some i;
}.

(** Updating through the pointer of [id] is updating the live entries of that ID. *)
Definition touch (id : string) (f : storedEntry -> storedEntry) (o : list storedEntry) :=
  map (fun e => if decide (e_dead e = false /\ ID (e_s e) = id) then f e else e) o.

Lemma alter_touch s id i f :
  wf s -> entries s !! id = Some i -> alter f i (order s) = touch id f (order s).
Proof.
  intros Hwf Hi. destruct (wf_ptr s Hwf id i Hi) as (e & He & Hd & Hid).
  apply list_eq. intros j. unfold touch. rewrite list_lookup_fmap.
  destruct (decide (i = j)) as [<-|Hne].
  - rewrite list_lookup_alter, decide_True, He by done. simpl. by rewrite decide_True.
  - rewrite list_lookup_alter, decide_False by done.
    destruct (order s !! j) as [x|] eqn:Hx; simpl; [|done].
    rewrite decide_False; [done|]. intros [Hdx <-].
    pose proof (wf_live s Hwf j x Hx Hdx). congruence.
Qed.

Lemma touch_absent s id f : wf s -> entries s !! id = None -> touch id f (order s) = order s.
Proof.
  intros Hwf Hn. unfold touch. apply list_eq. intros j. rewrite list_lookup_fmap.
  destruct (order s !! j) as [x|] eqn:Hx; simpl; [|done].
  rewrite decide_False; [done|]. intros [Hdx <-].
  pose proof (wf_live s Hwf j x Hx Hdx). congruence.
Qed.

Lemma kill_touch s id : wf s -> kill id s = touch id (fun e => e <| e_dead := true |>) (order s).
Proof.
  intros Hwf. unfold kill. destruct (entries s !! id) as [i|] eqn:E.
  - by apply alter_touch.
  - by rewrite touch_absent.
Qed.

Lemma wf_frame s s' : entries s' = entries s -> order s' = order s -> wf s -> wf s'.
Proof. intros He Ho [H1 H2]. split; rewrite He, Ho; auto. Qed.

Lemma live_frame s s' : order s' = order s -> live s' = live s.
Proof. unfold live. by intros ->. Qed.

Lemma wf_empty ro : wf (emptyStore ro).
Proof. split; intros; simplify_eq/=. Qed.

Lemma touch_lookup id f o i :
  touch id f o !! i =
    (fun e => if decide (e_dead e = false /\ ID (e_s e) = id) then f e else e) <$> o !! i.
Proof. unfold touch. apply list_lookup_fmap. Qed.

Lemma live_kill s id : wf s -> filter (fun e => e_dead e = false) (kill id s) = spec_del id (live s).
Proof.
  intros Hwf. rewrite kill_touch by done. unfold live, spec_del, touch, has_id.
  induction (order s) as [|e o IH]; [done|]. rewrite map_cons, !filter_cons.
  destruct (decide (e_dead e = false /\ ID (e_s e) = id)) as [[Hd Hid]|Hn].
  - rewrite decide_False by done. rewrite (decide_True _ _ Hd), filter_cons.
    rewrite decide_False by auto. done.
  - destruct (decide (e_dead e = false)) as [Hd|]; [|done].
    rewrite filter_cons, decide_True by naive_solver. by rewrite IH.
Qed.

Lemma wf_kill s id i e :
  wf s -> kill id s !! i = Some e -> e_dead e = false -> entries s !! ID (e_s e) = Some i /\ ID (e_s e) <> id.
Proof.
  intros Hwf. rewrite kill_touch, touch_lookup by done.
  destruct (order s !! i) as [x|] eqn:Hx; simpl; [|done]. intros [= <-].
  destruct (decide _) as [?|Hn]; simpl; [done|]. intros Hd.
  split; [by apply (wf_live s Hwf)|]. naive_solver.
Qed.

Lemma kill_other s id id' i e :
  wf s -> id' <> id -> entries s !! id' = Some i -> order s !! i = Some e ->
  kill id s !! i = Some e.
Proof.
  intros Hwf Hne Hi He. rewrite kill_touch, touch_lookup, He by done. simpl.
  destruct (wf_ptr s Hwf id' i Hi) as (x & Hx & _ & Hid). simplify_eq.
  rewrite decide_False; [done|]. naive_solver.
Qed.

Lemma upsert_wf s e : wf s -> e_dead e = false -> wf (upsertLocked e s).
Proof.
  intros Hwf Hd. split; simpl.
  - intros id i. destruct (decide (id = ID (e_s e))) as [->|Hne].
    + rewrite lookup_insert_eq. intros [= <-]. exists e.
      rewrite lookup_app_r, Nat.sub_diag by lia. done.
    + rewrite lookup_insert_ne by done. intros Hi.
      destruct (wf_ptr s Hwf id i Hi) as (x & Hx & Hxd & Hid). exists x.
      split; [|done]. apply lookup_app_l_Some. by eapply kill_other.
  - intros i x Hx Hxd. apply lookup_app_Some in Hx as [Hx|[Hge Hx]].
    + destruct (wf_kill s _ i x Hwf Hx Hxd) as [? ?]. by rewrite lookup_insert_ne.
    + apply list_lookup_singleton_Some in Hx as [Hi <-].
      rewrite lookup_insert_eq. f_equal. lia.
Qed.

Lemma upsert_live s e : wf s -> e_dead e = false -> live (upsertLocked e s) = spec_put e (live s).
Proof.
  intros Hwf Hd. unfold live, spec_put. simpl. rewrite filter_app, live_kill by done.
  f_equal. by rewrite filter_cons, decide_True.
Qed.

Lemma delete_wf s id : wf s -> wf (deleteLocked id s).
Proof.
  intros Hwf. unfold deleteLocked. destruct (entries s !! id) as [i0|] eqn:E; [|done].
  split; simpl.
  - intros id' i. rewrite lookup_delete_Some. intros [Hne Hi].
    destruct (wf_ptr s Hwf id' i Hi) as (x & Hx & Hxd & Hid). exists x.
    split; [|done]. by eapply kill_other.
  - intros i x Hx Hxd. destruct (wf_kill s _ i x Hwf Hx Hxd). by rewrite lookup_delete_ne.
Qed.

Lemma elem_of_live s e : e ∈ live s <-> exists i, order s !! i = Some e /\ e_dead e = false.
Proof. unfold live. rewrite list_elem_of_filter, list_elem_of_lookup. naive_solver. Qed.

Lemma live_entry s e : wf s -> e ∈ live s -> is_Some (entries s !! ID (e_s e)).
Proof. intros Hwf (i & Hi & Hd)%elem_of_live. exists i. by apply (wf_live s Hwf). Qed.

Lemma live_absent s id e : wf s -> entries s !! id = None -> e ∈ live s -> ~ has_id id e.
Proof. intros Hwf Hn He <-. apply (live_entry s e Hwf) in He as [? ?]. congruence. Qed.

Lemma spec_del_absent s id : wf s -> entries s !! id = None -> spec_del id (live s) = live s.
Proof.
  intros Hwf Hn. unfold spec_del. pose proof (fun e => live_absent s id e Hwf Hn) as H.
  induction (live s) as [|e l IH]; [done|]. rewrite filter_cons, decide_True by (apply H; left).
  f_equal. apply IH. intros x Hx. apply H. by right.
Qed.

Lemma spec_stat_absent s id d : wf s -> entries s !! id = None -> spec_stat id d (live s) = live s.
Proof.
  intros Hwf Hn. unfold spec_stat. pose proof (fun e => live_absent s id e Hwf Hn) as H.
  induction (live s) as [|e l IH]; [done|]. simpl. rewrite decide_False by (apply H; left).
  f_equal. apply IH. intros x Hx. apply H. by right.
Qed.

Lemma delete_live s id : wf s -> live (deleteLocked id s) = spec_del id (live s).
Proof.
  intros Hwf. unfold deleteLocked. destruct (entries s !! id) as [i|] eqn:E.
  - unfold live at 1. simpl. by apply live_kill.
  - by rewrite spec_del_absent.
Qed.

Lemma stat_order s id d i : wf s -> entries s !! id = Some i ->
  order (statLocked id d s) = touch id (merge_entry d) (order s).
Proof. intros Hwf Hi. unfold statLocked. rewrite Hi. simpl. by apply alter_touch. Qed.

Lemma stat_entries s id d : entries (statLocked id d s) = entries s.
Proof. unfold statLocked. by destruct (entries s !! id). Qed.

Lemma stat_wf s id d : wf s -> wf (statLocked id d s).
Proof.
  intros Hwf. destruct (entries s !! id) as [i0|] eqn:E;
    [|unfold statLocked; by rewrite E].
  split; rewrite stat_entries, (stat_order _ _ _ i0) by done.
  - intros id' i Hi. destruct (wf_ptr s Hwf id' i Hi) as (x & Hx & Hxd & Hid).
    rewrite touch_lookup, Hx. simpl. destruct (decide _); eauto.
  - intros i e. rewrite touch_lookup. destruct (order s !! i) as [x|] eqn:Hx; simpl; [|done].
    intros [= <-] Hd.     destruct (decide _) as [[? <-]|]; simpl in *; by apply (wf_live s Hwf).
Qed.

Lemma stat_live s id d : wf s -> live (statLocked id d s) = spec_stat id d (live s).
Proof.
  intros Hwf. destruct (entries s !! id) as [i0|] eqn:E;
    [|unfold statLocked; by rewrite E, spec_stat_absent].
  unfold live, spec_stat, has_id. rewrite (stat_order _ _ _ i0) by done. unfold touch.
  induction (order s) as [|e o IH]; [done|]. rewrite map_cons, !filter_cons.
  destruct (decide (e_dead e = false)) as [Hd|Hd].
  - destruct (decide (ID (e_s e) = id)) as [Hid|Hid].
    + rewrite (decide_True _ _ (conj Hd Hid)), decide_True by done. simpl.
      rewrite decide_True by done. by rewrite IH.
    + rewrite (decide_False (P := _ /\ _)) by naive_solver. rewrite decide_True by done. simpl.
      rewrite decide_False by done. by rewrite IH.
  - rewrite (decide_False (P := _ /\ _)) by naive_solver. by rewrite decide_False.
Qed.

Create HintDb store discriminated.
#[export] Hint Resolve upsert_wf delete_wf stat_wf wf_empty : store.

(** ** Replay *)

(** What a replay step leaves alone. *)
Definition same_base (s s' : fileStore) : Prop :=
  readOnly s' = readOnly s /\ closed s' = closed s /\ baseSize s' = baseSize s
  /\ baseMtime s' = baseMtime s /\ baseSha s' = baseSha s /\ jw s' = jw s /\ jw_err s' = jw_err s.

Lemma same_base_refl s : same_base s s.
Proof. by repeat split. Qed.

Lemma same_base_trans s1 s2 s3 : same_base s1 s2 -> same_base s2 s3 -> same_base s1 s3.
Proof. unfold same_base. intros (?&?&?&?&?&?&?) (?&?&?&?&?&?&?). repeat split; congruence. Qed.

Lemma locked_same_base s e id d :
  same_base s (upsertLocked e s) /\ same_base s (deleteLocked id s) /\ same_base s (statLocked id d s).
Proof.
  unfold deleteLocked, statLocked. split_and!; [done| |];
    destruct (entries s !! id); done.
Qed.

(** A step that implements [f] on the live entries. *)
Definition implements (f : list storedEntry -> list storedEntry) (s s' : fileStore) : Prop :=
  wf s' /\ live s' = f (live s) /\ same_base s s'.

Lemma implements_id s s' :
  wf s -> entries s' = entries s -> order s' = order s -> same_base s s' -> implements id s s'.
Proof. intros Hwf He Ho Hb. split_and!; [by eapply wf_frame|by apply live_frame|done]. Qed.

Lemma implements_upsert s e :
  wf s -> e_dead e = false -> implements (spec_put e) s (upsertLocked e s).
Proof.
  intros. split_and!; [by apply upsert_wf|by apply upsert_live|].
  by apply (locked_same_base s e "" zero_stats).
Qed.

Lemma implements_delete s id : wf s -> implements (spec_del id) s (deleteLocked id s).
Proof.
  intros. split_and!; [by apply delete_wf|by apply delete_live|].
  by apply (locked_same_base s (entryFromDTO (mkDTO "" Prompt Project "" None zero_stats f0 zero_meta 0))
              id zero_stats).
Qed.

Lemma implements_stat s id d : wf s -> implements (spec_stat id d) s (statLocked id d s).
Proof.
  intros. split_and!; [by apply stat_wf|by apply stat_live|].
  by apply (locked_same_base s (entryFromDTO (mkDTO "" Prompt Project "" None zero_stats f0 zero_meta 0))
              id d).
Qed.

Lemma implements_trans f g s1 s2 s3 :
  implements f s1 s2 -> implements g s2 s3 -> implements (fun l => g (f l)) s1 s3.
Proof.
  intros (_ & Hl1 & Hb1) (? & Hl2 & Hb2). split_and!; [done| |by eapply same_base_trans].
  by rewrite Hl2, Hl1.
Qed.

#[export] Hint Resolve implements_upsert implements_delete implements_stat : store.

Ltac by_frame := apply implements_id; [done|reflexivity|reflexivity|by repeat split].

Lemma replay_record_implements r s : wf s -> implements (spec_record r) s (replay_record r s).
Proof.
  intros Hwf. unfold replay_record, spec_record.
  destruct (decide (rec_Op r = "put"%string)).
  { destruct (rec_S r) as [d|]; [|by_frame]. destruct (decide (dto_ID d = ""%string)); [by_frame|].
    by apply implements_upsert. }
  destruct (decide (rec_Op r = "del"%string)); [by apply implements_delete|].
  destruct (decide (rec_Op r = "stat"%string)); [|by_frame].
  destruct (rec_D r); [by apply implements_stat|by_frame].
Qed.

Lemma load_line_implements l s :
  wf s -> readOnly s = false ->
  exists s', load_line l s = Ok s' /\ implements (spec_base_line l) s s'.
Proof.
  intros Hwf Hro. unfold load_line, spec_base_line. rewrite Hro. simpl.
  destruct l.2 as [| | |st d]; try (eexists; split; [done|by_frame]).
  destruct (decide (dto_ID d = ""%string)); (eexists; split; [done|]); [by_frame|].
  by apply implements_upsert.
Qed.

Lemma journal_line_implements l s :
  wf s -> readOnly s = false ->
  exists s', journal_line l s = Ok s' /\ implements (spec_journal_line l) s s'.
Proof.
  intros Hwf Hro. unfold journal_line, spec_journal_line. simpl. rewrite Hro. simpl.
  destruct l.2 as [| | |st d]; try (eexists; split; [done|by_frame]).
  eexists; split; [done|].
  set (s1 := mkStore _ _ _ _ _ _ _ _ _ _ _ _ _ _ _ _).
  assert (Hs1 : implements id s s1) by by_frame.
  eapply (implements_trans id); [exact Hs1|]. apply replay_record_implements, Hs1.
Qed.

Lemma load_lines_implements {A} (step : line A -> fileStore -> result fileStore) spec ls s :
  (forall l s, wf s -> readOnly s = false ->
    exists s', step l s = Ok s' /\ implements (spec l) s s') ->
  wf s -> readOnly s = false ->
  exists s', load_lines step ls s = Ok s' /\ implements (spec_lines spec ls) s s'.
Proof.
  intros Hstep. revert s. induction ls as [|l ls IH]; intros s Hwf Hro; simpl.
  - eexists. split; [done|]. by_frame.
  - destruct (Hstep l s Hwf Hro) as (s1 & -> & Hi).
    assert (Hro1 : readOnly s1 = false) by (destruct Hi as (_ & _ & -> & _); done).
    destruct (IH s1 (proj1 Hi) Hro1) as (s' & -> & Hi').
    eexists. split; [done|]. exact (implements_trans _ _ _ _ _ Hi Hi').
Qed.

(** A step that succeeds implements the specification whatever the mode of the
    handle: a read-only one refuses lines a writer skips, and never reads one
    differently. *)
Lemma load_line_ok l s s' : wf s -> load_line l s = Ok s' -> implements (spec_base_line l) s s'.
Proof.
  intros Hwf. unfold load_line, spec_base_line.
  destruct l.2 as [| | |st d]; [intros [= <-]; by_frame..| |].
  - destruct (readOnly s); [done|]. intros [= <-]. by_frame.
  - destruct (readOnly s && negb st); [done|].
    destruct (decide (dto_ID d = ""%string)); intros [= <-]; [by_frame|by apply implements_upsert].
Qed.

Lemma journal_line_ok l s s' : wf s -> journal_line l s = Ok s' -> implements (spec_journal_line l) s s'.
Proof.
  intros Hwf. unfold journal_line, spec_journal_line. simpl.
  destruct l.2 as [| | |st d]; [intros [= <-]; by_frame..| |].
  - destruct (readOnly s) eqn:Ero; [done|]. intros [= <-]. rewrite <- Ero. by_frame.
  - destruct (readOnly s && _); [done|]. destruct (readOnly s && _); [done|]. intros [= <-].
    set (s1 := mkStore _ _ _ _ _ _ _ _ _ _ _ _ _ _ _ _).
    assert (Hs1 : implements id s s1) by by_frame.
    eapply (implements_trans id); [exact Hs1|]. apply replay_record_implements, Hs1.
Qed.

Lemma load_lines_ok {A} (step : line A -> fileStore -> result fileStore) spec ls s s' :
  (forall l s s', wf s -> step l s = Ok s' -> implements (spec l) s s') ->
  wf s -> load_lines step ls s = Ok s' -> implements (spec_lines spec ls) s s'.
Proof.
  intros Hstep. revert s. induction ls as [|l ls IH]; intros s Hwf; simpl.
  - intros [= <-]. by_frame.
  - destruct (step l s) as [s1|] eqn:E; [|done]. intros Hs. pose proof (Hstep l s s1 Hwf E) as Hi.
    exact (implements_trans _ _ _ _ _ Hi (IH s1 (proj1 Hi) Hs)).
Qed.

(** ** Opening *)

(** The generation of the base a store was opened on. *)
Definition on_base (s : fileStore) (d : Disk) : Prop :=
  baseSize s = d_size d /\ baseMtime s = d_mtime d.

Lemma load_base d :
  exists s, load_lines load_line (d_base d) (emptyStore false) = Ok s
    /\ implements (spec_lines spec_base_line (d_base d)) (emptyStore false) s.
Proof. apply load_lines_implements; [apply load_line_implements|apply wf_empty|done]. Qed.

(** The process's store and the disk under it agree: between operations nothing
    is buffered and the open journal belongs to the base. *)
Record synced (s : fileStore) (d : Disk) : Prop := {
  sy_wf : wf s;
  sy_ro : readOnly s = false;
  sy_live : live s = view d;
  sy_base : on_base s d;
  sy_jw : match jw s with
          | None => d_journal d = None
          | Some buf => buf = [] /\ jw_err s = false
              /\ exists hd recs, d_journal d = Some (hd :: recs) /\ journal_binds d hd = true
          end;
}.

Lemma stashJournal_run io s d j :
  readOnly s = false -> io_rename io = true -> d_journal d = Some j ->
  stashJournal io (mkWorld s d)
    = (Ok tt, mkWorld s (d <| d_journal := None |> <| d_torn := false |> <| d_stash ::= fun l => l ++ [j] |>)).
Proof.
  intros Hro Hren Hj. unfold stashJournal, st_bind, st_get, on_disk, st_modify, st_require, st_ret.
  simpl. rewrite Hro, Hren. simpl. by rewrite Hj.
Qed.

Lemma journal_binds_iff d n st j :
  journal_binds d (n, Doc st j) = true <->
  hdr_J (as_header j) = journalVersion /\ hdr_BSize (as_header j) = d_size d
  /\ hdr_BMtime (as_header j) = d_mtime d.
Proof. unfold journal_binds. simpl. rewrite !andb_true_iff, !Z.eqb_eq. tauto. Qed.

Definition base_view (d : Disk) : list storedEntry := spec_lines spec_base_line (d_base d) [].

Lemma loadJournal_spec io s d :
  wf s -> readOnly s = false -> on_base s d -> jw s = None -> live s = base_view d ->
  io_rename io = true -> io_open io = true ->
  exists s' d', loadJournal io (mkWorld s d) = (Ok tt, mkWorld s' d')
    /\ synced s' d' /\ view d' = view d /\ closed s' = closed s
    /\ d_mtime d' = d_mtime d /\ (d_torn d = false -> d_torn d' = false).
Proof.
  intros Hwf Hro Hb Hjw Hlive Hren Hop.
  assert (Hout : forall j, d_journal d = Some j -> view d = base_view d ->
    exists s' d', stashJournal io (mkWorld s d) = (Ok tt, mkWorld s' d')
      /\ synced s' d' /\ view d' = view d /\ closed s' = closed s
      /\ d_mtime d' = d_mtime d /\ (d_torn d = false -> d_torn d' = false)).
  { intros j Hj Hv. do 2 eexists. split; [by apply (stashJournal_run io s d j)|].
    split; [split; [done|done|exact Hlive|exact Hb|by rewrite Hjw]|]. by rewrite Hv. }
  unfold loadJournal, st_bind at 1, st_get. simpl.
  destruct (d_journal d) as [[|[n hd] recs]|] eqn:Hj.
  - apply (Hout []); [done|]. unfold view. by rewrite Hj.
  - destruct (journal_binds d (n, hd)) eqn:Hbind.
    + destruct hd as [| | |st j]; try done. apply journal_binds_iff in Hbind as (HJ & HS & HM).
      destruct Hb as [Hsz Hmt]. rewrite Hro, HJ. unfold journal_mismatch.
      rewrite HS, HM, Hsz, Hmt, !Z.eqb_refl. simpl.
      destruct (load_lines_implements journal_line spec_journal_line recs s) as (s1 & Hs1 & Hw1 & Hl1 & Hb1);
        [apply journal_line_implements|done|done|].
      unfold st_bind, lift_store. simpl. rewrite Hs1. unfold st_require. rewrite Hop. simpl.
      do 2 eexists. split; [done|]. destruct Hb1 as (Hro1 & Hc1 & Hsz1 & Hmt1 & _).
      split; [|done]. split; simpl; [by apply (wf_frame s1)|congruence| | |].
      * unfold live. simpl. change (live s1 = view d). unfold view. rewrite Hj.
        rewrite (proj2 (journal_binds_iff d n st j)) by done. by rewrite Hl1, Hlive.
      * split; simpl; congruence.
      * split_and!; [done|done|]. do 2 eexists. split; [done|]. by apply journal_binds_iff.
    + assert (Hv : view d = base_view d) by (unfold view; by rewrite Hj, Hbind).
      specialize (Hout _ eq_refl Hv). rewrite Hro.
      destruct hd as [| | |st j]; [done..|]. simpl.
      destruct (hdr_J (as_header j) =? 0) eqn:E0; [done|].
      destruct (hdr_J (as_header j) =? journalVersion) eqn:E1; simpl; [|done].
      destruct (journal_mismatch (as_header j) s) eqn:Em; [done|]. exfalso.
      unfold journal_mismatch in Em. go_bool. destruct Hb as [Hsz Hmt].
      rewrite <- not_true_iff_false, journal_binds_iff in Hbind. apply Hbind.
      split_and!; congruence.
  - do 2 eexists. split; [done|]. split; [|done]. split; [done|done| |done|by rewrite Hjw].
    rewrite Hlive. unfold view. by rewrite Hj.
Qed.

(** Opening never fails on the content of the files, and yields what is on disk. *)
Lemma NewFileStore_spec io d :
  io_rename io = true -> io_open io = true ->
  exists s d', NewFileStore io d = (Ok s, d') /\ synced s d' /\ view d' = view d /\ closed s = false
    /\ d_mtime d' = d_mtime d /\ (d_torn d = false -> d_torn d' = false).
Proof.
  intros Hren Hop. unfold NewFileStore, load, st_bind at 1, st_get. simpl.
  destruct (load_base d) as (s0 & Hs0 & Hwf & Hl & Hro & Hc & _ & _ & _ & Hjw & _).
  unfold st_bind, lift_store, on_store, st_modify. simpl. rewrite Hs0. simpl.
  set (s1 := mkStore _ _ _ _ _ _ _ _ _ _ _ _ _ _ _ _).
  destruct (loadJournal_spec io s1 d) as (s' & d' & -> & Hsy & Hv & Hc' & Hmt & Ht); try done.
  { by apply (wf_frame s0). }
  exists s', d'. simpl. by rewrite Hc'.
Qed.

(** ** What every state on disk satisfies *)

(** An entry as the decoder builds it. *)
Definition clean (e : storedEntry) : Prop :=
  e_dead e = false /\ Embedding (e_s e) = None /\ ID (e_s e) <> ""%string
  /\ forall b, e_embRaw e = Some b -> trim_space b <> "null"%string.

Definition ids (l : list storedEntry) : list string := map (fun e => ID (e_s e)) l.

Definition good (l : list storedEntry) : Prop := Forall clean l /\ NoDup (ids l).

Lemma entryFromDTO_clean d : dto_ID d <> ""%string -> clean (entryFromDTO d).
Proof.
  intros Hid. split_and!; simpl; [done..|]. intros b.
  destruct (dto_Embedding d) as [raw|]; [|done]. destruct (decide _); naive_solver.
Qed.

Lemma entry_dto_entry e : clean e -> entryFromDTO (dtoFromEntry e) = e.
Proof.
  destruct e as [[id ty sc ct em stt w m ca] raw dead]. intros (Hd & He & _ & Hn). simpl in *. subst.
  unfold entryFromDTO. simpl. destruct raw as [b|]; [|done]. rewrite decide_False; [done|].
  by apply Hn.
Qed.

Lemma elem_of_ids id l : id ∈ ids l <-> exists e, e ∈ l /\ has_id id e.
Proof. unfold ids, has_id. rewrite list_elem_of_fmap. naive_solver. Qed.

Lemma ids_filter P `{forall e, Decision (P e)} l : ids (filter P l) `sublist_of` ids l.
Proof. apply fmap_sublist, sublist_filter. Qed.

Lemma clean_filter P `{forall e, Decision (P e)} l :
  Forall clean l -> Forall clean (filter P l).
Proof. rewrite !Forall_forall. intros Hc e [_ He]%list_elem_of_filter. by apply Hc. Qed.

Lemma spec_del_good id l : good l -> good (spec_del id l).
Proof.
  intros [Hc Hn]. split; [by apply clean_filter|]. eapply sublist_NoDup; [done|apply ids_filter].
Qed.

Lemma spec_put_good e l : clean e -> good l -> good (spec_put e l).
Proof.
  intros He [Hc Hn]. unfold spec_put. split.
  - apply Forall_app. split; [by apply clean_filter|by constructor].
  - unfold ids. rewrite map_app. apply NoDup_app. split_and!.
    + eapply sublist_NoDup; [done|apply ids_filter].
    + intros x (y & [Hy _]%list_elem_of_filter & Hid)%elem_of_ids. simpl.
      rewrite list_elem_of_singleton. intros ->. by apply Hy.
    + apply NoDup_singleton.
Qed.

Lemma spec_stat_ids id d l : ids (spec_stat id d l) = ids l.
Proof.
  unfold ids, spec_stat. rewrite map_map. apply map_ext. intros e. by destruct (decide _).
Qed.

Lemma spec_stat_good id d l : good l -> good (spec_stat id d l).
Proof.
  intros [Hc Hn]. split; [|by rewrite spec_stat_ids].
  unfold spec_stat. apply Forall_fmap. eapply Forall_impl; [done|]. intros e He. simpl.
  by destruct (decide _).
Qed.

#[export] Hint Resolve spec_del_good spec_put_good spec_stat_good entryFromDTO_clean : store.

Lemma spec_record_good r l : good l -> good (spec_record r l).
Proof.
  intros Hg. unfold spec_record. destruct (decide _); [|destruct (decide _); [auto with store|]].
  - destruct (rec_S r); [|done]. destruct (decide _); auto with store.
  - destruct (decide _); [|done]. destruct (rec_D r); auto with store.
Qed.

Lemma spec_lines_good {A} (step : line A -> list storedEntry -> list storedEntry) ls l :
  (forall b l, good l -> good (step b l)) -> good l -> good (spec_lines step ls l).
Proof. intros Hstep. revert l. induction ls; simpl; auto. Qed.

Lemma base_view_good d : good (base_view d).
Proof.
  apply spec_lines_good; [|split; constructor]. intros [n []] l Hg; simpl; try done.
  unfold spec_base_line. simpl. destruct (decide _); auto with store.
Qed.

Lemma view_good d : good (view d).
Proof.
  unfold view. pose proof (base_view_good d) as Hb. fold (base_view d).
  destruct (d_journal d) as [[|hd recs]|]; [done| |done].
  destruct (journal_binds d hd); [|done]. apply spec_lines_good; [|done].
  intros [n []] l Hg; simpl; try done. by apply spec_record_good.
Qed.
#[export] Hint Resolve view_good : store.

(** Reading back a list of good entries written as base lines. *)
Lemma spec_put_fresh e l : ID (e_s e) ∉ ids l -> spec_put e l = l ++ [e].
Proof.
  intros Hn. unfold spec_put. f_equal. induction l as [|x l IH]; [done|].
  rewrite elem_of_ids in Hn. rewrite filter_cons, decide_True.
  - f_equal. apply IH. rewrite elem_of_ids. intros (y & ? & ?). apply Hn. exists y.
    split; [by right|done].
  - intros Hx. apply Hn. exists x. split; [by left|done].
Qed.

(** The row of an entry is within the reader's limit. *)
Definition row_fits (dto_len : sliceDTO -> Z) (e : storedEntry) : Prop := dto_len (dtoFromEntry e) < maxImportLine.

Lemma readJSONLLine_fits {A} n k (x : doc A) : k <= 1 -> n < maxImportLine -> readJSONLLine k (n, x) = (n, x).
Proof. intros Hk Hn. unfold readJSONLLine. cbn. destruct (Z.ltb_spec maxImportLine (n + k)); [lia|done]. Qed.

Lemma spec_base_lines dto_len l acc :
  good (acc ++ l) -> Forall (row_fits dto_len) l -> spec_lines spec_base_line (map (base_line dto_len) l) acc = acc ++ l.
Proof.
  revert acc. induction l as [|e l IH]; intros acc Hg Hf; simpl; [by rewrite app_nil_r|].
  apply Forall_cons in Hf as [Hfe Hf].
  assert (He : clean e) by (destruct Hg as [Hc _]; rewrite Forall_app, Forall_cons in Hc; tauto).
  replace (base_line dto_len e) with (dto_len (dtoFromEntry e), Doc true (dtoFromEntry e)) by (symmetry; by apply readJSONLLine_fits).
  unfold spec_base_line at 2. simpl. rewrite decide_False by apply He.
  rewrite entry_dto_entry by done. rewrite spec_put_fresh.
  - rewrite IH; [by rewrite <- app_assoc|by rewrite <- app_assoc|done].
  - destruct Hg as [_ Hn]. unfold ids in Hn. rewrite map_app in Hn.
    apply NoDup_app in Hn as (_ & Hn & _). intros Hin. apply (Hn _ Hin). left.
Qed.

Lemma index_entries_spec l id i :
  NoDup (ids l) -> index_entries l !! id = Some i <-> exists e, l !! i = Some e /\ ID (e_s e) = id.
Proof.
  intros Hn. unfold index_entries.
  assert (Hk : (imap (fun i e => (ID (e_s e), i)) l).*1 = ids l).
  { rewrite fmap_imap. unfold ids. clear Hn. generalize 0%nat.
    unfold imap. induction l as [|e l IH]; intros n; simpl; [done|]. f_equal. apply (IH (S n)). }
  rewrite <- elem_of_list_to_map.
  - rewrite elem_of_reverse, elem_of_lookup_imap. naive_solver.
  - rewrite fmap_reverse, reverse_Permutation. by rewrite Hk.
Qed.
