(* ===== verification/StoreOps.v ===== *)
(** The store's write path: every mutation goes to the journal before the
    memory, so a successful history of operations reopens to the state the
    process holds, and a failed operation leaves the disk in a state between the
    one before and the one it was writing. *)

From Stdlib Require Import ZArith Lia Bool Ascii String Floats.SpecFloat.
From stdpp Require Import tactics base option list sorting gmap strings.
From S2P Require Import Prelude Float64 GoStrings Slice Store StoreSpec.

#[global] Open Scope Z_scope.

(** ** Outcomes of a stateful call *)

Definition wp {S A} (m : st S A) (w : S) (Q : result A -> S -> Prop) : Prop := Q (m w).1 (m w).2.

Lemma wp_bind {S A B} (m : st S A) (k : A -> st S B) w (Q : result B -> S -> Prop) :
  wp m w (fun r w' => match r with Ok a => wp (k a) w' Q | Err e => Q (Err e) w' end) ->
  wp (st_bind m k) w Q.
Proof. unfold wp, st_bind. by destruct (m w) as [[a|e] w']. Qed.

Lemma wp_mono {S A} (m : st S A) w (Q Q' : result A -> S -> Prop) :
  wp m w Q -> (forall r w', Q r w' -> Q' r w') -> wp m w Q'.
Proof. unfold wp. auto. Qed.

Lemma wp_require {S} b e (w : S) Q :
  (b = true -> Q (Ok tt) w) -> (b = false -> Q (Err e) w) -> wp (st_require b e) w Q.
Proof. unfold wp, st_require. destruct b; simpl; auto. Qed.

Lemma wp_get {S} (w : S) Q : Q (Ok w) w -> wp st_get w Q.
Proof. done. Qed.
Lemma wp_ret {S A} (a : A) (w : S) Q : Q (Ok a) w -> wp (st_ret a) w Q.
Proof. done. Qed.
Lemma wp_fail {S A} e (w : S) (Q : result A -> S -> Prop) : Q (Err e) w -> wp (st_fail e) w Q.
Proof. done. Qed.
Lemma wp_on_store f w Q : Q (Ok tt) (w <| w_store ::= f |>) -> wp (on_store f) w Q.
Proof. done. Qed.
Lemma wp_on_disk f w Q : Q (Ok tt) (w <| w_disk ::= f |>) -> wp (on_disk f) w Q.
Proof. done. Qed.

(** One step of a body: a guard splits, everything else computes. *)
Ltac wp_step :=
  lazymatch goal with
  | |- wp (st_bind _ _) _ _ => apply wp_bind
  | |- wp (st_require _ _) _ _ => apply wp_require; intro
  | |- wp st_get _ _ => apply wp_get
  | |- wp (st_ret _) _ _ => apply wp_ret
  | |- wp (st_fail _) _ _ => apply wp_fail
  | |- wp (on_store _) _ _ => apply wp_on_store
  | |- wp (on_disk _) _ _ => apply wp_on_disk
  end; simpl.
Ltac wp_steps := repeat wp_step.

Section Ops.
Context (json_len : jdoc -> Z) (dto_len : sliceDTO -> Z) (marshal_vec : list Z -> option string).
Hypothesis marshal_vec_not_null : forall v b, marshal_vec v = Some b -> trim_space b <> "null"%string.

(** Synced, and the journal ends with a newline. *)
Record durable (w : World) : Prop := {
  du_synced : synced (w_store w) (w_disk w);
  du_torn : d_torn (w_disk w) = false;
}.

Definition jrecord (r : journalRecord) : line jdoc := jline json_len (JRecord r).
(** The reader accepts the line of a record. *)
Definition record_fits (r : journalRecord) : Prop := json_len (JRecord r) < maxImportLine.
Definition short (l : line jdoc) : Prop := l.1 < maxImportLine.

Lemma landed_short torn ls : Forall short ls -> landed torn ls = ls.
Proof.
  induction 1 as [|[n x] ls Hl _ IH]; [done|]. destruct ls as [|l ls]; cbn [landed].
  - rewrite readJSONLLine_fits; [done|by destruct torn|done].
  - rewrite readJSONLLine_fits by done. by f_equal.
Qed.

#[local] Arguments landed : simpl never.

Lemma jrecords_short rs : Forall record_fits rs -> Forall short (map jrecord rs).
Proof. intros H. apply Forall_map. exact H. Qed.
Definition spec_records (rs : list journalRecord) (l : list storedEntry) : list storedEntry :=
  foldl (fun l r => spec_record r l) l rs.

(** In the middle of an operation: [rs] are buffered. *)
Record pending (rs : list journalRecord) (s : fileStore) (d : Disk) : Prop := {
  pd_wf : wf s;
  pd_ro : readOnly s = false;
  pd_live : live s = view d;
  pd_base : on_base s d;
  pd_jw : jw s = Some (map jrecord rs);
  pd_err : jw_err s = false;
  pd_hdr : exists hd recs, d_journal d = Some (hd :: recs) /\ journal_binds d hd = true;
  pd_torn : d_torn d = false;
  pd_fits : Forall record_fits rs;
}.

Lemma pending_durable s d : pending [] s d -> durable (mkWorld s d).
Proof.
  intros [? ? ? ? Hjw ? Hh ? _]. split; [|done]. split; try done. simpl. rewrite Hjw. simpl.
  split_and!; done.
Qed.

Lemma spec_lines_records rs l :
  spec_lines spec_journal_line (map jrecord rs) l = spec_records rs l.
Proof.
  unfold spec_lines, spec_records. revert l. induction rs as [|r rs IH]; intros l; [done|].
  simpl. rewrite IH. done.
Qed.

Lemma view_append d hd recs ls torn :
  d_journal d = Some (hd :: recs) -> journal_binds d hd = true -> d_torn d = false -> Forall short ls ->
  view (journal_append ls torn d) = spec_lines spec_journal_line ls (view d).
Proof.
  intros Hj Hb Ht Hf. unfold journal_append. destruct ls as [|l ls]; [done|].
  unfold view. simpl. rewrite Hj, Ht. cbn [fmap option_fmap option_map app]. rewrite landed_short by done.
  unfold journal_binds in *. simpl. rewrite Hb. unfold spec_lines. by rewrite foldl_app.
Qed.

Lemma append_frame d ls torn :
  d_size (journal_append ls torn d) = d_size d /\ d_mtime (journal_append ls torn d) = d_mtime d
  /\ d_base (journal_append ls torn d) = d_base d.
Proof. by destruct ls. Qed.

(** What a mutation keeps of the process. *)
Definition kept_state (w w' : World) : Prop :=
  live (w_store w') = live (w_store w) /\ closed (w_store w') = closed (w_store w)
  /\ d_mtime (w_disk w') = d_mtime (w_disk w).

Lemma kept_state_refl w : kept_state w w.
Proof. by repeat split. Qed.
Hint Resolve kept_state_refl : store.

Lemma ensureJournal_wp io w :
  durable w ->
  wp (ensureJournalLocked json_len io) w (fun r w' =>
    view (w_disk w') = view (w_disk w) /\ kept_state w w'
    /\ (is_ok r = true -> pending [] (w_store w') (w_disk w') /\ closed (w_store w') = false)).
Proof.
  intros [[Hwf Hro Hl [Hsz Hmt] Hjw] Ht]. unfold ensureJournalLocked.
  wp_step. wp_step. destruct (closed (w_store w)) eqn:Hc; [by wp_steps|].
  destruct (jw (w_store w)) as [buf|] eqn:Ej.
  - destruct Hjw as (-> & He & Hh). wp_step. split_and!; [done|by apply kept_state_refl|].
    intros _. split; [by split|done].
  - assert (Hv : forall d, d_base d = d_base (w_disk w) -> d_size d = d_size (w_disk w) ->
      d_mtime d = d_mtime (w_disk w) ->
      d_journal d = Some [jline json_len (JHeader (header_of (w_store w)))] ->
      view d = view (w_disk w)).
    { intros d Hbd Hsd Hmd Hjd. unfold view at 2. rewrite Hjw. unfold view. rewrite Hjd.
      destruct (journal_binds _ _); by rewrite Hbd. }
    wp_steps; try (split_and!; [done|done|done]); unfold kept_state; simpl.
    + split_and!; [by apply Hv|done..|]. intros _. split; [|done].
      split; simpl; try done; [by apply (wf_frame (w_store w))| |].
      * rewrite (live_frame (w_store w)) by done. rewrite Hl. symmetry. by apply Hv.
      * do 2 eexists. split; [done|]. apply journal_binds_iff. simpl. done.
    + split_and!; [by apply Hv|done..].
Qed.

Lemma append_wp r rs w :
  record_fits r -> pending rs (w_store w) (w_disk w) ->
  wp (appendLocked json_len r) w (fun res w' =>
    w_disk w' = w_disk w /\ live (w_store w') = live (w_store w)
    /\ closed (w_store w') = closed (w_store w)
    /\ (is_ok res = true -> pending (rs ++ [r]) (w_store w') (w_disk w'))).
Proof.
  intros Hr [Hwf Hro Hl Hb Hjw He Hh Ht Hf]. unfold appendLocked.
  wp_steps; try done. split_and!; [done..|]. intros _.
  split; simpl; try done; [by apply (wf_frame (w_store w))| |by apply Forall_app; auto].
  rewrite Hjw, map_app. done.
Qed.

Lemma appends_wp ls rs w :
  Forall record_fits ls -> pending rs (w_store w) (w_disk w) ->
  wp (st_each (appendLocked json_len) ls) w (fun res w' =>
    w_disk w' = w_disk w /\ live (w_store w') = live (w_store w)
    /\ closed (w_store w') = closed (w_store w)
    /\ (is_ok res = true -> pending (rs ++ ls) (w_store w') (w_disk w'))).
Proof.
  intros Hf. revert rs w. induction Hf as [|r ls Hr Hf IH]; intros rs w Hp; simpl.
  { wp_step. by rewrite app_nil_r. }
  wp_step. eapply wp_mono; [by apply append_wp|]. intros [a|e] w1 (Hd & Hl & Hc & Hk); [|by split_and!].
  eapply wp_mono; [apply (IH (rs ++ [r])); by apply Hk|]. intros res w2 (Hd2 & Hl2 & Hc2 & Hk2).
  rewrite <- app_assoc in Hk2. split_and!; [congruence..|done].
Qed.

Lemma failed_write_short k t ls : Forall short ls -> Forall short (failed_write k t ls).1.
Proof.
  intros Hf. pose proof (Forall_take short k ls Hf) as Ht. pose proof (Forall_drop short k ls Hf) as Hd. unfold failed_write.
  destruct t; [done| |]; (destruct (drop k ls) as [|[n x] rest]; [done|]); apply Forall_cons in Hd as [Hn _];
    (apply Forall_app; split; [done|]; constructor; [|done]); unfold short in *; cbn in *; lia.
Qed.

(** What a failed write leaves is the effect of a prefix of the records. *)
Lemma failed_write_view k t rs d hd recs :
  d_journal d = Some (hd :: recs) -> journal_binds d hd = true -> d_torn d = false -> Forall record_fits rs ->
  exists n, view (journal_append (failed_write k t (map jrecord rs)).1
                    (failed_write k t (map jrecord rs)).2 d)
            = spec_records (take n rs) (view d).
Proof.
  intros Hj Hb Ht Hf. rewrite (view_append _ hd recs) by first [done|by apply failed_write_short, jrecords_short].
  assert (Htk : forall n, spec_lines spec_journal_line (take n (map jrecord rs)) (view d)
                   = spec_records (take n rs) (view d)).
  { intros n. rewrite <- spec_lines_records. f_equal. symmetry. apply (fmap_take jrecord). }
  destruct t; simpl.
  - exists k. apply Htk.
  - exists k. destruct (drop k (map jrecord rs)) as [|[n x] ?] eqn:Ed; simpl; [by apply Htk|].
    unfold spec_lines. rewrite foldl_app. simpl. apply Htk.
  - exists (S k). rewrite <- Htk. destruct (drop k (map jrecord rs)) as [|x l] eqn:Ed; simpl.
    + f_equal. apply (f_equal length) in Ed. rewrite length_drop in Ed. simpl in Ed.
      rewrite !take_ge by lia. done.
    + f_equal. rewrite (take_S_r _ _ x); [done|].
      rewrite <- (Nat.add_0_r k), <- lookup_drop, Ed. done.
Qed.

(** The records are on disk and not yet in memory. *)
Record flushed (rs : list journalRecord) (l : list storedEntry) (s : fileStore) (d : Disk) : Prop := {
  fl_wf : wf s;
  fl_ro : readOnly s = false;
  fl_live : live s = l;
  fl_base : on_base s d;
  fl_jw : jw s = Some [];
  fl_err : jw_err s = false;
  fl_hdr : exists hd recs, d_journal d = Some (hd :: recs) /\ journal_binds d hd = true;
  fl_torn : d_torn d = false;
  fl_view : view d = spec_records rs l;
}.

Lemma flushed_apply rs l s d f :
  flushed rs l s d -> implements (spec_records rs) s (f s) -> pending [] (f s) d.
Proof.
  intros [Hwf Hro Hl [Hs Hm] Hjw He Hh Ht Hv] (Hw & Hl' & Hro' & _ & Hs' & Hm' & _ & Hj' & He').
  split; simpl; try done; try congruence. split; congruence.
Qed.

Lemma binds_append d ls hd :
  journal_binds (journal_append ls false d) hd = journal_binds d hd.
Proof. by destruct ls. Qed.

Lemma flushed_append rs s d :
  pending rs s d ->
  flushed rs (live s) (s <| jw := Some [] |>) (journal_append (map jrecord rs) false d).
Proof.
  intros [Hwf Hro Hl [Hs Hm] Hjw He (hd & recs & Hj & Hb) Ht Hf]. pose proof (jrecords_short rs Hf) as Hsh.
  destruct (append_frame d (map jrecord rs) false) as (Hsz & Hmt & _).
  split; simpl; try done.
  - by apply (wf_frame s).
  - split; simpl; congruence.
  - exists hd, (recs ++ map jrecord rs). rewrite binds_append. split; [|done].
    destruct (map jrecord rs) as [|l0 ls0] eqn:E0; [by rewrite app_nil_r|]. rewrite <- E0 in *. unfold journal_append. rewrite E0. rewrite <- E0.
    simpl. rewrite Hj, Ht. cbn [fmap option_fmap option_map app]. by rewrite landed_short.
  - by destruct (map jrecord rs).
  - rewrite (view_append _ hd recs) by done. rewrite Hl. apply spec_lines_records.
Qed.

Lemma flush_writer_wp io rs w :
  pending rs (w_store w) (w_disk w) ->
  wp (flush_writer io) w (fun res w' =>
    kept_state w w'
    /\ (exists n, view (w_disk w') = spec_records (take n rs) (view (w_disk w)))
    /\ (is_ok res = true -> flushed rs (live (w_store w)) (w_store w') (w_disk w'))).
Proof.
  intros Hp. pose proof (flushed_append rs _ _ Hp) as Hfl.
  destruct Hp as [Hwf Hro Hl Hb Hjw He (hd & recs & Hj & Hbind) Ht Hf].
  unfold flush_writer. wp_step. wp_step. rewrite He, Hjw. simpl.
  destruct rs as [|r rs]; simpl.
  { wp_step. split_and!; [by repeat split|by exists 0%nat|]. intros _.
    destruct Hfl; split; try done. }
  destruct (io_flush io) as [[k t]|].
  - destruct (failed_write_view k t (r :: rs) (w_disk w) hd recs Hj Hbind Ht Hf) as [n Hn].
    simpl map in Hn. destruct (failed_write k t _) as [ls torn]. wp_steps.
    unfold kept_state. simpl. destruct (append_frame (w_disk w) ls torn) as (_ & ? & _).
    split_and!; [done..| |done]. by exists n.
  - wp_steps. split_and!; [by repeat split| |done].
    exists (length (r :: rs)). rewrite firstn_all. rewrite <- Hl. by destruct Hfl.
Qed.

Lemma flush_wp io rs w :
  pending rs (w_store w) (w_disk w) ->
  wp (flushLocked io) w (fun res w' =>
    kept_state w w'
    /\ (exists n, view (w_disk w') = spec_records (take n rs) (view (w_disk w)))
    /\ (is_ok res = true -> flushed rs (live (w_store w)) (w_store w') (w_disk w'))).
Proof.
  intros Hp. unfold flushLocked. wp_step. eapply wp_mono; [by apply flush_writer_wp|].
  intros [u|e] w1 (Hk & Hn & Hf); [|done]. specialize (Hf eq_refl).
  wp_step. wp_step. destruct (_ || _); wp_steps; split_and!; try done; try apply Hk.
  destruct Hf. intros _. split; simpl; try done. by apply (wf_frame (w_store w1)).
Qed.

(** ** Compaction *)

Definition compact_kept (rescore : option (list Slice -> list (option Slice))) (w : World) :=
  match rescore with
  | Some f => rescored marshal_vec f (live (w_store w))
  | None => live (w_store w)
  end.

Lemma indexed_wf s kept :
  good kept -> entries s = index_entries kept -> order s = kept -> wf s /\ live s = kept.
Proof.
  intros [Hc Hn] He Ho. rewrite Forall_lookup in Hc. split; [split|]; try rewrite He, Ho.
  - intros id i (e & Hi & Hid)%(index_entries_spec kept id i Hn). exists e.
    split_and!; [done|by apply (Hc i e)|done].
  - intros i e Hi _. apply index_entries_spec; eauto.
  - unfold live. rewrite Ho. clear He Ho Hn. induction kept as [|e l IH]; [done|].
    rewrite filter_cons, decide_True by (by apply (Hc 0%nat e)). f_equal.
    apply IH. intros i x Hx. by apply (Hc (S i) x).
Qed.

(** Entries a compaction can write so that they are read back. *)
Definition foldable (kept : list storedEntry) : Prop := good kept /\ Forall (row_fits dto_len) kept.

Lemma kept_view kept (d : Disk) :
  foldable kept -> d_base d = map (base_line dto_len) kept ->
  (forall hd recs, d_journal d = Some (hd :: recs) -> journal_binds d hd = false \/ recs = []) ->
  view d = kept.
Proof.
  intros [Hg Hf] Hb Hj. unfold view. rewrite Hb, (spec_base_lines dto_len kept []) by done.
  destruct (d_journal d) as [[|hd recs]|]; [done| |done].
  destruct (Hj hd recs eq_refl) as [-> | ->]; [done|]. by destruct (journal_binds d hd).
Qed.

Lemma stale_journal d d' hd :
  journal_binds d hd = true -> d_mtime d' <> d_mtime d -> journal_binds d' hd = false.
Proof.
  destruct hd as [n [| | |st j]]; try done. intros (_ & _ & Hm)%journal_binds_iff Hne.
  apply not_true_is_false. rewrite journal_binds_iff. intuition congruence.
Qed.

(** The fate of a compaction: nothing changed, or the fold is what is on disk. *)
Record compacted (io : IO) (kept : list storedEntry) (w : World) (res : result unit) (w' : World) : Prop := {
  cp_closed : closed (w_store w') = closed (w_store w);
  cp_mtime : d_mtime (w_disk w') = d_mtime (w_disk w) \/ d_mtime (w_disk w') = io_mtime io;
  cp_live : live (w_store w') = live (w_store w) \/ live (w_store w') = kept;
  cp_view : view (w_disk w') = view (w_disk w) \/ view (w_disk w') = kept;
  cp_ok : is_ok res = true -> durable w' /\ live (w_store w') = kept;
}.

Ltac unchanged := split; simpl; auto; done.

Definition install (io : IO) (kept : list storedEntry) : op unit :=
  ensureJournalLocked json_len io ;!
  on_store (fun s => s <| opsSinceSync := 0 |> <| bytesSinceSync := 0 |>
                       <| baseSkipped := 0 |> <| journalSkipped := 0 |>
                       <| entries := index_entries kept |> <| order := kept |>
                       <| compactions ::= Z.succ |>).

Lemma install_wp io kept w0 w :
  foldable kept -> closed (w_store w) = false -> closed (w_store w0) = false ->
  jw (w_store w) = None -> readOnly (w_store w) = false ->
  live (w_store w) = live (w_store w0) -> d_journal (w_disk w) = None ->
  d_base (w_disk w) = map (base_line dto_len) kept -> on_base (w_store w) (w_disk w) ->
  d_mtime (w_disk w) = io_mtime io -> d_torn (w_disk w) = false ->
  wp (install io kept) w (compacted io kept w0).
Proof.
  intros Hg Hc Hc0 Hjw Hro Hl Hj Hb [Hs Hm] Hmt Ht. unfold install, ensureJournalLocked.
  assert (Hv : forall d, d_base d = d_base (w_disk w) ->
    d_journal d = None \/ d_journal d = Some [jline json_len (JHeader (header_of (w_store w)))] ->
    view d = kept).
  { intros d Hbd Hjd. apply kept_view; [done|congruence|]. intros hd recs E.
    destruct Hjd as [Hjd|Hjd]; rewrite Hjd in E; [done|]. simplify_eq. by right. }
  wp_step. wp_step. wp_step. rewrite Hc, Hjw.
  wp_steps.
  - match goal with |- compacted _ _ _ _ (mkWorld ?s _) =>
      destruct (indexed_wf s kept) as [Hw Hlk]; [apply Hg|done..|]
    end.
    split; simpl; [congruence|by right|by right|right; by apply Hv; simpl; auto|].
    intros _. split; [|done]. split; [|done]. split; simpl; try done.
    + rewrite Hlk. symmetry. apply Hv; simpl; auto.
    + split_and!; [done|done|]. do 2 eexists. split; [done|]. by apply journal_binds_iff.
  - split; simpl; [congruence|by right|by left|right; by apply Hv; simpl; auto|done].
  - split; simpl; [congruence|by right|by left|right; by apply Hv; simpl; auto|done].
Qed.

(** Swapping the base in, from the rename on. *)
Definition swap_base (io : IO) (retired : bool) (kept : list storedEntry) : op unit :=
  if negb (io_rename io) then
    (if retired then reopenJournalLocked io else st_ret tt) ;! st_fail "rename"%string
  else
  let lines := map (base_line dto_len) kept in
  on_disk (fun d => d <| d_base := lines |> <| d_size := base_size lines |>
                      <| d_mtime := io_mtime io |> <| d_sha := io_sha io |>) ;!
  st_require (io_stat io) "stat"%string ;!
  on_store (fun s => s <| baseSize := base_size lines |> <| baseMtime := io_mtime io |>
                       <| baseSha := io_sha io |>) ;!
  st_require (io_remove io) "remove"%string ;!
  on_disk (fun d => d <| d_journal := None |> <| d_torn := false |>) ;!
  install io kept.

Lemma swap_base_wp io retired kept w0 s :
  foldable kept -> io_mtime io <> d_mtime (w_disk w0) -> durable w0 ->
  closed s = false -> closed (w_store w0) = false -> jw s = None -> readOnly s = false ->
  live s = live (w_store w0) ->
  wp (swap_base io retired kept) (mkWorld s (w_disk w0)) (compacted io kept w0).
Proof.
  intros Hg Hfr [[Hwf Hro Hl Hb Hjw] Ht] Hc Hc0 Hjs Hros Hls. unfold swap_base.
  destruct (io_rename io); simpl.
  - assert (Hv : forall d, d_base d = map (base_line dto_len) kept -> d_mtime d = io_mtime io ->
      d_journal d = d_journal (w_disk w0) -> view d = kept).
    { intros d Hbd Hmd Hjd. apply kept_view; [done|done|]. intros hd recs E.
      left. rewrite Hjd in E. destruct (jw (w_store w0)) as [buf|]; [|congruence].
      destruct Hjw as (_ & _ & hd' & recs' & Hj' & Hb'). simplify_eq.
      apply (stale_journal (w_disk w0)); [congruence|congruence]. }
    wp_steps; [apply install_wp; simpl; done|..];
      (split; simpl; [congruence|by right|by left|right; by apply Hv|done]).
  - unfold reopenJournalLocked; destruct retired; wp_steps; split; simpl; auto; try congruence; try done.
Qed.

Lemma idle_flush io w buf :
  jw (w_store w) = Some buf -> buf = [] -> jw_err (w_store w) = false ->
  flush_writer io w = (Ok tt, w).
Proof.
  intros Hj -> He. unfold flush_writer, st_bind, st_get. by rewrite He, Hj.
Qed.

Lemma compact_wp io rescore w :
  durable w -> io_mtime io <> d_mtime (w_disk w) -> foldable (compact_kept rescore w) ->
  wp (compactLocked json_len dto_len marshal_vec io rescore) w
     (compacted io (compact_kept rescore w) w).
Proof.
  intros Hd Hfr Hg. destruct (Hd) as [[Hwf Hro Hl Hb Hjw] Ht]. unfold compactLocked.
  wp_step. wp_step. destruct (closed (w_store w)) eqn:Hc; [wp_steps; unchanged|].
  fold (compact_kept rescore w). do 4 (wp_step; try unchanged).
  wp_step. destruct (jw (w_store w)) as [buf|] eqn:Ej.
  - destruct Hjw as (Hbuf & He & Hh). wp_step. unfold wp at 1.
    rewrite (idle_flush io w buf) by done. simpl.
    destruct (io_close io); wp_steps; [|unchanged].
    pose (s1 := w_store w <| jw := None |>).
    exact (swap_base_wp io true (compact_kept rescore w) w s1
             Hg Hfr Hd Hc Hc eq_refl Hro eq_refl).
  - wp_step. destruct w as [s d].
    exact (swap_base_wp io false _ (mkWorld s d) s Hg Hfr Hd Hc Hc Ej Hro eq_refl).
Qed.

(** ** The mutations *)

(** What a mutation that journals [rs] may leave. *)
Record mutated (io : IO) (rs : list journalRecord) (w : World) (res : result unit) (w' : World) : Prop := {
  mu_closed : closed (w_store w') = closed (w_store w);
  mu_mtime : d_mtime (w_disk w') = d_mtime (w_disk w) \/ d_mtime (w_disk w') = io_mtime io;
  mu_live : live (w_store w') = live (w_store w)
            \/ live (w_store w') = spec_records rs (live (w_store w));
  mu_view : exists n, view (w_disk w') = spec_records (take n rs) (view (w_disk w));
  mu_ok : is_ok res = true ->
    durable w' /\ live (w_store w') = spec_records rs (live (w_store w));
}.

Definition journalled (io : IO) (m : op unit) (f : fileStore -> fileStore) : op unit :=
  ensureJournalLocked json_len io ;! m ;! flushLocked io ;! on_store f ;!
  maybeCompactLocked json_len dto_len marshal_vec io.

Lemma live_foldable w : durable w -> Forall (row_fits dto_len) (live (w_store w)) -> foldable (live (w_store w)).
Proof. intros Hd Hf. split; [|done]. rewrite (sy_live _ _ (du_synced w Hd)). apply view_good. Qed.

Lemma maybe_compact_wp io w :
  durable w -> io_mtime io <> d_mtime (w_disk w) -> Forall (row_fits dto_len) (live (w_store w)) ->
  wp (maybeCompactLocked json_len dto_len marshal_vec io) w (compacted io (live (w_store w)) w).
Proof.
  intros Hd Hfr Hf. unfold maybeCompactLocked. wp_step. wp_step.
  destruct (negb _ && negb _); [wp_step; unchanged|].
  apply (compact_wp io None w); [done|done|]. by apply live_foldable.
Qed.

Lemma journalled_wp io m rs f w :
  durable w -> io_mtime io <> d_mtime (w_disk w) -> Forall (row_fits dto_len) (spec_records rs (live (w_store w))) ->
  (forall w, pending [] (w_store w) (w_disk w) -> wp m w (fun res w' =>
    w_disk w' = w_disk w /\ live (w_store w') = live (w_store w)
    /\ closed (w_store w') = closed (w_store w)
    /\ (is_ok res = true -> pending rs (w_store w') (w_disk w')))) ->
  (forall s, wf s -> implements (spec_records rs) s (f s)) ->
  wp (journalled io m f) w (mutated io rs w).
Proof.
  intros Hd Hfr Hfit Hm Hf. unfold journalled.
  wp_step. eapply wp_mono; [by apply ensureJournal_wp|].
  intros [u|e] w1 (Hv1 & (Hl1 & Hc1 & Hm1) & Hk1); [|split; [congruence|by left|by left|by exists 0%nat|done]].
  destruct (Hk1 eq_refl) as [Hp1 _].
  wp_step. eapply wp_mono; [by apply Hm|].
  intros [u2|e] w2 (Hd2 & Hl2 & Hc2 & Hk2);
    [|split; [congruence|left; congruence|left; congruence|exists 0%nat; simpl; congruence|done]].
  specialize (Hk2 eq_refl). wp_step. eapply wp_mono; [by apply flush_wp|].
  intros [u3|e] w3 ((Hl3 & Hc3 & Hm3) & (n & Hn) & Hk3);
    [|split; [congruence|left; congruence|left; congruence|exists n; congruence|done]].
  specialize (Hk3 eq_refl). wp_step. wp_step.
  assert (Hlv : live (f (w_store w3)) = spec_records rs (live (w_store w))).
  { destruct (Hf (w_store w3) (fl_wf _ _ _ _ Hk3)) as (_ & -> & _). congruence. }
  assert (Hcl : closed (f (w_store w3)) = closed (w_store w)).
  { destruct (Hf (w_store w3) (fl_wf _ _ _ _ Hk3)) as (_ & _ & _ & -> & _). congruence. }
  pose proof (flushed_apply _ _ _ _ f Hk3 (Hf _ (fl_wf _ _ _ _ Hk3))) as Hp3.
  assert (Hv3 : view (w_disk w3) = spec_records rs (view (w_disk w))).
  { rewrite (fl_view _ _ _ _ Hk3), (pd_live _ _ _ Hk2). congruence. }
  eapply wp_mono; [apply maybe_compact_wp; [by apply pending_durable|simpl; congruence|simpl; by rewrite Hlv]|].
  simpl. intros r w4 [Hc4 Hm4 Hl4 Hv4 Hk4]. simpl in *. rewrite Hlv in *.
  split; [congruence|destruct Hm4; [left|right]; congruence|right; by destruct Hl4| |auto].
  exists (length rs). rewrite firstn_all. destruct Hv4 as [->| ->]; [done|].
  by rewrite (sy_live _ _ (du_synced w Hd)).
Qed.

(** ** The public operations *)

Inductive mutation : Type :=
| MPut (sl : Slice)
| MDelete (id : string)
| MStats (id : string) (d : SliceStats)
| MBatch (deltas : gmap string SliceStats)
| MCompact.

Definition perform (io : IO) (m : mutation) : op unit :=
  match m with
  | MPut sl => Put json_len dto_len marshal_vec io sl
  | MDelete id => Delete json_len dto_len marshal_vec io id
  | MStats id d => UpdateStats json_len dto_len marshal_vec io id d
  | MBatch ds => UpdateStatsBatch json_len dto_len marshal_vec io ds
  | MCompact => Compact json_len dto_len marshal_vec io
  end.

Definition stored (sl : Slice) : storedEntry := entryFromSlice marshal_vec (EnforceAdmission sl).1.

(** The contract of each operation. *)
Definition spec_step (m : mutation) (l : list storedEntry) : list storedEntry :=
  match m with
  | MPut sl => spec_put (stored sl) l
  | MDelete id => spec_del id l
  | MStats id d => spec_stat id d l
  | MBatch ds => map (fun e => match ds !! ID (e_s e) with Some d => merge_entry d e | None => e end) l
  | MCompact => l
  end.

(** The records an operation journals. *)
Definition records (m : mutation) (s : fileStore) : list journalRecord :=
  match m with
  | MPut sl => [put_record (stored sl)]
  | MDelete id => match entries s !! id with Some _ => [del_record id] | None => [] end
  | MStats id d => match entries s !! id with Some _ => [stat_record id d] | None => [] end
  | MBatch ds => map (fun p => stat_record p.1 p.2) (batch_ids ds s)
  | MCompact => []
  end.

Definition named (m : mutation) : Prop :=
  match m with MPut sl => ID sl <> ""%string | _ => True end.

Lemma stored_clean sl : ID sl <> ""%string -> clean (stored sl).
Proof.
  intros Hid. unfold stored, entryFromSlice.
  assert (ID (EnforceAdmission sl).1 = ID sl) as Hi by (by unfold EnforceAdmission; repeat case_match).
  split_and!; simpl; [done|done|congruence|]. intros b.
  destruct (Embedding _) as [v|]; [apply marshal_vec_not_null|done].
Qed.

Lemma spec_put_record e l : clean e -> spec_record (put_record e) l = spec_put e l.
Proof.
  intros He. unfold spec_record. simpl. rewrite decide_False by apply He.
  by rewrite entry_dto_entry.
Qed.

Lemma implements_one r s f :
  implements (spec_record r) s (f s) -> implements (spec_records [r]) s (f s).
Proof. done. Qed.

Lemma implements_stats ps s :
  wf s ->
  implements (spec_records (map (fun p => stat_record p.1 p.2) ps)) s
    (foldl (fun s '(id, d) => statLocked id d s) s ps).
Proof.
  revert s. induction ps as [|[id d] ps IH]; intros s Hwf; simpl; [by_frame|].
  pose proof (implements_stat s id d Hwf) as Hi.
  exact (implements_trans _ _ _ _ _ Hi (IH _ (proj1 Hi))).
Qed.

Lemma st_each_batch ps w :
  st_each (fun '(id, d) => appendLocked json_len (stat_record id d)) ps w
    = st_each (appendLocked json_len) (map (fun p => stat_record p.1 p.2) ps) w.
Proof.
  revert w. induction ps as [|[id d] ps IH]; intros w; [done|]. simpl. unfold st_bind.
  destruct (appendLocked json_len (stat_record id d) w) as [[?|?] ?]; auto.
Qed.

Lemma mutated_idle io w : durable w -> mutated io [] w (Ok tt) w.
Proof. intros Hd. split; auto. by exists 0%nat. Qed.

Lemma compacted_mutated io w res w' :
  durable w -> compacted io (live (w_store w)) w res w' -> mutated io [] w res w'.
Proof.
  intros Hd [Hc Hm Hl Hv Hk]. split; try done.
  exists 0%nat. simpl. rewrite (sy_live _ _ (du_synced w Hd)) in Hv. by destruct Hv.
Qed.

Lemma mutated_failed io w rs e : mutated io rs w (Err e) w.
Proof. split; auto; [by exists 0%nat|done]. Qed.

Definition merge_map (ps : gmap string SliceStats) (e : storedEntry) : storedEntry :=
  match ps !! ID (e_s e) with Some d => merge_entry d e | None => e end.

Lemma spec_stats_map ps l :
  NoDup ps.*1 ->
  spec_records (map (fun p => stat_record p.1 p.2) ps) l = map (merge_map (list_to_map ps)) l.
Proof.
  revert l. induction ps as [|[id d] ps IH]; intros l Hn; simpl.
  { symmetry. apply map_id. }
  apply NoDup_cons in Hn as [Hid Hn]. rewrite IH by done.
  change (spec_record (stat_record id d) l) with (spec_stat id d l).
  unfold spec_stat. rewrite map_map. apply map_ext. intros e. unfold merge_map.
  destruct (decide (has_id id e)) as [Hh|Hh]; simpl.
  - rewrite Hh, lookup_insert_eq. by rewrite (not_elem_of_list_to_map_1 ps id Hid).
  - by rewrite lookup_insert_ne by (intros ->; by apply Hh).
Qed.

Lemma batch_ids_perm ds s :
  batch_ids ds s ≡ₚ filter (fun kv => is_Some (entries s !! kv.1)) (map_to_list ds).
Proof. apply go_sort_perm. Qed.

Lemma batch_ids_NoDup ds s : NoDup (batch_ids ds s).*1.
Proof.
  rewrite batch_ids_perm. eapply sublist_NoDup; [apply (NoDup_fst_map_to_list ds)|].
  apply fmap_sublist, sublist_filter.
Qed.

Lemma batch_ids_lookup ds s id :
  is_Some (entries s !! id) -> list_to_map (M := gmap string SliceStats) (batch_ids ds s) !! id = ds !! id.
Proof.
  intros Hs. pose proof (batch_ids_NoDup ds s) as Hn. apply option_eq. intros d.
  rewrite <- elem_of_list_to_map by done.
  rewrite batch_ids_perm, list_elem_of_filter, elem_of_map_to_list. tauto.
Qed.

(** The journalled records implement the operation's contract. *)
Lemma records_spec m s :
  wf s -> named m -> spec_records (records m s) (live s) = spec_step m (live s).
Proof.
  intros Hwf Hnm. destruct m as [sl|id|id d|ds|]; simpl.
  - apply spec_put_record. by apply stored_clean.
  - destruct (entries s !! id) eqn:E; [done|]. by rewrite spec_del_absent.
  - destruct (entries s !! id) eqn:E; [done|]. by rewrite spec_stat_absent.
  - rewrite spec_stats_map by apply batch_ids_NoDup. unfold merge_map.
    apply map_ext_in. intros e He%list_elem_of_In.
    by rewrite batch_ids_lookup by (by apply (live_entry s)).
  - done.
Qed.

(** The reader accepts every line the operation may write: its records, and the rows a
    compaction would write after it. *)
Definition fitting (m : mutation) (s : fileStore) : Prop :=
  Forall record_fits (records m s) /\ Forall (row_fits dto_len) (spec_step m (live s)).

(** Every operation journals its records and applies them, or stops on the way. *)
Lemma perform_wp io m w :
  durable w -> io_mtime io <> d_mtime (w_disk w) -> named m -> fitting m (w_store w) ->
  wp (perform io m) w (mutated io (records m (w_store w)) w).
Proof.
  intros Hd Hfr Hnm [Hrec Hrow]. rewrite <- records_spec in Hrow by first [apply Hd|done]. destruct m as [sl|id|id d|ds|]; simpl in *.
  - apply (journalled_wp io _ [put_record (stored sl)]); [done|done|done|intros w1 Hp1; apply (append_wp _ []); [by inversion Hrec|done]|].
    intros s Hs. pose proof (stored_clean sl Hnm) as Hc. apply implements_one.
    destruct (implements_upsert s (stored sl) Hs (proj1 Hc)) as (? & Hl & ?).
    split_and!; [done|by rewrite spec_put_record|done].
  - unfold Delete. wp_step. wp_step. destruct (entries (w_store w) !! id) as [i|].
    + apply (journalled_wp io _ [del_record id]); [done|done|done|intros w1 Hp1; apply (append_wp _ []); [by inversion Hrec|done]|].
      intros s Hs. by apply implements_delete.
    + wp_step. by apply mutated_idle.
  - unfold UpdateStats. wp_step. wp_step. destruct (entries (w_store w) !! id) as [i|].
    + apply (journalled_wp io _ [stat_record id d]); [done|done|done|intros w1 Hp1; apply (append_wp _ []); [by inversion Hrec|done]|].
      intros s Hs. by apply implements_stat.
    + wp_step. apply mutated_failed.
  - unfold UpdateStatsBatch. wp_step. wp_step.
    destruct (batch_ids ds (w_store w)) as [|p ps] eqn:Eb; [wp_step; by apply mutated_idle|].
    apply (journalled_wp io _ (map (fun p => stat_record p.1 p.2) (p :: ps))); [done|done|done| |].
    + intros w1 Hp.
      pose proof (appends_wp (map (fun p => stat_record p.1 p.2) (p :: ps)) [] w1 Hrec Hp) as H.
      unfold wp in H. rewrite <- st_each_batch in H. exact H.
    + intros s Hs. exact (implements_stats (p :: ps) s Hs).
  - unfold Compact. wp_step. wp_step. destruct (closed (w_store w)); [wp_step; apply mutated_failed|].
    destruct (_ && _ && _); [wp_step; by apply mutated_idle|].
    eapply wp_mono; [apply (compact_wp io None w); [done|done|]|].
    + by apply live_foldable.
    + intros res w'. by apply compacted_mutated.
Qed.

(** ** Histories *)

Lemma perform_ok io m w w' :
  durable w -> io_mtime io <> d_mtime (w_disk w) -> named m -> fitting m (w_store w) -> perform io m w = (Ok tt, w') ->
  durable w' /\ live (w_store w') = spec_step m (live (w_store w))
  /\ (d_mtime (w_disk w') = d_mtime (w_disk w) \/ d_mtime (w_disk w') = io_mtime io).
Proof.
  intros Hd Hfr Hnm Hfit Hrun. pose proof (perform_wp io m w Hd Hfr Hnm Hfit) as [_ Hm _ _ Hk].
  rewrite Hrun in *. simpl in *. destruct (Hk eq_refl) as [Hd' Hl'].
  split_and!; [done| |done]. rewrite Hl'. apply records_spec; [|done]. apply Hd.
Qed.

Definition run (h : list (IO * mutation)) : op unit := st_each (fun x => perform x.1 x.2) h.

Definition spec_run (h : list (IO * mutation)) (l : list storedEntry) : list storedEntry :=
  foldl (fun l x => spec_step x.2 l) l h.

(** Modification times of successive base files increase. *)
Fixpoint ticking (t : Z) (h : list (IO * mutation)) : Prop :=
  match h with [] => True | x :: h' => t < io_mtime x.1 /\ ticking (io_mtime x.1) h' end.

Lemma ticking_mono t t' h : t <= t' -> ticking t' h -> ticking t h.
Proof. destruct h; simpl; [done|]. intros ? [? ?]. split; [lia|done]. Qed.

(** Every line a history writes fits. *)
Fixpoint all_fitting (h : list (IO * mutation)) (w : World) : Prop :=
  match h with [] => True | x :: h' => fitting x.2 (w_store w) /\ all_fitting h' (perform x.1 x.2 w).2 end.

Lemma run_ok h w w' :
  durable w -> ticking (d_mtime (w_disk w)) h -> Forall (fun x => named x.2) h -> all_fitting h w ->
  run h w = (Ok tt, w') ->
  durable w' /\ live (w_store w') = spec_run h (live (w_store w)).
Proof.
  revert w. induction h as [|[io m] h IH]; intros w Hd Ht Hn Hf Hrun; simpl in *.
  { unfold run in Hrun. simpl in Hrun. unfold st_ret in Hrun. by simplify_eq. }
  destruct Ht as [Ht1 Ht2]. destruct Hf as [Hf1 Hf2]. apply Forall_cons in Hn as [Hn1 Hn2].
  apply st_bind_ok in Hrun as ([] & w1 & Hp & Hrun).
  destruct (perform_ok io m w w1) as (Hd1 & Hl1 & Hm1); [done|lia|done|done|done|].
  simpl in Hp. rewrite Hp in Hf2. destruct (IH w1 Hd1) as [Hd' Hl']; [|done|done|done|].
  - destruct Hm1 as [-> | ->]; [|done]. eapply ticking_mono; [|done]. lia.
  - split; [done|]. by rewrite Hl', Hl1.
Qed.
End Ops.
