(* ===== verification/StoreMem.v ===== *)
(** The store in memory: what an operation makes of the live entries, whatever the
    journal and the disk do.  A client of the open store relies on this alone, so
    nothing here asks how long a written line is or what a base file's time is. *)

From Stdlib Require Import ZArith Lia Bool Ascii String Floats.SpecFloat.
From stdpp Require Import tactics base option list sorting gmap strings.
From S2P Require Import Prelude Float64 GoStrings Slice Store StoreSpec StoreOps.

#[global] Open Scope Z_scope.

(** The pointers are consistent and the live entries are as the decoder builds them. *)
Definition sound (s : fileStore) : Prop := wf s /\ good (live s).

Definition same_memory (s s' : fileStore) : Prop :=
  entries s' = entries s /\ order s' = order s /\ compactions s' = compactions s.

Ltac same_memory := unfold same_memory in *; simpl in *; intuition congruence.

Lemma same_memory_refl s : same_memory s s.
Proof. done. Qed.

Lemma same_memory_sound s s' : same_memory s s' -> sound s -> sound s' /\ live s' = live s.
Proof.
  intros (He & Ho & _) [Hw Hg]. pose proof (live_frame s s' Ho) as Hl. split; [|done].
  split; [by apply (wf_frame s)|by rewrite Hl].
Qed.

(** ** Calls that touch no entry *)

Definition quiet {A} (m : op A) : Prop := forall w, same_memory (w_store w) (w_store (m w).2).

Lemma quiet_bind {A B} (m : op A) (k : A -> op B) : quiet m -> (forall a, quiet (k a)) -> quiet (st_bind m k).
Proof.
  intros Hm Hk w. unfold st_bind. specialize (Hm w). destruct (m w) as [[a|e] w1]; [|done].
  specialize (Hk a w1). same_memory.
Qed.

Lemma quiet_ret {A} (a : A) : quiet (st_ret a).
Proof. done. Qed.
Lemma quiet_fail {A} e : quiet (st_fail e : op A).
Proof. done. Qed.
Lemma quiet_require b e : quiet (st_require b e).
Proof. intros w. by destruct b. Qed.
Lemma quiet_get : quiet st_get.
Proof. done. Qed.
Lemma quiet_on_disk f : quiet (on_disk f).
Proof. done. Qed.
Lemma quiet_on_store f : (forall s, same_memory s (f s)) -> quiet (on_store f).
Proof. intros Hf w. apply Hf. Qed.
Lemma quiet_each {A} (f : A -> op unit) l : (forall x, quiet (f x)) -> quiet (st_each f l).
Proof. intros Hf. induction l as [|x l IH]; [done|]. apply quiet_bind; [apply Hf|done]. Qed.

Ltac quiet := repeat first
  [ progress intros
  | apply quiet_bind | apply quiet_ret | apply quiet_fail | apply quiet_require | apply quiet_get
  | apply quiet_on_disk | (apply quiet_on_store; intros; by split_and!)
  | case_match ].

Lemma wp_quiet {A B} (m : op A) (k : A -> op B) w (Q : result B -> World -> Prop) : quiet m ->
  (forall e w', same_memory (w_store w) (w_store w') -> Q (Err e) w') ->
  (forall a w', same_memory (w_store w) (w_store w') -> wp (k a) w' Q) -> wp (st_bind m k) w Q.
Proof.
  intros Hm He Hk. unfold wp, st_bind. specialize (Hm w). destruct (m w) as [[a|e] w1]; [by apply Hk|by apply He].
Qed.

Section Memory.
Context (json_len : jdoc -> Z) (dto_len : sliceDTO -> Z) (marshal_vec : list Z -> option string).
Hypothesis marshal_vec_not_null : forall v b, marshal_vec v = Some b -> trim_space b <> "null"%string.

Lemma ensureJournal_quiet io : quiet (ensureJournalLocked json_len io).
Proof. unfold ensureJournalLocked. quiet. Qed.
Lemma reopenJournal_quiet io : quiet (reopenJournalLocked io).
Proof. unfold reopenJournalLocked. quiet. Qed.
Lemma append_quiet r : quiet (appendLocked json_len r).
Proof. unfold appendLocked. quiet. Qed.
Lemma flush_writer_quiet io : quiet (flush_writer io).
Proof. unfold flush_writer. quiet. Qed.
Lemma flush_quiet io : quiet (flushLocked io).
Proof. unfold flushLocked. apply quiet_bind; [apply flush_writer_quiet|]. quiet. Qed.

(** A compaction leaves the entries alone or installs what it kept and counts itself;
    a successful one installs it. *)
Definition folded (kept : list storedEntry) (w : World) (r : result unit) (w' : World) : Prop :=
  (is_ok r = false /\ same_memory (w_store w) (w_store w'))
  \/ (entries (w_store w') = index_entries kept /\ order (w_store w') = kept
      /\ compactions (w_store w') = Z.succ (compactions (w_store w))).

Lemma compact_folded io rescore w :
  wp (compactLocked json_len dto_len marshal_vec io rescore) w (folded (compact_kept marshal_vec rescore w) w).
Proof.
  assert (Hstop : forall e w', same_memory (w_store w) (w_store w') -> folded (compact_kept marshal_vec rescore w) w (Err e) w') by (intros; by left).
  unfold compactLocked. wp_step. wp_step. destruct (closed (w_store w)); [wp_step; by apply Hstop|].
  fold (compact_kept marshal_vec rescore w). do 4 (wp_step; try by apply Hstop).
  set (retired := match jw (w_store w) with Some _ => true | None => false end).
  apply wp_quiet; [destruct retired; [apply quiet_bind; [apply flush_writer_quiet|]|]; quiet|done|].
  intros _ w1 Hw1. destruct (negb (io_rename io)).
  { apply wp_quiet; [destruct retired; [apply reopenJournal_quiet|quiet]|..].
    - intros e w2 ?. apply Hstop. same_memory.
    - intros _ w2 ?. wp_step. apply Hstop. same_memory. }
  do 10 (wp_step; try by apply Hstop).
  apply wp_quiet; [apply ensureJournal_quiet| |].
  - intros e w2 ?. apply Hstop. same_memory.
  - intros _ w2 Hw2. wp_step. right. same_memory.
Qed.

Lemma folded_live kept w r w' : sound (w_store w) -> good kept -> folded kept w r w' ->
  (live (w_store w') = live (w_store w) \/ live (w_store w') = kept)
  /\ (is_ok r = true -> sound (w_store w') /\ live (w_store w') = kept).
Proof.
  intros Hs Hg [[Hr Hm]|(He & Ho & _)].
  - split; [left; by apply same_memory_sound|]. by rewrite Hr.
  - destruct (indexed_wf (w_store w') kept Hg He Ho) as [Hw Hl]. split; [by right|]. intros _. unfold sound. by rewrite Hl.
Qed.

(** What an operation makes of the live entries. *)
Definition stepped (f : list storedEntry -> list storedEntry) (w : World) (r : result unit) (w' : World) : Prop :=
  (live (w_store w') = live (w_store w) \/ live (w_store w') = f (live (w_store w)))
  /\ (is_ok r = true -> sound (w_store w') /\ live (w_store w') = f (live (w_store w))).

Lemma stepped_failed f w e w' : sound (w_store w) -> same_memory (w_store w) (w_store w') -> stepped f w (Err e) w'.
Proof. intros Hs Hm. split; [left; by apply same_memory_sound|done]. Qed.

Lemma stepped_idle f w : sound (w_store w) -> f (live (w_store w)) = live (w_store w) -> stepped f w (Ok tt) w.
Proof. intros Hs Hf. unfold stepped. rewrite Hf. auto. Qed.

Lemma maybe_compact_stepped io w : sound (w_store w) ->
  wp (maybeCompactLocked json_len dto_len marshal_vec io) w (stepped id w).
Proof.
  intros Hs. unfold maybeCompactLocked. wp_step. wp_step. destruct (negb _ && negb _); [wp_step; by apply stepped_idle|].
  eapply wp_mono; [apply compact_folded|]. intros r w' Hf. exact (folded_live _ w r w' Hs (proj2 Hs) Hf).
Qed.

Lemma journalled_stepped io m f g w : sound (w_store w) -> quiet m ->
  (forall s, sound s -> implements g s (f s)) -> (forall l, good l -> good (g l)) ->
  wp (journalled json_len dto_len marshal_vec io m f) w (stepped g w).
Proof.
  intros Hs Hm Hf Hg. unfold journalled.
  apply wp_quiet; [apply ensureJournal_quiet|intros; by apply stepped_failed|]. intros _ w1 H1.
  apply wp_quiet; [done| |].
  { intros e w2 H2. apply stepped_failed; [done|]. same_memory. }
  intros _ w2 H2. apply wp_quiet; [apply flush_quiet| |].
  { intros e w3 H3. apply stepped_failed; [done|]. same_memory. }
  intros _ w3 H3. assert (H : same_memory (w_store w) (w_store w3)) by same_memory.
  destruct (same_memory_sound _ _ H Hs) as [Hs3 Hl3]. destruct (Hf _ Hs3) as (Hw & Hl & _). rewrite Hl3 in Hl.
  assert (Hs4 : sound (f (w_store w3))) by (split; [done|rewrite Hl; apply Hg, Hs]).
  wp_step. wp_step. eapply wp_mono; [by apply maybe_compact_stepped|]. simpl. intros r w' [Hlv Hok]. unfold id in *. simpl in *.
  rewrite Hl in Hlv, Hok. split; [by destruct Hlv; right|done].
Qed.

Lemma spec_records_good rs l : good l -> good (spec_records rs l).
Proof. revert l. induction rs as [|r rs IH]; intros l Hl; [done|]. by apply IH, spec_record_good. Qed.

(** Every operation of the interface does to the live entries what its contract says, or
    leaves them; a successful one does it. *)
Lemma perform_stepped io m w : sound (w_store w) -> named m ->
  wp (perform json_len dto_len marshal_vec io m) w (stepped (spec_step marshal_vec m) w).
Proof.
  intros Hs Hn. pose proof (records_spec marshal_vec marshal_vec_not_null m (w_store w) (proj1 Hs) Hn) as Hr.
  assert (Hgo : forall n f, quiet n -> (forall s, sound s -> implements (spec_records (records marshal_vec m (w_store w))) s (f s)) ->
    wp (journalled json_len dto_len marshal_vec io n f) w (stepped (spec_step marshal_vec m) w)).
  { intros n f Hq Hi. eapply wp_mono; [apply (journalled_stepped io n f (spec_records (records marshal_vec m (w_store w))) w Hs Hq Hi), spec_records_good|].
    intros r w'. unfold stepped. by rewrite Hr. }
  destruct m as [sl|id|id d|ds|]; cbn [perform records spec_step] in *.
  - apply Hgo; [apply append_quiet|]. intros s [Hw _]. pose proof (stored_clean marshal_vec marshal_vec_not_null sl Hn) as Hc. apply implements_one.
    destruct (implements_upsert s (stored marshal_vec sl) Hw (proj1 Hc)) as (? & Hl & ?).
    split_and!; [done|by rewrite spec_put_record|done].
  - unfold Delete. wp_step. wp_step. destruct (entries (w_store w) !! id) as [i|].
    + apply Hgo; [apply append_quiet|]. intros s [Hw _]. by apply implements_delete.
    + wp_step. by apply stepped_idle.
  - unfold UpdateStats. wp_step. wp_step. destruct (entries (w_store w) !! id) as [i|].
    + apply Hgo; [apply append_quiet|]. intros s [Hw _]. by apply implements_stat.
    + wp_step. by apply stepped_failed.
  - unfold UpdateStatsBatch. wp_step. wp_step. destruct (batch_ids ds (w_store w)) as [|p ps].
    + wp_step. by apply stepped_idle.
    + apply Hgo; [apply (quiet_each (fun '(id, d) => appendLocked json_len (stat_record id d)) (p :: ps)); intros []; apply append_quiet|].
      intros s [Hw _]. exact (implements_stats (p :: ps) s Hw).
  - unfold Compact. wp_step. wp_step. destruct (closed (w_store w)); [wp_step; by apply stepped_failed|].
    destruct (_ && _ && _); [wp_step; by apply stepped_idle|].
    eapply wp_mono; [apply compact_folded|]. intros r w' Hf. exact (folded_live _ w r w' Hs (proj2 Hs) Hf).
Qed.
End Memory.
