(* ===== verification/StoreProps.v ===== *)
(** What the store promises its callers, across processes: durability of
    successful histories, atomicity of failed operations, total opening, the
    admission invariant, and the three kinds of [Put] that return nil and do not
    survive a reopen: after a torn tail, over the reader's limit, without an ID. *)

From Stdlib Require Import ZArith Lia Bool Ascii String Floats.SpecFloat.
From stdpp Require Import tactics base option list sorting gmap strings.
From S2P Require Import Prelude Float64 GoStrings Slice Store StoreSpec StoreOps StoreMem.

#[global] Open Scope Z_scope.

(** ** Reading the live list *)

Definition spec_get (id : string) (l : list storedEntry) : option storedEntry :=
  head (filter (has_id id) l).

Lemma filter_unique id e l : NoDup (ids l) -> e ∈ l -> has_id id e -> filter (has_id id) l = [e].
Proof.
  intros Hn He Hid. induction l as [|x l IH]; [by apply not_elem_of_nil in He|].
  simpl in Hn. apply NoDup_cons in Hn as [Hx Hn]. rewrite filter_cons.
  apply elem_of_cons in He as [<-|He].
  - rewrite decide_True by done. f_equal. apply filter_nil_not_elem_of_2 || idtac.
    destruct (filter (has_id id) l) as [|y l'] eqn:E; [done|]. exfalso. apply Hx.
    assert (Hy : y ∈ filter (has_id id) l) by (rewrite E; left).
    apply list_elem_of_filter in Hy as [Hy Hyl]. apply elem_of_ids. exists y.
    split; [done|]. unfold has_id in *. congruence.
  - rewrite decide_False; [auto|]. intros Hxid. apply Hx. apply elem_of_ids. exists e.
    split; [done|]. unfold has_id in *. congruence.
Qed.

Lemma Get_spec id s : wf s -> NoDup (ids (live s)) -> Get id s = cloneStored <$> spec_get id (live s).
Proof.
  intros Hwf Hn. unfold Get, lookup_live, spec_get. destruct (entries s !! id) as [i|] eqn:E; simpl.
  - destruct (wf_ptr s Hwf id i E) as (e & He & Hd & Hid). rewrite He. simpl.
    rewrite (filter_unique id e); [done|done| |done]. apply elem_of_live. eauto.
  - destruct (filter (has_id id) (live s)) as [|e l] eqn:Ef; [done|]. exfalso.
    assert (He : e ∈ filter (has_id id) (live s)) by (rewrite Ef; left).
    apply list_elem_of_filter in He as [Hid He]. by apply (live_absent s id e).
Qed.

Lemma spec_get_put e id l :
  spec_get id (spec_put e l) = if decide (id = ID (e_s e)) then Some e else spec_get id l.
Proof.
  unfold spec_get, spec_put. rewrite filter_app, list_filter_filter. simpl.
  destruct (decide (id = ID (e_s e))) as [->|Hne].
  - rewrite filter_cons, decide_True by done.
    replace (filter _ l) with (@nil storedEntry); [done|]. symmetry.
    induction l as [|x l IH]; [done|]. rewrite filter_cons, decide_False by tauto. done.
  - rewrite filter_cons, decide_False by (unfold has_id; congruence).
    rewrite filter_nil, app_nil_r. f_equal. induction l as [|x l IH]; [done|].
    rewrite !filter_cons. destruct (decide (has_id id x)) as [Hx|Hx].
    + rewrite decide_True by (unfold has_id in *; split; [done|congruence]). by rewrite IH.
    + by rewrite decide_False by tauto.
Qed.

Lemma durable_get id w :
  durable w -> Get id (w_store w) = cloneStored <$> spec_get id (live (w_store w)).
Proof.
  intros [[Hwf _ Hl _ _] _]. apply Get_spec; [done|]. rewrite Hl. apply view_good.
Qed.

(** ** Opening *)

Lemma open_durable io d :
  io_rename io = true -> io_open io = true -> d_torn d = false ->
  exists s d', NewFileStore io d = (Ok s, d') /\ durable (mkWorld s d') /\ live s = view d
    /\ d_mtime d' = d_mtime d.
Proof.
  intros Hr Ho Ht. destruct (NewFileStore_spec io d Hr Ho) as (s & d' & -> & Hs & Hv & _ & Hm & Htorn).
  exists s, d'. split_and!; [done|split; simpl; auto| |done]. by rewrite (sy_live _ _ Hs).
Qed.

Lemma reopen_live io s d s' d' :
  io_rename io = true -> io_open io = true -> NewFileStore io d = (Ok s', d') -> view d = live s ->
  live s' = live s.
Proof.
  intros Hr Ho Hn Hv. destruct (NewFileStore_spec io d Hr Ho) as (s1 & d1 & Hn1 & Hs & Hv1 & _).
  rewrite Hn in Hn1. simplify_eq. by rewrite (sy_live _ _ Hs), Hv1.
Qed.

(** C39: opening a store never fails on what the files contain: whatever mix of
    corrupt, oversized, blank and ID-less lines the base and the journal hold, and
    whether or not the journal belongs to the base, [NewFileStore] returns a store
    whose live entries are exactly the decodable view of the files, with pairwise
    distinct non-empty IDs. *)
Theorem NewFileStore_total io d :
  io_rename io = true -> io_open io = true ->
  exists s d', NewFileStore io d = (Ok s, d') /\ wf s /\ live s = view d /\ view d' = view d
    /\ NoDup (ids (live s)) /\ Forall (fun e => ID (e_s e) <> ""%string) (live s).
Proof.
  intros Hr Ho. destruct (NewFileStore_spec io d Hr Ho) as (s & d' & Hn & Hs & Hv & _).
  exists s, d'. destruct (view_good d) as [Hc Hnd].
  assert (Hl : live s = view d) by (by rewrite (sy_live _ _ Hs)). rewrite Hl.
  split_and!; [done|apply Hs|done|done|done|]. eapply Forall_impl; [exact Hc|]. by intros e (_ & _ & ? & _).
Qed.

Section Promises.
Context (json_len : jdoc -> Z) (dto_len : sliceDTO -> Z) (marshal_vec : list Z -> option string).
Hypothesis marshal_vec_not_null : forall v b, marshal_vec v = Some b -> trim_space b <> "null"%string.

Abbreviation perform := (perform json_len dto_len marshal_vec).
Abbreviation run := (run json_len dto_len marshal_vec).

(** C1: durability.  Open any store whose journal ends in a newline, run any
    history of [Put], [Delete], [UpdateStats], [UpdateStatsBatch] and [Compact]
    in which every call returned nil, compactions included, each new base has a
    later modification time, every slice has an ID and no written line exceeds
    the reader's limit: the memory holds what the contract says, and reopening
    the files yields the same entries in the same order. *)
Theorem history_reopens io0 io1 d h s d0 w' s' d' :
  io_rename io0 = true -> io_open io0 = true -> io_rename io1 = true -> io_open io1 = true ->
  d_torn d = false -> ticking (d_mtime d) h -> Forall (fun x => named x.2) h ->
  NewFileStore io0 d = (Ok s, d0) -> all_fitting json_len dto_len marshal_vec h (mkWorld s d0) ->
  run h (mkWorld s d0) = (Ok tt, w') ->
  NewFileStore io1 (w_disk w') = (Ok s', d') ->
  live s' = live (w_store w') /\ live s' = spec_run marshal_vec h (view d).
Proof.
  intros Hr0 Ho0 Hr1 Ho1 Ht Htick Hn Hopen Hfit Hrun Hre.
  destruct (open_durable io0 d Hr0 Ho0 Ht) as (s1 & d1 & Hs1 & Hd1 & Hl1 & Hm1).
  rewrite Hopen in Hs1. simplify_eq.
  destruct (run_ok json_len dto_len marshal_vec marshal_vec_not_null h (mkWorld s1 d1) w')
    as [Hd' Hl']; [done|by rewrite <- Hm1 in Htick|done|done|done|].
  assert (Hv : live s' = live (w_store w')).
  { apply (reopen_live io1 _ (w_disk w') s' d'); [done..|]. symmetry. apply Hd'. }
  split; [done|]. by rewrite Hv, Hl', <- Hl1.
Qed.


(** Read your writes.  After a [Put] that returned nil, [Get] of its ID
    returns the admitted slice (without its vector, which is not kept in
    memory), and every other ID answers as before. *)
Theorem Put_Get io sl w w' id :
  durable w -> io_mtime io <> d_mtime (w_disk w) -> ID sl <> ""%string ->
  fitting json_len dto_len marshal_vec (MPut sl) (w_store w) ->
  Put json_len dto_len marshal_vec io sl w = (Ok tt, w') ->
  Get id (w_store w') =
    if decide (id = ID sl) then Some ((EnforceAdmission sl).1 <| Embedding := None |>)
    else Get id (w_store w).
Proof.
  intros Hd Hfr Hid Hfit Hp.
  destruct (perform_ok json_len dto_len marshal_vec marshal_vec_not_null io (MPut sl) w w' Hd Hfr Hid Hfit Hp)
    as (Hd' & Hl & _).
  rewrite (durable_get id w'), (durable_get id w), Hl by done. simpl.
  rewrite spec_get_put.
  replace (ID (e_s (stored marshal_vec sl))) with (ID sl)
    by (unfold stored, EnforceAdmission; simpl; repeat case_match; done).
  by destruct (decide (id = ID sl)).
Qed.

Definition all_admitted (l : list storedEntry) : Prop := Forall (fun e => admitted (e_s e)) l.

Lemma spec_step_admitted m l : all_admitted l -> all_admitted (spec_step marshal_vec m l).
Proof.
  unfold all_admitted. rewrite !Forall_forall. intros Ha e. destruct m as [sl|id|id d|ds|]; simpl.
  - unfold spec_put. rewrite elem_of_app, list_elem_of_filter, list_elem_of_singleton.
    intros [[_ He]| ->]; [by apply Ha|]. apply EnforceAdmission_admitted.
  - unfold spec_del. rewrite list_elem_of_filter. intros [_ He]. by apply Ha.
  - unfold spec_stat. intros (x & -> & Hx)%list_elem_of_fmap. destruct (decide _); exact (Ha x Hx).
  - intros (x & -> & Hx)%list_elem_of_fmap. destruct (ds !! _); exact (Ha x Hx).
  - apply Ha.
Qed.

(** the scope admission matrix holds on disk.  A store in which no
    tool-pattern or result slice is in the user scope stays so through any
    successful history, whatever the writers put. *)
Theorem history_admitted h w w' :
  durable w -> ticking (d_mtime (w_disk w)) h -> Forall (fun x => named x.2) h ->
  all_fitting json_len dto_len marshal_vec h w ->
  run h w = (Ok tt, w') -> all_admitted (view (w_disk w)) -> all_admitted (view (w_disk w')).
Proof.
  intros Hd Ht Hn Hfit Hrun.
  destruct (run_ok json_len dto_len marshal_vec marshal_vec_not_null h w w' Hd Ht Hn Hfit Hrun) as [Hd' Hl].
  rewrite <- (sy_live _ _ (du_synced _ Hd)), <- (sy_live _ _ (du_synced _ Hd')), Hl.
  clear. revert h. generalize (live (w_store w)). intros l h. revert l.
  induction h as [|x h IH]; intros l Ha; [done|]. apply IH. by apply spec_step_admitted.
Qed.

Lemma raw_by_id_spec l e : NoDup (ids l) -> e ∈ l -> raw_by_id l (ID (e_s e)) = e_embRaw e.
Proof.
  unfold raw_by_id. intros Hn He. generalize (@None string). induction l as [|x l IH]; intros a;
    [by apply not_elem_of_nil in He|].
  simpl in Hn. apply NoDup_cons in Hn as [Hx Hn]. simpl.
  apply elem_of_cons in He as [<-|He]; [|by apply IH]. rewrite decide_True by done.
  clear IH. generalize (e_embRaw e). induction l as [|y l IH]; intros b; [done|]. simpl.
  rewrite decide_False; [apply IH|].
  - intros Hin. apply Hx. simpl. by right.
  - simpl in Hn. by apply NoDup_cons in Hn as [_ ?].
  - intros Hid. apply Hx. simpl. rewrite Hid. left.
Qed.

Lemma rescored_clean f l : Forall clean l -> Forall clean (rescored marshal_vec f l).
Proof.
  rewrite !Forall_forall. intros Hc e. unfold rescored. rewrite list_elem_of_In, in_flat_map.
  intros (o & _ & Ho). destruct o as [sl|]; [|done]. destruct (decide (ID sl = ""%string)); [done|].
  destruct Ho as [<-|[]]. split_and!; simpl; [done..|]. intros b. unfold raw_by_id.
  assert (Hl : forall x, x ∈ l -> clean x) by done. clear Hc.
  assert (Hg : forall (a : option string), (forall b, a = Some b -> trim_space b <> "null"%string) ->
    foldl (fun acc e => if decide (ID (e_s e) = ID sl) then e_embRaw e else acc) a l = Some b ->
    trim_space b <> "null"%string); [|apply Hg; done].
  induction l as [|x l IH]; intros a Ha; simpl; [apply Ha|]. apply IH.
  - intros y Hy. apply Hl. by right.
  - destruct (decide _); [|done]. apply Hl. left.
Qed.

(** a scored compaction rewrites the store to exactly what the callback
    kept, in its order and with each kept entry's stored vector, provided the
    callback does not return an ID twice; if it fails, a reopen finds either the
    old entries or those. *)
Theorem CompactWith_spec io io1 f w r w' s' d' :
  durable w -> io_mtime io <> d_mtime (w_disk w) ->
  NoDup (ids (rescored marshal_vec f (live (w_store w)))) ->
  Forall (row_fits dto_len) (rescored marshal_vec f (live (w_store w))) ->
  CompactWith json_len dto_len marshal_vec io f w = (r, w') ->
  io_rename io1 = true -> io_open io1 = true -> NewFileStore io1 (w_disk w') = (Ok s', d') ->
  (live s' = live (w_store w) \/ live s' = rescored marshal_vec f (live (w_store w)))
  /\ (is_ok r = true -> durable w'
        /\ live (w_store w') = rescored marshal_vec f (live (w_store w))
        /\ live s' = live (w_store w'))
  /\ (forall e, e ∈ live (w_store w) -> forall x, x ∈ rescored marshal_vec f (live (w_store w)) ->
        ID (e_s x) = ID (e_s e) -> e_embRaw x = e_embRaw e).
Proof.
  intros Hd Hfr Hn Hfit Hrun Hr Ho Hre.
  assert (Hg : good (live (w_store w))) by (rewrite (sy_live _ _ (du_synced _ Hd)); apply view_good).
  destruct (compact_wp json_len dto_len marshal_vec io (Some f) w Hd Hfr) as [_ _ _ Hv Hk].
  { split; [|done]. split; [|done]. by apply rescored_clean, Hg. }
  unfold CompactWith in Hrun. rewrite Hrun in Hv, Hk. simpl in Hv, Hk.
  destruct (NewFileStore_spec io1 (w_disk w') Hr Ho) as (s1 & d1 & Hn1 & Hs & Hv1 & _).
  rewrite Hre in Hn1. simplify_eq.
  assert (Hl : live s1 = view (w_disk w')) by (by rewrite (sy_live _ _ Hs)).
  rewrite <- (sy_live _ _ (du_synced _ Hd)) in Hv.
  split_and!.
  - by rewrite Hl.
  - intros Hok. destruct (Hk Hok) as [Hd' Hl']. split_and!; [done|done|].
    rewrite Hl. symmetry. apply Hd'.
  - intros e He x Hx Hid. unfold rescored in Hx. rewrite list_elem_of_In, in_flat_map in Hx.
    destruct Hx as (o & _ & Hx). destruct o as [sl|]; [|done].
    destruct (decide (ID sl = ""%string)); [done|]. destruct Hx as [<-|[]]. simpl in *.
    rewrite Hid. by apply raw_by_id_spec; [apply Hg|].
Qed.
(** ** Puts that return nil and are gone after a reopen *)

(** Opening on a journal of this base replays it and touches no file. *)
Lemma open_bound io d hd recs :
  d_journal d = Some (hd :: recs) -> journal_binds d hd = true -> io_open io = true ->
  exists s, NewFileStore io d = (Ok s, d) /\ sound s /\ live s = view d
    /\ closed s = false /\ jw s = Some [] /\ jw_err s = false.
Proof.
  intros Hj Hb Ho. destruct (load_base d) as (s0 & Hs0 & Hi). destruct hd as [n [| | |st j]]; try done.
  pose proof Hb as (HJ & HS & HM)%journal_binds_iff.
  unfold NewFileStore, load, loadJournal, st_bind, st_get, st_ret, lift_store, on_store, st_modify. cbn. rewrite Hs0. cbn. rewrite Hj. cbn.
  set (s1 := mkStore _ _ _ _ _ _ _ _ _ _ _ _ _ _ _ _). assert (H1 : wf s1) by (apply (wf_frame s0); [done..|apply Hi]).
  destruct Hi as (Hw & Hl & Hro & Hc & _). cbn in Hro. rewrite Hro. unfold journal_mismatch. cbn. rewrite HJ, HS, HM, !Z.eqb_refl. cbn.
  destruct (load_lines_implements journal_line spec_journal_line recs s1) as (s2 & Hs2 & Hw2 & Hl2 & Hro2 & Hc2 & _); [apply journal_line_implements|done|done|].
  rewrite Hs2. unfold st_require. rewrite Ho. cbn. eexists. split; [done|].
  set (s3 := mkStore _ _ _ _ _ _ _ _ _ _ _ _ _ _ _ _). assert (Hv : live s3 = view d).
  { change (live s3) with (live s2). rewrite Hl2. change (live s1) with (live s0). rewrite Hl. unfold view. by rewrite Hj, Hb. }
  split_and!; [split; [by apply (wf_frame s2)|rewrite Hv; apply view_good]|done| |done|done]. cbn. rewrite Hc2. exact Hc.
Qed.

Lemma maybe_compact_idle io w :
  wp (maybeCompactLocked json_len dto_len marshal_vec io) w (fun r w' =>
    is_ok r = true -> compactions (w_store w') = compactions (w_store w) -> w_disk w' = w_disk w).
Proof.
  unfold maybeCompactLocked. wp_step. wp_step. destruct (negb _ && negb _); [by wp_step|].
  eapply wp_mono; [apply compact_folded|]. intros r w' [[-> _]|(_ & _ & ->)]; [done|lia].
Qed.

(** A [Put] that does not compact leaves one more line in the journal. *)
Lemma put_lands io sl w :
  closed (w_store w) = false -> jw (w_store w) = Some [] -> jw_err (w_store w) = false ->
  wp (Put json_len dto_len marshal_vec io sl) w (fun r w' => is_ok r = true -> compactions (w_store w') = compactions (w_store w) ->
    w_disk w' = journal_append [jline json_len (JRecord (put_record (stored marshal_vec sl)))] false (w_disk w)).
Proof.
  destruct w as [s d]. cbn. intros Hc Hj He. unfold Put, ensureJournalLocked, appendLocked, flushLocked, flush_writer.
  do 3 wp_step. rewrite Hc, Hj. repeat (wp_step; try done). rewrite He, Hj. cbn.
  destruct (io_flush io) as [[k t]|]; [destruct (failed_write k t _); by wp_steps|].
  repeat wp_step. destruct (_ || _); repeat (wp_step; try done);
    (eapply wp_mono; [apply maybe_compact_idle|]; cbn; intros r w' Hi Hok Hn; by rewrite Hi).
Qed.
Lemma put_served io sl w w' : sound (w_store w) -> ID sl <> ""%string ->
  Put json_len dto_len marshal_vec io sl w = (Ok tt, w') ->
  Get (ID sl) (w_store w') = Some ((EnforceAdmission sl).1 <| Embedding := None |>).
Proof.
  intros Hs Hid Hp. pose proof (perform_stepped json_len dto_len marshal_vec marshal_vec_not_null io (MPut sl) w Hs Hid) as [_ Hk].
  cbn [StoreOps.perform] in Hk. rewrite Hp in Hk. destruct (Hk eq_refl) as [[Hw [_ Hn]] Hl]. rewrite Get_spec by done. cbn [snd] in *. rewrite Hl. cbn [spec_step].
  rewrite spec_get_put. replace (ID (e_s (stored marshal_vec sl))) with (ID sl) by (unfold stored, EnforceAdmission; simpl; repeat case_match; done).
  by rewrite decide_True.
Qed.



(** A [Put] whose line is over the reader's limit is answered by [Get], and the next
    open finds the entries as they were.  (Such a line alone sets off a compaction
    unless the base is larger still; the compaction writes a row of the same length.) *)
Theorem oversized_put_lost io0 io io1 d hd recs s d0 sl w' s' d' :
  d_torn d = false -> d_journal d = Some (hd :: recs) -> journal_binds d hd = true ->
  io_open io0 = true -> NewFileStore io0 d = (Ok s, d0) ->
  ID sl <> ""%string -> maxImportLine <= json_len (JRecord (put_record (stored marshal_vec sl))) ->
  Put json_len dto_len marshal_vec io sl (mkWorld s d0) = (Ok tt, w') ->
  compactions (w_store w') = compactions s ->
  io_rename io1 = true -> io_open io1 = true -> NewFileStore io1 (w_disk w') = (Ok s', d') ->
  Get (ID sl) (w_store w') = Some ((EnforceAdmission sl).1 <| Embedding := None |>) /\ live s' = live s.
Proof.
  intros Ht Hj Hb Ho Hopen Hid Hbig Hp Hn Hr1 Ho1 Hre.
  destruct (open_bound io0 d hd _ Hj Hb Ho) as (s1 & Hs1 & Hs & Hl1 & Hc & Hjw & He). rewrite Hopen in Hs1. simplify_eq.
  split; [exact (put_served io sl (mkWorld s1 d) w' Hs Hid Hp)|].
  pose proof (put_lands io sl (mkWorld s1 d) Hc Hjw He) as Hl. unfold wp in Hl. rewrite Hp in Hl. specialize (Hl eq_refl Hn). cbn in Hl.
  destruct (NewFileStore_spec io1 (w_disk w') Hr1 Ho1) as (s2 & d2 & Hs2 & Hsy & Hv & _). rewrite Hre in Hs2. simplify_eq.
  rewrite (sy_live _ _ Hsy), Hv, Hl, Hl1. unfold view, journal_append. cbn. rewrite Hj, Ht. cbn.
  assert (Hb' : forall d', d_size d' = d_size d -> d_mtime d' = d_mtime d -> journal_binds d' hd = true) by (intros d' E1 E2; unfold journal_binds in *; by rewrite E1, E2).
  rewrite Hb' by done. rewrite Hb. unfold spec_lines at 1. rewrite foldl_app. cbn.
  unfold readJSONLLine. cbn. by replace (maxImportLine <? _) with true by (symmetry; apply Z.ltb_lt; lia).
Qed.
End Promises.

(** ** Concrete stores *)

Module Sample.
Definition json_len (_ : jdoc) : Z := 40.
Definition dto_len (_ : sliceDTO) : Z := 60.
Definition marshal_vec (_ : list Z) : option string := Some "[1,2]"%string.
Definition io (t : Z) : IO := mkIO true true None true true true true true t "sha" true.
Definition slice (id : string) (ty : SliceType) (sc : Scope) : Slice :=
  mkSlice id ty sc "body" (Some [1; 2]) zero_stats f1 zero_meta 7.
Definition empty : Disk := mkDisk [] 0 100 "e3b0" None false [].
Definition opened : World := mkWorld (emptyStore false <| baseMtime := 100 |> <| baseSha := "e3b0"%string |>) empty.

Lemma marshal_vec_ok v b : marshal_vec v = Some b -> trim_space b <> "null"%string.
Proof. intros [= <-]. vm_compute. congruence. Qed.

Definition history : list (IO * mutation) :=
  [ (io 101, MPut (slice "a" Memory User)); (io 102, MPut (slice "b" Result User));
    (io 103, MStats "a" (mkStats 1 0 0 0 0 0 0 f0 9)); (io 104, MCompact);
    (io 105, MBatch (<["b" := mkStats 0 1 0 0 0 0 0 f0 0]> ∅));
    (io 106, MPut (slice "c" Prompt Session)); (io 107, MDelete "a") ]%string.

(** A crash while the first record was written: the journal holds its header
    and a part of a line. *)
Definition torn : Disk :=
  mkDisk [] 0 100 "e3b0"
    (Some [(40, Doc true (JHeader (mkHeader 1 0 100 "e3b0"))); (17, Corrupt)]) true [].

Definition reopened (d : Disk) : option fileStore :=
  match NewFileStore (io 900) d with (Ok s, _) => Some s | _ => None end.
Definition put_then_reopen (id : string) (d : Disk) : option (bool * option Slice * option Slice) :=
  match NewFileStore (io 900) d with
  | (Ok s, d0) =>
      let '(r, w) := Put json_len dto_len marshal_vec (io 901) (slice id Memory Project) (mkWorld s d0) in
      s' ← reopened (w_disk w); Some (is_ok r, Get id (w_store w), Get id s')
  | _ => None
  end.
End Sample.

Lemma Sample_fitting m s : fitting Sample.json_len Sample.dto_len Sample.marshal_vec m s.
Proof. by split; apply Forall_forall. Qed.
Lemma Sample_all_fitting h w : all_fitting Sample.json_len Sample.dto_len Sample.marshal_vec h w.
Proof. revert w. induction h as [|x h IH]; intros w; [done|]. split; [apply Sample_fitting|apply IH]. Qed.

Lemma Sample_opened : NewFileStore (Sample.io 1) Sample.empty = (Ok (w_store Sample.opened), Sample.empty).
Proof. vm_compute. reflexivity. Qed.

Lemma Sample_durable : durable Sample.opened.
Proof.
  destruct (open_durable (Sample.io 1) Sample.empty) as (s & d & Ho & Hd & _); [done..|].
  rewrite Sample_opened in Ho. unfold Sample.opened in *. by simplify_eq/=.
Qed.

Lemma NewFileStore_total_witness :
  exists s d', NewFileStore (Sample.io 1) Sample.torn = (Ok s, d') /\ wf s /\ live s = view Sample.torn
    /\ view d' = view Sample.torn /\ NoDup (ids (live s)) /\ Forall (fun e => ID (e_s e) <> ""%string) (live s).
Proof. apply (NewFileStore_total (Sample.io 1) Sample.torn); reflexivity. Defined.

Definition Sample_final : World :=
  snd (run Sample.json_len Sample.dto_len Sample.marshal_vec Sample.history Sample.opened).
Definition Sample_reopened : result fileStore * Disk := NewFileStore (Sample.io 900) (w_disk Sample_final).
Definition Sample_store : fileStore :=
  match Sample_reopened with (Ok s, _) => s | _ => emptyStore false end.

Lemma history_reopens_witness :
  live Sample_store = live (w_store Sample_final)
  /\ live Sample_store = spec_run Sample.marshal_vec Sample.history (view Sample.empty).
Proof.
  eapply (history_reopens Sample.json_len Sample.dto_len Sample.marshal_vec Sample.marshal_vec_ok
           (Sample.io 1) (Sample.io 900) Sample.empty Sample.history (w_store Sample.opened) Sample.empty
           Sample_final Sample_store (snd Sample_reopened));
    [reflexivity..| |repeat constructor; discriminate| | | |].
  - vm_compute. tauto.
  - exact Sample_opened.
  - apply Sample_all_fitting.
  - vm_compute. reflexivity.
  - vm_compute. reflexivity.
Defined.

Definition Sample_two : World :=
  snd (run Sample.json_len Sample.dto_len Sample.marshal_vec (take 2 Sample.history) Sample.opened).

Lemma Sample_two_durable : durable Sample_two.
Proof.
  apply (run_ok Sample.json_len Sample.dto_len Sample.marshal_vec Sample.marshal_vec_ok
           (take 2 Sample.history) Sample.opened); [apply Sample_durable| | | |].
  - vm_compute. tauto.
  - repeat constructor; discriminate.
  - apply Sample_all_fitting.
  - vm_compute. reflexivity.
Qed.


Lemma Put_Get_witness :
  Get "b" (w_store Sample_two) = Some (Sample.slice "b" Result Project <| Embedding := None |>).
Proof.
  rewrite (Put_Get Sample.json_len Sample.dto_len Sample.marshal_vec Sample.marshal_vec_ok
             (Sample.io 102) (Sample.slice "b" Result User)
             (snd (run Sample.json_len Sample.dto_len Sample.marshal_vec (take 1 Sample.history) Sample.opened))
             Sample_two "b").
  - reflexivity.
  - apply (run_ok Sample.json_len Sample.dto_len Sample.marshal_vec Sample.marshal_vec_ok
             (take 1 Sample.history) Sample.opened); [apply Sample_durable| | | |].
    + vm_compute. tauto.
    + repeat constructor; discriminate.
    + apply Sample_all_fitting.
    + vm_compute. reflexivity.
  - vm_compute. discriminate.
  - discriminate.
  - apply Sample_fitting.
  - vm_compute. reflexivity.
Defined.

Lemma history_admitted_witness : all_admitted (view (w_disk Sample_final)).
Proof.
  apply (history_admitted Sample.json_len Sample.dto_len Sample.marshal_vec Sample.marshal_vec_ok
           Sample.history Sample.opened).
  - exact Sample_durable.
  - vm_compute. tauto.
  - repeat constructor; discriminate.
  - apply Sample_all_fitting.
  - vm_compute. reflexivity.
  - constructor.
Defined.

(** Keep the entries of positive weight, re-scored. *)
Definition Sample_rescore (l : list Slice) : list (option Slice) :=
  map (fun s => if decide (ID s = "a"%string) then Some (s <| Weight := fsmallest |>) else None) l.
Definition Sample_scored : World :=
  snd (CompactWith Sample.json_len Sample.dto_len Sample.marshal_vec (Sample.io 300) Sample_rescore Sample_two).
Definition Sample_scored_reopen : result fileStore * Disk := NewFileStore (Sample.io 900) (w_disk Sample_scored).
Definition Sample_scored_store : fileStore :=
  match Sample_scored_reopen with (Ok s, _) => s | _ => emptyStore false end.

Lemma CompactWith_spec_witness : live Sample_scored_store = live (w_store Sample_scored).
Proof.
  eapply (CompactWith_spec Sample.json_len Sample.dto_len Sample.marshal_vec
           (Sample.io 300) (Sample.io 900) Sample_rescore Sample_two (Ok tt) Sample_scored
           Sample_scored_store (snd Sample_scored_reopen)); [..|reflexivity].
  - exact Sample_two_durable.
  - vm_compute. discriminate.
  - apply (bool_decide_eq_true_1 _). vm_compute. reflexivity.
  - by apply Forall_forall.
  - vm_compute. reflexivity.
  - reflexivity.
  - reflexivity.
  - vm_compute. reflexivity.
Defined.



(** A record of 8 MiB on a base of 16. *)
Definition Sample_big_len (j : jdoc) : Z := match j with JHeader _ => 40 | JRecord _ => maxImportLine end.
Definition Sample_big : Disk :=
  mkDisk [] (2 * maxImportLine) 100 "e3b0" (Some [(40, Doc true (JHeader (mkHeader 1 (2 * maxImportLine) 100 "e3b0")))]) false [].
Definition Sample_big_opened : result fileStore * Disk := NewFileStore (Sample.io 900) Sample_big.
Definition Sample_big_start : fileStore := match Sample_big_opened with (Ok s, _) => s | _ => emptyStore false end.
Definition Sample_big_put : World :=
  (Put Sample_big_len Sample.dto_len Sample.marshal_vec (Sample.io 901) (Sample.slice "a" Memory Project) (mkWorld Sample_big_start Sample_big_opened.2)).2.
Definition Sample_big_reopen : result fileStore * Disk := NewFileStore (Sample.io 902) (w_disk Sample_big_put).
Definition Sample_big_store : fileStore := match Sample_big_reopen with (Ok s, _) => s | _ => emptyStore false end.

Lemma oversized_put_lost_witness :
  Get "a" (w_store Sample_big_put) = Some (Sample.slice "a" Memory Project <| Embedding := None |>)
  /\ live Sample_big_store = live Sample_big_start.
Proof.
  apply (oversized_put_lost Sample_big_len Sample.dto_len Sample.marshal_vec Sample.marshal_vec_ok
           (Sample.io 900) (Sample.io 901) (Sample.io 902) Sample_big (40, Doc true (JHeader (mkHeader 1 (2 * maxImportLine) 100 "e3b0"))) []
           Sample_big_start Sample_big_opened.2 (Sample.slice "a" Memory Project) Sample_big_put Sample_big_store Sample_big_reopen.2);
    [vm_compute; reflexivity|vm_compute; reflexivity|vm_compute; reflexivity|vm_compute; reflexivity|vm_compute; reflexivity|discriminate|vm_compute; discriminate|vm_compute; reflexivity..].
Defined.

(** [Put] accepts a slice without an ID, journals it and serves it, and every
    later open skips it as a phantom. *)
Theorem unnamed_put_lost :
  Sample.put_then_reopen "" Sample.empty
    = Some (true, Some (Sample.slice "" Memory Project <| Embedding := None |>), None).
Proof. vm_compute. reflexivity. Qed.
