(* ===== verification/SliceStore.v ===== *)
(** kernel/slice/store.go: what a client may rely on in a store.

    [SliceStore] is the part of the [Store] interface the maintenance passes use;
    [SliceStoreLaws] is its contract over the contents a reader sees.  The file store
    (Store.v) satisfies it as long as it is open, whatever its system calls do. *)

From Stdlib Require Import ZArith Lia Bool Ascii String.
From stdpp Require Import tactics base option list gmap strings.
From S2P Require Import Prelude GoStrings Slice Store StoreSpec StoreOps StoreMem StoreProps.

#[global] Open Scope Z_scope.

Definition errNotFound : string := "slice: not found".

Class SliceStore (S : Type) := {
  store_list : S -> result (list Slice);
  store_get : string -> S -> result (option Slice);
  store_put : Slice -> st S unit;
  store_delete : string -> st S unit;
}.

(** What a reader sees of a slice that was put: admitted, without its vector. *)
Definition seen (sl : Slice) : Slice := (EnforceAdmission sl).1 <| Embedding := None |>.

Class SliceStoreLaws (S : Type) `{SliceStore S} (contents : S -> gmap string Slice) (usable : S -> Prop) := {
  law_keyed : forall s id sl, contents s !! id = Some sl -> ID sl = id;
  law_named : forall s id sl, usable s -> contents s !! id = Some sl -> id <> ""%string;
  law_list : forall s l, usable s -> store_list s = Ok l -> NoDup (map ID l) /\ forall sl, sl ∈ l <-> contents s !! ID sl = Some sl;
  law_get : forall s id o, usable s -> store_get id s = Ok o -> o = contents s !! id;
  law_missing : forall s id, usable s -> store_get id s = Err errNotFound -> contents s !! id = None;
  law_put : forall s sl s', usable s -> ID sl <> ""%string -> store_put sl s = (Ok tt, s') ->
    usable s' /\ contents s' = <[ID sl := seen sl]> (contents s);
  law_put_failed : forall s sl e s', usable s -> ID sl <> ""%string -> store_put sl s = (Err e, s') ->
    contents s' = contents s \/ contents s' = <[ID sl := seen sl]> (contents s);
  law_delete : forall s id s', usable s -> store_delete id s = (Ok tt, s') ->
    usable s' /\ contents s' = delete id (contents s);
  law_delete_failed : forall s id e s', usable s -> store_delete id s = (Err e, s') ->
    contents s' = contents s \/ contents s' = delete id (contents s);
}.

Lemma seen_ID sl : ID (seen sl) = ID sl.
Proof. unfold seen, EnforceAdmission. by repeat case_match. Qed.

(** A slice of another type than the low-abstraction ones is seen as it was put. *)
Lemma seen_other sl : SType sl <> ToolPattern -> SType sl <> Result -> seen sl = sl <| Embedding := None |>.
Proof. intros H1 H2. unfold seen, EnforceAdmission. case_decide; [done|]. by destruct (SType sl). Qed.

(** ** The file store *)

Section FileStore.
Context (json_len : jdoc -> Z) (dto_len : sliceDTO -> Z) (marshal_vec : list Z -> option string).
Hypothesis marshal_vec_not_null : forall v b, marshal_vec v = Some b -> trim_space b <> "null"%string.
(** The outcomes of the system calls of the successive operations. *)
Context (ios : nat -> IO).

Definition Numbered : Type := nat * World.

Definition on_world (m : IO -> op unit) : st Numbered unit := fun '(n, w) =>
  let '(r, w') := m (ios n) w in (r, (S n, w')).

#[export] Instance file_slice_store : SliceStore Numbered := {|
  store_list s := Ok (ListAll (w_store s.2));
  store_get id s := Ok (Get id (w_store s.2));
  store_put sl := on_world (fun io => Put json_len dto_len marshal_vec io sl);
  store_delete id := on_world (fun io => Delete json_len dto_len marshal_vec io id);
|}.

Definition file_contents (s : Numbered) : gmap string Slice :=
  list_to_map (map (fun e => (ID (e_s e), cloneStored e)) (live (w_store s.2))).

Definition file_usable (s : Numbered) : Prop := sound (w_store s.2).

Lemma entries_lookup (l : list storedEntry) id :
  (list_to_map (map (fun e => (ID (e_s e), cloneStored e)) l) : gmap string Slice) !! id = cloneStored <$> spec_get id l.
Proof.
  unfold spec_get. induction l as [|e l IH]; [done|]. cbn.
  destruct (decide (has_id id e)) as [E|E]; unfold has_id in E.
  - subst id. by rewrite lookup_insert_eq.
  - by rewrite lookup_insert_ne.
Qed.

Lemma spec_get_del id id' l : spec_get id (spec_del id' l) = if decide (id = id') then None else spec_get id l.
Proof.
  unfold spec_get, spec_del. induction l as [|e l IH]; [by destruct (decide _)|]. rewrite (filter_cons _ e l).
  destruct (decide (~ has_id id' e)) as [Hn|Hh]; rewrite !filter_cons; unfold has_id in *.
  - destruct (decide (ID (e_s e) = id)) as [E|E]; [|done]. destruct (decide (id = id')); [congruence|done].
  - destruct (decide (id = id')) as [->|Hne]; [done|]. destruct (decide (ID (e_s e) = id)) as [E|E]; [|done]. exfalso. apply Hh. congruence.
Qed.

Lemma sound_get id s : sound s -> Get id s = cloneStored <$> spec_get id (live s).
Proof. intros [Hw [_ Hn]]. by apply Get_spec. Qed.

Lemma perform_live m n w r w' : file_usable (n, w) -> named m ->
  perform json_len dto_len marshal_vec (ios n) m w = (r, w') ->
  (live (w_store w') = live (w_store w) \/ live (w_store w') = spec_step marshal_vec m (live (w_store w)))
  /\ (r = Ok tt -> file_usable (S n, w') /\ live (w_store w') = spec_step marshal_vec m (live (w_store w))).
Proof.
  intros Hs Hn Hrun. pose proof (perform_stepped json_len dto_len marshal_vec marshal_vec_not_null (ios n) m w Hs Hn) as [Hl Hk].
  rewrite Hrun in *. split; [done|]. intros ->. by apply Hk.
Qed.

(** The listing has the contents, each once. *)
Lemma file_listing s : file_usable s ->
  NoDup (map ID (ListAll (w_store s.2))) /\ forall sl, sl ∈ ListAll (w_store s.2) <-> file_contents s !! ID sl = Some sl.
Proof.
  destruct s as [n w]. intros [_ [_ Hnd]]. cbn in *. unfold ListAll.
  replace (map ID (map cloneStored (live (w_store w)))) with (ids (live (w_store w))) by (unfold ids; by rewrite map_map).
  split; [done|]. intros sl. unfold file_contents. cbn. rewrite <- elem_of_list_to_map.
  - split.
    + intros (e & -> & He)%list_elem_of_fmap. apply list_elem_of_fmap. by exists e.
    + intros (e & [= _ ->] & He)%list_elem_of_fmap. apply list_elem_of_fmap. by exists e.
  - change (NoDup (map fst (map (fun e => (ID (e_s e), cloneStored e)) (live (w_store w))))). by rewrite map_map.
Qed.

#[export] Instance file_slice_store_laws : SliceStoreLaws Numbered file_contents file_usable.
Proof.
  assert (Hput : forall sl l id, (list_to_map (map (fun e => (ID (e_s e), cloneStored e)) (spec_put (stored marshal_vec sl) l)) : gmap string Slice) !! id
    = (<[ID sl := seen sl]> (list_to_map (map (fun e => (ID (e_s e), cloneStored e)) l)) : gmap string Slice) !! id).
  { intros sl l id. rewrite entries_lookup, spec_get_put. unfold stored, entryFromSlice. cbn [e_s ID].
    change (ID ((EnforceAdmission sl).1 <| Embedding := None |>)) with (ID (seen sl)).
    rewrite seen_ID.
    destruct (decide (id = ID sl)) as [->|Hne]; [by rewrite lookup_insert_eq|]. by rewrite lookup_insert_ne, entries_lookup. }
  assert (Hdel : forall i l id, (list_to_map (map (fun e => (ID (e_s e), cloneStored e)) (spec_del i l)) : gmap string Slice) !! id
    = (delete i (list_to_map (map (fun e => (ID (e_s e), cloneStored e)) l)) : gmap string Slice) !! id).
  { intros i l id. rewrite entries_lookup, spec_get_del. destruct (decide (id = i)) as [->|Hne]; [by rewrite lookup_delete_eq|].
    by rewrite lookup_delete_ne, entries_lookup. }
  split.
  - intros s id sl. unfold file_contents. rewrite entries_lookup. unfold spec_get. intros (e & He & ->)%fmap_Some.
    assert (Hin : e ∈ filter (has_id id) (live (w_store s.2))) by (destruct (filter _ _); [done|]; injection He as ->; left).
    apply list_elem_of_filter in Hin as [Hid _]. exact Hid.
  - intros [n w] id sl [_ [Hc _]]. unfold file_contents. cbn in *. rewrite entries_lookup. unfold spec_get. intros (e & He & ->)%fmap_Some.
    assert (Hin : e ∈ filter (has_id id) (live (w_store w))) by (destruct (filter _ _); [done|]; injection He as ->; left).
    apply list_elem_of_filter in Hin as [<- Hin]. rewrite Forall_forall in Hc. by apply Hc.
  - intros s l Hu [= <-]. by apply file_listing.
  - intros [n w] id o Hs. cbn. intros [= <-]. unfold file_contents. cbn. by rewrite entries_lookup, sound_get.
  - intros s id _. by cbn.
  - intros [n w] sl s' Hu Hid. cbn. destruct (Put json_len dto_len marshal_vec (ios n) sl w) as [r w'] eqn:E. intros [= -> <-].
    destruct (perform_live (MPut sl) n w (Ok tt) w' Hu Hid E) as [_ Hk]. destruct (Hk eq_refl) as [Hu' Hl]. split; [done|].
    unfold file_contents. cbn. rewrite Hl. apply map_eq. intros id. apply Hput.
  - intros [n w] sl e s' Hu Hid. cbn. destruct (Put json_len dto_len marshal_vec (ios n) sl w) as [r w'] eqn:E. intros [= -> <-].
    destruct (perform_live (MPut sl) n w (Err e) w' Hu Hid E) as [[Hl|Hl] _]; unfold file_contents; cbn; rewrite Hl; [by left|right].
    apply map_eq. intros id. apply Hput.
  - intros [n w] id s' Hu. cbn [store_delete file_slice_store on_world]. destruct (Delete json_len dto_len marshal_vec (ios n) id w) as [r w'] eqn:E. intros [= -> <-].
    destruct (perform_live (MDelete id) n w (Ok tt) w' Hu I E) as [_ Hk]. destruct (Hk eq_refl) as [Hu' Hl]. split; [done|].
    unfold file_contents. cbn. rewrite Hl. apply map_eq. intros i. apply Hdel.
  - intros [n w] id e s' Hu. cbn [store_delete file_slice_store on_world]. destruct (Delete json_len dto_len marshal_vec (ios n) id w) as [r w'] eqn:E. intros [= -> <-].
    destruct (perform_live (MDelete id) n w (Err e) w' Hu I E) as [[Hl|Hl] _]; unfold file_contents; cbn; rewrite Hl; [by left|right].
    apply map_eq. intros i. apply Hdel.
Qed.
(** Folding, with a callback and without. *)
Definition file_fold (f : list Slice -> list Slice) : st Numbered unit :=
  on_world (fun io => CompactWith json_len dto_len marshal_vec io (fun l => map Some (f l))).
Definition file_compact : st Numbered unit := on_world (fun io => Compact json_len dto_len marshal_vec io).

Definition by_id (l : list Slice) : gmap string Slice := list_to_map (map (fun sl => (ID sl, sl <| Embedding := None |>)) l).

Lemma rescored_some f lives : Forall (fun sl => ID sl <> ""%string) (f (map cloneStored lives)) ->
  map cloneStored (rescored marshal_vec (fun l => map Some (f l)) lives) = map (fun sl => sl <| Embedding := None |>) (f (map cloneStored lives)).
Proof.
  intros Hf. unfold rescored. generalize (raw_by_id lives). intros raw. generalize dependent (f (map cloneStored lives)). intros l Hf.
  induction Hf as [|x l Hx _ IH]; [done|]. cbn [map flat_map]. rewrite decide_False by done. cbn [app map]. by rewrite IH.
Qed.

Lemma by_id_entries l : by_id (map cloneStored l) = list_to_map (map (fun e => (ID (e_s e), cloneStored e)) l).
Proof. unfold by_id. by rewrite map_map. Qed.

Lemma by_id_strip l : by_id (map (fun sl => sl <| Embedding := None |>) l) = by_id l.
Proof. unfold by_id. by rewrite map_map. Qed.

(** A fold that returns nil leaves what its callback kept, without the vectors. *)
Lemma file_fold_law f s s' : file_usable s -> file_fold f s = (Ok tt, s') ->
  NoDup (map ID (f (ListAll (w_store s.2)))) -> Forall (fun sl => ID sl <> ""%string) (f (ListAll (w_store s.2))) ->
  file_contents s' = by_id (f (ListAll (w_store s.2))).
Proof.
  destruct s as [n w]. intros Hs Hrun Hn Hf. cbn in Hn, Hf |- *. set (g := fun l => map Some (f l)) in *.
  assert (Hr : map cloneStored (rescored marshal_vec g (live (w_store w))) = map (fun sl => sl <| Embedding := None |>) (f (ListAll (w_store w)))) by by apply rescored_some.
  assert (Hg : good (rescored marshal_vec g (live (w_store w)))).
  { split; [by apply rescored_clean, Hs|]. replace (ids _) with (map ID (map cloneStored (rescored marshal_vec g (live (w_store w))))) by (unfold ids; by rewrite map_map).
    rewrite Hr, map_map. exact Hn. }
  pose proof (compact_folded json_len dto_len marshal_vec (ios n) (Some g) w) as Hfo. unfold wp in Hfo.
  destruct (folded_live _ _ _ _ Hs Hg Hfo) as [_ Hk]. unfold file_fold, on_world, CompactWith in Hrun. fold g in Hrun.
  destruct (compactLocked json_len dto_len marshal_vec (ios n) (Some g) w) as [r w'] eqn:E. injection Hrun as -> <-. destruct (Hk eq_refl) as [_ Hl]. cbn in Hl.
  unfold file_contents. cbn. rewrite Hl. rewrite <- by_id_entries, Hr. apply by_id_strip.
Qed.

Lemma file_compact_law s s' : file_usable s -> file_compact s = (Ok tt, s') -> file_contents s' = file_contents s.
Proof.
  destruct s as [n w]. intros Hu Hrun. unfold file_compact, on_world in Hrun. destruct (Compact _ _ _ _ w) as [r w'] eqn:E. injection Hrun as -> <-.
  destruct (perform_live MCompact n w (Ok tt) w' Hu I E) as [_ Hk]. destruct (Hk eq_refl) as [_ Hl]. unfold file_contents. cbn. by rewrite Hl.
Qed.
End FileStore.
