(* ===== verification/Consolidate.v ===== *)
(** kernel/slice/consolidate.go: merging near-duplicate Context slices.

    The pass runs over any store ([SliceStore]).  [deep_equal] is [reflect.DeepEqual]
    on the metadata, which also tells nil from empty, and is assumed to imply equality
    only; [sha] is that of Extract.v. *)

From Stdlib Require Import ZArith Lia Bool Ascii String.
From stdpp Require Import tactics base option list sorting gmap strings.
From S2P Require Import Prelude Float64 GoStrings Text Slice Store StoreSpec StoreOps StoreMem StoreProps SliceStore Transcript Extract.

#[global] Open Scope Z_scope.

Record ConsolidateOptions := mkOptions { Threshold : f64; DryRun : bool }.

Record ConsolidateResult := mkConsolidate {
  Checked : Z;
  Groups : Z;
  Merged : Z;
  Created : list string;
  Removed : list string;
}.
#[export] Instance ConsolidateResult_eta : Eta ConsolidateResult := fun r =>
  mkConsolidate (Checked r) (Groups r) (Merged r) (Created r) (Removed r).

(** ** Similarity *)

Definition text_lines (content : string) : list string := map trim_space (split_lines content).

(** [line[:i]] around the last [" ("], when the line ends with a parenthesis. *)
Definition counted_entry (line : string) : option (string * string) :=
  match last_cut " (" line with
  | Some (a, b) => if negb (a =? "")%string && has_suffix line ")" then Some (a, b) else None
  | None => None
  end.

Definition jaccard (a b : gset string) : f64 :=
  if (size a =? 0)%nat && (size b =? 0)%nat then f0
  else
    let inter := size (a ∩ b) in
    let union := (size a + size b - inter)%nat in
    if (union =? 0)%nat then f0 else (f_of_int (Z.of_nat inter) / f_of_int (Z.of_nat union))%f64.

(** ** Sections *)

(** [fmt.Sscanf(s, "%d", &n)]: blanks, a sign, digits; what follows is ignored. *)
Fixpoint skip_spaces (l : list Z) : list Z :=
  match l with [] => [] | r :: t => if is_space r then skip_spaces t else l end.
Fixpoint scan_digits (acc : option Z) (l : list Z) : option Z :=
  match l with
  | r :: t => if in_range 48 57 r then scan_digits (Some (10 * default 0 acc + (r - 48))) t else acc
  | [] => acc
  end.
Definition sscan_int (s : string) : option Z :=
  let '(sign, l) := match skip_spaces (runes s) with
                    | r :: t => if r =? 43 then (1, t) else if r =? 45 then (-1, t) else (1, r :: t)
                    | [] => (1, [])
                    end in
  match scan_digits None l with
  | Some n => let v := sign * n in if (- 2 ^ 63 <=? v) && (v <? 2 ^ 63) then Some v else None
  | None => None
  end.

(** [s[:len(s)-1]]. *)
Definition chop (s : string) : string := String.substring 0 (String.length s - 1) s.

Record contextSection := mkSection { title : string; section_entries : gmap string Z }.

Definition add_entry (m : gmap string Z) (k : string) (v : Z) : gmap string Z := <[k := default 0 (m !! k) +! v]> m.

Definition entry_count (line : string) : string * Z :=
  let entry := trim_prefix line "- " in
  match counted_entry entry with
  | Some (a, b) => match sscan_int (chop b) with Some n => if 0 <? n then (a, n) else (entry, 1) | None => (entry, 1) end
  | None => (entry, 1)
  end.

Definition section_step (out : list contextSection) (line : string) : list contextSection :=
  if (line =? "")%string || has_prefix line "Project context" then out
  else if has_suffix line ":" && negb (has_prefix line "- ") then out ++ [mkSection line ∅]
  else match last out with
       | Some cur =>
           if negb (has_prefix line "- ") then out
           else let '(entry, n) := entry_count line in
                removelast out ++ [mkSection (title cur) (add_entry (section_entries cur) entry n)]
       | None => out
       end.
Definition parseContextSections (content : string) : list contextSection := foldl section_step [] (text_lines content).

(** A section joins the first one of its title. *)
Fixpoint merge_section (order : list contextSection) (sec : contextSection) : list contextSection :=
  match order with
  | [] => [sec]
  | x :: rest =>
      if (title x =? title sec)%string
      then mkSection (title x) (map_fold (fun k v m => add_entry m k v) (section_entries x) (section_entries sec)) :: rest
      else x :: merge_section rest sec
  end.

Definition max_merged_entries : nat := 8.
Definition section_text (sec : contextSection) : string :=
  title sec +:+ lf_string
  +:+ join "" (map context_line (take max_merged_entries (go_sort entry_less (map (fun e => mkEntry e.1 e.2) (map_to_list (section_entries sec)))))).

Definition merged_sections (members : list Slice) : list contextSection :=
  foldl merge_section [] (concat (map (fun m => parseContextSections (Content m)) members)).

Definition contextSourceSessions (members : list Slice) : list string :=
  sort_strings (elements (list_to_set (List.filter (fun s => negb (s =? "")%string)
    (concat (map (fun m => SourceSession (Meta m) :: SourceSessions (Meta m)) members))) : gset string)).

Definition merged_scope (members : list Slice) : Scope :=
  if forallb (fun m => bool_decide (SScope m = User)) members then User else Project.

Section Consolidate.
Context `{UnicodeLower} (sha : string -> string) (deep_equal : SliceMeta -> SliceMeta -> bool).

Definition contextTokens (content : string) : gset string :=
  list_to_set (concat (map (fun line =>
    if (line =? "")%string || has_suffix line ":" || has_prefix line "Project context" then []
    else let line := trim_prefix line "- " in
         fields (to_lower (match counted_entry line with Some (a, _) => a | None => line end)))
    (text_lines content))).

(** The fields a merge changes are left out. *)
Definition comparable_meta (m : SliceMeta) : SliceMeta :=
  m <| SourceSession := ""%string |> <| SourceSessions := [] |> <| OriginalBytes := 0 |> <| StoredBytes := 0 |>.
Definition contextMetadataCompatible (a b : Slice) : bool :=
  bool_decide (SScope a = SScope b) && deep_equal (comparable_meta (Meta a)) (comparable_meta (Meta b)).

(** [RetainExtractionHistory]: the item after the call. *)
Definition RetainExtractionHistory (item : Slice) (existing : option Slice) : Slice :=
  match existing with
  | None => item
  | Some x =>
      if negb (ID item =? ID x)%string || negb (bool_decide (SType item = SType x)) || negb (Content item =? Content x)%string
         || negb (contextMetadataCompatible item x) then item
      else item <| Meta ::= fun m => m <| SourceSessions := contextSourceSessions [item; x] |> |> <| Stats := Stats x |> <| Weight := Weight x |>
  end.

Definition mergeContextSlices (members : list Slice) : option Slice :=
  match members with
  | [] => None
  | first :: _ =>
      match merged_sections members with
      | [] => None
      | order =>
          let scope := merged_scope members in
          let content := trim_space (context_header +:+ join "" (map section_text order)) in
          Some (mkSlice (sliceID sha content Context scope) Context scope content None
                  (foldl (fun acc m => mergeStats acc (Stats m)) zero_stats members) (Weight first)
                  (Meta first <| SourceSessions := contextSourceSessions members |> <| OriginalBytes := 0 |> <| StoredBytes := 0 |>)
                  (foldl (fun acc m => if acc <? CreatedAt m then CreatedAt m else acc) 0 members))
      end
  end.

(** ** Clusters *)

(** A cluster is its representative and its members, the representative first. *)
Fixpoint join_cluster (threshold : f64) (s : Slice) (clusters : list (Slice * list Slice)) : list (Slice * list Slice) :=
  match clusters with
  | [] => [(s, [s])]
  | (rep, members) :: rest =>
      if contextMetadataCompatible s rep && (threshold <=? jaccard (contextTokens (Content s)) (contextTokens (Content rep)))%f64
      then (rep, members ++ [s]) :: rest
      else (rep, members) :: join_cluster threshold s rest
  end.
Definition clusters_of (threshold : f64) (ctx : list Slice) : list (Slice * list Slice) :=
  foldl (fun cs s => join_cluster threshold s cs) [] ctx.

(** ** The pass *)

Context {S : Type} `{SliceStore S}.

(** The result so far, the error of the pass if it stopped, and the store. *)
Abbreviation outcome := (ConsolidateResult * option string * S)%type.

(** The card that already has the identifier may be replaced when it is a member with
    the merged metadata. *)
Definition replaceable (merged : Slice) (members : list Slice) (existing : option Slice) : bool :=
  match existing with
  | None => true
  | Some x => existsb (fun m => (ID m =? ID x)%string) members && contextMetadataCompatible merged x
  end.

Definition delete_members (merged : Slice) (members : list Slice) : st S unit :=
  st_each (fun m => if (ID m =? ID merged)%string then st_ret tt else store_delete (ID m)) members.

Definition merge_cluster (dry : bool) (members : list Slice) (res : ConsolidateResult) (s : S) : outcome :=
  if (length members <? 2)%nat then (res, None, s)
  else
    let res := res <| Groups ::= fun n => n +! 1 |> in
    match mergeContextSlices members with
    | None => (res, None, s)
    | Some merged =>
        let existing := match store_get (ID merged) s with
                        | Ok o => Ok o
                        | Err e => if (e =? errNotFound)%string then Ok None else Err e
                        end in
        match existing with
        | Err e => (res, Some e, s)
        | Ok existing =>
            if negb (replaceable merged members existing) then (res, None, s)
            else
              let res := res <| Created ::= fun l => l ++ [ID merged] |> <| Removed ::= fun l => l ++ map ID members |> in
              if dry then (res, None, s)
              else match store_put merged s with
                   | (Err e, s) => (res, Some e, s)
                   | (Ok _, s) =>
                       let res := res <| Merged ::= fun n => n +! 1 |> in
                       match delete_members merged members s with
                       | (Err e, s) => (res, Some e, s)
                       | (Ok _, s) => (res, None, s)
                       end
                   end
        end
    end.

Fixpoint merge_clusters (dry : bool) (clusters : list (Slice * list Slice)) (res : ConsolidateResult) (s : S) : outcome :=
  match clusters with
  | [] => (res, None, s)
  | (_, members) :: rest =>
      match merge_cluster dry members res s with
      | (res, None, s) => merge_clusters dry rest res s
      | stopped => stopped
      end
  end.

Definition context_slices (all : list Slice) : list Slice :=
  go_sort (fun a b => string_less (ID a) (ID b)) (List.filter (fun s => bool_decide (SType s = Context)) all).

Definition result0 : ConsolidateResult := mkConsolidate 0 0 0 [] [].

Definition ConsolidateContext (opts : ConsolidateOptions) (s : S) : outcome :=
  let threshold := if (Threshold opts <=? f0)%f64 then f_of_ratio 6 10 else Threshold opts in
  match store_list s with
  | Err e => (result0, Some e, s)
  | Ok all =>
      let ctx := context_slices all in
      let res := result0 <| Checked := Z.of_nat (length ctx) |> in
      if (length ctx <? 2)%nat then (res, None, s)
      else merge_clusters (DryRun opts) (clusters_of threshold ctx) res s
  end.
End Consolidate.

(** ** Clusters partition the slices *)

Definition counters : list (SliceStats -> Z) := [Hits; Misses; Injected; Rejected; Useful; Neutral; Harmful].

Lemma counter_merge f a b : f ∈ counters -> f (mergeStats a b) = u64 (f a + f b).
Proof. unfold counters. rewrite !elem_of_cons. intros [->|[->|[->|[->|[->|[->|[->|[]%not_elem_of_nil]]]]]]]; done. Qed.

Lemma counter_zero f : f ∈ counters -> f zero_stats = 0.
Proof. unfold counters. rewrite !elem_of_cons. intros [->|[->|[->|[->|[->|[->|[->|[]%not_elem_of_nil]]]]]]]; done. Qed.

Fixpoint total_of (f : SliceStats -> Z) (l : list Slice) : Z := match l with [] => 0 | m :: l => f (Stats m) + total_of f l end.

Lemma merged_counter f l acc : f ∈ counters ->
  f (foldl (fun acc m => mergeStats acc (Stats m)) acc l) mod 2 ^ 64 = (f acc + total_of f l) mod 2 ^ 64.
Proof.
  intros Hf. revert acc. induction l as [|m l IH]; intros acc; cbn [foldl total_of]; [by rewrite Z.add_0_r|].
  rewrite IH, counter_merge by done. unfold u64. rewrite Z.add_mod_idemp_l by lia. f_equal. lia.
Qed.

Lemma merged_last l acc : LastUsed acc <= LastUsed (foldl (fun acc m => mergeStats acc (Stats m)) acc l)
  /\ forall m, m ∈ l -> LastUsed (Stats m) <= LastUsed (foldl (fun acc m => mergeStats acc (Stats m)) acc l).
Proof.
  revert acc. induction l as [|x l IH]; intros acc; cbn [foldl]; [split; [lia|by intros m ?%not_elem_of_nil]|].
  destruct (IH (mergeStats acc (Stats x))) as [H1 H2]. rewrite mergeStats_LastUsed in H1. split; [lia|].
  intros m [->|Hm]%elem_of_cons; [lia|by apply H2].
Qed.

Lemma merged_created l acc : acc <= foldl (fun acc m => if acc <? CreatedAt m then CreatedAt m else acc) acc l
  /\ forall m, m ∈ l -> CreatedAt m <= foldl (fun acc m => if acc <? CreatedAt m then CreatedAt m else acc) acc l.
Proof.
  revert acc. induction l as [|x l IH]; intros acc; cbn [foldl]; [split; [lia|by intros m ?%not_elem_of_nil]|].
  destruct (IH (if acc <? CreatedAt x then CreatedAt x else acc)) as [H1 H2]. destruct (Z.ltb_spec acc (CreatedAt x)).
  - split; [lia|]. intros m [->|Hm]%elem_of_cons; [lia|by apply H2].
  - split; [lia|]. intros m [->|Hm]%elem_of_cons; [lia|by apply H2].
Qed.

Lemma sources_spec members m source : m ∈ members -> source ∈ SourceSession (Meta m) :: SourceSessions (Meta m) -> source <> ""%string ->
  source ∈ contextSourceSessions members.
Proof.
  intros Hm Hs Hne. unfold contextSourceSessions, sort_strings. rewrite elem_of_go_sort, elem_of_elements, elem_of_list_to_set, list_elem_of_In.
  apply filter_In. split; [|by apply negb_true_iff, String.eqb_neq]. apply in_concat. eexists. split; [|by apply list_elem_of_In, Hs].
  apply in_map_iff. exists m. by rewrite <- list_elem_of_In.
Qed.

Section Facts.
Context `{UnicodeLower} (sha : string -> string) (deep_equal : SliceMeta -> SliceMeta -> bool).
Hypothesis deep_equal_sound : forall a b, deep_equal a b = true -> a = b.
Hypothesis sha_named : forall s, sha s <> ""%string.

Lemma compatible_sound a b : contextMetadataCompatible deep_equal a b = true -> SScope a = SScope b /\ comparable_meta (Meta a) = comparable_meta (Meta b).
Proof. unfold contextMetadataCompatible. intros [?%bool_decide_eq_true ?]%andb_true_iff. split; [done|by apply deep_equal_sound]. Qed.

(** One scope and one metadata, up to the fields a merge changes. *)
Definition uniform (members : list Slice) : Prop :=
  exists sc meta, Forall (fun m => SScope m = sc /\ comparable_meta (Meta m) = meta) members.

Lemma join_cluster_spec t s cs : Forall (fun c => c.1 ∈ c.2 /\ uniform c.2) cs ->
  concat (map snd (join_cluster deep_equal t s cs)) ≡ₚ s :: concat (map snd cs)
  /\ Forall (fun c => c.1 ∈ c.2 /\ uniform c.2) (join_cluster deep_equal t s cs).
Proof.
  induction 1 as [|[rep ms] cs (Hrep & sc & meta & Hu) Hcs IH]; cbn [join_cluster].
  - split; [done|]. repeat constructor. exists (SScope s), (comparable_meta (Meta s)). by repeat constructor.
  - destruct (_ && _) eqn:E; cbn [map concat snd].
    + apply andb_true_iff in E as [[Es Em]%compatible_sound _]. split; [rewrite <- app_assoc; cbn [app]; by rewrite <- Permutation_middle|].
      constructor; [|done]. cbn in *. split; [apply elem_of_app; by left|]. exists sc, meta. apply Forall_app. split; [done|].
      rewrite Forall_forall in Hu. destruct (Hu rep Hrep). repeat constructor; congruence.
    + destruct IH as [IH1 IH2]. split; [by rewrite IH1, Permutation_middle|]. constructor; [|done]. split; [done|]. by exists sc, meta.
Qed.

Lemma clusters_spec t ctx :
  concat (map snd (clusters_of deep_equal t ctx)) ≡ₚ ctx /\ Forall (fun c => uniform c.2) (clusters_of deep_equal t ctx).
Proof.
  unfold clusters_of. assert (Hg : forall ctx cs, Forall (fun c => c.1 ∈ c.2 /\ uniform c.2) cs ->
    concat (map snd (foldl (fun cs s => join_cluster deep_equal t s cs) cs ctx)) ≡ₚ ctx ++ concat (map snd cs)
    /\ Forall (fun c => uniform c.2) (foldl (fun cs s => join_cluster deep_equal t s cs) cs ctx)).
  { clear ctx. induction ctx as [|s ctx IH]; intros cs Hcs; cbn [foldl]; [split; [done|]; eapply Forall_impl; [done|]; by intros ? [_ ?]|].
    destruct (join_cluster_spec t s cs Hcs) as [Hp Hc]. destruct (IH _ Hc) as [IH1 IH2]. split; [|done].
    rewrite IH1, Hp. cbn [app]. by rewrite Permutation_middle. }
  destruct (Hg ctx [] (Forall_nil_2 _)) as [Hp Hu]. split; [|done]. by rewrite app_nil_r in Hp.
Qed.

(** ** A merge *)

(** The merged card stands for a member. *)
Definition absorbs (merged m : Slice) : Prop :=
  SType merged = Context /\ Embedding merged = None
  /\ SScope merged = (if decide (SScope m = User) then User else Project)
  /\ comparable_meta (Meta merged) = comparable_meta (Meta m)
  /\ (forall source, source ∈ SourceSession (Meta m) :: SourceSessions (Meta m) -> source <> ""%string -> source ∈ SourceSessions (Meta merged))
  /\ LastUsed (Stats m) <= LastUsed (Stats merged) /\ CreatedAt m <= CreatedAt merged.

Lemma merge_absorbs members merged m : uniform members -> mergeContextSlices sha members = Some merged -> m ∈ members ->
  absorbs merged m /\ ID merged <> ""%string.
Proof.
  intros (sc & meta & Hu) Hmerge Hm. unfold mergeContextSlices in Hmerge. destruct members as [|first rest]; [done|].
  destruct (merged_sections (first :: rest)) as [|sec order]; [done|]. set (members := first :: rest) in *. injection Hmerge as <-.
  rewrite Forall_forall in Hu. destruct (Hu m Hm) as [Es Em]. destruct (Hu first) as [Ef Emf]; [left|].
  split; [|apply sha_named]. unfold absorbs. cbn [SType Embedding SScope Meta Stats CreatedAt]. split; [done|]. split; [done|]. split; [|split; [|split; [|split]]].
  - unfold merged_scope. rewrite Es. destruct (decide (sc = User)) as [->|Hne].
    + replace (forallb _ members) with true; [done|]. symmetry. apply forallb_forall. intros x Hx%list_elem_of_In.
      apply bool_decide_eq_true. by apply Hu.
    + unfold members. cbn [forallb]. rewrite bool_decide_eq_false_2; [done|]. congruence.
  - rewrite Em. exact Emf.
  - intros source Hs Hne. by apply (sources_spec members m).
  - by apply (proj2 (merged_last members zero_stats)).
  - by apply (proj2 (merged_created members 0)).
Qed.

Lemma merge_counter f members merged : f ∈ counters -> mergeContextSlices sha members = Some merged ->
  f (Stats merged) mod 2 ^ 64 = total_of f members mod 2 ^ 64.
Proof.
  intros Hf. unfold mergeContextSlices. destruct members as [|first rest]; [done|]. destruct (merged_sections _); [done|].
  intros E. injection E as <-. pose proof (merged_counter f (first :: rest) zero_stats Hf) as Hc.
  by rewrite (counter_zero f) in Hc.
Qed.

(** The contents after a merge. *)
Definition replaced (M : gmap string Slice) (members : list Slice) (merged : Slice) : gmap string Slice :=
  <[ID merged := merged]> (foldr delete M (map ID members)).

Lemma total_deleted f M members : NoDup (map ID members) -> Forall (fun m => M !! ID m = Some m) members ->
  msum (fun s => f (Stats s)) M = total_of f members + msum (fun s => f (Stats s)) (foldr delete M (map ID members)).
Proof.
  induction members as [|m members IH]; intros Hn Hm; [done|]. cbn [map foldr total_of] in *. apply NoDup_cons in Hn as [Hin Hn].
  apply Forall_cons in Hm as [Hm Hms]. rewrite IH by done.
  rewrite (msum_delete _ (foldr delete M (map ID members)) (ID m) m) by (by rewrite lookup_foldr_delete_not_elem_of). lia.
Qed.

Lemma replaced_total f M members merged : f ∈ counters -> NoDup (map ID members) -> Forall (fun m => M !! ID m = Some m) members ->
  (M !! ID merged = None \/ ID merged ∈ map ID members) -> mergeContextSlices sha members = Some merged ->
  msum (fun s => f (Stats s)) (replaced M members merged) mod 2 ^ 64 = msum (fun s => f (Stats s)) M mod 2 ^ 64.
Proof.
  intros Hf Hn Hm Hfree Hmerge. unfold replaced. rewrite (total_deleted f M members) by done. rewrite msum_insert.
  - rewrite <- (Z.add_mod_idemp_l (f (Stats merged))), (merge_counter f members) by (done || lia). by rewrite Z.add_mod_idemp_l by lia.
  - destruct (decide (ID merged ∈ map ID members)) as [Hin|Hin]; [by apply lookup_foldr_delete|].
    rewrite lookup_foldr_delete_not_elem_of by done. by destruct Hfree.
Qed.

(** ** The pass on a store *)

Context {S : Type} `{SliceStore S} (contents : S -> gmap string Slice) (usable : S -> Prop) `{!SliceStoreLaws S contents usable}.

Lemma delete_members_ok merged members s s' : usable s -> delete_members merged members s = (Ok tt, s') ->
  usable s' /\ forall k, contents s' !! k = if decide (k ∈ map ID members /\ k <> ID merged) then None else contents s !! k.
Proof.
  revert s. induction members as [|m members IH]; intros s Hu Hrun.
  { unfold delete_members in Hrun. cbn in Hrun. unfold st_ret in Hrun. injection Hrun as <-. split; [done|]. intros k. cbn.
    destruct (decide _) as [[Hk _]|]; [by apply not_elem_of_nil in Hk|done]. }
  unfold delete_members in Hrun. cbn [st_each] in Hrun. apply st_bind_ok in Hrun as ([] & s1 & Hm & Hrest).
  fold (delete_members merged members) in Hrest. destruct (String.eqb_spec (ID m) (ID merged)) as [E|Hne].
  - unfold st_ret in Hm. injection Hm as <-. destruct (IH s Hu Hrest) as [Hu' Hk]. split; [done|]. intros k. rewrite Hk. cbn [map].
    destruct (decide (k ∈ map ID members /\ k <> ID merged)) as [[? ?]|Hno]; [rewrite decide_True; [done|]; split; [by right|done]|].
    rewrite decide_False; [done|]. intros [[->|?]%elem_of_cons ?]; [congruence|]. by apply Hno.
  - destruct (law_delete _ _ _ Hu Hm) as [Hu1 Hc]. destruct (IH s1 Hu1 Hrest) as [Hu' Hk]. split; [done|]. intros k. rewrite Hk, Hc. cbn [map].
    destruct (decide (k ∈ map ID members /\ k <> ID merged)) as [[? ?]|Hno]; [rewrite decide_True; [done|]; split; [by right|done]|].
    destruct (decide (k = ID m)) as [->|Hkm].
    + rewrite lookup_delete_eq, decide_True; [done|]. split; [left|done].
    + rewrite lookup_delete_ne by done. rewrite decide_False; [done|]. intros [[->|?]%elem_of_cons ?]; [done|]. by apply Hno.
Qed.

(** The state of a cluster before its turn: its members are what the store holds. *)
Definition ready (M : gmap string Slice) (members : list Slice) : Prop :=
  uniform members /\ NoDup (map ID members) /\ Forall (fun m => M !! ID m = Some m /\ SType m = Context) members.

Definition free_for (M : gmap string Slice) (members : list Slice) (merged : Slice) : Prop :=
  M !! ID merged = None \/ ID merged ∈ map ID members.

Lemma merge_cluster_ok members res s res' s' : usable s -> ready (contents s) members ->
  merge_cluster sha deep_equal false members res s = (res', None, s') ->
  usable s' /\ (contents s' = contents s
    \/ exists merged, mergeContextSlices sha members = Some merged /\ free_for (contents s) members merged
         /\ contents s' = replaced (contents s) members merged).
Proof.
  intros Hu (Huni & Hn & Hm). unfold merge_cluster. destruct (length members <? 2)%nat; [intros [= <- <-]; split; [done|by left]|].
  destruct (mergeContextSlices sha members) as [merged|] eqn:Em; [|intros [= <- <-]; split; [done|by left]].
  set (ex := match store_get (ID merged) s with Ok o => Ok o | Err e => _ end).
  assert (Hex : forall o, ex = Ok o -> o = contents s !! ID merged).
  { intros o. unfold ex. destruct (store_get (ID merged) s) as [o'|e] eqn:Eg; [intros [= <-]; by apply (law_get s)|].
    destruct (String.eqb_spec e errNotFound) as [->|]; [|done]. intros [= <-]. symmetry. by apply (law_missing s). }
  destruct ex as [o|e]; [|done]. rewrite (Hex o eq_refl). clear Hex.
  destruct (replaceable _ _ _ _) eqn:Er; cbn [negb]; [|intros [= <- <-]; split; [done|by left]].
  assert (Hfree : free_for (contents s) members merged).
  { unfold free_for, replaceable in *. destruct (contents s !! ID merged) as [x|] eqn:Ex; [right|by left].
    apply andb_true_iff in Er as [(m & Hin%list_elem_of_In & E%String.eqb_eq)%existsb_exists _].
    rewrite <- (law_keyed _ _ _ Ex), <- E. apply list_elem_of_fmap. by exists m. }
  destruct members as [|m0 members0] eqn:Emem; [done|]. rewrite <- Emem in *.
  destruct (merge_absorbs members merged m0 Huni Em) as [Habs Hid]; [rewrite Emem; left|].
  destruct (store_put merged s) as [[[]|e] s1] eqn:Ep; [|done].
  destruct (law_put _ _ _ Hu Hid Ep) as [Hu1 Hc1].
  destruct (delete_members merged members s1) as [[[]|e] s2] eqn:Ed; [|done]. intros [= <- <-].
  destruct (delete_members_ok _ _ _ _ Hu1 Ed) as [Hu2 Hc2]. split; [done|]. right. exists merged. split; [done|]. split; [done|].
  assert (Hseen : seen merged = merged).
  { destruct Habs as (Ht & He & _). rewrite seen_other by (rewrite Ht; done). destruct merged. cbn in *. by rewrite He. }
  rewrite Hseen in Hc1. apply map_eq. intros k. rewrite Hc2, Hc1. unfold replaced. destruct (decide (k = ID merged)) as [->|Hne].
  - rewrite decide_False by tauto. by rewrite !lookup_insert_eq.
  - rewrite !(lookup_insert_ne _ (ID merged)) by done. destruct (decide (k ∈ map ID members)) as [Hin|Hin].
    + rewrite decide_True by done. symmetry. by apply lookup_foldr_delete.
    + rewrite decide_False by tauto. symmetry. by apply lookup_foldr_delete_not_elem_of.
Qed.

(** The members of all clusters, and what a run of merges does to them. *)
Definition all_members (cs : list (Slice * list Slice)) : list Slice := concat (map snd cs).

Record consolidated (M M' : gmap string Slice) (members : list Slice) : Prop := {
  co_total : forall f, f ∈ counters -> msum (fun s => f (Stats s)) M' mod 2 ^ 64 = msum (fun s => f (Stats s)) M mod 2 ^ 64;
  co_others : forall id x, M !! id = Some x -> id ∉ map ID members -> M' !! id = Some x;
  co_members : forall m, m ∈ members -> M' !! ID m = Some m \/ exists merged, M' !! ID merged = Some merged /\ absorbs merged m;
}.

Lemma consolidated_refl M members : Forall (fun m => M !! ID m = Some m) members -> consolidated M M members.
Proof. intros Hm. rewrite Forall_forall in Hm. split; [done|done|]. intros m Hin. left. by apply Hm. Qed.

Lemma consolidated_step M M2 M' ms rest : ready M ms -> NoDup (map ID (ms ++ rest)) -> Forall (fun m => M !! ID m = Some m) rest ->
  (M2 = M \/ exists merged, mergeContextSlices sha ms = Some merged /\ free_for M ms merged /\ M2 = replaced M ms merged) ->
  consolidated M2 M' rest -> consolidated M M' (ms ++ rest).
Proof.
  intros (Hu & Hn & Hm) Hnd Hrest Hstep [Ht Ho Hr]. rewrite map_app in Hnd. apply NoDup_app in Hnd as (_ & Hdis & _).
  assert (Hms : Forall (fun m => M !! ID m = Some m) ms) by (eapply Forall_impl; [exact Hm|]; by intros ? [? _]).
  destruct Hstep as [->|(merged & Hmerge & Hfree & ->)].
  - split; [done| |].
    + intros id x Hx Hid. apply Ho; [done|]. intros Hin. apply Hid. rewrite map_app. apply elem_of_app. by right.
    + intros m [Hin|Hin]%elem_of_app; [|by apply Hr]. left. rewrite Forall_forall in Hms. apply Ho; [by apply Hms|].
      apply Hdis. apply list_elem_of_fmap. by exists m.
  - assert (Hid : ID merged ∉ map ID rest).
    { destruct Hfree as [Hnone|Hin]; [|by apply Hdis]. intros (r & E & Hin)%list_elem_of_fmap. rewrite Forall_forall in Hrest.
      specialize (Hrest r Hin). rewrite <- E in Hrest. congruence. }
    assert (Hkeep : forall id, id ∉ map ID ms -> id <> ID merged -> replaced M ms merged !! id = M !! id).
    { intros id Hni Hne. unfold replaced. rewrite lookup_insert_ne by done. by apply lookup_foldr_delete_not_elem_of. }
    split.
    + intros f Hf. rewrite Ht by done. by apply replaced_total.
    + intros id x Hx Hni. rewrite map_app, elem_of_app in Hni. apply Ho; [|tauto]. rewrite Hkeep; [done|tauto|].
      intros ->. destruct Hfree as [Hnone|Hin]; [congruence|tauto].
    + intros m [Hin|Hin]%elem_of_app; [|by apply Hr]. right. exists merged. split; [|by eapply merge_absorbs].
      apply Ho; [|done]. unfold replaced. by rewrite lookup_insert_eq.
Qed.

Lemma merge_clusters_ok cs : forall res s res' s', usable s -> Forall (fun c => ready (contents s) c.2) cs ->
  NoDup (map ID (all_members cs)) -> merge_clusters sha deep_equal false cs res s = (res', None, s') ->
  usable s' /\ consolidated (contents s) (contents s') (all_members cs).
Proof.
  induction cs as [|[rep ms] cs IH]; intros res s res' s' Hu Hr Hn Hrun; cbn [merge_clusters] in Hrun.
  { injection Hrun as _ <-. split; [done|]. by apply consolidated_refl. }
  apply Forall_cons in Hr as [Hr Hrs]. cbn [snd] in Hr. unfold all_members in *. cbn [map concat snd] in *.
  destruct (merge_cluster sha deep_equal false ms res s) as [[res1 [e|]] s1] eqn:Ec; [done|].
  destruct (merge_cluster_ok ms res s res1 s1 Hu Hr Ec) as [Hu1 Hstep].
  assert (Hrest : Forall (fun m => contents s !! ID m = Some m /\ SType m = Context) (concat (map snd cs))).
  { apply Forall_concat, Forall_map. eapply Forall_impl; [exact Hrs|]. by intros c (_ & _ & ?). }
  assert (Hsame : Forall (fun m => contents s1 !! ID m = contents s !! ID m) (concat (map snd cs))).
  { destruct Hstep as [->|(merged & _ & Hfree & ->)]; [by apply Forall_true|]. apply Forall_forall. intros r Hin.
    rewrite map_app in Hn. apply NoDup_app in Hn as (_ & Hdis & _). rewrite Forall_forall in Hrest. destruct (Hrest r Hin) as [Hl _].
    assert (Hri : ID r ∈ map ID (concat (map snd cs))) by (apply list_elem_of_fmap; by exists r).
    unfold replaced. rewrite lookup_insert_ne.
    - apply lookup_foldr_delete_not_elem_of. intros Hx. by apply (Hdis (ID r)).
    - intros E. destruct Hfree as [Hnone|Hx]; [congruence|]. apply (Hdis (ID merged)); [done|]. by rewrite E. }
  destruct (IH res1 s1 res' s' Hu1) as [Hu' Hc]; [|by rewrite map_app in Hn; apply NoDup_app in Hn as (_ & _ & ?)|done|].
  - apply Forall_forall. intros c Hc. rewrite Forall_forall in Hrs. destruct (Hrs c Hc) as (Hcu & Hcn & Hcm). split; [done|]. split; [done|].
    apply Forall_forall. intros m Hin. rewrite Forall_forall in Hcm, Hsame. rewrite Hsame; [by apply Hcm|].
    apply list_elem_of_In, in_concat. exists c.2. split; [|by apply list_elem_of_In]. apply in_map_iff. exists c. by rewrite <- list_elem_of_In.
  - split; [done|]. eapply consolidated_step; [exact Hr|exact Hn| |exact Hstep|exact Hc].
    eapply Forall_impl; [exact Hrest|]. by intros ? [? _].
Qed.

Lemma merge_clusters_dry cs : forall res s res' e s', merge_clusters sha deep_equal true cs res s = (res', e, s') -> s' = s.
Proof.
  induction cs as [|[rep ms] cs IH]; intros res s res' e s'; cbn [merge_clusters]; [by intros [= <- <- <-]|].
  assert (Hone : (merge_cluster sha deep_equal true ms res s).2 = s).
  { unfold merge_cluster. destruct (_ <? 2)%nat; [done|]. destruct (mergeContextSlices sha ms) as [merged|]; [|done].
    destruct (match store_get (ID merged) s with Ok o => Ok o | Err e => _ end) as [o|e0]; [|done]. by destruct (negb _). }
  destruct (merge_cluster sha deep_equal true ms res s) as [[res1 [e1|]] s1]; cbn in Hone; subst s1; [by intros [= <- <- <-]|]. apply IH.
Qed.

Lemma context_slices_elem l x : x ∈ context_slices l <-> x ∈ l /\ SType x = Context.
Proof.
  unfold context_slices. rewrite elem_of_go_sort, list_elem_of_In, filter_In, <- list_elem_of_In, bool_decide_eq_true. done.
Qed.

Lemma context_slices_NoDup l : NoDup (map ID l) -> NoDup (map ID (context_slices l)).
Proof.
  intros Hn. unfold context_slices. rewrite (go_sort_perm _ _ : go_sort _ _ ≡ₚ _).
  induction l as [|x l IH]; [done|]. cbn [map] in Hn. apply NoDup_cons in Hn as [Hx Hn]. cbn. destruct (bool_decide _); [|by apply IH].
  constructor; [|by apply IH]. intros (y & E & Hy)%list_elem_of_fmap. apply Hx, list_elem_of_fmap. exists y. split; [done|].
  apply list_elem_of_In, filter_In in Hy as [Hy _]. by apply list_elem_of_In.
Qed.

(** ** Properties *)

(** C34: A consolidation that returns nil loses nothing: every other slice stays as it
    was, every Context slice is still there or is absorbed by a Context slice that is
    (with the same metadata up to the merged fields, all its source sessions, at least
    its times, and the scope User if it had it, Project otherwise), and each usage
    counter summed over the library is the same modulo 2^64.  A dry run changes
    nothing. *)
Theorem ConsolidateContext_conserves opts s res s' :
  usable s -> ConsolidateContext sha deep_equal opts s = (res, None, s') ->
  (DryRun opts = true -> s' = s)
  /\ (forall id x, contents s !! id = Some x -> SType x <> Context -> contents s' !! id = Some x)
  /\ (forall id x, contents s !! id = Some x -> SType x = Context ->
        contents s' !! id = Some x \/ exists merged, contents s' !! ID merged = Some merged /\ absorbs merged x)
  /\ forall f, f ∈ counters -> msum (fun s => f (Stats s)) (contents s') mod 2 ^ 64 = msum (fun s => f (Stats s)) (contents s) mod 2 ^ 64.
Proof.
  intros Hu. unfold ConsolidateContext. destruct (store_list s) as [all|e] eqn:El; [|done]. set (ctx := context_slices all).
  destruct (length ctx <? 2)%nat; [intros [= _ <-]; split; [done|]; split; [done|]; split; [intros; by left|done]|].
  set (t := if (_ <=? _)%f64 then _ else _). set (cs := clusters_of deep_equal t ctx). intros Hrun.
  destruct (DryRun opts) eqn:Ed.
  { apply merge_clusters_dry in Hrun as ->. split; [done|]. split; [done|]. split; [intros; by left|done]. }
  split; [done|]. destruct (law_list _ _ Hu El) as [Hnd Hall]. destruct (clusters_spec t ctx) as [Hp Huni].
  fold cs in Hp, Huni. fold (all_members cs) in Hp.
  assert (Hctx : forall m, m ∈ all_members cs <-> contents s !! ID m = Some m /\ SType m = Context).
  { intros m. rewrite Hp. unfold ctx. by rewrite context_slices_elem, Hall. }
  assert (Hn : NoDup (map ID (all_members cs))) by (rewrite Hp; by apply context_slices_NoDup).
  assert (Hready : Forall (fun c => ready (contents s) c.2) cs).
  { apply Forall_forall. intros c Hc. rewrite Forall_forall in Huni. split; [by apply Huni|].
    apply list_elem_of_split in Hc as (l1 & l2 & E). unfold all_members in Hn, Hctx. rewrite E, map_app, concat_app in Hn, Hctx. cbn [map concat] in Hn, Hctx.
    rewrite !map_app in Hn. apply NoDup_app in Hn as (_ & _ & Hn). apply NoDup_app in Hn as (Hn & _). split; [done|].
    apply Forall_forall. intros m Hin. apply Hctx, elem_of_app. right. apply elem_of_app. by left. }
  destruct (merge_clusters_ok cs _ s res s' Hu Hready Hn Hrun) as [_ [Ht Ho Hm]]. split; [|split; [|done]].
  - intros id x Hx Hne. apply Ho; [done|]. intros (m & -> & Hin)%list_elem_of_fmap. apply Hctx in Hin as [Hl Ht']. congruence.
  - intros id x Hx Ht'. rewrite <- (law_keyed _ _ _ Hx) in Hx |- *. apply Hm. by apply Hctx.
Qed.
End Facts.

(** ** A store with two near-duplicates *)

Module ConsolidateSample.
#[export] Instance lower : UnicodeLower := ascii_lower.
Definition sha (s : string) : string := String "m" s.
Lemma sha_named s : sha s <> ""%string.
Proof. done. Qed.
#[export] Instance SliceMeta_eq_dec : EqDecision SliceMeta.
Proof. solve_decision. Defined.
Definition deep_equal (a b : SliceMeta) : bool := bool_decide (a = b).
Definition ios (n : nat) : IO := Sample.io (101 + Z.of_nat n).

#[export] Instance store : SliceStore Numbered := file_slice_store Sample.json_len Sample.dto_len Sample.marshal_vec ios.
#[export] Instance store_laws : SliceStoreLaws Numbered file_contents file_usable :=
  file_slice_store_laws Sample.json_len Sample.dto_len Sample.marshal_vec Sample.marshal_vec_ok ios.

Definition paths (l : list (string * Z)) : string :=
  trim_space (context_header +:+ writeContextSection "Frequent paths:" (map (fun e => mkEntry e.1 e.2) l)).
Definition card (id session : string) (hits : Z) (sc : Scope) (l : list (string * Z)) : Slice :=
  mkSlice id Context sc (paths l) None (zero_stats <| Hits := hits |>) f1 (zero_meta <| SourceSession := session |> <| Historical := true |>) hits.
Definition one : Slice := card "c1" "s1" 3 Project [("a.go", 4); ("b.go", 2)]%string.
Definition two : Slice := card "c2" "s2" 5 Project [("a.go", 2); ("b.go", 7)]%string.

Definition opened : Numbered := (0%nat, Sample.opened).
Definition filled : Numbered := (store_put two (store_put one opened).2).2.

Lemma opened_usable : file_usable opened.
Proof.
  destruct Sample_durable as [[Hw _ Hl _ _] _]. split; [exact Hw|]. change (good (live (w_store Sample.opened))). rewrite Hl. apply view_good.
Qed.

Lemma filled_usable : file_usable filled.
Proof.
  assert (E1 : store_put one opened = (Ok tt, (store_put one opened).2)) by (vm_compute; reflexivity).
  destruct (law_put opened one _ opened_usable ltac:(done) E1) as [Hu1 _].
  assert (E2 : store_put two (store_put one opened).2 = (Ok tt, filled)) by (vm_compute; reflexivity).
  by destruct (law_put (store_put one opened).2 two filled Hu1 ltac:(done) E2).
Qed.

Definition pass : ConsolidateResult * option string * Numbered := ConsolidateContext sha deep_equal (mkOptions f0 false) filled.
Definition union : Slice := match mergeContextSlices sha [one; two] with Some m => m | None => one end.

Example union_text : Content union = paths [("b.go", 9); ("a.go", 6)]%string /\ SourceSessions (Meta union) = ["s1"; "s2"]%string.
Proof. by vm_compute. Qed.
Example pass_result : pass.1 = (mkConsolidate 2 1 1 [ID union] ["c1"; "c2"]%string, None).
Proof. by vm_compute. Qed.

(** Members of session scope are merged into project scope. *)
Theorem session_widened : SScope <$> mergeContextSlices sha [one <| SScope := Session |>; two <| SScope := Session |>] = Some Project.
Proof. by vm_compute. Qed.

Lemma ConsolidateContext_conserves_witness :
  let s := filled in
  let s' := pass.2 in
  file_contents s !! "c1"%string = Some one
  /\ (file_contents s' !! "c1"%string = Some one
      \/ exists merged, file_contents s' !! ID merged = Some merged /\ absorbs merged one).
Proof.
  assert (Hc : file_contents filled !! "c1"%string = Some one) by (vm_compute; reflexivity).
  split; [exact Hc|]. assert (Hd : forall a b, deep_equal a b = true -> a = b) by (intros a b; apply bool_decide_eq_true).
  assert (Hrun : ConsolidateContext sha deep_equal (mkOptions f0 false) filled
    = (pass.1.1, None, pass.2)) by (vm_compute; reflexivity).
  destruct (ConsolidateContext_conserves sha deep_equal Hd sha_named file_contents
    file_usable (mkOptions f0 false) _ _ _ filled_usable Hrun) as (_ & _ & Hctx & _).
  exact (Hctx "c1"%string one Hc eq_refl).
Defined.
End ConsolidateSample.
