(* ===== verification/Maintenance.v ===== *)
(** kernel/slice/maintenance.go: the backup, its import and the eviction pass, over any
    store ([SliceStore]).

    A backup is its lines; [json_of_slice] and [slice_of_json] are the codec, [to_int64]
    the conversion of a float, which Go leaves to the platform outside the range.  The
    optional capabilities of a store - folding with a callback, plain folding - are
    arguments, as are the outcomes of the writes to the archive. *)

From Stdlib Require Import ZArith Lia Bool Ascii String.
From stdpp Require Import tactics base option list sorting gmap strings.
From S2P Require Import Prelude Float64 GoStrings Text Slice Store StoreOps StoreProps SliceStore Consolidate.

#[global] Open Scope Z_scope.

(** ** Import *)

(** The logical lines with their length, the newline included; nothing follows a final
    newline. *)
Fixpoint sized_lines (ls : list string) : list (string * Z) :=
  match ls with
  | [] => []
  | [l] => if (l =? "")%string then [] else [(l, slen l)]
  | l :: rest => (l, slen l + 1) :: sized_lines rest
  end.

(** What a line of an untrusted file becomes: its origin is the channel's, and a result
    has to be verified again. *)
Definition imported_slice (origin : Origin) (sl : Slice) : Slice :=
  let sl := sl <| Meta ::= fun m => m <| MetaOrigin := origin |> |> in
  if decide (SType sl = Result) then
    sl <| Meta ::= fun m => m <| MetaResultStatus := ResultStatusProbation |> <| ResultVerifiedBy := ""%string |> <| ResultVerificationEvidence := ""%string |> |>
  else sl.

Inductive import_line := Blank | Skip | Accept (sl : Slice).

Section Importing.
Context (slice_of_json : string -> option Slice).

Definition read_import (origin : Origin) (l : string * Z) : import_line :=
  if maxImportLine <? l.2 then Skip
  else
    let text := trim_space l.1 in
    if (text =? "")%string then Blank
    else match slice_of_json text with
         | None => Skip
         | Some sl => if (ID sl =? "")%string then Skip else Accept (imported_slice origin sl)
         end.

Context {S : Type} `{SliceStore S}.

(** Imported, skipped, the error and the store. *)
Fixpoint import_lines (origin : Origin) (ls : list (string * Z)) (imported skipped : Z) (s : S) : Z * Z * option string * S :=
  match ls with
  | [] => (imported, skipped, None, s)
  | l :: rest =>
      match read_import origin l with
      | Blank => import_lines origin rest imported skipped s
      | Skip => import_lines origin rest imported (skipped +! 1) s
      | Accept sl =>
          match store_put sl s with
          | (Ok _, s) => import_lines origin rest (imported +! 1) skipped s
          | (Err e, s) => (imported, skipped, Some e, s)
          end
      end
  end.

Definition Import (origin : Origin) (data : string) (s : S) : Z * Z * option string * S :=
  import_lines origin (sized_lines (split_lines data)) 0 0 s.
End Importing.

(** ** Export *)

Section Exporting.
Context (json_of_slice : Slice -> option string).

(** The lines written before a write fails, and whether all were. *)
Fixpoint write_lines (ok : nat -> bool) (n : nat) (ls : list string) : list string * bool :=
  match ls with
  | [] => ([], true)
  | l :: rest => if ok n then let '(w, b) := write_lines ok (n + 1)%nat rest in (l :: w, b) else ([], false)
  end.

Fixpoint marshal_all (l : list Slice) : list string * bool :=
  match l with
  | [] => ([], true)
  | sl :: rest => match json_of_slice sl with Some t => let '(ts, b) := marshal_all rest in (t :: ts, b) | None => ([], false) end
  end.

Context {S : Type} `{SliceStore S}.

(** [raw] are the stored lines and the corrupt ones dropped, for a store that has them. *)
Definition Export (raw : option (result (list string * Z))) (ok : nat -> bool) (s : S) : list string * Z * option string :=
  match raw with
  | Some (Err e) => ([], 0, Some e)
  | Some (Ok (ls, skipped)) => let '(w, b) := write_lines ok 0 ls in (w, skipped, if b then None else Some "write"%string)
  | None =>
      match store_list s with
      | Err e => ([], 0, Some e)
      | Ok all =>
          let '(ls, marshalled) := marshal_all all in
          let '(w, b) := write_lines ok 0 ls in
          (w, 0, if b then (if marshalled then None else Some "json"%string) else Some "write"%string)
      end
  end.
End Exporting.

(** The bytes of a backup. *)
Definition backup (ls : list string) : string := join "" (map (fun l => l +:+ lf_string) ls).

(** ** The eviction pass *)

Record GCOptions := mkGC {
  RetentionDays : Z;
  MinWeight : f64;
  gc_DryRun : bool;
  MaxSlices : Z;
  gc_Rescore : bool;
  Params : ScoreParams;
  Now : Z;
  ArchivePath : string;
}.

Record GCResult := mkGCResult {
  gc_Checked : Z;
  gc_Removed : Z;
  Expired : list string;
  LowScore : list string;
  OverCap : list string;
  EvictedByType : gmap string Z;
  Capacity : Z;
  Archived : Z;
  RescoredWeights : Z;
}.
#[export] Instance GCResult_eta : Eta GCResult := fun r =>
  mkGCResult (gc_Checked r) (gc_Removed r) (Expired r) (LowScore r) (OverCap r) (EvictedByType r) (Capacity r) (Archived r) (RescoredWeights r).

Definition gc_expired (opts : GCOptions) (now : Z) (sl : Slice) : bool :=
  (0 <? RetentionDays opts) && (0 <? CreatedAt sl) && (CreatedAt sl <? now -! (RetentionDays opts *! 86400)).
Definition gc_low (opts : GCOptions) (sl : Slice) : bool :=
  (MinWeight opts >? f0)%f64 && (Weight sl >? f0)%f64 && (Weight sl <? MinWeight opts)%f64.

Definition grace_protected (grace now : Z) (sl : Slice) : bool :=
  (0 <? grace) && (0 <? CreatedAt sl) && (now -! CreatedAt sl <? grace).

(** Grace, type, weight, age, identifier. *)
Definition evict_less (grace now : Z) (a b : Slice) : bool :=
  let pa := grace_protected grace now a in
  let pb := grace_protected grace now b in
  if negb (eqb pa pb) then negb pa
  else if negb (EvictPriorityOf (SType a) =? EvictPriorityOf (SType b)) then EvictPriorityOf (SType a) <? EvictPriorityOf (SType b)
  else if negb (Weight a =? Weight b)%f64 then (Weight a <? Weight b)%f64
  else if negb (CreatedAt a =? CreatedAt b) then CreatedAt a <? CreatedAt b
  else string_less (ID a) (ID b).

(** The slices below the thresholds, and those the cap evicts among the others. *)
Definition below (opts : GCOptions) (now : Z) (sl : Slice) : bool := gc_expired opts now sl || gc_low opts sl.

Definition over_cap (to_int64 : f64 -> Z) (opts : GCOptions) (now : Z) (live : list Slice) : list Slice :=
  if 0 <? MaxSlices opts then
    let over := Z.of_nat (length live) - MaxSlices opts in
    if 0 <? over then
      let grace := to_int64 (GraceDays (withDefaults (Params opts)) * f_of_int 86400)%f64 in
      take (Z.to_nat over) (go_sort (evict_less grace now) live)
    else []
  else [].

Record archive_io := mkArchive { ar_open : bool; ar_write : nat -> bool; ar_sync : bool }.

(** The lines of the evicted slices; [Err] stands for what failed. *)
Definition archive_lines (io : archive_io) (ls : result (list string)) : result Z * list string :=
  if negb (ar_open io) then (Err "open"%string, [])
  else match ls with
       | Err e => (Err e, [])
       | Ok ls =>
           let '(w, b) := write_lines (ar_write io) 0 ls in
           (if b && ar_sync io then Ok (Z.of_nat (length w)) else Err "archive"%string, w)
       end.

Section GC.
Context (json_of_slice : Slice -> option string) (math_exp : f64 -> f64) (to_int64 : f64 -> Z) (clock : Z).
Context {S : Type} `{SliceStore S}.
(** Folding with a callback and folding, where the store has them; its raw lines by
    identifier. *)
Context (compact_with : option ((list Slice -> list Slice) -> st S unit)) (compact : option (st S unit))
  (raw_lines : option (S -> result (list (string * string)))).

(** A line that cannot be written stops the archive after the ones before it. *)
Definition archiveEvicted (io : archive_io) (all : list Slice) (evict : gset string) (s : S) : result Z * list string :=
  match raw_lines with
  | Some raw =>
      archive_lines io (match raw s with Ok ls => Ok (map snd (List.filter (fun l => bool_decide (l.1 ∈ evict)) ls)) | Err e => Err e end)
  | None =>
      let '(ls, marshalled) := marshal_all json_of_slice (List.filter (fun sl => bool_decide (ID sl ∈ evict)) all) in
      let '(r, w) := archive_lines io (Ok ls) in
      (if is_ok r && negb marshalled then Err "json"%string else r, w)
  end.

Definition reweighed (weights : gmap string f64) (sl : Slice) : Slice :=
  match weights !! ID sl with Some w => sl <| Weight := w |> | None => sl end.

(** What the fold keeps. *)
Definition folded (all : list Slice) (evict : gset string) (live : list Slice) : list Slice :=
  let weights : gmap string f64 := foldl (fun m sl => <[ID sl := Weight sl]> m) ∅ all in
  map (reweighed weights) (List.filter (fun sl => negb (bool_decide (ID sl ∈ evict))) live).

(** Without folding, slice by slice. *)
Definition apply_each (rescore : bool) (all : list Slice) (evict : gset string) : st S unit :=
  st_each store_delete (sort_strings (elements evict)) ;!
  (if rescore then st_each (fun sl => if bool_decide (ID sl ∈ evict) then st_ret tt else store_put sl) all else st_ret tt).

Definition apply_gc (opts : GCOptions) (all : list Slice) (evict : gset string) (changed : bool) : st S unit :=
  if changed then
    match compact_with with
    | Some fold => fold (folded all evict)
    | None => apply_each (gc_Rescore opts) all evict
    end
  else match compact with Some c => c | None => st_ret tt end.

(** The identifiers below the thresholds, the slices the cap evicts, all that goes. *)
Definition gc_thresholds (now : Z) (opts : GCOptions) (all : list Slice) : gset string :=
  list_to_set (map ID (List.filter (below opts now) all)).
Definition gc_over (now : Z) (opts : GCOptions) (all : list Slice) : list Slice :=
  over_cap to_int64 opts now (List.filter (fun sl => negb (bool_decide (ID sl ∈ gc_thresholds now opts all))) all).
Definition gc_evict (now : Z) (opts : GCOptions) (all : list Slice) : gset string :=
  gc_thresholds now opts all ∪ list_to_set (map ID (gc_over now opts all)).

Definition gc_now (opts : GCOptions) : Z := if Now opts =? 0 then clock else Now opts.

(** The listing the decision is taken on, and how many weights changed. *)
Definition gc_scored (opts : GCOptions) (all : list Slice) : list Slice * Z :=
  if gc_Rescore opts then Rescore math_exp all (gc_now opts) (Params opts) else (all, 0).

Definition gc_result (opts : GCOptions) (all : list Slice) (rescored : Z) : GCResult :=
  let now := gc_now opts in
  let over := gc_over now opts all in
  mkGCResult (Z.of_nat (length all)) (Z.of_nat (size (gc_evict now opts all)))
    (map ID (List.filter (gc_expired opts now) all)) (map ID (List.filter (gc_low opts) all)) (map ID over)
    (foldl (fun m sl => <[type_string (SType sl) := default 0 (m !! type_string (SType sl)) +! 1]> m) ∅ over)
    (MaxSlices opts) 0 rescored.

(** The result, the error, the lines archived and the store. *)
Definition GC (io : archive_io) (opts : GCOptions) (s : S) : GCResult * option string * list string * S :=
  match store_list s with
  | Err e => (mkGCResult 0 0 [] [] [] ∅ (MaxSlices opts) 0 0, Some e, [], s)
  | Ok listed =>
      let '(all, rescored) := gc_scored opts listed in
      let evict := gc_evict (gc_now opts) opts all in
      let res := gc_result opts all rescored in
      if gc_DryRun opts then (res, None, [], s)
      else
        let '(archived, written) :=
          if negb (ArchivePath opts =? "")%string && (0 <? Z.of_nat (size evict)) then archiveEvicted io all evict s else (Ok 0, []) in
        match archived with
        | Err e => (res, Some e, written, s)
        | Ok n =>
            let res := res <| Archived := n |> in
            match apply_gc opts all evict ((0 <? Z.of_nat (size evict)) || (0 <? rescored)) s with
            | (Ok _, s) => (res, None, written, s)
            | (Err e, s) => (res, Some e, written, s)
            end
        end
  end.
End GC.

(** ** Comparators that separate *)

Record separating {A} (P : A -> Prop) (key : A -> string) (less : A -> A -> bool) : Prop := {
  sp_asym : forall x y, P x -> P y -> less x y = true -> less y x = false;
  sp_cotrans : forall x y z, P x -> P y -> P z -> not_after less x y -> not_after less y z -> not_after less x z;
  sp_key : forall x y, P x -> P y -> less x y = false -> less y x = false -> key x = key y;
}.

Lemma separating_key {A} (P : A -> Prop) (key : A -> string) : separating P key (fun a b => string_less (key a) (key b)).
Proof.
  split; unfold not_after.
  - intros x y _ _. apply string_less_asym.
  - intros x y z _ _ _. apply string_less_cotrans.
  - intros x y _ _. apply string_less_total.
Qed.

(** An integer first. *)
Lemma separating_int {A} (P : A -> Prop) key less (k : A -> Z) :
  separating P key less -> separating P key (fun a b => if negb (k a =? k b) then k a <? k b else less a b).
Proof.
  intros [Ha Hc Hs]. unfold not_after in *. split.
  - intros x y Px Py. rewrite (Z.eqb_sym (k y)). destruct (Z.eqb_spec (k x) (k y)); cbn [negb]; [by apply Ha|]. intros ?%Z.ltb_lt. apply Z.ltb_ge. lia.
  - unfold not_after. intros x y z Px Py Pz. specialize (Hc x y z Px Py Pz).
    destruct (Z.eqb_spec (k y) (k x)), (Z.eqb_spec (k z) (k y)), (Z.eqb_spec (k z) (k x)); cbn [negb]; try lia; auto; intros; go_bool; apply Z.ltb_ge; lia.
  - intros x y Px Py. rewrite (Z.eqb_sym (k y)). destruct (Z.eqb_spec (k x) (k y)); cbn [negb]; [by apply Hs|]. rewrite !Z.ltb_ge. lia.
Qed.

(** A float first, not NaN. *)
Lemma separating_float {A} (P : A -> Prop) key less (w : A -> f64) : (forall x, P x -> is_nan (w x) = false) ->
  separating P key less -> separating P key (fun a b => if negb (w a =? w b)%f64 then (w a <? w b)%f64 else less a b).
Proof.
  intros Hw [Ha Hc Hs]. unfold not_after in *.
  assert (Hn : forall x y, P x -> P y -> (if negb (w y =? w x)%f64 then (w y <? w x)%f64 else less y x) = false <->
    (w y <? w x)%f64 = false /\ ((w x =? w y)%f64 = true -> less y x = false)).
  { intros x y Px Py. rewrite (feqb_sym (w y)). destruct (w x =? w y)%f64 eqn:E; cbn [negb]; [|naive_solver].
    rewrite (feqb_not_lt _ _ E). naive_solver. }
  split.
  - intros x y Px Py. rewrite (feqb_sym (w y)). destruct (w x =? w y)%f64; cbn [negb]; [by apply Ha|apply fltb_asym].
  - unfold not_after. intros x y z Px Py Pz. rewrite !Hn by done. intros [H1 K1] [H2 K2]. split; [by apply (fltb_cotrans (w x) (w y)); auto|].
    intros E. rewrite feqb_sym in E. destruct (feqb_cycle (w z) (w y) (w x)) as [E1 E2]; [auto..|].
    rewrite feqb_sym in E1, E2. apply (Hc x y z); auto.
  - intros x y Px Py. rewrite (feqb_sym (w y)). destruct (w x =? w y)%f64 eqn:E; cbn [negb]; [by apply Hs|].
    intros H1 H2. exfalso. apply not_true_iff_false in E. apply E, feqb_key. split; [auto|]. split; [auto|].
    revert H1 H2. rewrite !fltb_false. unfold flt. rewrite !Hw by done.
    destruct (fkey (w x)) as [[??]?], (fkey (w y)) as [[??]?]. simpl. intros H1 H2. repeat f_equal; lia.
Qed.

Lemma separating_ext {A} (P : A -> Prop) key (less less' : A -> A -> bool) :
  (forall a b, less a b = less' a b) -> separating P key less -> separating P key less'.
Proof.
  intros E [Ha Hc Hs]. unfold not_after in *. split.
  - intros x y. rewrite <- !E. apply Ha.
  - unfold not_after. intros x y z. rewrite <- !E. apply Hc.
  - intros x y. rewrite <- !E. apply Hs.
Qed.

Lemma evict_less_separating grace now : separating (fun s => is_nan (Weight s) = false) ID (evict_less grace now).
Proof.
  set (P := fun s => is_nan (Weight s) = false). pose proof (separating_key P ID) as H0. apply (separating_int _ _ _ CreatedAt) in H0.
  apply (separating_float _ _ _ Weight) in H0; [|done]. apply (separating_int _ _ _ (fun s => EvictPriorityOf (SType s))) in H0.
  apply (separating_int _ _ _ (fun s => if grace_protected grace now s then 1 else 0)) in H0.
  eapply separating_ext; [|exact H0]. intros a b. unfold evict_less. by destruct (grace_protected grace now a), (grace_protected grace now b).
Qed.

(** ** The plan *)

Lemma elem_of_filter_bool {A} (f : A -> bool) x l : x ∈ List.filter f l <-> x ∈ l /\ f x = true.
Proof. rewrite !list_elem_of_In. apply List.filter_In. Qed.

Lemma filter_NoDup {A B} (g : A -> B) (f : A -> bool) l : NoDup (map g l) -> NoDup (map g (List.filter f l)).
Proof.
  induction l as [|x l IH]; [done|]. cbn [map]. intros [Hx Hn]%NoDup_cons. cbn. destruct (f x); [|by apply IH].
  constructor; [|by apply IH]. intros (y & E & Hy)%list_elem_of_fmap. apply Hx, list_elem_of_fmap. exists y. split; [done|].
  by apply elem_of_filter_bool in Hy as [? _].
Qed.

Lemma elem_of_ids_set (l : list Slice) id : id ∈ (list_to_set (map ID l) : gset string) <-> exists sl, sl ∈ l /\ ID sl = id.
Proof. rewrite elem_of_list_to_set, list_elem_of_fmap. naive_solver. Qed.

Lemma same_id l (x y : Slice) : NoDup (map ID l) -> x ∈ l -> y ∈ l -> ID x = ID y -> x = y.
Proof. apply NoDup_map_inj. Qed.

Section Plan.
Context (to_int64 : f64 -> Z) (opts : GCOptions) (now : Z).

Definition weighed (l : list Slice) : Prop := Forall (fun s => is_nan (Weight s) = false) l.

Abbreviation grace := (to_int64 (GraceDays (withDefaults (Params opts)) * f_of_int 86400)%f64).

Lemma over_cap_spec live : NoDup (map ID live) -> weighed live ->
  let over := over_cap to_int64 opts now live in
  exists rest, live ≡ₚ over ++ rest
    /\ (0 < MaxSlices opts -> Z.of_nat (length rest) <= MaxSlices opts)
    /\ (over <> [] -> 0 < MaxSlices opts /\ Z.of_nat (length rest) = MaxSlices opts)
    /\ forall x y, x ∈ over -> y ∈ rest -> evict_less grace now y x = false.
Proof.
  intros Hn Hw over. subst over. unfold over_cap.
  destruct (Z.ltb_spec 0 (MaxSlices opts)) as [Hm|Hm].
  2:{ exists live. split; [done|]. split; [lia|]. split; [done|]. by intros x y ?%not_elem_of_nil. }
  destruct (Z.ltb_spec 0 (Z.of_nat (length live) - MaxSlices opts)) as [Ho|Ho].
  2:{ exists live. split; [done|]. split; [lia|]. split; [done|]. by intros x y ?%not_elem_of_nil. }
  set (n := Z.to_nat _). set (sorted := go_sort _ live). exists (drop n sorted).
  assert (Hl : length sorted = length live) by (unfold sorted; apply go_sort_length).
  split; [rewrite take_drop; unfold sorted; by rewrite go_sort_perm|]. split; [rewrite length_drop; lia|]. split; [rewrite length_drop; lia|].
  intros x y Hx Hy. destruct (evict_less_separating grace now) as [Ha Hc _].
  assert (Hs : StronglySorted (not_after (evict_less grace now)) sorted).
  { apply (go_sort_sorted _ (fun s => is_nan (Weight s) = false)); [exact Ha|exact Hc|exact Hw]. }
  rewrite <- (take_drop n sorted) in Hs. exact (StronglySorted_app_1_elem_of _ _ _ _ _ Hs Hx Hy).
Qed.

Lemma over_cap_perm live live' : NoDup (map ID live) -> weighed live -> live ≡ₚ live' ->
  over_cap to_int64 opts now live = over_cap to_int64 opts now live'.
Proof.
  intros Hn Hw Hp. unfold over_cap. rewrite (Permutation_length Hp). destruct (evict_less_separating grace now) as [Ha Hc Hk].
  replace (go_sort (evict_less grace now) live') with (go_sort (evict_less grace now) live); [done|].
  apply (go_sort_perm_eq _ (fun s => is_nan (Weight s) = false)); try done.
  intros x y Hx Hy H1 H2. unfold weighed in Hw. rewrite Forall_forall in Hw. apply (same_id live); [done..|]. apply Hk; auto.
Qed.

Lemma thresholds_spec all sl : NoDup (map ID all) -> sl ∈ all -> ID sl ∈ gc_thresholds now opts all <-> below opts now sl = true.
Proof.
  intros Hn Hin. unfold gc_thresholds. rewrite elem_of_ids_set. split.
  - intros (x & [Hx Hb]%elem_of_filter_bool & E). by rewrite <- (same_id all x sl).
  - intros Hb. exists sl. split; [|done]. by apply elem_of_filter_bool.
Qed.

Abbreviation above all := (List.filter (fun sl => negb (bool_decide (ID sl ∈ gc_thresholds now opts all))) all).

Lemma above_elem all sl : NoDup (map ID all) -> sl ∈ above all <-> sl ∈ all /\ below opts now sl = false.
Proof.
  intros Hn. rewrite elem_of_filter_bool. split; intros [Hin Hb]; (split; [done|]).
  - apply negb_true_iff, bool_decide_eq_false in Hb. rewrite thresholds_spec in Hb by done. by destruct (below _ _ _).
  - apply negb_true_iff, bool_decide_eq_false. rewrite thresholds_spec by done. by rewrite Hb.
Qed.

(** C35: The eviction plan takes exactly the slices below a threshold and those over the
    cap.  A slice of unknown age never expires and one without a weight is never low;
    with a cap, at most that many slices stay, and exactly that many when the cap
    evicted any; what the cap evicts comes before everything that stays in the order of
    grace, type, weight, age and identifier; and the plan does not depend on the order
    in which the store lists its slices. *)
Theorem gc_plan all :
  NoDup (map ID all) -> weighed all ->
  let evict := gc_evict to_int64 now opts all in
  let over := gc_over to_int64 now opts all in
  let kept := List.filter (fun sl => negb (bool_decide (ID sl ∈ evict))) all in
  (forall sl, sl ∈ all -> ID sl ∈ evict <-> (gc_expired opts now sl = true \/ gc_low opts sl = true \/ sl ∈ over))
  /\ (forall sl, (CreatedAt sl <= 0 -> gc_expired opts now sl = false) /\ ((Weight sl <=? f0)%f64 = true -> gc_low opts sl = false))
  /\ (0 < MaxSlices opts -> Z.of_nat (length kept) <= MaxSlices opts)
  /\ (over <> [] -> Z.of_nat (length kept) = MaxSlices opts)
  /\ (forall x y, x ∈ over -> y ∈ kept -> evict_less grace now y x = false)
  /\ forall all', all ≡ₚ all' -> gc_evict to_int64 now opts all' = evict.
Proof.
  intros Hn Hw evict over kept.
  assert (Hna : NoDup (map ID (above all))) by by apply filter_NoDup.
  assert (Hwa : weighed (above all)).
  { apply Forall_forall. intros x [Hx _]%elem_of_filter_bool. unfold weighed in Hw. rewrite Forall_forall in Hw. by apply Hw. }
  destruct (over_cap_spec (above all) Hna Hwa) as (rest & Hp & Hle & Heq & Hord). fold (gc_over to_int64 now opts all) in Hp, Heq, Hord. fold over in Hp, Heq, Hord.
  assert (Hnd : NoDup (map ID over ++ map ID rest)) by (rewrite <- map_app; by rewrite <- Hp). apply NoDup_app in Hnd as (Hno & Hdis & Hnr).
  assert (Hev : forall sl, sl ∈ all -> ID sl ∈ evict <-> (below opts now sl = true \/ sl ∈ over)).
  { intros sl Hin. unfold evict, gc_evict. rewrite elem_of_union, thresholds_spec by done. fold over. rewrite elem_of_ids_set.
    split; (intros [?|Hx]; [by left|right]); [|by exists sl]. destruct Hx as (x & Hx & E). rewrite <- (same_id all x sl); [done..| |done|done].
    assert (Hxa : x ∈ above all) by (rewrite Hp; apply elem_of_app; by left). by apply elem_of_filter_bool in Hxa as [? _]. }
  assert (Hkr : kept ≡ₚ rest).
  { apply NoDup_Permutation.
    - apply (NoDup_fmap_1 ID). by apply filter_NoDup.
    - by apply (NoDup_fmap_1 ID).
    - intros x. unfold kept. rewrite elem_of_filter_bool, negb_true_iff, bool_decide_eq_false. split.
      + intros [Hin Hx]. rewrite Hev in Hx by done. assert (Hxa : x ∈ above all) by (apply above_elem; [done|]; split; [done|]; by destruct (below opts now x); [destruct Hx; left|]).
        rewrite Hp in Hxa. apply elem_of_app in Hxa as [?|?]; [|done]. by destruct Hx; right.
      + intros Hx. assert (Hxa : x ∈ above all) by (rewrite Hp; apply elem_of_app; by right). apply above_elem in Hxa as [Hin Hb]; [|done].
        split; [done|]. rewrite Hev by done. rewrite Hb. intros [|Ho]; [done|]. apply (Hdis (ID x)); apply list_elem_of_fmap; by exists x. }
  split; [|split; [|split; [|split; [|split]]]].
  - intros sl Hin. rewrite Hev by done. unfold below. rewrite orb_true_iff. tauto.
  - intros sl. unfold gc_expired, gc_low. split; intros Hx.
    + destruct (Z.ltb_spec 0 (CreatedAt sl)); [lia|]. by rewrite andb_false_r.
    + assert (E : (Weight sl >? f0)%f64 = false) by (apply not_true_iff_false; intros Hy; assert (fltb f0 f0 = true) by eauto using fltb_fleb_trans; by rewrite fltb_irrefl in *).
      by rewrite E, andb_false_r.
  - intros Hm. rewrite (Permutation_length Hkr). by apply Hle.
  - intros Ho. rewrite (Permutation_length Hkr). by apply Heq.
  - intros x y Hx Hy. apply Hord; [done|]. by rewrite <- Hkr.
  - intros all' Hp'. unfold evict, gc_evict. assert (Ht : gc_thresholds now opts all' = gc_thresholds now opts all).
    { apply set_eq. intros id. unfold gc_thresholds. rewrite !elem_of_ids_set. setoid_rewrite elem_of_filter_bool. by setoid_rewrite Hp'. }
    rewrite Ht. f_equal. apply set_eq. intros id. rewrite !elem_of_ids_set. unfold gc_over. rewrite Ht.
    rewrite <- (over_cap_perm (above all)); [done..|]. by rewrite Hp'.
Qed.
End Plan.

(** ** The pass on a store *)

(** The same slice but for its weight and its vector. *)
Definition same_card (x y : Slice) : Prop := y <| Weight := Weight x |> <| Embedding := Embedding x |> = x.
(** The same, or the same after admission, which lowers the scope of tool patterns and
    results from the user to the project. *)
Definition readmitted (x y : Slice) : Prop := same_card x y \/ same_card (EnforceAdmission x).1 y.

Lemma same_card_refl x : same_card x x.
Proof. by destruct x. Qed.

Lemma same_card_ID x y : same_card x y -> ID y = ID x.
Proof. intros E. by apply (f_equal ID) in E. Qed.

Lemma seen_fields sl : ID (seen sl) = ID sl /\ SType (seen sl) = SType sl /\ Meta (seen sl) = Meta sl.
Proof. unfold seen, EnforceAdmission. destruct (decide (SScope sl <> User)); [done|]. destruct (SType sl) eqn:E; by rewrite <- ?E. Qed.

Lemma same_card_seen x y : same_card x y -> readmitted x (seen y).
Proof.
  unfold readmitted, same_card. intros <-. right. destruct y as [id t sc c e st w m ca]. unfold seen, EnforceAdmission. simpl.
  destruct (decide (sc <> User)); [done|]. by destruct t.
Qed.

Lemma Rescore_cards math_exp all now p : Forall2 same_card all (Rescore math_exp all now p).1.
Proof.
  unfold Rescore. induction all as [|x all IH]; cbn; [constructor|]. destruct (foldr _ _ all) as [l n]. cbn in *.
  destruct (feqb _ _); cbn; (constructor; [by destruct x|done]).
Qed.

Lemma same_cards_ids l l' : Forall2 same_card l l' -> map ID l' = map ID l.
Proof. induction 1 as [|x y l l' E%same_card_ID _ IH]; [done|]. cbn. by rewrite E, IH. Qed.

Section Apply.
Context (json_of_slice : Slice -> option string) (math_exp : f64 -> f64) (to_int64 : f64 -> Z) (clock : Z).
Context {S : Type} `{SliceStore S} (contents : S -> gmap string Slice) (usable : S -> Prop) `{!SliceStoreLaws S contents usable}.
Context (compact_with : option ((list Slice -> list Slice) -> st S unit)) (compact : option (st S unit))
  (raw_lines : option (S -> result (list (string * string)))).
(** Folding installs what the callback makes of the listing, without vectors; plain
    folding keeps the contents. *)
Hypothesis fold_law : forall fold f s s', compact_with = Some fold -> usable s -> fold f s = (Ok tt, s') ->
  forall l, store_list s = Ok l -> NoDup (map ID (f l)) -> Forall (fun sl => ID sl <> ""%string) (f l) -> contents s' = by_id (f l).
Hypothesis compact_law : forall c s s', compact = Some c -> usable s -> c s = (Ok tt, s') -> contents s' = contents s.

(** What is left of each slice: folding keeps it as it is, putting it again admits it
    again. *)
Definition kept_as : Slice -> Slice -> Prop := match compact_with with Some _ => same_card | None => readmitted end.
Definition applied (evict : gset string) (M M' : gmap string Slice) : Prop :=
  forall id, match M !! id with
             | Some x => if decide (id ∈ evict) then M' !! id = None else exists y, M' !! id = Some y /\ kept_as x y
             | None => M' !! id = None
             end.

Lemma delete_each_ok ids s s' : usable s -> st_each store_delete ids s = (Ok tt, s') ->
  usable s' /\ forall id, contents s' !! id = if decide (id ∈ ids) then None else contents s !! id.
Proof.
  revert s. induction ids as [|i ids IH]; intros s Hu Hrun; cbn [st_each] in Hrun.
  { unfold st_ret in Hrun. injection Hrun as <-. split; [done|]. intros id. rewrite decide_False; [done|]. apply not_elem_of_nil. }
  apply st_bind_ok in Hrun as ([] & s1 & Hd & Hrest). destruct (law_delete _ _ _ Hu Hd) as [Hu1 Hc].
  destruct (IH s1 Hu1 Hrest) as [Hu' Hk]. split; [done|]. intros id. rewrite Hk, Hc. destruct (decide (id ∈ ids)) as [Hin|Hin].
  - rewrite decide_True; [done|by right].
  - destruct (decide (id = i)) as [->|Hne]; [rewrite lookup_delete_eq, decide_True; [done|left]|].
    rewrite lookup_delete_ne by done. rewrite decide_False; [done|]. by intros [?|?]%elem_of_cons.
Qed.

Lemma put_each_ok (evict : gset string) all s s' : usable s -> NoDup (map ID all) -> Forall (fun sl => ID sl <> ""%string) all ->
  st_each (fun sl => if bool_decide (ID sl ∈ evict) then st_ret tt else store_put sl) all s = (Ok tt, s') ->
  usable s' /\ (forall sl, sl ∈ all -> ID sl ∉ evict -> contents s' !! ID sl = Some (seen sl))
  /\ forall id, (id ∉ map ID all \/ id ∈ evict) -> contents s' !! id = contents s !! id.
Proof.
  revert s. induction all as [|x all IH]; intros s Hu Hn Hid Hrun; cbn [st_each map] in *.
  { unfold st_ret in Hrun. injection Hrun as <-. split; [done|]. split; [by intros sl ?%not_elem_of_nil|done]. }
  apply NoDup_cons in Hn as [Hx Hn]. apply Forall_cons in Hid as [Hxid Hid]. apply st_bind_ok in Hrun as ([] & s1 & Hp & Hrest).
  assert (H1 : usable s1 /\ (ID x ∉ evict -> contents s1 !! ID x = Some (seen x)) /\ forall id, (id <> ID x \/ id ∈ evict) -> contents s1 !! id = contents s !! id).
  { destruct (bool_decide_reflect (ID x ∈ evict)) as [He|He]; [unfold st_ret in Hp; by injection Hp as <-|].
    destruct (law_put _ _ _ Hu Hxid Hp) as [Hu1 ->]. split; [done|]. split; [by rewrite lookup_insert_eq|].
    intros id [Hne|Hie]; [by rewrite lookup_insert_ne|]. rewrite lookup_insert_ne; [done|]. intros E. by subst id. }
  destruct H1 as (Hu1 & Hx1 & Ho1). destruct (IH s1 Hu1 Hn Hid Hrest) as (Hu' & Hin & Hout). split; [done|]. split.
  - intros sl [->|Hsl]%elem_of_cons Hev; [rewrite Hout by (by left); by apply Hx1|by apply Hin].
  - intros id Hid'. rewrite not_elem_of_cons in Hid'. rewrite Hout by tauto. apply Ho1. tauto.
Qed.

Lemma listing_lookup s l id x : usable s -> store_list s = Ok l -> contents s !! id = Some x <-> x ∈ l /\ ID x = id.
Proof.
  intros Hu El. destruct (law_list _ _ Hu El) as [_ Hl]. rewrite Hl. split.
  - intros Hx. rewrite (law_keyed _ _ _ Hx). by split.
  - intros [Hx <-]. exact Hx.
Qed.

Lemma by_id_lookup (l : list Slice) id y : NoDup (map ID l) -> by_id l !! id = Some y <-> exists x, x ∈ l /\ ID x = id /\ y = (x <| Embedding := None |>).
Proof.
  intros Hn. unfold by_id. rewrite <- elem_of_list_to_map.
  - rewrite list_elem_of_fmap. split; [intros (x & [= -> ->] & ?); by exists x|]. intros (x & Hx & <- & ->). by exists x.
  - change (NoDup (map fst (map (fun sl => (ID sl, sl <| Embedding := None |>)) l))). by rewrite map_map.
Qed.

Lemma applied_intro evict (M M' : gmap string Slice) :
  (forall id x, M !! id = Some x -> id ∈ evict -> M' !! id = None) ->
  (forall id x, M !! id = Some x -> id ∉ evict -> exists y, M' !! id = Some y /\ kept_as x y) ->
  (forall id, M !! id = None -> M' !! id = None) -> applied evict M M'.
Proof. intros H1 H2 H3 id. destruct (M !! id) as [x|] eqn:E; [|by apply H3]. destruct (decide _); eauto. Qed.

Lemma kept_as_refl x : kept_as x x.
Proof. clear fold_law compact_law. unfold kept_as, readmitted. destruct compact_with; [|left]; apply same_card_refl. Qed.

Lemma reweighed_card W x : same_card x (reweighed W x).
Proof. unfold reweighed, same_card. destruct (W !! ID x); by destruct x. Qed.

Lemma stripped_card x y : same_card x y -> same_card x (y <| Embedding := None |>).
Proof. unfold same_card. by destruct y. Qed.

Lemma folded_ids (all l : list Slice) (evict : gset string) : NoDup (map ID l) -> NoDup (map ID (folded all evict l)).
Proof.
  intros Hn. unfold folded. rewrite map_map. erewrite map_ext by (intros x; exact (same_card_ID _ _ (reweighed_card (foldl (fun m sl => <[ID sl := Weight sl]> m) ∅ all) x))).
  by apply filter_NoDup.
Qed.

Lemma elem_of_folded all l (evict : gset string) y : y ∈ folded all evict l -> exists x, x ∈ l /\ (ID x ∉ evict) /\ same_card x y.
Proof.
  unfold folded. intros (x & -> & Hx)%list_elem_of_fmap. apply elem_of_filter_bool in Hx as [Hx He].
  apply negb_true_iff, bool_decide_eq_false in He. exists x. split; [done|]. split; [done|apply reweighed_card].
Qed.

Lemma folded_applied fold s l all evict : compact_with = Some fold -> usable s -> store_list s = Ok l -> applied evict (contents s) (by_id (folded all evict l)).
Proof.
  intros Hw Hu El. destruct (law_list _ _ Hu El) as [Hn _]. pose proof (folded_ids all l evict Hn) as Hnk.
  assert (Hlk : forall id y, by_id (folded all evict l) !! id = Some y -> exists x, x ∈ l /\ ID x = id /\ id ∉ evict).
  { intros id y (z & Hz & <- & _)%by_id_lookup; [|done]. destruct (elem_of_folded _ _ _ _ Hz) as (x & Hx & He & E%same_card_ID). exists x. by rewrite E. }
  apply applied_intro.
  - intros id x _ He. apply eq_None_not_Some. intros [y E]. by destruct (Hlk id y E) as (? & _ & _ & ?).
  - intros id x Hx He. apply (listing_lookup s l) in Hx as [Hx E]; [|done..]. set (W := foldl (fun m sl => <[ID sl := Weight sl]> m) ∅ all : gmap string f64).
    exists (reweighed W x <| Embedding := None |>). split; [|unfold kept_as; rewrite Hw; apply stripped_card, reweighed_card]. apply by_id_lookup; [done|]. exists (reweighed W x).
    rewrite (same_card_ID _ _ (reweighed_card W x)). split; [|done]. apply list_elem_of_fmap. exists x. split; [done|].
    apply elem_of_filter_bool. split; [done|]. apply negb_true_iff, bool_decide_eq_false. by rewrite E.
  - intros id Hnone. apply eq_None_not_Some. intros [y E]. destruct (Hlk id y E) as (x & Hx & <- & _).
    assert (Hs : contents s !! ID x = Some x) by by apply (listing_lookup s l). congruence.
Qed.

Lemma each_applied s l all evict rescore s' : compact_with = None -> usable s -> store_list s = Ok l -> Forall2 same_card l all ->
  apply_each rescore all evict s = (Ok tt, s') -> applied evict (contents s) (contents s').
Proof.
  intros Hw Hu El Hall Hrun. destruct (law_list _ _ Hu El) as [Hn _]. unfold apply_each in Hrun.
  apply st_bind_ok in Hrun as ([] & s1 & Hd & Hrun). destruct (delete_each_ok _ _ _ Hu Hd) as [Hu1 Hc1].
  assert (Hev : forall id, id ∈ sort_strings (elements evict) <-> id ∈ evict) by (intros id; unfold sort_strings; by rewrite elem_of_go_sort, elem_of_elements).
  assert (Hc : forall id, contents s1 !! id = if decide (id ∈ evict) then None else contents s !! id).
  { intros id. rewrite Hc1. destruct (decide (id ∈ evict)); [by rewrite decide_True by by apply Hev|by rewrite decide_False by by rewrite Hev]. }
  clear Hc1. destruct rescore.
  2:{ unfold st_ret in Hrun. injection Hrun as <-. apply applied_intro; intros id.
      - intros x _ He. by rewrite Hc, decide_True.
      - intros x Hx He. exists x. rewrite Hc, decide_False by done. by split; [|apply kept_as_refl].
      - intros Hx. rewrite Hc. by destruct (decide _). }
  pose proof (same_cards_ids _ _ Hall) as Hids.
  assert (Hnamed : Forall (fun sl => ID sl <> ""%string) all).
  { apply Forall_forall. intros y Hy. assert (Hin : ID y ∈ map ID l) by (rewrite <- Hids; apply list_elem_of_fmap; by exists y).
    apply list_elem_of_fmap in Hin as (x & -> & Hx). eapply (law_named s); [done|]. by apply (listing_lookup s l). }
  destruct (put_each_ok evict all s1 s' Hu1) as (_ & Hin & Hout); [by rewrite Hids|done|done|].
  apply applied_intro; intros id.
  - intros x _ He. rewrite Hout by by right. by rewrite Hc, decide_True.
  - intros x Hx He. apply (listing_lookup s l) in Hx as [Hx E]; [|done..]. apply list_elem_of_lookup in Hx as [i Hi].
    destruct (Forall2_lookup_l _ _ _ _ _ Hall Hi) as (y & Hy & Hs). apply list_elem_of_lookup_2 in Hy.
    exists (seen y). split; [|unfold kept_as; rewrite Hw; by apply same_card_seen]. pose proof (same_card_ID _ _ Hs) as Hid. rewrite <- E, <- Hid. apply Hin; [done|]. by rewrite Hid, E.
  - intros Hx. rewrite Hout; [rewrite Hc; by destruct (decide _)|]. left. rewrite Hids. intros (x & -> & Hxl)%list_elem_of_fmap.
    assert (Hs : contents s !! ID x = Some x) by by apply (listing_lookup s l). congruence.
Qed.

Lemma write_all ok n ls w : write_lines ok n ls = (w, true) -> w = ls.
Proof.
  revert n w. induction ls as [|l ls IH]; intros n w; cbn; [by intros [= <-]|]. destruct (ok n); [|done].
  destruct (write_lines ok (n + 1) ls) as [w' b] eqn:E. intros [= <- ->]. f_equal. by eapply IH.
Qed.

Lemma marshal_every l ls : marshal_all json_of_slice l = (ls, true) -> forall sl, sl ∈ l -> exists t, json_of_slice sl = Some t /\ t ∈ ls.
Proof.
  revert ls. induction l as [|x l IH]; intros ls; cbn; [by intros _ sl ?%not_elem_of_nil|].
  destruct (json_of_slice x) as [t|] eqn:Ex; [|done]. destruct (marshal_all json_of_slice l) as [ts b] eqn:E. intros [= <- ->] sl [->|Hs]%elem_of_cons.
  - exists t. split; [done|left].
  - destruct (IH ts eq_refl sl Hs) as (t' & ? & ?). exists t'. split; [done|by right].
Qed.

Lemma archive_all io ls k w : archive_lines io (Ok ls) = (Ok k, w) -> w = ls.
Proof.
  unfold archive_lines. destruct (negb _); [done|]. destruct (write_lines _ 0 ls) as [w0 b] eqn:E.
  destruct b; cbn [andb]; [|done]. destruct (ar_sync io); [|done]. intros [= _ <-]. by eapply write_all.
Qed.

(** The archived lines of the evicted slices. *)
Definition archive_complete (all : list Slice) (evict : gset string) (s : S) (written : list string) : Prop :=
  forall sl, sl ∈ all -> ID sl ∈ evict ->
    match raw_lines with
    | Some raw => exists ls, raw s = Ok ls /\ written = map snd (List.filter (fun l => bool_decide (l.1 ∈ evict)) ls)
    | None => exists t, json_of_slice sl = Some t /\ t ∈ written
    end.

Lemma archiveEvicted_complete io all evict s k w :
  archiveEvicted json_of_slice raw_lines io all evict s = (Ok k, w) -> archive_complete all evict s w.
Proof.
  unfold archiveEvicted, archive_complete. intros Ea sl Hin Hev. destruct raw_lines as [raw|].
  - destruct (raw s) as [ls|e]; cbn in Ea; [|unfold archive_lines in Ea; by destruct (negb _)].
    apply archive_all in Ea. exists ls. by rewrite Ea.
  - destruct (marshal_all _ _) as [ls marshalled] eqn:Em. destruct (archive_lines io (Ok ls)) as [r w0] eqn:Ear.
    destruct r as [k0|]; [|done]. destruct marshalled; [|done]. injection Ea as _ <-. apply archive_all in Ear as ->.
    eapply marshal_every; [exact Em|]. apply elem_of_filter_bool. split; [done|]. by apply bool_decide_eq_true.
Qed.

Lemma apply_gc_applied opts s listed evict changed s' :
  usable s -> store_list s = Ok listed ->
  let all := (gc_scored math_exp clock opts listed).1 in
  (changed = false -> evict = ∅) ->
  apply_gc compact_with compact opts all evict changed s = (Ok tt, s') -> applied evict (contents s) (contents s').
Proof.
  intros Hu El all Hch Eg.
  assert (Hcards : Forall2 same_card listed all).
  { unfold all, gc_scored. destruct (gc_Rescore opts); [apply Rescore_cards|]. cbn. apply Forall_Forall2_diag, Forall_true. intros x. apply same_card_refl. }
  unfold apply_gc in Eg. destruct changed.
  - destruct compact_with as [fold|] eqn:Ew; [|by eapply each_applied].
    rewrite (fold_law fold _ s s' eq_refl Hu Eg listed El); [by eapply folded_applied| |].
    + apply folded_ids. by destruct (law_list _ _ Hu El).
    + apply Forall_forall. intros y Hy. destruct (elem_of_folded _ _ _ _ Hy) as (x & Hx & _ & ->%same_card_ID).
      eapply (law_named s); [done|]. by apply (listing_lookup s listed).
  - assert (Hsame : contents s' = contents s).
    { destruct compact as [c|]; [by eapply compact_law|]. unfold st_ret in Eg. by injection Eg as <-. }
    rewrite Hsame, Hch by done. apply applied_intro; intros id; [by intros x _ ?%not_elem_of_empty| |done].
    intros x Hx _. exists x. split; [done|apply kept_as_refl].
Qed.

(** C36: What an eviction pass leaves, on any store, whichever way it returns.  When the
    listing fails, and in a dry run, nothing changes.  With an archive the lines of
    every evicted slice are written before the store is touched: when the pass succeeds,
    and also when it fails with the store already changed.  A pass that returns nil has
    done what it decided: what was evicted is gone, and everything else is there with
    nothing but its weight rescored - and its vector, which is not kept in memory, and,
    on a store that cannot fold, its scope as admission leaves it. *)
Theorem GC_applied io opts s res e written s' :
  usable s -> GC json_of_slice math_exp to_int64 clock compact_with compact raw_lines io opts s = (res, e, written, s') ->
  match store_list s with
  | Err _ => e <> None /\ s' = s /\ written = []
  | Ok listed =>
      let all := (gc_scored math_exp clock opts listed).1 in
      let evict := gc_evict to_int64 (gc_now clock opts) opts all in
      if gc_DryRun opts then e = None /\ s' = s /\ written = []
      else (ArchivePath opts <> ""%string -> e = None \/ s' <> s -> archive_complete all evict s written)
           /\ (e = None -> applied evict (contents s) (contents s'))
  end.
Proof.
  intros Hu. unfold GC. destruct (store_list s) as [listed|er] eqn:El; [|by intros [= _ <- <- <-]].
  pose proof (fun evict changed => apply_gc_applied opts s listed evict changed s' Hu El) as Happ. cbv zeta in *.
  destruct (gc_scored math_exp clock opts listed) as [all n]. cbn [fst] in *.
  set (evict := gc_evict _ _ _ all) in *. destruct (gc_DryRun opts); [by intros [= _ <- <- <-]|].
  set (arch := if _ && (0 <? _) then _ else (Ok 0, [])). destruct arch as [archived w] eqn:Ea.
  destruct archived as [k|er]; [|intros [= _ <- <- <-]; split; [by intros _ [?|?]|done]].
  assert (Hcomplete : ArchivePath opts <> ""%string -> archive_complete all evict s w).
  { intros Hpath sl Hin Hev. subst arch. apply String.eqb_neq in Hpath. rewrite Hpath in Ea. cbn [negb andb] in Ea.
    assert (Hpos : (0 <? Z.of_nat (size evict)) = true).
    { apply Z.ltb_lt. destruct (size evict) eqn:Es; [|lia]. apply size_empty_inv, leibniz_equiv in Es. rewrite Es in Hev. by apply not_elem_of_empty in Hev. }
    rewrite Hpos in Ea. by eapply archiveEvicted_complete. }
  destruct (apply_gc _ _ _ _ _ _ s) as [[[]|er] s1] eqn:Eg; intros [= _ <- <- <-]; (split; [by intros; apply Hcomplete|]); [|done].
  intros _. eapply Happ; [|exact Eg]. intros [Hz%Z.ltb_ge _]%orb_false_iff. apply leibniz_equiv, size_empty_inv. lia.
Qed.
End Apply.

(** ** Import and the round trip *)

Section ImportLaws.
Context (slice_of_json : string -> option Slice) (origin : Origin).
Context {S : Type} `{SliceStore S} (contents : S -> gmap string Slice) (usable : S -> Prop) `{!SliceStoreLaws S contents usable}.

Definition accepted_of (l : import_line) : option Slice := match l with Accept sl => Some sl | _ => None end.
(** The slices a file offers, and how many of its lines are skipped. *)
Definition accepted (ls : list (string * Z)) : list Slice := omap (fun l => accepted_of (read_import slice_of_json origin l)) ls.
Definition skips (ls : list (string * Z)) : list (string * Z) :=
  List.filter (fun l => match read_import slice_of_json origin l with Skip => true | _ => false end) ls.

Definition put_all (l : list Slice) (M : gmap string Slice) : gmap string Slice := foldl (fun M sl => <[ID sl := seen sl]> M) M l.

(** What importing leaves of the claims of the file. *)
Definition untrusted (sl : Slice) : Prop :=
  MetaOrigin (Meta sl) = origin
  /\ (SType sl = Result -> MetaResultStatus (Meta sl) = ResultStatusProbation
       /\ ResultVerifiedBy (Meta sl) = ""%string /\ ResultVerificationEvidence (Meta sl) = ""%string).

Lemma put_all_union l M : put_all l M = put_all l ∅ ∪ M.
Proof.
  revert M. unfold put_all. induction l as [|x l IH] using rev_ind; intros M; [cbn; by rewrite (left_id_L ∅ (∪))|]. rewrite !foldl_snoc, IH. apply insert_union_l.
Qed.

Lemma put_all_again l M : put_all l (put_all l M) = put_all l M.
Proof. rewrite (put_all_union l (put_all l M)), (put_all_union l M), (assoc_L _). by rewrite (idemp_L (∪) (put_all l ∅)). Qed.

Lemma imported_slice_ID sl : ID (imported_slice origin sl) = ID sl.
Proof. unfold imported_slice. by destruct (decide _). Qed.

Lemma imported_slice_untrusted sl : untrusted (imported_slice origin sl).
Proof. unfold imported_slice, untrusted. destruct (decide _) as [E|E]; cbn in *; [done|]. by split. Qed.

Lemma untrusted_seen sl : untrusted sl -> untrusted (seen sl).
Proof. destruct (seen_fields sl) as (_ & Ht & Hm). unfold untrusted. by rewrite Ht, Hm. Qed.

Lemma accepted_sound ls sl : sl ∈ accepted ls -> ID sl <> ""%string /\ untrusted sl.
Proof.
  unfold accepted. rewrite list_elem_of_omap. intros (l & _ & E). unfold read_import in E.
  destruct (_ <? _); [done|]. destruct (_ =? _)%string; [done|]. destruct (slice_of_json _) as [x|]; [|done].
  destruct (String.eqb_spec (ID x) ""); [done|]. injection E as <-. rewrite imported_slice_ID. split; [done|apply imported_slice_untrusted].
Qed.

Lemma put_all_lookup l M id y : put_all l M !! id = Some y -> M !! id = Some y \/ exists sl, sl ∈ l /\ y = seen sl.
Proof.
  revert M. induction l as [|x l IH]; intros M; [by left|]. change (put_all (x :: l) M) with (put_all l (<[ID x := seen x]> M)).
  intros [Hy|(sl & Hin & ->)]%IH; [|right; exists sl; split; [by right|done]].
  destruct (decide (id = ID x)) as [->|Hne]; [rewrite lookup_insert_eq in Hy; injection Hy as <-; right; exists x; split; [left|done]|].
  rewrite lookup_insert_ne in Hy by done. by left.
Qed.

(** The lines read up to the first failing write, their slices put in order. *)
Lemma import_lines_spec ls i k s i' k' e s' : usable s ->
  import_lines slice_of_json origin ls i k s = (i', k', e, s') ->
  (exists done, done `prefix_of` accepted ls /\ contents s' = put_all done (contents s)
     /\ (e = None -> done = accepted ls /\ usable s'))
  /\ (e = None -> 0 <= i -> 0 <= k -> i + k + Z.of_nat (length ls) < 2 ^ 63 ->
        i' = i + Z.of_nat (length (accepted ls)) /\ k' = k + Z.of_nat (length (skips ls))).
Proof.
  revert i k s. induction ls as [|l ls IH]; intros i k s Hu Hrun; cbn [import_lines] in Hrun.
  { injection Hrun as <- <- <- <-. split; [exists []; split; [done|by split]|]. cbn. intros. lia. }
  unfold accepted, skips. cbn [omap list_omap List.filter length]. destruct (read_import slice_of_json origin l) as [| |sl] eqn:Er; cbn [accepted_of].
  - destruct (IH _ _ _ Hu Hrun) as [H1 H2]. split; [exact H1|]. intros. apply H2; [done..|lia].
  - destruct (IH _ _ _ Hu Hrun) as [H1 H2]. split; [exact H1|]. intros He Hi Hk Hb. rewrite i64_succ in H2 by (unfold in_i64; lia).
    cbn [length]. destruct H2 as [-> ->]; [done|lia..|]. unfold accepted, skips. lia.
  - assert (Hid : ID sl <> ""%string).
    { apply (accepted_sound (l :: ls) sl). unfold accepted. cbn. rewrite Er. cbn. left. }
    destruct (store_put sl s) as [[[]|er] s1] eqn:Ep.
    + destruct (law_put _ _ _ Hu Hid Ep) as [Hu1 Hc]. destruct (IH _ _ _ Hu1 Hrun) as [(dn & Hpre & Hk' & Hok) H2]. split.
      * exists (sl :: dn). split; [by apply prefix_cons|]. rewrite Hk', Hc. split; [done|]. intros He. by destruct (Hok He) as [-> ?].
      * intros He Hi Hk Hb. rewrite i64_succ in H2 by (unfold in_i64; lia). cbn [length]. destruct H2 as [-> ->]; [done|lia..|]. unfold accepted, skips. lia.
    + injection Hrun as <- <- <- <-. split; [|done]. destruct (law_put_failed _ _ _ _ Hu Hid Ep) as [Hc|Hc].
      * exists []. split; [by eexists|]. by rewrite Hc.
      * exists [sl]. split; [by eexists|]. by rewrite Hc.
Qed.

(** C37: Whatever a file says, every slice the store holds after an import was there
    before or has the origin of the channel and, when it is a result, is on probation
    without a verifier or evidence; an import that returns nil has put every line that
    parses into a keyed slice and counted the others but the blank ones, one that fails
    has put the first ones of them; and importing the file again changes nothing. *)
Theorem Import_untrusted data s i k e s' :
  usable s -> Z.of_nat (length (sized_lines (split_lines data))) < 2 ^ 63 ->
  Import slice_of_json origin data s = (i, k, e, s') ->
  let ls := sized_lines (split_lines data) in
  (forall id y, contents s' !! id = Some y -> contents s !! id = Some y \/ untrusted y)
  /\ (exists done, done `prefix_of` accepted ls /\ contents s' = put_all done (contents s))
  /\ (e = None -> contents s' = put_all (accepted ls) (contents s)
        /\ i = Z.of_nat (length (accepted ls)) /\ k = Z.of_nat (length (skips ls))
        /\ forall i2 k2 s2, Import slice_of_json origin data s' = (i2, k2, None, s2) -> contents s2 = contents s').
Proof.
  intros Hu Hb Hrun ls. unfold Import in *. fold ls in Hb, Hrun |- *.
  destruct (import_lines_spec _ _ _ _ _ _ _ _ Hu Hrun) as [(dn & Hpre & Hc & Hok) Hcount].
  split; [|split; [by exists dn|]].
  - intros id y. rewrite Hc. intros [?|(sl & Hin & ->)]%put_all_lookup; [by left|right]. apply untrusted_seen.
    apply (accepted_sound ls). destruct Hpre as [rest ->]. apply elem_of_app. by left.
  - intros He. destruct (Hok He) as [-> Hu']. destruct (Hcount He) as [-> ->]; [lia..|]. split; [done|]. do 2 (split; [lia|]).
    intros i2 k2 s2 Hagain. destruct (import_lines_spec _ _ _ _ _ _ _ _ Hu' Hagain) as [(d2 & _ & Hc2 & Hok2) _].
    destruct (Hok2 eq_refl) as [-> _]. rewrite Hc2, Hc. apply put_all_again.
Qed.
End ImportLaws.

Section RoundTrip.
Context (json_of_slice : Slice -> option string) (slice_of_json : string -> option Slice) (origin : Origin).
Context {S : Type} `{SliceStore S} (contents : S -> gmap string Slice) (usable : S -> Prop) `{!SliceStoreLaws S contents usable}.

(** A line of a backup decodes to its slice, up to the vector, and has no newline. *)
Definition codec_line (sl : Slice) (t : string) : Prop :=
  (exists v, slice_of_json (trim_space t) = Some (sl <| Embedding := v |>)) /\ trim_space t <> ""%string /\ free_of lf t.

(** The lines tell the slices of a store, each once. *)
Definition tells (ls : list string) (s : S) : Prop :=
  exists all, Forall2 codec_line all ls /\ NoDup (map ID all) /\ forall sl, sl ∈ all <-> contents s !! ID sl = Some sl.

Lemma backup_lines ls : Forall (free_of lf) ls -> split_lines (backup ls) = ls ++ [""%string].
Proof.
  unfold backup, split_lines. induction 1 as [|l ls Hl _ IH]; [done|].
  assert (E : join "" (map (fun l => l +:+ lf_string) (l :: ls)) = (l +:+ String lf (join "" (map (fun l => l +:+ lf_string) ls)))%string).
  { cbn [map]. destruct (map _ ls) as [|y r] eqn:Em; [done|]. rewrite join_cons, str_nil_l, string_app_assoc. done. }
  rewrite E, split_on_sep, IH by done. done.
Qed.

Lemma sized_backup ls : sized_lines (ls ++ [""%string]) = map (fun l => (l, slen l + 1)) ls.
Proof. induction ls as [|l ls IH]; [done|]. cbn [app sized_lines map]. destruct (ls ++ [""%string]) eqn:E; [by destruct ls|]. by rewrite IH. Qed.

Lemma marshal_all_zip l ls : marshal_all json_of_slice l = (ls, true) -> Forall2 (fun sl t => json_of_slice sl = Some t) l ls.
Proof.
  revert ls. induction l as [|x l IH]; intros ls; cbn; [intros [= <-]; constructor|].
  destruct (json_of_slice x) as [t|] eqn:Ex; [|done]. destruct (marshal_all json_of_slice l) as [ts b] eqn:E. intros [= <- ->].
  constructor; [done|by apply IH].
Qed.

(** The slices of a backup, with the vectors of its lines. *)
Lemma read_backup x t : codec_line x t -> slen t < maxImportLine -> ID x <> ""%string ->
  exists v, read_import slice_of_json origin (t, slen t + 1) = Accept (imported_slice origin (x <| Embedding := v |>)).
Proof.
  intros ((v & Hd) & Ht & _) Hb Hx. exists v. unfold read_import. cbn [fst snd]. destruct (Z.ltb_spec maxImportLine (slen t + 1)); [lia|].
  apply String.eqb_neq in Ht as ->. rewrite Hd. change (ID (x <| Embedding := v |>)) with (ID x). by apply String.eqb_neq in Hx as ->.
Qed.

Lemma seen_imported x v : seen (imported_slice origin (x <| Embedding := v |>)) = seen (imported_slice origin x).
Proof.
  destruct x as [id t sc c e st w m ca]. unfold seen, EnforceAdmission, imported_slice. simpl.
  destruct (decide (t = Result)) as [->|Ht]; simpl; destruct (decide (sc <> User)); try done; by destruct t.
Qed.

Lemma accepted_backup l ls : Forall2 codec_line l ls -> Forall (fun t => slen t < maxImportLine) ls -> Forall (fun sl => ID sl <> ""%string) l ->
  exists l', accepted slice_of_json origin (map (fun t => (t, slen t + 1)) ls) = l' /\ map seen l' = map (fun x => seen (imported_slice origin x)) l
    /\ map ID l' = map ID l /\ skips slice_of_json origin (map (fun t => (t, slen t + 1)) ls) = [].
Proof.
  induction 1 as [|x t l ls Hc _ IH]; intros Hb Hn; [by exists []|]. apply Forall_cons in Hn as [Hx Hn]. apply Forall_cons in Hb as [Hb Hbs].
  destruct (IH Hbs Hn) as (l' & Ha & Hs & Hi & Hk). destruct (read_backup x t Hc Hb Hx) as (v & Hr).
  exists (imported_slice origin (x <| Embedding := v |>) :: l'). unfold accepted, skips in *. cbn [map omap list_omap List.filter]. rewrite Hr, Ha, Hk.
  cbn [accepted_of map]. split; [done|]. rewrite seen_imported, Hs, imported_slice_ID, Hi. done.
Qed.

Lemma put_all_mapped (l : list Slice) M id : NoDup (map ID l) ->
  put_all l M !! id = match List.find (fun sl => bool_decide (ID sl = id)) l with Some sl => Some (seen sl) | None => M !! id end.
Proof.
  revert M. induction l as [|x l IH]; intros M Hn; [done|]. apply NoDup_cons in Hn as [Hx Hn].
  change (put_all (x :: l) M) with (put_all l (<[ID x := seen x]> M)). rewrite IH by done. cbn [List.find].
  destruct (bool_decide_reflect (ID x = id)) as [<-|Hne]; [|destruct (List.find _ l); [done|by rewrite lookup_insert_ne]].
  destruct (List.find _ l) as [y|] eqn:Ef; [|by rewrite lookup_insert_eq]. apply List.find_some in Ef as [Hy E]. apply bool_decide_eq_true in E.
  destruct Hx. apply list_elem_of_fmap. exists y. split; [done|by apply list_elem_of_In].
Qed.

(** The lines of the listing. *)
Lemma listing_tells s all ts : usable s -> store_list s = Ok all ->
  (forall sl t, contents s !! ID sl = Some sl -> json_of_slice sl = Some t -> codec_line sl t) ->
  marshal_all json_of_slice all = (ts, true) -> tells ts s.
Proof.
  intros Hu El Hcodec Em. destruct (law_list _ _ Hu El) as [Hn Hl]. exists all. split; [|by split].
  apply marshal_all_zip in Em. rewrite Forall2_same_length_lookup in Em |- *. destruct Em as [Elen Em]. split; [done|].
  intros i x t Hx Ht. apply Hcodec; [|by eapply Em]. apply Hl. by eapply list_elem_of_lookup_2.
Qed.

Lemma Export_tells raw ok s ls n : usable s ->
  (forall sl t, contents s !! ID sl = Some sl -> json_of_slice sl = Some t -> codec_line sl t) ->
  (forall rs k, raw = Some (Ok (rs, k)) -> tells rs s) ->
  Export json_of_slice raw ok s = (ls, n, None) -> tells ls s.
Proof.
  intros Hu Hcodec Hraw. unfold Export. destruct raw as [[[rs k]|]|]; [|done|].
  - destruct (write_lines ok 0 rs) as [w []] eqn:Ew; [|done]. intros [= <- _]. apply write_all in Ew as ->. by eapply Hraw.
  - destruct (store_list s) as [all|] eqn:El; [|done]. destruct (marshal_all json_of_slice all) as [ts b] eqn:Em.
    destruct (write_lines ok 0 ts) as [w []] eqn:Ew; [|done]. destruct b; [|done]. intros [= <- _]. apply write_all in Ew as ->.
    by eapply listing_tells.
Qed.

(** C38: A backup restores what was stored, but not who vouched for it.  When the lines
    that are written tell the slices of the store - the marshalled listing, or the
    store's own lines where it has an exporter of them, as the file store does
    ([file_export_tells]) - and none is as long as the import limit, importing the
    export skips nothing and leaves in the target, over what it held, every slice of
    the exported store: the same, but with the channel's origin, a result back on
    probation without its verifier and evidence, its scope as admission leaves it, and
    its vector out of memory. *)
Theorem Export_Import raw ok s ls n s0 i k s' :
  usable s -> usable s0 ->
  (forall sl t, contents s !! ID sl = Some sl -> json_of_slice sl = Some t -> codec_line sl t) ->
  (forall rs skipped, raw = Some (Ok (rs, skipped)) -> tells rs s) ->
  Export json_of_slice raw ok s = (ls, n, None) ->
  Forall (fun t => slen t < maxImportLine) ls -> Z.of_nat (length ls) < 2 ^ 63 ->
  Import slice_of_json origin (backup ls) s0 = (i, k, None, s') ->
  i = Z.of_nat (length ls) /\ k = 0
  /\ forall id, contents s' !! id = match contents s !! id with
                                    | Some x => Some (seen (imported_slice origin x))
                                    | None => contents s0 !! id
                                    end.
Proof.
  intros Hu Hu0 Hcodec Hraw Hexp Hsize Hb Himp. destruct (Export_tells _ _ _ _ _ Hu Hcodec Hraw Hexp) as (all & Hz & Hn & Hl).
  assert (Hnamed : Forall (fun sl => ID sl <> ""%string) all).
  { apply Forall_forall. intros x Hx. eapply (law_named s); [done|]. by apply Hl. }
  assert (Hfree : Forall (free_of lf) ls) by (eapply Forall2_Forall_r; [exact Hz|]; apply Forall_true; intros x t (_ & _ & ?); done).
  unfold Import in Himp. rewrite backup_lines, sized_backup in Himp by done.
  destruct (import_lines_spec slice_of_json origin contents usable _ _ _ _ _ _ _ _ Hu0 Himp) as [(dn & _ & Hc & Hok) Hcount].
  destruct (Hok eq_refl) as [-> _]. rewrite length_map in Hcount. destruct (Hcount eq_refl) as [-> ->]; [lia..|].
  destruct (accepted_backup all ls Hz Hsize Hnamed) as (l' & Ha & Hs & Hi & ->). rewrite Ha in Hc |- *.
  assert (Hlen : length l' = length ls) by (rewrite <- (Forall2_length _ _ _ Hz), <- (length_map ID all), <- Hi; by rewrite length_map).
  rewrite Hlen. split; [done|]. split; [done|].
  intros id. rewrite Hc, put_all_mapped by by rewrite Hi. destruct (List.find _ _) as [y|] eqn:Ef.
  - apply List.find_some in Ef as [Hy E]. apply bool_decide_eq_true in E. apply list_elem_of_In, list_elem_of_lookup in Hy as [j Hj].
    assert (Hx : exists x, all !! j = Some x /\ ID y = ID x /\ seen y = seen (imported_slice origin x)).
    { assert (Hj1 : map seen l' !! j = Some (seen y)) by (by rewrite list_lookup_fmap, Hj). rewrite Hs, list_lookup_fmap in Hj1.
      assert (Hj2 : map ID l' !! j = Some (ID y)) by (by rewrite list_lookup_fmap, Hj). rewrite Hi, list_lookup_fmap in Hj2.
      destruct (all !! j) as [x|]; [|done]. exists x. apply (inj Some) in Hj1, Hj2. by rewrite Hj1, Hj2. }
    destruct Hx as (x & Hx%list_elem_of_lookup_2 & Ex & ->). apply Hl in Hx. rewrite <- Ex, E in Hx. by rewrite Hx.
  - destruct (contents s !! id) as [x|] eqn:E; [|done]. pose proof (law_keyed _ _ _ E) as Hid.
    assert (Hin : id ∈ map ID l') by (rewrite Hi; apply list_elem_of_fmap; exists x; split; [done|]; apply Hl; by rewrite Hid).
    apply list_elem_of_fmap in Hin as (y & -> & Hy%list_elem_of_In). by pose proof (List.find_none _ _ Ef _ Hy) as ?%bool_decide_eq_false.
Qed.
End RoundTrip.

(** The lines of the file store's own exporter. *)
Section FileExport.
Context (slice_of_json : string -> option Slice) (dto_json : sliceDTO -> string).

Definition file_export (s : Numbered) : result (list string * Z) :=
  match exportLines (w_store s.2) with Ok (dtos, skipped) => Ok (map dto_json dtos, skipped) | Err e => Err e end.

Lemma file_export_tells s ls skipped : file_usable s ->
  Forall (fun e => codec_line slice_of_json (cloneStored e) (dto_json (dtoFromEntry e))) (live (w_store s.2)) ->
  file_export s = Ok (ls, skipped) -> tells slice_of_json file_contents ls s.
Proof.
  intros Hu Hc. unfold file_export, exportLines. destruct (forallb _ _); [|done]. intros [= <- _].
  destruct (file_listing s Hu) as [Hn Hl]. exists (ListAll (w_store s.2)). split; [|by split].
  unfold ListAll. rewrite map_map. induction Hc; by constructor.
Qed.
End FileExport.

Module MaintenanceSample.
Import ConsolidateSample.

#[export] Instance f64_eq_dec : EqDecision f64.
Proof. solve_decision. Defined.
#[export] Instance SliceStats_eq_dec : EqDecision SliceStats.
Proof. solve_decision. Defined.
#[export] Instance Slice_eq_dec : EqDecision Slice.
Proof. solve_decision. Defined.

Definition json_of_slice (sl : Slice) : option string :=
  if bool_decide (sl = one) then Some "{1}"%string else if bool_decide (sl = two) then Some "{2}"%string else None.
Definition slice_of_json (t : string) : option Slice :=
  if (t =? "{1}")%string then Some one else if (t =? "{2}")%string then Some two else None.

Definition week (_ : f64) : Z := 7 * 86400.
Definition math_exp (x : f64) : f64 := x.
Definition cap_one (dry : bool) : GCOptions := mkGC 0 f0 dry 1 false DefaultScoreParams 100 "evicted.jsonl".
Definition io : archive_io := mkArchive true (fun _ => true) true.
Definition fold := file_fold Sample.json_len Sample.dto_len Sample.marshal_vec ios.
Definition compact := file_compact Sample.json_len Sample.dto_len Sample.marshal_vec ios.
Definition gc_pass (opts : GCOptions) := GC json_of_slice math_exp week 100 (Some fold) (Some compact) None io opts filled.

(** Of two cards of the same type, weight and grace, the older one goes. *)
Example gc_result : (gc_pass (cap_one false)).1.1.1 = mkGCResult 2 1 [] [] ["c1"%string] {["context"%string := 1]} 1 1 0.
Proof. by vm_compute. Qed.
Example gc_archive : (gc_pass (cap_one false)).1.2 = ["{1}"%string].
Proof. by vm_compute. Qed.
Example gc_dry : (gc_pass (cap_one true)).2 = filled.
Proof. by vm_compute. Qed.

Lemma gc_plan_witness :
  let evict := gc_evict week 100 (cap_one false) [one; two] in
  (ID one ∈ evict <-> (gc_expired (cap_one false) 100 one = true \/ gc_low (cap_one false) one = true \/ one ∈ gc_over week 100 (cap_one false) [one; two]))
  /\ gc_evict week 100 (cap_one false) [two; one] = evict.
Proof.
  destruct (gc_plan week (cap_one false) 100 [one; two]) as (H1 & _ & _ & _ & _ & H6).
  - apply (bool_decide_unpack _). by vm_compute.
  - repeat constructor.
  - split; [apply H1; left|]. apply H6. apply Permutation_swap.
Defined.

Lemma GC_applied_witness :
  let s' := (gc_pass (cap_one false)).2 in
  file_contents s' !! "c1"%string = None /\ exists y, file_contents s' !! "c2"%string = Some y /\ same_card two y.
Proof.
  assert (Hf : forall g f s s', Some fold = Some g -> file_usable s -> g f s = (Ok tt, s') -> forall l, store_list s = Ok l ->
    NoDup (map ID (f l)) -> Forall (fun sl => ID sl <> ""%string) (f l) -> file_contents s' = by_id (f l)).
  { intros g f s s' [= <-] Hu Hr l El. injection El as <-. by eapply file_fold_law. }
  assert (Hc : forall c s s', Some compact = Some c -> file_usable s -> c s = (Ok tt, s') -> file_contents s' = file_contents s).
  { intros c s s' [= <-] Hu Hr. exact (file_compact_law _ _ _ Sample.marshal_vec_ok ios _ _ Hu Hr). }
  pose proof (GC_applied json_of_slice math_exp week 100 file_contents file_usable (Some fold) (Some compact) None Hf Hc
    io (cap_one false) filled (gc_pass (cap_one false)).1.1.1 None (gc_pass (cap_one false)).1.2 (gc_pass (cap_one false)).2 filled_usable ltac:(vm_compute; reflexivity)) as Hall.
  cbv zeta in Hall. change (gc_DryRun (cap_one false)) with false in Hall. cbv iota in Hall. destruct Hall as [_ Happ]. specialize (Happ eq_refl).
  split; [specialize (Happ "c1"%string)|specialize (Happ "c2"%string)]; vm_compute in Happ; exact Happ.
Defined.

(** A file of four lines: a card, a blank line, no JSON, the other card. *)
Definition data : string := join lf_string ["{1}"; "  "; "oops"; "{2}"; ""]%string.
Definition host : Origin := "desktop".
Definition restored := Import slice_of_json host data opened.

Example import_counts : restored.1 = (2, 1, None).
Proof. by vm_compute. Qed.

Lemma Import_untrusted_witness :
  (forall y, file_contents restored.2 !! "c1"%string = Some y -> untrusted host y)
  /\ file_contents restored.2 = put_all (accepted slice_of_json host (sized_lines (split_lines data))) (file_contents opened).
Proof.
  destruct (Import_untrusted slice_of_json host file_contents file_usable data opened 2 1 None restored.2 opened_usable) as (H1 & _ & H3);
    [by vm_compute..|]. split; [|by apply H3]. intros y Hy. destruct (H1 _ _ Hy) as [Hold|Hu]; [|exact Hu]. by vm_compute in Hold.
Defined.

(** The lines the file store exports itself. *)
Definition dto_json (d : sliceDTO) : string := if (dto_ID d =? "c1")%string then "{1}" else "{2}".
Definition exported := Export json_of_slice (Some (file_export dto_json filled)) (fun _ => true) filled.
Definition reimported := Import slice_of_json host (backup exported.1.1) opened.

Lemma sample_codec sl t : json_of_slice sl = Some t -> codec_line slice_of_json sl t.
Proof.
  unfold json_of_slice. destruct (bool_decide_reflect (sl = one)) as [->|_]; [intros [= <-]; split; [exists None|]; by vm_compute|].
  destruct (bool_decide_reflect (sl = two)) as [->|_]; [|done]. intros [= <-]. split; [exists None|]; by vm_compute.
Qed.

Lemma sample_lines : Forall (fun e => codec_line slice_of_json (cloneStored e) (dto_json (dtoFromEntry e))) (live (w_store filled.2)).
Proof.
  assert (El : map (fun e => (cloneStored e, dto_json (dtoFromEntry e))) (live (w_store filled.2)) = [(one, "{1}"); (two, "{2}")]%string) by (vm_compute; reflexivity).
  rewrite <- (Forall_map (fun e => (cloneStored e, dto_json (dtoFromEntry e))) (fun p => codec_line slice_of_json p.1 p.2)), El.
  repeat apply Forall_cons_2; [| |constructor]; (split; [exists None|]; by vm_compute).
Qed.

(** What was exported comes back with the origin of the channel, so not as it was. *)
Lemma Export_Import_witness :
  reimported.1 = (2, 0, None) /\ file_contents reimported.2 !! "c1"%string = Some (seen (imported_slice host one)).
Proof.
  destruct (Export_Import json_of_slice slice_of_json host file_contents file_usable (Some (file_export dto_json filled)) (fun _ => true) filled exported.1.1 0 opened 2 0 reimported.2
    filled_usable opened_usable) as (_ & _ & H).
  - intros sl t _. apply sample_codec.
  - intros rs k Er. apply (inj Some) in Er. exact (file_export_tells slice_of_json dto_json filled rs k filled_usable sample_lines Er).
  - by vm_compute.
  - apply (bool_decide_unpack (Forall (fun t => slen t < maxImportLine) exported.1.1)). vm_compute. exact I.
  - by vm_compute.
  - by vm_compute.
  - split; [by vm_compute|]. rewrite H. by vm_compute.
Defined.

Theorem backup_not_lossless : file_contents reimported.2 !! "c1"%string <> file_contents filled !! "c1"%string.
Proof. by vm_compute. Qed.
End MaintenanceSample.
