(* ===== verification/Prune.v ===== *)
(** kernel/slice (prune.go, prune_store.go): explicit, conservative pruning of a
    library.

    The plan is a pure function of the entries; applying it archives the removed
    rows and replaces the journal by itself plus one [del] record per candidate.
    The entries come as a list of some order: the code iterates a map, and
    [planPrune_order] shows that nothing depends on it.  [json.Marshal] of a
    duplicate key is compared as the value it encodes.  The file system is asked
    through [pruneFS] and the outcomes of the system calls through [pruneIO]. *)

From Stdlib Require Import ZArith Lia Bool Ascii String Floats.SpecFloat.
From stdpp Require Import tactics base option list sorting gmap strings.
From S2P Require Import Prelude Float64 GoStrings GoPath Slice Store StoreSpec.

#[global] Open Scope Z_scope.

(** ** Options *)

Record PruneOptions := mkPruneOptions {
  po_Scope : Scope;
  po_Apply : bool;
  po_OlderThanDays : Z;
  po_RecentDays : Z;
  po_Project : string;
  po_ProjectRoot : string;
  po_Now : Z;
}.
#[export] Instance PruneOptions_eta : Eta PruneOptions := fun r =>
  mkPruneOptions (po_Scope r) (po_Apply r) (po_OlderThanDays r) (po_RecentDays r) (po_Project r)
    (po_ProjectRoot r) (po_Now r).

(** [clock] is [time.Now().Unix()]. *)
Definition normalized (clock : Z) (o : PruneOptions) : result PruneOptions :=
  if negb (bool_decide (po_Scope o = Project)) && negb (bool_decide (po_Scope o = User))
  then Err "prune: scope must be project or user" else
  let o := if po_OlderThanDays o =? 0 then o <| po_OlderThanDays := 90 |> else o in
  let o := if po_RecentDays o =? 0 then o <| po_RecentDays := 30 |> else o in
  if (po_OlderThanDays o <? 1) || (3650000 <? po_OlderThanDays o) || (po_RecentDays o <? 1)
     || (3650000 <? po_RecentDays o)
  then Err "prune: day windows must be between 1 and 3650000" else
  if negb (po_ProjectRoot o =? "")%string && (po_Project o =? "")%string
  then Err "prune: project-root requires an explicit project slug" else
  let o := if po_Now o =? 0 then o <| po_Now := clock |> else o in
  if po_Now o <? 0 then Err "prune: invalid clock" else Ok o.

Definition window (now days : Z) : Z := now -! (days *! 86400).

(** ** The plan *)

Record PruneCandidate := mkPruneCandidate {
  pc_ID : string;
  pc_Type : string;
  pc_Scope : string;
  pc_Reasons : list string;
  pc_SourceSession : string;
  pc_CreatedAt : Z;
  pc_LastUsed : Z;
  pc_EstimatedReclaimableBytes : Z;
  pc_RetainedID : string;
}.

Record PruneResult := mkPruneResult {
  pr_Scope : string;
  pr_DryRun : bool;
  pr_Checked : Z;
  pr_Kept : Z;
  pr_Removed : Z;
  pr_Candidates : list PruneCandidate;
  pr_SkippedChecks : list (string * string);
  pr_EstimatedReclaimableBytes : Z;
  pr_ArchivePath : string;
}.
#[export] Instance PruneResult_eta : Eta PruneResult := fun r =>
  mkPruneResult (pr_Scope r) (pr_DryRun r) (pr_Checked r) (pr_Kept r) (pr_Removed r) (pr_Candidates r)
    (pr_SkippedChecks r) (pr_EstimatedReclaimableBytes r) (pr_ArchivePath r).

Definition emptyPruneResult (o : PruneOptions) : PruneResult :=
  mkPruneResult (scope_string (po_Scope o)) (negb (po_Apply o)) 0 0 0 []
    (if (po_ProjectRoot o =? "")%string then [("missing_dependency", "project_mapping_unavailable")%string] else [])
    0 "".

Definition pruneProtected (s : Slice) (o : PruneOptions) : bool :=
  let cutoff := window (po_Now o) (po_RecentDays o) in
  let st := Stats s in
  let m := Meta s in
  (type_string (SType s) =? "unknown")%string || (CreatedAt s <=? 0) || (cutoff <=? CreatedAt s)
  || (LastUsed st <? 0) || (cutoff <=? LastUsed st)
  || (((0 <? Hits st) || (0 <? Injected st)) && (LastUsed st =? 0))
  || (MetaOrigin m =? OriginUserCurated)%string
  || (negb (MetaOrigin m =? "")%string && negb (Valid (MetaOrigin m)))
  || (UserFeedback st >? f0)%f64 || is_nan (UserFeedback st) || is_inf (UserFeedback st) || (0 <? Useful st)
  || (MetaResultStatus m =? ResultStatusVerified)%string
  || (negb (MetaResultStatus m =? "")%string && negb (MetaResultStatus m =? ResultStatusProbation)%string).

(** Type, scope, content and provenance, without session label and sizes. *)
Definition duplicateKey (s : Slice) : SliceType * Scope * string * SliceMeta :=
  (SType s, SScope s, Content s,
   Meta s <| SourceSession := ""%string |> <| OriginalBytes := 0 |> <| StoredBytes := 0 |>).

#[export] Instance SliceMeta_eq_dec : EqDecision SliceMeta.
Proof. solve_decision. Defined.

(** What [Lstat] inside the opened root says of a relative path. *)
Inductive lstat_answer : Type :=
| NotExist
| LstatFailed
| Entry (symlink dir : bool).

(** The file system of a plan: validating and opening the project root, and the
    lookups confined to it. *)
Record pruneFS := mkPruneFS {
  fs_root : string -> result unit;
  fs_lstat : string -> lstat_answer;
}.

Inductive dep_status : Type := Present | Missing | Uncertain.

(** Every level of a path. *)
Fixpoint dep_walk (lstat : string -> lstat_answer) (pre : string) (parts : list string) : dep_status :=
  match parts with
  | [] => Present
  | part :: rest =>
      let pre := Join pre part in
      match lstat pre with
      | NotExist => Missing
      | LstatFailed => Uncertain
      | Entry symlink dir =>
          if symlink || (negb (match rest with [] => true | _ => false end) && negb dir) then Uncertain
          else dep_walk lstat pre rest
      end
  end.

Fixpoint has_char (c : ascii) (s : string) : bool :=
  match s with EmptyString => false | String a s => Ascii.eqb a c || has_char c s end.

Definition backslash : ascii := Ascii.ascii_of_nat 92.

Definition dep_check (lstat : string -> lstat_answer) (path : string) : dep_status :=
  if negb (IsLocal path) || has_char ":" path || has_char backslash path then Uncertain
  else dep_walk lstat "" (elements (Clean path)).

(** [missingPruneDependency]: (missing, uncertain); an uncertain path decides. *)
Definition missingPruneDependency (lstat : string -> lstat_answer) (s : Slice) : bool * bool :=
  let answers := map (fun kv => dep_check lstat kv.1) (map_to_list (MetaDeps (Meta s))) in
  if existsb (fun a => match a with Uncertain => true | _ => false end) answers then (false, true)
  else (existsb (fun a => match a with Missing => true | _ => false end) answers, false).

Section Plan.
(** [sanitize.Sanitize] and the size of a marshalled row. *)
Context (sanitize : string -> string) (dto_len : sliceDTO -> Z).

(** The first pass over one slice: protected, reasons, and whether a path was
    ambiguous. *)
Record verdict := mkVerdict { v_protected : bool; v_reasons : list string; v_uncertain : bool }.

Definition staleness (o : PruneOptions) (s : Slice) : list string :=
  let cutoff := window (po_Now o) (po_OlderThanDays o) in
  if (CreatedAt s <? cutoff) && (LastUsed (Stats s) <? cutoff) then
    "stale_unused"%string ::
    (if bool_decide (SType s = Result) && (MetaResultStatus (Meta s) =? ResultStatusProbation)%string
     then ["stale_probation"%string] else []) ++
    (if (0 <? Rejected (Stats s)) || (UserFeedback (Stats s) <? f0)%f64 then ["stale_rejected"%string] else [])
  else [].

Definition judge (fs : pruneFS) (o : PruneOptions) (s : Slice) : verdict :=
  if pruneProtected s o then mkVerdict true [] false else
  let '(missing, uncertain) :=
    if negb (po_ProjectRoot o =? "")%string && (0 <? Z.of_nat (size (MetaDeps (Meta s))))
    then missingPruneDependency (fs_lstat fs) s else (false, false) in
  if uncertain then mkVerdict true [] true
  else mkVerdict false ((if missing then ["missing_dependency"%string] else []) ++ staleness o s) false.

(** The order in which a group offers its representative. *)
Definition rep_less (j : Slice -> verdict) (a b : Slice) : bool :=
  if negb (eqb (v_protected (j a)) (v_protected (j b))) then v_protected (j a)
  else if negb (LastUsed (Stats a) =? LastUsed (Stats b)) then LastUsed (Stats b) <? LastUsed (Stats a)
  else if negb (CreatedAt a =? CreatedAt b) then CreatedAt b <? CreatedAt a
  else string_less (ID a) (ID b).

(** Kept whatever happens to its group. *)
Definition survives (j : Slice -> verdict) (s : Slice) : bool :=
  v_protected (j s) || match v_reasons (j s) with [] => true | _ => false end.

(** The slices whose content and provenance [s] shares, itself included. *)
Definition group (all : list Slice) (s : Slice) : list Slice :=
  filter (fun t => Content t <> ""%string /\ duplicateKey t = duplicateKey s) all.

Definition representative (j : Slice -> verdict) (g : list Slice) : option Slice :=
  if Z.of_nat (length g) <? 2 then None else head (List.filter (survives j) (go_sort (rep_less j) g)).

(** [retained[s.ID]]: the representative that replaces [s]. *)
Definition retained (j : Slice -> verdict) (all : list Slice) (s : Slice) : option string :=
  if (Content s =? "")%string then None else
  match representative j (group all s) with
  | Some r => if (ID s =? ID r)%string || v_protected (j s) then None else Some (ID r)
  | None => None
  end.

Definition all_reasons (j : Slice -> verdict) (all : list Slice) (s : Slice) : list string :=
  match retained j all s with Some _ => ["exact_duplicate"%string] | None => [] end ++ v_reasons (j s).

Definition is_candidate (j : Slice -> verdict) (all : list Slice) (s : Slice) : bool :=
  negb (v_protected (j s)) && negb (match all_reasons j all s with [] => true | _ => false end).

Definition candidate (j : Slice -> verdict) (all : list Slice) (e : storedEntry) : PruneCandidate :=
  let s := e_s e in
  let source := sanitize (SourceSession (Meta s)) in
  mkPruneCandidate (ID s) (type_string (SType s)) (scope_string (SScope s)) (all_reasons j all s)
    (if (source =? "")%string then "unknown" else source) (CreatedAt s) (LastUsed (Stats s))
    (dto_len (dtoFromEntry e) + 1) (default "" (retained j all s)).

Definition in_scope (o : PruneOptions) (s : Slice) : Prop :=
  SScope s = po_Scope o /\ (po_Project o = ""%string \/ ProjectSlug (Meta s) = po_Project o).
#[export] Instance in_scope_dec o s : Decision (in_scope o s).
Proof. unfold in_scope. apply _. Defined.

Definition by_id (a b : storedEntry) : bool := string_less (ID (e_s a)) (ID (e_s b)).

(** The entries that are removed, in report order. *)
Definition doomed (fs : pruneFS) (o : PruneOptions) (entries : list storedEntry) : list storedEntry :=
  let scoped := filter (fun e => in_scope o (e_s e)) entries in
  List.filter (fun e => is_candidate (judge fs o) (map e_s scoped) (e_s e)) (go_sort by_id scoped).

Definition planPrune (fs : pruneFS) (entries : list storedEntry) (o : PruneOptions) : result PruneResult :=
  let r := emptyPruneResult o in
  let? _ := if (po_ProjectRoot o =? "")%string then Ok tt else fs_root fs (po_ProjectRoot o) in
  let scoped := filter (fun e => in_scope o (e_s e)) entries in
  let all := map e_s scoped in
  let j := judge fs o in
  let dead := doomed fs o entries in
  if negb (forallb (fun e => marshalable (dtoFromEntry e)) dead) then Err "prune: cannot serialize candidate" else
  let cs := map (candidate j all) dead in
  Ok (r <| pr_Checked := Z.of_nat (length all) |>
        <| pr_SkippedChecks ::= fun l => l ++
             (if existsb (fun s => v_uncertain (j s)) all
              then [("missing_dependency", "ambiguous_dependencies_retained")%string] else []) |>
        <| pr_Candidates := cs |>
        <| pr_EstimatedReclaimableBytes := foldl (fun n c => n +! pc_EstimatedReclaimableBytes c) 0 cs |>
        <| pr_Kept := Z.of_nat (length all) - Z.of_nat (length cs) |>).
End Plan.

(** ** Applying a plan *)

(** The maintenance lease: taken, absent (read-only preview of a store without a
    sidecar), or refused. *)
Inductive lease := Leased | NoSidecar | LeaseErr (e : string).

(** What [os.Stat] says of the database file. *)
Inductive base_stat :=
| StatMissing (journal_gone : bool)
| StatErr (e : string)
| Irregular
| Regular.

(** The calls of [writePruneFile], each failing with an error; [wf_short]: fewer
    bytes were written without an error. *)
Record write_io := mkWriteIO {
  wf_create : bool; wf_chmod : bool; wf_write : bool; wf_short : bool; wf_sync : bool; wf_close : bool;
}.

Record pruneIO := mkPruneIO {
  pi_stat : base_stat;
  pi_canonical : bool;
  pi_lease : lease;
  pi_sidecar : bool;          (* the lock file exists after an unleased read *)
  pi_read : bool;             (* reading the journal back *)
  pi_archive : write_io;
  pi_archive_name : string;
  pi_journal : write_io;
  pi_rename : bool;
}.

(** The disk and the archives beside it. *)
Record PruneWorld := mkPW { pw_disk : Disk; pw_archives : list (list sliceDTO) }.
#[export] Instance PruneWorld_eta : Eta PruneWorld := fun r => mkPW (pw_disk r) (pw_archives r).

(** A file written completely, or removed again. *)
Definition writePruneFile (w : write_io) : result unit :=
  if negb (wf_create w) then Err "create"
  else if negb (wf_chmod w) then Err "chmod"
  else if negb (wf_write w) then Err "write"
  else if wf_short w then Err "short write"
  else if negb (wf_sync w) then Err "sync"
  else if negb (wf_close w) then Err "close"
  else Ok tt.

Section Apply.
Context (sanitize : string -> string) (json_len : jdoc -> Z) (dto_len : sliceDTO -> Z).

(** The journal with a [del] record per candidate; a torn last line gets its
    newline back, and a store without a journal gets a header.  A deletion record holds
    an ID and nothing else: its line is taken to be within the reader's limit. *)
Definition pruned_journal (s : fileStore) (d : Disk) (dead : list storedEntry) : list (line jdoc) :=
  match d_journal d with
  | Some j => j
  | None => [jline json_len (JHeader (header_of s))]
  end ++ map (fun e => jline json_len (JRecord (del_record (ID (e_s e))))) dead.

(** A read-only handle on the path: [load] with the strict decoder. *)
Definition open_read_only (d : Disk) : result fileStore :=
  let io := mkIO false false None false false false false false 0 "" false in
  match load io (mkWorld (emptyStore true) d) with
  | (Ok _, w) => Ok (w_store w)
  | (Err e, _) => Err e
  end.

Definition load_checked (io : pruneIO) (d : Disk) : result fileStore :=
  match open_read_only d with
  | Err e => Err e
  | Ok s => if 0 <? baseSkipped s + journalSkipped s
            then Err "prune: corrupt or unsupported records; no changes made"
            else match pi_lease io with
                 | NoSidecar => if pi_sidecar io then Err "slice: store is in use" else Ok s
                 | _ => Ok s
                 end
  end.

(** The second half of [pruneFile]: archive, prepared journal, rename. *)
Definition commitPrune (io : pruneIO) (s : fileStore) (dead : list storedEntry) (r : PruneResult) :
    st PruneWorld PruneResult := fun w =>
  if negb (pi_read io) then (Err "read journal", w) else
  match writePruneFile (pi_archive io) with
  | Err e => (Err ("prune: archive failed; no deletion committed: " +:+ e), w)
  | Ok _ =>
      let w := w <| pw_archives ::= fun l => l ++ [map dtoFromEntry dead] |> in
      match writePruneFile (pi_journal io) with
      | Err e => (Err ("prune: journal preparation failed; no deletion committed: " +:+ e), w)
      | Ok _ =>
          if negb (pi_rename io) then (Err "prune: commit failed; no deletion committed", w)
          else (Ok (r <| pr_ArchivePath := pi_archive_name io |>
                      <| pr_Removed := Z.of_nat (length (pr_Candidates r)) |>),
                w <| pw_disk ::= fun d => d <| d_journal := Some (pruned_journal s d dead) |> <| d_torn := false |> |>)
      end
  end.

Definition pruneFile (clock : Z) (fs : pruneFS) (io : pruneIO) (opts : PruneOptions) :
    st PruneWorld PruneResult := fun w =>
  match normalized clock opts with
  | Err e => (Err e, w)
  | Ok o =>
  match pi_stat io with
  | StatMissing gone =>
      if gone then (Ok (emptyPruneResult o), w)
      else (Err "prune: missing base with an unreadable or orphan journal", w)
  | StatErr e => (Err e, w)
  | Irregular => (Err "prune: database must be a regular file", w)
  | Regular =>
  if negb (pi_canonical io) then (Err "canonical path", w) else
  match pi_lease io, po_Apply o with
  | LeaseErr e, _ => (Err e, w)
  | NoSidecar, true => (Err "lock file", w)
  | _, _ =>
  match load_checked io (pw_disk w) with
  | Err e => (Err e, w)
  | Ok s =>
  match planPrune sanitize dto_len fs (live s) o with
  | Err e => (Err e, w)
  | Ok r =>
      if negb (po_Apply o) || (Z.of_nat (length (pr_Candidates r)) =? 0) then (Ok r, w)
      else commitPrune io s (doomed fs o (live s)) r w
  end end end end end.
End Apply.

(** ** What a plan removes *)

Lemma lex_cotrans {A} (less : A -> A -> bool) (k : A -> Z) :
  (forall x y z, not_after less x y -> not_after less y z -> not_after less x z) ->
  let lex a b := if negb (k a =? k b) then k b <? k a else less a b in
  forall x y z, not_after lex x y -> not_after lex y z -> not_after lex x z.
Proof.
  intros Hc lex x y z. specialize (Hc x y z). unfold not_after, lex in *.
  destruct (Z.eqb_spec (k y) (k x)), (Z.eqb_spec (k z) (k y)), (Z.eqb_spec (k z) (k x)); simpl; try lia; try done; auto;
    intros; go_bool; apply Z.ltb_ge; lia.
Qed.

Section PlanFacts.
Context (sanitize : string -> string) (dto_len : sliceDTO -> Z) (fs : pruneFS) (o : PruneOptions).
Implicit Types (all : list Slice) (entries : list storedEntry).

Let j := judge fs o.

Lemma judge_protected s : pruneProtected s o = true -> v_protected (j s) = true.
Proof. unfold j, judge. by intros ->. Qed.

(** What each reason of the first pass says of the slice. *)
Definition reason_holds (s : Slice) (why : string) : Prop :=
  if (why =? "missing_dependency")%string then
    po_ProjectRoot o <> ""%string /\ missingPruneDependency (fs_lstat fs) s = (true, false)
  else
    (CreatedAt s < window (po_Now o) (po_OlderThanDays o) /\ LastUsed (Stats s) < window (po_Now o) (po_OlderThanDays o))
    /\ (why = "stale_unused"%string
        \/ (why = "stale_probation"%string /\ SType s = Result /\ MetaResultStatus (Meta s) = ResultStatusProbation)
        \/ (why = "stale_rejected"%string /\ (0 < Rejected (Stats s) \/ (UserFeedback (Stats s) <? f0)%f64 = true))).

Lemma staleness_reasons s why : why ∈ staleness o s -> reason_holds s why.
Proof.
  unfold staleness. destruct ((CreatedAt s <? _) && _) eqn:E; [|by intros ?%not_elem_of_nil].
  rewrite elem_of_cons, elem_of_app. intros Hw.
  assert (Hne : why = "stale_unused"%string
        \/ (why = "stale_probation"%string /\ SType s = Result /\ MetaResultStatus (Meta s) = ResultStatusProbation)
        \/ (why = "stale_rejected"%string /\ (0 < Rejected (Stats s) \/ (UserFeedback (Stats s) <? f0)%f64 = true))).
  { destruct Hw as [->|[Hw|Hw]]; [by left|right; left|right; right].
    - destruct (bool_decide _ && _) eqn:Ep; [|by apply not_elem_of_nil in Hw]. apply list_elem_of_singleton in Hw as ->. apply andb_true_iff in Ep as [Ep1%bool_decide_eq_true Ep2%String.eqb_eq]. done.
    - destruct (_ || _) eqn:Ep; [|by apply not_elem_of_nil in Hw]. apply list_elem_of_singleton in Hw as ->. split; [done|].
      apply orb_true_iff in Ep as [Ep|Ep]; [left; by apply Z.ltb_lt|by right]. }
  unfold reason_holds. replace (why =? "missing_dependency")%string with false by (by destruct Hne as [->|[[-> _]|[-> _]]]).
  split; [|done]. by go_bool.
Qed.

Lemma judge_reasons s why : v_protected (j s) = false -> why ∈ v_reasons (j s) -> reason_holds s why.
Proof.
  unfold j, judge. destruct (pruneProtected s o); [done|].
  destruct (_ && _) eqn:Eroot; [|intros _; apply staleness_reasons].
  destruct (missingPruneDependency _ s) as [[] []] eqn:Em; try done; intros _; [|apply staleness_reasons].
  intros [->|Hs]%elem_of_cons; [|by apply staleness_reasons]. unfold reason_holds. cbn [String.eqb]. simpl. by go_bool.
Qed.

Lemma elem_of_bool_filter {A} (f : A -> bool) x l : x ∈ List.filter f l <-> x ∈ l /\ f x = true.
Proof. rewrite !list_elem_of_In. apply List.filter_In. Qed.

Lemma representative_elem g r : representative j g = Some r -> r ∈ g /\ survives j r = true.
Proof.
  unfold representative. destruct (_ <? _); [done|]. intros Hr.
  assert (H : r ∈ List.filter (survives j) (go_sort (rep_less j) g)).
  { destruct (List.filter _ _); [done|]. simpl in Hr. injection Hr as ->. left. }
  apply elem_of_bool_filter in H. by rewrite elem_of_go_sort in H.
Qed.

Lemma group_same all s t : duplicateKey t = duplicateKey s -> group all t = group all s.
Proof. unfold group. by intros ->. Qed.

(** A representative stays. *)
Lemma representative_kept all s r :
  representative j (group all s) = Some r -> duplicateKey r = duplicateKey s ->
  is_candidate j all r = false.
Proof.
  intros Hr Hk. destruct (representative_elem _ _ Hr) as [_ Hs].
  unfold is_candidate, all_reasons, retained. rewrite (group_same all s r Hk), Hr, String.eqb_refl.
  unfold survives in Hs. destruct (v_protected (j r)); [done|]. simpl in *.
  destruct (v_reasons (j r)); [|done]. by destruct (_ =? _)%string.
Qed.

Lemma retained_spec all s id : retained j all s = Some id ->
  exists r, r ∈ all /\ ID r = id /\ ID s <> id /\ duplicateKey r = duplicateKey s /\ is_candidate j all r = false.
Proof.
  unfold retained. destruct (_ =? _)%string; [done|].
  destruct (representative j (group all s)) as [r|] eqn:Hr; [|done].
  destruct (ID s =? ID r)%string eqn:E; [done|]. destruct (v_protected _); [done|]. simpl. intros [= <-].
  go_bool. exists r. destruct (representative_elem _ _ Hr) as [[[Hc Hk] Hin]%list_elem_of_filter _].
  split_and!; [done..|]. by eapply representative_kept.
Qed.

Lemma doomed_spec entries e : e ∈ doomed fs o entries <->
  e ∈ entries /\ in_scope o (e_s e)
  /\ is_candidate j (map e_s (filter (fun e => in_scope o (e_s e)) entries)) (e_s e) = true.
Proof.
  unfold doomed. rewrite elem_of_bool_filter, elem_of_go_sort, list_elem_of_filter. fold j. tauto.
Qed.

Lemma doomed_subset entries : exists l, doomed fs o entries ≡ₚ List.filter l (filter (fun e => in_scope o (e_s e)) entries).
Proof. eexists. unfold doomed. by rewrite go_sort_perm. Qed.

Lemma planPrune_ok entries r : planPrune sanitize dto_len fs entries o = Ok r ->
  let all := map e_s (filter (fun e => in_scope o (e_s e)) entries) in
  pr_Candidates r = map (candidate sanitize dto_len j all) (doomed fs o entries)
  /\ pr_Checked r = Z.of_nat (length all)
  /\ pr_Kept r = pr_Checked r - Z.of_nat (length (pr_Candidates r)) /\ pr_Removed r = 0.
Proof.
  intros H all. unfold planPrune, result_bind in H. cbv zeta in H.
  destruct (if (_ =? _)%string then _ else _); [|done].
  destruct (forallb _ _); [|done]. simpl in H. injection H as <-. by split_and!.
Qed.
End PlanFacts.

(** ** The order of the entries *)

Lemma rep_less_asym (j : Slice -> verdict) a b : rep_less j a b = true -> rep_less j b a = false.
Proof.
  unfold rep_less. destruct (v_protected (j a)), (v_protected (j b)); simpl; try done.
  all: rewrite (Z.eqb_sym (LastUsed (Stats b))), (Z.eqb_sym (CreatedAt b)).
  all: destruct (_ =? _) eqn:E1; simpl; [|intros; go_bool; apply Z.ltb_ge; lia].
  all: destruct (CreatedAt a =? _) eqn:E2; simpl; [apply string_less_asym|intros; go_bool; apply Z.ltb_ge; lia].
Qed.

Lemma rep_less_cotrans (j : Slice -> verdict) a b c :
  not_after (rep_less j) a b -> not_after (rep_less j) b c -> not_after (rep_less j) a c.
Proof.
  set (by_name := fun a b : Slice => string_less (ID a) (ID b)).
  assert (H1 : forall a b c, not_after by_name a b -> not_after by_name b c -> not_after by_name a c).
  { unfold not_after, by_name. eauto using string_less_cotrans. }
  pose proof (lex_cotrans _ (fun s => LastUsed (Stats s)) (lex_cotrans by_name CreatedAt H1)) as H2.
  specialize (H2 a b c). unfold not_after, rep_less in *.
  destruct (v_protected (j a)), (v_protected (j b)), (v_protected (j c)); simpl; done || exact H2.
Qed.

Lemma rep_less_separates (j : Slice -> verdict) a b :
  rep_less j a b = false -> rep_less j b a = false -> ID a = ID b.
Proof.
  unfold rep_less. destruct (v_protected (j a)), (v_protected (j b)); simpl; try done.
  all: rewrite (Z.eqb_sym (LastUsed (Stats b))), (Z.eqb_sym (CreatedAt b)).
  all: destruct (_ =? _) eqn:E1; simpl; [|intros; go_bool; lia].
  all: destruct (CreatedAt a =? _) eqn:E2; simpl; [apply string_less_total|intros; go_bool; lia].
Qed.

Lemma by_id_sort_perm l1 l2 : NoDup (ids l1) -> l1 ≡ₚ l2 -> go_sort by_id l1 = go_sort by_id l2.
Proof.
  intros Hn. apply (go_sort_perm_eq by_id (fun _ => True)); unfold not_after, by_id.
  - intros. by apply string_less_asym.
  - intros. by eapply string_less_cotrans.
  - intros x y Hx Hy ??. apply (NoDup_map_inj (fun e => ID (e_s e)) l1); auto with go.
  - by apply Forall_true.
Qed.

Section PlanOrder.
Context (sanitize : string -> string) (dto_len : sliceDTO -> Z) (fs : pruneFS) (o : PruneOptions).
Context (all all' : list Slice) (Hn : NoDup (map ID all)) (Hp : all ≡ₚ all').
Let j := judge fs o.

Lemma representative_perm s : representative j (group all s) = representative j (group all' s).
Proof using Hn Hp.
  assert (Hg : group all s ≡ₚ group all' s) by (unfold group; by rewrite Hp).
  unfold representative. rewrite <- (Permutation_length Hg). destruct (_ <? _); [done|].
  rewrite (go_sort_perm_eq (rep_less j) (fun _ => True) _ (group all' s)); [done|..|done].
  - intros. by apply rep_less_asym.
  - intros x y z _ _ _. apply rep_less_cotrans.
  - intros x y [_ Hx]%list_elem_of_filter [_ Hy]%list_elem_of_filter ??.
    eapply (NoDup_map_inj ID all); eauto using rep_less_separates.
  - by apply Forall_true.
Qed.

Lemma all_reasons_perm s : retained j all s = retained j all' s /\ all_reasons j all s = all_reasons j all' s.
Proof using Hn Hp. unfold all_reasons, retained. by rewrite representative_perm. Qed.

Lemma candidate_perm e :
  is_candidate j all (e_s e) = is_candidate j all' (e_s e)
  /\ candidate sanitize dto_len j all e = candidate sanitize dto_len j all' e.
Proof using Hn Hp. unfold is_candidate, candidate. by destruct (all_reasons_perm (e_s e)) as [-> ->]. Qed.
End PlanOrder.

(** ** Reading and writing the files *)

Lemma open_read_only_view d s : open_read_only d = Ok s ->
  wf s /\ live s = view d /\ (d_journal d = None -> baseSize s = d_size d /\ baseMtime s = d_mtime d)
  /\ match d_journal d with Some [] => False | Some (hd :: _) => journal_binds d hd = true | None => True end.
Proof.
  unfold open_read_only, load, st_bind, st_get, lift_store, on_store, st_modify. simpl.
  destruct (load_lines load_line (d_base d) (emptyStore true)) as [s0|] eqn:E0; [|done]. simpl.
  pose proof (load_lines_ok load_line spec_base_line _ _ _ load_line_ok (wf_empty true) E0) as (Hw0 & Hl0 & Hb0).
  destruct Hb0 as (Hro & _).
  unfold loadJournal, st_bind, st_get, stashJournal, st_fail, st_ret. simpl. rewrite Hro. simpl.
  destruct (d_journal d) as [[|[n hd] recs]|] eqn:Ej; simpl.
  - done.
  - destruct hd as [| | |st jd]; simpl; [done..|].
    destruct (negb (st && is_header jd)); [done|].
    destruct (hdr_J (as_header jd) =? 0) eqn:EJ; [done|].
    destruct (hdr_J (as_header jd) =? journalVersion) eqn:EV; simpl; [|done].
    unfold journal_mismatch. simpl.
    destruct (hdr_BSize (as_header jd) =? d_size d) eqn:ES; simpl; [|done].
    destruct (hdr_BMtime (as_header jd) =? d_mtime d) eqn:EM; simpl; [|done].
    destruct (_ && _); [done|]. unfold lift_store. simpl.
    set (s1 := mkStore _ _ _ _ _ _ _ _ _ _ _ _ _ _ _ _).
    destruct (load_lines journal_line recs s1) as [s2|] eqn:E2; [|done]. simpl. intros [= <-].
    assert (Hw1 : wf s1) by by apply (wf_frame s0).
    pose proof (load_lines_ok journal_line spec_journal_line _ _ _ journal_line_ok Hw1 E2) as (Hw2 & Hl2 & _).
    go_bool. assert (Hbind : journal_binds d (n, Doc st jd) = true) by (by apply journal_binds_iff).
    split_and!; [done| |done|done]. rewrite Hl2. unfold view. rewrite Ej, Hbind.
    f_equal. change (live s0 = base_view d). by rewrite Hl0.
  - intros [= <-]. split_and!; [by apply (wf_frame s0)| |done|done].
    unfold view. rewrite Ej. change (live s0 = base_view d). by rewrite Hl0.
Qed.

(** Deleting a list of IDs, one record after the other. *)
Lemma spec_dels json_len dead l :
  spec_lines spec_journal_line (map (fun e => jline json_len (JRecord (del_record (ID (e_s e))))) dead) l
  = filter (fun e => ID (e_s e) ∉ ids dead) l.
Proof.
  revert l. induction dead as [|x dead IH]; intros l; simpl.
  - induction l as [|y l IHl]; [done|]. rewrite filter_cons_True by apply not_elem_of_nil. by rewrite <- IHl.
  - change (foldl _ ?a ?b) with (spec_lines spec_journal_line b a). rewrite IH. unfold spec_journal_line, spec_record. simpl.
    unfold spec_del. rewrite list_filter_filter. apply list_filter_iff. intros e.
    unfold has_id. rewrite not_elem_of_cons. naive_solver.
Qed.

Lemma pruned_view json_len d s dead : open_read_only d = Ok s ->
  view (d <| d_journal := Some (pruned_journal json_len s d dead) |> <| d_torn := false |>)
  = filter (fun e => ID (e_s e) ∉ ids dead) (view d).
Proof.
  intros Hs. destruct (open_read_only_view d s Hs) as (_ & _ & Hb & Hj). rewrite <- (spec_dels json_len).
  unfold view, pruned_journal. simpl. destruct (d_journal d) as [[|hd recs]|]; [done| |].
  - simpl. change (journal_binds _ hd) with (journal_binds d hd). rewrite Hj. unfold spec_lines. by rewrite foldl_app.
  - destruct Hb as [Hsz Hmt]; [done|]. simpl. unfold journal_binds. simpl. by rewrite Hsz, Hmt, !Z.eqb_refl.
Qed.

(** ** Properties *)

(** C22: a plan removes only what it may.  Every candidate is an entry of the
    requested scope and project that no protection covers, and every reason it
    carries holds.  An exact duplicate names another entry of the same content and
    provenance, in scope, that the plan itself does not remove; a missing
    dependency was looked up below a given root, and no path of the entry was
    ambiguous; a stale entry is older than the window in creation and in use, and
    one called stale on probation or stale and rejected is a result on probation,
    or was rejected or rated down, besides.  Kept and removed add up to the entries
    checked. *)
Theorem planPrune_safe sanitize dto_len fs entries o r :
  NoDup (ids entries) -> planPrune sanitize dto_len fs entries o = Ok r ->
  pr_Kept r + Z.of_nat (length (pr_Candidates r)) = pr_Checked r
  /\ forall c, c ∈ pr_Candidates r -> exists e, e ∈ entries /\ ID (e_s e) = pc_ID c /\ in_scope o (e_s e)
     /\ pruneProtected (e_s e) o = false /\ pc_Reasons c <> []
     /\ forall why, why ∈ pc_Reasons c ->
        (why = "exact_duplicate"%string /\ pc_RetainedID c <> pc_ID c
         /\ (pc_RetainedID c ∉ map pc_ID (pr_Candidates r))
         /\ exists e', e' ∈ entries /\ ID (e_s e') = pc_RetainedID c /\ in_scope o (e_s e')
              /\ duplicateKey (e_s e') = duplicateKey (e_s e))
        \/ reason_holds fs o (e_s e) why.
Proof.
  intros Hn Hr. destruct (planPrune_ok _ _ _ _ _ _ Hr) as (Hcs & _ & Hk & _). cbv zeta in Hcs.
  split; [lia|]. rewrite Hcs. intros c (e & -> & (He & Hsc & Hc)%doomed_spec)%list_elem_of_fmap.
  exists e. set (all := map e_s (filter (fun e => in_scope o (e_s e)) entries)) in *.
  pose proof Hc as Hc'. unfold is_candidate in Hc'. go_bool. split_and!; [done..| | |].
  - destruct (pruneProtected (e_s e) o) eqn:E; [|done]. apply (judge_protected fs) in E. congruence.
  - simpl. by destruct (all_reasons _ _ _).
  - simpl. intros why. unfold all_reasons. destruct (retained _ all (e_s e)) as [id|] eqn:Eret; simpl.
    2: { intros Hw%judge_reasons; [by right|done]. }
    intros [->|Hw]%elem_of_cons; [|apply judge_reasons in Hw; [by right|done]].
    destruct (retained_spec _ _ _ _ _ Eret) as (t & Ht & <- & Hne & Hkey & Hkept). left.
    apply list_elem_of_fmap in Ht as (e' & -> & [Hsc' He']%list_elem_of_filter). split_and!; [done|by auto| |eauto].
    intros (c & Hid & (x & -> & (Hx & _ & Hxc)%doomed_spec)%list_elem_of_fmap)%list_elem_of_fmap. simpl in Hid.
    assert (x = e') as -> by (apply (NoDup_map_inj (fun e => ID (e_s e)) entries); auto). fold all in Hxc. congruence.
Qed.

(** a plan is a function of the library, not of the order in which the entry
    map is iterated: the same entries in any order give the same candidates, the
    same representatives and the same report. *)
Theorem planPrune_order sanitize dto_len fs o es es' :
  NoDup (ids es) -> es ≡ₚ es' ->
  planPrune sanitize dto_len fs es o = planPrune sanitize dto_len fs es' o.
Proof.
  intros Hn Hp. unfold planPrune, doomed.
  assert (Hs : (filter (fun e => in_scope o (e_s e)) es) ≡ₚ (filter (fun e => in_scope o (e_s e)) es')) by by rewrite Hp.
  assert (Hns : NoDup (ids (filter (fun e => in_scope o (e_s e)) es))) by (eapply sublist_NoDup; [done|apply ids_filter]).
  revert Hs Hns. generalize (filter (fun e => in_scope o (e_s e)) es), (filter (fun e => in_scope o (e_s e)) es').
  intros l l' Hs Hns. assert (Hm : map e_s l ≡ₚ map e_s l') by by rewrite Hs.
  assert (Hnm : NoDup (map ID (map e_s l))) by by rewrite map_map.
  rewrite (by_id_sort_perm l l') by done.
  rewrite (List.filter_ext _ (fun e => is_candidate (judge fs o) (map e_s l') (e_s e)))
    by (intros e; by apply (candidate_perm sanitize dto_len)).
  destruct (if (_ =? _)%string then _ else _); [|done]. simpl. destruct (forallb _ _); [|done]. simpl.
  rewrite (Permutation_length Hm).
  rewrite (map_ext (candidate sanitize dto_len (judge fs o) (map e_s l)) (candidate sanitize dto_len (judge fs o) (map e_s l')))
    by (intros e; by apply candidate_perm).
  assert (He : existsb (fun s => v_uncertain (judge fs o s)) (map e_s l) = existsb (fun s => v_uncertain (judge fs o s)) (map e_s l')).
  { apply eq_true_iff_eq. rewrite !existsb_exists. setoid_rewrite <- list_elem_of_In. by setoid_rewrite Hm. }
  by rewrite He.
Qed.

(** The outcomes of an apply that reaches the archive. *)
Lemma doomed_live sanitize dto_len fs o d s r :
  open_read_only d = Ok s -> planPrune sanitize dto_len fs (live s) o = Ok r ->
  map pc_ID (pr_Candidates r) = ids (doomed fs o (live s))
  /\ forall e, e ∈ doomed fs o (live s) -> e ∈ view d.
Proof.
  intros Hs Hr. destruct (planPrune_ok _ _ _ _ _ _ Hr) as (-> & _). rewrite map_map. split; [done|].
  destruct (open_read_only_view d s Hs) as (_ & <- & _). by intros e [? _]%doomed_spec.
Qed.

Lemma normalized_apply clock opts o : normalized clock opts = Ok o -> po_Apply o = po_Apply opts.
Proof.
  unfold normalized. destruct (negb _ && negb _); [done|]. cbv zeta.
  repeat match goal with |- context [if ?b then Err _ else _] => destruct b; [done|] end.
  intros [= <-]. by repeat case_match.
Qed.

Lemma load_checked_ok io d s : load_checked io d = Ok s -> open_read_only d = Ok s.
Proof.
  unfold load_checked. destruct (open_read_only d) as [s'|]; [|done]. destruct (0 <? _); [done|].
  destruct (pi_lease io); [|destruct (pi_sidecar io)|]; naive_solver.
Qed.

Lemma commitPrune_err json_len io s dead r w e w' :
  commitPrune json_len io s dead r w = (Err e, w') -> pw_disk w' = pw_disk w.
Proof.
  unfold commitPrune. intros H. repeat case_match; by simplify_eq.
Qed.

Lemma commitPrune_ok json_len io s dead r0 w r w' :
  commitPrune json_len io s dead r0 w = (Ok r, w') ->
  pr_Candidates r = pr_Candidates r0 /\ pr_Removed r = Z.of_nat (length (pr_Candidates r0))
  /\ pw_archives w' = pw_archives w ++ [map dtoFromEntry dead]
  /\ pw_disk w' = pw_disk w <| d_journal := Some (pruned_journal json_len s (pw_disk w) dead) |> <| d_torn := false |>.
Proof.
  unfold commitPrune. intros H. repeat case_match; by simplify_eq.
Qed.

(** What a run of [pruneFile] may have done. *)
Definition committed (opts : PruneOptions) (w : PruneWorld) (r : result PruneResult) (w' : PruneWorld) : Prop :=
  match r with
  | Err _ => pw_disk w' = pw_disk w
  | Ok r =>
      if pr_Removed r =? 0 then w' = w else
      po_Apply opts = true /\ pr_Removed r = Z.of_nat (length (pr_Candidates r))
      /\ (exists dead, pw_archives w' = pw_archives w ++ [map dtoFromEntry dead]
           /\ ids dead = map pc_ID (pr_Candidates r) /\ forall e, e ∈ dead -> e ∈ view (pw_disk w))
      /\ d_base (pw_disk w') = d_base (pw_disk w)
      /\ forall io2, io_rename io2 = true -> io_open io2 = true ->
           exists s d, NewFileStore io2 (pw_disk w') = (Ok s, d)
             /\ live s = filter (fun e => ID (e_s e) ∉ map pc_ID (pr_Candidates r)) (view (pw_disk w))
  end.

Lemma plan_commits sanitize json_len dto_len fs io opts o s r0 w r w' :
  po_Apply o = po_Apply opts -> open_read_only (pw_disk w) = Ok s ->
  planPrune sanitize dto_len fs (live s) o = Ok r0 ->
  (if negb (po_Apply o) || (Z.of_nat (length (pr_Candidates r0)) =? 0) then (Ok r0, w)
   else commitPrune json_len io s (doomed fs o (live s)) r0 w) = (r, w') ->
  committed opts w r w'.
Proof.
  intros Ha Hs Hr. destruct (planPrune_ok _ _ _ _ _ _ Hr) as (_ & _ & _ & Hrem).
  destruct (doomed_live _ _ _ _ _ _ _ Hs Hr) as [Hids Hin].
  destruct (_ || _) eqn:E; [intros [= <- <-]; simpl; by rewrite Hrem|]. go_bool. unfold committed.
  destruct r as [r|e]; [|apply commitPrune_err]. intros (Hc & Hn & Har & Hd)%commitPrune_ok.
  rewrite Hn, Hc, (proj2 (Z.eqb_neq _ _)) by done. split_and!; [congruence|done| |by rewrite Hd|].
  - eexists. split_and!; [exact Har|by rewrite Hids|done].
  - intros io2 Hren Hop. destruct (NewFileStore_spec io2 (pw_disk w') Hren Hop) as (s2 & d2 & H2 & Hsy & Hv & _).
    exists s2, d2. split; [done|]. rewrite (sy_live _ _ Hsy), Hv, Hd, Hids. by apply pruned_view.
Qed.

(** C23: pruning is one atomic step.  An error and a dry run leave the disk as it
    was; so does an apply that finds nothing.  A commit happens only under
    [Apply], after the complete rows of exactly the candidates were archived; it
    leaves the base file alone, and a store opened afterwards holds the old
    entries, in their old order, less the candidates. *)
Theorem prune_commits sanitize json_len dto_len clock fs io opts w r w' :
  pruneFile sanitize json_len dto_len clock fs io opts w = (r, w') -> committed opts w r w'.
Proof.
  unfold pruneFile. destruct (normalized clock opts) as [o|] eqn:Eo; [|by intros [= <- <-]].
  destruct (pi_stat io) as [[]| | |]; try by intros [= <- <-].
  destruct (pi_canonical io); [|by intros [= <- <-]]. cbn [negb].
  assert (Hmain : match load_checked io (pw_disk w) with
    | Err e => (Err e, w)
    | Ok s => match planPrune sanitize dto_len fs (live s) o with
      | Err e => (Err e, w)
      | Ok r => if negb (po_Apply o) || (Z.of_nat (length (pr_Candidates r)) =? 0) then (Ok r, w)
                else commitPrune json_len io s (doomed fs o (live s)) r w
      end end = (r, w') -> committed opts w r w').
  { intros Hx. destruct (load_checked io (pw_disk w)) as [s|] eqn:Es; [|by simplify_eq].
    destruct (planPrune sanitize dto_len fs (live s) o) as [r0|] eqn:Er; [|by simplify_eq].
    exact (plan_commits _ _ _ _ _ _ _ _ _ _ _ _ (normalized_apply _ _ _ Eo) (load_checked_ok _ _ _ Es) Er Hx). }
  revert Hmain. destruct (pi_lease io), (po_Apply o); intros Hmain; solve [by intros [= <- <-]|exact Hmain].
Qed.

(** ** On a concrete library *)

Module Sample.
Definition dto (id content : string) (created : Z) : sliceDTO :=
  mkDTO id Prompt Project content None zero_stats f1 zero_meta created.
Definition now : Z := 1000 * 86400.
(** A stale entry, a newer one of the same content, and one of today. *)
Definition disk : Disk :=
  mkDisk (map (fun d => (60, Doc true d))
            [dto "old" "body" 7; dto "mid" "body" (940 * 86400); dto "new" "other" (999 * 86400)])
    183 100 "sha" None false [].
Definition opts : PruneOptions := mkPruneOptions Project true 0 0 "" "" now.
Definition fs : pruneFS := mkPruneFS (fun _ => Ok tt) (fun _ => LstatFailed).
Definition good_write : write_io := mkWriteIO true true true false true true.
Definition io : pruneIO := mkPruneIO Regular true Leased false true good_write "archive" good_write true.
Definition opened : list storedEntry := view disk.
Definition windows : PruneOptions := opts <| po_OlderThanDays := 90 |> <| po_RecentDays := 30 |>.
Definition sanitize (s : string) : string := s.
Definition dto_len (_ : sliceDTO) : Z := 60.
Definition plan (es : list storedEntry) : result PruneResult := planPrune sanitize dto_len fs es windows.
Definition pruned : result PruneResult * PruneWorld :=
  pruneFile sanitize (fun _ => 40) dto_len 0 fs io opts (mkPW disk []).

Example plan_reasons :
  match plan opened with
  | Ok r => map (fun c => (pc_ID c, pc_Reasons c, pc_RetainedID c)) (pr_Candidates r)
  | Err _ => []
  end = [("old", ["exact_duplicate"; "stale_unused"], "mid")]%string.
Proof. vm_compute. reflexivity. Qed.
End Sample.

Lemma Sample_planned : exists r, Sample.plan Sample.opened = Ok r /\ length (pr_Candidates r) = 1%nat.
Proof. eexists. split; [vm_compute; reflexivity|reflexivity]. Defined.

Lemma Sample_NoDup : NoDup (ids Sample.opened).
Proof. apply (bool_decide_unpack (NoDup (ids Sample.opened))). vm_compute. exact I. Qed.

Lemma planPrune_safe_witness :
  exists r, Sample.plan Sample.opened = Ok r /\ pr_Kept r + Z.of_nat (length (pr_Candidates r)) = pr_Checked r.
Proof.
  destruct Sample_planned as (r & Hr & _). exists r. split; [exact Hr|].
  exact (proj1 (planPrune_safe Sample.sanitize Sample.dto_len Sample.fs Sample.opened Sample.windows r Sample_NoDup Hr)).
Defined.

Lemma planPrune_order_witness : Sample.plan Sample.opened = Sample.plan (rev Sample.opened).
Proof.
  exact (planPrune_order Sample.sanitize Sample.dto_len Sample.fs Sample.windows Sample.opened (rev Sample.opened) Sample_NoDup (Permutation_rev Sample.opened)).
Defined.

Lemma prune_commits_witness :
  committed Sample.opts (mkPW Sample.disk []) Sample.pruned.1 Sample.pruned.2
  /\ match Sample.pruned.1 with Ok r => pr_Removed r = 1 | Err _ => False end.
Proof.
  split; [|vm_compute; reflexivity].
  exact (prune_commits Sample.sanitize (fun _ => 40) Sample.dto_len 0 Sample.fs Sample.io Sample.opts
           (mkPW Sample.disk []) Sample.pruned.1 Sample.pruned.2 (surjective_pairing _)).
Defined.
