(* ===== verification/Promote.v ===== *)
(** kernel/promote: judge-approved promotions (promote.go, file_store.go), the
    failure lessons that blacklist a pair (rejection.go) and the decision surface
    over both (decision.go).

    [Store] and [RejectionStore] are the Go interfaces as classes; each comes with
    the laws its clients use, and the in-memory and the file implementations
    discharge them.  A file's reads and writes consume outcomes from a script of
    booleans, true when it is exhausted. *)

From Stdlib Require Import ZArith Lia Bool Ascii String.
From stdpp Require Import tactics base option list sorting gmap strings.
From S2P Require Import Prelude.

#[global] Open Scope Z_scope.

(** ** Entries *)

Record Entry := mkEntry {
  SourceSliceID : string;
  ContentVersion_ : string;
  Query : string;
  PromotedAt : Z;
}.

#[export] Instance Entry_eq_dec : EqDecision Entry.
Proof. solve_decision. Defined.

Definition same_triple (src version query : string) (e : Entry) : bool :=
  (SourceSliceID e =? src)%string && (ContentVersion_ e =? version)%string && (Query e =? query)%string.

Definition triple (e : Entry) : string * string * string :=
  (SourceSliceID e, ContentVersion_ e, Query e).

Lemma same_triple_spec s v q e : same_triple s v q e = true <-> triple e = (s, v, q).
Proof.
  unfold same_triple, triple. rewrite !andb_true_iff, !String.eqb_eq. split.
  - by intros [[-> ->] ->].
  - by intros [= -> -> ->].
Qed.

Definition older (a b : Entry) : bool := PromotedAt a <? PromotedAt b.
Definition without (s v q : string) (l : list Entry) : list Entry :=
  List.filter (fun e => negb (same_triple s v q e)) l.

Lemma elem_of_without s v q l e : e ∈ without s v q l <-> e ∈ l /\ triple e <> (s, v, q).
Proof.
  unfold without. rewrite !list_elem_of_In, filter_In, negb_true_iff, <- not_true_iff_false,
    same_triple_spec. tauto.
Qed.

Lemma without_NoDup s v q l : NoDup (map triple l) -> NoDup (map triple (without s v q l)).
Proof.
  intros Hn. induction l as [|e l IH]; [done|]. simpl in *. apply NoDup_cons in Hn as [He Hn].
  destruct (negb _); simpl; [|auto]. apply NoDup_cons. split; [|auto].
  intros (x & Hx & Hin)%list_elem_of_fmap. apply elem_of_without in Hin as [Hin _].
  apply He. rewrite Hx. apply list_elem_of_fmap. eauto.
Qed.

(** ** The interface *)

Class Store (S : Type) := {
  Put : Entry -> st S unit;
  List_ : string -> st S (list Entry);
  Delete : string -> string -> string -> st S unit;
}.

(** What the decision layer relies on: [held s src] are the entries of a source
    in insertion order, without duplicates. *)
Class StoreLaws (S : Type) `{Store S} := {
  held : S -> string -> list Entry;
  held_ok : S -> Prop;
  held_own s src e : held_ok s -> e ∈ held s src -> SourceSliceID e = src;
  held_NoDup s src : held_ok s -> NoDup (map triple (held s src));
  Put_law e s : held_ok s ->
    held_ok (Put e s).2
    /\ (is_ok (Put e s).1 = true -> forall src, held (Put e s).2 src =
          if decide (src = SourceSliceID e /\ triple e ∉ map triple (held s src))
          then held s src ++ [e] else held s src)
    /\ (is_ok (Put e s).1 = false -> forall src, held (Put e s).2 src = held s src);
  List_law src s : held_ok s ->
    held_ok (List_ src s).2 /\ (forall src', held (List_ src s).2 src' = held s src')
    /\ (forall l, (List_ src s).1 = Ok l -> l = go_sort older (held s src));
  Delete_law src v q s : held_ok s ->
    held_ok (Delete src v q s).2
    /\ (is_ok (Delete src v q s).1 = true -> forall src', held (Delete src v q s).2 src' =
          if decide (src' = src) then without src v q (held s src') else held s src')
    /\ (is_ok (Delete src v q s).1 = false -> forall src', held (Delete src v q s).2 src' = held s src');
}.

Record Rejection := mkRejection {
  rj_source : string;
  rj_query : string;
  rj_reason : string;
  rj_at : Z;
}.

Class RejectionStore (R : Type) := {
  Add : Rejection -> st R unit;
  Count : string -> string -> Z -> Z -> st R Z;
}.

Definition in_window (now ttl : Z) (r : Rejection) : bool := negb ((0 <? ttl) && (ttl <? now -! rj_at r)).
Definition is_pair (src query : string) (r : Rejection) : bool :=
  (rj_source r =? src)%string && (rj_query r =? query)%string.
Definition lessons (src query : string) (now ttl : Z) (l : list Rejection) : Z :=
  Z.of_nat (length (List.filter (fun r => is_pair src query r && in_window now ttl r) l)).

Class RejectionLaws (R : Type) `{RejectionStore R} := {
  recorded : R -> list Rejection;
  Add_law r s : is_ok (Add r s).1 = true -> recorded (Add r s).2 ≡ₚ recorded s ++ [r];
  Add_err r s : is_ok (Add r s).1 = false -> recorded (Add r s).2 = recorded s;
  Count_law src q now ttl s n : (Count src q now ttl s).1 = Ok n -> n = lessons src q now ttl (recorded s);
  Count_keeps src q now ttl s :
    recorded (Count src q now ttl s).2 = recorded s
    \/ recorded (Count src q now ttl s).2 ≡ₚ List.filter (in_window now ttl) (recorded s);
}.

(** ** The decision surface *)

Section Decision.
Context {S R : Type} `{StoreLaws S, RejectionLaws R}.
Context (ttl rejectLimit : Z).

Record Decision := mkDecision { entries : S; rejections : R }.

Definition on_entries {A} (m : st S A) : st Decision A := fun d =>
  let '(r, s) := m (entries d) in (r, mkDecision s (rejections d)).
Definition on_rejections {A} (m : st R A) : st Decision A := fun d =>
  let '(r, s) := m (rejections d) in (r, mkDecision (entries d) s).

Definition expiredBy (e : Entry) (now : Z) : bool := (0 <? ttl) && (ttl <? now -! PromotedAt e).

(** The lazy deletion of the expired entries of one snapshot; the first failed
    delete stops it. *)
Fixpoint expire (src : string) (now : Z) (l : list Entry) (d : Decision) : Decision :=
  match l with
  | [] => d
  | e :: l' =>
      if negb (expiredBy e now) then expire src now l' d
      else match on_entries (Delete src (ContentVersion_ e) (Query e)) d with
           | (Ok _, d') => expire src now l' d'
           | (Err _, d') => d'
           end
  end.

Definition Lookup (src query currentVersion : string) (now : Z) (d : Decision) : bool * Decision :=
  match on_entries (List_ src) d with
  | (Err _, d') => (false, d')
  | (Ok l, d') =>
      let hit := existsb (fun e => negb (expiredBy e now) && (Query e =? query)%string
                            && (ContentVersion_ e =? currentVersion)%string) l in
      let expired := existsb (fun e => expiredBy e now) l in
      (hit, if expired then expire src now l d' else d')
  end.

Definition Blacklisted (src query : string) (now : Z) (d : Decision) : bool * Decision :=
  if rejectLimit <=? 0 then (false, d) else
  match on_rejections (Count src query now ttl) d with
  | (Err _, d') => (false, d')
  | (Ok n, d') => (rejectLimit <=? n, d')
  end.

Definition ErrBlacklisted : string := "promote: candidate blacklisted by repeated rejections".

Definition Promote (e : Entry) : st Decision unit := fun d =>
  let '(b, d') := Blacklisted (SourceSliceID e) (Query e) (PromotedAt e) d in
  if b then (Err ErrBlacklisted, d') else on_entries (Put e) d'.

Definition Rejected (src query reason : string) (now : Z) (d : Decision) : Decision :=
  (on_rejections (Add (mkRejection src query reason now)) d).2.

(** *** Lookup *)

Lemma on_entries_eq {A} (m : st S A) d :
  on_entries m d = ((m (entries d)).1, mkDecision (m (entries d)).2 (rejections d)).
Proof. unfold on_entries. by destruct (m (entries d)). Qed.

Lemma on_rejections_eq {A} (m : st R A) d :
  on_rejections m d = ((m (rejections d)).1, mkDecision (entries d) (m (rejections d)).2).
Proof. unfold on_rejections. by destruct (m (rejections d)). Qed.

Definition fresh_pair (query version : string) (now : Z) (e : Entry) : Prop :=
  expiredBy e now = false /\ Query e = query /\ ContentVersion_ e = version.

Lemma Lookup_hit src query v now d :
  held_ok (entries d) -> is_ok (List_ src (entries d)).1 = true ->
  (Lookup src query v now d).1 = true <->
  exists e, e ∈ held (entries d) src /\ fresh_pair query v now e.
Proof.
  intros Hok Hlist. unfold Lookup. rewrite on_entries_eq.
  destruct (List_law src (entries d) Hok) as (_ & _ & Hl).
  destruct (List_ src (entries d)) as [[l|e] s]; [|done]. simpl in *. rewrite (Hl l eq_refl).
  rewrite existsb_exists. unfold fresh_pair. split; intros (e & He & Hb); exists e.
  - rewrite <- list_elem_of_In, elem_of_go_sort in He. split; [done|].
    rewrite !andb_true_iff, negb_true_iff, !String.eqb_eq in Hb. tauto.
  - rewrite <- list_elem_of_In, elem_of_go_sort. split; [done|].
    rewrite !andb_true_iff, negb_true_iff, !String.eqb_eq. tauto.
Qed.

(** Deleting expired entries keeps everything else. *)
Lemma expire_keeps src now l d :
  held_ok (entries d) -> (forall e, e ∈ l -> SourceSliceID e = src) ->
  held_ok (entries (expire src now l d))
  /\ rejections (expire src now l d) = rejections d
  /\ (forall src' e, e ∈ held (entries (expire src now l d)) src' -> e ∈ held (entries d) src')
  /\ (forall src' e, e ∈ held (entries d) src' ->
        (forall x, x ∈ l -> expiredBy x now = true -> triple x <> triple e) ->
        e ∈ held (entries (expire src now l d)) src').
Proof.
  revert d. induction l as [|x l IH]; intros d Hok Hsrc; simpl; [auto|].
  destruct (expiredBy x now) eqn:Ex; simpl; cycle 1.
  { destruct (IH d Hok) as (? & ? & ? & H4); [intros; apply Hsrc; by right|].
    split_and!; [done..|]. intros src' e He Hx. apply H4; [done|]. intros y Hy. apply Hx. by right. }
  rewrite on_entries_eq.
  destruct (Delete_law src (ContentVersion_ x) (Query x) (entries d) Hok) as (Hok' & Hdel & Herr).
  destruct (Delete src (ContentVersion_ x) (Query x) (entries d)) as [[u|er] s']; simpl in *.
  - specialize (Hdel eq_refl).
    destruct (IH (mkDecision s' (rejections d)) Hok') as (Hk1 & Hk2 & Hk3 & Hk4);
      [intros; apply Hsrc; by right|]. simpl in *.
    split_and!; [done|done| |].
    + intros src' e He%Hk3. rewrite Hdel in He. destruct (decide _); [|done].
      by apply elem_of_without in He as [? _].
    + intros src' e He Hx. apply Hk4; [|intros y Hy; apply Hx; by right]. rewrite Hdel.
      destruct (decide _); [|done]. apply elem_of_without. split; [done|].
      rewrite <- (Hsrc x) by left. apply not_eq_sym. apply Hx; [left|done].
  - specialize (Herr eq_refl). split_and!; [done|done| |]; intros src' e; by rewrite Herr.
Qed.

Lemma expire_all src now l d :
  held_ok (entries d) -> (forall e, e ∈ l -> e ∈ held (entries d) src) ->
  (forall e src', e ∈ held (entries d) src' -> expiredBy e now = false ->
    e ∈ held (entries (expire src now l d)) src')
  /\ (forall e src', e ∈ held (entries (expire src now l d)) src' -> e ∈ held (entries d) src')
  /\ held_ok (entries (expire src now l d)).
Proof.
  intros Hok Hl. destruct (expire_keeps src now l d Hok) as (? & _ & ? & Hk).
  { intros e He. apply (held_own (entries d) src); [done|]. by apply Hl. }
  split_and!; [|auto|done]. intros e src' He Hexp. apply Hk; [done|]. intros x Hx Hxe Heq.
  assert (Hs : src' = src).
  { rewrite <- (held_own _ _ _ Hok He), <- (held_own _ _ x Hok (Hl x Hx)).
    by injection Heq. }
  subst src'. cut (x = e); [by intros ->; congruence|].
  apply (NoDup_map_inj triple (held (entries d) src)); auto. by apply held_NoDup.
Qed.

(** a promotion lookup answers yes exactly when an entry of the slice,
    approved for this query and this content version, is inside the retention
    window; its lazy cleanup removes no entry that is still inside the window
    and adds none. *)
Theorem Lookup_spec src query v now d :
  held_ok (entries d) -> is_ok (List_ src (entries d)).1 = true ->
  ((Lookup src query v now d).1 = true <->
    exists e, e ∈ held (entries d) src /\ fresh_pair query v now e)
  /\ (forall e src', e ∈ held (entries d) src' -> expiredBy e now = false ->
        e ∈ held (entries (Lookup src query v now d).2) src')
  /\ (forall e src', e ∈ held (entries (Lookup src query v now d).2) src' -> e ∈ held (entries d) src')
  /\ held_ok (entries (Lookup src query v now d).2).
Proof.
  intros Hok Hlist. split; [by apply Lookup_hit|]. unfold Lookup. rewrite on_entries_eq.
  destruct (List_law src (entries d) Hok) as (Hok' & Hsame & Hl).
  destruct (List_ src (entries d)) as [[l|e] s]; [|done]. simpl in *. specialize (Hl l eq_refl).
  destruct (existsb _ l); simpl; [|by split_and!; [intros; rewrite Hsame|intros ? ?; rewrite Hsame|]].
  destruct (expire_all src now l (mkDecision s (rejections d)) Hok') as (H1' & H2' & H3').
  { simpl. intros e. rewrite Hsame, Hl. by rewrite elem_of_go_sort. }
  simpl in *. split_and!; [|intros e src'; rewrite <- Hsame; apply H2'|done].
  intros e src' He. apply H1'. by rewrite Hsame.
Qed.

(** The blacklist.  With a positive limit, a pair with that many lessons in
    the window is refused and the promotion entries stay as they were; below it
    the entry is written. *)
Theorem Promote_blacklist e d n :
  0 < rejectLimit -> held_ok (entries d) ->
  (Count (SourceSliceID e) (Query e) (PromotedAt e) ttl (rejections d)).1 = Ok n ->
  (rejectLimit <= lessons (SourceSliceID e) (Query e) (PromotedAt e) ttl (recorded (rejections d)) ->
    (Promote e d).1 = Err ErrBlacklisted /\ entries (Promote e d).2 = entries d)
  /\ (lessons (SourceSliceID e) (Query e) (PromotedAt e) ttl (recorded (rejections d)) < rejectLimit ->
       is_ok (Promote e d).1 = true ->
       exists x, x ∈ held (entries (Promote e d).2) (SourceSliceID e) /\ triple x = triple e).
Proof.
  intros Hlim Hok Hc. pose proof (Count_law _ _ _ _ _ _ Hc) as Hn.
  unfold Promote, Blacklisted. rewrite (proj2 (Z.leb_gt rejectLimit 0)) by lia.
  rewrite on_rejections_eq. rewrite Hc. simpl. rewrite Hn. split; intros Hcmp.
  - by rewrite (proj2 (Z.leb_le _ _)) by lia.
  - rewrite (proj2 (Z.leb_gt _ _)) by lia. rewrite on_entries_eq. simpl. intros Hput.
    destruct (Put_law e (entries d) Hok) as (_ & Hp & _). rewrite (Hp Hput).
    destruct (decide _) as [[_ Hnot]|Hin].
    + exists e. split; [|done]. apply elem_of_app. right. by apply list_elem_of_singleton.
    + destruct (decide (triple e ∈ map triple (held (entries d) (SourceSliceID e)))) as [Hi|]; [|tauto].
      apply list_elem_of_fmap in Hi as (x & Hx & Hxl). by exists x.
Qed.

(** *** Cascade *)

Context (ContentVersion : string -> string).

Fixpoint cascade (src want : string) (l : list Entry) (n : Z) : st S Z := fun s =>
  match l with
  | [] => (Ok n, s)
  | e :: l' =>
      if (ContentVersion_ e =? want)%string then cascade src want l' n s
      else match Delete src (ContentVersion_ e) (Query e) s with
           | (Ok _, s') => cascade src want l' (n + 1) s'
           | (Err _, s') => (Err "promote: cascade delete", s')
           end
  end.

Definition CascadeInvalidate (src currentContent : string) : st S Z :=
  let! l := List_ src in cascade src (ContentVersion currentContent) l 0.

Definition stale (want : string) (e : Entry) : bool := negb (ContentVersion_ e =? want)%string.

Lemma cascade_spec src want l n s :
  held_ok s -> (forall e, e ∈ l -> e ∈ held s src) -> NoDup (map triple l) ->
  forall r, (cascade src want l n s).1 = Ok r ->
    r = n + Z.of_nat (length (List.filter (stale want) l))
    /\ held_ok (cascade src want l n s).2
    /\ (forall e, e ∈ held (cascade src want l n s).2 src <->
          e ∈ held s src /\ ~ (exists x, x ∈ l /\ stale want x = true /\ triple x = triple e)).
Proof.
  intros Hok. revert n s Hok. induction l as [|x l IH]; intros n s Hok Hl Hnd r; simpl.
  { intros [= <-]. split_and!; [lia|done|]. intros e. split; [|tauto]. intros He. split; [done|].
    intros (x & Hx & _). by apply not_elem_of_nil in Hx. }
  assert (Hcons : forall e, (exists y, y ∈ x :: l /\ stale want y = true /\ triple y = triple e) <->
    (stale want x = true /\ triple x = triple e)
    \/ (exists y, y ∈ l /\ stale want y = true /\ triple y = triple e)).
  { intros e. split.
    - intros (y & [->|Hy]%elem_of_cons & Hst); [by left|right; by exists y].
    - intros [[Hst Ht]|(y & Hy & Hst)]; [exists x|exists y]; (split; [|done]); by constructor. }
  destruct (ContentVersion_ x =? want)%string eqn:Ev.
  all: simpl in Hnd; apply NoDup_cons in Hnd as [Hxl Hnd].
  - intros Hr. destruct (IH n s Hok (fun e He => Hl e (list_elem_of_further _ _ _ He)) Hnd r Hr) as (-> & Hk & Hm).
    assert (Hst : stale want x = false) by (unfold stale; by rewrite Ev). rewrite Hst.
    split_and!; [done|done|]. intros e. rewrite Hm, Hcons, Hst. intuition congruence.
  - destruct (Delete_law src (ContentVersion_ x) (Query x) s Hok) as (Hok' & Hdel & _).
    destruct (Delete src (ContentVersion_ x) (Query x) s) as [[u|er] s'] eqn:Ed; simpl in *; [|done].
    specialize (Hdel eq_refl). intros Hr.
    assert (Hx : SourceSliceID x = src) by (apply (held_own s); [done|apply Hl; left]).
    assert (Htr : triple x = (src, ContentVersion_ x, Query x)) by (by rewrite <- Hx).
    assert (Hheld : forall e, e ∈ held s' src <-> e ∈ held s src /\ triple x <> triple e).
    { intros e. rewrite Hdel, decide_True, elem_of_without, Htr by done. intuition congruence. }
    assert (Hst : stale want x = true) by (unfold stale; by rewrite Ev). rewrite Hst.
    destruct (IH (n + 1) s' Hok') with (r := r) as (-> & Hk & Hm); [|done|done|].
    { intros e He. apply Hheld. split; [apply Hl; by right|]. intros Heq. apply Hxl. rewrite Heq.
      by apply list_elem_of_fmap_2. }
    split_and!; [simpl; lia|done|]. intros e. rewrite Hm, Hcons, Hheld, Hst. tauto.
Qed.

(** cascade invalidation.  When it returns, no promotion of the slice
    crosses versions, every entry of the current version is still there, and the
    count is the number removed; running it again removes nothing. *)
Theorem CascadeInvalidate_spec src content s n :
  held_ok s -> (CascadeInvalidate src content s).1 = Ok n ->
  (forall e, e ∈ held (CascadeInvalidate src content s).2 src <->
     e ∈ held s src /\ ContentVersion_ e = ContentVersion content)
  /\ n = Z.of_nat (length (List.filter (stale (ContentVersion content)) (held s src)))
  /\ held_ok (CascadeInvalidate src content s).2
  /\ (forall m, (CascadeInvalidate src content (CascadeInvalidate src content s).2).1 = Ok m -> m = 0).
Proof.
  set (want := ContentVersion content). intros Hok Hrun.
  assert (Hone : forall s n, held_ok s -> (CascadeInvalidate src content s).1 = Ok n ->
    (forall e, e ∈ held (CascadeInvalidate src content s).2 src <->
       e ∈ held s src /\ ContentVersion_ e = want)
    /\ n = Z.of_nat (length (List.filter (stale want) (held s src)))
    /\ held_ok (CascadeInvalidate src content s).2).
  { clear. intros s n Hok. unfold CascadeInvalidate, st_bind.
    destruct (List_law src s Hok) as (Hok' & Hsame & Hl).
    destruct (List_ src s) as [[l|e] s']; simpl in *; [|done]. specialize (Hl l eq_refl).
    assert (Hp : l ≡ₚ held s src) by (rewrite Hl; apply go_sort_perm).
    intros Hrun. destruct (cascade_spec src want l 0 s' Hok') with (r := n) as (Hn & Hk & Hm); [| |done|].
    - intros e. by rewrite Hsame, Hp.
    - rewrite Hp. by apply held_NoDup.
    - fold want. split_and!; [|rewrite Hn; by rewrite Hp|done]. intros e. rewrite Hm, Hsame. split.
      + intros [He Hnot]. split; [done|]. destruct (decide (ContentVersion_ e = want)) as [|Hv]; [done|].
        destruct Hnot. exists e. split_and!; [by rewrite Hp| |done]. unfold stale.
        rewrite negb_true_iff. by apply String.eqb_neq.
      + intros [He Hv]. split; [done|]. intros (x & _ & Hx & Ht). unfold stale in Hx.
        rewrite negb_true_iff, String.eqb_neq in Hx. apply Hx. injection Ht. congruence. }
  destruct (Hone s n Hok Hrun) as (Hm & Hn & Hk). split_and!; [done|done|done|].
  intros m Hrun2. destruct (Hone _ m Hk Hrun2) as (_ & -> & _).
  assert (Hnil : forall l, (forall e, e ∈ l -> ContentVersion_ e = want) -> List.filter (stale want) l = []).
  { clear. induction l as [|e l IH]; intros Hl; [done|]. simpl. unfold stale at 1.
    rewrite (Hl e), String.eqb_refl by left. simpl. apply IH. intros x Hx. apply Hl. by right. }
  rewrite Hnil; [done|]. intros e He. by apply Hm in He as [_ ?].
Qed.
End Decision.

(** ** Any two implementations agree *)

Inductive store_op : Type :=
| SPut (e : Entry)
| SDelete (src v q : string)
| SList (src : string).

Section Agree.
Context {S : Type} `{StoreLaws S}.

(** The answers of a sequence of calls, all of which succeed. *)
Fixpoint answers (ops : list store_op) (s : S) : option (list (list Entry)) :=
  match ops with
  | [] => Some []
  | SPut e :: ops => match Put e s with (Ok _, s') => answers ops s' | _ => None end
  | SDelete src v q :: ops => match Delete src v q s with (Ok _, s') => answers ops s' | _ => None end
  | SList src :: ops =>
      match List_ src s with (Ok l, s') => cons l <$> answers ops s' | _ => None end
  end.
End Agree.

Section Agree2.
Context {S T : Type} `{StoreLaws S} `{StoreLaws T}.

Lemma answers_agree ops (s : S) (t : T) a b :
  held_ok s -> held_ok t -> (forall src, held s src = held t src) ->
  answers ops s = Some a -> answers ops t = Some b -> a = b.
Proof.
  revert s t a b. induction ops as [|o ops IH]; intros s t a b Hs Ht Heq Ha Hb; simpl in *; [congruence|].
  destruct o as [e|src v q|src].
  - destruct (Put_law e s Hs) as (Hs' & Hp & _). destruct (Put_law e t Ht) as (Ht' & Hq & _).
    destruct (Put e s) as [[|] s1]; [|done]. destruct (Put e t) as [[|] t1]; [|done]. simpl in *.
    apply (IH s1 t1); try done. intros x. rewrite Hp, Hq by done. by rewrite Heq.
  - destruct (Delete_law src v q s Hs) as (Hs' & Hp & _).
    destruct (Delete_law src v q t Ht) as (Ht' & Hq & _).
    destruct (Delete src v q s) as [[|] s1]; [|done]. destruct (Delete src v q t) as [[|] t1]; [|done].
    simpl in *. apply (IH s1 t1); try done. intros x. rewrite Hp, Hq by done. by rewrite Heq.
  - destruct (List_law src s Hs) as (Hs' & Hp & Hl). destruct (List_law src t Ht) as (Ht' & Hq & Hm).
    destruct (List_ src s) as [[l|] s1]; [|done]. destruct (List_ src t) as [[m|] t1]; [|done].
    simpl in *. rewrite (Hl l eq_refl) in Ha. rewrite (Hm m eq_refl), <- Heq in Hb.
    destruct (answers ops s1) as [a'|] eqn:Ea; [|done]. destruct (answers ops t1) as [b'|] eqn:Eb; [|done].
    simpl in *. simplify_eq. f_equal. apply (IH s1 t1); try done. intros x. by rewrite Hp, Hq.
Qed.
End Agree2.

(** ** The in-memory store *)

Module Mem.
Definition MemStore : Type := gmap string (list Entry).
Definition NewMemStore : MemStore := ∅.
Definition cur (m : MemStore) (src : string) : list Entry := default [] (m !! src).

Definition Put (e : Entry) : st MemStore unit := fun m =>
  if existsb (fun o => (ContentVersion_ o =? ContentVersion_ e)%string && (Query o =? Query e)%string)
       (cur m (SourceSliceID e))
  then (Ok tt, m)
  else (Ok tt, <[SourceSliceID e := cur m (SourceSliceID e) ++ [e]]> m).

Definition List_ (src : string) : st MemStore (list Entry) := fun m => (Ok (go_sort older (cur m src)), m).

(** Remove the first match. *)
Fixpoint remove_first (v q : string) (l : list Entry) : list Entry :=
  match l with
  | [] => []
  | e :: l' => if (ContentVersion_ e =? v)%string && (Query e =? q)%string then l' else e :: remove_first v q l'
  end.

Definition Delete (src v q : string) : st MemStore unit := fun m =>
  if existsb (fun e => (ContentVersion_ e =? v)%string && (Query e =? q)%string) (cur m src)
  then (Ok tt, <[src := remove_first v q (cur m src)]> m) else (Ok tt, m).

Definition mem_ok (m : MemStore) : Prop :=
  forall src, Forall (fun e => SourceSliceID e = src) (cur m src) /\ NoDup (map triple (cur m src)).

Lemma cur_insert m src l src' : cur (<[src := l]> m) src' = if decide (src' = src) then l else cur m src'.
Proof.
  unfold cur, MemStore in *. destruct (decide (src' = src)) as [->|]; [by rewrite lookup_insert_eq|].
  by rewrite lookup_insert_ne.
Qed.

Lemma own_match src v q l :
  Forall (fun e => SourceSliceID e = src) l ->
  existsb (fun e => (ContentVersion_ e =? v)%string && (Query e =? q)%string) l = true
  <-> (src, v, q) ∈ map triple l.
Proof.
  rewrite Forall_forall. intros Hl. rewrite existsb_exists, list_elem_of_fmap. unfold triple. split.
  - intros (e & He & Hb). rewrite andb_true_iff, !String.eqb_eq in Hb. destruct Hb as [<- <-].
    apply list_elem_of_In in He. exists e. by rewrite (Hl e He).
  - intros (e & [= -> -> ->] & He). exists e. rewrite !String.eqb_refl, <- list_elem_of_In. done.
Qed.

Lemma remove_first_spec src v q l :
  Forall (fun e => SourceSliceID e = src) l -> NoDup (map triple l) ->
  remove_first v q l = without src v q l.
Proof.
  intros Hl Hn. induction l as [|e l IH]; [done|]. simpl in *.
  apply Forall_cons in Hl as [He Hl]. apply NoDup_cons in Hn as [Hne Hn].
  unfold same_triple. rewrite He, String.eqb_refl. simpl.
  destruct (_ && _) eqn:E; simpl; [|by rewrite IH].
  rewrite andb_true_iff, !String.eqb_eq in E. destruct E as [<- <-]. rewrite <- He.
  clear -Hne. induction l as [|x l IH]; [done|]. simpl in *. rewrite not_elem_of_cons in Hne.
  destruct Hne as [Hx Hne]. destruct (same_triple _ _ _ x) eqn:Ex; simpl.
  - apply same_triple_spec in Ex. by destruct Hx.
  - by rewrite <- IH.
Qed.

Lemma without_nop src v q l : (src, v, q) ∉ map triple l -> without src v q l = l.
Proof.
  intros Hn. induction l as [|e l IH]; [done|]. simpl in *. rewrite not_elem_of_cons in Hn.
  destruct Hn as [Hx Hn]. destruct (same_triple _ _ _ e) eqn:Ex; simpl.
  - apply same_triple_spec in Ex. by destruct Hx.
  - by rewrite IH.
Qed.

#[global] Instance MemStore_Store : Store MemStore := {
  Promote.Put := Put; Promote.List_ := List_; Promote.Delete := Delete;
}.

#[global, refine] Instance MemStore_laws : StoreLaws MemStore := {
  held := cur; held_ok := mem_ok;
}.
Proof.
  - intros m src e Hok He. destruct (Hok src) as [Hf _]. rewrite Forall_forall in Hf. by apply Hf.
  - intros m src Hok. apply Hok.
  - intros e m Hok. simpl. unfold Put. destruct (existsb _ _) eqn:Ex; simpl.
    + rewrite (own_match (SourceSliceID e)) in Ex by apply Hok. split_and!; [done| |done].
      intros _ src. rewrite decide_False; [done|]. intros [-> Hn]. done.
    + rewrite <- not_true_iff_false, (own_match (SourceSliceID e)) in Ex by apply Hok.
      split_and!; [| |done].
      * intros src. rewrite cur_insert. destruct (decide _) as [->|]; [|apply Hok].
        destruct (Hok (SourceSliceID e)) as [Hf Hn]. split; [by apply Forall_app; split; [|constructor]|].
        rewrite map_app. simpl. apply NoDup_app. split_and!; [done| |apply NoDup_singleton].
        intros x Hx ->%list_elem_of_singleton. done.
      * intros _ src. rewrite cur_insert. destruct (decide (src = _)) as [->|Hne].
        -- by rewrite decide_True.
        -- rewrite decide_False; [done|]. by intros [? _].
  - intros src m Hok. simpl. split_and!; [done|done|]. by intros l [= <-].
  - intros src v q m Hok. simpl. unfold Delete. destruct (Hok src) as [Hf Hn].
    destruct (existsb _ _) eqn:Ex; simpl.
    + rewrite (remove_first_spec src) by done. split_and!; [| |done].
      * intros src'. rewrite cur_insert. destruct (decide _) as [->|]; [|apply Hok]. split.
        -- rewrite Forall_forall in *. intros e [He _]%elem_of_without. by apply Hf.
        -- by apply without_NoDup.
      * intros _ src'. rewrite cur_insert. by destruct (decide _) as [->|].
    + rewrite <- not_true_iff_false, (own_match src) in Ex by done. split_and!; [done| |done].
      intros _ src'. destruct (decide _) as [->|]; [|done]. by rewrite without_nop.
Defined.
End Mem.

(** ** The file store *)

Lemma omap_Some {A} (l : list A) : omap id (map Some l) = l.
Proof. induction l as [|x l IH]; [done|]. simpl. by f_equal. Qed.

(** The next outcome of a script of system calls. *)
Definition outcome (script : list bool) : bool * list bool :=
  match script with [] => (true, []) | b :: s => (b, s) end.

Module File.
(** The file's non-blank lines ([None]: does not decode) and the outcomes of
    its next reads and rewrites. *)
Record fileStore := mkFile {
  lines : list (option Entry);
  reads : list bool;
  writes : list bool;
}.

Definition readAll : st fileStore (list Entry) := fun f =>
  let '(ok, rs) := outcome (reads f) in
  (if ok then Ok (omap id (lines f)) else Err "read", mkFile (lines f) rs (writes f)).

(** A temporary file and a rename: all or nothing. *)
Definition writeAll (l : list Entry) : st fileStore unit := fun f =>
  let '(ok, ws) := outcome (writes f) in
  if ok then (Ok tt, mkFile (map Some l) (reads f) ws) else (Err "write", mkFile (lines f) (reads f) ws).

Definition Put (e : Entry) : st fileStore unit :=
  let! all := readAll in
  if existsb (same_triple (SourceSliceID e) (ContentVersion_ e) (Query e)) all then st_ret tt
  else writeAll (all ++ [e]).

Definition of_source (src : string) : list Entry -> list Entry :=
  List.filter (fun e => (SourceSliceID e =? src)%string).

Definition List_ (src : string) : st fileStore (list Entry) :=
  let! all := readAll in st_ret (go_sort older (of_source src all)).

Definition Delete (src v q : string) : st fileStore unit :=
  let! all := readAll in writeAll (without src v q all).

Definition held (f : fileStore) (src : string) : list Entry := of_source src (omap id (lines f)).
Definition file_ok (f : fileStore) : Prop := NoDup (map triple (omap id (lines f))).

Lemma of_source_app src l1 l2 : of_source src (l1 ++ l2) = of_source src l1 ++ of_source src l2.
Proof. apply List.filter_app. Qed.

Lemma elem_of_source src l e : e ∈ of_source src l <-> e ∈ l /\ SourceSliceID e = src.
Proof. unfold of_source. by rewrite !list_elem_of_In, filter_In, String.eqb_eq. Qed.

Lemma of_source_without src s v q l :
  of_source src (without s v q l) = if decide (src = s) then without s v q (of_source src l) else of_source src l.
Proof.
  unfold of_source, without.
  induction l as [|e l IH]; simpl; [by destruct (decide _)|].
  destruct (same_triple s v q e) eqn:Ex; simpl.
  - apply same_triple_spec in Ex as Ht. injection Ht as Es _ _. rewrite Es.
    destruct (decide (src = s)) as [->|Hne].
    + rewrite String.eqb_refl. simpl. by rewrite Ex.
    + by rewrite (proj2 (String.eqb_neq s src)) by done.
  - rewrite IH. destruct (SourceSliceID e =? src)%string; simpl; [|done].
    destruct (decide (src = s)); [|done]. by rewrite Ex.
Qed.

Lemma dup_spec e l :
  existsb (same_triple (SourceSliceID e) (ContentVersion_ e) (Query e)) l = true
  <-> triple e ∈ map triple (of_source (SourceSliceID e) l).
Proof.
  rewrite existsb_exists, list_elem_of_fmap. split; intros (x & Hx & Hin); exists x.
  - apply same_triple_spec in Hin. split; [done|]. rewrite elem_of_source, list_elem_of_In.
    split; [done|]. by injection Hin.
  - apply elem_of_source in Hin as [Hin _]. rewrite <- list_elem_of_In. split; [done|].
    by apply same_triple_spec.
Qed.

#[global] Instance fileStore_Store : Store fileStore := {
  Promote.Put := Put; Promote.List_ := List_; Promote.Delete := Delete;
}.

#[global, refine] Instance fileStore_laws : StoreLaws fileStore := {
  Promote.held := held; held_ok := file_ok;
}.
Proof.
  - intros f src e _ [_ ?]%elem_of_source. done.
  - intros f src Hok. unfold file_ok in Hok. unfold held. generalize dependent (omap id (lines f)).
    intros l Hn. induction l as [|e l IH]; [done|]. simpl in *. apply NoDup_cons in Hn as [He Hn].
    destruct (_ =? _)%string; simpl; [|auto]. apply NoDup_cons. split; [|auto].
    intros (x & Hx & [Hin _]%elem_of_source)%list_elem_of_fmap. apply He. rewrite Hx.
    by apply list_elem_of_fmap_2.
  - intros e f Hok. simpl. unfold Put, st_bind, readAll, writeAll.
    destruct (outcome (reads f)) as [[] rs]; simpl; [|by split_and!].
    destruct (existsb _ _) eqn:Ex; simpl.
    + apply dup_spec in Ex. split_and!; [done| |done]. intros _ src.
      rewrite decide_False; [done|]. by intros [-> Hn].
    + rewrite <- not_true_iff_false, dup_spec in Ex.
      destruct (outcome (writes f)) as [[] ws]; simpl; [|by split_and!].
      split_and!; [| |done].
      * unfold file_ok. simpl. rewrite omap_Some, map_app. apply NoDup_app. split_and!; [done| |apply NoDup_singleton].
        intros x Hx ->%list_elem_of_singleton. apply Ex. apply list_elem_of_fmap in Hx as (y & Hy & Hin).
        rewrite Hy. apply list_elem_of_fmap_2. apply elem_of_source. split; [done|]. by injection Hy.
      * intros _ src. unfold held. simpl. rewrite omap_Some, of_source_app. simpl.
        destruct (decide (src = SourceSliceID e)) as [->|Hne].
        -- rewrite decide_True by done. by rewrite String.eqb_refl.
        -- rewrite decide_False by (by intros [? _]).
           rewrite (proj2 (String.eqb_neq _ _)) by congruence. by rewrite app_nil_r.
  - intros src f Hok. simpl. unfold List_, st_bind, readAll.
    destruct (outcome (reads f)) as [[] rs]; simpl; split_and!; try done. by intros l [= <-].
  - intros src v q f Hok. simpl. unfold Delete, st_bind, readAll, writeAll.
    destruct (outcome (reads f)) as [[] rs]; simpl; [|by split_and!].
    destruct (outcome (writes f)) as [[] ws]; simpl; [|by split_and!].
    split_and!; [| |done].
    + unfold file_ok. simpl. rewrite omap_Some. by apply without_NoDup.
    + intros _ src'. unfold held. simpl. rewrite omap_Some. apply of_source_without.
Defined.
End File.

(** ** Rejections *)

Module MemRejections.
Definition MemRejectionStore : Type := list Rejection.
Definition Add (r : Rejection) : st MemRejectionStore unit := fun m => (Ok tt, m ++ [r]).
Definition Count (src query : string) (now ttl : Z) : st MemRejectionStore Z := fun m =>
  (Ok (Z.of_nat (length (List.filter (fun r => is_pair src query r
                           && ((ttl <=? 0) || (now -! rj_at r <=? ttl))) m))),
   List.filter (fun r => negb ((0 <? ttl) && (ttl <? now -! rj_at r))) m).

#[global] Instance Mem_RejectionStore : RejectionStore MemRejectionStore := {
  Promote.Add := Add; Promote.Count := Count;
}.
#[global, refine] Instance Mem_RejectionLaws : RejectionLaws MemRejectionStore := { recorded := fun m => m }.
Proof.
  - done.
  - done.
  - intros src q now ttl m n [= <-]. unfold lessons. do 2 f_equal. apply filter_ext. intros r.
    f_equal. unfold in_window. rewrite negb_andb, <- Z.leb_antisym, <- Z.leb_antisym. done.
  - by right.
Defined.
End MemRejections.

Module FileRejections.
Record rejectionFileStore := mkFile {
  lines : list (option Rejection);
  reads : list bool;
  writes : list bool;
}.

Definition readAll : st rejectionFileStore (list Rejection) := fun f =>
  let '(ok, rs) := outcome (reads f) in
  (if ok then Ok (omap id (lines f)) else Err "read", mkFile (lines f) rs (writes f)).
Definition writeAll (l : list Rejection) : st rejectionFileStore unit := fun f =>
  let l := go_sort (fun a b => rj_at a <? rj_at b) l in
  let '(ok, ws) := outcome (writes f) in
  if ok then (Ok tt, mkFile (map Some l) (reads f) ws) else (Err "write", mkFile (lines f) (reads f) ws).

Definition Add (r : Rejection) : st rejectionFileStore unit :=
  let! all := readAll in writeAll (all ++ [r]).
Definition Count (src query : string) (now ttl : Z) : st rejectionFileStore Z :=
  let! all := readAll in
  let expired r := (0 <? ttl) && (ttl <? now -! rj_at r) in
  let n := Z.of_nat (length (List.filter (fun r => is_pair src query r && negb (expired r)) all)) in
  let kept := List.filter (fun r => negb (expired r)) all in
  (if negb (length kept =? length all)%nat then writeAll kept else st_ret tt) ;!
  st_ret n.

#[global] Instance File_RejectionStore : RejectionStore rejectionFileStore := {
  Promote.Add := Add; Promote.Count := Count;
}.
#[global, refine] Instance File_RejectionLaws : RejectionLaws rejectionFileStore := {
  recorded := fun f => omap id (lines f)
}.
Proof.
  - intros r f. simpl. unfold Add, st_bind, readAll, writeAll.
    destruct (outcome (reads f)) as [[] rs]; simpl; [|done].
    destruct (outcome (writes f)) as [[] ws]; simpl; [|done]. intros _.
    rewrite omap_Some. apply go_sort_perm.
  - intros r f. simpl. unfold Add, st_bind, readAll, writeAll.
    destruct (outcome (reads f)) as [[] rs]; simpl; [|done].
    by destruct (outcome (writes f)) as [[] ws].
  - intros src q now ttl f n. simpl. unfold Count, st_bind, readAll, writeAll, st_ret.
    destruct (outcome (reads f)) as [[] rs]; simpl; [|done].
    destruct (negb _); simpl; [destruct (outcome (writes f)) as [[] ws]; simpl; [|done]|]; by intros [= <-].
  - intros src q now ttl f. simpl. unfold Count, st_bind, readAll, writeAll, st_ret.
    destruct (outcome (reads f)) as [[] rs]; simpl; [|by left].
    destruct (negb _); simpl; [|by left].
    destruct (outcome (writes f)) as [[] ws]; simpl; [|by left]. right.
    rewrite omap_Some. rewrite go_sort_perm. done.
Defined.
End FileRejections.

(** ** The two stores *)

Lemma mem_answers ops (m : Mem.MemStore) : is_Some (answers ops m).
Proof.
  revert m. induction ops as [|[e|src v q|src] ops IH]; intros m; simpl; [by eexists| | |].
  - unfold Mem.Put. destruct (existsb _ _); apply IH.
  - unfold Mem.Delete. destruct (existsb _ _); apply IH.
  - destruct (IH m) as [a ->]. by eexists.
Qed.

Lemma file_answers ops l : is_Some (answers ops (File.mkFile l [] [])).
Proof.
  revert l. induction ops as [|[e|src v q|src] ops IH]; intros l; simpl; [by eexists| | |].
  - unfold File.Put, st_bind, File.readAll, File.writeAll, st_ret. simpl.
    destruct (existsb _ _); apply IH.
  - unfold File.Delete, st_bind, File.readAll, File.writeAll. simpl. apply IH.
  - destruct (IH l) as [a ->]. by eexists.
Qed.

(** the in-memory and the file promotion stores are interchangeable: the same
    calls get the same lists, entry for entry and in the same order. *)
Theorem stores_agree ops :
  exists a, answers ops Mem.NewMemStore = Some a /\ answers ops (File.mkFile [] [] []) = Some a.
Proof.
  destruct (mem_answers ops Mem.NewMemStore) as [a Ha].
  destruct (file_answers ops []) as [b Hb]. exists a. split; [done|].
  rewrite Hb. f_equal. symmetry.
  refine (answers_agree ops Mem.NewMemStore (File.mkFile [] [] []) a b _ _ _ Ha Hb).
  - intros src. unfold Mem.cur, Mem.NewMemStore, Mem.MemStore. rewrite lookup_empty. simpl.
    split; constructor.
  - constructor.
  - intros src. unfold held. simpl. unfold Mem.cur, Mem.NewMemStore, Mem.MemStore. by rewrite lookup_empty.
Qed.

Module Sample.
Definition entry (src v q : string) (t : Z) : Entry := mkEntry src v q t.
Definition mem : Mem.MemStore :=
  <["s" := [entry "s" "v1" "q" 100; entry "s" "v2" "q" 900; entry "s" "v1" "r" 950]]> ∅.
Definition lesson (t : Z) : Rejection := mkRejection "s" "q" "judge_declined" t.
Definition decision : Decision (S := Mem.MemStore) (R := MemRejections.MemRejectionStore) :=
  mkDecision mem [lesson 10; lesson 960; lesson 970].

Lemma mem_ok : Mem.mem_ok mem.
Proof.
  intros src. unfold Mem.cur, mem, Mem.MemStore. destruct (decide (src = "s"%string)) as [->|Hne].
  - rewrite lookup_insert_eq. simpl. split; [by repeat constructor|].
    apply (bool_decide_eq_true_1 _). vm_compute. reflexivity.
  - rewrite lookup_insert_ne, lookup_empty by done. split; constructor.
Qed.
End Sample.

Lemma Lookup_spec_witness :
  (Lookup 100 "s" "q" "v2" 1000 Sample.decision).1 = true <->
  exists e, e ∈ held (entries Sample.decision) "s" /\ fresh_pair 100 "q" "v2" 1000 e.
Proof. apply (Lookup_spec 100 "s" "q" "v2" 1000 Sample.decision); [exact Sample.mem_ok|reflexivity]. Defined.

Lemma Promote_blacklist_witness :
  (Promote 100 2 (Sample.entry "s" "v3" "q" 1000) Sample.decision).1 = Err ErrBlacklisted.
Proof.
  apply (Promote_blacklist 100 2 (Sample.entry "s" "v3" "q" 1000) Sample.decision 2).
  - reflexivity.
  - exact Sample.mem_ok.
  - vm_compute. reflexivity.
  - vm_compute. discriminate.
Defined.

Lemma CascadeInvalidate_spec_witness :
  2 = Z.of_nat (length (List.filter (stale "v2") (held Sample.mem "s"))).
Proof.
  apply (CascadeInvalidate_spec (fun c => c) "s" "v2" Sample.mem 2).
  - exact Sample.mem_ok.
  - vm_compute. reflexivity.
Defined.
