(* ===== verification/Zone.v ===== *)
(** kernel/zone/zone.go: the three-region classifier that decides whether a
    retrieved slice may be reused, must be verified, or is ignored. *)

From Stdlib Require Import ZArith Lia Bool Ascii String Floats.SpecFloat.
From stdpp Require Import tactics base option list gmap strings.
From S2P Require Import Prelude Float64 GoStrings Slice.

#[global] Open Scope Z_scope.

Inductive Zone : Type := Miss | Grey | Hit.

#[export] Instance Zone_eq_dec : EqDecision Zone.
Proof. solve_decision. Defined.

(** The constants are ordered: [Miss < Grey < Hit]. *)
Definition zone_rank (z : Zone) : Z := match z with Miss => 0 | Grey => 1 | Hit => 2 end.
Definition zone_less (a b : Zone) : bool := zone_rank a <? zone_rank b.

Definition zone_string (z : Zone) : string :=
  match z with Hit => "hit" | Grey => "grey" | Miss => "miss" end.

#[warnings="-register-all"]
Inductive Zones : Type :=
  mkZones (TauHigh_ TauLow_ AbsHigh_ AbsLow_ : f64) (ByType_ : gmap string Zones).

Definition TauHigh (z : Zones) : f64 := match z with mkZones a _ _ _ _ => a end.
Definition TauLow (z : Zones) : f64 := match z with mkZones _ b _ _ _ => b end.
Definition AbsHigh (z : Zones) : f64 := match z with mkZones _ _ c _ _ => c end.
Definition AbsLow (z : Zones) : f64 := match z with mkZones _ _ _ d _ => d end.
Definition ByType (z : Zones) : gmap string Zones := match z with mkZones _ _ _ _ m => m end.

#[export] Instance Zones_eta : Eta Zones := fun z =>
  mkZones (TauHigh z) (TauLow z) (AbsHigh z) (AbsLow z) (ByType z).

(** A nil map reads as the empty one. *)
Definition ForType (typeName : string) (z : Zones) : Zones :=
  match ByType z !! typeName with
  | Some o => o <| ByType := ∅ |>
  | None => z
  end.

Definition Default : Zones :=
  mkZones (f_of_ratio 8 10) (f_of_ratio 55 100) (f_of_ratio 7 10) (f_of_ratio 45 100) ∅.

Definition Classify (z : Zones) (score top1 : f64) : Zone :=
  if is_nan score || is_nan top1 || is_inf score || is_inf top1
     || (top1 <=? f0)%f64 || (score <=? f0)%f64 then Miss
  else if (top1 <? AbsLow z)%f64 then Miss
  else if (score / top1 >=? TauHigh z)%f64 && (top1 >=? AbsHigh z)%f64 then Hit
  else if (score / top1 >=? TauLow z)%f64 && (top1 >=? AbsLow z)%f64 then Grey
  else Miss.

Definition ClassifyHit (z : Zones) (hit : Slice.Hit) (top1 : f64) : Zone :=
  let verdict := Classify z (Score hit) top1 in
  if negb (QueryCoverageValid hit) || ((AbsHigh z =? f0)%f64 && (AbsLow z =? f0)%f64) then verdict
  else
    let coverage := QueryCoverage hit in
    if is_nan coverage || is_inf coverage || (coverage <=? f0)%f64 || (coverage >? f1)%f64 then Miss
    else if (coverage <? TauLow z)%f64 then Miss
    else if (coverage <? TauHigh z)%f64 && bool_decide (verdict = Hit) then Grey
    else verdict.

Definition ClassifyL3 (z : Zones) (score resultTop1 globalTop1 : f64) : Zone :=
  if is_nan score || is_nan resultTop1 || is_nan globalTop1
     || is_inf score || is_inf resultTop1 || is_inf globalTop1
     || (score <=? f0)%f64 || (resultTop1 <=? f0)%f64 || (globalTop1 <=? f0)%f64 then Miss
  else if (globalTop1 <? AbsLow z)%f64 then Miss
  else if (score / resultTop1 >=? TauHigh z)%f64 && (score / globalTop1 >=? AbsLow z)%f64
          && (globalTop1 >=? AbsHigh z)%f64 then Hit
  else if (score / resultTop1 >=? TauLow z)%f64 && (score / globalTop1 >=? AbsLow z)%f64
          && (globalTop1 >=? AbsLow z)%f64 then Grey
  else Miss.

(** ** Properties *)

Definition zle (a b : Zone) : Prop := zone_rank a <= zone_rank b.

Lemma zone_less_spec a b : zone_less a b = true <-> ~ zle b a.
Proof. unfold zone_less, zle. rewrite Z.ltb_lt. lia. Qed.

Lemma zle_refl a : zle a a.
Proof. unfold zle. lia. Qed.
Lemma zle_miss a : zle Miss a.
Proof. unfold zle. destruct a; simpl; lia. Qed.
#[export] Hint Resolve zle_refl zle_miss : go.

(** A usable number: what the failure-safe guard lets through. *)
Definition positive (x : f64) : Prop := finite x = true /\ (x <=? f0)%f64 = false.

Lemma ClassifyL3_inv z score r g :
  ClassifyL3 z score r g <> Miss ->
  positive score /\ positive r /\ positive g
  /\ (g <? AbsLow z)%f64 = false /\ (score / g >=? AbsLow z)%f64 = true
  /\ (ClassifyL3 z score r g = Hit -> (score / r >=? TauHigh z)%f64 = true /\ (g >=? AbsHigh z)%f64 = true)
  /\ (ClassifyL3 z score r g = Grey -> (score / r >=? TauLow z)%f64 = true).
Proof.
  unfold ClassifyL3, positive, finite. intros Hm.
  destruct (_ || (g <=? f0)%f64) eqn:E0; [done|]. go_bool.
  repeat match goal with H : is_nan _ = _ |- _ => rewrite H in * | H : is_inf _ = _ |- _ => rewrite H in * end.
  destruct (g <? AbsLow z)%f64; [done|].
  destruct (_ && (AbsHigh z <=? g)%f64) eqn:E1; [go_bool; split_and!; naive_solver|].
  destruct (_ && (AbsLow z <=? g)%f64) eqn:E2; [go_bool; split_and!; naive_solver|done].
Qed.

(** the L3 verdict is failure-safe.  NaN, infinite, zero and negative scores
    are a miss on every threshold configuration, NaN thresholds included; any reuse
    needs the candidate to reach the relevance floor against the best hit of the
    batch; a direct hit needs both the prominence and the absolute floor. *)
Theorem ClassifyL3_failsafe z score r g :
  (ClassifyL3 z score r g <> Miss ->
     positive score /\ positive r /\ positive g /\ (score / g >=? AbsLow z)%f64 = true)
  /\ (ClassifyL3 z score r g = Hit ->
     (score / r >=? TauHigh z)%f64 = true /\ (g >=? AbsHigh z)%f64 = true)
  /\ (ClassifyL3 z score r g = Grey -> (score / r >=? TauLow z)%f64 = true).
Proof.
  split_and!.
  - intros (? & ? & ? & _ & ? & _)%ClassifyL3_inv. done.
  - intros H. destruct (ClassifyL3_inv z score r g) as (_ & _ & _ & _ & _ & ? & _); [congruence|auto].
  - intros H. destruct (ClassifyL3_inv z score r g) as (_ & _ & _ & _ & _ & _ & ?); [congruence|auto].
Qed.

(** Query coverage only makes the L2 verdict more conservative, and with the
    absolute floors in force no BM25 score is reused below the low coverage
    threshold nor passes as a clear hit below the high one. *)
Theorem ClassifyHit_conservative z hit top1 :
  zle (ClassifyHit z hit top1) (Classify z (Score hit) top1)
  /\ (QueryCoverageValid hit = true ->
      ((AbsHigh z =? f0)%f64 && (AbsLow z =? f0)%f64) = false ->
      (ClassifyHit z hit top1 <> Miss ->
         positive (QueryCoverage hit) /\ (QueryCoverage hit >? f1)%f64 = false
         /\ (QueryCoverage hit <? TauLow z)%f64 = false)
      /\ (ClassifyHit z hit top1 = Hit -> (QueryCoverage hit <? TauHigh z)%f64 = false)).
Proof.
  unfold ClassifyHit, positive, finite. split.
  - destruct (_ || _); [apply zle_refl|]. destruct (_ || _); [apply zle_miss|].
    destruct (_ <? _)%f64; [apply zle_miss|]. destruct (_ && _) eqn:E; [|apply zle_refl].
    go_bool. by rewrite (bool_decide_eq_true_1 _ H0).
  - intros -> ->. simpl.
    destruct (_ || (QueryCoverage hit >? f1)%f64) eqn:E0; [done|]. go_bool.
    repeat match goal with H : is_nan _ = _ |- _ => rewrite H in * | H : is_inf _ = _ |- _ => rewrite H in * end.
    destruct (QueryCoverage hit <? TauLow z)%f64; [done|].
    destruct (QueryCoverage hit <? TauHigh z)%f64; simpl.
    + case_bool_decide as Hv; [done|]. split; [done|]. intros. done.
    + done.
Qed.

(** Raising the low threshold never makes a verdict less conservative. *)
Lemma ClassifyL3_mono_low z t score r g :
  (TauLow z <=? t)%f64 = true ->
  zle (ClassifyL3 (z <| TauLow := t |>) score r g) (ClassifyL3 z score r g).
Proof.
  intros Ht. unfold ClassifyL3. simpl.
  destruct (_ || (g <=? f0)%f64); [apply zle_refl|].
  destruct (g <? _)%f64; [apply zle_refl|].
  destruct (_ && (AbsHigh z <=? g)%f64); [apply zle_refl|].
  destruct (_ && (AbsLow z <=? g)%f64) eqn:E2 at 1; [|apply zle_miss]. go_bool.
  rewrite (fleb_trans _ t) by done. unfold zle. rewrite H1, H0. simpl. lia.
Qed.

Lemma ForType_leaf ty z o : ByType z !! ty = Some o -> ByType (ForType ty z) = ∅.
Proof. intros H. unfold ForType. by rewrite H. Qed.
