(* ===== verification/Lookup.v ===== *)
(** kernel/lookup: the lookup tool an agent calls during a session.

    The arguments are the decoded values of the JSON object; the index is an
    argument of [Execute], instantiated with the BM25 index in the properties. *)

From Stdlib Require Import ZArith Lia Bool QArith Qpower Lqa String Floats.SpecFloat.
From stdpp Require Import tactics base option list sorting gmap fin_maps strings.
From S2P Require Import Prelude Float64 Rounding FloatBounds GoStrings Slice Bm25 Zone.

#[global] Open Scope Z_scope.

Definition ToolName : string := "semantix_lookup".
Definition ToolDescription : string :=
  "Look up previously-done work in the semantic slice library. " ++
  "Use when the current task looks similar to something done before: " ++
  "pass a short query describing the task; returns top slices (prompt/tool pattern/result).".

(** A value of the argument object; [AOther] is any other JSON value. *)
Variant arg := AString (s : string) | ANumber (x : f64) | AOther.

Record ArgProp := mkProp { prop_type : string; Description : string; PropDefault : option arg }.
Record ArgSchema := mkSchema { schema_type : string; Properties : gmap string ArgProp; Required : list string }.

Definition Schema : ArgSchema :=
  mkSchema "object"
    (list_to_map
      [("query"%string, mkProp "string" "task description to match against stored slices" None);
       ("limit"%string, mkProp "integer" "maximum number of slices to return" (Some (ANumber (f_of_int 5))));
       ("scope"%string, mkProp "string" "retrieval scope: project (default) | user | session" (Some (AString "project")))])
    ["query"%string].

Record Row := mkRow {
  RowID : string;
  RowType : string;
  RowScope : string;
  RowScore : f64;
  RowZone : string;
  RowContent : string;
  RowSource : string;
}.

(** [int(v)] of a non-negative float: truncation. *)
Definition f_to_int (v : f64) : Z :=
  match v with S754_finite false m e => if 0 <=? e then Z.pos m * 2 ^ e else Z.pos m / 2 ^ (- e) | _ => 0 end.

Definition query_arg (args : gmap string arg) : string := match args !! "query"%string with Some (AString q) => q | _ => "" end.

Definition limit_arg (args : gmap string arg) : Z :=
  let limit := 5 in
  let limit := match args !! "limit"%string with
    | Some (ANumber v) => if (v >? f0)%f64 then f_to_int (if (v >? f_of_int 50)%f64 then f_of_int 50 else v) else limit
    | _ => limit end in
  if 50 <? limit then 50 else limit.

Definition scope_arg (args : gmap string arg) : Scope :=
  match args !! "scope"%string with
  | Some (AString v) =>
      if (v =? "user")%string then User else if (v =? "session")%string then Session
      else if (v =? "project")%string then Project else Project
  | _ => Project
  end.

Definition row (top1 : f64) (h : Slice.Hit) (s : Slice) : Row :=
  mkRow (ID s) (type_string (SType s)) (scope_string (SScope s)) (Score h)
    (zone_string (ClassifyHit Default h top1)) (Content s) (SourceSession (Meta s)).

(** [Execute]; [None] is the panic on a hit without a slice. *)
Definition Execute (Search : string -> Z -> Scope -> result (list Slice.Hit)) (args : gmap string arg) : option (result (list Row)) :=
  let q := query_arg args in
  if (q =? "")%string then Some (Err (ToolName ++ ": query is required")%string) else
  match Search q (limit_arg args) (scope_arg args) with
  | Err e => Some (Err (ToolName ++ ": " ++ e)%string)
  | Ok hits =>
      let top1 := match hits with h :: _ => Score h | [] => f0 end in
      rows ← mapM (fun h => s ← HitSlice h; Some (row top1 h s)) hits;
      Some (Ok rows)
  end.

(** ** Properties *)

Lemma f_to_int_bound v n : 0 <= n <= 2 ^ 52 -> num v = true -> (v <=? f_of_int n)%f64 = true -> 0 <= f_to_int v <= n.
Proof.
  intros Hn Hv Hle. apply fval_le in Hle; [|done|apply f_of_int_num; lia]. rewrite f_of_int_exact in Hle by lia.
  destruct v as [[]|[]| |[] m e]; try done; unfold f_to_int; [lia|]. simpl in Hle.
  destruct (Z.leb_spec 0 e) as [He|He].
  - rewrite <- pow2_Z, <- inject_Z_mult, <- Zle_Qle in Hle by lia. split; [by apply Z.mul_nonneg_nonneg, Z.pow_nonneg|exact Hle].
  - assert (Hp : 0 < 2 ^ (- e)) by (apply Z.pow_pos_nonneg; lia). split; [apply Z.div_pos; lia|].
    apply Z.div_le_upper_bound; [done|]. rewrite Zle_Qle, inject_Z_mult, pow2_Z by lia.
    apply (Qmult_le_r _ _ (pow2 (- e))) in Hle; [|apply pow2_pos]. rewrite <- Qmult_assoc, <- pow2_add, Z.add_opp_diag_r in Hle.
    change (pow2 0) with 1%Q in Hle. rewrite Qmult_1_r in Hle. by rewrite Qmult_comm.
Qed.

(** A decoded JSON number is a valid float. *)
Definition valid_args (args : gmap string arg) : Prop := map_Forall (fun _ a => match a with ANumber x => valid x = true | _ => True end) args.

Lemma limit_range args : valid_args args -> 0 <= limit_arg args <= 50.
Proof.
  intros Hv. unfold limit_arg. destruct (args !! _) as [[|v|]|] eqn:E; try (simpl; lia).
  specialize (Hv _ _ E). cbn in Hv. destruct (v >? f0)%f64 eqn:Hp; [|simpl; lia].
  enough (0 <= f_to_int (if (v >? f_of_int 50)%f64 then f_of_int 50 else v) <= 50) by (match goal with |- context [50 <? ?x] => destruct (Z.ltb_spec 50 x) end; lia).
  destruct (v >? f_of_int 50)%f64 eqn:Hg; [vm_compute; split; discriminate|].
  assert (Hf : num v = true).
  { apply num_positive; [done| |done]. destruct v as [| [] | |]; try done. }
  apply f_to_int_bound; [lia|done|]. apply fltb_ge; [done|by apply num_not_nan|done].
Qed.

(** With the default floors a zone above [miss] needs coverage. *)
Lemma reused_covers h top1 s : QueryCoverageValid h = true ->
  RowZone (row top1 h s) <> "miss"%string -> (Slice.QueryCoverage h <? TauLow Default)%f64 = false.
Proof.
  intros Hq Hz. destruct (ClassifyHit_conservative Default h top1) as [_ Hc]. destruct (Hc Hq) as [Hc' _]; [by vm_compute|].
  apply Hc'. intros E. apply Hz. unfold row. cbn [RowZone]. by rewrite E.
Qed.

Section Tool.
Context `{UnicodeLower} `{UnicodeClasses} (math_log : f64 -> f64).

Lemma mapM_rows top1 hits rows :
  mapM (fun h => s ← HitSlice h; Some (row top1 h s)) hits = Some rows ->
  Forall2 (fun h r => exists s, HitSlice h = Some s /\ r = row top1 h s) hits rows.
Proof using.
  rewrite mapM_Some. intros Hr. eapply Forall2_impl; [exact Hr|]. clear. intros h r Hr. cbn beta in Hr. destruct (HitSlice h) as [s|]; [|done]. cbn in Hr. simplify_eq. by exists s.
Qed.

(** what an agent gets from the lookup tool.  Over an index with any history
    the tool never panics; without a query it fails before searching; otherwise
    its rows are at most 50, distinct, in the order of the search, and each is a
    slice that is in the index, in the requested scope - the project when the
    scope is missing, not a string or unknown - with the score and the zone of
    its hit; a row called [hit] or [grey] covers the query by the low threshold. *)
Theorem Execute_faithful ops args :
  valid_args args ->
  exists ix, foldl index_step (Some Bm25.New) ops = Some ix
    /\ match Execute (Bm25.Search math_log (Some ix)) args with
       | None => False
       | Some (Err e) => query_arg args = ""%string \/ uniqueTerms (Tokenize (query_arg args)) = []
       | Some (Ok rows) =>
           Z.of_nat (length rows) <= 50 /\ NoDup (map RowID rows)
           /\ forall r, r ∈ rows -> exists s h, contents ops !! RowID r = Some s /\ SScope s = scope_arg args
                /\ HitSlice h = Some s /\ r = row (default f0 (RowScore <$> head rows)) h s
                /\ (RowZone r <> "miss"%string -> (Slice.QueryCoverage h <? TauLow Default)%f64 = false)
       end.
Proof using.
  intros Hv. destruct (run_indexed ops) as (ix & E & Hix). exists ix. split; [done|].
  unfold Execute. destruct (String.eqb_spec (query_arg args) ""); [by left|].
  rewrite (Search_ranked math_log ix (contents ops)) by done. pose proof (limit_range args Hv) as Hl.
  destruct (ranked_search _ _ _ _ _) as [hits|e] eqn:Es; [|right; by eapply ranked_search_fails].
  destruct (ranked_search_hits _ _ _ _ _ _ (contents_keyed ops) Es) as (Hk & Hnd & Hin).
  set (top1 := match hits with h :: _ => _ | [] => _ end).
  assert (Hall : Forall (fun h => is_Some (s ← HitSlice h; Some (row top1 h s))) hits).
  { apply Forall_forall. intros h Hh. destruct (Hin h Hh) as (s & -> & _). by eexists. }
  apply mapM_is_Some_2 in Hall as [rows Hr]. rewrite Hr. cbn [mbind option_bind]. apply mapM_rows in Hr.
  pose proof (Forall2_length _ _ _ Hr). split; [lia|].
  assert (Hids : map RowID rows = map hit_id hits).
  { clear -Hr. clearbody top1. induction Hr as [|h r hs rs (s & Hs & ->) _ IH]; [done|]. cbn [map]. rewrite IH. unfold hit_id at 2. by rewrite Hs. }
  assert (Htop : default f0 (RowScore <$> head rows) = top1).
  { subst top1. destruct hits, rows; try done; apply Forall2_cons in Hr as [(s & _ & ->) _]; done. }
  split; [by rewrite Hids|]. intros r Hrow. apply list_elem_of_lookup in Hrow as [i Hi].
  apply (Forall2_lookup_r _ _ _ _ _ Hr) in Hi as (h & Hh & s & Hs & ->). apply list_elem_of_lookup_2 in Hh.
  destruct (Hin h Hh) as (s' & Hs' & HD & Hsc & Hq). simplify_eq. exists s, h. rewrite Htop.
  split; [done|]. split; [done|]. split; [done|]. split; [done|]. apply reused_covers, Hq.
Qed.
End Tool.

(** ** On a small library *)

Module LookupSample.
Import Bm25Sample.
#[local] Existing Instances ascii_lower ascii_classes.
Definition args : gmap string arg :=
  list_to_map [("query"%string, AString "PARSER fix"); ("limit"%string, ANumber (f_of_ratio 5 2)); ("scope"%string, AOther)].
Definition index : option Index := foldl index_step (Some Bm25.New) ops.

Example two_rows :
  match Execute (Bm25.Search log1 index) args with
  | Some (Ok rows) => map (fun r => (RowID r, RowZone r)) rows = [("a", "hit"); ("c", "miss")]%string | _ => False end.
Proof. vm_compute. done. Qed.

Example no_query : Execute (Bm25.Search log1 index) (delete "query"%string args) = Some (Err "semantix_lookup: query is required").
Proof. vm_compute. done. Qed.

Lemma Execute_faithful_witness :
  exists ix, foldl index_step (Some Bm25.New) ops = Some ix
    /\ match Execute (Bm25.Search log1 (Some ix)) args with Some (Ok rows) => Z.of_nat (length rows) <= 50 | _ => False end.
Proof.
  destruct (Execute_faithful log1 ops args) as (ix & E & H).
  { apply map_Forall_to_list, Forall_forall. intros [k a] Hin%elem_of_map_to_list.
    unfold args in Hin. cbn in Hin. repeat (apply lookup_insert_Some in Hin as [[<- <-]|[_ Hin]]; [vm_compute; done|]). by rewrite lookup_empty in Hin. }
  exists ix. split; [exact E|]. assert (Hix : Some ix = index) by (symmetry; exact E).
  destruct (Execute _ args) as [[rows|e]|] eqn:Ex; [exact (proj1 H)| |exact H].
  rewrite Hix in Ex. vm_compute in Ex. discriminate Ex.
Defined.
End LookupSample.
