(* ===== verification/Judge.v ===== *)
(** kernel/fingerprint/fingerprint.go and kernel/judge (judge.go, cache.go,
    consensus.go): the dependency fingerprint gate, the rule gate in front of the
    judge, and the cache of its verdicts.

    The judge is a model behind a network and the dependencies live on a file
    system: both are parameters.  [Judge] is the Go interface as a class, its
    state threading whatever an implementation remembers; [None] as its second
    method is a dynamic type without [ConfirmSecondary]. *)

From Stdlib Require Import ZArith Lia Bool Ascii String Floats.SpecFloat.
From stdpp Require Import tactics base option list gmap sets strings.
From S2P Require Import Prelude Float64 GoStrings Slice Zone.

#[global] Open Scope Z_scope.

(** ** filepath.IsLocal *)

(** The elements of a slash-separated path. *)
Fixpoint path_elements (cur : list ascii) (l : list ascii) : list string :=
  match l with
  | [] => [string_of_list_ascii (rev cur)]
  | c :: l' => if (c =? "/")%char then string_of_list_ascii (rev cur) :: path_elements [] l'
               else path_elements (c :: cur) l'
  end.

(** Walking the elements never climbs above the start. *)
Fixpoint stays_inside (depth : nat) (l : list string) : bool :=
  match l with
  | [] => true
  | x :: l' =>
      if (x =? "")%string || (x =? ".")%string then stays_inside depth l'
      else if (x =? "..")%string then match depth with O => false | S d => stays_inside d l' end
      else stays_inside (S depth) l'
  end.

Definition IsLocal (p : string) : bool :=
  negb (p =? "")%string && negb (has_prefix p "/")
  && stays_inside 0 (path_elements [] (list_ascii_of_string p)).

Example IsLocal_inside : map IsLocal ["a/b"; "./a"; "a/../b"; "a/./.."]%string = [true; true; true; true].
Proof. reflexivity. Qed.
Example IsLocal_outside : map IsLocal [""; "/etc"; ".."; "a/../.."; "a/../../a"]%string = [false; false; false; false; false].
Proof. reflexivity. Qed.

(** ** Fingerprints *)

Section Fingerprint.
(** The content of a file under a root, and sha256 in hexadecimal. *)
Context (read : string -> string -> option string) (sha : string -> string).

Fixpoint capture_from (root : string) (paths : list string) (out : gmap string string) :
    result (gmap string string) :=
  match paths with
  | [] => Ok out
  | p :: ps =>
      if negb (IsLocal p) then Err "fingerprint: non-local path"
      else match read root p with
           | None => Err "fingerprint: open"
           | Some content => capture_from root ps (<[p := sha content]> out)
           end
  end.

Definition Capture (root : string) (paths : list string) : result (gmap string string) :=
  capture_from root paths ∅.

(** The changed paths, in the iteration order of the map. *)
Definition dep_changed (root p want : string) : bool :=
  if negb (IsLocal p) then true else
  match Capture root [p] with
  | Err _ => true
  | Ok got => negb (default ""%string (got !! p) =? want)%string
  end.

Definition Verify (root : string) (deps : gmap string string) : result (list string) :=
  Ok (map fst (List.filter (fun kv => dep_changed root kv.1 kv.2) (map_to_list deps))).

(** What a clean verification means. *)
Definition dep_clean (root p want : string) : Prop :=
  IsLocal p = true /\ exists content, read root p = Some content /\ sha content = want.

Lemma dep_changed_spec root p want : dep_changed root p want = false <-> dep_clean root p want.
Proof.
  unfold dep_changed, dep_clean, Capture. simpl. destruct (IsLocal p); simpl; [|naive_solver].
  destruct (read root p) as [c|]; simpl; [|naive_solver]. rewrite lookup_insert_eq. simpl.
  rewrite negb_false_iff, String.eqb_eq. naive_solver.
Qed.

Lemma Verify_clean root deps :
  Verify root deps = Ok [] <-> forall p want, deps !! p = Some want -> dep_clean root p want.
Proof.
  unfold Verify. split.
  - intros [= H] p want Hp. rewrite <- dep_changed_spec.
    destruct (dep_changed root p want) eqn:E; [|done]. exfalso.
    assert (Hin : In (p, want) (List.filter (fun kv => dep_changed root kv.1 kv.2) (map_to_list deps))).
    { rewrite filter_In. split; [|done]. by rewrite <- list_elem_of_In, elem_of_map_to_list. }
    apply (in_map fst) in Hin. by rewrite H in Hin.
  - intros H. do 2 f_equal.
    destruct (List.filter _ _) as [|[p want] l] eqn:E; [done|]. exfalso.
    assert (Hin : In (p, want) ((p, want) :: l)) by (by left). rewrite <- E, filter_In in Hin.
    destruct Hin as [Hin Hc]. rewrite <- list_elem_of_In, elem_of_map_to_list in Hin.
    apply H, dep_changed_spec in Hin. simpl in Hc. congruence.
Qed.

Lemma Capture_spec root paths out deps p :
  capture_from root paths out = Ok deps ->
  (p ∈ paths -> IsLocal p = true /\ deps !! p = sha <$> read root p /\ is_Some (read root p))
  /\ (p ∉ paths -> deps !! p = out !! p).
Proof.
  revert out. induction paths as [|q ps IH]; intros out Hc; simpl in *.
  { simplify_eq. split; [by intros ?%not_elem_of_nil|done]. }
  destruct (IsLocal q) eqn:El; simpl in *; [|done]. destruct (read root q) as [c|] eqn:Er; [|done].
  specialize (IH _ Hc). destruct IH as [IH1 IH2]. split.
  - intros [->|Hp]%elem_of_cons; [|auto]. destruct (decide (q ∈ ps)) as [Hq|Hq]; [auto|].
    rewrite IH2, lookup_insert_eq, Er by done. eauto.
  - intros [Hne Hp]%not_elem_of_cons. rewrite IH2, lookup_insert_ne by done. done.
Qed.
End Fingerprint.

(** ** Candidates and verdicts *)

Inductive Verdict : Type := Reject | Confirm_ | NeedJudge_.

Record Candidate := mkCandidate {
  c_Query : string;
  c_SliceID : string;
  c_Content : string;
  c_Scope : Scope;
  c_Type : SliceType;
  c_Zone : Zone;
  c_Deps : gmap string string;
  c_RootDir : string;
}.

Class Judge (J : Type) := {
  Confirm : Candidate -> st J bool;
  ConfirmSecondary : option (Candidate -> st J bool);
}.

#[export] Instance NoopJudge : Judge unit := {
  Confirm _ := st_ret false; ConfirmSecondary := None;
}.

Record Stats := mkStats {
  Confirmed : Z;
  RulesReject : Z;
  Fingerprint : Z;
  JudgeReject : Z;
  JudgeError : Z;
  JudgeApproved : Z;
  NeedJudge : Z;
}.
Definition zero_stats : Stats := mkStats 0 0 0 0 0 0 0.
#[export] Instance Stats_eta : Eta Stats := fun r =>
  mkStats (Confirmed r) (RulesReject r) (Fingerprint r) (JudgeReject r) (JudgeError r)
    (JudgeApproved r) (NeedJudge r).

Definition add (s o : Stats) : Stats :=
  mkStats (Confirmed s + Confirmed o) (RulesReject s + RulesReject o) (Fingerprint s + Fingerprint o)
    (JudgeReject s + JudgeReject o) (JudgeError s + JudgeError o) (JudgeApproved s + JudgeApproved o)
    (NeedJudge s + NeedJudge o).

(** ** The rule gate *)

Section Gate.
Context {J : Type} `{Judge J} (read : string -> string -> option string) (sha : string -> string).

Record Gate := mkGate { g_Judge : option J; g_Stats : Stats }.
#[export] Instance Gate_eta : Eta Gate := fun r => mkGate (g_Judge r) (g_Stats r).

Definition count (s : Stats) (g : Gate) : Gate := g <| g_Stats ::= fun c => add c s |>.

Definition Check (c : Candidate) (g : Gate) : (Verdict * string) * Gate :=
  match c_Zone c with
  | Hit => ((Confirm_, "clear hit: reuse without judge"%string), count (zero_stats <| Confirmed := 1 |>) g)
  | Miss => ((Reject, "clear miss"%string), count (zero_stats <| RulesReject := 1 |>) g)
  | Grey =>
      match g_Judge g with
      | Some _ => ((NeedJudge_, "grey zone: async judge required"%string),
                   count (zero_stats <| NeedJudge := 1 |>) g)
      | None => ((Reject, "grey zone: no judge wired, conservative reject"%string),
                 count (zero_stats <| RulesReject := 1 |>) g)
      end
  end.

(** The verdict, the reason, and the judge's error when there was one. *)
Definition Chain (c : Candidate) (g : Gate) : (Verdict * string * option string) * Gate :=
  let rules :=
    let '((v, reason), g1) := Check c g in
    match v, g_Judge g1 with
    | NeedJudge_, Some j =>
        let '(r, j') := Confirm c j in
        let g2 := g1 <| g_Judge := Some j' |> in
        match r with
        | Err e => ((Reject, "judge error: conservative reject"%string, Some e),
                    count (zero_stats <| JudgeError := 1 |>) g2)
        | Ok true => ((Confirm_, "judge approved"%string, None),
                      count (zero_stats <| Confirmed := 1 |> <| JudgeApproved := 1 |>) g2)
        | Ok false => ((Reject, "judge declined"%string, None),
                       count (zero_stats <| JudgeReject := 1 |>) g2)
        end
    | _, _ => ((v, reason, None), g1)
    end in
  if decide (c_Deps c = ∅) then rules else
  match Verify read sha (c_RootDir c) (c_Deps c) with
  | Err _ => ((Reject, "fingerprint gate error: conservative reject"%string, None),
              count (zero_stats <| Fingerprint := 1 |>) g)
  | Ok (p :: _) => ((Reject, "fingerprint changed: " +:+ p, None),
                    count (zero_stats <| Fingerprint := 1 |>) g)
  | Ok [] => rules
  end.

(** The dependencies of a candidate are as captured. *)
Definition deps_clean (root : string) (deps : gmap string string) : Prop :=
  forall p want, deps !! p = Some want -> dep_clean read sha root p want.

Lemma deps_verified root deps :
  deps = ∅ \/ Verify read sha root deps = Ok [] -> deps_clean root deps.
Proof. intros [->|Hv]; [intros p w; by rewrite lookup_empty|]. exact (proj1 (Verify_clean read sha root deps) Hv). Qed.

(** The outcomes of a chain, by what the judge was asked and answered. *)
Lemma Chain_cases c g :
  let out := Chain c g in
  (out.1.1.1 = Confirm_ /\ out.1.2 = None /\ deps_clean (c_RootDir c) (c_Deps c)
     /\ (c_Zone c = Hit \/ c_Zone c = Grey /\ exists j j', g_Judge g = Some j /\ Confirm c j = (Ok true, j')))
  \/ out.1.1.1 = Reject.
Proof.
  unfold Chain. set (rules := let '(_, _) := _ in _).
  assert (Hr : (deps_clean (c_RootDir c) (c_Deps c) ->
    (rules.1.1.1 = Confirm_ /\ rules.1.2 = None /\ deps_clean (c_RootDir c) (c_Deps c)
     /\ (c_Zone c = Hit \/ c_Zone c = Grey /\ exists j j', g_Judge g = Some j /\ Confirm c j = (Ok true, j')))
    \/ rules.1.1.1 = Reject)).
  { intros Hd. unfold rules, Check. destruct (c_Zone c) eqn:Ez; simpl; [by right| |by left; auto].
    destruct (g_Judge g) as [j|] eqn:Ej; simpl; [|by right]. rewrite Ej. simpl.
    destruct (Confirm c j) as [[[]|e] j'] eqn:Ec; simpl; [|by right..].
    left. split_and!; eauto 10. }
  destruct (decide (c_Deps c = ∅)) as [Hd|Hd]; [apply Hr, deps_verified; auto|].
  destruct (Verify _ _ _ _) as [[|p ps]|e] eqn:Ev; simpl; [|by right..].
  apply Hr, deps_verified. auto.
Qed.

(** the verification chain fails closed.  A candidate is confirmed only when
    every captured dependency still has its captured digest inside the root and
    either the rules call it a clear hit, or it is grey, a judge is wired and the
    judge answered yes without an error. *)
Theorem Chain_fail_closed c g :
  (Chain c g).1.1.1 = Confirm_ ->
  deps_clean (c_RootDir c) (c_Deps c)
  /\ (c_Zone c = Hit \/ c_Zone c = Grey /\ exists j j', g_Judge g = Some j /\ Confirm c j = (Ok true, j')).
Proof. destruct (Chain_cases c g) as [(? & ? & ? & ?)|Hr]; [auto|congruence]. Qed.

(** The counters of the rejections. *)
Definition rejections (s : Stats) : Z := RulesReject s + Fingerprint s + JudgeReject s + JudgeError s.

(** Every chain is counted once: as a confirmation or as one rejection. *)
Lemma Chain_counts c g :
  rejections (g_Stats (Chain c g).2)
    = rejections (g_Stats g) + (if (Chain c g).1.1.1 is Confirm_ then 0 else 1)
  /\ ((Chain c g).1.1.1 = Confirm_ -> (Chain c g).1.2 = None).
Proof.
  unfold Chain, Check, rejections. repeat (case_match; simplify_eq/=); (split; [lia|done]).
Qed.
End Gate.

(** ** The verdict cache *)

(** Times are nanoseconds. *)
Definition verdictTTL : Z := 24 * 3600 * 10 ^ 9.
Definition cacheCap : nat := 4096.

Record verdictEntry := mkVerdict { v_confirm : bool; v_expires : Z }.

Abbreviation VerdictCache := (gmap string verdictEntry).

Definition expired_at (now : Z) (e : verdictEntry) : bool := v_expires e <? now.

(** The cached verdict; an expired one is dropped. *)
Definition Get (key : string) (now : Z) (c : VerdictCache) : option bool * VerdictCache :=
  match c !! key with
  | None => (None, c)
  | Some e => if expired_at now e then (None, base.delete key c)
              else (Some (v_confirm e), c)
  end.

Definition Set_ (key : string) (confirm : bool) (now : Z) (c : VerdictCache) : VerdictCache :=
  let c :=
    if (cacheCap <=? size c)%nat
    then filter (fun kv => expired_at now kv.2 = false) c else c in
  if (cacheCap <=? size c)%nat then c
  else <[key := mkVerdict confirm (now + verdictTTL)]> c.

Definition Len (c : VerdictCache) : nat := size c.

Section Cached.
Context {J : Type} `{Judge J} (sha : string -> string).

Definition VerdictKey (query sliceID : string) : string :=
  String.substring 0 32 (sha (query +:+ String (ascii_of 0) "" +:+ sliceID)).

(** A goroutine warming a verdict: its key, candidate and rubric. *)
Record warming := mkWarming { w_key : string; w_cand : Candidate; w_secondary : bool }.

Record CachedJudge := mkCached {
  Inner : J;
  Cache : VerdictCache;
  Warm : bool;
  inflight : list warming;
}.
#[export] Instance CachedJudge_eta : Eta CachedJudge := fun r =>
  mkCached (Inner r) (Cache r) (Warm r) (inflight r).

Definition ask (secondary : bool) (cand : Candidate) : st J bool :=
  match secondary, ConfirmSecondary with
  | true, Some f => f cand
  | _, _ => Confirm cand
  end.

Definition warmInBackground (key : string) (cand : Candidate) (secondary : bool) (s : CachedJudge) :
    CachedJudge :=
  if existsb (fun w => (w_key w =? key)%string) (inflight s) then s
  else s <| inflight ::= cons (mkWarming key cand secondary) |>.

Definition confirm (ns : string) (secondary : bool) (now : Z) (cand : Candidate) : st CachedJudge bool :=
  fun s =>
  let key := ns +:+ VerdictKey (c_Query cand) (c_SliceID cand) in
  let '(got, c) := Get key now (Cache s) in
  let s := s <| Cache := c |> in
  match got with
  | Some b => (Ok b, s)
  | None =>
      let '(r, j) := ask secondary cand (Inner s) in
      let s := s <| Inner := j |> in
      match r with
      | Err e => (Err e, if Warm s then warmInBackground key cand secondary s else s)
      | Ok b => (Ok b, s <| Cache ::= Set_ key b now |>)
      end
  end.

(** The end of a warming goroutine. *)
Definition warmed (now : Z) (w : warming) (s : CachedJudge) : CachedJudge :=
  let '(r, j) := ask (w_secondary w) (w_cand w) (Inner s) in
  let s := s <| Inner := j |>
             <| inflight ::= List.filter (fun x => negb (w_key x =? w_key w)%string) |> in
  match r with Err _ => s | Ok b => s <| Cache ::= Set_ (w_key w) b now |> end.

Definition namespace (secondary : bool) : string := if secondary then "s" else "p".

(** [CachedJudge] is itself a judge, at the given clock. *)
Definition Cached_Confirm (now : Z) : Candidate -> st CachedJudge bool := confirm (namespace false) false now.
Definition Cached_ConfirmSecondary (now : Z) : Candidate -> st CachedJudge bool :=
  confirm (namespace true) true now.

(** *** What the cache stores *)

Lemma Get_some key now c b c' :
  Get key now c = (Some b, c') ->
  c' = c /\ exists e, c !! key = Some e
    /\ v_confirm e = b /\ expired_at now e = false.
Proof.
  unfold Get. destruct (_ !! key) as [e|] eqn:E; [|done].
  destruct (expired_at now e) eqn:Ex; [done|]. intros [= <- <-]. eauto.
Qed.

Lemma Get_sub key now c : (Get key now c).2 ⊆ c.
Proof.
  unfold Get. destruct (_ !! key) as [e|]; [|done]. destruct (expired_at now e); [|done].
  apply delete_subseteq.
Qed.

Lemma Set_lookup key b now c k e :
  Set_ key b now c !! k = Some e ->
  (k = key /\ e = mkVerdict b (now + verdictTTL)) \/ c !! k = Some e.
Proof.
  unfold Set_. set (c1 := if (cacheCap <=? size c)%nat then _ else c).
  assert (Hsub : forall e, c1 !! k = Some e -> c !! k = Some e).
  { unfold c1. destruct (_ <=? _)%nat; [|done]. intros x. rewrite map_lookup_filter_Some. by intros [? _]. }
  destruct (cacheCap <=? size c1)%nat; [auto|].
  destruct (decide (k = key)) as [->|Hne].
  - rewrite lookup_insert_eq. intros [= <-]. by left.
  - rewrite lookup_insert_ne by done. auto.
Qed.

Lemma Set_size key b now c : (Len c <= cacheCap)%nat -> (Len (Set_ key b now c) <= cacheCap)%nat.
Proof.
  unfold Len, Set_. set (c1 := if (cacheCap <=? size c)%nat then _ else c). intros Hc.
  assert (Hs : (size c1 <= cacheCap)%nat).
  { unfold c1. destruct (_ <=? size _)%nat; [|done]. etransitivity; [|exact Hc].
    apply map_subseteq_size, map_filter_subseteq. }
  destruct (cacheCap <=? size c1)%nat eqn:El; [done|]. apply Nat.leb_gt in El.
  rewrite map_size_insert. destruct (_ !! _); simpl; lia.
Qed.

Lemma Get_size key now c : (Len c <= cacheCap)%nat -> (Len (Get key now c).2 <= cacheCap)%nat.
Proof. intros. etransitivity; [|done]. apply map_subseteq_size, Get_sub. Qed.

(** Runs of one cached judge: requests of either rubric and ends of warming
    goroutines, in any order, with what the wrapped judge answered. *)
Inductive reach : CachedJudge -> list (bool * Candidate * bool) -> Prop :=
| reach_new j warm : reach (mkCached j ∅ warm []) []
| reach_confirm s log secondary now cand :
    reach s log ->
    reach (confirm (namespace secondary) secondary now cand s).2
      (match (Get (namespace secondary +:+ VerdictKey (c_Query cand) (c_SliceID cand)) now (Cache s)).1,
             (ask secondary cand (Inner s)).1 with
       | None, Ok b => (secondary, cand, b) :: log
       | _, _ => log
       end)
| reach_warmed s log w now :
    reach s log -> w ∈ inflight s ->
    reach (warmed now w s)
      (match (ask (w_secondary w) (w_cand w) (Inner s)).1 with
       | Ok b => (w_secondary w, w_cand w, b) :: log
       | Err _ => log
       end).

Definition key_of (secondary : bool) (cand : Candidate) : string :=
  namespace secondary +:+ VerdictKey (c_Query cand) (c_SliceID cand).

Record cache_inv (s : CachedJudge) (log : list (bool * Candidate * bool)) : Prop := {
  ci_size : (Len (Cache s) <= cacheCap)%nat;
  ci_from : forall key e, Cache s !! key = Some e ->
    exists secondary cand, (secondary, cand, v_confirm e) ∈ log /\ key = key_of secondary cand;
  ci_bg : forall w, w ∈ inflight s -> w_key w = key_of (w_secondary w) (w_cand w);
}.

Lemma cache_inv_set s log secondary cand b now s' :
  cache_inv s log -> Cache s' = Set_ (key_of secondary cand) b now (Cache s) ->
  (forall w, w ∈ inflight s' -> w ∈ inflight s) ->
  cache_inv s' ((secondary, cand, b) :: log).
Proof.
  intros [Hs Hf Hb] Hc Hi. split; [rewrite Hc; by apply Set_size| |auto].
  intros key e. rewrite Hc. intros [[-> ->]|He]%Set_lookup.
  - exists secondary, cand. split; [by left|done].
  - destruct (Hf key e He) as (m & c & Hin & ->). exists m, c. split; [by right|done].
Qed.

Lemma reach_inv s log : reach s log -> cache_inv s log.
Proof.
  induction 1 as [j warm|s log sec now cand Hr IH|s log w now Hr IH Hw].
  - split; simpl; [unfold Len, cacheCap; rewrite map_size_empty; lia|by intros ? ? ?|].
    by intros w ?%not_elem_of_nil.
  - assert (Hget : forall c, c = (Get (key_of sec cand) now (Cache s)).2 ->
      cache_inv (s <| Cache := c |>) log).
    { intros c ->. destruct IH as [Hs Hf Hb]. split; simpl; [by apply Get_size| |done].
      intros key e He. apply Hf. eapply lookup_weaken; [exact He|apply Get_sub]. }
    unfold confirm. fold (key_of sec cand).
    destruct (Get (key_of sec cand) now (Cache s)) as [[b|] c]; [by apply Hget|]. specialize (Hget c eq_refl).
    simpl. destruct (ask sec cand (Inner s)) as [[b|e] j]; simpl.
    + by eapply cache_inv_set; [exact Hget|reflexivity|].
    + destruct Hget as [Hs Hf Hb]. destruct (Warm s); [|split; done]. unfold warmInBackground. simpl.
      destruct (existsb _ _); [split; done|]. split; simpl; [done|done|].
      intros w [->|Hw]%elem_of_cons; [done|by apply Hb].
  - unfold warmed. pose proof (ci_bg _ _ IH w Hw) as Hk.
    assert (Hsub : forall x, x ∈ List.filter (fun x => negb (w_key x =? w_key w)%string) (inflight s) -> x ∈ inflight s).
    { intros x. rewrite !list_elem_of_In, filter_In. tauto. }
    destruct (ask _ _ _) as [[b|e] j]; simpl.
    + eapply (cache_inv_set s log _ _ b now); [done| |done]. simpl. by rewrite Hk.
    + destruct IH as [Hs Hf Hb]. split; simpl; [done|done|]. auto.
Qed.

(** cached verdicts are real verdicts.  In every run, each cached entry is an
    answer the wrapped judge gave, without an error, for a candidate with that
    key under that rubric - so no error is ever stored, and a primary verdict
    never stands in for the second rubric - and the cache never exceeds its
    cap. *)
Theorem cache_provenance s log key e :
  reach s log -> Cache s !! key = Some e ->
  (exists secondary cand, (secondary, cand, v_confirm e) ∈ log /\ key = key_of secondary cand)
  /\ (forall secondary cand cand', key_of secondary cand <> key_of (negb secondary) cand')
  /\ (Len (Cache s) <= cacheCap)%nat.
Proof.
  intros Hr He. pose proof (reach_inv s log Hr) as [Hs Hf _]. split; [by apply Hf|]. split; [|done].
  intros secondary cand cand'. unfold key_of, namespace. by destruct secondary.
Qed.

(** A request to the cached judge either repeats an unexpired verdict without
    asking, or returns exactly what the wrapped judge answered; an error is
    returned as an error and adds nothing to the cache. *)
Theorem confirm_spec ns secondary now cand s :
  let key := ns +:+ VerdictKey (c_Query cand) (c_SliceID cand) in
  let '(r, s') := confirm ns secondary now cand s in
  (exists e, Cache s !! key = Some e /\ now <= v_expires e
     /\ r = Ok (v_confirm e) /\ Inner s' = Inner s)
  \/ (r = (ask secondary cand (Inner s)).1 /\ Inner s' = (ask secondary cand (Inner s)).2
      /\ (is_ok r = false -> Cache s' ⊆ Cache s)).
Proof.
  intros key. unfold confirm. fold key.
  destruct (Get key now (Cache s)) as [[b|] c] eqn:Eg.
  - apply Get_some in Eg as (-> & e & He & Hb & Hx). unfold expired_at in Hx. go_bool.
    left. exists e. subst b. done.
  - pose proof (Get_sub key now (Cache s)) as Hsub. rewrite Eg in Hsub. simpl in Hsub.
    simpl. destruct (ask secondary cand (Inner s)) as [[b|e] j]; simpl; right; [done|].
    split_and!; [done| |].
    + destruct (Warm s); [|done]. unfold warmInBackground. simpl. by destruct (existsb _ _).
    + intros _. destruct (Warm s); [|done]. unfold warmInBackground. simpl. by destruct (existsb _ _).
Qed.
End Cached.

(** ** A concrete judge *)

Module Sample.
(** It approves everything and counts its calls. *)
Definition counting : Type := Z.
#[global] Instance counting_Judge : Judge counting := {
  Confirm _ := fun n => (Ok true, n + 1);
  ConfirmSecondary := Some (fun _ => fun n => (Ok false, n + 1));
}.
Definition read (_ p : string) : option string := if (p =? "go.mod")%string then Some "module m"%string else None.
Definition sha (s : string) : string := s.
Definition cand : Candidate :=
  mkCandidate "how" "slice-1" "answer" Project Result Grey {["go.mod"%string := "module m"%string]} "/root".
Definition gate : Gate (J := counting) := mkGate (Some 0) zero_stats.
End Sample.

Lemma Chain_fail_closed_witness : deps_clean Sample.read Sample.sha "/root" {["go.mod"%string := "module m"%string]}.
Proof.
  apply (Chain_fail_closed Sample.read Sample.sha Sample.cand Sample.gate). vm_compute. reflexivity.
Defined.

Lemma cache_provenance_witness :
  exists secondary cand, (secondary, cand, true) ∈ [(false, Sample.cand, true)]
    /\ key_of Sample.sha false Sample.cand = key_of Sample.sha secondary cand.
Proof.
  apply (cache_provenance Sample.sha
           (confirm Sample.sha (namespace false) false 5 Sample.cand (mkCached 0 ∅ true [])).2
           [(false, Sample.cand, true)] (key_of Sample.sha false Sample.cand) (mkVerdict true (5 + verdictTTL))).
  - refine (reach_confirm Sample.sha (mkCached (J := Sample.counting) 0 ∅ true []) [] false 5 Sample.cand _).
    constructor.
  - vm_compute. reflexivity.
Defined.
