(* ===== verification/Inject.v ===== *)
(** kernel/inject: which retrieved slices enter the reuse block, and the block.

    The file system is what [BuildHits] sees of it during one call: the answers
    of [Lstat], [EvalSymlinks] and of reading a dependency are arguments.  Sizes
    are lengths of texts in memory and are added without wrap-around. *)

From Stdlib Require Import ZArith Lia Bool Ascii String Floats.SpecFloat.
From stdpp Require Import tactics base option list sorting gmap strings.
From S2P Require Import Prelude Float64 GoStrings GoPath Utf8 Sanitize GoFmt ReuseBlock Slice Bm25 Zone Judge.

#[global] Open Scope Z_scope.

(** What [os.Lstat] answers. *)
Variant lstat_answer := LNotExist | LError | LInfo (symlink dir regular : bool).

Record Injector := mkInjector {
  in_Scope : Scope;
  in_K : Z;
  in_Budget : Z;
  in_MinScore : f64;
  in_AllowedTypes : option (SliceType -> bool);      (* [None] is the nil map *)
  in_RootDir : string;
  in_CurrentCommit : string;
  in_LibrarySize : Z;
  in_MinLibrarySize : Z;
  in_SourceSessionsByType : SliceType -> Z;
  in_MinSourceSessions : Z;
  in_MinCoverage : f64;
  in_MinTopMargin : f64;
  in_RequireRunnerUp : bool;
  in_Zones : option Zones;
  in_MinOrigin : string;
  in_AllowGrey : bool;
  in_TaskType : string;
}.
#[export] Instance Injector_eta : Eta Injector := fun i =>
  mkInjector (in_Scope i) (in_K i) (in_Budget i) (in_MinScore i) (in_AllowedTypes i) (in_RootDir i) (in_CurrentCommit i)
    (in_LibrarySize i) (in_MinLibrarySize i) (in_SourceSessionsByType i) (in_MinSourceSessions i) (in_MinCoverage i)
    (in_MinTopMargin i) (in_RequireRunnerUp i) (in_Zones i) (in_MinOrigin i) (in_AllowGrey i) (in_TaskType i).

Record CandidateDecision := mkDecision {
  d_ID : string;
  d_Score : f64;
  d_Coverage : f64;
  d_Zone : string;
  d_Admitted : bool;
  d_Reason : string;
}.
#[export] Instance Decision_eta : Eta CandidateDecision := fun d =>
  mkDecision (d_ID d) (d_Score d) (d_Coverage d) (d_Zone d) (d_Admitted d) (d_Reason d).

Record Injection := mkInjection {
  i_Slices : list Slice;
  i_Text : string;
  i_Bytes : Z;
  i_Dropped : Z;
  i_GreyIncluded : Z;
  i_Decisions : list CandidateDecision;
  i_TopMargin : f64;
}.

Record candidate := mkCandidate { c_sl : Slice; c_item : string; c_grey : bool; c_score : f64 }.

Definition DefaultBudget : Z := 4096.

Section Injector.
Context `{UnicodeLower} `{UnicodeClasses} `{UnicodePrint}.
Context (cwd : result string) (eval_symlinks : string -> result string) (lstat : string -> lstat_answer).
Context (read : string -> string -> option string) (sha : string -> string).
Context (inj : Injector).

Definition typeAllowed (t : SliceType) : bool := match in_AllowedTypes inj with None => true | Some f => f t end.

Definition admissionTypeEligible (s : Slice) : bool :=
  typeAllowed (SType s)
  && match in_AllowedTypes inj with
     | None => true
     | Some _ => negb (bool_decide (SType s = Result)) || bool_decide (EffectiveResultStatus (Meta s) = ResultStatusVerified)
     end.

Definition taskAdmits (s : Slice) : bool :=
  if (in_TaskType inj =? "")%string || negb (bool_decide (SType s = Memory)) then true
  else let tag := taskTagOf (Content s) in (tag =? "")%string || (tag =? in_TaskType inj)%string.

(** The components of one dependency path below the root. *)
Fixpoint check_parts (current : string) (parts : list string) : option string :=
  match parts with
  | [] => None
  | part :: rest =>
      let current := Join current part in
      match lstat current with
      | LNotExist => Some "path_missing"%string
      | LError => Some "dependency_path_invalid"%string
      | LInfo symlink dir regular =>
          let is_last := match rest with [] => true | _ => false end in
          if symlink then Some "dependency_path_invalid"%string
          else if negb is_last && negb dir then Some "dependency_path_invalid"%string
          else if is_last && negb regular then Some "dependency_path_invalid"%string
          else check_parts current rest
      end
  end.

Fixpoint check_paths (root : string) (paths : list string) : option string :=
  match paths with
  | [] => None
  | p :: paths =>
      if negb (GoPath.IsLocal p) then Some "dependency_path_invalid"%string
      else match check_parts root (elements (Clean p)) with Some r => Some r | None => check_paths root paths end
  end.

Definition dep_paths (s : Slice) : list string := sort_strings (map fst (map_to_list (MetaDeps (Meta s)))).

Definition freshnessReason (s : Slice) : string :=
  if (in_RootDir inj =? "")%string && (in_CurrentCommit inj =? "")%string then "" else
  if (in_CurrentCommit inj =? "")%string then "current_commit_unknown" else
  if (BaseCommit (Meta s) =? "")%string then "commit_unknown" else
  if IsHistoricalObservation s then
    (if existsb (fun p => negb (GoPath.IsLocal p)) (dep_paths s) then "dependency_path_invalid" else "")
  else
  if negb (BaseCommit (Meta s) =? in_CurrentCommit inj)%string && bool_decide (MetaDeps (Meta s) = ∅) then "stale_commit" else
  if bool_decide (MetaDeps (Meta s) = ∅) then "" else
  match Abs cwd (in_RootDir inj) with
  | Err _ => "dependency_path_invalid"
  | Ok root =>
      match eval_symlinks root with
      | Err _ => "dependency_path_invalid"
      | Ok root =>
          match check_paths root (dep_paths s) with
          | Some r => r
          | None =>
              match Judge.Verify read sha root (MetaDeps (Meta s)) with
              | Ok [] => ""
              | _ => "dependency_changed"
              end
          end
      end
  end%string.

(** *** The candidate window *)

Definition eligible (h : Slice.Hit) : bool :=
  match HitSlice h with
  | None => false
  | Some s => admissionTypeEligible s && taskAdmits s && (freshnessReason s =? "")%string
              && (Level (in_MinOrigin inj) <=? Level (MetaOrigin (Meta s)))
  end.

Definition window_step (st : Z * list Slice.Hit * list f64) (h : Slice.Hit) : Z * list Slice.Hit * list f64 :=
  let '(rank, candidates, scores) := st in
  let e := eligible h in
  if (0 <? in_K inj) && ((e && (in_K inj <=? Z.of_nat (length scores))) || (negb e && (in_K inj <=? rank)))
  then (rank + 1, candidates, scores)
  else (rank + 1, candidates ++ [h], if e then scores ++ [Score h] else scores).

Definition window (hits : list Slice.Hit) : list Slice.Hit * list f64 :=
  let '(_, candidates, scores) := foldl window_step (0, [], []) hits in (candidates, scores).

(** *** One candidate *)

Definition gate (b : bool) (reason : string) : option string := if b then Some reason else None.
Fixpoint first_gate (gs : list (option string)) : option string :=
  match gs with [] => None | Some r :: _ => Some r | None :: gs => first_gate gs end.

(** The checks before the zone, in order. *)
Definition gates (scores : list f64) (topMargin : f64) (h : Slice.Hit) (s : Slice) (coverage : f64) : list (option string) :=
  [gate (negb (typeAllowed (SType s))) "type_not_allowed";
   gate (bool_decide (is_Some (in_AllowedTypes inj)) && bool_decide (SType s = Result)
         && negb (bool_decide (EffectiveResultStatus (Meta s) = ResultStatusVerified))) "result_probation";
   gate (Level (MetaOrigin (Meta s)) <? Level (in_MinOrigin inj)) "origin_below_floor";
   gate (negb (freshnessReason s =? "")%string) (freshnessReason s);
   gate ((0 <? in_MinLibrarySize inj) && (in_LibrarySize inj <? in_MinLibrarySize inj)) "library_too_small";
   gate ((0 <? in_MinSourceSessions inj) && (in_SourceSessionsByType inj (SType s) <? in_MinSourceSessions inj)) "type_sources_too_few";
   gate (in_RequireRunnerUp inj && (Z.of_nat (length scores) <? 2)) "runner_up_missing";
   gate ((in_MinTopMargin inj >? f0)%f64 && (topMargin <? in_MinTopMargin inj)%f64) "top_margin_low";
   gate ((in_MinScore inj >? f0)%f64 && (Score h <? in_MinScore inj)%f64) "below_min_score";
   gate ((in_MinCoverage inj >? f0)%f64 && (coverage <? in_MinCoverage inj)%f64) "coverage_low";
   gate (negb (taskAdmits s)) "task_type_mismatch"].

(** The zone's name, and a reason or whether the slice goes in as grey. *)
Definition zone_verdict (h : Slice.Hit) (s : Slice) (top1 : f64) : string * (string + bool) :=
  match in_Zones inj with
  | None => ("unclassified"%string, inr false)
  | Some z =>
      let c := ClassifyHit (ForType (type_string (SType s)) z) h top1 in
      (zone_string c,
       match c with
       | Zone.Hit => inr false
       | Grey => if in_AllowGrey inj then inr true else inl "zone_grey"%string
       | Miss => inl "zone_miss"%string
       end)
  end.

Definition effective_budget : Z := if in_Budget inj <=? 0 then DefaultBudget else in_Budget inj.

Definition consider (query : string) (top1 topMargin : f64) (scores : list f64) (size : Z) (h : Slice.Hit) :
    CandidateDecision * option candidate :=
  match HitSlice h with
  | None => (mkDecision "" (Score h) f0 (zone_string Miss) false "nil_slice", None)
  | Some s =>
      let coverage := Bm25.QueryCoverage query (Content s) in
      let d := mkDecision (ID s) (Score h) coverage (zone_string Miss) false "nil_slice" in
      match first_gate (gates scores topMargin h s coverage) with
      | Some r => (d <| d_Reason := r |>, None)
      | None =>
          let '(name, verdict) := zone_verdict h s top1 in
          let d := d <| d_Zone := name |> in
          match verdict with
          | inl r => (d <| d_Reason := r |>, None)
          | inr grey =>
              let content := Sanitize (Content s) in
              if (content =? "")%string then (d <| d_Reason := "sanitized_empty"%string |>, None) else
              let item := formatSliceItem s (Score h) (escapeMarker content) grey in
              if effective_budget <? size + slen item + slen blockClose then (d <| d_Reason := "budget"%string |>, None)
              else (d <| d_Admitted := true |> <| d_Reason := "admitted"%string |>, Some (mkCandidate s item grey (Score h)))
          end
      end
  end.

Definition assemble_step (query : string) (top1 topMargin : f64) (scores : list f64)
    (st : Z * list CandidateDecision * list candidate * Z) (h : Slice.Hit) : Z * list CandidateDecision * list candidate * Z :=
  let '(size, decisions, cands, dropped) := st in
  let '(d, c) := consider query top1 topMargin scores size h in
  match c with
  | None => (size, decisions ++ [d], cands, dropped + 1)
  | Some c => (size + slen (c_item c), decisions ++ [d], cands ++ [c], dropped)
  end.

(** *** The block *)

Definition cand_less (a b : candidate) : bool :=
  if negb (Bool.eqb (c_grey a) (c_grey b)) then negb (c_grey a) else ranked_less c_score (fun c => ID (c_sl c)) a b.

Definition top_margin (scores : list f64) : f64 := match scores with a :: b :: _ => (a - b)%f64 | _ => f0 end.

Definition BuildHits (query : string) (hits : list Slice.Hit) : Injection :=
  let '(hits, scores) := window hits in
  let top1 := match scores with a :: _ => a | [] => f0 end in
  let topMargin := top_margin scores in
  let '(_, decisions, cands, dropped) := foldl (assemble_step query top1 topMargin scores) (slen blockOpen, [], [], 0) hits in
  match cands with
  | [] => mkInjection [] "" 0 dropped 0 decisions topMargin
  | _ =>
      let cands := go_sort cand_less cands in
      let text := blockOpen +:+ concat_strings (map c_item cands) +:+ blockClose in
      mkInjection (map c_sl cands) text (slen text) dropped (Z.of_nat (length (List.filter c_grey cands))) decisions topMargin
  end.

Definition Build (Search : string -> Z -> Scope -> result (list Slice.Hit)) (query : string) : result Injection :=
  let k := if in_K inj <=? 0 then 5 else in_K inj in
  match Search query k (in_Scope inj) with
  | Err e => Err ("inject: search: " ++ e)%string
  | Ok hits => Ok (BuildHits query hits)
  end.

(** ** What admission means *)

Lemma first_gate_none gs : first_gate gs = None -> Forall (fun g => g = None) gs.
Proof using. induction gs as [|[r|] gs IH]; [constructor|done|]. intros Hg. constructor; [done|by apply IH]. Qed.

Lemma first_gate_some gs r : first_gate gs = Some r -> Some r ∈ gs.
Proof using.
  induction gs as [|[r'|] gs IH]; cbn [first_gate]; [done|intros [= ->]; by left|]. intros Hg%IH. by right.
Qed.

Lemma gate_none b r : gate b r = None -> b = false.
Proof using. by destruct b. Qed.

Lemma check_parts_reason current parts r : check_parts current parts = Some r -> r <> "admitted"%string.
Proof using.
  revert current. induction parts as [|p parts IH]; intros current; cbn [check_parts]; [done|].
  destruct (lstat _) as [| |[] dir reg]; try by intros [= <-]. destruct (_ && negb dir); [by intros [= <-]|].
  destruct (_ && negb reg); [by intros [= <-]|apply IH].
Qed.

Lemma check_paths_reason root paths r : check_paths root paths = Some r -> r <> "admitted"%string.
Proof using.
  induction paths as [|p paths IH]; cbn [check_paths]; [done|]. destruct (negb _); [by intros [= <-]|].
  destruct (check_parts _ _) eqn:E; [intros [= <-]; by eapply check_parts_reason|exact IH].
Qed.

Lemma check_parts_nonempty current parts : check_parts current parts <> Some EmptyString.
Proof using.
  revert current. induction parts as [|p parts IH]; intros current; cbn [check_parts]; [done|].
  destruct (lstat _) as [| |[] dir reg]; try done. destruct (_ && negb dir); [done|]. destruct (_ && negb reg); [done|apply IH].
Qed.

Lemma check_paths_nonempty root paths : check_paths root paths <> Some EmptyString.
Proof using.
  induction paths as [|p paths IH]; cbn [check_paths]; [done|]. destruct (negb _); [done|].
  destruct (check_parts _ _) eqn:E; [|exact IH]. intros [= ->]. by apply check_parts_nonempty in E.
Qed.

Lemma freshness_not_admitted s : freshnessReason s <> "admitted"%string.
Proof using.
  unfold freshnessReason. repeat (case_match; try done). by eapply check_paths_reason.
Qed.

(** The checks an admitted slice has passed, each in the words of the code. *)
Record admissible (query : string) (top1 topMargin : f64) (scores : list f64) (h : Slice.Hit) (s : Slice) (grey : bool) : Prop := {
  ad_slice : HitSlice h = Some s;
  ad_type : forall f, in_AllowedTypes inj = Some f -> f (SType s) = true;
  ad_result : is_Some (in_AllowedTypes inj) -> SType s = Result -> EffectiveResultStatus (Meta s) = ResultStatusVerified;
  ad_origin : Level (in_MinOrigin inj) <= Level (MetaOrigin (Meta s));
  ad_fresh : freshnessReason s = ""%string;
  ad_library : 0 < in_MinLibrarySize inj -> in_MinLibrarySize inj <= in_LibrarySize inj;
  ad_sources : 0 < in_MinSourceSessions inj -> in_MinSourceSessions inj <= in_SourceSessionsByType inj (SType s);
  ad_runner_up : in_RequireRunnerUp inj = true -> 2 <= Z.of_nat (length scores);
  ad_margin : (in_MinTopMargin inj >? f0)%f64 = true -> (topMargin <? in_MinTopMargin inj)%f64 = false;
  ad_score : (in_MinScore inj >? f0)%f64 = true -> (Score h <? in_MinScore inj)%f64 = false;
  ad_coverage : (in_MinCoverage inj >? f0)%f64 = true -> (Bm25.QueryCoverage query (Content s) <? in_MinCoverage inj)%f64 = false;
  ad_task : taskAdmits s = true;
  ad_zone : forall z, in_Zones inj = Some z ->
    let c := ClassifyHit (ForType (type_string (SType s)) z) h top1 in
    if grey then c = Grey /\ in_AllowGrey inj = true else c = Zone.Hit;
  ad_grey : in_Zones inj = None -> grey = false;
  ad_content : Sanitize (Content s) <> ""%string;
}.

Definition rendered (h : Slice.Hit) (s : Slice) (grey : bool) : string :=
  formatSliceItem s (Score h) (escapeMarker (Sanitize (Content s))) grey.

Lemma gates_reason scores m h s cov r : first_gate (gates scores m h s cov) = Some r -> r <> "admitted"%string.
Proof using.
  intros Hg%first_gate_some. unfold gates in Hg.
  repeat (apply elem_of_cons in Hg as [Hg|Hg]; [unfold gate in Hg; case_match; simplify_eq; try done; apply freshness_not_admitted|]).
  by apply not_elem_of_nil in Hg.
Qed.

Lemma consider_admitted query top1 m scores size h d c :
  consider query top1 m scores size h = (d, c) ->
  match c with
  | None => d_Admitted d = false /\ d_Reason d <> "admitted"%string
  | Some c =>
      d_Admitted d = true /\ d_Reason d = "admitted"%string /\ d_ID d = ID (c_sl c)
      /\ size + slen (c_item c) + slen blockClose <= effective_budget
      /\ c_score c = Score h /\ c_item c = rendered h (c_sl c) (c_grey c)
      /\ admissible query top1 m scores h (c_sl c) (c_grey c)
  end.
Proof using.
  unfold consider. destruct (HitSlice h) as [s|] eqn:Eh; [|by intros [= <- <-]].
  destruct (first_gate _) as [r|] eqn:Eg; [intros [= <- <-]; split; [done|by eapply gates_reason]|].
  apply first_gate_none in Eg. destruct (zone_verdict h s top1) as [name verdict] eqn:Ez.
  destruct verdict as [r|grey].
  { intros [= <- <-]. split; [done|]. cbn. unfold zone_verdict in Ez. repeat case_match; simplify_eq; done. }
  destruct (String.eqb_spec (Sanitize (Content s)) ""); [by intros [= <- <-]|].
  destruct (Z.ltb_spec (effective_budget) (size + slen (formatSliceItem s (Score h) (escapeMarker (Sanitize (Content s))) grey) + slen blockClose));
    [by intros [= <- <-]|]. intros [= <- <-]. cbn [c_sl c_item c_grey c_score].
  split; [reflexivity|]. split; [reflexivity|]. split; [reflexivity|]. split; [assumption|]. split; [reflexivity|]. split; [reflexivity|].
  unfold gates in Eg. rewrite !Forall_cons in Eg.
  destruct Eg as (G1%gate_none & G2%gate_none & G3%gate_none & G4%gate_none & G5%gate_none & G6%gate_none & G7%gate_none & G8%gate_none & G9%gate_none & G10%gate_none & G11%gate_none & _).
  assert (Himp : forall a b : bool, a && b = false -> a = true -> b = false) by by intros [] [].
  split; try done.
  - intros f Hf. apply negb_false_iff in G1. unfold typeAllowed in G1. by rewrite Hf in G1.
  - intros Hsome Hres. rewrite (bool_decide_eq_true_2 _ Hsome), (bool_decide_eq_true_2 _ Hres) in G2. cbn in G2.
    by apply negb_false_iff, bool_decide_eq_true in G2.
  - by apply Z.ltb_ge in G3.
  - apply negb_false_iff in G4. by apply String.eqb_eq in G4.
  - intros Hl. by apply Z.ltb_ge, (Himp _ _ G5), Z.ltb_lt.
  - intros Hl. by apply Z.ltb_ge, (Himp _ _ G6), Z.ltb_lt.
  - intros Hl. by apply Z.ltb_ge, (Himp _ _ G7).
  - exact (Himp _ _ G8).
  - exact (Himp _ _ G9).
  - exact (Himp _ _ G10).
  - by apply negb_false_iff in G11.
  - intros z Hz. unfold zone_verdict in Ez. rewrite Hz in Ez. repeat case_match; simplify_eq; done.
  - intros Hz. unfold zone_verdict in Ez. rewrite Hz in Ez. by simplify_eq.
Qed.

(** ** The assembled block *)

Lemma window_sublist hits : (window hits).1 `sublist_of` hits.
Proof using.
  unfold window. assert (Hg : forall l rank cands scores, exists extra, (foldl window_step (rank, cands, scores) l).1.2 = cands ++ extra /\ extra `sublist_of` l).
  { induction l as [|h l IH]; intros rank cands scores; [exists []; by rewrite app_nil_r|]. cbn [foldl].
    unfold window_step at 2. destruct (_ && _).
    - destruct (IH (rank + 1) cands scores) as (e & E & Hs). exists e. split; [done|]. by constructor.
    - destruct (IH (rank + 1) (cands ++ [h]) (if eligible h then scores ++ [Score h] else scores)) as (e & E & Hs).
      exists (h :: e). rewrite E, <- app_assoc. split; [done|]. by constructor. }
  destruct (Hg hits 0 [] []) as (e & E & Hs). destruct (foldl _ _ _) as [[rank cands] scores]. cbn in *. by subst.
Qed.

Section Assembly.
Context (query : string) (top1 m : f64) (scores : list f64) (hits : list Slice.Hit).

(** An admitted hit, and what it becomes. *)
Definition taken (c : candidate) : Prop :=
  exists h, h ∈ hits /\ c_score c = Score h /\ c_item c = rendered h (c_sl c) (c_grey c)
    /\ admissible query top1 m scores h (c_sl c) (c_grey c).

Record assembled (size : Z) (ds : list CandidateDecision) (cs : list candidate) (dropped : Z) : Prop := {
  as_size : size = slen blockOpen + slen (concat_strings (map c_item cs));
  as_budget : cs = [] \/ size + slen blockClose <= effective_budget;
  as_ids : map d_ID (List.filter d_Admitted ds) = map (fun c => ID (c_sl c)) cs;
  as_reasons : Forall (fun d => d_Admitted d = true <-> d_Reason d = "admitted"%string) ds;
  as_count : dropped + Z.of_nat (length cs) = Z.of_nat (length ds);
  as_taken : Forall taken cs;
}.

Lemma assemble_spec l st :
  (forall h, h ∈ l -> h ∈ hits) ->
  assembled st.1.1.1 st.1.1.2 st.1.2 st.2 ->
  let r := foldl (assemble_step query top1 m scores) st l in
  assembled r.1.1.1 r.1.1.2 r.1.2 r.2 /\ length r.1.1.2 = (length st.1.1.2 + length l)%nat.
Proof using.
  revert st. induction l as [|h l IH]; intros [[[size ds] cs] dropped] Hl Hst; cbn [foldl]; [split; [done|simpl; lia]|].
  cbn [fst snd] in Hst. destruct (assemble_step query top1 m scores (size, ds, cs, dropped) h) as [[[size' ds'] cs'] dropped'] eqn:E.
  assert (Hst' : assembled size' ds' cs' dropped' /\ length ds' = S (length ds)).
  { unfold assemble_step in E. destruct (consider query top1 m scores size h) as [d [c|]] eqn:Ec; apply consider_admitted in Ec; simplify_eq;
      (split; [|rewrite length_app; simpl; lia]); destruct Hst as [S1 S2 S3 S4 S5 S6].
    - destruct Ec as (Ha & Hr & Hid & Hb & Hsc & Hit & Had). split.
      + rewrite map_app, concat_strings_app. cbn [map concat_strings foldr]. rewrite string_app_nil, slen_app. lia.
      + right. lia.
      + rewrite List.filter_app, !map_app, S3. cbn. by rewrite Ha, <- Hid.
      + apply Forall_app. split; [done|]. by repeat constructor.
      + rewrite !length_app. simpl. lia.
      + apply Forall_app. split; [done|]. constructor; [|done]. exists h. split; [apply Hl; by left|done].
    - destruct Ec as [Ha Hr]. split; try done.
      + rewrite List.filter_app, map_app. cbn. by rewrite Ha, app_nil_r.
      + apply Forall_app. split; [done|]. repeat constructor; [congruence|done].
      + rewrite length_app. simpl. lia. }
  destruct Hst' as [Hst' Hlen]. destruct (IH (size', ds', cs', dropped')) as [Hr Hn]; [intros; apply Hl; by right|done|].
  split; [exact Hr|]. cbn [length fst snd] in *. lia.
Qed.
End Assembly.

Lemma slen_concat_perm (l1 l2 : list string) : l1 ≡ₚ l2 -> slen (concat_strings l1) = slen (concat_strings l2).
Proof using.
  induction 1 as [|x l1 l2 _ IH|x y l|l1 l2 l3 _ IH1 _ IH2]; cbn [concat_strings foldr] in *; rewrite ?slen_app; try lia.
  - fold (concat_strings l1) (concat_strings l2). lia.
Qed.

(** *** Order *)

Abbreviation rank_less := (ranked_less c_score (fun c => ID (c_sl c))).

Lemma cand_asym a b : cand_less a b = true -> cand_less b a = false.
Proof using.
  unfold cand_less. destruct (c_grey a), (c_grey b); cbn; try done; apply ranked_asym.
Qed.

Lemma cand_cotrans a b c : scored c_score a -> scored c_score b -> scored c_score c ->
  not_after cand_less a b -> not_after cand_less b c -> not_after cand_less a c.
Proof using.
  unfold not_after, cand_less. intros Ha Hb Hc. destruct (c_grey a), (c_grey b), (c_grey c); cbn; try done; by apply ranked_cotrans.
Qed.

(** What [BuildHits] returns, whole. *)
Lemma BuildHits_spec query hits :
  let r := BuildHits query hits in
  let cand := (window hits).1 in let scores := (window hits).2 in
  let top1 := match scores with a :: _ => a | [] => f0 end in
  exists cs, i_Slices r = map c_sl cs
    /\ i_Text r = (match cs with [] => "" | _ => blockOpen +:+ concat_strings (map c_item cs) +:+ blockClose end)
    /\ i_Bytes r = slen (i_Text r) /\ i_Bytes r <= effective_budget
    /\ i_GreyIncluded r = Z.of_nat (length (List.filter c_grey cs))
    /\ i_Dropped r + Z.of_nat (length cs) = Z.of_nat (length cand) /\ length (i_Decisions r) = length cand
    /\ map d_ID (List.filter d_Admitted (i_Decisions r)) ≡ₚ map (fun c => ID (c_sl c)) cs
    /\ Forall (fun d => d_Admitted d = true <-> d_Reason d = "admitted"%string) (i_Decisions r)
    /\ Forall (taken query top1 (top_margin scores) scores hits) cs
    /\ (Forall (fun h => is_nan (Score h) = false) hits -> StronglySorted (not_after cand_less) cs).
Proof using.
  cbn zeta. unfold BuildHits. destruct (window hits) as [cand scores] eqn:Ew. cbn [fst snd].
  assert (Hsub : cand `sublist_of` hits) by (pose proof (window_sublist hits) as Hs; by rewrite Ew in Hs).
  set (top1 := match scores with a :: _ => a | [] => f0 end).
  destruct (assemble_spec query top1 (top_margin scores) scores hits cand (slen blockOpen, [], [], 0)) as [Ha Hl].
  { intros h Hh. by eapply elem_of_sublist. }
  { split; try done. by left. }
  destruct (foldl _ _ cand) as [[[size ds] cs] dropped]. cbn [fst snd length] in Ha, Hl. destruct Ha as [S1 S2 S3 S4 S5 S6].
  assert (Hb0 : 0 <= effective_budget) by (unfold effective_budget, DefaultBudget; destruct (Z.leb_spec (in_Budget inj) 0); lia).
  destruct cs as [|c0 cs0].
  - exists []. cbn [i_Slices i_Text i_Bytes i_Dropped i_GreyIncluded i_Decisions map length] in *. rewrite S3.
    do 4 (split; [done|]). split; [done|]. split; [lia|]. split; [lia|]. split; [done|]. split; [done|]. split; [constructor|]. intros _. constructor.
  - set (cs := c0 :: cs0) in *. assert (Hne : go_sort cand_less cs <> []) by (rewrite go_sort_nil; done).
    exists (go_sort cand_less cs). cbn [i_Slices i_Text i_Bytes i_Dropped i_GreyIncluded i_Decisions].
    pose proof (go_sort_perm cand_less cs) as Hperm.
    split; [done|]. split; [by destruct (go_sort cand_less cs)|]. split; [done|]. split.
    { destruct S2 as [|S2]; [done|]. rewrite !slen_app, (slen_concat_perm _ (map c_item cs)) by (by apply Permutation_map). lia. }
    split; [by rewrite Hperm|]. rewrite go_sort_length. split; [lia|]. split; [lia|]. split; [rewrite S3; symmetry; by apply Permutation_map|].
    split; [done|]. split; [by rewrite Hperm|]. intros Hn. apply (go_sort_sorted cand_less (scored c_score)).
    + intros a b _ _. apply cand_asym.
    + apply cand_cotrans.
    + eapply Forall_impl; [exact S6|]. intros c (h & Hh & Esc & _). unfold scored. rewrite Esc. rewrite Forall_forall in Hn. by apply Hn.
Qed.

(** ** Properties *)

(** the block and its account.  For any hits, the block is empty or the two
    markers around the items of the admitted slices, whole, in the exact bytes the
    budget was judged on, so it never exceeds the budget; the slices are listed in
    the order of the block - verified before grey, then by score and ID, unless a
    score is NaN; there is one decision per candidate of the window; the admitted
    set is replayed from the decisions, and every other candidate is counted as
    dropped with a reason. *)
Theorem BuildHits_block query hits :
  let r := BuildHits query hits in
  i_Bytes r = slen (i_Text r) /\ i_Bytes r <= effective_budget
  /\ (exists cs, i_Slices r = map c_sl cs
       /\ i_Text r = match cs with [] => "" | _ => blockOpen +:+ concat_strings (map c_item cs) +:+ blockClose end
       /\ Forall (fun c => exists h, h ∈ hits /\ HitSlice h = Some (c_sl c) /\ c_item c = rendered h (c_sl c) (c_grey c)) cs
       /\ i_GreyIncluded r = Z.of_nat (length (List.filter c_grey cs))
       /\ (Forall (fun h => is_nan (Score h) = false) hits -> StronglySorted (not_after cand_less) cs))
  /\ length (i_Decisions r) = length (window hits).1
  /\ i_Dropped r + Z.of_nat (length (i_Slices r)) = Z.of_nat (length (i_Decisions r))
  /\ map d_ID (List.filter (fun d => (d_Reason d =? "admitted")%string) (i_Decisions r)) ≡ₚ map ID (i_Slices r).
Proof using.
  destruct (BuildHits_spec query hits) as (cs & Hs & Ht & Hb & Hbud & Hg & Hd & Hl & Hids & Hr & Htk & Hso). cbn zeta.
  split; [done|]. split; [done|]. split.
  { exists cs. split; [done|]. split; [done|]. split; [|done]. eapply Forall_impl; [exact Htk|].
    intros c (h & Hh & _ & Hi & Ha). exists h. split; [done|]. split; [apply Ha|done]. }
  split; [done|]. rewrite Hs, length_map. split; [lia|]. rewrite map_map, <- Hids.
  assert (E : List.filter (fun d => (d_Reason d =? "admitted")%string) (i_Decisions (BuildHits query hits)) = List.filter d_Admitted (i_Decisions (BuildHits query hits)));
    [|by rewrite E].
  clear -Hr. induction Hr as [|d ds Hd _ IH]; [done|]. cbn [List.filter]. rewrite IH.
  assert (Eb : (d_Reason d =? "admitted")%string = d_Admitted d) by (apply eq_true_iff_eq; rewrite String.eqb_eq; tauto). by rewrite Eb.
Qed.

(** C16: admission fails closed.  A slice in the block was retrieved and passed
    every check that is switched on: its type is allowed and a result verified,
    its origin reaches the floor, its source is fresh, the library and its
    sessions are large enough, there is a runner-up and a margin, score, coverage
    and task tag suffice, its zone is a hit - or grey where grey is allowed, and
    then it is rendered as unverified -, and sanitising left something of it. *)
Theorem BuildHits_admits query hits s :
  s ∈ i_Slices (BuildHits query hits) ->
  let scores := (window hits).2 in
  exists h grey, h ∈ hits
    /\ admissible query (match scores with a :: _ => a | [] => f0 end) (top_margin scores) scores h s grey.
Proof using.
  destruct (BuildHits_spec query hits) as (cs & Hs & _ & _ & _ & _ & _ & _ & _ & _ & Htk & _). cbn zeta. rewrite Hs.
  intros (c & -> & Hc)%list_elem_of_fmap. rewrite Forall_forall in Htk. destruct (Htk c Hc) as (h & Hh & _ & _ & Ha). by exists h, (c_grey c).
Qed.

(** C17: the block is structurally closed.  If no displayed field of a hit - ID,
    project, source session, commit, origin - has an opening bracket, then between
    the block's two markers there is no other marker in any letter case, whatever
    the contents are. *)
Theorem BuildHits_closed query hits :
  (forall r, 128 <= r -> rune_lower_ext r <> 91) ->
  (forall h s, h ∈ hits -> HitSlice h = Some s -> plain_fields s) ->
  let text := i_Text (BuildHits query hits) in
  text = ""%string \/ exists body, text = blockOpen +:+ body +:+ blockClose /\ no_marker body.
Proof using.
  intros Hbr Hp. destruct (BuildHits_spec query hits) as (cs & _ & Ht & _ & _ & _ & _ & _ & _ & _ & Htk & _). cbn zeta. rewrite Ht.
  destruct cs as [|c0 cs0]; [by left|right]. set (cs := c0 :: cs0) in *. exists (concat_strings (map c_item cs)). split; [done|].
  set (item_of := fun c => (c_sl c, c_score c, escapeMarker (Sanitize (Content (c_sl c))), c_grey c)).
  assert (E : map c_item cs = map (fun i => formatSliceItem i.1.1.1 i.1.1.2 i.1.2 i.2) (map item_of cs)).
  { rewrite map_map. apply map_ext_Forall. eapply Forall_impl; [exact Htk|]. intros c (h & _ & Esc & Ei & _). rewrite Ei. unfold rendered, item_of. cbn [fst snd]. rewrite Esc. reflexivity. }
  rewrite E. apply items_free; [done|]. apply Forall_fmap. eapply Forall_impl; [exact Htk|]. intros c (h & Hh & _ & _ & Ha). unfold item_of. cbn [fst snd].
  split; [|apply escapeMarker_free]. eapply Hp; [exact Hh|]. apply Ha.
Qed.

(** The components of a dependency path that the walk accepts: no symbolic link,
    directories, and a regular file at the end. *)
Definition walk_ok (current : string) (parts : list string) : Prop :=
  forall i, (i < length parts)%nat -> exists dir regular,
    lstat (foldl Join current (take (S i) parts)) = LInfo false dir regular
    /\ (if decide (S i = length parts) then regular = true else dir = true).

Lemma walk_ok_cons current p parts : walk_ok current (p :: parts) <->
  (exists dir regular, lstat (Join current p) = LInfo false dir regular /\ (if decide (parts = []) then regular = true else dir = true))
  /\ walk_ok (Join current p) parts.
Proof using.
  split.
  - intros Hx. split.
    + destruct (Hx 0%nat ltac:(simpl; lia)) as (d & g & E & Hd). exists d, g. split; [done|].
      destruct (decide (parts = [])) as [->|Hp]; [done|]. destruct (decide _) as [Hl|]; [|done]. destruct parts; [done|discriminate Hl].
    + intros i Hi. destruct (Hx (S i) ltac:(simpl; lia)) as (d & g & E & Hd). exists d, g. split; [done|].
      cbn [length] in Hd. destruct (decide (S i = length parts)), (decide (S (S i) = S (length parts))); try lia; done.
  - intros [(d & g & E & Hd) Hx] [|i] Hi.
    + exists d, g. split; [done|]. destruct (decide (parts = [])) as [->|Hp]; [done|]. destruct (decide _) as [Hl|]; [|done]. destruct parts; [done|discriminate Hl].
    + destruct (Hx i ltac:(simpl in Hi; lia)) as (d' & g' & E' & Hd'). exists d', g'. split; [done|].
      cbn [length]. destruct (decide (S i = length parts)), (decide (S (S i) = S (length parts))); try lia; done.
Qed.

Lemma check_parts_clean current parts : check_parts current parts = None <-> walk_ok current parts.
Proof using.
  revert current. induction parts as [|p parts IH]; intros current; [by split; [intros _ i Hi; simpl in Hi; lia|]|].
  rewrite walk_ok_cons, <- IH. cbn [check_parts]. split.
  - destruct (lstat (Join current p)) as [| |[] dir regular]; try done. destruct parts, dir, regular; try done; intros Hx; (split; [by eexists _, _|exact Hx]).
  - intros [(d & g & -> & Hd) Hx]. cbn [negb andb]. destruct parts, d, g; done.
Qed.

Lemma check_paths_clean root paths : check_paths root paths = None <->
  forall p, p ∈ paths -> GoPath.IsLocal p = true /\ walk_ok root (elements (Clean p)).
Proof using.
  induction paths as [|q paths IH]; cbn [check_paths]; [split; [by intros _ p ?%not_elem_of_nil|done]|].
  setoid_rewrite elem_of_cons. split.
  - destruct (GoPath.IsLocal q) eqn:El; [|done]. cbn [negb]. destruct (check_parts _ _) eqn:Ec; [done|]. apply check_parts_clean in Ec.
    intros Hc p [->|Hp]; [done|by apply IH].
  - intros Hx. destruct (Hx q (or_introl eq_refl)) as [-> Hq%check_parts_clean]. cbn [negb]. rewrite Hq. apply IH. eauto.
Qed.

Lemma dep_paths_spec s p : p ∈ dep_paths s <-> is_Some (MetaDeps (Meta s) !! p).
Proof using.
  unfold dep_paths, sort_strings. rewrite elem_of_go_sort, list_elem_of_In, in_map_iff. split.
  - intros ([q want] & <- & Hp%list_elem_of_In). apply elem_of_map_to_list in Hp. by exists want.
  - intros [want Hp]. exists (p, want). split; [done|]. rewrite <- list_elem_of_In. by apply elem_of_map_to_list.
Qed.

(** Every dependency is, below the resolved root, a regular file reached through
    directories only and without a symbolic link, with the recorded hash. *)
Definition deps_current (s : Slice) : Prop :=
  exists dir root, Abs cwd (in_RootDir inj) = Ok dir /\ eval_symlinks dir = Ok root
    /\ forall p want, MetaDeps (Meta s) !! p = Some want ->
         GoPath.IsLocal p = true /\ walk_ok root (elements (Clean p)) /\ Judge.dep_clean read sha root p want.

Lemma deps_current_spec s :
  deps_current s <->
  match Abs cwd (in_RootDir inj) with
  | Ok dir => match eval_symlinks dir with
              | Ok root => check_paths root (dep_paths s) = None /\ Judge.Verify read sha root (MetaDeps (Meta s)) = Ok []
              | Err _ => False end
  | Err _ => False
  end.
Proof using.
  unfold deps_current. destruct (Abs cwd _) as [dir|]; [|by split; [intros (? & ? & [=] & _)|done]].
  destruct (eval_symlinks dir) as [root|] eqn:Er; [|by split; [intros (? & ? & [= <-] & Er' & _); congruence|done]].
  rewrite check_paths_clean. setoid_rewrite dep_paths_spec. rewrite (Judge.Verify_clean read sha root _). split.
  - intros (? & ? & [= <-] & Er' & Hx). rewrite Er in Er'. injection Er' as <-. split; [intros p [want Hp]; naive_solver|].
    intros p want Hp. by apply Hx.
  - intros [Hx1 Hx2]. exists dir, root. split; [done|]. split; [done|]. intros p want Hp. destruct (Hx1 p (mk_is_Some _ _ Hp)). eauto.
Qed.

Lemma local_paths s :
  (if existsb (fun p => negb (GoPath.IsLocal p)) (dep_paths s) then "dependency_path_invalid" else "")%string = ""%string
  <-> forall p, is_Some (MetaDeps (Meta s) !! p) -> GoPath.IsLocal p = true.
Proof using.
  setoid_rewrite <- dep_paths_spec. destruct (existsb _ _) eqn:Ex; (split; [intros Hr|intros Hx]); try done.
  - apply existsb_exists in Ex as (p & Hp%list_elem_of_In & Hl). by rewrite (Hx p Hp) in Hl.
  - intros p Hp. destruct (GoPath.IsLocal p) eqn:Hl; [done|]. apply not_true_iff_false in Ex. destruct Ex. apply existsb_exists.
    exists p. rewrite Hl. split; [by apply list_elem_of_In|done].
Qed.

(** The part of [freshnessReason] below the historical observations. *)
Lemma current_deps s :
  (if negb (BaseCommit (Meta s) =? in_CurrentCommit inj)%string && bool_decide (MetaDeps (Meta s) = ∅) then "stale_commit" else
   if bool_decide (MetaDeps (Meta s) = ∅) then "" else
   match Abs cwd (in_RootDir inj) with
   | Err _ => "dependency_path_invalid"
   | Ok root =>
       match eval_symlinks root with
       | Err _ => "dependency_path_invalid"
       | Ok root =>
           match check_paths root (dep_paths s) with
           | Some r => r
           | None => match Judge.Verify read sha root (MetaDeps (Meta s)) with Ok [] => "" | _ => "dependency_changed" end
           end
       end
   end)%string = ""%string
  <-> (MetaDeps (Meta s) = ∅ -> BaseCommit (Meta s) = in_CurrentCommit inj) /\ (MetaDeps (Meta s) <> ∅ -> deps_current s).
Proof using.
  rewrite deps_current_spec. case_bool_decide as He.
  - rewrite andb_true_r. destruct (String.eqb_spec (BaseCommit (Meta s)) (in_CurrentCommit inj)); cbn [negb]; naive_solver.
  - rewrite andb_false_r. split; [|intros [_ Hx]; specialize (Hx He); revert Hx].
    + intros Hx. split; [done|intros _]. destruct (Abs _ _); [|done]. destruct (eval_symlinks _); [|done].
      destruct (check_paths _ _) eqn:Ep; [subst; by apply check_paths_nonempty in Ep|]. by destruct (Judge.Verify _ _ _ _) as [[]|].
    + destruct (Abs _ _); [|done]. destruct (eval_symlinks _); [|done]. by intros [-> ->].
Qed.

(** C18: what freshness means, exactly.  An injector that was given neither a root
    directory nor a current commit does not check it.  With a root and no commit
    nothing is fresh.  With a commit, a slice is fresh when it names a commit and:
    for a historical observation, its dependency paths are local - no file is
    read; for any other slice without dependencies, the commit is the current one;
    and for one with dependencies, whatever its commit, each of them is, below the
    resolved root, a regular file reached through directories only - no symbolic
    link on the way - whose content still has the recorded hash. *)
Theorem freshness_sound s :
  freshnessReason s = ""%string <->
  (in_RootDir inj = ""%string /\ in_CurrentCommit inj = ""%string)
  \/ (in_CurrentCommit inj <> ""%string /\ BaseCommit (Meta s) <> ""%string
      /\ if IsHistoricalObservation s then forall p, is_Some (MetaDeps (Meta s) !! p) -> GoPath.IsLocal p = true
         else (MetaDeps (Meta s) = ∅ -> BaseCommit (Meta s) = in_CurrentCommit inj)
              /\ (MetaDeps (Meta s) <> ∅ -> deps_current s)).
Proof using.
  unfold freshnessReason. destruct (String.eqb_spec (in_RootDir inj) ""), (String.eqb_spec (in_CurrentCommit inj) ""); cbn [andb]; try (split; [try done; auto|naive_solver]).
  all: destruct (String.eqb_spec (BaseCommit (Meta s)) ""); [split; [done|naive_solver]|]; destruct (IsHistoricalObservation s) eqn:Eh.
  1, 3: by rewrite <- local_paths; split; [right|naive_solver].
  all: rewrite <- current_deps; split; [right|naive_solver]; done.
Qed.

(** The window holds at most [K] eligible hits. *)
Lemma window_scores hits : 0 < in_K inj -> Z.of_nat (length (window hits).2) <= in_K inj.
Proof using.
  intros HK. unfold window.
  assert (Hg : forall l st, Z.of_nat (length st.2) <= in_K inj -> Z.of_nat (length (foldl window_step st l).2) <= in_K inj).
  { induction l as [|h l IH]; intros [[rank cands] scores] Hst; cbn [foldl]; [done|]. apply IH. unfold window_step.
    destruct (Z.ltb_spec 0 (in_K inj)); [|lia]. cbn [andb snd] in *. destruct (eligible h); cbn [andb orb negb].
    - destruct (Z.leb_spec (in_K inj) (Z.of_nat (length scores))); cbn [orb snd]; [done|]. rewrite length_app. simpl. lia.
    - destruct (in_K inj <=? rank); done. }
  specialize (Hg hits (0, [], []) ltac:(simpl; lia)). by destruct (foldl _ _ _) as [[rank cands] scores].
Qed.

(** With a window of one slot the runner-up is never seen: requiring one, or a
    positive margin, empties the block. *)
Lemma one_slot_admits_nothing query hits :
  in_K inj = 1 -> in_RequireRunnerUp inj = true \/ (in_MinTopMargin inj >? f0)%f64 = true -> i_Slices (BuildHits query hits) = [].
Proof using.
  intros HK Hreq. destruct (BuildHits_spec query hits) as (cs & Hs & _ & _ & _ & _ & _ & _ & _ & _ & Htk & _). rewrite Hs.
  destruct cs as [|c cs]; [done|]. exfalso. apply Forall_cons in Htk as [(h & _ & _ & _ & Ha) _].
  pose proof (window_scores hits ltac:(lia)) as Hw. rewrite HK in Hw. destruct Hreq as [Hr|Hm].
  - pose proof (ad_runner_up _ _ _ _ _ _ _ Ha Hr). lia.
  - pose proof (ad_margin _ _ _ _ _ _ _ Ha Hm) as Hlt. destruct (window hits).2 as [|a [|b l]]; simpl in Hw; [|clear Hw|lia]; cbn [top_margin] in Hlt; congruence.
Qed.
End Injector.

(** ** On a small library *)

Module InjectSample.
#[local] Existing Instances ascii_lower ascii_classes.
#[local] Instance print : UnicodePrint := fun _ => true.

Definition meta (source : string) : SliceMeta := zero_meta <| SourceSession := source |> <| BaseCommit := "c1"%string |> <| MetaOrigin := OriginSessionAuto |>.
Definition slice (id source content : string) : Slice := mkSlice id Memory Project content None Slice.zero_stats f0 (meta source) 7.
Definition hit (id source content : string) (n d : Z) : Slice.Hit := mkHit (Some (slice id source content)) (f_of_ratio n d) f0 false f0 false.

Definition injector : Injector :=
  mkInjector Project 2 0 f0 (Some (fun t => bool_decide (t = Memory))) "" "c1" 3 1 (fun _ => 1) 1 f0 f0 true (Some Default) OriginSessionAuto true "".
Definition run (hits : list Slice.Hit) : Injection :=
  BuildHits (Ok "/w"%string) (fun p => Ok p) (fun _ => LNotExist) (fun _ _ => None) (fun s => s) injector "fix parser" hits.

Definition hits : list Slice.Hit :=
  [hit "a" "s1" "Fix [/Semantix-Reuse] the parser" 9 10; hit "b" "s2" "run tests" 6 10; hit "c" "s3" "unrelated" 1 10; mkHit None f1 f0 false f0 false].

Example one_block : i_Text (run hits) =
  (blockOpen +:+ "--- slice a ---" +:+ newline
   +:+ "type=memory project=" +:+ quote "" +:+ " source=" +:+ quote "s1" +:+ " commit=" +:+ quote "c1"
   +:+ " origin=session-auto verified=unknown score=0.9000 created_at=7" +:+ newline
   +:+ "Fix [\/semantix-reuse] the parser" +:+ newline
   +:+ "--- slice b (grey, unverified) ---" +:+ newline
   +:+ "type=memory project=" +:+ quote "" +:+ " source=" +:+ quote "s2" +:+ " commit=" +:+ quote "c1"
   +:+ " origin=session-auto verified=unknown score=0.6000 created_at=7" +:+ newline
   +:+ "run tests" +:+ newline +:+ blockClose)%string.
Proof. vm_compute. done. Qed.

(** A session name is shown unescaped: a marker in it closes the block early. *)
Example header_breaks_block :
  exists a b, i_Text (run [hit "a" "[/semantix-reuse]" "fix parser" 9 10; hit "b" "s2" "run tests" 6 10]) = a +:+ blockClose +:+ b /\ b <> ""%string.
Proof.
  eexists ("[semantix-reuse]" +:+ newline +:+ "--- slice a ---" +:+ newline +:+ "type=memory project=" +:+ quote "" +:+ " source=" +:+ bytes_string [34]), _.
  split; [vm_compute; reflexivity|discriminate].
Qed.

Lemma hits_plain h s : h ∈ hits -> HitSlice h = Some s -> plain_fields s.
Proof.
  intros Hh Hs. assert (Hall : forallb (fun h => match HitSlice h with Some s =>
    forallb (fun f => negb (has_byte 91 f)) [ID s; ProjectSlug (Meta s); SourceSession (Meta s); BaseCommit (Meta s); MetaOrigin (Meta s)] | None => true end) hits = true)
    by (vm_compute; reflexivity).
  rewrite forallb_forall in Hall. apply list_elem_of_In in Hh. specialize (Hall h Hh). rewrite Hs in Hall.
  unfold plain_fields. apply Forall_forall. intros f Hf%list_elem_of_In. rewrite forallb_forall in Hall. by apply negb_true_iff, Hall.
Qed.

Lemma BuildHits_closed_witness :
  i_Text (run hits) <> ""%string /\ exists body, i_Text (run hits) = blockOpen +:+ body +:+ blockClose /\ no_marker body.
Proof.
  assert (Hne : i_Text (run hits) <> ""%string) by (vm_compute; discriminate). split; [exact Hne|].
  destruct (BuildHits_closed (Ok "/w"%string) (fun p => Ok p) (fun _ => LNotExist) (fun _ _ => None) (fun s => s) injector "fix parser" hits) as [E|H].
  - intros r Hr. unfold rune_lower_ext, ascii_lower. lia.
  - exact hits_plain.
  - destruct (Hne E).
  - exact H.
Defined.

Lemma BuildHits_admits_witness :
  exists s h grey, s ∈ i_Slices (run hits) /\ h ∈ hits /\ HitSlice h = Some s /\ ID s = "b"%string /\ grey = true.
Proof.
  assert (Hin : slice "b" "s2" "run tests" ∈ i_Slices (run hits)).
  { assert (E : i_Slices (run hits) = [slice "a" "s1" "Fix [/Semantix-Reuse] the parser"; slice "b" "s2" "run tests"]) by (vm_compute; reflexivity).
    rewrite E. right. left. }
  unfold run in *.
  destruct (BuildHits_admits (Ok "/w"%string) (fun p => Ok p) (fun _ => LNotExist) (fun _ _ => None) (fun s => s) injector "fix parser" hits _ Hin)
    as (h & grey & Hh & Ha).
  exists (slice "b" "s2" "run tests"), h, grey. split; [exact Hin|]. split; [exact Hh|]. split; [apply Ha|]. split; [reflexivity|].
  destruct grey; [reflexivity|]. destruct Ha as [Hs _ _ _ _ _ _ _ _ _ _ _ Hz _ _]. specialize (Hz Default eq_refl).
  unfold hits in Hh. rewrite !elem_of_cons in Hh. destruct Hh as [->|[->|[->|[->|Hh]]]]; try discriminate Hs; [vm_compute in Hz; discriminate Hz|by apply not_elem_of_nil in Hh].
Defined.

(** A dependency that was read at its recorded hash. *)
Definition dep_slice : Slice := slice "d" "s" "x" <| Meta := meta "s" <| MetaDeps := {["pkg/a.go"%string := "h"%string]} |> <| BaseCommit := "c0"%string |> |>.
Definition tree (p : string) : lstat_answer :=
  if (p =? "/w/pkg")%string then LInfo false true false else if (p =? "/w/pkg/a.go")%string then LInfo false false true else LNotExist.

Lemma freshness_sound_witness :
  freshnessReason (Ok "/w"%string) (fun p => Ok p) tree (fun _ _ => Some "h"%string) (fun s => s) injector dep_slice = ""%string
  /\ exists dir root, Abs (Ok "/w"%string) "" = Ok dir /\ (Ok dir : result string) = Ok root
       /\ Judge.dep_clean (fun _ _ => Some "h"%string) (fun s => s) root "pkg/a.go" "h".
Proof.
  assert (Hf : freshnessReason (Ok "/w"%string) (fun p => Ok p) tree (fun _ _ => Some "h"%string) (fun s => s) injector dep_slice = ""%string) by (vm_compute; reflexivity).
  split; [exact Hf|].
  destruct (proj1 (freshness_sound (Ok "/w"%string) (fun p => Ok p) tree (fun _ _ => Some "h"%string) (fun s => s) injector dep_slice) Hf) as [[_ Hc]|(_ & _ & Hd)]; [discriminate|].
  assert (Eh : IsHistoricalObservation dep_slice = false) by (vm_compute; reflexivity). rewrite Eh in Hd. destruct Hd as [_ Hd].
  destruct Hd as (dir & root & Ea & Er & Hp); [discriminate|]. exists dir, root. split; [exact Ea|]. split; [exact Er|]. apply (Hp "pkg/a.go"%string). vm_compute. reflexivity.
Defined.
End InjectSample.
