(* ===== verification/L3.v ===== *)
(** kernel/cache (cache.go, l3.go, judge_observe.go): the decision whether a
    cached answer may be reused.

    The environment [E] holds whatever the judges remember; [d.Judge] and
    [d.Consensus] act on it, so one judge behind both is shared as in the code.
    The promotion surface is the Go interface [Promote] as a class.  The file
    system, sha256, the index and the clock are parameters. *)

From Stdlib Require Import ZArith Lia Bool Ascii String Floats.SpecFloat.
From stdpp Require Import tactics base option list gmap sets strings.
From S2P Require Import Promote.
From S2P Require Import Judge.
From S2P Require Import Prelude Float64 GoStrings Slice Zone.

#[global] Open Scope Z_scope.

(** ** cache.go *)

Record Freshness := mkFreshness { NowUnix : Z; TTLSeconds : Z }.

Record Query := mkQuery {
  q_SessionID : string;
  q_UserInput : string;
  q_Intent : string;
  q_ContextHash : string;
  q_Scope : Scope;
  q_Model : string;
  q_Freshness : Freshness;
}.

Record L3Result := mkL3Result { r_SliceID : string; r_Response : string; r_CostUSD : f64 }.

(** [Freshness.classify]. *)
Definition classify (f : Freshness) (createdAt : Z) : Zone :=
  if TTLSeconds f <=? 0 then Hit
  else if (NowUnix f <=? 0) || (createdAt <=? 0) || (NowUnix f <? createdAt) then Miss
  else
    let age := NowUnix f -! createdAt in
    if TTLSeconds f <? age then Miss
    else if Z.quot (TTLSeconds f) 2 <? age then Grey
    else Hit.

(** The age policy.  With a policy in force, only a slice whose timestamp is
    known, not in the future and at most the TTL old is anything but a miss, and
    past half the TTL it is never a direct hit. *)
Theorem classify_age f createdAt :
  0 < TTLSeconds f -> in_i64 (TTLSeconds f) -> in_i64 (NowUnix f) ->
  (classify f createdAt <> Miss <-> 0 < createdAt <= NowUnix f /\ NowUnix f - createdAt <= TTLSeconds f)
  /\ (classify f createdAt = Hit <-> 0 < createdAt <= NowUnix f /\ NowUnix f - createdAt <= TTLSeconds f / 2).
Proof.
  unfold classify, in_i64. intros Ht Hr Hn. rewrite (proj2 (Z.leb_gt _ 0)) by done.
  rewrite Z.quot_div_nonneg by lia.
  pose proof (Z.div_le_upper_bound (TTLSeconds f) 2 (TTLSeconds f)).
  pose proof (Z.div_pos (TTLSeconds f) 2).
  destruct (_ || _) eqn:E0.
  { split; (split; [done|]); intros [[??] ?]; rewrite !orb_true_iff, !Z.leb_le, Z.ltb_lt in E0; lia. }
  go_bool. rewrite i64_id by (unfold in_i64; lia).
  destruct (Z.ltb_spec (TTLSeconds f) (NowUnix f - createdAt)); [split; (split; [done|lia])|].
  destruct (Z.ltb_spec (TTLSeconds f / 2) (NowUnix f - createdAt)); (split; split); try done; lia.
Qed.

Example classify_age_witness : classify (mkFreshness 1000 100) 960 = Hit.
Proof.
  apply (classify_age (mkFreshness 1000 100) 960); [reflexivity|split; reflexivity || discriminate..|].
  split; [split; [reflexivity|discriminate]|]. vm_compute. discriminate.
Defined.

(** ** Observations *)

Definition JudgeApproved : string := "approved".
Definition JudgeDeclined : string := "declined".
Definition JudgeFailClosed : string := "fail_closed".
Definition JudgeSkipped : string := "skipped".

Record JudgeObservation := mkJudgeObs {
  jo_SliceID : string;
  jo_RelConfidence : f64;
  jo_Verdict : string;
  jo_Reason : string;
  jo_Called : bool;
  jo_FailClosed : bool;
  jo_Err : string;
  jo_Latency : Z;
  jo_PromptBytes : Z;
}.

Record LexicalGateObservation := mkLexObs {
  lo_SliceID : string;
  lo_Score : f64;
  lo_Lexical : f64;
  lo_Blocked : bool;
  lo_Zone : string;
}.

Definition relConfidence (score top1 : f64) : f64 :=
  if (top1 <=? f0)%f64 then f0 else (score / top1)%f64.

Record Obs := mkObs {
  o_Candidates : Z;
  o_Grey : Z;
  o_RulesReject : Z;
  o_FingerprintReject : Z;
  o_IsolatedReject : Z;
  o_JudgeReject : Z;
  o_JudgeError : Z;
  o_JudgeApproved : Z;
  o_Reused : Z;
  o_PromoteHit : Z;
  o_PromoteWritten : Z;
  o_PromoteRejected : Z;
  o_PromoteBlacklisted : Z;
}.
Definition zero_obs : Obs := mkObs 0 0 0 0 0 0 0 0 0 0 0 0 0.
#[export] Instance Obs_eta : Eta Obs := fun r =>
  mkObs (o_Candidates r) (o_Grey r) (o_RulesReject r) (o_FingerprintReject r) (o_IsolatedReject r)
    (o_JudgeReject r) (o_JudgeError r) (o_JudgeApproved r) (o_Reused r) (o_PromoteHit r)
    (o_PromoteWritten r) (o_PromoteRejected r) (o_PromoteBlacklisted r).

(** [ObsAccum.add]. *)
Definition obs_add (a o : Obs) : Obs :=
  mkObs (o_Candidates a + o_Candidates o) (o_Grey a + o_Grey o) (o_RulesReject a + o_RulesReject o)
    (o_FingerprintReject a + o_FingerprintReject o) (o_IsolatedReject a + o_IsolatedReject o)
    (o_JudgeReject a + o_JudgeReject o) (o_JudgeError a + o_JudgeError o)
    (o_JudgeApproved a + o_JudgeApproved o) (o_Reused a + o_Reused o) (o_PromoteHit a + o_PromoteHit o)
    (o_PromoteWritten a + o_PromoteWritten o) (o_PromoteRejected a + o_PromoteRejected o)
    (o_PromoteBlacklisted a + o_PromoteBlacklisted o).

(** ** The promotion surface *)

Class Promote (P : Type) := {
  Lookup : string -> string -> string -> Z -> P -> bool * P;
  Promote_ : Promote.Entry -> st P unit;
  Rejected : string -> string -> string -> Z -> P -> P;
}.

(** [promote.Decision] is one. *)
#[export] Instance Decision_Promote {S R} `{Promote.Store S, Promote.RejectionStore R} (ttl limit : Z) :
    Promote (Promote.Decision (S := S) (R := R)) := {
  Lookup := Promote.Lookup ttl;
  Promote_ := Promote.Promote ttl limit;
  Rejected := Promote.Rejected;
}.

(** ** The decider *)

Definition minGreyWidth : f64 := f_of_ratio 5 100.

(** The configuration of an [L3Decider]; [None] is a nil field. *)
Record L3Config (E : Type) := mkConfig {
  d_Root : string;
  d_Zones : option Zones;
  d_HasJudge : bool;
  d_K : Z;
  d_OnJudge : bool;
  d_LexicalFloor : option f64;
  d_OnLexicalGate : bool;
  d_MinOrigin : Origin;
  d_Adapt : option (string -> f64 -> f64);
  (** nil, or a judge and its second method if it has one *)
  d_Consensus : option (option (Judge.Candidate -> st E bool));
}.
Arguments mkConfig {E}.
Arguments d_Root {E}. Arguments d_Zones {E}. Arguments d_HasJudge {E}. Arguments d_K {E}.
Arguments d_OnJudge {E}. Arguments d_LexicalFloor {E}. Arguments d_OnLexicalGate {E}.
Arguments d_MinOrigin {E}. Arguments d_Adapt {E}. Arguments d_Consensus {E}.

Section Decider.
Context {E P : Type} `{Judge.Judge E} `{Promote P}.
(** [read root p], [lstat root p] (symlink?, mtime), sha256, the index, the
    clock and the judge's latency while a slice is judged. *)
Context (read : string -> string -> option string) (lstat : string -> string -> option (bool * Z))
  (sha : string -> string) (Search : string -> Z -> Scope -> result (list Slice.Hit))
  (now latency : Slice -> Z).
Context (d : L3Config E).

Record World := mkWorld {
  w_env : E;
  w_promote : option P;
  w_judged : list JudgeObservation;
  w_lexical : list LexicalGateObservation;
  w_accum : option Obs;
  w_decided : list Obs;
}.
#[export] Instance World_eta : Eta World := fun r =>
  mkWorld (w_env r) (w_promote r) (w_judged r) (w_lexical r) (w_accum r) (w_decided r).

Definition zones : Zones := default Default (d_Zones d).
Definition k : Z := if 0 <? d_K d then d_K d else 3.
Definition lexicalFloor : f64 := default (f_of_ratio 5 100) (d_LexicalFloor d).
Definition lexicalSupported (h : Slice.Hit) : bool :=
  if negb (LexicalValid h) then true else (Lexical h >=? lexicalFloor)%f64.

Definition observeLexicalGate (s : Slice) (h : Slice.Hit) (blocked : bool) (w : World) : World :=
  if d_OnLexicalGate d then
    w <| w_lexical ::= fun l => l ++ [mkLexObs (ID s) (Score h) (Lexical h) blocked
                                        (if blocked then "grey" else "hit")] |>
  else w.

Definition observe (o : Obs) (w : World) : World :=
  w <| w_decided ::= fun l => l ++ [o] |> <| w_accum ::= fmap (fun a => obs_add a o) |>.

Definition DecideL2 (q : Query) : result (list Slice.Hit) :=
  match Search (q_UserInput q) k (q_Scope q) with
  | Err e => Err e
  | Ok hits =>
      let top1 := match hits with h :: _ => Score h | [] => f0 end in
      Ok (List.filter (fun h =>
            let z := match HitSlice h with Some s => ForType (type_string (SType s)) zones | None => zones end in
            bool_decide (ClassifyHit z h top1 = Hit)) hits)
  end.

(** One dependency: local, not a symlink, and at its captured mtime. *)
Definition dep_guard (mtimes : gmap string Z) (p : string) : bool :=
  Judge.IsLocal p &&
  match lstat (d_Root d) p with
  | None => false
  | Some (symlink, mtime) =>
      negb symlink && match mtimes !! p with Some want => mtime =? want | None => true end
  end.

Definition verified (s : Slice) : bool :=
  let deps := MetaDeps (Meta s) in
  let mtimes := Mtimes (Meta s) in
  if decide (deps = ∅) then L3Safe (Meta s) else
  forallb (fun kv => bool_decide (is_Some (deps !! kv.1))) (map_to_list mtimes)
  && forallb (fun kv => dep_guard mtimes kv.1) (map_to_list deps)
  && match Judge.Verify read sha (d_Root d) deps with Ok [] => true | _ => false end.

Definition candidate (q : Query) (s : Slice) : Judge.Candidate :=
  Judge.mkCandidate (q_UserInput q) (ID s) (Content s) (SScope s) (SType s) Grey
    (MetaDeps (Meta s)) (d_Root d).

(** Was the judge reached by this chain? *)
Definition reached (c : Judge.Candidate) : bool :=
  if decide (Judge.c_Deps c = ∅) then true
  else match Judge.Verify read sha (Judge.c_RootDir c) (Judge.c_Deps c) with Ok [] => true | _ => false end.

(** After a chain: promotion, or a lesson. *)
Definition settle (q : Query) (s : Slice) (ok declined : bool) (o : Obs) (w : World) : Obs * World :=
  match w_promote w with
  | None => (o, w)
  | Some p =>
      if ok then
        let '(r, env) :=
          match d_Consensus d with
          | None => (Ok true, w_env w)
          | Some None => (Ok false, w_env w)
          | Some (Some f) => f (candidate q s) (w_env w)
          end in
        let w := w <| w_env := env |> in
        match r with
        | Err _ => (o <| o_JudgeError ::= Z.succ |>, w)
        | Ok false => (o <| o_PromoteRejected ::= Z.succ |>,
                       w <| w_promote := Some (Rejected (ID s) (q_UserInput q) "consensus_failed" (now s) p) |>)
        | Ok true =>
            let '(r, p) := Promote_ (Promote.mkEntry (ID s) (sha (Content s)) (q_UserInput q) (now s)) p in
            let w := w <| w_promote := Some p |> in
            match r with
            | Err e => (if (e =? Promote.ErrBlacklisted)%string then o <| o_PromoteBlacklisted ::= Z.succ |> else o, w)
            | Ok _ => (o <| o_PromoteWritten ::= Z.succ |>, w)
            end
        end
      else if declined then
        (o, w <| w_promote := Some (Rejected (ID s) (q_UserInput q) "judge_declined" (now s) p) |>)
      else (o, w)
  end.

Definition judge_observation (q : Query) (s : Slice) (rel : f64) (ok called : bool) (reason : string)
    (err : option string) : JudgeObservation :=
  let lat := if called then latency s else 0 in
  let bytes := slen (q_UserInput q) + slen (Content s) in
  match err with
  | Some e => mkJudgeObs (ID s) rel JudgeFailClosed reason called true e lat bytes
  | None => mkJudgeObs (ID s) rel
              (if negb called then JudgeSkipped else if ok then JudgeApproved else JudgeDeclined)
              reason called false "" lat bytes
  end.

Definition judgeGrey (q : Query) (s : Slice) (rel : f64) (o : Obs) (w : World) : bool * Obs * World :=
  let o := o <| o_Grey ::= Z.succ |> in
  if negb (d_HasJudge d) then (false, o <| o_RulesReject ::= Z.succ |>, w) else
  let '(promoted, w) :=
    match w_promote w with
    | None => (false, w)
    | Some p => let '(b, p) := Lookup (ID s) (q_UserInput q) (sha (Content s)) (now s) p in
                (b, w <| w_promote := Some p |>)
    end in
  if promoted then (true, o <| o_PromoteHit ::= Z.succ |>, w) else
  let '((v, reason, err), g) :=
    Judge.Chain read sha (candidate q s) (Judge.mkGate (Some (w_env w)) Judge.zero_stats) in
  let w := w <| w_env := default (w_env w) (Judge.g_Judge g) |> in
  let gs := Judge.g_Stats g in
  let o := o <| o_RulesReject ::= Z.add (Judge.RulesReject gs) |>
             <| o_FingerprintReject ::= Z.add (Judge.Fingerprint gs) |>
             <| o_JudgeReject ::= Z.add (Judge.JudgeReject gs) |>
             <| o_JudgeError ::= Z.add (Judge.JudgeError gs) |>
             <| o_JudgeApproved ::= Z.add (Judge.JudgeApproved gs) |> in
  let ok := match err, v with None, Judge.Confirm_ => true | _, _ => false end in
  let '(o, w) := settle q s ok (0 <? Judge.JudgeReject gs) o w in
  let w := if d_OnJudge d then
             w <| w_judged ::= fun l => l ++ [judge_observation q s rel ok (reached (candidate q s)) reason err] |>
           else w in
  (ok, o, w).

(** The thresholds of one candidate: its type's, with the learned low
    threshold clamped below the high one. *)
Definition entry_zones (s : Slice) : Zones :=
  let tz := ForType (type_string (SType s)) zones in
  match d_Adapt d with
  | None => tz
  | Some adapt =>
      let prior := TauLow tz in
      let learned := adapt (ID s) prior in
      let cap := (TauHigh tz - minGreyWidth)%f64 in
      let cap := if (cap <? prior)%f64 then prior else cap in
      tz <| TauLow := if (learned >? cap)%f64 then cap else learned |>
  end.

(** Relevance, made more conservative by age. *)
Definition verdict (q : Query) (s : Slice) (h : Slice.Hit) (resultTop1 globalTop1 : f64) : Zone :=
  let v := ClassifyL3 (entry_zones s) (Score h) resultTop1 globalTop1 in
  let fresh := classify (q_Freshness q) (CreatedAt s) in
  if zone_less fresh v then fresh else v.

(** May this candidate pass the relevance gates? *)
Definition admission (q : Query) (s : Slice) (h : Slice.Hit) (resultTop1 globalTop1 : f64) (o : Obs) (w : World) :
    bool * Obs * World :=
  let ask := judgeGrey q s (relConfidence (Score h) resultTop1) o in
  match verdict q s h resultTop1 globalTop1 with
  | Hit =>
      if Level (MetaOrigin (Meta s)) <? Level (d_MinOrigin d) then ask w
      else if negb (lexicalSupported h) then ask (observeLexicalGate s h true w)
      else (true, o, observeLexicalGate s h false w)
  | Grey => ask w
  | Miss => (false, o <| o_RulesReject ::= Z.succ |>, w)
  end.

Definition isolated (q : Query) (s : Slice) : bool :=
  (negb (q_ContextHash q =? "")%string && negb (ContextHash (Meta s) =? q_ContextHash q)%string)
  || (negb (q_Model q =? "")%string && negb (MetaModel (Meta s) =? q_Model q)%string).

Definition consider (q : Query) (s : Slice) (h : Slice.Hit) (resultTop1 globalTop1 : f64) (o : Obs) (w : World) :
    option L3Result * Obs * World :=
  let '(pass, o, w) := admission q s h resultTop1 globalTop1 o w in
  if negb pass then (None, o, w)
  else if isolated q s then (None, o <| o_IsolatedReject ::= Z.succ |>, w)
  else if negb (verified s) then (None, o <| o_FingerprintReject ::= Z.succ |>, w)
  else (Some (mkL3Result (ID s) (Content s) f0), o <| o_Reused ::= Z.succ |>, w).

Fixpoint first_reusable (q : Query) (resultTop1 globalTop1 : f64) (cands : list (Slice * Slice.Hit))
    (o : Obs) (w : World) : option L3Result * Obs * World :=
  match cands with
  | [] => (None, o, w)
  | (s, h) :: rest =>
      match consider q s h resultTop1 globalTop1 o w with
      | (Some r, o, w) => (Some r, o, w)
      | (None, o, w) => first_reusable q resultTop1 globalTop1 rest o w
      end
  end.

(** The Result candidates, with their slices. *)
Definition result_candidates (hits : list Slice.Hit) : list (Slice * Slice.Hit) :=
  omap (fun h => s ← HitSlice h; if decide (SType s = Result) then Some (s, h) else None) hits.

Definition fmax_scores (init : f64) (hits : list Slice.Hit) : f64 :=
  foldl (fun m h => if (Score h >? m)%f64 then Score h else m) init hits.

Definition DecideL3 (q : Query) (w : World) : result (option L3Result) * World :=
  match Search (q_UserInput q) k (q_Scope q) with
  | Err e => (Err e, w)
  | Ok hits =>
      match hits with
      | [] => (Ok None, observe zero_obs w)
      | first :: _ =>
          let globalTop1 := fmax_scores (Score first) hits in
          let cands := result_candidates hits in
          let resultTop1 := fmax_scores f0 (map snd cands) in
          let o := zero_obs <| o_Candidates := Z.of_nat (length cands) |> in
          let '(r, o, w) := first_reusable q resultTop1 globalTop1 cands o w in
          (Ok r, observe o w)
      end
  end.

(** ** What a reuse guarantees *)

(** The judge step in the world [w]: its promotion store answers yes for the
    slice's version, or its judge approves over clean dependencies. *)
Definition judge_approved (q : Query) (s : Slice) (w : World) : Prop :=
  d_HasJudge d = true
  /\ ((exists p, w_promote w = Some p /\ (Lookup (ID s) (q_UserInput q) (sha (Content s)) (now s) p).1 = true)
      \/ (Judge.deps_clean read sha (d_Root d) (MetaDeps (Meta s))
          /\ exists e', Judge.Confirm (candidate q s) (w_env w) = (Ok true, e'))).

Lemma judgeGrey_approved q s rel o w :
  (judgeGrey q s rel o w).1.1 = true -> judge_approved q s w.
Proof.
  unfold judgeGrey, judge_approved. destruct (d_HasJudge d); simpl; [|done]. intros Hg. split; [done|].
  revert Hg. set (look := match w_promote w with Some _ => _ | None => _ end).
  assert (Hlook : w_env look.2 = w_env w /\ (look.1 = true -> exists p, w_promote w = Some p
    /\ (Lookup (ID s) (q_UserInput q) (sha (Content s)) (now s) p).1 = true)).
  { unfold look. destruct (w_promote w) as [p|]; [|done]. split; [by destruct (Lookup _ _ _ _ p)|].
    intros Hp. exists p. split; [done|]. by destruct (Lookup _ _ _ _ p). }
  destruct look as [promoted w1]. simpl in Hlook. destruct Hlook as [Henv Hlook]. rewrite <- Henv.
  destruct promoted; simpl in *; [by left; auto|]. clear Hlook.
  pose proof (Judge.Chain_cases read sha (candidate q s) (Judge.mkGate (Some (w_env w1)) Judge.zero_stats)) as Hc.
  destruct (Judge.Chain _ _ _ _) as [[[v reason] err] g]. simpl in Hc.
  destruct (settle _ _ _ _ _ _) as [o1 w2]. simpl. intros Hok. right.
  destruct Hc as [(-> & -> & Hclean & [Hz|(_ & j & j' & Hj & Hconf)])|Hr]; [done| |].
  - simplify_eq. eauto.
  - rewrite Hr in Hok. by destruct err.
Qed.

(** What [verified] establishes. *)
Definition deps_verified (s : Slice) : Prop :=
  (MetaDeps (Meta s) = ∅ /\ L3Safe (Meta s) = true)
  \/ (MetaDeps (Meta s) <> ∅
      /\ (forall p, is_Some (Mtimes (Meta s) !! p) -> is_Some (MetaDeps (Meta s) !! p))
      /\ forall p want, MetaDeps (Meta s) !! p = Some want ->
           Judge.dep_clean read sha (d_Root d) p want
           /\ exists mtime, lstat (d_Root d) p = Some (false, mtime)
                /\ forall m, Mtimes (Meta s) !! p = Some m -> mtime = m).

Lemma verified_spec s : verified s = true -> deps_verified s.
Proof.
  unfold verified, deps_verified. destruct (decide (MetaDeps (Meta s) = ∅)) as [Hd|Hd]; [by left|].
  intros Hv. right. apply andb_true_iff in Hv as [[Hmt Hdep]%andb_true_iff Hver].
  rewrite forallb_forall in Hmt, Hdep. split_and!; [done| |].
  - intros p [m Hm]. specialize (Hmt (p, m)). apply bool_decide_eq_true_1 in Hmt; [done|].
    by rewrite <- list_elem_of_In, elem_of_map_to_list.
  - intros p want Hp. destruct (Judge.Verify _ _ _ _) as [[|]|] eqn:Ev; try done.
    split; [by apply (proj1 (Judge.Verify_clean read sha _ _) Ev)|].
    specialize (Hdep (p, want)). rewrite <- list_elem_of_In, elem_of_map_to_list in Hdep.
    specialize (Hdep Hp). unfold dep_guard in Hdep. simpl in Hdep.
    apply andb_true_iff in Hdep as [_ Hdep].
    destruct (lstat (d_Root d) p) as [[sym mt]|]; [|done].
    apply andb_true_iff in Hdep as [Hsym Hdep]. apply negb_true_iff in Hsym as ->. exists mt.
    split; [done|]. intros m Hm. rewrite Hm in Hdep. by apply Z.eqb_eq in Hdep.
Qed.

(** Everything a served answer went through. *)
Record reusable (q : Query) (s : Slice) (h : Slice.Hit) (rt gt : f64) (w : World) : Prop := {
  ru_relevant : (Score h / gt >=? AbsLow (entry_zones s))%f64 = true
                /\ positive (Score h) /\ positive rt /\ positive gt;
  ru_fresh : classify (q_Freshness q) (CreatedAt s) <> Miss;
  ru_judged : verdict q s h rt gt = Grey \/ Level (MetaOrigin (Meta s)) < Level (d_MinOrigin d)
              \/ lexicalSupported h = false -> judge_approved q s w;
  ru_context : q_ContextHash q <> ""%string -> ContextHash (Meta s) = q_ContextHash q;
  ru_model : q_Model q <> ""%string -> MetaModel (Meta s) = q_Model q;
  ru_verified : deps_verified s;
}.

Lemma verdict_miss q s h rt gt :
  verdict q s h rt gt <> Miss ->
  ClassifyL3 (entry_zones s) (Score h) rt gt <> Miss /\ classify (q_Freshness q) (CreatedAt s) <> Miss.
Proof.
  unfold verdict. destruct (ClassifyL3 _ _ _ _), (classify _ _); simpl; intuition congruence.
Qed.

Lemma admission_spec q s h rt gt o w :
  (admission q s h rt gt o w).1.1 = true ->
  verdict q s h rt gt <> Miss
  /\ (verdict q s h rt gt = Grey \/ Level (MetaOrigin (Meta s)) < Level (d_MinOrigin d)
      \/ lexicalSupported h = false -> judge_approved q s w).
Proof.
  assert (Hgate : forall b, judge_approved q s (observeLexicalGate s h b w) -> judge_approved q s w)
    by (intros b; unfold observeLexicalGate; by destruct (d_OnLexicalGate d)).
  unfold admission. destruct (verdict q s h rt gt); [done| |].
  - intros Hj%judgeGrey_approved. done.
  - destruct (Z.ltb_spec (Level (MetaOrigin (Meta s))) (Level (d_MinOrigin d))).
    { intros Hj%judgeGrey_approved. done. }
    destruct (lexicalSupported h); simpl.
    + intros _. split; [done|]. intros [?|[?|?]]; [done|lia|done].
    + intros Hj%judgeGrey_approved%Hgate. done.
Qed.

Lemma isolated_spec q s : isolated q s = false ->
  (q_ContextHash q <> ""%string -> ContextHash (Meta s) = q_ContextHash q)
  /\ (q_Model q <> ""%string -> MetaModel (Meta s) = q_Model q).
Proof.
  unfold isolated. intros Hi. go_bool.
  rewrite !andb_false_iff, !negb_false_iff, !String.eqb_eq in *. tauto.
Qed.

Lemma consider_spec q s h rt gt o w r :
  (consider q s h rt gt o w).1.1 = Some r ->
  reusable q s h rt gt w /\ r = mkL3Result (ID s) (Content s) f0.
Proof.
  unfold consider. destruct (admission q s h rt gt o w) as [[pass o1] w1] eqn:Ea.
  destruct pass; simpl; [|done]. destruct (isolated q s) eqn:Ei; simpl; [done|].
  destruct (verified s) eqn:Ev; simpl; [|done]. intros [= <-]. split; [|done].
  destruct (admission_spec q s h rt gt o w) as [Hm Hj]; [by rewrite Ea|].
  apply verdict_miss in Hm as [Hc Hf]. apply ClassifyL3_inv in Hc as (? & ? & ? & _ & ? & _).
  apply isolated_spec in Ei as [? ?]. split; auto. by apply verified_spec.
Qed.

(** The candidates before the served one were all refused; [w1] is the world
    they leave. *)
Lemma first_reusable_spec q rt gt cands o w r :
  (first_reusable q rt gt cands o w).1.1 = Some r ->
  exists pre s h post o1 w1,
    cands = pre ++ (s, h) :: post /\ first_reusable q rt gt pre o w = (None, o1, w1)
    /\ reusable q s h rt gt w1 /\ r = mkL3Result (ID s) (Content s) f0.
Proof.
  revert o w. induction cands as [|[s h] cands IH]; intros o w; simpl; [done|].
  destruct (consider q s h rt gt o w) as [[[r'|] o1] w1] eqn:Ec; simpl.
  - intros [= ->]. destruct (consider_spec q s h rt gt o w r) as [Hr ->]; [by rewrite Ec|].
    by exists [], s, h, cands, o, w.
  - intros (pre & s' & h' & post & o2 & w2 & -> & Hpre & Hr)%IH.
    exists ((s, h) :: pre), s', h', post, o2, w2. split_and!; [done| |apply Hr..]. simpl. by rewrite Ec.
Qed.

Lemma elem_of_candidates hits s h :
  (s, h) ∈ result_candidates hits <-> h ∈ hits /\ HitSlice h = Some s /\ SType s = Result.
Proof.
  unfold result_candidates. rewrite list_elem_of_omap. split.
  - intros (x & Hx & He). destruct (HitSlice x) as [s'|] eqn:Es; simpl in He; [|done].
    destruct (decide _); [|done]. by simplify_eq.
  - intros (Hh & Hs & Ht). exists h. split; [done|]. rewrite Hs. simpl. by rewrite decide_True.
Qed.

(** The scale of the two axes: the best score of all hits and of the Result
    candidates. *)
Definition global_top (hits : list Slice.Hit) : f64 :=
  match hits with first :: _ => fmax_scores (Score first) hits | [] => f0 end.
Definition result_top (hits : list Slice.Hit) : f64 := fmax_scores f0 (map snd (result_candidates hits)).

Lemma DecideL3_served q w r :
  (DecideL3 q w).1 = Ok (Some r) ->
  exists hits pre s h post o1 w1,
    Search (q_UserInput q) k (q_Scope q) = Ok hits /\ h ∈ hits
    /\ HitSlice h = Some s /\ SType s = Result
    /\ result_candidates hits = pre ++ (s, h) :: post
    /\ first_reusable q (result_top hits) (global_top hits) pre
         (zero_obs <| o_Candidates := Z.of_nat (length (result_candidates hits)) |>) w = (None, o1, w1)
    /\ r = mkL3Result (ID s) (Content s) f0 /\ reusable q s h (result_top hits) (global_top hits) w1.
Proof.
  unfold DecideL3. destruct (Search _ _ _) as [hits|e] eqn:Es; [|done].
  destruct hits as [|h0 hits]; [done|].
  fold (result_top (h0 :: hits)). change (fmax_scores (Score h0) (h0 :: hits)) with (global_top (h0 :: hits)).
  set (cands := result_candidates (h0 :: hits)).
  destruct (first_reusable _ _ _ _ _ _) as [[r' o] w1] eqn:Ef. simpl. intros [= ->].
  destruct (first_reusable_spec q _ _ cands _ _ r (f_equal (fun x => x.1.1) Ef))
    as (pre & s & h & post & o2 & w2 & Hc & Hpre & Hr & ->).
  exists (h0 :: hits), pre, s, h, post, o2, w2.
  destruct (elem_of_candidates (h0 :: hits) s h) as [(? & ? & ?) _]; [|done].
  fold cands. rewrite Hc. set_solver.
Qed.

(** C4: a cached answer is never served on doubt.  Whatever the index, the
    judges, the promotion store and the file system answer, a result is the
    content of the first retrieved Result slice not refused; it is relevant
    against the best scores, not older than the age policy allows, from the
    query's context and model, with every captured dependency local, unlinked,
    at its captured mtime and digest (or explicitly marked safe); and a grey,
    low-provenance or lexically unsupported candidate was, at that point of the
    run, promoted or approved by the judge. *)
Theorem DecideL3_fail_closed q w r :
  (DecideL3 q w).1 = Ok (Some r) ->
  exists hits pre s h post o1 w1,
    Search (q_UserInput q) k (q_Scope q) = Ok hits /\ h ∈ hits
    /\ HitSlice h = Some s /\ SType s = Result
    /\ result_candidates hits = pre ++ (s, h) :: post
    /\ first_reusable q (result_top hits) (global_top hits) pre
         (zero_obs <| o_Candidates := Z.of_nat (length (result_candidates hits)) |>) w = (None, o1, w1)
    /\ r = mkL3Result (ID s) (Content s) f0 /\ reusable q s h (result_top hits) (global_top hits) w1.
Proof. apply DecideL3_served. Qed.

(** ** Observability *)

Definition rejects (o : Obs) : Z :=
  o_RulesReject o + o_FingerprintReject o + o_IsolatedReject o + o_JudgeReject o + o_JudgeError o.

(** [o'] counts at least [n] more rejections than [o] and nothing else that
    the accounting below reads. *)
Definition counted (n : Z) (o o' : Obs) : Prop :=
  rejects o + n <= rejects o' /\ o_Reused o' = o_Reused o /\ o_Candidates o' = o_Candidates o.

Lemma counted_trans n m o1 o2 o3 : counted n o1 o2 -> counted m o2 o3 -> counted (n + m) o1 o3.
Proof. unfold counted. intuition lia. Qed.

Lemma settle_counted q s ok declined o w :
  counted 0 o (settle q s ok declined o w).1.
Proof.
  unfold settle, counted, rejects. destruct (w_promote w) as [p|]; simpl; [|lia].
  destruct ok; [|destruct declined; simpl; lia].
  repeat (case_match; simplify_eq/=); lia.
Qed.

Lemma judgeGrey_counted q s rel o w :
  counted (if (judgeGrey q s rel o w).1.1 then 0 else 1) o (judgeGrey q s rel o w).1.2.
Proof.
  unfold judgeGrey. destruct (d_HasJudge d); simpl; [|unfold counted, rejects; simpl; lia].
  set (look := match w_promote w with Some _ => _ | None => _ end). destruct look as [[] w1].
  { unfold counted, rejects. simpl. lia. }
  destruct (Judge.Chain_counts read sha (candidate q s) (Judge.mkGate (Some (w_env w1)) Judge.zero_stats))
    as [Hc Hn].
  destruct (Judge.Chain _ _ _ _) as [[[v reason] err] g]. simpl in Hc, Hn.
  match goal with |- context [settle q s ?ok ?decl ?o1 ?w2] =>
    pose proof (settle_counted q s ok decl o1 w2) as Hs; destruct (settle q s ok decl o1 w2) as [o2 w3]
  end.
  simpl in *. change (Judge.rejections Judge.zero_stats) with 0 in Hc.
  unfold counted, rejects, Judge.rejections in *. simpl in *.
  destruct v; [destruct err|rewrite Hn by done|destruct err]; lia.
Qed.

Lemma consider_counted q s h rt gt o w :
  let out := consider q s h rt gt o w in
  match out.1.1 with
  | Some _ => o_Reused out.1.2 = o_Reused o + 1 /\ o_Candidates out.1.2 = o_Candidates o
  | None => counted 1 o out.1.2
  end.
Proof.
  unfold consider.
  assert (Ha : counted (if (admission q s h rt gt o w).1.1 then 0 else 1) o (admission q s h rt gt o w).1.2).
  { unfold admission. destruct (verdict q s h rt gt); [unfold counted, rejects; simpl; lia|apply judgeGrey_counted|].
    destruct (_ <? _); [apply judgeGrey_counted|]. destruct (lexicalSupported h); simpl; [|apply judgeGrey_counted].
    unfold counted. lia. }
  destruct (admission q s h rt gt o w) as [[pass o1] w1]. simpl in Ha.
  destruct pass; simpl; [|done]. unfold counted, rejects in *.
  destruct (isolated q s); simpl; [lia|]. destruct (verified s); simpl; lia.
Qed.

Lemma first_reusable_counted q rt gt cands o w :
  let out := first_reusable q rt gt cands o w in
  o_Candidates out.1.2 = o_Candidates o
  /\ match out.1.1 with
     | Some _ => o_Reused out.1.2 = o_Reused o + 1
     | None => o_Reused out.1.2 = o_Reused o /\ rejects o + Z.of_nat (length cands) <= rejects out.1.2
     end.
Proof.
  revert o w. induction cands as [|[s h] cands IH]; intros o w; simpl; [split; [done|split; [done|lia]]|].
  pose proof (consider_counted q s h rt gt o w) as Hc.
  destruct (consider q s h rt gt o w) as [[[r|] o1] w1]; simpl in *; [by destruct Hc|].
  destruct Hc as (Hr & Hu & Hk). specialize (IH o1 w1). simpl in IH. destruct IH as [Hk' Hm].
  split; [congruence|]. destruct (first_reusable _ _ _ _ o1 w1) as [[[r|] o2] w2]; simpl in *; [lia|].
  destruct Hm as [? ?]. split; [congruence|lia].
Qed.

Lemma first_reusable_decided q rt gt cands o w :
  w_decided (first_reusable q rt gt cands o w).2 = w_decided w.
Proof.
  assert (Hsettle : forall q s ok declined o w, w_decided (settle q s ok declined o w).2 = w_decided w).
  { intros. unfold settle. repeat (case_match; simplify_eq/=); done. }
  assert (Hgrey : forall q s rel o w, w_decided (judgeGrey q s rel o w).2 = w_decided w).
  { intros. unfold judgeGrey. destruct (negb _); [done|].
    set (look := match w_promote w0 with Some _ => _ | None => _ end).
    assert (Hl : w_decided look.2 = w_decided w0).
    { unfold look. destruct (w_promote w0); [|done]. by destruct (Lookup _ _ _ _ _). }
    destruct look as [[] w1]; [done|]. destruct (Judge.Chain _ _ _ _) as [[[v reason] err] g].
    match goal with |- context [settle q0 s ?ok ?decl ?o1 ?w2] =>
      pose proof (Hsettle q0 s ok decl o1 w2) as Hx; destruct (settle q0 s ok decl o1 w2) as [o2 w3]
    end. simpl in *. destruct (d_OnJudge d); simpl; congruence. }
  assert (Hlex : forall s h b w, w_decided (observeLexicalGate s h b w) = w_decided w).
  { intros. unfold observeLexicalGate. by destruct (d_OnLexicalGate d). }
  revert o w. induction cands as [|[s h] cands IH]; intros o w; simpl; [done|].
  assert (Hc : w_decided (consider q s h rt gt o w).2 = w_decided w).
  { unfold consider, admission. destruct (verdict q s h rt gt); simpl.
    - done.
    - pose proof (Hgrey q s (relConfidence (Score h) rt) o w) as Hg.
      destruct (judgeGrey _ _ _ _ _) as [[[] o1] w1]; simpl in *; [|done].
      repeat case_match; done.
    - destruct (_ <? _).
      + pose proof (Hgrey q s (relConfidence (Score h) rt) o w) as Hg.
        destruct (judgeGrey _ _ _ _ _) as [[[] o1] w1]; simpl in *; [|done]. repeat case_match; done.
      + destruct (lexicalSupported h); simpl.
        * destruct (isolated q s); simpl; [|destruct (verified s); simpl]; apply Hlex.
        * pose proof (Hgrey q s (relConfidence (Score h) rt) o (observeLexicalGate s h true w)) as Hg.
          rewrite Hlex in Hg.
          destruct (judgeGrey _ _ _ _ _) as [[[] o1] w1]; simpl in *; [|done]. repeat case_match; done. }
  destruct (consider q s h rt gt o w) as [[[r|] o1] w1]; simpl in *; [done|]. by rewrite IH.
Qed.

(** nothing is dropped silently.  Each decision whose retrieval worked emits
    one record: it counts every Result candidate retrieved, marks a reuse
    exactly when one is served, and otherwise holds at least one rejection per
    candidate. *)
Theorem DecideL3_accounted q w hits :
  Search (q_UserInput q) k (q_Scope q) = Ok hits ->
  exists o, w_decided (DecideL3 q w).2 = w_decided w ++ [o]
    /\ o_Candidates o = Z.of_nat (length (result_candidates hits))
    /\ match (DecideL3 q w).1 with
       | Ok (Some _) => o_Reused o = 1
       | Ok None => o_Reused o = 0 /\ o_Candidates o <= rejects o
       | Err _ => False
       end.
Proof.
  intros Hs. unfold DecideL3. rewrite Hs. destruct hits as [|h0 hits]; [by exists zero_obs|].
  set (cands := result_candidates (h0 :: hits)). set (rt := fmax_scores f0 _). set (gt := fmax_scores _ _).
  set (o0 := zero_obs <| o_Candidates := _ |>).
  pose proof (first_reusable_counted q rt gt cands o0 w) as Hc.
  pose proof (first_reusable_decided q rt gt cands o0 w) as Hd.
  destruct (first_reusable q rt gt cands o0 w) as [[r o] w1]. simpl in *. exists o.
  destruct Hc as [Hk Hm]. rewrite Hd. split_and!; [done|done|].
  destruct r; [done|]. destruct Hm as [? Hr]. split; [done|]. unfold rejects in *. simpl in *. lia.
Qed.
End Decider.

(** ** A concrete decision *)

Module Sample.
Definition store : Type :=
  Promote.Decision (S := Promote.Mem.MemStore) (R := Promote.MemRejections.MemRejectionStore).
#[global] Instance store_Promote : Promote store := Decision_Promote 86400 3.
Definition answer : Slice :=
  mkSlice "r1" Result Project "42" None zero_stats f1
    (zero_meta <| MetaOrigin := OriginSessionAuto |> <| MetaDeps := {["go.mod"%string := "module m"%string]} |>
       <| Mtimes := {["go.mod"%string := 500]} |> <| ContextHash := "c"%string |>) 900.
Definition hit (s : Slice) (score : f64) : Slice.Hit := mkHit (Some s) score f0 false f0 false.
Definition hits : list Slice.Hit := [hit (answer <| SType := Prompt |>) (f_of_int 5); hit answer (f_of_int 4)].
Definition search (_ : string) (_ : Z) (_ : Scope) : result (list Slice.Hit) := Ok hits.
Definition lstat (_ p : string) : option (bool * Z) := if (p =? "go.mod")%string then Some (false, 500) else None.
Definition config : L3Config Judge.Sample.counting :=
  mkConfig "/root" None true 0 true None true OriginImport None None.
Definition query : Query := mkQuery "s" "what?" "" "c" Project "" (mkFreshness 1000 150).
Definition world : World (E := Judge.Sample.counting) (P := store) := mkWorld 0 None [] [] (Some zero_obs) [].
Definition decide_now := DecideL3 (E := Judge.Sample.counting) (P := store)
  Judge.Sample.read lstat Judge.Sample.sha search (fun _ => 1000) (fun _ => 5) config query world.
End Sample.

Lemma DecideL3_fail_closed_witness :
  exists hits pre s h post o1 w1,
    Sample.search "what?" 3 Project = Ok hits /\ h ∈ hits
    /\ HitSlice h = Some s /\ SType s = Result
    /\ result_candidates hits = pre ++ (s, h) :: post
    /\ first_reusable (E := Judge.Sample.counting) (P := Sample.store)
         Judge.Sample.read Sample.lstat Judge.Sample.sha (fun _ => 1000) (fun _ => 5) Sample.config
         Sample.query (result_top hits) (global_top hits) pre
         (zero_obs <| o_Candidates := Z.of_nat (length (result_candidates hits)) |>) Sample.world = (None, o1, w1)
    /\ mkL3Result "r1" "42" f0 = mkL3Result (ID s) (Content s) f0
    /\ reusable (P := Sample.store) Judge.Sample.read Sample.lstat Judge.Sample.sha (fun _ => 1000)
         Sample.config Sample.query s h (result_top hits) (global_top hits) w1.
Proof.
  apply (DecideL3_fail_closed (E := Judge.Sample.counting) (P := Sample.store)
           Judge.Sample.read Sample.lstat Judge.Sample.sha Sample.search (fun _ => 1000) (fun _ => 5)
           Sample.config Sample.query Sample.world).
  vm_compute. reflexivity.
Defined.

Lemma DecideL3_accounted_witness :
  exists o, w_decided Sample.decide_now.2 = w_decided Sample.world ++ [o]
    /\ o_Candidates o = Z.of_nat (length (result_candidates Sample.hits))
    /\ match Sample.decide_now.1 with
       | Ok (Some _) => o_Reused o = 1
       | Ok None => o_Reused o = 0 /\ o_Candidates o <= rejects o
       | Err _ => False
       end.
Proof.
  exact (DecideL3_accounted (E := Judge.Sample.counting) (P := Sample.store)
           Judge.Sample.read Sample.lstat Judge.Sample.sha Sample.search (fun _ => 1000) (fun _ => 5)
           Sample.config Sample.query Sample.world Sample.hits eq_refl).
Defined.
