(* ===== verification/Sched.v ===== *)
(** kernel/sched (sched.go, rule_decider.go, tier_learn.go): the plan of one tool
    round - parallel groups, model tier, injection list, budget action and
    prefetch hints.

    Counters are [Z]; a nil dereference is the error [nil_dereference].  The
    prefetch planner is a callback: a parameter over its own state [F].  A call's
    arguments are not read here and are left out of [ToolCallInfo]. *)

From Stdlib Require Import ZArith Lia Bool Ascii String Floats.SpecFloat.
From stdpp Require Import tactics base option list sorting gmap sets strings.
From S2P Require Import Prelude Float64 GoStrings Slice.

#[global] Open Scope Z_scope.

Definition nil_dereference : string := "runtime error: invalid memory address or nil pointer dereference".

(** ** Data *)

Record PrefetchLoadHint := mkHint {
  ConcurrencyUsed : Z;
  ConcurrencyLimit : Z;
  WaitWindowMS : Z;
  TaskEstimateMS : Z;
}.
#[export] Instance PrefetchLoadHint_eta : Eta PrefetchLoadHint := fun r =>
  mkHint (ConcurrencyUsed r) (ConcurrencyLimit r) (WaitWindowMS r) (TaskEstimateMS r).

Record BudgetState := mkBudget { LimitUSD : f64; SpentUSD : f64; Window : string }.

Record ToolCallInfo := mkCall { CallID : string; Name : string; ReadOnly : bool }.

Record RoundInput := mkInput {
  Intent : string;
  ToolCalls : list ToolCallInfo;
  SliceHits : list Slice.Hit;
  BudgetUSD : f64;
  Concurrency : Z;
  SuspendedTools : list string;
  Budget : BudgetState;
  PrefetchLoad : PrefetchLoadHint;
}.

Record RoundPlan := mkPlan {
  ParallelGroups : list (list string);
  Tier : string;
  TierReason : string;
  InjectIDs : list string;
  PrefetchIDs : list string;
  PrefetchProbeIDs : list string;
  PrefetchReason : string;
  SuspendTools : list string;
  MaxParallel_ : Z;
  BudgetAction : string;
}.
#[export] Instance RoundPlan_eta : Eta RoundPlan := fun r =>
  mkPlan (ParallelGroups r) (Tier r) (TierReason r) (InjectIDs r) (PrefetchIDs r) (PrefetchProbeIDs r)
    (PrefetchReason r) (SuspendTools r) (MaxParallel_ r) (BudgetAction r).

Definition BudgetActionDegradeTier : string := "degrade_tier".
Definition BudgetActionDegradeInject : string := "degrade_inject".
Definition BudgetActionHaltPrefetch : string := "halt_prefetch".
Definition BudgetActionHardStop : string := "hard_stop".

Definition SerialToolNames : list string :=
  ["complete_step"; "todo_write"; "wait"; "bash_output"; "use_capability"; "compress"]%string.

Record PrefetchPlanResult := mkPlanResult {
  pp_IDs : list string;
  pp_ProbeIDs : list string;
  pp_Reason : string;
}.

Record Config := mkConfig {
  MaxParallel : Z;
  MinSamples : Z;
  SuccessFloor : f64;
  ComplexTools : Z;
  DefaultTier : string;
  ProTier : string;
  InjectMax : Z;
  TierMinSamples : Z;
  SerialTools : list string;
}.
#[export] Instance Config_eta : Eta Config := fun r =>
  mkConfig (MaxParallel r) (MinSamples r) (SuccessFloor r) (ComplexTools r) (DefaultTier r) (ProTier r)
    (InjectMax r) (TierMinSamples r) (SerialTools r).

Definition Defaults : Config := mkConfig 8 5 (f_of_ratio 7 10) 3 "flash" "pro" 8 10 [].

(** ** Tool statistics *)

Record toolStat := mkToolStat { runs : Z; failures : Z; durMs : Z }.
#[export] Instance toolStat_eta : Eta toolStat := fun r => mkToolStat (runs r) (failures r) (durMs r).

(** A nil or empty history succeeds. *)
Definition successRate (t : option toolStat) : f64 :=
  match t with
  | Some t => if runs t =? 0 then f1 else (f_of_int (runs t - failures t) / f_of_int (runs t))%f64
  | None => f1
  end.

Record ToolStatSnapshot := mkSnapshot { Runs : Z; Failures : Z; DurationMs : Z; SuccessRate : f64 }.

(** ** Tier learning *)

Record TierObservation := mkTierObs {
  to_Tier : string;
  to_Intent : string;
  to_Writers : Z;
  to_Calls : Z;
  to_Success : bool;
  to_Tokens : Z;
}.

Record tierClassBucket := mkBucket {
  samples : Z;
  successEWMA : f64;
  hasSuccess : bool;
  costSamples : Z;
  costEWMA : f64;
  hasCost : bool;
}.
#[export] Instance tierClassBucket_eta : Eta tierClassBucket := fun r =>
  mkBucket (samples r) (successEWMA r) (hasSuccess r) (costSamples r) (costEWMA r) (hasCost r).

Record tierLearner := mkLearner {
  minSamples : Z;
  alpha : f64;
  byTier : gmap string tierClassBucket;
  learnedUse : Z;
  fallbacks : Z;
}.
#[export] Instance tierLearner_eta : Eta tierLearner := fun r =>
  mkLearner (minSamples r) (alpha r) (byTier r) (learnedUse r) (fallbacks r).

Definition newTierLearner (n : Z) : tierLearner :=
  mkLearner (if n <=? 0 then 10 else n) (f_of_ratio 2 10) ∅ 0 0.

Definition ewma (a new old : f64) : f64 := (a * new + (f1 - a) * old)%f64.

Definition observe (o : TierObservation) (l : tierLearner) : tierLearner :=
  let b := default (mkBucket 0 f0 false 0 f0 false) (byTier l !! to_Tier o) in
  let sv := if to_Success o then f1 else f0 in
  let b := b <| samples ::= Z.succ |>
             <| successEWMA := if hasSuccess b then ewma (alpha l) sv (successEWMA b) else sv |>
             <| hasSuccess := true |> in
  let b := if 0 <? to_Tokens o then
             b <| costSamples ::= Z.succ |>
               <| costEWMA := if hasCost b then ewma (alpha l) (f_of_int (to_Tokens o)) (costEWMA b)
                              else f_of_int (to_Tokens o) |>
               <| hasCost := true |>
           else b in
  l <| byTier ::= <[to_Tier o := b]> |>.

(** The learned tier and its reason; [None] keeps the hard rule. *)
Definition decideComplex (cfg : Config) (l : tierLearner) : result (option (string * string)) * tierLearner :=
  match byTier l !! DefaultTier cfg with
  | None => (Ok None, l <| fallbacks ::= Z.succ |>)
  | Some cheap =>
      if (samples cheap <? minSamples l) || negb (hasSuccess cheap)
      then (Ok None, l <| fallbacks ::= Z.succ |>)
      else
        let needs_pro := (Ok (Some (ProTier cfg, "learned:complex-needs-pro"%string)),
                          l <| learnedUse ::= Z.succ |>) in
        if (successEWMA cheap >=? SuccessFloor cfg)%f64 then
          match byTier l !! ProTier cfg with
          | None => (Err nil_dereference, l)          (* pro.hasCost on a nil pro *)
          | Some pro =>
              if negb (hasCost pro) || negb (hasCost cheap) || (costEWMA cheap <=? costEWMA pro)%f64
              then (Ok (Some (DefaultTier cfg, "learned:complex-cheap-ok"%string)),
                    l <| learnedUse ::= Z.succ |>)
              else needs_pro
          end
        else needs_pro
  end.

Record TierLearnedStats := mkTierStats {
  ts_Samples : Z;
  ts_LearnedUse : Z;
  ts_Fallbacks : Z;
  ts_ByTier : gmap string f64;
}.

Definition stats_of (l : tierLearner) : TierLearnedStats :=
  mkTierStats (foldr (fun kv n => samples kv.2 + n) 0 (map_to_list (byTier l))) (learnedUse l) (fallbacks l)
    (omap (fun b => if hasSuccess b then Some (successEWMA b) else None) (byTier l)).

(** ** Rules *)

Definition canonical_step (seen_out : list string) (name : string) : list string :=
  let name := trim_space name in
  if (name =? "")%string || bool_decide (name ∈ seen_out) then seen_out else seen_out ++ [name].

Definition canonicalNames (names : list string) : list string :=
  sort_strings (foldl canonical_step [] names).

Definition withoutSuspended (calls : list ToolCallInfo) (suspended : list string) : list ToolCallInfo :=
  List.filter (fun c => negb (bool_decide (Name c ∈ suspended))) calls.

Definition decideBudgetAction (b : BudgetState) : string :=
  if (LimitUSD b <=? f0)%f64 || (SpentUSD b <? f0)%f64 then "" else
  let ratio := (SpentUSD b / LimitUSD b)%f64 in
  if (ratio >=? f1)%f64 then BudgetActionHardStop
  else if (ratio >=? f_of_ratio 9 10)%f64 then BudgetActionDegradeTier
  else if (ratio >=? f_of_ratio 8 10)%f64 then BudgetActionDegradeInject
  else if (ratio >=? f_of_ratio 7 10)%f64 then BudgetActionHaltPrefetch
  else "".

Definition ids (calls : list ToolCallInfo) : list string := map CallID calls.
Definition toolNames (calls : list ToolCallInfo) : list string := map Name calls.

Definition canonicalInjectIDs (hits : list Slice.Hit) (max : Z) : list string :=
  let l := sort_strings (omap (fun h => ID <$> HitSlice h) hits) in
  if (0 <? max) && (max <? Z.of_nat (length l)) then take (Z.to_nat max) l else l.

Definition normalizedPrefetchLoad (hint : PrefetchLoadHint) (groups : list (list string)) (maxParallel : Z) :
    PrefetchLoadHint :=
  let hint := if ConcurrencyLimit hint <=? 0 then hint <| ConcurrencyLimit := maxParallel |> else hint in
  let hint := if ConcurrencyUsed hint <=? 0 then
                hint <| ConcurrencyUsed ::= fun u =>
                  foldl (fun u g => if u <? Z.of_nat (length g) then Z.of_nat (length g) else u) u groups |>
              else hint in
  if (ConcurrencyLimit hint <? ConcurrencyUsed hint) && (0 <? ConcurrencyLimit hint)
  then hint <| ConcurrencyUsed := ConcurrencyLimit hint |> else hint.

Section Lower.
Context `{UnicodeLower}.

Definition norm_intent (intent : string) : string := to_lower (trim_space intent).
Definition mutating (intent : string) : bool :=
  (norm_intent intent =? "mutation")%string || (norm_intent intent =? "persistent_action")%string.

Definition decideTier (intent : string) (calls : list ToolCallInfo) (cfg : Config) : string * string :=
  if mutating intent then (ProTier cfg, "intent:" +:+ norm_intent intent)
  else match List.filter (fun c => negb (ReadOnly c)) calls with
       | c :: _ => (ProTier cfg, "writer:" +:+ Name c)
       | [] => if ComplexTools cfg <? Z.of_nat (length calls)
               then (ProTier cfg, "complex:" +:+ itoa (Z.of_nat (length calls)))
               else (DefaultTier cfg, "default"%string)
       end.

Definition isComplexShape (intent : string) (calls : list ToolCallInfo) (cfg : Config) : bool :=
  if Z.of_nat (length calls) <=? ComplexTools cfg then false
  else if existsb (fun c => negb (ReadOnly c)) calls then false
  else negb (mutating intent).
End Lower.

(** ** The decider *)

Section Decider.
Context `{UnicodeLower} {F : Type}.

Record RuleDecider := mkDecider {
  cfg : Config;
  stats : gmap string toolStat;
  prefetchFn : option (list string -> F -> list string * F);
  loadPrefetchFn : option (list string -> PrefetchLoadHint -> F -> PrefetchPlanResult * F);
  tierLearn : tierLearner;
  planner : F;
}.
#[export] Instance RuleDecider_eta : Eta RuleDecider := fun r =>
  mkDecider (cfg r) (stats r) (prefetchFn r) (loadPrefetchFn r) (tierLearn r) (planner r).

Definition NewRuleDecider (c : Config) (f : F) : RuleDecider :=
  let def := Defaults in
  let positive (v dv : Z) := if v <=? 0 then dv else v in
  let named (v dv : string) := if (v =? "")%string then dv else v in
  let c := mkConfig
    (positive (MaxParallel c) (MaxParallel def))
    (positive (MinSamples c) (MinSamples def))
    (if (SuccessFloor c <=? f0)%f64 || (SuccessFloor c >? f1)%f64 then SuccessFloor def else SuccessFloor c)
    (positive (ComplexTools c) (ComplexTools def))
    (named (DefaultTier c) (DefaultTier def))
    (named (ProTier c) (ProTier def))
    (positive (InjectMax c) (InjectMax def))
    (positive (TierMinSamples c) (TierMinSamples def))
    (SerialTools c) in
  mkDecider c ∅ None None (newTierLearner (TierMinSamples c)) f.

Definition ApplyEvolution (successFloor : f64) (d : RuleDecider) : result unit * RuleDecider :=
  if is_nan successFloor || is_inf successFloor
  then (Err "sched: non-finite evolution threshold", d)
  else
    let x := if (successFloor <? f0)%f64 then f0 else successFloor in
    let x := if (x >? f1)%f64 then f1 else x in
    (Ok tt, d <| cfg ::= fun c => c <| SuccessFloor := x |> |>).

Definition ObserveTier (o : TierObservation) (d : RuleDecider) : RuleDecider :=
  if (to_Tier o =? "")%string then d else d <| tierLearn ::= observe o |>.

Definition Observe (name : string) (success : bool) (ms : Z) (d : RuleDecider) : RuleDecider :=
  let st := default (mkToolStat 0 0 0) (stats d !! name) in
  let st := st <| runs ::= Z.succ |> in
  let st := if success then st else st <| failures ::= Z.succ |> in
  d <| stats ::= <[name := st <| durMs ::= fun m => m +! ms |>]> |>.

Definition SetPrefetchPlanFunc (fn : option (list string -> F -> list string * F)) (d : RuleDecider) : RuleDecider :=
  d <| prefetchFn := fn |>.
Definition SetLoadAwarePrefetchPlanFunc
    (fn : option (list string -> PrefetchLoadHint -> F -> PrefetchPlanResult * F)) (d : RuleDecider) : RuleDecider :=
  d <| loadPrefetchFn := fn |>.
Definition TierLearnedStats_ (d : RuleDecider) : TierLearnedStats := stats_of (tierLearn d).
Definition Stats (d : RuleDecider) : gmap string ToolStatSnapshot :=
  (fun st => mkSnapshot (runs st) (failures st) (durMs st) (successRate (Some st))) <$> stats d.

Definition serialNames (d : RuleDecider) : list string := SerialToolNames ++ SerialTools (cfg d).

Definition passesBehaviorGate (name : string) (d : RuleDecider) : bool :=
  match stats d !! name with
  | None => true
  | Some st => if runs st <? MinSamples (cfg d) then true
               else (successRate (Some st) >=? SuccessFloor (cfg d))%f64
  end.

Definition parallelisable (d : RuleDecider) (c : ToolCallInfo) : bool :=
  if negb (ReadOnly c) then false
  else if bool_decide (Name c ∈ serialNames d) then false
  else passesBehaviorGate (Name c) d.

(** The longest prefix satisfying [p], and the rest. *)
Fixpoint span {A} (p : A -> bool) (l : list A) : list A * list A :=
  match l with
  | [] => ([], [])
  | x :: l' => if p x then let '(a, b) := span p l' in (x :: a, b) else ([], l)
  end.

(** Pieces of [cap] elements; [fuel] is the length. *)
Fixpoint chunks {A} (fuel : nat) (cap : nat) (l : list A) : list (list A) :=
  match fuel, l with
  | S n, _ :: _ => take cap l :: chunks n cap (drop cap l)
  | _, _ => []
  end.

Fixpoint partition_calls (fuel : nat) (d : RuleDecider) (calls : list ToolCallInfo) :
    list (list ToolCallInfo) :=
  match fuel, calls with
  | S n, c :: rest =>
      if parallelisable d c then
        let '(run, rest) := span (parallelisable d) rest in
        chunks (S (length run)) (Z.to_nat (MaxParallel (cfg d))) (c :: run) ++ partition_calls n d rest
      else [c] :: partition_calls n d rest
  | _, _ => []
  end.

Definition partition (d : RuleDecider) (calls : list ToolCallInfo) : list (list string) :=
  map ids (partition_calls (length calls) d calls).

(** The learned overlay, once the hard rules gave [reason]. *)
Definition learn_tier (input : RoundInput) (active : list ToolCallInfo) (reason : string) (d : RuleDecider) :
    result (option (string * string)) * RuleDecider :=
  if ((reason =? "default")%string || has_prefix reason "complex:") && isComplexShape (Intent input) active (cfg d)
  then let '(r, l) := decideComplex (cfg d) (tierLearn d) in (r, d <| tierLearn := l |>)
  else (Ok None, d).

Definition plan_prefetch (input : RoundInput) (active : list ToolCallInfo) (plan : RoundPlan) (d : RuleDecider) :
    RoundPlan * RuleDecider :=
  match loadPrefetchFn d, prefetchFn d with
  | Some fn, _ =>
      let hint := normalizedPrefetchLoad (PrefetchLoad input) (ParallelGroups plan) (MaxParallel (cfg d)) in
      let '(res, f) := fn (toolNames active) hint (planner d) in
      (plan <| PrefetchIDs := pp_IDs res |> <| PrefetchProbeIDs := pp_ProbeIDs res |>
            <| PrefetchReason := pp_Reason res |>, d <| planner := f |>)
  | None, Some fn =>
      let '(res, f) := fn (toolNames active) (planner d) in
      (plan <| PrefetchIDs := res |>, d <| planner := f |>)
  | None, None => (plan, d)
  end.

Definition apply_budget (action : string) (c : Config) (plan : RoundPlan) : RoundPlan :=
  let plan :=
    if (action =? BudgetActionHaltPrefetch)%string || (action =? BudgetActionHardStop)%string then
      plan <| PrefetchIDs := [] |> <| PrefetchProbeIDs := [] |> <| PrefetchReason := "budget:" +:+ action |>
    else plan in
  if (action =? BudgetActionDegradeTier)%string then
    plan <| Tier := DefaultTier c |> <| TierReason := "budget:" +:+ BudgetActionDegradeTier |>
  else plan.

Definition DecideRound (input : RoundInput) (d : RuleDecider) : result RoundPlan * RuleDecider :=
  let suspended := canonicalNames (SuspendedTools input) in
  let active := withoutSuspended (ToolCalls input) suspended in
  let action := decideBudgetAction (Budget input) in
  let '(tier, tierReason) := decideTier (Intent input) active (cfg d) in
  match learn_tier input active tierReason d with
  | (Err e, d) => (Err e, d)
  | (Ok dec, d) =>
      let '(tier, tierReason) := match dec with Some x => x | None => (tier, tierReason) end in
      let groups := partition d active in
      let plan := mkPlan groups tier tierReason (canonicalInjectIDs (SliceHits input) (InjectMax (cfg d)))
                    [] [] "" suspended (MaxParallel (cfg d)) action in
      let '(plan, d) := plan_prefetch input active plan d in
      (Ok (apply_budget action (cfg d) plan), d)
  end.
End Decider.

(** ** Parallel groups *)

Section Partition.
Context `{UnicodeLower} {F : Type}.
Implicit Types d : RuleDecider (F := F).

Lemma span_app {A} (p : A -> bool) l : (span p l).1 ++ (span p l).2 = l.
Proof.
  induction l as [|x l IH]; [done|]. simpl. destruct (p x); [|done].
  destruct (span p l) as [a b]. simpl in *. by rewrite IH.
Qed.

Lemma span_all {A} (p : A -> bool) l x : x ∈ (span p l).1 -> p x = true.
Proof.
  induction l as [|y l IH]; simpl; [by intros ?%not_elem_of_nil|].
  destruct (p y) eqn:E; simpl; [|by intros ?%not_elem_of_nil].
  destruct (span p l) as [a b]. simpl in *. intros [->|Hx]%elem_of_cons; auto.
Qed.

Lemma chunks_spec {A} fuel cap (l : list A) :
  (0 < cap)%nat -> (length l <= fuel)%nat ->
  concat (chunks fuel cap l) = l
  /\ Forall (fun g => g <> [] /\ (length g <= cap)%nat) (chunks fuel cap l).
Proof.
  intros Hc. revert l. induction fuel as [|n IH]; intros [|x l] Hl; simpl in *; try done; [lia|].
  destruct cap as [|cap]; [lia|]. simpl. destruct (IH (drop cap l)) as [Hcat Hall].
  { rewrite length_drop. lia. }
  split.
  - rewrite Hcat. by rewrite take_drop.
  - constructor; [|done]. split; [done|]. simpl. rewrite length_take. lia.
Qed.

Lemma partition_calls_spec fuel d calls :
  1 <= MaxParallel (cfg d) -> (length calls <= fuel)%nat ->
  concat (partition_calls fuel d calls) = calls
  /\ Forall (fun g => g <> [] /\ Z.of_nat (length g) <= MaxParallel (cfg d)
        /\ ((1 < length g)%nat -> Forall (fun c => parallelisable d c = true) g))
       (partition_calls fuel d calls).
Proof.
  intros Hm. revert calls. induction fuel as [|n IH]; intros [|c calls] Hl; simpl in *; try done; [lia|].
  destruct (parallelisable d c) eqn:Ep; cycle 1.
  { destruct (IH calls) as [Hc Ha]; [lia|]. split; [simpl; by rewrite Hc|].
    constructor; [|done]. split_and!; [done|simpl; lia|simpl; lia]. }
  pose proof (span_app (parallelisable d) calls) as Happ.
  pose proof (span_all (parallelisable d) calls) as Hall.
  destruct (span (parallelisable d) calls) as [run rest]. simpl in *.
  destruct (IH rest) as [Hc Ha]; [rewrite <- Happ, length_app in Hl; lia|].
  destruct (chunks_spec (S (length run)) (Z.to_nat (MaxParallel (cfg d))) (c :: run)) as [Hk Hg];
    [lia|simpl; lia|].
  set (cs := chunks (S (length run)) (Z.to_nat (MaxParallel (cfg d))) (c :: run)) in *.
  change (concat (cs ++ partition_calls n d rest) = c :: calls
          /\ Forall (fun g => g <> [] /\ Z.of_nat (length g) <= MaxParallel (cfg d)
               /\ ((1 < length g)%nat -> Forall (fun c => parallelisable d c = true) g))
               (cs ++ partition_calls n d rest)).
  split.
  - rewrite concat_app, Hc, Hk. simpl. by rewrite Happ.
  - apply Forall_app. split; [|done]. rewrite Forall_forall in Hg |- *. intros g Hin.
    destruct (Hg g Hin) as [Hne Hlen]. split_and!; [done|lia|]. intros _. apply Forall_forall.
    intros x Hx. assert (Hx' : x ∈ c :: run).
    { rewrite <- Hk. apply list_elem_of_In, in_concat. exists g.
      by rewrite <- !list_elem_of_In. }
    apply elem_of_cons in Hx' as [->|Hx']; [done|by apply Hall].
Qed.

Lemma partition_ids d calls : 1 <= MaxParallel (cfg d) -> concat (partition d calls) = ids calls.
Proof.
  intros Hm. destruct (partition_calls_spec (length calls) d calls Hm) as [Hc _]; [done|].
  unfold partition, ids. rewrite <- concat_map, Hc. done.
Qed.

(** the groups schedule every call exactly once, in provider order, none
    larger than the parallel cap, and a call shares a group only if it is
    read-only, not on the serial list and past the behaviour gate. *)
Theorem partition_spec d calls :
  1 <= MaxParallel (cfg d) ->
  exists groups,
    partition d calls = map ids groups /\ concat groups = calls
    /\ concat (partition d calls) = ids calls
    /\ Forall (fun g => g <> [] /\ Z.of_nat (length g) <= MaxParallel (cfg d)) groups
    /\ (forall g c, g ∈ groups -> (1 < length g)%nat -> c ∈ g ->
          ReadOnly c = true /\ (Name c ∉ serialNames d) /\ passesBehaviorGate (Name c) d = true).
Proof.
  intros Hm. destruct (partition_calls_spec (length calls) d calls Hm) as [Hc Ha]; [done|].
  exists (partition_calls (length calls) d calls). rewrite Forall_forall in Ha. split_and!; [done|done|by apply partition_ids| |].
  - apply Forall_forall. intros g Hg. destruct (Ha g Hg) as (? & ? & _). done.
  - intros g c Hg Hl Hcg. destruct (Ha g Hg) as (_ & _ & Hp). specialize (Hp Hl).
    rewrite Forall_forall in Hp. specialize (Hp c Hcg). unfold parallelisable in Hp.
    destruct (ReadOnly c); simpl in *; [|done]. case_bool_decide; [done|]. done.
Qed.

Lemma canonicalInjectIDs_length hits max :
  0 < max -> Z.of_nat (length (canonicalInjectIDs hits max)) <= max.
Proof.
  intros Hm. unfold canonicalInjectIDs. cbv zeta. rewrite (proj2 (Z.ltb_lt 0 max) Hm). simpl.
  destruct (Z.ltb_spec max (Z.of_nat (length (sort_strings (omap (fun h => ID <$> HitSlice h) hits))))); [|done].
  rewrite length_take. lia.
Qed.

Lemma NewRuleDecider_cap c (f : F) : (1 <= MaxParallel (cfg (NewRuleDecider c f)))%Z.
Proof.
  unfold NewRuleDecider. cbn [cfg MaxParallel Defaults]. destruct (Z.leb_spec (MaxParallel c) 0); lia.
Qed.
End Partition.

(** ** Injection order *)

Lemma sorted_take_strings n l :
  StronglySorted (not_after string_less) l -> StronglySorted (not_after string_less) (take n l).
Proof. apply StronglySorted_take. Qed.

(** The injected IDs do not depend on the order (or scores) of the hits, are
    ascending, come from the hits, and stay under the cap. *)
Theorem canonicalInjectIDs_canonical hits hits' max :
  hits ≡ₚ hits' ->
  canonicalInjectIDs hits max = canonicalInjectIDs hits' max
  /\ StronglySorted (not_after string_less) (canonicalInjectIDs hits max)
  /\ (forall id, id ∈ canonicalInjectIDs hits max -> exists h s, h ∈ hits /\ HitSlice h = Some s /\ ID s = id)
  /\ (0 < max -> Z.of_nat (length (canonicalInjectIDs hits max)) <= max).
Proof.
  intros Hp. unfold canonicalInjectIDs.
  assert (Heq : sort_strings (omap (fun h => ID <$> HitSlice h) hits)
                = sort_strings (omap (fun h => ID <$> HitSlice h) hits')).
  { apply sort_strings_perm_eq. by rewrite Hp. }
  rewrite Heq. split; [done|]. rewrite <- Heq. split_and!.
  - destruct (_ && _); [apply sorted_take_strings|]; apply sort_strings_sorted.
  - intros id Hin. assert (Hin' : id ∈ sort_strings (omap (fun h => ID <$> HitSlice h) hits)).
    { destruct (_ && _); [|done]. eapply elem_of_take in Hin as (i & Hi & _). by eapply list_elem_of_lookup_2. }
    unfold sort_strings in Hin'. rewrite elem_of_go_sort, list_elem_of_omap in Hin'.
    destruct Hin' as (h & Hh & Hid). destruct (HitSlice h) as [s|] eqn:Es; simplify_eq/=. eauto.
  - intros Hmax. rewrite (proj2 (Z.ltb_lt 0 max)) by done. simpl.
    destruct (Z.ltb_spec max (Z.of_nat (length (sort_strings (omap (fun h => ID <$> HitSlice h) hits)))));
      [rewrite length_take|]; lia.
Qed.

(** ** The round plan *)

Section Plan.
Context `{UnicodeLower} {F : Type}.
Implicit Types d : RuleDecider (F := F).

Definition active_calls (input : RoundInput) : list ToolCallInfo :=
  withoutSuspended (ToolCalls input) (canonicalNames (SuspendedTools input)).

Lemma canonical_step_elem seen name x :
  x ∈ canonical_step seen name <-> x ∈ seen \/ (x = trim_space name /\ x <> ""%string).
Proof.
  unfold canonical_step. destruct (String.eqb_spec (trim_space name) ""); simpl.
  - split; [by left|]. intros [?|[-> ?]]; done.
  - case_bool_decide as Hin; [split; [by left|]; intros [?|[-> ?]]; done|].
    rewrite elem_of_app, list_elem_of_singleton. split; [intros [?| ->]; auto|intros [?|[-> ?]]; auto].
Qed.

Lemma canonical_fold_elem names seen x :
  x ∈ foldl canonical_step seen names <-> x ∈ seen \/ exists n, n ∈ names /\ x = trim_space n /\ x <> ""%string.
Proof.
  revert seen. induction names as [|n names IH]; intros seen; simpl.
  - split; [by left|]. intros [?|(n & Hn & _)]; [done|]. by apply not_elem_of_nil in Hn.
  - rewrite IH, canonical_step_elem. setoid_rewrite elem_of_cons. split.
    + intros [[?|[? ?]]|(m & ? & ? & ?)]; [by left|right; exists n; auto|right; exists m; auto].
    + intros [?|(m & [Hm|?] & ? & ?)]; [by do 2 left|left; right; by subst|right; exists m; auto].
Qed.

Lemma canonical_fold_NoDup names seen : NoDup seen -> NoDup (foldl canonical_step seen names).
Proof.
  revert seen. induction names as [|n names IH]; intros seen Hs; simpl; [done|]. apply IH.
  unfold canonical_step. destruct (_ =? _)%string; simpl; [done|]. case_bool_decide; [done|].
  apply NoDup_app. split_and!; [done| |apply NoDup_singleton]. intros x Hx ->%list_elem_of_singleton. done.
Qed.

(** The suspension list is the set of trimmed non-empty names, without
    duplicates and in ascending order, whatever order they came in. *)
Theorem canonicalNames_spec names :
  (forall x, x ∈ canonicalNames names <-> exists n, n ∈ names /\ x = trim_space n /\ x <> ""%string)
  /\ NoDup (canonicalNames names)
  /\ StronglySorted (not_after string_less) (canonicalNames names).
Proof.
  unfold canonicalNames, sort_strings. split_and!.
  - intros x. rewrite elem_of_go_sort, canonical_fold_elem. split; [|by right].
    intros [Hx|?]; [by apply not_elem_of_nil in Hx|done].
  - apply go_sort_NoDup, canonical_fold_NoDup, NoDup_nil_2.
  - apply sort_strings_sorted.
Qed.

Lemma elem_of_active input c :
  c ∈ active_calls input -> c ∈ ToolCalls input /\ Name c ∉ canonicalNames (SuspendedTools input).
Proof.
  unfold active_calls, withoutSuspended. intros [Hin Hn]%list_elem_of_In%filter_In.
  split; [by apply list_elem_of_In|]. by case_bool_decide.
Qed.

Definition needs_pro (input : RoundInput) : bool :=
  mutating (Intent input) || existsb (fun c => negb (ReadOnly c)) (active_calls input).

Lemma decideTier_pro input c :
  needs_pro input = true ->
  (decideTier (Intent input) (active_calls input) c).1 = ProTier c
  /\ isComplexShape (Intent input) (active_calls input) c = false.
Proof.
  unfold needs_pro, decideTier, isComplexShape. destruct (mutating (Intent input)); simpl.
  - intros _. split; [done|]. destruct (_ <=? _); [done|]. by destruct (existsb _ _).
  - intros Hw. rewrite Hw. split; [|by destruct (_ <=? _)].
    destruct (List.filter _ _) as [|x l] eqn:Ef; [|done]. exfalso.
    apply existsb_exists in Hw as (x & Hx & Hr).
    assert (Hin : In x (List.filter (fun c => negb (ReadOnly c)) (active_calls input))) by (by apply filter_In).
    by rewrite Ef in Hin.
Qed.

Lemma learn_tier_frame input active reason d :
  let '(r, d') := learn_tier input active reason d in
  cfg d' = cfg d /\ (isComplexShape (Intent input) active (cfg d) = false -> r = Ok None).
Proof.
  unfold learn_tier. destruct (_ && _) eqn:E; [|done]. destruct (decideComplex _ _). split; [done|].
  intros Hc. rewrite Hc in E. by rewrite andb_false_r in E.
Qed.

Lemma learn_tier_keeps input active reason d :
  let d' := (learn_tier input active reason d).2 in
  planner d' = planner d /\ loadPrefetchFn d' = loadPrefetchFn d /\ cfg d' = cfg d.
Proof. unfold learn_tier. destruct (_ && _); [|done]. by destruct (decideComplex _ _). Qed.

Lemma plan_prefetch_frame input active plan d :
  let '(plan', d') := plan_prefetch input active plan d in
  ParallelGroups plan' = ParallelGroups plan /\ Tier plan' = Tier plan /\ BudgetAction plan' = BudgetAction plan
  /\ InjectIDs plan' = InjectIDs plan /\ cfg d' = cfg d.
Proof.
  unfold plan_prefetch. destruct (loadPrefetchFn d) as [fn|]; [by destruct (fn _ _ _)|].
  destruct (prefetchFn d) as [fn|]; [by destruct (fn _ _)|done].
Qed.

Lemma apply_budget_spec action c plan :
  let plan' := apply_budget action c plan in
  ParallelGroups plan' = ParallelGroups plan /\ BudgetAction plan' = BudgetAction plan
  /\ InjectIDs plan' = InjectIDs plan
  /\ Tier plan' = (if (action =? BudgetActionDegradeTier)%string then DefaultTier c else Tier plan)
  /\ (action = BudgetActionHaltPrefetch \/ action = BudgetActionHardStop ->
        PrefetchIDs plan' = [] /\ PrefetchProbeIDs plan' = []).
Proof.
  unfold apply_budget. destruct ((action =? BudgetActionHaltPrefetch)%string || _) eqn:Eh;
    destruct (action =? BudgetActionDegradeTier)%string; split_and!; try done.
  all: go_bool; by intros [?|?].
Qed.

(** A decided round consulted the load-aware planner once; its answer is the
    plan's, unless the budget halts prefetching. *)
Lemma DecideRound_prefetch input d fn plan d' :
  loadPrefetchFn d = Some fn -> DecideRound input d = (Ok plan, d') ->
  exists hint,
    let res := fn (toolNames (active_calls input)) hint (planner d) in
    planner d' = res.2
    /\ ((PrefetchIDs plan = [] /\ PrefetchProbeIDs plan = [])
        \/ (PrefetchIDs plan = pp_IDs res.1 /\ PrefetchProbeIDs plan = pp_ProbeIDs res.1)).
Proof.
  intros Hfn. unfold DecideRound. fold (active_calls input).
  destruct (decideTier (Intent input) (active_calls input) (cfg d)) as [tier reason].
  pose proof (learn_tier_keeps input (active_calls input) reason d) as Hk.
  destruct (learn_tier _ _ _ _) as [[dec|e] d1]; [|done]. simpl in Hk. destruct Hk as (Hp & Hl & Hc).
  destruct (match dec with Some x => x | None => (tier, reason) end) as [tier' reason'].
  unfold plan_prefetch. rewrite Hl, Hfn, Hp.
  match goal with |- context [fn _ ?h (planner d)] => intros Hd; exists h end.
  revert Hd. destruct (fn _ _ (planner d)) as [res f]. simpl. intros [= <- <-]. split; [done|].
  unfold apply_budget. destruct (_ || _), (_ =? _)%string; simpl; auto.
Qed.

(** what every plan guarantees.  The calls scheduled are exactly the round's
    calls to tools that are not suspended, in order; a mutating intent or a
    writing call gets the strong tier unless the budget degrades the round to
    the cheap one, which is then the tier whatever was decided; halting and hard
    stopping leave nothing to prefetch; and the injected list obeys its cap. *)
Theorem DecideRound_guarantees input d plan d' :
  1 <= MaxParallel (cfg d) -> 0 < InjectMax (cfg d) ->
  DecideRound input d = (Ok plan, d') ->
  concat (ParallelGroups plan) = ids (active_calls input)
  /\ (forall c, c ∈ active_calls input -> (Name c ∉ canonicalNames (SuspendedTools input)))
  /\ (needs_pro input = true -> BudgetAction plan <> BudgetActionDegradeTier -> Tier plan = ProTier (cfg d))
  /\ (BudgetAction plan = BudgetActionDegradeTier -> Tier plan = DefaultTier (cfg d))
  /\ (BudgetAction plan = BudgetActionHaltPrefetch \/ BudgetAction plan = BudgetActionHardStop ->
        PrefetchIDs plan = [] /\ PrefetchProbeIDs plan = [])
  /\ BudgetAction plan = decideBudgetAction (Budget input)
  /\ Z.of_nat (length (InjectIDs plan)) <= InjectMax (cfg d).
Proof.
  intros Hm Hi. unfold DecideRound. fold (active_calls input).
  pose proof (decideTier_pro input (cfg d)) as Hpro.
  destruct (decideTier (Intent input) (active_calls input) (cfg d)) as [tier reason].
  pose proof (learn_tier_frame input (active_calls input) reason d) as Hl.
  destruct (learn_tier _ _ _ _) as [[dec|e] d1]; [|done]. destruct Hl as [Hc Hl].
  set (tr := match dec with Some x => x | None => (tier, reason) end).
  assert (Htr : needs_pro input = true -> tr.1 = ProTier (cfg d)).
  { intros Hn. destruct (Hpro Hn) as [Ht Hs]. specialize (Hl Hs). unfold tr. by simplify_eq. }
  destruct tr as [tier' reason']. simpl in Htr.
  assert (Hcat := partition_ids d1 (active_calls input) ltac:(by rewrite Hc)).
  match goal with |- context [plan_prefetch _ _ ?p _] => set (plan0 := p) end.
  pose proof (plan_prefetch_frame input (active_calls input) plan0 d1) as Hp.
  destruct (plan_prefetch _ _ _ _) as [plan1 d2]. destruct Hp as (Hg & Ht & Ha & Hin & Hc2).
  intros [= <- _].
  destruct (apply_budget_spec (decideBudgetAction (Budget input)) (cfg d2) plan1) as (-> & -> & -> & -> & Hh).
  rewrite Hg, Ha, Hin, Ht. subst plan0. simpl.
  pose proof (canonicalInjectIDs_length (SliceHits input) (InjectMax (cfg d1))) as Hcap. rewrite Hc2, Hc in *. split_and!; try done; auto.
  - intros c Hin'. by apply elem_of_active in Hin' as [_ ?].
  - intros Hn ?. destruct (String.eqb_spec (decideBudgetAction (Budget input)) BudgetActionDegradeTier); [done|auto].
  - intros He. by rewrite He.
Qed.

(** the nil dereference of the tier learner.  The learned policy panics
    exactly when the cheap tier has enough evidence and holds its success floor
    while no round has been observed on the strong tier. *)
Theorem decideComplex_panics c l :
  (exists e, (decideComplex c l).1 = Err e) <->
  exists cheap, byTier l !! DefaultTier c = Some cheap /\ minSamples l <= samples cheap
    /\ hasSuccess cheap = true /\ (successEWMA cheap >=? SuccessFloor c)%f64 = true
    /\ byTier l !! ProTier c = None.
Proof.
  unfold decideComplex. destruct (byTier l !! DefaultTier c) as [cheap|] eqn:Ec; cycle 1.
  { split; [by intros [e ?]|intros (? & ? & _); done]. }
  destruct (Z.ltb_spec (samples cheap) (minSamples l)); simpl.
  { split; [by intros [e ?]|]. intros (x & Hx & Hs & _). simplify_eq. lia. }
  destruct (hasSuccess cheap) eqn:Eh; simpl; cycle 1.
  { split; [by intros [e ?]|]. intros (x & Hx & _ & Hs & _). simplify_eq. congruence. }
  destruct (SuccessFloor c <=? successEWMA cheap)%f64 eqn:Ef; cycle 1.
  { split; [by intros [e ?]|]. intros (x & Hx & _ & _ & Hs & _). simplify_eq. congruence. }
  destruct (byTier l !! ProTier c) as [pro|] eqn:Ep; simpl.
  - split; [destruct (_ || _); by intros [e ?]|]. intros (x & _ & _ & _ & _ & ?). done.
  - split; [intros _; by exists cheap|]. intros _. by eexists.
Qed.
End Plan.

(** ** Concrete rounds *)

Module Sample.
#[local] Instance ascii_lower : UnicodeLower := fun r => r.
Definition plan_fn (names : list string) (h : PrefetchLoadHint) (f : unit) : PrefetchPlanResult * unit :=
  (mkPlanResult names [] "load:ok", f).
Definition decider : RuleDecider (F := unit) :=
  let d := NewRuleDecider Defaults tt in
  mkDecider (cfg d) (stats d) None (Some plan_fn) (tierLearn d) tt.
Definition call (id name : string) (ro : bool) : ToolCallInfo := mkCall id name ro.
Definition round (spent : Z) (calls : list ToolCallInfo) (suspended : list string) : RoundInput :=
  mkInput "question" calls [] f0 0 suspended (mkBudget (f_of_int 100) (f_of_int spent) "session") (mkHint 0 0 0 0).
Definition reads : list ToolCallInfo :=
  [call "1" "read" true; call "2" "grep" true; call "3" "bash" false; call "4" "wait" true; call "5" "ls" true]%string.
Definition plan_of (r : result RoundPlan * RuleDecider (F := unit)) : option RoundPlan :=
  match r.1 with Ok p => Some p | Err _ => None end.
Definition planned (spent : Z) : option RoundPlan :=
  plan_of (DecideRound (round spent reads [" grep "; ""]%string) decider).

(** Ten cheap rounds that succeeded, none on the strong tier. *)
Definition ten_cheap : list TierObservation := repeat (mkTierObs "flash" "question" 0 4 true 0) 10.
Definition taught : RuleDecider (F := unit) := foldl (fun d o => ObserveTier o d) decider ten_cheap.
Definition four_reads : list ToolCallInfo :=
  [call "1" "read" true; call "2" "read" true; call "3" "read" true; call "4" "read" true]%string.
Definition taught_round : result RoundPlan := (DecideRound (round 0 four_reads []) taught).1.
End Sample.

Lemma partition_spec_witness :
  exists groups,
    partition Sample.decider Sample.reads = map ids groups /\ concat groups = Sample.reads
    /\ concat (partition Sample.decider Sample.reads) = ids Sample.reads
    /\ Forall (fun g => g <> [] /\ Z.of_nat (length g) <= MaxParallel (cfg Sample.decider)) groups
    /\ (forall g c, g ∈ groups -> (1 < length g)%nat -> c ∈ g ->
          ReadOnly c = true /\ (Name c ∉ serialNames Sample.decider)
          /\ passesBehaviorGate (Name c) Sample.decider = true).
Proof. apply (partition_spec Sample.decider Sample.reads). vm_compute. discriminate. Defined.

Lemma canonicalInjectIDs_canonical_witness :
  Z.of_nat (length (canonicalInjectIDs [mkHit None f1 f0 false f0 false] 8)) <= 8.
Proof. apply (canonicalInjectIDs_canonical [mkHit None f1 f0 false f0 false] _ 8 (reflexivity _)). reflexivity. Defined.

Definition Sample_plan : RoundPlan := default (mkPlan [] "" "" [] [] [] "" [] 0 "") (Sample.planned 75).

Lemma DecideRound_guarantees_witness :
  concat (ParallelGroups Sample_plan) = ["1"; "3"; "4"; "5"]%string.
Proof.
  transitivity (ids (active_calls (Sample.round 75 Sample.reads [" grep "; ""]%string))); [|reflexivity].
  apply (DecideRound_guarantees (H := Sample.ascii_lower) (Sample.round 75 Sample.reads [" grep "; ""]%string)
           Sample.decider Sample_plan
           (DecideRound (H := Sample.ascii_lower) (Sample.round 75 Sample.reads [" grep "; ""]%string) Sample.decider).2).
  - vm_compute. discriminate.
  - vm_compute. reflexivity.
  - vm_compute. reflexivity.
Defined.

(** Spending more switches prefetching back on.  With a planner that always
    proposes the round's tools, 75% of the budget halts prefetching, 85% and 95%
    do not. *)
Theorem prefetch_resumes :
  map (fun spent => PrefetchIDs <$> Sample.planned spent) [75; 85; 95]
    = [Some []; Some ["read"; "bash"; "wait"; "ls"]; Some ["read"; "bash"; "wait"; "ls"]]%string.
Proof. vm_compute. reflexivity. Qed.

(** After ten successful cheap rounds and none on the strong tier, a read-only
    round over the complexity limit panics instead of being planned. *)
Theorem complex_round_panics : Sample.taught_round = Err nil_dereference.
Proof. vm_compute. reflexivity. Qed.
