(* ===== verification/Prefetch.v ===== *)
(** kernel/prefetch (prefetch.go, matrix.go): the read-only speculative planner
    that learns tool transitions online.

    Module Gate is the load gate shared by both planners; Module Matrix the
    MatrixPrefetcher.  A map iterated in no particular order is scanned as the
    list of its entries; [Matrix.plan_order] shows that the order does not
    matter.  The random source is a parameter: its state and its next float. *)

From Stdlib Require Import ZArith Lia Bool Ascii String QArith Lqa Floats.SpecFloat.
From stdpp Require Import tactics base option list sorting gmap sets strings.
From S2P Require Import Prelude Float64 Rounding FloatBounds GoStrings.

#[global] Open Scope Z_scope.

(** ** Tasks *)

Definition LocalityLocal : string := "local".
Definition LocalityEgress : string := "egress".

Record PrefetchTask := mkTask {
  Kind : string;
  Key : string;
  Cost : Z;
  Probe : bool;
  Locality : string;
}.

(** The outcome of a planning call: a Go error is an [Err]. *)
Definition PlanReason : Type := string.
Definition ReasonCandidate : PlanReason := "candidate".
Definition ReasonNoCandidate : PlanReason := "no_candidate".
Definition ReasonLoadSaturated : PlanReason := "load_saturated".
Definition ReasonWindowTooShort : PlanReason := "window_too_short".
Definition ReasonPlanError : PlanReason := "plan_error".

Record PlanDecision := mkDecision { Tasks : list PrefetchTask; Reason : PlanReason }.

(** Durations are nanoseconds in an [int64]. *)
Record LoadHint := mkLoad {
  ConcurrencyUsed : Z;
  ConcurrencyLimit : Z;
  WaitWindow : Z;
  TaskEstimate : Z;
}.

(** ** The load gate *)

Module Gate.

Definition DefaultMaxLoad : f64 := f_of_ratio 8 10.

Definition EvaluateLoad (hint : LoadHint) (maxLoad : f64) : PlanReason :=
  let maxLoad := if (maxLoad <=? f0)%f64 || (maxLoad >? f1)%f64 then DefaultMaxLoad else maxLoad in
  if (0 <=? ConcurrencyUsed hint) && (0 <? ConcurrencyLimit hint)
     && (f_of_int (ConcurrencyUsed hint) / f_of_int (ConcurrencyLimit hint) >=? maxLoad)%f64
  then ReasonLoadSaturated
  else if (0 <? WaitWindow hint) && (0 <? TaskEstimate hint) && (WaitWindow hint <? TaskEstimate hint)
  then ReasonWindowTooShort
  else ""%string.

Record GateStats := mkGate {
  Candidates : Z;
  NoCandidate : Z;
  LoadSkipped : Z;
  WindowSkipped : Z;
}.
#[export] Instance GateStats_eta : Eta GateStats := fun r =>
  mkGate (Candidates r) (NoCandidate r) (LoadSkipped r) (WindowSkipped r).

Definition incr (n : Z) : Z := u64 (n + 1).

Definition observe (reason : PlanReason) (c : GateStats) : GateStats :=
  if (reason =? ReasonCandidate)%string then c <| Candidates ::= incr |>
  else if (reason =? ReasonNoCandidate)%string then c <| NoCandidate ::= incr |>
  else if (reason =? ReasonLoadSaturated)%string then c <| LoadSkipped ::= incr |>
  else if (reason =? ReasonWindowTooShort)%string then c <| WindowSkipped ::= incr |>
  else c.

Definition snapshot (c : GateStats) : GateStats := c.

(** The reason both PlanWithLoad methods give to a list of tasks. *)
Definition planned_reason (tasks : list PrefetchTask) : PlanReason :=
  if 0 <? Z.of_nat (length tasks) then ReasonCandidate else ReasonNoCandidate.

End Gate.

(** ** The matrix prefetcher *)

Module Matrix.

Record Config := mkConfig {
  TopK : Z;
  MinConf : f64;
  MaxCost : Z;
  BaseCost : Z;
  WasteHitLimit : f64;
  Decay : f64;
  Epsilon : f64;
  MaxLoad : f64;
  ProbationInterval : Z;
}.
#[export] Instance Config_eta : Eta Config := fun r =>
  mkConfig (TopK r) (MinConf r) (MaxCost r) (BaseCost r) (WasteHitLimit r) (Decay r) (Epsilon r)
    (MaxLoad r) (ProbationInterval r).

Definition Defaults : Config :=
  mkConfig 3 (f_of_ratio 5 10) 2000 512 (f_of_int 3) (f_of_ratio 2 10) f0 Gate.DefaultMaxLoad 10.

Definition betaPrior : f64 := f1.

(** Beta posterior of a candidate: discounted hit and waste weights. *)
Definition posteriorMean (hw ww : f64) : f64 :=
  ((hw + betaPrior) / (hw + ww + f_of_int 2 * betaPrior))%f64.

Definition wilsonLower (mu n : f64) : f64 :=
  if (n <=? f0)%f64 then f0 else
  let zz := f_of_ratio 2706025 1000000 in          (* z*z, an exact constant product *)
  let z := f_of_ratio 1645 1000 in
  let denom := (f1 + zz / n)%f64 in
  let center := (mu + zz / (f_of_int 2 * n))%f64 in
  let margin := (z * fsqrt (mu * (f1 - mu) / n + zz / (f_of_int 4 * n * n)))%f64 in
  ((center - margin) / denom)%f64.

Section Matrix.
(** [rand.Rand]: its state and [Float64]. *)
Context {R : Type} (rnd_Float64 : R -> f64 * R).

Record MatrixPrefetcher := mkMatrix {
  cfg : Config;
  bigrams : gmap string (gmap string Z);
  counts : gmap string Z;
  readOnly : gset string;
  rnd : R;
  hitW : gmap string f64;
  wasteW : gmap string f64;
  hitCount : gmap string Z;
  wasteCount : gmap string Z;
  totalHits : Z;
  totalWastes : Z;
  lastPrev : string;
  lastProposed : gset string;
  readOnlyCalls : Z;
  coveredCalls : Z;
  gate : Gate.GateStats;
  plans : gmap string Z;
}.
#[export] Instance MatrixPrefetcher_eta : Eta MatrixPrefetcher := fun r =>
  mkMatrix (cfg r) (bigrams r) (counts r) (readOnly r) (rnd r) (hitW r) (wasteW r) (hitCount r)
    (wasteCount r) (totalHits r) (totalWastes r) (lastPrev r) (lastProposed r) (readOnlyCalls r)
    (coveredCalls r) (gate r) (plans r).

(** [rand.New(rand.NewSource(1))] is the argument [r]. *)
Definition NewMatrixPrefetcher (c : Config) (r : R) : MatrixPrefetcher :=
  let def := Defaults in
  let positive (v dv : Z) := if v <=? 0 then dv else v in
  let share (v dv : f64) := if (v <=? f0)%f64 || (v >? f1)%f64 then dv else v in
  let interval := if ProbationInterval c =? 0 then ProbationInterval def else ProbationInterval c in
  let c := mkConfig
    (positive (TopK c) (TopK def))
    (share (MinConf c) (MinConf def))
    (positive (MaxCost c) (MaxCost def))
    (positive (BaseCost c) (BaseCost def))
    (if (WasteHitLimit c <=? f0)%f64 then WasteHitLimit def else WasteHitLimit c)
    (share (Decay c) (Decay def))
    (if (Epsilon c <? f0)%f64 || (Epsilon c >? f1)%f64 then Epsilon def else Epsilon c)
    (share (MaxLoad c) (MaxLoad def))
    (if interval <? 0 then 0 else interval) in
  mkMatrix c ∅ ∅ ∅ r ∅ ∅ ∅ ∅ 0 0 "" ∅ 0 0 (Gate.mkGate 0 0 0 0) ∅.

Definition ApplyEvolution (minConf : f64) (m : MatrixPrefetcher) : result unit * MatrixPrefetcher :=
  if is_nan minConf || is_inf minConf then (Err "prefetch: non-finite evolution confidence", m) else
  let x := if (minConf <=? f0)%f64 then fsmallest else minConf in
  let x := if (x >? f1)%f64 then f1 else x in
  (Ok tt, m <| cfg ::= fun c => c <| MinConf := x |> |>).

Definition SetEpsilon (epsilon : f64) (m : MatrixPrefetcher) : result unit * MatrixPrefetcher :=
  if is_nan epsilon || is_inf epsilon then (Err "prefetch: non-finite epsilon rejected", m)
  else if (epsilon <? f0)%f64 || (epsilon >? f1)%f64 then (Err "prefetch: epsilon out of range [0,1]", m)
  else (Ok tt, m <| cfg ::= fun c => c <| Epsilon := epsilon |> |>).

(** [m.x[key]++] on a map of ints. *)
Definition bump (key : string) (x : gmap string Z) : gmap string Z :=
  <[key := default 0 (x !! key) +! 1]> x.

(** [m.x[key]] on a map of floats. *)
Definition weight (x : gmap string f64) (key : string) : f64 := default f0 (x !! key).

Definition Observe (prev next : string) (ro : bool) (m : MatrixPrefetcher) : MatrixPrefetcher :=
  if (prev =? "")%string || (next =? "")%string then m else
  let m := m <| bigrams ::= fun b => <[prev := bump next (default ∅ (b !! prev))]> b |>
             <| counts ::= bump prev |> in
  if ro then
    let m := m <| readOnly ::= fun s => {[next]} ∪ s |> <| readOnlyCalls ::= fun n => n +! 1 |> in
    if (prev =? lastPrev m)%string && bool_decide (next ∈ lastProposed m)
    then m <| coveredCalls ::= fun n => n +! 1 |> else m
  else m.

Definition recordProposal (last : string) (tasks : list PrefetchTask) (m : MatrixPrefetcher) :
    MatrixPrefetcher :=
  m <| lastPrev := last |> <| lastProposed := list_to_set (map Key tasks) |>.

Definition demoted (m : MatrixPrefetcher) (key : string) : bool :=
  let hw := weight (hitW m) key in
  let ww := weight (wasteW m) key in
  if (hw + ww =? f0)%f64 then false
  else (posteriorMean hw ww <? f1 / (f1 + WasteHitLimit (cfg m)))%f64.

(** A candidate of one scan: key and transition probability. *)
Record cand := mkCand { c_key : string; c_prob : f64 }.

Record scan := mkScan { cands : list cand; probe : option cand; onProbation : list cand }.
#[export] Instance scan_eta : Eta scan := fun r => mkScan (cands r) (probe r) (onProbation r).

Definition better_probe (c : cand) (p : option cand) : bool :=
  match p with
  | None => true
  | Some p => (c_prob c >? c_prob p)%f64 || ((c_prob c =? c_prob p)%f64 && string_less (c_key c) (c_key p))
  end.

Definition scan_entry (m : MatrixPrefetcher) (total : Z) (a : scan) (e : string * Z) : scan :=
  let '(next, cnt) := e in
  if negb (bool_decide (next ∈ readOnly m)) then a else
  let c := mkCand next (f_of_int cnt / f_of_int total)%f64 in
  if demoted m next then a <| onProbation ::= fun l => l ++ [c] |>
  else if (c_prob c <? MinConf (cfg m))%f64 then
    if better_probe c (probe a) then a <| probe := Some c |> else a
  else a <| cands ::= fun l => l ++ [c] |>.

Definition scan_entries (m : MatrixPrefetcher) (total : Z) (es : list (string * Z)) : scan :=
  foldl (scan_entry m total) (mkScan [] None []) es.

(** Probability descending, key ascending on ties. *)
Definition cand_less : cand -> cand -> bool := ranked_less c_prob c_key.

(** The demoted candidate whose turn it is, on every [ProbationInterval]-th
    eligible plan [n] of the table. *)
Definition probation_turn (c : Config) (n : Z) (l : list cand) : option cand :=
  let interval := ProbationInterval c in
  if (0 <? interval) && (0 <? Z.of_nat (length l)) && (0 <? TopK c) && (n mod interval =? 0)
  then go_sort cand_less l !! Z.to_nat (u64 (n / interval - 1) mod Z.of_nat (length l))
  else None.

Definition assembly (c : Config) (key : string) (p : bool) (loc : string) : PrefetchTask :=
  mkTask "slice-assembly" key (BaseCost c) p loc.

(** The loop over the healthy candidates, from [tasks] and [cost]. *)
Fixpoint fill (c : Config) (topK : Z) (cs : list cand) (tasks : list PrefetchTask) (cost : Z) :
    list PrefetchTask * Z :=
  match cs with
  | [] => (tasks, cost)
  | x :: cs =>
      if topK <=? Z.of_nat (length tasks) then (tasks, cost)
      else if MaxCost c <? cost +! BaseCost c then (tasks, cost)
      else fill c topK cs (tasks ++ [assembly c (c_key x) false ""]) (cost +! BaseCost c)
  end.

(** The escape probe: an empty plan bets on the best rare candidate with
    probability [Epsilon]. *)
Definition escape (c : Config) (rare : option cand) (tasks : list PrefetchTask) (r : R) : list PrefetchTask * R :=
  match tasks, rare with
  | [], Some p =>
      if (0 <? TopK c) && (Epsilon c >? f0)%f64 then
        let '(x, r) := rnd_Float64 r in
        ((if (x <? Epsilon c)%f64 && (BaseCost c <=? MaxCost c)
          then [assembly c (c_key p) true LocalityLocal] else []), r)
      else ([], r)
  | _, _ => (tasks, r)
  end.

(** The tasks of a plan from its scan, and the random source afterwards. *)
Definition choose (c : Config) (n : Z) (a : scan) (r : R) : list PrefetchTask * R :=
  let probation := probation_turn c n (onProbation a) in
  let topK := if probation is Some _ then TopK c -! 1 else TopK c in
  let '(tasks, cost) := fill c topK (go_sort cand_less (cands a)) [] 0 in
  let tasks := match probation with
               | Some p => if cost +! BaseCost c <=? MaxCost c
                           then tasks ++ [assembly c (c_key p) true ""] else tasks
               | None => tasks
               end in
  escape c (probe a) tasks r.

(** [Plan] for one iteration order [es] of the transitions of the last tool. *)
Definition plan_on (es : list (string * Z)) (last : string) (m : MatrixPrefetcher) :
    list PrefetchTask * MatrixPrefetcher :=
  let total := default 0 (counts m !! last) in
  if (total =? 0) || (Z.of_nat (length es) =? 0) then ([], recordProposal last [] m) else
  let n := u64 (default 0 (plans m !! last) + 1) in
  let m := m <| plans ::= <[last := n]> |> in
  let '(tasks, r) := choose (cfg m) n (scan_entries m total es) (rnd m) in
  (tasks, recordProposal last tasks (m <| rnd := r |>)).

Definition transitions (m : MatrixPrefetcher) (last : string) : list (string * Z) :=
  map_to_list (default ∅ (bigrams m !! last)).

Definition Plan (names : list string) : st MatrixPrefetcher (list PrefetchTask) := fun m =>
  match list.last names with
  | None => (Ok [], m)
  | Some last => let '(tasks, m) := plan_on (transitions m last) last m in (Ok tasks, m)
  end.

Definition PlanWithLoad (names : list string) (hint : LoadHint) : st MatrixPrefetcher PlanDecision := fun m =>
  let reason := Gate.EvaluateLoad hint (MaxLoad (cfg m)) in
  if negb (reason =? "")%string then (Ok (mkDecision [] reason), m <| gate ::= Gate.observe reason |>)
  else
    (let! tasks := Plan names in
     let reason := Gate.planned_reason tasks in
     st_modify (fun m => m <| gate ::= Gate.observe reason |>) ;!
     st_ret (mkDecision tasks reason)) m.

Definition GateStats (m : MatrixPrefetcher) : Gate.GateStats := Gate.snapshot (gate m).

(** Feedback: the sample decays the posterior, then counts one. *)
Definition ObserveHit (key : string) (m : MatrixPrefetcher) : MatrixPrefetcher :=
  let d := (f1 - Decay (cfg m))%f64 in
  m <| hitW := <[key := (d * weight (hitW m) key + f1)%f64]> (hitW m) |>
    <| wasteW := <[key := (d * weight (wasteW m) key)%f64]> (wasteW m) |>
    <| hitCount ::= bump key |>
    <| totalHits ::= fun n => n +! 1 |>.

Definition ObserveWaste (key : string) (m : MatrixPrefetcher) : MatrixPrefetcher :=
  let d := (f1 - Decay (cfg m))%f64 in
  m <| wasteW := <[key := (d * weight (wasteW m) key + f1)%f64]> (wasteW m) |>
    <| hitW := <[key := (d * weight (hitW m) key)%f64]> (hitW m) |>
    <| wasteCount ::= bump key |>
    <| totalWastes ::= fun n => n +! 1 |>.

(** ** Statistics *)

Record Stats := mkStats {
  Transitions : Z;
  Pairs : gmap string Z;
  TopNext : gmap string Z;
  ReadOnlyCalls : Z;
  CoveredCalls : Z;
  Coverage : f64;
  TotalHits : Z;
  TotalWastes : Z;
  Accuracy : f64;
  HitRate : gmap string f64;
  Alpha : gmap string f64;
  Beta : gmap string f64;
  LowerBound : gmap string f64;
  Hits : gmap string Z;
  Wastes : gmap string Z;
}.

Definition countsTotal (m : MatrixPrefetcher) : Z :=
  foldl (fun t kv => t +! kv.2) 0 (map_to_list (counts m)).

(** The key ["prev" ++ arrow ++ "next"], in UTF-8.  Where two pairs give one key
    (a name that itself holds the arrow) Go keeps the one it meets last, in no
    particular order; here it is the last of the entries. *)
Definition arrow : string := bytes_string [226; 134; 146].

Definition cloneNested (src : gmap string (gmap string Z)) : gmap string Z :=
  foldl (fun dst p => foldl (fun dst e => <[p.1 +:+ arrow +:+ e.1 := e.2]> dst) dst (map_to_list p.2))
    ∅ (map_to_list src).

Definition stats (m : MatrixPrefetcher) : Stats :=
  let row (f : f64 -> f64 -> option f64) := map_imap (fun key hw => f hw (weight (wasteW m) key)) (hitW m) in
  mkStats (countsTotal m) (counts m) (cloneNested (bigrams m)) (readOnlyCalls m) (coveredCalls m)
    (if 0 <? readOnlyCalls m then (f_of_int (coveredCalls m) / f_of_int (readOnlyCalls m))%f64 else f0)
    (totalHits m) (totalWastes m)
    (if 0 <? totalHits m +! totalWastes m
     then (f_of_int (totalHits m) / f_of_int (totalHits m +! totalWastes m))%f64 else f0)
    (row (fun hw ww => Some (posteriorMean hw ww)))
    (row (fun hw _ => Some (hw + betaPrior)%f64))
    (row (fun _ ww => Some (ww + betaPrior)%f64))
    (row (fun hw ww => let n := (hw + ww)%f64 in
                       if (n >? f0)%f64 then Some (wilsonLower (posteriorMean hw ww) n) else None))
    (hitCount m) (wasteCount m).

(** ** The scan *)

Definition mk_cand (total : Z) (e : string * Z) : cand := mkCand e.1 (f_of_int e.2 / f_of_int total)%f64.

(** The lanes an entry falls into. *)
Definition on_probation (m : MatrixPrefetcher) (e : string * Z) : bool :=
  bool_decide (e.1 ∈ readOnly m) && demoted m e.1.
Definition too_rare (m : MatrixPrefetcher) (total : Z) (e : string * Z) : bool :=
  bool_decide (e.1 ∈ readOnly m) && negb (demoted m e.1) && (c_prob (mk_cand total e) <? MinConf (cfg m))%f64.
Definition healthy (m : MatrixPrefetcher) (total : Z) (e : string * Z) : bool :=
  bool_decide (e.1 ∈ readOnly m) && negb (demoted m e.1)
  && negb (c_prob (mk_cand total e) <? MinConf (cfg m))%f64.

Definition lane (p : string * Z -> bool) (total : Z) (es : list (string * Z)) : list cand :=
  map (mk_cand total) (List.filter p es).

Lemma better_probe_less c p : better_probe c (Some p) = cand_less c p.
Proof.
  unfold better_probe, cand_less, ranked_less. destruct (c_prob c =? c_prob p)%f64 eqn:E; simpl.
  - by rewrite (feqb_not_lt _ _ E).
  - by destruct (_ <? _)%f64.
Qed.

Lemma head_sort_insert {A} (less : A -> A -> bool) x l :
  head (sort_insert less x l) = Some (match head l with Some y => if less x y then x else y | None => x end).
Proof. destruct l as [|y l]; simpl; [done|]. by destruct (less x y). Qed.

(** The probe kept by the scan is the first of the sorted rare candidates. *)
Lemma probe_step x l :
  (if better_probe x (head (go_sort cand_less l)) then Some x else head (go_sort cand_less l))
  = head (go_sort cand_less (l ++ [x])).
Proof.
  unfold go_sort. rewrite foldl_app. simpl. rewrite head_sort_insert.
  destruct (head _) as [y|]; [|done]. rewrite better_probe_less. by destruct (cand_less x y).
Qed.

Lemma scan_entries_app m total es e :
  scan_entries m total (es ++ [e]) = scan_entry m total (scan_entries m total es) e.
Proof. unfold scan_entries. by rewrite foldl_app. Qed.

Lemma lane_app p total es e :
  lane p total (es ++ [e]) = lane p total es ++ (if p e then [mk_cand total e] else []).
Proof. unfold lane. rewrite List.filter_app, map_app. simpl. by destruct (p e). Qed.

Lemma scan_spec m total es :
  scan_entries m total es
  = mkScan (lane (healthy m total) total es)
      (head (go_sort cand_less (lane (too_rare m total) total es)))
      (lane (on_probation m) total es).
Proof.
  induction es as [|e es IH] using rev_ind; [done|].
  rewrite scan_entries_app, IH, !lane_app. unfold scan_entry, healthy, too_rare, on_probation.
  destruct e as [next cnt]. simpl.
  destruct (bool_decide (next ∈ readOnly m)) eqn:Er; simpl; [|by rewrite !app_nil_r].
  destruct (demoted m next) eqn:Ed; simpl; [by rewrite !app_nil_r|].
  destruct (_ <? MinConf (cfg m))%f64 eqn:El; simpl; rewrite !app_nil_r; [|done].
  rewrite <- probe_step. unfold mk_cand. simpl. by destruct (better_probe _ _).
Qed.

Lemma elem_of_lane p total es c :
  c ∈ lane p total es <-> exists e, e ∈ es /\ p e = true /\ c = mk_cand total e.
Proof.
  unfold lane. rewrite list_elem_of_In, in_map_iff. setoid_rewrite List.filter_In.
  setoid_rewrite <- list_elem_of_In. naive_solver.
Qed.

Lemma lane_perm p total es es' : es ≡ₚ es' -> lane p total es ≡ₚ lane p total es'.
Proof.
  unfold lane. intros H. apply Permutation_map. clear -H.
  induction H as [|x l l' H IH|x y l|]; simpl; [done|by destruct (p x); rewrite ?IH| |by etrans].
  destruct (p x), (p y); try done. apply Permutation_swap.
Qed.

Lemma lane_keys p total es : map c_key (lane p total es) = map fst (List.filter p es).
Proof. unfold lane. by rewrite map_map. Qed.

Lemma filter_keys_NoDup (p : string * Z -> bool) es : NoDup (map fst es) -> NoDup (map fst (List.filter p es)).
Proof.
  induction es as [|e es IH]; simpl; [done|]. intros [Hn Hd]%NoDup_cons.
  destruct (p e); simpl; [|auto]. apply NoDup_cons. split; [|auto].
  intros Hin. apply Hn. apply list_elem_of_In, in_map_iff in Hin as (e' & <- & Hin).
  apply list_elem_of_In, in_map. by apply List.filter_In in Hin as [? _].
Qed.

(** ** Histories *)

Inductive event :=
| EvObserve (prev next : string) (ro : bool)
| EvPlan (names : list string)
| EvPlanWithLoad (names : list string) (hint : LoadHint)
| EvHit (key : string)
| EvWaste (key : string)
| EvEvolve (minConf : f64)
| EvEpsilon (epsilon : f64).

Definition step (m : MatrixPrefetcher) (e : event) : MatrixPrefetcher :=
  match e with
  | EvObserve prev next ro => Observe prev next ro m
  | EvPlan names => (Plan names m).2
  | EvPlanWithLoad names hint => (PlanWithLoad names hint m).2
  | EvHit key => ObserveHit key m
  | EvWaste key => ObserveWaste key m
  | EvEvolve x => (ApplyEvolution x m).2
  | EvEpsilon x => (SetEpsilon x m).2
  end.

Definition run (c : Config) (r : R) (evs : list event) : MatrixPrefetcher :=
  foldl step (NewMatrixPrefetcher c r) evs.

(** *** What planning leaves alone *)

(** The learned part of the state. *)
Definition learned (m : MatrixPrefetcher) :=
  (cfg m, bigrams m, counts m, readOnly m, (hitW m, wasteW m, hitCount m, wasteCount m),
   (totalHits m, totalWastes m, readOnlyCalls m, coveredCalls m)).

Lemma plan_on_learned es last m : learned (plan_on es last m).2 = learned m.
Proof.
  unfold plan_on. destruct (_ || _); [done|]. destruct (choose _ _ _ _) as [tasks r]. done.
Qed.

Lemma Plan_ok names m : exists tasks m', Plan names m = (Ok tasks, m') /\ learned m' = learned m.
Proof.
  unfold Plan. destruct (list.last names) as [last|]; [|by eauto].
  pose proof (plan_on_learned (transitions m last) last m) as H.
  destruct (plan_on _ _ _) as [tasks m']. by exists tasks, m'.
Qed.

Lemma PlanWithLoad_ok names hint m :
  exists d m', PlanWithLoad names hint m = (Ok d, m') /\ learned m' = learned m.
Proof.
  unfold PlanWithLoad. destruct (negb _); [by eauto|]. unfold st_bind.
  destruct (Plan_ok names m) as (tasks & m' & -> & H). by eauto.
Qed.

Lemma learned_fields m m' :
  learned m' = learned m ->
  (cfg m' = cfg m /\ bigrams m' = bigrams m /\ counts m' = counts m /\ readOnly m' = readOnly m)
  /\ (hitW m' = hitW m /\ wasteW m' = wasteW m)
  /\ (totalHits m' = totalHits m /\ totalWastes m' = totalWastes m
      /\ readOnlyCalls m' = readOnlyCalls m /\ coveredCalls m' = coveredCalls m).
Proof. unfold learned. intros H. simplify_eq. tauto. Qed.

Lemma run_app c r evs e : run c r (evs ++ [e]) = step (run c r evs) e.
Proof. unfold run. by rewrite foldl_app. Qed.

(** *** Configuration *)

Definition sane (c : Config) : Prop := 0 < TopK c /\ 0 < MaxCost c /\ 0 < BaseCost c /\ 0 <= ProbationInterval c.

(** The knobs that evolution does not touch. *)
Definition fixed (c : Config) := (TopK c, MaxCost c, BaseCost c, WasteHitLimit c, Decay c, MaxLoad c, ProbationInterval c).

Lemma step_fixed m e : fixed (cfg (step m e)) = fixed (cfg m).
Proof.
  destruct e; simpl.
  - unfold Observe. destruct (_ || _); [done|]. destruct ro; [|done]. by destruct (_ && _).
  - destruct (Plan_ok names m) as (? & m' & -> & H). simpl. apply learned_fields in H as ((-> & _) & _). done.
  - destruct (PlanWithLoad_ok names hint m) as (? & m' & -> & H). simpl. apply learned_fields in H as ((-> & _) & _). done.
  - done.
  - done.
  - unfold ApplyEvolution. by destruct (_ || _).
  - unfold SetEpsilon. destruct (_ || _); [done|]. by destruct (_ || _).
Qed.

Lemma run_fixed c r evs : fixed (cfg (run c r evs)) = fixed (cfg (NewMatrixPrefetcher c r)).
Proof. induction evs as [|e evs IH] using rev_ind; [done|]. by rewrite run_app, step_fixed. Qed.

Lemma New_sane c r : sane (cfg (NewMatrixPrefetcher c r)).
Proof.
  unfold NewMatrixPrefetcher, sane. simpl.
  destruct (Z.leb_spec (TopK c) 0), (Z.leb_spec (MaxCost c) 0), (Z.leb_spec (BaseCost c) 0),
    (Z.eqb_spec (ProbationInterval c) 0); simpl; try destruct (Z.ltb_spec (ProbationInterval c) 0); lia.
Qed.

Lemma fixed_sane c c' : fixed c' = fixed c -> sane c -> sane c'.
Proof. unfold fixed, sane. intros H. injection H. lia. Qed.

Lemma run_sane c r evs : sane (cfg (run c r evs)).
Proof. eapply fixed_sane; [apply run_fixed|apply New_sane]. Qed.

(** *** What was observed *)

(** Every transition and read-only mark comes from an observation; the counts of
    a table add up and are bounded by the number of observations. *)
Record observed (evs : list event) (m : MatrixPrefetcher) : Prop := {
  ob_pair : forall last tbl k n, bigrams m !! last = Some tbl -> tbl !! k = Some n ->
    k <> ""%string /\ 1 <= n /\ exists ro, EvObserve last k ro ∈ evs;
  ob_total : forall last tbl, bigrams m !! last = Some tbl ->
    default 0 (counts m !! last) = map_fold (fun _ n acc => n + acc) 0 tbl;
  ob_none : forall last, bigrams m !! last = None -> counts m !! last = None;
  ob_readOnly : forall k, k ∈ readOnly m -> exists prev, EvObserve prev k true ∈ evs;
  ob_bound : forall last, 0 <= default 0 (counts m !! last) <= Z.of_nat (length evs);
}.

Lemma map_fold_sum_insert (tbl : gmap string Z) k v :
  map_fold (fun _ n acc => n + acc) 0 (<[k := v]> tbl)
  = map_fold (fun _ n acc => n + acc) 0 tbl - default 0 (tbl !! k) + v.
Proof.
  destruct (tbl !! k) as [w|] eqn:E; simpl.
  - rewrite <- insert_delete_eq, map_fold_insert_L; [|intros; lia|apply lookup_delete_eq].
    rewrite <- (insert_delete_id tbl k w) at 2 by done.
    rewrite map_fold_insert_L; [lia|intros; lia|apply lookup_delete_eq].
  - rewrite map_fold_insert_L; [lia|intros; lia|done].
Qed.

(** A count never exceeds its table's total. *)
Lemma map_fold_sum_ge (tbl : gmap string Z) :
  (forall k n, tbl !! k = Some n -> 0 <= n) ->
  0 <= map_fold (fun _ n acc => n + acc) 0 tbl
  /\ forall k n, tbl !! k = Some n -> n <= map_fold (fun _ n acc => n + acc) 0 tbl.
Proof.
  induction tbl as [|k v tbl Hk IH] using map_ind; intros Hn.
  - rewrite map_fold_empty. split; [lia|]. intros k n. by rewrite lookup_empty.
  - rewrite map_fold_insert_L by (done || intros; lia). destruct IH as [H0 H1].
    { intros k' n' E. apply (Hn k'). rewrite lookup_insert_ne; [done|]. intros ->. congruence. }
    assert (0 <= v) by (apply (Hn k); apply lookup_insert_eq). split; [lia|].
    intros k' n'. rewrite lookup_insert. case_decide; [intros [= ->]; lia|]. intros E. specialize (H1 _ _ E). lia.
Qed.

(** What planning and feedback leave alone in the table. *)
Lemma observed_other evs e m m' :
  bigrams m' = bigrams m -> counts m' = counts m -> readOnly m' = readOnly m ->
  observed evs m -> observed (evs ++ [e]) m'.
Proof.
  intros Eb Ec Er [H1 H2 H3 H4 H5]. split; rewrite ?Eb, ?Ec, ?Er; try done.
  - intros last tbl k n Ht Hk. destruct (H1 last tbl k n Ht Hk) as (? & ? & ro & ?).
    split; [done|]. split; [done|]. exists ro. apply elem_of_app. by left.
  - intros k Hk. destruct (H4 k Hk) as [prev ?]. exists prev. apply elem_of_app. by left.
  - intros last. rewrite length_app. specialize (H5 last). simpl. lia.
Qed.

(** The table of a tool, empty when there is none. *)
Definition table (m : MatrixPrefetcher) (last : string) : gmap string Z := default ∅ (bigrams m !! last).

Lemma observed_table evs m last :
  observed evs m ->
  default 0 (counts m !! last) = map_fold (fun _ n acc => n + acc) 0 (table m last)
  /\ forall k n, table m last !! k = Some n ->
       k <> ""%string /\ 1 <= n <= default 0 (counts m !! last) /\ exists ro, EvObserve last k ro ∈ evs.
Proof.
  intros Hob. unfold table. destruct (bigrams m !! last) as [tbl|] eqn:E; simpl.
  - pose proof (ob_total _ _ Hob _ _ E) as Ht. split; [done|]. intros k n Hk.
    destruct (ob_pair _ _ Hob _ _ _ _ E Hk) as (? & ? & ?). split; [done|]. split; [|done]. rewrite Ht.
    split; [done|]. destruct (map_fold_sum_ge tbl) as [_ Hge]; [|by apply Hge with k].
    intros k' n' Ek. destruct (ob_pair _ _ Hob _ _ _ _ E Ek) as (_ & ? & _). lia.
  - rewrite (ob_none _ _ Hob _ E), map_fold_empty. split; [done|]. intros k n. by rewrite lookup_empty.
Qed.

Lemma bump_succ k x : 0 <= default 0 (x !! k) < 2 ^ 63 - 1 -> bump k x = <[k := default 0 (x !! k) + 1]> x.
Proof. intros H. unfold bump. f_equal. apply i64_succ; [unfold in_i64|]; lia. Qed.

Lemma observed_bump evs prev next ro m m' :
  Z.of_nat (length evs) < 2 ^ 63 - 1 -> next <> ""%string -> observed evs m ->
  bigrams m' = <[prev := bump next (table m prev)]> (bigrams m) ->
  counts m' = bump prev (counts m) ->
  (forall k, k ∈ readOnly m' -> k ∈ readOnly m \/ (k = next /\ ro = true)) ->
  observed (evs ++ [EvObserve prev next ro]) m'.
Proof.
  intros Hlen Hne Hob Eb Ec Hr.
  destruct (observed_table evs m prev Hob) as [Hsum Htbl].
  pose proof (ob_bound _ _ Hob prev) as Hbd.
  rewrite bump_succ in Ec by lia. rewrite bump_succ in Eb.
  2: { destruct (table m prev !! next) as [x|] eqn:E; simpl; [|lia]. destruct (Htbl _ _ E) as (_ & ? & _). lia. }
  split; rewrite ?Eb, ?Ec.
  - intros last tbl k x. rewrite lookup_insert. case_decide as El; [subst last; intros [= <-]|].
    + rewrite lookup_insert. case_decide as Ek; [subst k; intros [= <-]|].
      * split; [done|]. split; [|exists ro; apply elem_of_app; right; by left].
        destruct (table m prev !! next) as [y|] eqn:E; simpl; [|lia]. destruct (Htbl _ _ E) as (_ & ? & _). lia.
      * intros Hk. destruct (Htbl _ _ Hk) as (? & ? & ro' & ?). split; [done|]. split; [lia|].
        exists ro'. apply elem_of_app. by left.
    + intros E Hk. destruct (ob_pair _ _ Hob _ _ _ _ E Hk) as (? & ? & ro' & ?). split; [done|]. split; [done|].
      exists ro'. apply elem_of_app. by left.
  - intros last tbl. rewrite !lookup_insert. case_decide; [subst last; intros [= <-]|apply (ob_total _ _ Hob)].
    simpl. rewrite map_fold_sum_insert. lia.
  - intros last. rewrite !lookup_insert. case_decide; [done|apply (ob_none _ _ Hob)].
  - intros k Hk. destruct (Hr k Hk) as [Hk'|[-> ->]].
    + destruct (ob_readOnly _ _ Hob k Hk') as [p ?]. exists p. apply elem_of_app. by left.
    + exists prev. apply elem_of_app. right. by left.
  - intros last. rewrite lookup_insert, length_app. pose proof (ob_bound _ _ Hob last).
    case_decide; [subst last|]; simpl; lia.
Qed.

Lemma observed_Observe evs prev next ro m :
  Z.of_nat (length evs) < 2 ^ 63 - 1 -> observed evs m ->
  observed (evs ++ [EvObserve prev next ro]) (Observe prev next ro m).
Proof.
  intros Hlen Hob. unfold Observe.
  destruct (String.eqb_spec prev ""), (String.eqb_spec next ""); simpl; try by eapply observed_other.
  destruct ro; [destruct (_ && _)|]; eapply observed_bump; try done; simpl; set_solver.
Qed.

Lemma observed_step evs e m :
  Z.of_nat (length evs) < 2 ^ 63 - 1 -> observed evs m -> observed (evs ++ [e]) (step m e).
Proof.
  intros Hlen H. destruct e; simpl.
  - by apply observed_Observe.
  - destruct (Plan_ok names m) as (? & m' & -> & E). apply learned_fields in E as ((? & ? & ? & ?) & _).
    simpl. by apply (observed_other _ _ m).
  - destruct (PlanWithLoad_ok names hint m) as (? & m' & -> & E). apply learned_fields in E as ((? & ? & ? & ?) & _).
    simpl. by apply (observed_other _ _ m).
  - by apply (observed_other _ _ m).
  - by apply (observed_other _ _ m).
  - unfold ApplyEvolution. destruct (_ || _); by apply (observed_other _ _ m).
  - unfold SetEpsilon. destruct (_ || _); [|destruct (_ || _)]; by apply (observed_other _ _ m).
Qed.

Lemma run_observed c r evs : Z.of_nat (length evs) < 2 ^ 63 -> observed evs (run c r evs).
Proof.
  induction evs as [|e evs IH] using rev_ind; intros Hlen.
  - split; simpl; try done.
  - rewrite run_app. rewrite length_app in Hlen. simpl in Hlen. apply observed_step; [lia|apply IH; lia].
Qed.

(** The probabilities of a scan are proportions, so the ranking is total. *)
Lemma transitions_probs evs m last e :
  observed evs m -> Z.of_nat (length evs) < 2 ^ 63 -> e ∈ transitions m last ->
  in_unit (c_prob (mk_cand (default 0 (counts m !! last)) e)).
Proof.
  intros Hob Hlen He. destruct e as [k n]. apply elem_of_map_to_list in He.
  destruct (observed_table evs m last Hob) as [_ Ht]. destruct (Ht _ _ He) as (_ & Hn & _).
  pose proof (ob_bound _ _ Hob last). apply ratio_in_unit; simpl; lia.
Qed.

(** ** The tasks of a plan *)

Definition healthy_task (c : Config) (x : cand) : PrefetchTask := assembly c (c_key x) false "".

(** How many tasks of [BaseCost] fit. *)
Definition room (c : Config) (topK : Z) : nat := Z.to_nat (Z.min topK (MaxCost c / BaseCost c)).

Definition no_overflow (c : Config) : Prop := MaxCost c + BaseCost c < 2 ^ 63.

Lemma fill_spec_from c topK cs tasks :
  sane c -> no_overflow c -> BaseCost c * Z.of_nat (length tasks) <= MaxCost c ->
  let added := take (room c topK - length tasks) cs in
  fill c topK cs tasks (BaseCost c * Z.of_nat (length tasks))
  = (tasks ++ map (healthy_task c) added, BaseCost c * Z.of_nat (length tasks + length added)).
Proof.
  intros (HK & HM & HB & _) Hov. unfold no_overflow in Hov. revert tasks.
  induction cs as [|x cs IH]; intros tasks Hc; cbn [fill].
  { rewrite take_nil. simpl. by rewrite app_nil_r, Nat.add_0_r. }
  assert (Hd : BaseCost c * Z.of_nat (length tasks) + BaseCost c <= MaxCost c
               <-> Z.of_nat (length tasks) + 1 <= MaxCost c / BaseCost c).
  { split; [intros; apply Z.div_le_lower_bound; lia|intros H].
    pose proof (Z.mul_div_le (MaxCost c) (BaseCost c) HB). nia. }
  rewrite i64_id by (unfold in_i64; lia).
  destruct (Z.leb_spec topK (Z.of_nat (length tasks))).
  { replace (room c topK - length tasks)%nat with 0%nat by (unfold room; lia). simpl.
    by rewrite app_nil_r, Nat.add_0_r. }
  destruct (Z.ltb_spec (MaxCost c) (BaseCost c * Z.of_nat (length tasks) + BaseCost c)).
  { replace (room c topK - length tasks)%nat with 0%nat by (unfold room; lia). simpl.
    by rewrite app_nil_r, Nat.add_0_r. }
  assert (E : (room c topK - length tasks = S (room c topK - length (tasks ++ [assembly c (c_key x) false ""])))%nat)
    by (rewrite length_app; simpl; unfold room; lia).
  rewrite E. cbn [take map]. replace (BaseCost c * Z.of_nat (length tasks) + BaseCost c)
    with (BaseCost c * Z.of_nat (length (tasks ++ [assembly c (c_key x) false ""]))) by (rewrite length_app; simpl; lia).
  rewrite IH by (rewrite length_app; simpl; lia). rewrite <- app_assoc, length_app. simpl. f_equal. f_equal. lia.
Qed.

Lemma fill_spec c topK cs :
  sane c -> no_overflow c ->
  fill c topK cs [] 0
  = (map (healthy_task c) (take (room c topK) cs), BaseCost c * Z.of_nat (length (take (room c topK) cs))).
Proof.
  intros Hs Ho. pose proof (fill_spec_from c topK cs [] Hs Ho) as H. simpl in H.
  rewrite Z.mul_0_r, Nat.sub_0_r in H. apply H. destruct Hs. lia.
Qed.

(** The shape of a plan: a prefix of the ranked healthy candidates, then at most
    one probe. *)
Inductive extra (c : Config) (n : Z) (a : scan) (k : nat) : list PrefetchTask -> Prop :=
| extra_none : extra c n a k []
| extra_probation p :
    probation_turn c n (onProbation a) = Some p -> (Z.of_nat k < TopK c) ->
    extra c n a k [assembly c (c_key p) true ""]
| extra_escape p :
    k = 0%nat -> probe a = Some p -> extra c n a k [assembly c (c_key p) true LocalityLocal].

Lemma i64_pred_le z : 0 < z -> i64 (z - 1) <= z - 1.
Proof. intros. unfold i64. pose proof (Z.mod_le (z - 1 + 2 ^ 63) (2 ^ 64)). lia. Qed.

Lemma room_bound {A} c topK (l : list A) :
  sane c ->
  Z.of_nat (room c topK) <= Z.max 0 topK
  /\ BaseCost c * Z.of_nat (length (take (room c topK) l)) <= MaxCost c.
Proof.
  intros (_ & HM & HB & _). split; [unfold room; lia|].
  pose proof (Z.mul_div_le (MaxCost c) (BaseCost c) HB).
  assert (Z.of_nat (length (take (room c topK) l)) <= MaxCost c / BaseCost c).
  { rewrite length_take. unfold room. pose proof (Z.div_pos (MaxCost c) (BaseCost c)). lia. }
  nia.
Qed.

Lemma fixed_no_overflow c c' : fixed c' = fixed c -> no_overflow c -> no_overflow c'.
Proof. unfold fixed, no_overflow. intros H. injection H. lia. Qed.

(** What the shape says of the tasks [ts]. *)
Definition shaped (c : Config) (n : Z) (a : scan) (ts : list PrefetchTask) : Prop :=
  exists k x, ts = map (healthy_task c) (take k (go_sort cand_less (cands a))) ++ x
    /\ extra c n a (length (take k (go_sort cand_less (cands a)))) x
    /\ Z.of_nat k <= TopK c
    /\ BaseCost c * Z.of_nat (length (take k (go_sort cand_less (cands a))) + length x) <= MaxCost c.

Lemma shaped_nil c n a : sane c -> shaped c n a [].
Proof. intros (HK & HM & HB & HP). exists 0%nat, []. split; [done|]. split; [constructor|simpl; lia]. Qed.

Lemma escape_shape c n a k r :
  sane c -> Z.of_nat k <= TopK c ->
  BaseCost c * Z.of_nat (length (take k (go_sort cand_less (cands a)))) <= MaxCost c ->
  shaped c n a (escape c (probe a) (map (healthy_task c) (take k (go_sort cand_less (cands a)))) r).1.
Proof.
  intros Hs Hk Hc. unfold escape. destruct (take k _) as [|y l] eqn:El.
  - simpl. destruct (probe a) as [p|] eqn:Epr; [|by apply shaped_nil].
    destruct (_ && _); [|by apply shaped_nil]. destruct (rnd_Float64 r) as [y r']. simpl.
    destruct (_ && _) eqn:Eb; [|by apply shaped_nil]. go_bool. destruct Hs as (HK & HM & HB & HP).
    exists 0%nat, [assembly c (c_key p) true LocalityLocal]. split; [done|]. split; [by constructor|simpl; lia].
  - exists k, []. rewrite El, app_nil_r. split; [done|]. split; [constructor|]. simpl in *. lia.
Qed.

Lemma choose_shape c n a r : sane c -> no_overflow c -> shaped c n a (choose c n a r).1.
Proof.
  intros Hs Ho. destruct (id Hs) as (HK & HM & HB & HP). unfold choose.
  set (topK := match probation_turn c n (onProbation a) with Some _ => TopK c -! 1 | None => TopK c end).
  destruct (room_bound c topK (go_sort cand_less (cands a)) Hs) as [Hk Hc].
  pose proof (i64_pred_le (TopK c) HK).
  assert (Ht : topK <= TopK c) by (unfold topK; case_match; lia).
  rewrite fill_spec by done. set (chosen := take (room c topK) (go_sort cand_less (cands a))) in *.
  assert (Hesc := escape_shape c n a (room c topK) r Hs ltac:(lia) Hc). fold chosen in Hesc.
  destruct (probation_turn c n (onProbation a)) as [p|] eqn:Ep; [|exact Hesc].
  rewrite i64_id by (unfold in_i64, no_overflow in *; nia).
  destruct (Z.leb_spec (BaseCost c * Z.of_nat (length chosen) + BaseCost c) (MaxCost c)); [|exact Hesc].
  exists (room c topK), [assembly c (c_key p) true ""]. fold chosen. split; [by destruct (map _ chosen)|].
  split; [|simpl; lia]. constructor; [done|]. unfold chosen. rewrite length_take. unfold topK in *. lia.
Qed.

(** *** Properties of a shaped plan *)

Lemma probation_turn_in c n l p : probation_turn c n l = Some p -> p ∈ l.
Proof.
  unfold probation_turn. cbv zeta. destruct (_ && _ && _ && _); [|done].
  intros H%list_elem_of_lookup_2. by apply elem_of_go_sort in H.
Qed.

Lemma head_elem {A} (l : list A) x : head l = Some x -> x ∈ l.
Proof. destruct l; simpl; [done|]. intros [= ->]. by left. Qed.

Lemma elem_of_take_in {A} k (l : list A) x : x ∈ take k l -> x ∈ l.
Proof. intros H. eapply elem_of_prefix; [done|apply prefix_take]. Qed.

Section Shaped.
Context (m : MatrixPrefetcher) (total n : Z) (es : list (string * Z)) (ts : list PrefetchTask).
Hypothesis keys_distinct : NoDup (map fst es).
Hypothesis shape : shaped (cfg m) n (scan_entries m total es) ts.

Lemma shaped_task t :
  t ∈ ts ->
  Kind t = "slice-assembly"%string /\ Cost t = BaseCost (cfg m)
  /\ Key t ∈ map fst es /\ Key t ∈ readOnly m
  /\ (Probe t = false -> demoted m (Key t) = false /\ exists cnt, (Key t, cnt) ∈ es
        /\ fltb (f_of_int cnt / f_of_int total)%f64 (MinConf (cfg m)) = false).
Proof using shape.
  assert (Hlane : forall p x, (forall e, p e = true -> e.1 ∈ readOnly m) -> x ∈ lane p total es ->
    c_key x ∈ map fst es /\ c_key x ∈ readOnly m).
  { intros p x Hp (e & He & Hpe & ->)%elem_of_lane. simpl. split; [|auto]. apply list_elem_of_In, in_map. by apply list_elem_of_In. }
  destruct shape as (k & x & -> & Hx & _). rewrite scan_spec in *. simpl in *.
  rewrite elem_of_app, list_elem_of_In, in_map_iff. intros [(y & <- & Hy%list_elem_of_In)|Ht].
  - apply elem_of_take_in, elem_of_go_sort in Hy. split; [done|]. split; [done|].
    assert (Hin := Hlane (healthy m total) y). simpl. destruct Hin as [H1 H2]; [|done|].
    { intros e He. unfold healthy in He. go_bool. by apply bool_decide_eq_true in H. }
    split; [done|]. split; [done|]. intros _. apply elem_of_lane in Hy as ([k' cnt] & He & Hh & ->).
    unfold healthy in Hh. simpl in *. go_bool. split; [done|]. by exists cnt.
  - destruct Hx as [|p Hp _|p _ Hp]; [by apply not_elem_of_nil in Ht| |];
      apply list_elem_of_singleton in Ht as ->; simpl; (split; [done|split; [done|]]).
    + apply probation_turn_in in Hp. destruct (Hlane (on_probation m) p) as [? ?]; [|done|done].
      intros e He. unfold on_probation in He. go_bool. by apply bool_decide_eq_true in H.
    + apply head_elem in Hp. apply elem_of_go_sort in Hp. destruct (Hlane (too_rare m total) p) as [? ?]; [|done|done].
      intros e He. unfold too_rare in He. go_bool. by apply bool_decide_eq_true in H.
Qed.

Lemma shaped_bounds :
  sane (cfg m) ->
  Z.of_nat (length ts) <= TopK (cfg m) /\ BaseCost (cfg m) * Z.of_nat (length ts) <= MaxCost (cfg m).
Proof using shape.
  intros (HK & _). destruct shape as (k & x & -> & Hx & Hk & Hc). rewrite length_app, length_map. split; [|done].
  rewrite length_take in *. destruct Hx; simpl; lia.
Qed.

Lemma shaped_NoDup : NoDup (map Key ts).
Proof using keys_distinct shape.
  destruct shape as (k & x & -> & Hx & _). rewrite scan_spec in Hx. rewrite scan_spec. simpl in *.
  rewrite map_app, map_map. simpl. set (L := take k (go_sort cand_less (lane (healthy m total) total es))) in *.
  assert (HL : NoDup (map c_key L)).
  { unfold L. rewrite <- firstn_map. apply sublist_NoDup_take. rewrite go_sort_perm, lane_keys.
    by apply filter_keys_NoDup. }
  assert (Hfresh : forall key p, (forall e, p e = true -> demoted m e.1 = true) -> key ∈ map c_key (lane p total es) ->
    key ∉ map c_key L).
  { intros key p Hp Hk Hin. rewrite lane_keys in Hk. apply list_elem_of_In, in_map_iff in Hk as (e & <- & He).
    apply List.filter_In in He as [_ He%Hp].
    apply list_elem_of_In, in_map_iff in Hin as (y & Ey & Hy%list_elem_of_In).
    apply elem_of_take_in, elem_of_go_sort, elem_of_lane in Hy as (e' & _ & Hh & ->). simpl in Ey.
    unfold healthy in Hh. rewrite Ey, He in Hh. simpl in Hh. by rewrite andb_false_r in Hh. }
  apply NoDup_app. split; [done|]. destruct Hx as [|p Hp _|p E _]; simpl.
  - split; [set_solver|apply NoDup_nil_2].
  - split; [|apply NoDup_singleton]. intros key Hin Hk. apply list_elem_of_singleton in Hk as ->. revert Hin.
    apply Hfresh with (on_probation m).
    + intros e He. unfold on_probation in He. by go_bool.
    + apply list_elem_of_In, in_map, list_elem_of_In. by apply probation_turn_in in Hp.
  - destruct L; [|done]. split; [set_solver|apply NoDup_singleton].
Qed.

(** At most one task is a probe, and it is the last. *)
Lemma shaped_probe : List.filter Probe ts = [] \/ exists t, List.filter Probe ts = [t] /\ list.last ts = Some t.
Proof using shape.
  destruct shape as (k & x & -> & Hx & _). rewrite List.filter_app.
  assert (E : forall l, List.filter Probe (map (healthy_task (cfg m)) l) = []) by (intros l; by induction l).
  rewrite E. destruct Hx; simpl; [by left|right..]; eexists; split; try done; by rewrite last_snoc.
Qed.
End Shaped.

(** ** Theorems *)

Lemma transitions_NoDup m last : NoDup (map fst (transitions m last)).
Proof. apply NoDup_fst_map_to_list. Qed.

Lemma plan_on_tasks es last m :
  (plan_on es last m).1 = []
  \/ exists n r, (plan_on es last m).1 = (choose (cfg m) n (scan_entries m (default 0 (counts m !! last)) es) r).1.
Proof.
  unfold plan_on. destruct (_ || _); [by left|right].
  set (n := u64 _). exists n, (rnd m). simpl.
  change (scan_entries (m <| plans ::= _ |>)) with (scan_entries m). by destruct (choose _ _ _ _).
Qed.

Definition total_cost (ts : list PrefetchTask) : Z := foldr (fun t s => Cost t + s) 0 ts.

Lemma total_cost_eq b ts : (forall t, t ∈ ts -> Cost t = b) -> total_cost ts = b * Z.of_nat (length ts).
Proof.
  induction ts as [|t ts IH]; intros Hc; [simpl; lia|].
  change (total_cost (t :: ts)) with (Cost t + total_cost ts). rewrite (Hc t) by left.
  rewrite IH; [simpl length; lia|]. intros t' Ht. apply Hc. by right.
Qed.

Lemma run_shaped c r evs last m tasks :
  m = run c r evs -> no_overflow (cfg (NewMatrixPrefetcher c r)) ->
  (plan_on (transitions m last) last m).1 = tasks ->
  exists n, shaped (cfg m) n (scan_entries m (default 0 (counts m !! last)) (transitions m last)) tasks.
Proof.
  intros Hm Ho <-. assert (Hs : sane (cfg m)) by (subst; apply run_sane).
  assert (Ho' : no_overflow (cfg m)).
  { subst m. eapply fixed_no_overflow; [apply run_fixed|done]. }
  destruct (plan_on_tasks (transitions m last) last m) as [->|(n & r' & ->)].
  - exists 0. by apply shaped_nil.
  - exists n. by apply choose_shape.
Qed.

(** What the history says of the tasks of a plan. *)
Lemma Plan_tasks c r evs names last tasks m' :
  Z.of_nat (length evs) < 2 ^ 63 -> no_overflow (cfg (NewMatrixPrefetcher c r)) ->
  list.last names = Some last -> Plan names (run c r evs) = (Ok tasks, m') ->
  (exists n, shaped (cfg (run c r evs)) n
    (scan_entries (run c r evs) (default 0 (counts (run c r evs) !! last)) (transitions (run c r evs) last)) tasks)
  /\ NoDup (map Key tasks) /\ Z.of_nat (length tasks) <= TopK (cfg (run c r evs))
  /\ forall t, t ∈ tasks ->
       (exists ro, EvObserve last (Key t) ro ∈ evs) /\ (exists prev, EvObserve prev (Key t) true ∈ evs).
Proof.
  intros Hlen Ho Hlast Hplan. set (m := run c r evs) in *. pose proof (run_observed c r evs Hlen) as Hob. fold m in Hob.
  unfold Plan in Hplan. rewrite Hlast in Hplan.
  destruct (plan_on _ _ _) as [ts m1] eqn:E. simplify_eq.
  destruct (run_shaped c r evs last m tasks eq_refl Ho) as [n Hsh]; [by rewrite E|].
  split; [by exists n|]. split; [eapply shaped_NoDup; [apply transitions_NoDup|exact Hsh]|].
  destruct (shaped_bounds _ _ _ _ _ Hsh (run_sane c r evs)) as [? _]. split; [done|].
  intros t Ht. destruct (shaped_task _ _ _ _ _ Hsh t Ht) as (_ & _ & Hk & Hr & _).
  split; [|by apply (ob_readOnly _ _ Hob)].
  apply list_elem_of_In, in_map_iff in Hk as ([k x] & Ek & Hin%list_elem_of_In). simpl in Ek. subst k.
  apply elem_of_map_to_list in Hin. destruct (observed_table evs m last Hob) as [_ Htb].
  by destruct (Htb _ _ Hin) as (_ & _ & ?).
Qed.

Lemma PlanWithLoad_inv names hint m d m' :
  PlanWithLoad names hint m = (Ok d, m') -> Tasks d = [] \/ exists m1, Plan names m = (Ok (Tasks d), m1).
Proof.
  unfold PlanWithLoad. destruct (negb _); [intros [= <- _]; by left|]. unfold st_bind.
  destruct (Plan_ok names m) as (tasks & m1 & -> & _). intros [= <- _]. right. by exists m1.
Qed.

Lemma Plan_nil names m tasks m' : list.last names = None -> Plan names m = (Ok tasks, m') -> tasks = [].
Proof. unfold Plan. intros ->. by intros [= <- _]. Qed.

(** whatever was observed before, a plan proposes distinct tools, each seen to
    follow the last one and seen read-only, within the task and cost limits; a
    tool whose wasted prefetches demoted it, or that is rarer than [MinConf],
    appears only as the one probe at the end. *)
Theorem Plan_safe c r evs names last tasks m' :
  Z.of_nat (length evs) < 2 ^ 63 ->
  no_overflow (cfg (NewMatrixPrefetcher c r)) ->
  list.last names = Some last ->
  let m := run c r evs in
  Plan names m = (Ok tasks, m') ->
  NoDup (map Key tasks)
  /\ Z.of_nat (length tasks) <= TopK (cfg m) /\ total_cost tasks <= MaxCost (cfg m)
  /\ Forall (fun t =>
       (exists ro, EvObserve last (Key t) ro ∈ evs) /\ (exists prev, EvObserve prev (Key t) true ∈ evs)
       /\ (Probe t = false -> demoted m (Key t) = false /\ exists cnt, table m last !! Key t = Some cnt
             /\ fltb (f_of_int cnt / f_of_int (default 0 (counts m !! last)))%f64 (MinConf (cfg m)) = false)) tasks
  /\ (List.filter Probe tasks = [] \/ exists t, List.filter Probe tasks = [t] /\ list.last tasks = Some t).
Proof.
  intros Hlen Ho Hlast m Hplan.
  destruct (Plan_tasks c r evs names last tasks m' Hlen Ho Hlast Hplan) as ((n & Hsh) & Hnd & Hk & Ht).
  fold m in Hsh, Hk. destruct (shaped_bounds _ _ _ _ _ Hsh (run_sane c r evs)) as [_ Hc].
  pose proof (shaped_task _ _ _ _ _ Hsh) as Hst. split; [done|]. split; [done|]. split; [|split].
  - rewrite (total_cost_eq (BaseCost (cfg m))); [done|]. by intros t (_ & ? & _)%Hst.
  - apply Forall_forall. intros t Hin. destruct (Ht t Hin) as [H1 H2]. split; [done|]. split; [done|].
    intros Hf. destruct (Hst t Hin) as (_ & _ & _ & _ & Hp). destruct (Hp Hf) as (? & cnt & Hcnt & ?).
    split; [done|]. exists cnt. split; [|done]. by apply elem_of_map_to_list in Hcnt.
  - by eapply shaped_probe.
Qed.

(** *** Independence of the iteration order *)

Lemma choose_sorted c n a a' r :
  go_sort cand_less (cands a) = go_sort cand_less (cands a') -> probe a = probe a' ->
  go_sort cand_less (onProbation a) = go_sort cand_less (onProbation a') ->
  choose c n a r = choose c n a' r.
Proof.
  intros Hc Hp Ho. unfold choose. rewrite Hc, Hp. unfold probation_turn. rewrite Ho.
  by rewrite <- (go_sort_length cand_less (onProbation a)), Ho, go_sort_length.
Qed.

Lemma lane_sorted p total es es' :
  (forall e, e ∈ es -> is_nan (c_prob (mk_cand total e)) = false) ->
  NoDup (map fst es) -> es ≡ₚ es' ->
  go_sort cand_less (lane p total es) = go_sort cand_less (lane p total es').
Proof.
  intros Hn Hd Hp. apply ranked_sort_perm; [| |by apply lane_perm].
  - apply Forall_forall. intros c (e & He & _ & ->)%elem_of_lane. by apply Hn.
  - rewrite lane_keys. by apply filter_keys_NoDup.
Qed.

(** a plan does not depend on the order in which the transition map is
    iterated: Go randomises it, and every order gives the same tasks and the same
    next state. *)
Theorem plan_order c r evs last es :
  Z.of_nat (length evs) < 2 ^ 63 ->
  let m := run c r evs in
  es ≡ₚ transitions m last -> plan_on es last m = plan_on (transitions m last) last m.
Proof.
  intros Hlen m Hp. pose proof (run_observed c r evs Hlen) as Hob. fold m in Hob.
  set (total := default 0 (counts m !! last)).
  assert (Hn : forall e, e ∈ transitions m last -> is_nan (c_prob (mk_cand total e)) = false).
  { intros e He. eapply in_unit_not_nan, transitions_probs; done. }
  pose proof (transitions_NoDup m last) as Hd.
  assert (Hc : forall m2 k x, choose (cfg m2) k (scan_entries m2 total es) x
    = choose (cfg m2) k (scan_entries m2 total (transitions m last)) x).
  { intros m2 k x. apply choose_sorted; rewrite !scan_spec; cbn [cands probe onProbation];
      [symmetry|f_equal; symmetry|symmetry]; by apply lane_sorted. }
  unfold plan_on. fold total. rewrite Hp. destruct (_ || _); [done|]. cbv zeta. by rewrite Hc.
Qed.

(** *** Probation *)

(** The state after a run of plans, and how many of them follow the tool [last]. *)
Definition planned_all (calls : list (list string)) (m : MatrixPrefetcher) : MatrixPrefetcher :=
  foldl (fun m names => (Plan names m).2) m calls.

Definition plans_for (last : string) (calls : list (list string)) : nat :=
  length (filter (fun names => list.last names = Some last) calls).

Lemma learned_transitions m m' last : learned m' = learned m -> transitions m' last = transitions m last.
Proof. intros ((_ & E & _) & _)%learned_fields. unfold transitions. by rewrite E. Qed.

Lemma demoted_learned m m' k : learned m' = learned m -> demoted m' k = demoted m k.
Proof. intros ((E & _) & (E1 & E2) & _)%learned_fields. unfold demoted. by rewrite E, E1, E2. Qed.

Lemma lane_ext p q total es : (forall e, e ∈ es -> p e = q e) -> lane p total es = lane q total es.
Proof.
  intros H. unfold lane. f_equal. induction es as [|e es IH]; simpl; [done|].
  rewrite (H e) by left. rewrite IH; [done|]. intros e' He. apply H. by right.
Qed.

Lemma scan_learned m m' total es : learned m' = learned m -> scan_entries m' total es = scan_entries m total es.
Proof.
  intros E. pose proof E as ((Ec & _ & _ & Er) & _)%learned_fields. rewrite !scan_spec.
  assert (Hd : forall k, demoted m' k = demoted m k) by (intros; by apply demoted_learned).
  rewrite (lane_ext (healthy m' total) (healthy m total)), (lane_ext (too_rare m' total) (too_rare m total)),
    (lane_ext (on_probation m') (on_probation m)); [done|..];
    intros; unfold healthy, too_rare, on_probation; by rewrite ?Ec, Er, Hd.
Qed.

Lemma planned_all_learned calls m : learned (planned_all calls m) = learned m.
Proof.
  revert m. induction calls as [|names calls IH]; intros m; [done|]. cbn [planned_all foldl].
  change (foldl _ ?x calls) with (planned_all calls x). rewrite IH. by destruct (Plan_ok names m) as (tasks & m' & -> & E).
Qed.

Lemma plan_on_counter es last m :
  default 0 (counts m !! last) <> 0 -> es <> [] ->
  default 0 (plans (plan_on es last m).2 !! last) = u64 (default 0 (plans m !! last) + 1).
Proof.
  intros Hc He. unfold plan_on. rewrite (proj2 (Z.eqb_neq _ _) Hc).
  destruct es as [|e es]; [done|]. simpl. destruct (choose _ _ _ _) as [ts r]. simpl. by rewrite lookup_insert_eq.
Qed.

(** Plans for another tool leave the count. *)
Lemma Plan_other_counter names last m : list.last names <> Some last -> plans (Plan names m).2 !! last = plans m !! last.
Proof.
  intros Hne. unfold Plan. destruct (list.last names) as [l|]; [|done]. unfold plan_on. destruct (_ || _); [done|].
  cbv zeta. destruct (choose _ _ _ _) as [ts r]. simpl. apply lookup_insert_ne. congruence.
Qed.

Lemma planned_all_counter calls last m :
  default 0 (counts m !! last) <> 0 -> transitions m last <> [] ->
  0 <= default 0 (plans m !! last) -> default 0 (plans m !! last) + Z.of_nat (plans_for last calls) < 2 ^ 64 ->
  default 0 (plans (planned_all calls m) !! last) = default 0 (plans m !! last) + Z.of_nat (plans_for last calls).
Proof.
  revert m. induction calls as [|names calls IH]; intros m Hc Ht Hn Hj; [unfold plans_for; simpl; lia|].
  cbn [planned_all foldl]. change (foldl _ ?x calls) with (planned_all calls x).
  destruct (Plan_ok names m) as (tasks & m' & Hp & E). assert (E2 : (Plan names m).2 = m') by (by rewrite Hp). rewrite E2.
  assert (Hc' : default 0 (counts m' !! last) <> 0) by (apply learned_fields in E as ((_ & _ & -> & _) & _); done).
  assert (Ht' : transitions m' last <> []) by (by rewrite (learned_transitions m)).
  unfold plans_for in *. destruct (decide (list.last names = Some last)) as [Hl|Hl].
  - rewrite filter_cons_True in Hj |- * by done. cbn [length] in *.
    assert (Hpl : default 0 (plans m' !! last) = default 0 (plans m !! last) + 1).
    { rewrite <- E2. unfold Plan. rewrite Hl. pose proof (plan_on_counter (transitions m last) last m Hc Ht) as Hco.
      destruct (plan_on _ _ _) as [ts m1]. cbn [snd] in *. rewrite Hco. apply u64_id. unfold in_u64. lia. }
    rewrite IH; [lia|done|done|lia|lia].
  - rewrite filter_cons_False in Hj |- * by done.
    assert (Hpl : plans m' !! last = plans m !! last) by (rewrite <- E2; by apply Plan_other_counter).
    rewrite IH; rewrite ?Hpl; done.
Qed.

(** The tasks of the next plan for [last]. *)
Lemma planned_eq calls names last m :
  list.last names = Some last ->
  default 0 (counts m !! last) <> 0 -> transitions m last <> [] ->
  0 <= default 0 (plans m !! last) -> default 0 (plans m !! last) + Z.of_nat (plans_for last calls) + 1 < 2 ^ 64 ->
  exists r m', Plan names (planned_all calls m)
    = (Ok (choose (cfg m) (default 0 (plans m !! last) + Z.of_nat (plans_for last calls) + 1)
         (scan_entries m (default 0 (counts m !! last)) (transitions m last)) r).1, m').
Proof.
  intros Hl Hc Ht Hn Hj. pose proof (planned_all_learned calls m) as E.
  pose proof (planned_all_counter calls last m Hc Ht Hn ltac:(lia)) as Hp. set (m' := planned_all calls m) in *.
  pose proof E as ((Ecfg & _ & Ecnt & _) & _)%learned_fields.
  unfold Plan. rewrite Hl, (learned_transitions m m') by done. unfold plan_on. rewrite Ecnt, Hp, (proj2 (Z.eqb_neq _ _) Hc).
  rewrite u64_id by (unfold in_u64; lia).
  destruct (transitions m last) as [|e es] eqn:Et; [done|]. simpl. exists (rnd m').
  rewrite (scan_learned m); [|exact E]. rewrite Ecfg. destruct (choose _ _ _ _). by eexists.
Qed.

(** The [j+1]-th plan for a tool among more of them. *)
Lemma nth_plan last calls j : (j < plans_for last calls)%nat ->
  exists pre names post, calls = pre ++ names :: post /\ list.last names = Some last /\ plans_for last pre = j.
Proof.
  unfold plans_for. revert j. induction calls as [|names calls IH]; intros j Hj; [simpl in Hj; lia|].
  destruct (decide (list.last names = Some last)) as [Hl|Hl].
  - rewrite filter_cons_True in Hj by done. destruct j as [|j]; [by exists [], names, calls|].
    destruct (IH j ltac:(simpl in Hj; lia)) as (pre & n & post & -> & Hn & <-). exists (names :: pre), n, post.
    split; [done|]. split; [done|]. by rewrite filter_cons_True.
  - rewrite filter_cons_False in Hj by done. destruct (IH j Hj) as (pre & n & post & -> & Hn & <-).
    exists (names :: pre), n, post. split; [done|]. split; [done|]. by rewrite filter_cons_False.
Qed.

(** A reserved slot is filled when every task fits. *)
Lemma choose_probation c n a r p :
  sane c -> no_overflow c -> TopK c * BaseCost c <= MaxCost c ->
  probation_turn c n (onProbation a) = Some p -> assembly c (c_key p) true "" ∈ (choose c n a r).1.
Proof.
  intros Hs Ho Hfit Hp. destruct (id Hs) as (HK & HM & HB & _). unfold choose. rewrite Hp.
  pose proof (i64_pred_le (TopK c) HK). rewrite fill_spec by done. set (chosen := take _ _).
  assert (Hl : Z.of_nat (length chosen) <= TopK c - 1) by (unfold chosen; rewrite length_take; unfold room; lia).
  rewrite i64_id by (unfold in_i64, no_overflow in *; nia).
  rewrite (proj2 (Z.leb_le _ _)) by nia. unfold escape. destruct (map _ chosen); simpl; set_solver.
Qed.

(** Every position of the rotation comes up within [interval * k] plans. *)
Lemma rotation n0 interval k idx :
  0 <= n0 -> 0 < interval -> 0 <= idx < k ->
  exists n, n0 < n <= n0 + interval * k /\ n mod interval = 0 /\ 0 <= n / interval - 1 <= n
    /\ (n / interval - 1) mod k = idx.
Proof.
  intros Hn Hi Hk. set (q := n0 / interval + 1 + (idx - n0 / interval) mod k).
  pose proof (Z.div_pos n0 interval Hn Hi). pose proof (Z.mod_pos_bound (idx - n0 / interval) k ltac:(lia)).
  pose proof (Z.div_mod n0 interval ltac:(lia)). pose proof (Z.mod_pos_bound n0 interval Hi).
  exists (interval * q).
  assert (Hq : interval * q / interval = q) by (rewrite Z.mul_comm; apply Z.div_mul; lia).
  split; [unfold q in *; nia|]. split; [rewrite Z.mul_comm; apply Z.mod_mul; lia|]. rewrite Hq.
  split; [unfold q in *; nia|]. unfold q.
  replace (n0 / interval + 1 + (idx - n0 / interval) mod k - 1)
    with (n0 / interval + (idx - n0 / interval) mod k) by lia.
  rewrite Z.add_mod_idemp_r by lia. replace (n0 / interval + (idx - n0 / interval)) with idx by lia.
  apply Z.mod_small. lia.
Qed.

(** C24: demotion is not an absorbing state of planning.  In any run of plans, for
    whatever tools, with no observation in between, as long as every task of a plan
    fits the cost limit: a demoted read-only successor of [last] is proposed as a
    probe by one of the first plans for [last], at most [ProbationInterval] times
    the number of demoted successors, however many healthy candidates compete with
    it.  (An observation in between can change who is demoted, and so the
    rotation.) *)
Theorem probation_fair m last e calls :
  sane (cfg m) -> no_overflow (cfg m) -> TopK (cfg m) * BaseCost (cfg m) <= MaxCost (cfg m) ->
  0 < ProbationInterval (cfg m) ->
  default 0 (counts m !! last) <> 0 -> e ∈ transitions m last -> on_probation m e = true ->
  let k := Z.of_nat (length (List.filter (on_probation m) (transitions m last))) in
  0 <= default 0 (plans m !! last) ->
  default 0 (plans m !! last) + ProbationInterval (cfg m) * k < 2 ^ 64 ->
  ProbationInterval (cfg m) * k <= Z.of_nat (plans_for last calls) ->
  exists pre names post tasks m',
    calls = pre ++ names :: post /\ list.last names = Some last
    /\ Z.of_nat (plans_for last pre) < ProbationInterval (cfg m) * k
    /\ Plan names (planned_all pre m) = (Ok tasks, m')
    /\ assembly (cfg m) e.1 true "" ∈ tasks.
Proof.
  intros Hs Ho Hfit Hi Hc He Hpr k Hn Hw Hcalls. set (total := default 0 (counts m !! last)).
  set (L := lane (on_probation m) total (transitions m last)).
  assert (Hk : k = Z.of_nat (length L)) by (unfold k, L, lane; by rewrite length_map).
  assert (Hin : mk_cand total e ∈ go_sort cand_less L).
  { apply elem_of_go_sort, elem_of_lane. by exists e. }
  apply list_elem_of_lookup in Hin as [idx Hidx].
  pose proof (lookup_lt_Some _ _ _ Hidx) as Hlt. rewrite go_sort_length in Hlt.
  destruct (rotation (default 0 (plans m !! last)) (ProbationInterval (cfg m)) k (Z.of_nat idx))
    as (n & Hr & Hm & Hq & Hmod); [lia..|].
  destruct (nth_plan last calls (Z.to_nat (n - default 0 (plans m !! last) - 1))) as (pre & names & post & -> & Hl & Hpre); [lia|].
  destruct (planned_eq pre names last m) as (r & m' & Hp); [done|done|by intros E; rewrite E in He; apply not_elem_of_nil in He|done|lia|].
  eexists pre, names, post, _, m'. split; [done|]. split; [done|]. split; [lia|]. split; [exact Hp|].
  rewrite Hpre. replace (default 0 (plans m !! last) + Z.of_nat (Z.to_nat (n - default 0 (plans m !! last) - 1)) + 1) with n by lia.
  apply (choose_probation (cfg m) n _ r (mk_cand total e)); [done..|].
  rewrite scan_spec. cbn [onProbation]. fold total L. unfold probation_turn. cbv zeta.
  destruct Hs as (HK & _).
  rewrite (proj2 (Z.ltb_lt 0 (ProbationInterval (cfg m)))), (proj2 (Z.ltb_lt 0 (Z.of_nat (length L)))),
    (proj2 (Z.ltb_lt 0 (TopK (cfg m)))), (proj2 (Z.eqb_eq (n mod _) 0)) by lia. simpl.
  rewrite u64_id by (unfold in_u64; lia). by rewrite <- Hk, Hmod, Nat2Z.id.
Qed.

(** *** Feedback and statistics *)

(** The largest value a sum of ones reaches. *)
Definition top : f64 := f_of_int (2 ^ 53).
Definition small (x : f64) : Prop := num x = true /\ fleb x top = true.

Lemma small_fval x : small x -> (fval x <= fval top)%Q.
Proof. intros [? ?]. by apply fval_le. Qed.

Lemma small_decay d x : in_unit d -> small x -> small (d * x)%f64.
Proof.
  intros Hd [Hn Hx]. pose proof (in_unit_fval d Hd). pose proof (small_fval x (conj Hn Hx)).
  pose proof (fval_nonneg x).
  destruct (Rounds_bounded _ _ top (Rounds_fmul d x (proj1 Hd) Hn)) as (? & _ & ?); [done|nra|done].
Qed.

(** Past 2^53 adding one changes nothing. *)
Lemma small_succ x : small x -> small (x + f1)%f64.
Proof.
  intros [Hn Hx]. pose proof (small_fval x (conj Hn Hx)).
  assert (Ht : num top = true) by done. assert (H1 : num f1 = true) by done.
  pose proof (Rounds_fadd x f1 Hn H1) as Hr.
  assert (Hle : fleb (x + f1)%f64 (top + f1)%f64 = true).
  { eapply Rounds_le; [exact Hr|by apply Rounds_fadd|lra]. }
  assert (E : (top + f1)%f64 = top) by (vm_compute; reflexivity). rewrite E in Hle.
  split; [|done]. destruct (Rounds_num _ _ Hr) as [Ei|?]; [|done]. rewrite Ei in Hle. by vm_compute in Hle.
Qed.

Lemma small_add x y : small x -> small y -> num (x + y)%f64 = true /\ fleb x (x + y)%f64 = true.
Proof.
  intros [Hx Lx] [Hy Ly]. pose proof (small_fval x (conj Hx Lx)). pose proof (small_fval y (conj Hy Ly)).
  pose proof (fval_nonneg y). pose proof (Rounds_fadd x y Hx Hy) as Hr. split.
  - assert (Ht : num (top + top)%f64 = true) by (vm_compute; reflexivity).
    assert (E : (fval (top + top)%f64 == fval top + fval top)%Q) by (vm_compute; reflexivity).
    destruct (Rounds_bounded _ _ (top + top)%f64 Hr Ht) as [? _]; [rewrite E; lra|done].
  - eapply Rounds_le; [by apply Rounds_fval|exact Hr|lra].
Qed.

(** The posterior mean of two bounded weights is a probability. *)
Lemma posterior_in_unit hw ww : small hw -> small ww -> in_unit (posteriorMean hw ww).
Proof.
  intros Hh Hw. destruct (small_succ hw Hh) as [Hn _]. destruct (small_add hw ww Hh Hw) as [Hs Hle].
  unfold posteriorMean, betaPrior. assert (E2 : (f_of_int 2 * f1)%f64 = f_of_int 2) by (vm_compute; reflexivity).
  rewrite E2. set (t := f_of_int 2). assert (H2 : num t = true) by done.
  pose proof (fval_le _ _ (proj1 Hh) Hs Hle) as Hv.
  assert (Hd : num (hw + ww + t)%f64 = true).
  { destruct Hh as [Hh Lh], Hw as [Hw Lw].
    assert (Hb : fleb (hw + ww)%f64 (top + top)%f64 = true).
    { pose proof (small_fval hw (conj Hh Lh)). pose proof (small_fval ww (conj Hw Lw)).
      eapply Rounds_le; [by apply Rounds_fadd|by apply Rounds_fadd|lra]. }
    assert (Hb' : fleb (hw + ww + t)%f64 (top + top + t)%f64 = true).
    { eapply Rounds_le; [by apply Rounds_fadd|by apply Rounds_fadd|].
      apply Qplus_le_compat; [|apply Qle_refl]. by apply fval_le. }
    destruct (Rounds_num _ _ (Rounds_fadd (hw + ww)%f64 t Hs H2)) as [Ei|?]; [|done].
    rewrite Ei in Hb'. by vm_compute in Hb'. }
  assert (Hc : fleb (hw + f1)%f64 (hw + ww + t)%f64 = true).
  { eapply Rounds_le; [apply Rounds_fadd; [apply Hh|done]|by apply Rounds_fadd|].
    assert (fval f1 <= fval t)%Q by (by vm_compute). lra. }
  pose proof (fval_le _ _ Hn Hd Hc). assert (1 <= fval (hw + f1)%f64)%Q.
  { rewrite <- fval_f1. apply fval_le; [done..|]. eapply Rounds_le; [by apply Rounds_fval|apply Rounds_fadd; [apply Hh|done]|].
    pose proof (fval_nonneg hw). lra. }
  eapply Rounds_in_unit; [apply Rounds_fdiv; [done|done|lra]|].
  apply Qle_shift_div_r; lra.
Qed.

Record feedback (evs : list event) (m : MatrixPrefetcher) : Prop := {
  fb_hit : forall key, small (weight (hitW m) key);
  fb_waste : forall key, small (weight (wasteW m) key);
  fb_covered : 0 <= coveredCalls m <= readOnlyCalls m;
  fb_calls : readOnlyCalls m <= Z.of_nat (length evs);
  fb_totals : 0 <= totalHits m /\ 0 <= totalWastes m /\ totalHits m + totalWastes m <= Z.of_nat (length evs);
}.

Lemma weight_insert x k v key : weight (<[k := v]> x) key = if decide (k = key) then v else weight x key.
Proof. unfold weight. rewrite lookup_insert. by case_decide. Qed.

Lemma feedback_Observe evs prev next ro m e :
  Z.of_nat (length evs) < 2 ^ 63 - 1 -> feedback evs m -> feedback (evs ++ [e]) (Observe prev next ro m).
Proof.
  intros Hlen [H1 H2 H3 H4 H5]. unfold Observe.
  assert (Hs : readOnlyCalls m +! 1 = readOnlyCalls m + 1 /\ coveredCalls m +! 1 = coveredCalls m + 1)
    by (split; apply i64_succ; unfold in_i64; lia).
  destruct Hs as [E1 E2].
  destruct (_ || _); [|destruct ro; [cbv zeta; destruct (_ && _)|]]; split; try done; simpl;
    rewrite ?length_app, ?E1, ?E2; simpl; lia.
Qed.

Lemma run_decay c r evs : Decay (cfg (run c r evs)) = Decay (cfg (NewMatrixPrefetcher c r)).
Proof. pose proof (run_fixed c r evs) as E. unfold fixed in E. by injection E. Qed.

Lemma feedback_step c r evs e :
  in_unit (Decay (cfg (NewMatrixPrefetcher c r))) ->
  Z.of_nat (length evs) < 2 ^ 63 - 1 -> feedback evs (run c r evs) -> feedback (evs ++ [e]) (run c r (evs ++ [e])).
Proof.
  intros Hdec Hlen Hf. rewrite run_app.
  assert (Hd : in_unit (f1 - Decay (cfg (run c r evs)))%f64) by (rewrite run_decay; by apply in_unit_complement).
  set (m := run c r evs) in *. destruct e; simpl.
  - by apply feedback_Observe.
  - destruct (Plan_ok names m) as (? & m' & -> & E). simpl.
    apply learned_fields in E as (_ & (Eh & Ew) & (Et & Es & Er & Ec)). destruct Hf as [H1 H2 H3 H4 H5].
    split; rewrite ?Eh, ?Ew, ?Et, ?Es, ?Er, ?Ec, ?length_app; simpl; done || lia.
  - destruct (PlanWithLoad_ok names hint m) as (? & m' & -> & E). simpl.
    apply learned_fields in E as (_ & (Eh & Ew) & (Et & Es & Er & Ec)). destruct Hf as [H1 H2 H3 H4 H5].
    split; rewrite ?Eh, ?Ew, ?Et, ?Es, ?Er, ?Ec, ?length_app; simpl; done || lia.
  - destruct Hf as [H1 H2 H3 H4 H5]. split; simpl; rewrite ?length_app; simpl; try lia.
    + intros k. rewrite weight_insert. case_decide; [|done]. by apply small_succ, small_decay.
    + intros k. rewrite weight_insert. case_decide; [|done]. by apply small_decay.
    + rewrite i64_succ by (unfold in_i64; lia). lia.
  - destruct Hf as [H1 H2 H3 H4 H5]. split; simpl; rewrite ?length_app; simpl; try lia.
    + intros k. rewrite weight_insert. case_decide; [|done]. by apply small_decay.
    + intros k. rewrite weight_insert. case_decide; [|done]. by apply small_succ, small_decay.
    + rewrite i64_succ by (unfold in_i64; lia). lia.
  - unfold ApplyEvolution. destruct (_ || _); destruct Hf as [H1 H2 H3 H4 H5];
      split; try done; simpl; rewrite ?length_app; simpl; lia.
  - unfold SetEpsilon. destruct (_ || _); [|destruct (_ || _)]; destruct Hf as [H1 H2 H3 H4 H5];
      split; try done; simpl; rewrite ?length_app; simpl; lia.
Qed.

Lemma run_feedback c r evs :
  in_unit (Decay (cfg (NewMatrixPrefetcher c r))) -> Z.of_nat (length evs) < 2 ^ 63 -> feedback evs (run c r evs).
Proof.
  intros Hd. induction evs as [|e evs IH] using rev_ind; intros Hlen.
  - split; simpl; try done; intros; unfold weight; rewrite lookup_empty; done.
  - rewrite length_app in Hlen. simpl in Hlen. apply feedback_step; [done|lia|apply IH; lia].
Qed.

(** the statistics are proportions.  After every history the coverage, the
    accuracy and each candidate's posterior mean lie between zero and one, rounding
    and saturation included, and the covered calls are among the read-only ones. *)
Theorem stats_proportions c r evs :
  in_unit (Decay (cfg (NewMatrixPrefetcher c r))) -> Z.of_nat (length evs) < 2 ^ 63 ->
  let s := stats (run c r evs) in
  0 <= CoveredCalls s <= ReadOnlyCalls s
  /\ in_unit (Coverage s) /\ in_unit (Accuracy s)
  /\ forall key x, HitRate s !! key = Some x -> in_unit x.
Proof.
  intros Hd Hlen s. destruct (run_feedback c r evs Hd Hlen) as [H1 H2 H3 H4 H5]. subst s.
  unfold stats. simpl. set (m := run c r evs) in *. split; [done|]. split; [|split].
  - destruct (Z.ltb_spec 0 (readOnlyCalls m)); [|apply in_unit_f0]. apply ratio_in_unit; lia.
  - assert (E : totalHits m +! totalWastes m = totalHits m + totalWastes m) by (apply i64_id; unfold in_i64; lia).
    rewrite E. destruct (Z.ltb_spec 0 (totalHits m + totalWastes m)); [|apply in_unit_f0]. apply ratio_in_unit; lia.
  - intros key x. rewrite map_lookup_imap. specialize (H1 key). unfold weight in H1.
    destruct (hitW m !! key) as [hw|]; simpl in *; [|done]. intros [= <-]. by apply posterior_in_unit.
Qed.
End Matrix.
End Matrix.

(** ** Examples *)

Module Sample.
Import Matrix.

(** A random source that always draws zero. *)
Definition rnd (n : nat) : f64 * nat := (f0, S n).

Definition zero_config : Config := mkConfig 0 f0 0 0 f0 f0 f0 f0 0.

Definition seen : list event :=
  [EvObserve "ls" "cat" true; EvObserve "ls" "cat" true; EvObserve "ls" "rm" false; EvObserve "cat" "ls" true].
Definition wasted : list event := seen ++ [EvWaste "cat"; EvWaste "cat"; EvWaste "cat"].

Definition m_seen : MatrixPrefetcher := run rnd zero_config 0%nat seen.
Definition m_wasted : MatrixPrefetcher := run rnd zero_config 0%nat wasted.

(** The read-only successor is proposed, the writer is not. *)
Example plan_cat : (plan_on rnd (transitions m_seen "ls") "ls" m_seen).1 = [mkTask "slice-assembly" "cat" 512 false ""].
Proof. vm_compute. reflexivity. Qed.

(** Three wasted prefetches demote, one hit restores. *)
Example demote_restore :
  demoted m_seen "cat" = false /\ demoted m_wasted "cat" = true
  /\ demoted (ObserveHit "cat" m_wasted) "cat" = false.
Proof. vm_compute. done. Qed.

(** The tenth plan probes the demoted tool. *)
Example tenth_probe :
  map (fun j => match (Plan rnd ["ls"] (planned_all rnd (repeat ["ls"] j) m_wasted)).1 with Ok tasks => map Probe tasks | Err _ => [] end) (seq 0 11)
  = [[]; []; []; []; []; []; []; []; []; [true]; []].
Proof. vm_compute. reflexivity. Qed.

(** Healthy candidates that use up [MaxCost] leave the reserved slot empty. *)
Definition tight : Config := mkConfig 3 (f_of_ratio 3 10) 1024 512 f0 f0 f0 f0 0.
Definition three : list event :=
  [EvObserve "ls" "cat" true; EvObserve "ls" "grep" true; EvObserve "ls" "find" true;
   EvWaste "find"; EvWaste "find"; EvWaste "find"].
Definition m_tight : MatrixPrefetcher := run rnd tight 0%nat three.
End Sample.

Section Examples.
Import Matrix Sample.

Lemma probation_turn_one c n p : probation_turn c n [p] = None \/ probation_turn c n [p] = Some p.
Proof.
  unfold probation_turn. cbv zeta. destruct (_ && _ && _ && _); [right|by left].
  change (Z.of_nat (length [p])) with 1. by rewrite Z.mod_1_r.
Qed.

Lemma tight_scan :
  scan_entries m_tight 3 (transitions m_tight "ls")
  = mkScan (cands (scan_entries m_tight 3 (transitions m_tight "ls"))) None
      [mkCand "find" (f_of_int 1 / f_of_int 3)%f64]
  /\ map c_key (go_sort cand_less (cands (scan_entries m_tight 3 (transitions m_tight "ls")))) = ["cat"; "grep"]%string.
Proof. vm_compute. done. Qed.

(** the slot reserved for probation is not reserved in the budget.  With three
    slots and a cost limit of two tasks, two healthy candidates keep a demoted one
    out of every plan, the plans whose turn it is included. *)
Theorem probation_starved calls :
  Z.of_nat (plans_for "ls" calls) + 1 < 2 ^ 64 ->
  on_probation m_tight ("find"%string, 1) = true /\ ("find"%string, 1) ∈ transitions m_tight "ls"
  /\ exists tasks m', Plan rnd ["ls"] (planned_all rnd calls m_tight) = (Ok tasks, m') /\ map Key tasks = ["cat"; "grep"]%string.
Proof.
  intros Hj. split; [vm_compute; done|]. split; [apply elem_of_map_to_list; vm_compute; done|].
  destruct (planned_eq rnd calls ["ls"%string] "ls" m_tight) as (r & m' & Hp);
    [done|vm_compute; done|vm_compute; done|vm_compute; done|change (default 0 (plans m_tight !! "ls"%string)) with 0; lia|].
  eexists _, m'. split; [exact Hp|].
  change (default 0 (counts m_tight !! "ls"%string)) with 3. destruct tight_scan as [-> Hk].
  set (l := cands _) in *. unfold choose. cbn [onProbation probe cands].
  assert (Hs : sane (cfg m_tight)) by apply run_sane.
  assert (Ho : no_overflow (cfg m_tight)) by (vm_compute; done).
  set (p := mkCand "find" _). rewrite fill_spec by done.
  assert (Hr : forall topK, 2 <= topK -> room (cfg m_tight) topK = 2%nat).
  { intros topK Ht. unfold room. change (MaxCost (cfg m_tight) / BaseCost (cfg m_tight)) with 2. lia. }
  assert (Hsorted : exists a b, go_sort cand_less l = [a; b] /\ c_key a = "cat"%string /\ c_key b = "grep"%string).
  { destruct (go_sort cand_less l) as [|a [|b [|]]]; try done. injection Hk as Ea Eb. by exists a, b. }
  destruct Hsorted as ([ka pa] & [kb pb] & -> & Ha & Hb). simpl in Ha, Hb. subst ka kb. rewrite Hr.
  - destruct (probation_turn_one (cfg m_tight) (default 0 (plans m_tight !! "ls"%string) + Z.of_nat (plans_for "ls" calls) + 1) p) as [-> | ->];
      vm_compute; done.
  - destruct (probation_turn_one (cfg m_tight) (default 0 (plans m_tight !! "ls"%string) + Z.of_nat (plans_for "ls" calls) + 1) p) as [-> | ->];
      vm_compute; done.
Qed.

Lemma probation_starved_witness :
  exists tasks m', Plan rnd ["ls"] (planned_all rnd (repeat ["ls"%string] 9) m_tight) = (Ok tasks, m') /\ map Key tasks = ["cat"; "grep"]%string.
Proof. exact (proj2 (proj2 (probation_starved (repeat ["ls"%string] 9) eq_refl))). Defined.

Lemma Plan_safe_witness :
  exists tasks m', Plan rnd ["ls"%string] (run rnd zero_config 0%nat seen) = (Ok tasks, m') /\ NoDup (map Key tasks).
Proof.
  destruct (Plan_ok rnd ["ls"%string] (run rnd zero_config 0%nat seen)) as (tasks & m' & E & _). exists tasks, m'. split; [exact E|].
  refine (proj1 (Plan_safe rnd zero_config 0%nat seen ["ls"%string] "ls" tasks m' _ _ _ E));
    [done|vm_compute; done|done].
Defined.

Lemma plan_order_witness :
  let m := run rnd zero_config 0%nat seen in
  plan_on rnd (rev (transitions m "ls")) "ls" m = plan_on rnd (transitions m "ls") "ls" m.
Proof.
  intros m. exact (plan_order rnd zero_config 0%nat seen "ls" (rev (transitions m "ls")) eq_refl
    (symmetry (Permutation_rev (transitions m "ls")))).
Defined.

Lemma probation_fair_witness :
  let m := run rnd zero_config 0%nat wasted in
  exists pre names post tasks m',
    repeat ["ls"%string] 100 = pre ++ names :: post /\ list.last names = Some "ls"%string
    /\ Z.of_nat (plans_for "ls" pre) < ProbationInterval (cfg m) * Z.of_nat (length (List.filter (on_probation m) (transitions m "ls")))
    /\ Plan rnd names (planned_all rnd pre m) = (Ok tasks, m') /\ assembly (cfg m) "cat" true "" ∈ tasks.
Proof.
  intros m. refine (probation_fair rnd m "ls" ("cat"%string, 2) (repeat ["ls"%string] 100) _ _ _ _ _ _ _ _ _ _);
    [apply run_sane|vm_compute; done|vm_compute; done|vm_compute; done|vm_compute; done
    |apply elem_of_map_to_list; vm_compute; done|vm_compute; done|vm_compute; done|vm_compute; done|vm_compute; done].
Defined.

Lemma stats_proportions_witness : in_unit (Accuracy (stats (run rnd zero_config 0%nat wasted))).
Proof.
  refine (proj1 (proj2 (proj2 (stats_proportions rnd zero_config 0%nat wasted _ _)))); [vm_compute; done|done].
Defined.
End Examples.
