(* ===== verification/Planner.v ===== *)
(** kernel/prefetch (planner.go, planfunc.go): the offline planner that learns
    tool bigrams from the slice library, and the adapters through which the
    scheduler calls a prefetcher.

    [Planner_spec] compares the learned matrix with a reference count of adjacent
    names; Module PlanFunc composes both planners with the scheduler of Sched.v. *)

From Stdlib Require Import ZArith Lia Bool Ascii String QArith Floats.SpecFloat.
From stdpp Require Import tactics base option list sorting gmap sets strings.
From S2P Require Import Prelude Float64 Rounding FloatBounds GoStrings Slice Sched Prefetch.

#[global] Open Scope Z_scope.

(** ** The bigram matrix *)

Record transitionMatrix := mkTM {
  tm_counts : gmap string (gmap string Z);
  tm_totals : gmap string Z;
}.
#[export] Instance transitionMatrix_eta : Eta transitionMatrix := fun r => mkTM (tm_counts r) (tm_totals r).

Definition newTransitionMatrix : transitionMatrix := mkTM ∅ ∅.

Definition incr (k : string) (x : gmap string Z) : gmap string Z := <[k := default 0 (x !! k) +! 1]> x.

Definition addPair (from to : string) (m : transitionMatrix) : transitionMatrix :=
  if (from =? "")%string || (to =? "")%string then m
  else m <| tm_counts ::= fun c => <[from := incr to (default ∅ (c !! from))]> c |>
         <| tm_totals ::= incr from |>.

Fixpoint addSeq (seq : list string) (m : transitionMatrix) : transitionMatrix :=
  match seq with
  | from :: ((to :: _) as rest) => addSeq rest (addPair from to m)
  | _ => m
  end.

Definition prob (m : transitionMatrix) (from to : string) : f64 :=
  let total := default 0 (tm_totals m !! from) in
  if total =? 0 then f0
  else (f_of_int (default 0 (default ∅ (tm_counts m !! from) !! to)) / f_of_int total)%f64.

Record candidate := mkCandidate { cd_Name : string; cd_Prob : f64 }.

Definition candidate_less : candidate -> candidate -> bool := ranked_less cd_Prob cd_Name.

(** The successors of [from], ranked; [es] is one iteration order of its table. *)
Definition next_on (m : transitionMatrix) (from : string) (es : list string) : list candidate :=
  go_sort candidate_less (map (fun to => mkCandidate to (prob m from to)) es).

Definition next (m : transitionMatrix) (from : string) : list candidate :=
  next_on m from (map fst (map_to_list (default ∅ (tm_counts m !! from)))).

(** ** The planner *)

Definition DefaultBudget : Z := 1000.
Definition DefaultMaxTasks : Z := 3.
Definition DefaultTaskCost : Z := 200.

Record Planner := mkPlanner {
  WhiteList : list string;
  Budget : Z;
  MaxTasks : Z;
  MaxLoad : f64;
  matrix : option transitionMatrix;
  gate : Gate.GateStats;
}.
#[export] Instance Planner_eta : Eta Planner := fun r =>
  mkPlanner (WhiteList r) (Budget r) (MaxTasks r) (MaxLoad r) (matrix r) (gate r).

(** [Learn]: the store is absent, or its [List(Project)] answers; entries may be
    nil. *)
Definition learn_step (m : transitionMatrix) (s : option Slice.Slice) : transitionMatrix :=
  match s with
  | Some s => if decide (SType s = ToolPattern) then addSeq (fields (Content s)) m else m
  | None => m
  end.

Definition Learn (store : option (result (list (option Slice.Slice)))) (p : Planner) : result unit * Planner :=
  match store with
  | None => (Err "prefetch: Planner.Store is required", p)
  | Some (Err e) => (Err ("prefetch: learn: list slices: " +:+ e), p)
  | Some (Ok patterns) => (Ok tt, p <| matrix := Some (foldl learn_step newTransitionMatrix patterns) |>)
  end.

Definition budget (p : Planner) : Z := if Budget p <=? 0 then DefaultBudget else Budget p.
Definition maxTasks (p : Planner) : Z := if MaxTasks p <=? 0 then DefaultMaxTasks else MaxTasks p.

(** The last non-blank name, trimmed. *)
Definition lastToolName (names : list string) : string :=
  match List.filter (fun n => negb (n =? "")%string) (map trim_space (rev names)) with
  | n :: _ => n
  | [] => ""
  end.

Definition whitelistSet (l : list string) : gset string :=
  list_to_set (List.filter (fun n => negb (n =? "")%string) (map trim_space l)).

Definition planner_task (name : string) : PrefetchTask :=
  mkTask "slice-assembly" name DefaultTaskCost false LocalityLocal.

(** The loop of [Plan]: [tasks] so far, [spent] their cost. *)
Fixpoint plan_loop (white : gset string) (budget maxTasks : Z) (cs : list candidate)
    (tasks : list PrefetchTask) (spent : Z) : list PrefetchTask :=
  match cs with
  | [] => tasks
  | c :: cs =>
      if negb (bool_decide (cd_Name c ∈ white)) then plan_loop white budget maxTasks cs tasks spent
      else if budget <? spent +! DefaultTaskCost then tasks
      else
        let tasks := tasks ++ [planner_task (cd_Name c)] in
        if maxTasks <=? Z.of_nat (length tasks) then tasks
        else plan_loop white budget maxTasks cs tasks (spent +! DefaultTaskCost)
  end.

Definition Plan (names : list string) (p : Planner) : list PrefetchTask :=
  match matrix p with
  | None => []
  | Some m =>
      let last := lastToolName names in
      if (last =? "")%string then []
      else let white := whitelistSet (WhiteList p) in
           if bool_decide (white = ∅) then []
           else plan_loop white (budget p) (maxTasks p) (next m last) [] 0
  end.

Definition PlanWithLoad (names : list string) (hint : LoadHint) (p : Planner) : PlanDecision * Planner :=
  let maxLoad := if (MaxLoad p <=? f0)%f64 || (MaxLoad p >? f1)%f64 then Gate.DefaultMaxLoad else MaxLoad p in
  let reason := Gate.EvaluateLoad hint maxLoad in
  if negb (reason =? "")%string then (mkDecision [] reason, p <| gate ::= Gate.observe reason |>)
  else
    let tasks := Plan names p in
    let reason := Gate.planned_reason tasks in
    (mkDecision tasks reason, p <| gate ::= Gate.observe reason |>).

(** ** The matrix counts adjacent names *)

(** How often [to] directly follows [from]. *)
Fixpoint follows (from to : string) (seq : list string) : Z :=
  match seq with
  | a :: ((b :: _) as rest) =>
      (if decide (a = from /\ b = to) then 1 else 0) + follows from to rest
  | _ => 0
  end.

(** How often anything follows [from]. *)
Fixpoint leaves (from : string) (seq : list string) : Z :=
  match seq with
  | a :: ((_ :: _) as rest) => (if decide (a = from) then 1 else 0) + leaves from rest
  | _ => 0
  end.

Definition patterns_of (l : list (option Slice.Slice)) : list (list string) :=
  omap (fun s => match s with
                 | Some s => if decide (SType s = ToolPattern) then Some (fields (Content s)) else None
                 | None => None
                 end) l.

Definition total_of (f : list string -> Z) (l : list (list string)) : Z := foldr (fun s acc => f s + acc) 0 l.

Definition count (m : transitionMatrix) (from to : string) : Z :=
  default 0 (default ∅ (tm_counts m !! from) !! to).
Definition total (m : transitionMatrix) (from : string) : Z := default 0 (tm_totals m !! from).

(** Every stored number is a 64-bit integer. *)
Definition wf (m : transitionMatrix) : Prop :=
  (forall from to, in_i64 (count m from to)) /\ (forall from, in_i64 (total m from)).

Lemma addPair_spec a b m from to :
  a <> ""%string -> b <> ""%string -> wf m ->
  count (addPair a b m) from to = i64 (count m from to + if decide (a = from /\ b = to) then 1 else 0)
  /\ total (addPair a b m) from = i64 (total m from + if decide (a = from) then 1 else 0).
Proof.
  intros Ha Hb [W1 W2]. unfold addPair. rewrite (proj2 (String.eqb_neq a "")), (proj2 (String.eqb_neq b "")) by done.
  unfold count, total in *. simpl. unfold incr. rewrite !lookup_insert. split.
  - destruct (decide (a = from)) as [<-|Hne]; simpl.
    + rewrite lookup_insert. destruct (decide (b = to)) as [<-|Hne].
      * by rewrite decide_True.
      * rewrite decide_False by naive_solver. rewrite Z.add_0_r. symmetry. apply i64_id, W1.
    + rewrite decide_False by naive_solver. rewrite Z.add_0_r. symmetry. apply i64_id, W1.
  - destruct (decide (a = from)) as [<-|Hne]; simpl; [done|].
    rewrite Z.add_0_r. symmetry. apply i64_id, W2.
Qed.

Lemma addPair_wf a b m : a <> ""%string -> b <> ""%string -> wf m -> wf (addPair a b m).
Proof.
  intros Ha Hb W. split; [intros from to|intros from];
    [destruct (addPair_spec a b m from to Ha Hb W) as [-> _]
    |destruct (addPair_spec a b m from "" Ha Hb W) as [_ ->]]; apply i64_range.
Qed.

Lemma addSeq_spec seq m from to :
  Forall (fun n => n <> ""%string) seq -> wf m ->
  wf (addSeq seq m)
  /\ count (addSeq seq m) from to = i64 (count m from to + follows from to seq)
  /\ total (addSeq seq m) from = i64 (total m from + leaves from seq).
Proof.
  revert m. induction seq as [|a [|b seq] IH]; intros m Hne W.
  1-2: cbn [addSeq follows leaves]; rewrite !Z.add_0_r; split; [done|];
    destruct W as [W1 W2]; by rewrite !i64_id.
  apply Forall_cons in Hne as [Ha Hne]. pose proof Hne as [Hb _]%Forall_cons.
  change (addSeq (a :: b :: seq) m) with (addSeq (b :: seq) (addPair a b m)).
  change (follows from to (a :: b :: seq))
    with ((if decide (a = from /\ b = to) then 1 else 0) + follows from to (b :: seq)).
  change (leaves from (a :: b :: seq)) with ((if decide (a = from) then 1 else 0) + leaves from (b :: seq)).
  destruct (addPair_spec a b m from to Ha Hb W) as [E1 E2].
  destruct (IH (addPair a b m) Hne (addPair_wf a b m Ha Hb W)) as (W' & -> & ->).
  split; [done|]. rewrite E1, E2, !i64_add_idemp. split; f_equal; lia.
Qed.

Lemma learn_step_spec s m from to :
  wf m ->
  wf (learn_step m s)
  /\ count (learn_step m s) from to = i64 (count m from to + total_of (follows from to) (patterns_of [s]))
  /\ total (learn_step m s) from = i64 (total m from + total_of (leaves from) (patterns_of [s])).
Proof.
  intros W. assert (Hid : wf m /\ count m from to = i64 (count m from to + 0) /\ total m from = i64 (total m from + 0)).
  { split; [done|]. destruct W. by rewrite !Z.add_0_r, !i64_id. }
  destruct s as [s|]; [|exact Hid]. simpl. destruct (decide (SType s = ToolPattern)); [|exact Hid].
  simpl. rewrite !Z.add_0_r. apply addSeq_spec; [|done]. apply Forall_forall. intros n. apply fields_nonempty.
Qed.

Lemma total_of_app f l1 l2 : total_of f (l1 ++ l2) = total_of f l1 + total_of f l2.
Proof. unfold total_of. induction l1 as [|x l1 IH]; simpl; [done|]. rewrite IH. lia. Qed.

Lemma learn_all_spec l m from to :
  wf m ->
  wf (foldl learn_step m l)
  /\ count (foldl learn_step m l) from to = i64 (count m from to + total_of (follows from to) (patterns_of l))
  /\ total (foldl learn_step m l) from = i64 (total m from + total_of (leaves from) (patterns_of l)).
Proof.
  revert m. induction l as [|s l IH]; intros m W; simpl foldl.
  - simpl. rewrite !Z.add_0_r. destruct W as [W1 W2]. by rewrite !i64_id.
  - destruct (learn_step_spec s m from to W) as (W' & E1 & E2).
    destruct (IH _ W') as (W2 & -> & ->). split; [done|]. rewrite E1, E2, !i64_add_idemp.
    replace (patterns_of (s :: l)) with (patterns_of [s] ++ patterns_of l).
    + rewrite !total_of_app. split; f_equal; lia.
    + unfold patterns_of. simpl. destruct s as [s|]; [|done]. by destruct (decide _).
Qed.

(** the learned matrix counts exactly the adjacent pairs of the stored tool
    patterns: whatever the store holds, nil entries and other slice types
    included, each counter is the number of occurrences (as a 64-bit integer), and
    learning twice gives the same matrix as learning once. *)
Theorem Learn_counts l p :
  exists m, Learn (Some (Ok l)) p = (Ok tt, p <| matrix := Some m |>)
  /\ (forall from to, count m from to = i64 (total_of (follows from to) (patterns_of l)))
  /\ (forall from, total m from = i64 (total_of (leaves from) (patterns_of l)))
  /\ Learn (Some (Ok l)) (Learn (Some (Ok l)) p).2 = Learn (Some (Ok l)) p.
Proof.
  exists (foldl learn_step newTransitionMatrix l).
  assert (W : wf newTransitionMatrix).
  { split; intros; unfold count, total; simpl; rewrite lookup_empty; simpl; rewrite ?lookup_empty; simpl; unfold in_i64; lia. }
  split; [done|]. split; [|split]; [intros from to|intros from|done].
  - destruct (learn_all_spec l _ from to W) as (_ & -> & _). done.
  - destruct (learn_all_spec l _ from "" W) as (_ & _ & ->). done.
Qed.

(** ** Planning *)

Lemma plan_loop_spec white budget maxTasks cs tasks :
  0 < maxTasks -> Z.of_nat (length tasks) < maxTasks ->
  0 <= DefaultTaskCost * Z.of_nat (length tasks) <= budget -> budget < 2 ^ 62 ->
  plan_loop white budget maxTasks cs tasks (DefaultTaskCost * Z.of_nat (length tasks))
  = tasks ++ map planner_task
      (take (Z.to_nat (Z.min maxTasks (budget / DefaultTaskCost)) - length tasks)
         (List.filter (fun n => bool_decide (n ∈ white)) (map cd_Name cs))).
Proof.
  intros Hm Hlt Hb Hov. revert tasks Hlt Hb. induction cs as [|c cs IH]; intros tasks Hlt Hb; cbn [plan_loop map List.filter].
  { by rewrite take_nil, app_nil_r. }
  destruct (bool_decide (cd_Name c ∈ white)); simpl negb; cbv iota; [|by apply IH].
  unfold DefaultTaskCost in *. rewrite i64_id by (unfold in_i64; lia).
  set (len := Z.of_nat (length tasks)) in *.
  destruct (Z.ltb_spec budget (200 * len + 200)) as [Hbig|Hfit].
  { assert (budget / 200 <= len) by (apply Z.lt_succ_r, Z.div_lt_upper_bound; lia).
    replace (Z.to_nat (Z.min maxTasks (budget / 200)) - length tasks)%nat with 0%nat by lia.
    by rewrite app_nil_r. }
  assert (Hd : len + 1 <= budget / 200) by (apply Z.div_le_lower_bound; lia).
  replace (Z.to_nat (Z.min maxTasks (budget / 200)) - length tasks)%nat
    with (S (Z.to_nat (Z.min maxTasks (budget / 200)) - length (tasks ++ [planner_task (cd_Name c)])))
    by (rewrite length_app; simpl; lia).
  assert (Hl : Z.of_nat (length (tasks ++ [planner_task (cd_Name c)])) = len + 1) by (rewrite length_app; simpl; lia).
  cbn [take map]. rewrite Hl.
  destruct (Z.leb_spec maxTasks (len + 1)).
  - replace (Z.to_nat (Z.min maxTasks (budget / 200)) - length (tasks ++ [planner_task (cd_Name c)]))%nat
      with 0%nat by lia. done.
  - replace (200 * len + 200) with (200 * Z.of_nat (length (tasks ++ [planner_task (cd_Name c)]))) by lia.
    rewrite IH by lia. by rewrite <- app_assoc.
Qed.

Lemma elem_of_whitelist n l : n ∈ whitelistSet l <-> n <> ""%string /\ exists w, w ∈ l /\ n = trim_space w.
Proof.
  unfold whitelistSet. rewrite elem_of_list_to_set, list_elem_of_In, List.filter_In, in_map_iff.
  setoid_rewrite <- list_elem_of_In. rewrite negb_true_iff, String.eqb_neq. naive_solver.
Qed.

(** a plan is a prefix of the ranked successors that are whitelisted.  The
    number of tasks is what the task limit and the budget allow; without a learned
    matrix, a usable name or a whitelist there is none. *)
Theorem Planner_spec names p m :
  budget p < 2 ^ 62 -> matrix p = Some m ->
  Plan names p =
    if (lastToolName names =? "")%string || forallb (fun w => trim_space w =? "")%string (WhiteList p) then []
    else map planner_task
      (take (Z.to_nat (Z.min (maxTasks p) (budget p / DefaultTaskCost)))
        (List.filter (fun n => bool_decide (n ∈ whitelistSet (WhiteList p)))
          (map cd_Name (next m (lastToolName names))))).
Proof.
  intros Hb Hm. unfold Plan. rewrite Hm.
  assert (Hmax : 0 < maxTasks p) by (unfold maxTasks, DefaultMaxTasks; destruct (Z.leb_spec (MaxTasks p) 0); lia).
  assert (Hbud : 0 < budget p) by (unfold budget, DefaultBudget; destruct (Z.leb_spec (Budget p) 0); lia).
  destruct (String.eqb_spec (lastToolName names) "") as [->|Hl]; [done|]. simpl orb.
  assert (Hw : bool_decide (whitelistSet (WhiteList p) = ∅) = forallb (fun w => trim_space w =? "")%string (WhiteList p)).
  { apply eq_true_iff_eq. rewrite bool_decide_eq_true, forallb_forall. split.
    - intros He w Hin. apply String.eqb_eq. destruct (decide (trim_space w = ""%string)) as [|Hne]; [done|].
      assert (trim_space w ∈ whitelistSet (WhiteList p)) as Hx; [|by rewrite He in Hx; apply elem_of_empty in Hx].
      apply elem_of_whitelist. split; [done|]. exists w. by rewrite list_elem_of_In.
    - intros Hall. apply set_eq. intros n. rewrite elem_of_whitelist. split; [|by intros ?%elem_of_empty].
      intros (Hn & w & Hin%list_elem_of_In & ->). by apply Hall, String.eqb_eq in Hin. }
  rewrite Hw. destruct (forallb _ _); [done|].
  pose proof (plan_loop_spec (whitelistSet (WhiteList p)) (budget p) (maxTasks p) (next m (lastToolName names)) []) as H.
  simpl in H. rewrite Z.mul_0_r, Nat.sub_0_r in H. apply H; lia.
Qed.

(** The ranking does not depend on the order the map is iterated in. *)
Lemma next_on_perm m from es es' :
  (forall to, to ∈ es -> is_nan (prob m from to) = false) -> NoDup es -> es ≡ₚ es' ->
  next_on m from es = next_on m from es'.
Proof.
  intros Hn Hd Hp. unfold next_on. apply ranked_sort_perm.
  - apply Forall_forall. intros c (to & <- & Hin)%list_elem_of_In%in_map_iff. apply Hn. by apply list_elem_of_In.
  - rewrite map_map. simpl. by rewrite map_id.
  - by apply Permutation_map.
Qed.

(** ** The scheduler's callbacks *)

Module PlanFunc.
Section PlanFunc.
Context {P : Type}.

(** A [Prefetcher] value: [Plan], and [PlanWithLoad] when it has one. *)
Record Prefetcher := mkPrefetcher {
  pf_Plan : list string -> st P (list PrefetchTask);
  pf_PlanWithLoad : option (list string -> LoadHint -> st P PlanDecision);
}.

Definition AsPlanFunc (p : option Prefetcher) (names : list string) (s : P) : list string * P :=
  match p with
  | None => ([], s)
  | Some p => match pf_Plan p names s with
              | (Ok tasks, s) => (map Key tasks, s)
              | (Err _, s) => ([], s)
              end
  end.

Definition millisecond : Z := 1000000.

Definition load_hint (h : Sched.PrefetchLoadHint) : LoadHint :=
  mkLoad (Sched.ConcurrencyUsed h) (Sched.ConcurrencyLimit h)
    (Sched.WaitWindowMS h *! millisecond) (Sched.TaskEstimateMS h *! millisecond).

(** A decision of either interface, or the error. *)
Definition decide_plan (p : Prefetcher) (names : list string) (h : Sched.PrefetchLoadHint) : st P PlanDecision :=
  match pf_PlanWithLoad p with
  | Some f => f names (load_hint h)
  | None => let! tasks := pf_Plan p names in
            st_ret (mkDecision tasks (Gate.planned_reason tasks))
  end.

Definition AsLoadAwarePlanFunc (p : option Prefetcher) (names : list string) (h : Sched.PrefetchLoadHint) (s : P) :
    Sched.PrefetchPlanResult * P :=
  match p with
  | None => (Sched.mkPlanResult [] [] ReasonNoCandidate, s)
  | Some p => match decide_plan p names h s with
              | (Err _, s) => (Sched.mkPlanResult [] [] ReasonPlanError, s)
              | (Ok d, s) => (Sched.mkPlanResult (map Key (Tasks d)) (map Key (List.filter Probe (Tasks d))) (Reason d), s)
              end
  end.
End PlanFunc.
Arguments Prefetcher P : clear implicits.

(** The two prefetchers behind the interface; only the matrix one is wired into
    the harness. *)
Definition matrix_prefetcher {R} (rnd : R -> f64 * R) : Prefetcher (Matrix.MatrixPrefetcher (R := R)) :=
  mkPrefetcher (Matrix.Plan rnd) (Some (Matrix.PlanWithLoad rnd)).

Definition planner_prefetcher : Prefetcher Planner :=
  mkPrefetcher (fun names p => (Ok (Plan names p), p))
    (Some (fun names h p => let '(d, p) := PlanWithLoad names h p in (Ok d, p))).

(** *** The matrix prefetcher in the scheduler *)

Section Compose.
Context `{UnicodeLower} {R : Type} (rnd : R -> f64 * R).

(** the composition of scheduler and prefetcher.  When the round decider asks
    the matrix prefetcher, after any history, every tool it prefetches was observed
    read-only and observed to follow the round's last active call, none twice and
    at most [TopK]; the probes it reports are among them, and the prefetcher's new
    state is the one the history continues with. *)
Theorem round_prefetches_safe c r evs input (d : RuleDecider) plan d' :
  Z.of_nat (length evs) < 2 ^ 63 ->
  Matrix.no_overflow (Matrix.cfg (Matrix.NewMatrixPrefetcher c r)) ->
  loadPrefetchFn d = Some (AsLoadAwarePlanFunc (Some (matrix_prefetcher rnd))) ->
  planner d = Matrix.run rnd c r evs ->
  DecideRound input d = (Ok plan, d') ->
  NoDup (PrefetchIDs plan)
  /\ Z.of_nat (length (PrefetchIDs plan)) <= Matrix.TopK (Matrix.cfg (planner d))
  /\ Forall (fun k => exists last prev ro, list.last (toolNames (active_calls input)) = Some last
       /\ Matrix.EvObserve last k ro ∈ evs /\ Matrix.EvObserve prev k true ∈ evs) (PrefetchIDs plan)
  /\ PrefetchProbeIDs plan ⊆ PrefetchIDs plan
  /\ exists hint, planner d' = Matrix.run rnd c r (evs ++ [Matrix.EvPlanWithLoad (toolNames (active_calls input)) hint]).
Proof.
  intros Hlen Ho Hfn Hpl Hd.
  destruct (DecideRound_prefetch input d _ plan d' Hfn Hd) as (hint & Hstate & Hids). cbv zeta in *.
  set (names := toolNames (active_calls input)) in *. rewrite Hpl in *. set (m := Matrix.run rnd c r evs) in *.
  destruct (Matrix.PlanWithLoad_ok rnd names (load_hint hint) m) as (dec & m' & Hpw & _).
  unfold AsLoadAwarePlanFunc, decide_plan in Hstate, Hids. simpl in Hstate, Hids. rewrite Hpw in Hstate, Hids. simpl in *.
  assert (Hst : exists h, planner d' = Matrix.run rnd c r (evs ++ [Matrix.EvPlanWithLoad names h])).
  { exists (load_hint hint). rewrite Matrix.run_app. simpl. fold m. by rewrite Hpw. }
  destruct (Matrix.run_sane rnd c r evs) as (HK & _). fold m in HK.
  destruct Hids as [[-> ->]|[-> ->]].
  { split; [apply NoDup_nil_2|]. split; [simpl; lia|]. split; [constructor|]. split; [set_solver|done]. }
  assert (Hsub : map Key (List.filter Probe (Tasks dec)) ⊆ map Key (Tasks dec)).
  { intros k. rewrite !list_elem_of_In, !in_map_iff. setoid_rewrite List.filter_In. naive_solver. }
  assert (Hnil : Tasks dec = [] \/ exists m1 last, list.last names = Some last /\ Matrix.Plan rnd names m = (Ok (Tasks dec), m1)).
  { destruct (Matrix.PlanWithLoad_inv _ _ _ _ _ _ Hpw) as [|[m1 Hp]]; [by left|].
    destruct (list.last names) as [last|] eqn:El; [right; by exists m1, last|left; by eapply Matrix.Plan_nil]. }
  destruct Hnil as [->|(m1 & last & El & Hp)].
  { split; [apply NoDup_nil_2|]. split; [simpl; lia|]. split; [constructor|]. split; [set_solver|done]. }
  destruct (Matrix.Plan_tasks rnd c r evs names last (Tasks dec) m1 Hlen Ho El Hp) as (_ & Hnd & Hk & Ht).
  split; [done|]. split; [by rewrite length_map|]. split; [|done].
  apply Forall_forall. intros k (t & <- & Hin%list_elem_of_In)%list_elem_of_In%in_map_iff.
  destruct (Ht t Hin) as [[ro H1] [prev H2]]. by exists last, prev, ro.
Qed.
End Compose.
End PlanFunc.

(** ** Examples *)

Module PlannerSample.
#[export] Instance lower : UnicodeLower := fun r => r.

Definition pattern (s : string) : option Slice.Slice :=
  Some (mkSlice "p" ToolPattern Project s None zero_stats f1 zero_meta 0).

Definition library : list (option Slice.Slice) := [pattern "ls cat rm ls cat"; None; pattern "ls grep"]%string.
Definition p0 : Planner := mkPlanner [" cat "; "grep"; ""]%string 0 0 f0 None (Gate.mkGate 0 0 0 0).
Definition p1 : Planner := (Learn (Some (Ok library)) p0).2.

Example plan_ls : map Key (Plan ["rm"; "ls"; " "]%string p1) = ["cat"; "grep"]%string.
Proof. vm_compute. reflexivity. Qed.

Definition round : RoundInput :=
  mkInput "query" [mkCall "1" "ls" true] [] f0 0 [] (mkBudget f0 f0 "") (mkHint 0 0 0 0).
Definition decider (evs : list Matrix.event) : RuleDecider :=
  SetLoadAwarePrefetchPlanFunc (Some (PlanFunc.AsLoadAwarePlanFunc (Some (PlanFunc.matrix_prefetcher Sample.rnd))))
    (NewRuleDecider Sched.Defaults (Matrix.run Sample.rnd Sample.zero_config 0%nat evs)).
End PlannerSample.

Section PlannerExamples.
Import PlannerSample.

Lemma Planner_spec_witness :
  exists m, matrix p1 = Some m /\
  Plan ["ls"%string] p1 = map planner_task
    (take 3 (List.filter (fun n => bool_decide (n ∈ whitelistSet (WhiteList p1))) (map cd_Name (next m "ls")))).
Proof.
  exists (foldl learn_step newTransitionMatrix library). split; [done|].
  exact (Planner_spec ["ls"%string] p1 _ eq_refl eq_refl).
Defined.

Lemma round_prefetches_safe_witness :
  exists plan d', DecideRound round (decider Sample.seen) = (Ok plan, d') /\ NoDup (PrefetchIDs plan).
Proof.
  destruct (DecideRound round (decider Sample.seen)) as [[plan|e] d'] eqn:E.
  - exists plan, d'. split; [done|].
    refine (proj1 (PlanFunc.round_prefetches_safe Sample.rnd Sample.zero_config 0%nat Sample.seen round _ plan d' _ _ _ _ E));
      [done|vm_compute; done|done|done].
  - exfalso. assert (H : is_ok (DecideRound round (decider Sample.seen)).1 = true) by (vm_compute; done).
    rewrite E in H. done.
Defined.
End PlannerExamples.
