(* ===== verification/PrefetchRun.v ===== *)
(** kernel/prefetch (runner.go): executing a plan.

    The slice store, the executor, the index, the embedder, the file system and
    SHA-256 are parameters; the runner's decisions - what runs, what is stored,
    what is only warmed - are the definitions.  Error texts carry keys unquoted. *)

From Stdlib Require Import ZArith Lia Bool Ascii String Floats.SpecFloat.
From stdpp Require Import tactics base option list sorting gmap strings.
From S2P Require Import Prelude Float64 GoStrings GoPath Slice Sched Prefetch Planner.

#[global] Open Scope Z_scope.

Definition scope_number (s : Scope) : Z :=
  match s with Session => 0 | Project => 1 | User => 2 | UnknownScope n => n end.

Section Runner.
(** [put] of the store and [execute] of the executor over their states; [sha] is
    the hexadecimal SHA-256. *)
Context {S E : Type}.
Context (put : Slice.Slice -> S -> result unit * S) (execute : PrefetchTask -> E -> result string * E).
Context (sha : string -> string).

Record Runner := mkRunner {
  r_Store : option S;
  r_Executor : option E;
  r_Scope : Scope;
  BlockedEgress : Z;
  WarmKinds : option (gmap string bool);
}.
#[export] Instance Runner_eta : Eta Runner := fun r =>
  mkRunner (r_Store r) (r_Executor r) (r_Scope r) (BlockedEgress r) (WarmKinds r).

Inductive run_error :=
| ErrExecute (kind key e : string)
| ErrStore (key e : string).

(** The first eight bytes of the hash of type, scope and content, in hexadecimal. *)
Definition resultSliceID (content : string) (scope : Scope) : string :=
  String.substring 0 16 (sha (bytes_string [3; scope_number scope mod 256] +:+ content)).

Definition result_slice (scope : Scope) (key content : string) : Slice.Slice :=
  mkSlice (resultSliceID content scope) Result scope content None zero_stats f1
    (zero_meta <| SourceSession := "prefetch:" +:+ key |> <| MetaOrigin := OriginPrefetch |>) 0.

(** The loop's variables. *)
Record progress := mkProgress {
  p_store : S;
  p_exec : E;
  p_blocked : Z;
  p_ids : list string;
  p_errs : list run_error;
}.
#[export] Instance progress_eta : Eta progress := fun r =>
  mkProgress (p_store r) (p_exec r) (p_blocked r) (p_ids r) (p_errs r).

Definition is_local (t : PrefetchTask) : bool := (Locality t =? LocalityLocal)%string.

Definition run_task (warm : gmap string bool) (scope : Scope) (p : progress) (t : PrefetchTask) : progress :=
  if negb (is_local t) then p <| p_blocked ::= fun n => n +! 1 |> else
  let '(res, e) := execute t (p_exec p) in
  let p := p <| p_exec := e |> in
  match res with
  | Err err => p <| p_errs ::= fun l => l ++ [ErrExecute (Kind t) (Key t) err] |>
  | Ok content =>
      if default false (warm !! Kind t) then p else
      let sl := result_slice scope (Key t) content in
      let '(res, s) := put sl (p_store p) in
      let p := p <| p_store := s |> in
      match res with
      | Err err => p <| p_errs ::= fun l => l ++ [ErrStore (Key t) err] |>
      | Ok _ => p <| p_ids ::= fun l => l ++ [ID sl] |>
      end
  end.

Definition default_warm : gmap string bool := <["embedding"%string := true]> {["file"%string := true]}.
Definition effective_scope (r : Runner) : Scope := if decide (r_Scope r = Session) then Project else r_Scope r.

(** IDs and the joined errors, in order; [ctx] only reaches the executor. *)
Definition Run (tasks : list PrefetchTask) (r : Runner) : result (list string * list run_error) * Runner :=
  match r_Store r, r_Executor r with
  | Some s, Some e =>
      let warm := default default_warm (WarmKinds r) in
      let p := foldl (run_task warm (effective_scope r)) (mkProgress s e (BlockedEgress r) [] []) tasks in
      (Ok (p_ids p, p_errs p),
       r <| r_Store := Some (p_store p) |> <| r_Executor := Some (p_exec p) |> <| BlockedEgress := p_blocked p |>)
  | _, _ => (Err "prefetch: Runner requires Store and Executor", r)
  end.

(** ** Executors *)

(** [SliceAssembler.Execute] over the search of an index; nil without one. *)
Definition nl : string := String (Ascii.ascii_of_nat 10) "".

Definition assembled (h : Slice.Slice) : string :=
  "--- slice " +:+ ID h +:+ " ---" +:+ nl +:+ Content h +:+ nl.

Definition SliceAssembler_Execute (search : option (string -> Z -> Scope -> result (list Slice.Hit))) (K : Z)
    (t : PrefetchTask) : result string :=
  match search with
  | None => Err "prefetch: SliceAssembler requires Index"
  | Some search =>
      match search (Key t) (if K <=? 0 then 3 else K) Project with
      | Err e => Err ("slice-assembly " +:+ Key t +:+ ": search: " +:+ e)
      | Ok hits =>
          if existsb (fun h => match HitSlice h with None => true | Some _ => false end) hits
          then Err nil_dereference
          else let slices := go_sort (fun a b => string_less (ID a) (ID b)) (omap HitSlice hits) in
               Ok (String.concat "" (map assembled slices))
      end
  end.

Definition EmbeddingWarmer_Execute {V} (embed : option (list string -> result V)) (t : PrefetchTask) : result string :=
  match embed with
  | None => Err "prefetch: EmbeddingWarmer requires Embedder"
  | Some embed => match embed [Key t] with
                  | Err e => Err ("embedding-warm " +:+ Key t +:+ ": " +:+ e)
                  | Ok _ => Ok ""%string
                  end
  end.

(** The path a [FileWarmer] reads, once it is known to be under the root. *)
Definition warm_path (cwd : result string) (root key : string) : result string :=
  match Abs cwd root with
  | Err e => Err ("file-warm: root: " +:+ e)
  | Ok root =>
      match Abs cwd (Join root key) with
      | Err e => Err ("file-warm " +:+ key +:+ ": " +:+ e)
      | Ok path =>
          if negb (path =? root)%string && negb (has_prefix path (root +:+ "/"))
          then Err ("file-warm " +:+ key +:+ ": escapes root " +:+ root)
          else Ok path
      end
  end.

Definition FileWarmer_Execute (cwd : result string) (read_file : string -> result string) (root : string)
    (t : PrefetchTask) : result string :=
  let? path := warm_path cwd root (Key t) in
  match read_file path with
  | Err e => Err ("file-warm " +:+ Key t +:+ ": " +:+ e)
  | Ok _ => Ok ""%string
  end.

(** ** Only local tasks run *)

Definition bump_blocked (p : progress) : progress := p <| p_blocked ::= fun n => n +! 1 |>.

Lemma run_task_bump warm scope t p :
  run_task warm scope (bump_blocked p) t = bump_blocked (run_task warm scope p t).
Proof.
  destruct p as [s e b ids errs]. unfold run_task, bump_blocked. simpl.
  destruct (negb (is_local t)); [done|]. destruct (execute t e) as [[content|err] e']; simpl; [|done].
  destruct (default false (warm !! Kind t)); [done|]. by destruct (put _ s) as [[] s'].
Qed.

Lemma fold_bump warm scope ts p :
  foldl (run_task warm scope) (bump_blocked p) ts = bump_blocked (foldl (run_task warm scope) p ts).
Proof. revert p. induction ts as [|t ts IH]; intros p; simpl; [done|]. by rewrite run_task_bump, IH. Qed.

Lemma fold_local warm scope ts p :
  foldl (run_task warm scope) p ts
  = Nat.iter (length (List.filter (fun t => negb (is_local t)) ts)) bump_blocked
      (foldl (run_task warm scope) p (List.filter is_local ts)).
Proof.
  revert p. induction ts as [|t ts IH]; intros p; simpl; [done|]. destruct (is_local t) eqn:El; simpl.
  - apply IH.
  - assert (Hb : run_task warm scope p t = bump_blocked p) by (unfold run_task; by rewrite El).
    by rewrite Hb, fold_bump, IH.
Qed.

Lemma iter_bump n p :
  in_i64 (p_blocked p) -> Nat.iter n bump_blocked p = p <| p_blocked := i64 (p_blocked p + Z.of_nat n) |>.
Proof.
  intros Hp. induction n as [|n IH]; simpl Nat.iter.
  - destruct p as [s e b ids errs]. simpl in *. by rewrite Z.add_0_r, i64_id.
  - rewrite IH. unfold bump_blocked. simpl. f_equal. rewrite i64_add_idemp. f_equal. lia.
Qed.

Lemma fold_blocked warm scope ts p :
  in_i64 (p_blocked p) -> in_i64 (p_blocked (foldl (run_task warm scope) p ts)).
Proof.
  revert p. induction ts as [|t ts IH]; intros p Hp; simpl; [done|]. apply IH. unfold run_task.
  destruct (negb (is_local t)); [apply i64_range|]. destruct (execute t _) as [[content|err] e']; simpl; [|done].
  destruct (default false (warm !! Kind t)); [done|]. by destruct (put _ _) as [[] s'].
Qed.

(** the privacy red line.  Running a plan is running its explicitly local tasks:
    an egress or undeclared task reaches neither the executor nor the store, whatever
    they do, and is only counted. *)
Theorem Run_local tasks r :
  in_i64 (BlockedEgress r) ->
  Run tasks r =
    let '(res, r') := Run (List.filter is_local tasks) r in
    (res, match r_Store r, r_Executor r with
          | Some _, Some _ => r' <| BlockedEgress := i64 (BlockedEgress r'
              + Z.of_nat (length (List.filter (fun t => negb (is_local t)) tasks))) |>
          | _, _ => r'
          end).
Proof.
  intros Hb. unfold Run. destruct (r_Store r) as [s|], (r_Executor r) as [e|]; try done.
  rewrite fold_local, iter_bump by (by apply fold_blocked). done.
Qed.

(** What the runner may put into the store. *)
Definition prefetch_result (scope : Scope) (sl : Slice.Slice) : Prop :=
  exists key content, sl = result_slice scope key content.

(** the store only receives prefetch results - Result slices of the effective
    scope, marked with their origin and named by their content - so it keeps every
    property that storing such slices preserves; warmed kinds store nothing. *)
Theorem Run_stores tasks r (I : S -> Prop) s :
  (forall sl s, prefetch_result (effective_scope r) sl -> I s -> I (put sl s).2) ->
  r_Store r = Some s -> I s ->
  match r_Store (Run tasks r).2 with Some s' => I s' | None => False end
  /\ (Forall (fun t => default default_warm (WarmKinds r) !! Kind t = Some true) tasks ->
      r_Store (Run tasks r).2 = Some s /\ (forall ids errs, (Run tasks r).1 = Ok (ids, errs) -> ids = [])).
Proof.
  intros Hput Hs HI. unfold Run. rewrite Hs. destruct (r_Executor r) as [e|]; [|by simpl; rewrite Hs]. simpl.
  set (warm := default default_warm (WarmKinds r)). set (p0 := mkProgress s e (BlockedEgress r) [] []). split.
  - assert (Hgen : forall ts p, I (p_store p) -> I (p_store (foldl (run_task warm (effective_scope r)) p ts))).
    { induction ts as [|t ts IH]; intros p Hp; simpl; [done|]. apply IH. unfold run_task.
      destruct (negb (is_local t)); [done|]. destruct (execute t _) as [[content|err] e']; simpl; [|done].
      destruct (default false (warm !! Kind t)); [done|].
      assert (Hx := Hput (result_slice (effective_scope r) (Key t) content) (p_store p)).
      destruct (put _ _) as [[] s']; simpl in *; apply Hx; try done; by eexists _, _. }
    by apply Hgen.
  - intros Hwarm. assert (Hgen : forall ts p, Forall (fun t => warm !! Kind t = Some true) ts ->
      p_store (foldl (run_task warm (effective_scope r)) p ts) = p_store p
      /\ p_ids (foldl (run_task warm (effective_scope r)) p ts) = p_ids p).
    { induction ts as [|t ts IH]; intros p Hw; simpl; [done|]. inversion Hw as [|? ? Ht Hw']; subst.
      destruct (IH (run_task warm (effective_scope r) p t) Hw') as [-> ->]. unfold run_task.
      destruct (negb (is_local t)); [done|]. destruct (execute t _) as [[content|err] e']; simpl; [|done].
      by rewrite Ht. }
    destruct (Hgen tasks p0 Hwarm) as [-> ->]. split; [done|]. by intros ids errs [= <- _].
Qed.
End Runner.

(** ** Plans and the runner *)

(** every plan of the offline planner is local and so runs; of a matrix plan only
    a lone escape probe is local.  Its healthy candidates and probation probes
    declare no locality, and the runner blocks them. *)
Theorem plans_that_run {R} (rnd : R -> f64 * R) c r evs names last tasks m' wl p :
  Z.of_nat (length evs) < 2 ^ 63 ->
  Matrix.no_overflow (Matrix.cfg (Matrix.NewMatrixPrefetcher c r)) ->
  list.last names = Some last ->
  Matrix.Plan rnd names (Matrix.run rnd c r evs) = (Ok tasks, m') ->
  (List.filter is_local tasks = [] \/ exists t, tasks = [t] /\ Probe t = true /\ is_local t = true)
  /\ List.filter is_local (Planner.Plan wl p) = Planner.Plan wl p.
Proof.
  intros Hlen Ho Hlast Hplan. split.
  - destruct (Matrix.Plan_tasks rnd c r evs names last tasks m' Hlen Ho Hlast Hplan) as ((n & k & x & -> & Hx & _) & _).
    rewrite List.filter_app.
    assert (E : forall c l, List.filter is_local (map (Matrix.healthy_task c) l) = []) by (intros ? l; by induction l).
    rewrite E. destruct Hx as [|q _ _|q Hk _]; [by left|by left|right].
    apply nil_length_inv in Hk. rewrite Hk. by exists (Matrix.assembly (Matrix.cfg (Matrix.run rnd c r evs)) (Matrix.c_key q) true LocalityLocal).
  - unfold Planner.Plan. destruct (matrix p); [|done]. destruct (_ =? _)%string; [done|]. destruct (bool_decide _); [done|].
    assert (Hgen : forall w b mx cs ts sp, List.filter is_local ts = ts ->
      List.filter is_local (plan_loop w b mx cs ts sp) = plan_loop w b mx cs ts sp).
    { intros w b mx cs. induction cs as [|cd cs IH]; intros ts sp Hts; cbn [plan_loop]; [done|].
      destruct (negb _); [by apply IH|]. destruct (_ <? _); [done|].
      assert (List.filter is_local (ts ++ [planner_task (cd_Name cd)]) = ts ++ [planner_task (cd_Name cd)])
        by (by rewrite List.filter_app, Hts).
      destruct (_ <=? _); [done|]. by apply IH. }
    by apply Hgen.
Qed.

(** ** The file warmer *)

Lemma warm_path_inv cwd root key path :
  (forall d, cwd = Ok d -> is_abs d = true) -> warm_path cwd root key = Ok path ->
  exists r l, Abs cwd root = Ok (abs_path r) /\ path = abs_path l /\ Forall name r /\ Forall name l
    /\ (l = r \/ String.prefix (abs_path r +:+ "/") (abs_path l) = true).
Proof.
  intros Hcwd. unfold warm_path. destruct (Abs cwd root) as [base|] eqn:Eb; [|done].
  destruct (Abs_abs cwd root base Hcwd Eb) as (r & -> & Hr).
  destruct (Abs cwd (Join (abs_path r) key)) as [q|] eqn:Eq; [|done].
  destruct (Abs_abs _ _ _ Hcwd Eq) as (l & -> & Hl).
  destruct (String.eqb_spec (abs_path l) (abs_path r)) as [E|Hne]; cbn [negb andb].
  - intros [= <-]. exists r, r. rewrite E. repeat split; auto.
  - destruct (has_prefix (abs_path l) (abs_path r +:+ "/")) eqn:Ep; cbn [negb]; [|done]. intros [= <-].
    exists r, l. repeat split; auto.
Qed.

(** the warmer stays under its root.  A path it reads is the cleaned root followed
    by names, none of them a parent step, whatever the key holds; and under the
    file-system root it reads nothing but that directory. *)
Theorem warm_path_contained cwd root key path :
  (forall d, cwd = Ok d -> is_abs d = true) ->
  warm_path cwd root key = Ok path ->
  exists r l, Abs cwd root = Ok (abs_path r) /\ path = abs_path l
    /\ Forall name l /\ r `prefix_of` l /\ (r = [] -> l = []).
Proof.
  intros Hcwd Hw. destruct (warm_path_inv _ _ _ _ Hcwd Hw) as (r & l & Hb & Hp & Hr & Hl & [->|Ep]).
  - exists r, r. by repeat split.
  - exists r, l. split; [done|]. split; [done|]. split; [done|].
    destruct r as [|e r]; [by rewrite prefix_root_rejects in Ep|]. split; [|done].
    by apply prefix_contained.
Qed.

(** ** Examples *)

Module RunSample.
(** A store that is the list of what it holds, an executor that logs its calls. *)
Definition put (s : Slice.Slice) (l : list Slice.Slice) : result unit * list Slice.Slice := (Ok tt, l ++ [s]).
Definition execute (t : PrefetchTask) (l : list string) : result string * list string :=
  (if (Key t =? "bad")%string then Err "no" else Ok ("content of " +:+ Key t), l ++ [Key t]).
Definition sha (s : string) : string := "0123456789abcdef0123456789abcdef".

Definition tasks : list PrefetchTask :=
  [mkTask "slice-assembly" "a" 1 false "local"; mkTask "slice-assembly" "b" 1 false "egress";
   mkTask "slice-assembly" "c" 1 false ""; mkTask "file" "d" 1 false "local"; mkTask "x" "bad" 1 false "local"].
Definition runner : Runner (S := list Slice.Slice) (E := list string) := mkRunner (Some []) (Some []) Session 0 None.

Example run_tasks :
  let '(res, r) := Run put execute sha tasks runner in
  res = Ok (["0123456789abcdef"%string], [ErrExecute "x" "bad" "no"])
  /\ r_Executor r = Some ["a"; "d"; "bad"]%string /\ BlockedEgress r = 2
  /\ match r_Store r with Some l => map SScope l = [Project] | None => False end.
Proof. vm_compute. done. Qed.

Example warm_inside :
  warm_path (Ok "/home/u"%string) "proj/" "src/../a.go" = Ok "/home/u/proj/a.go"%string
  /\ is_ok (warm_path (Ok "/home/u"%string) "proj" "../secret") = false
  /\ is_ok (warm_path (Ok "/home/u"%string) "proj" "../project2/x") = false.
Proof. by vm_compute. Qed.
End RunSample.

Section RunExamples.
Import RunSample.

Lemma Run_local_witness :
  (Run put execute sha tasks runner).1 = (Run put execute sha (List.filter is_local tasks) runner).1.
Proof.
  assert (H : in_i64 (BlockedEgress runner)) by (unfold in_i64; simpl; lia).
  rewrite (Run_local put execute sha tasks runner H). by destruct (Run _ _ _ _ _).
Defined.

Lemma Run_stores_witness :
  match r_Store (Run put execute sha tasks runner).2 with
  | Some l => Forall (fun sl => MetaOrigin (Meta sl) = OriginPrefetch) l
  | None => False
  end.
Proof.
  refine (proj1 (Run_stores put execute sha tasks runner (Forall (fun sl => MetaOrigin (Meta sl) = OriginPrefetch)) [] _ eq_refl _));
    [|constructor].
  intros sl l (key & content & ->) Hl. apply Forall_app. split; [exact Hl|]. constructor; [reflexivity|constructor].
Defined.

Lemma plans_that_run_witness :
  exists tasks m', Matrix.Plan Sample.rnd ["ls"%string] (Matrix.run Sample.rnd Sample.zero_config 0%nat Sample.seen) = (Ok tasks, m')
  /\ List.filter is_local (Planner.Plan ["ls"%string] PlannerSample.p1) = Planner.Plan ["ls"%string] PlannerSample.p1.
Proof.
  destruct (Matrix.Plan_ok Sample.rnd ["ls"%string] (Matrix.run Sample.rnd Sample.zero_config 0%nat Sample.seen))
    as (tasks & m' & E & _). exists tasks, m'. split; [exact E|].
  refine (proj2 (plans_that_run Sample.rnd Sample.zero_config 0%nat Sample.seen ["ls"%string] "ls" tasks m'
    ["ls"%string] PlannerSample.p1 _ _ _ E)); [done|vm_compute; done|done].
Defined.

Lemma warm_path_contained_witness :
  exists r l, Abs (Ok "/home/u"%string) "proj" = Ok (abs_path r) /\ "/home/u/proj/a.go"%string = abs_path l
    /\ Forall name l /\ r `prefix_of` l /\ (r = [] -> l = []).
Proof.
  apply (warm_path_contained (Ok "/home/u"%string) "proj" "src/../a.go"); [|reflexivity].
  by intros d [= <-].
Defined.
End RunExamples.
