(* ===== verification/Evolve.v ===== *)
(** kernel/evolve/evolve.go: the online tuning engine.  Feedback signals are
    folded into moving averages and nudge two thresholds inside a band; a change
    of the injection threshold freezes it for a number of epochs. *)

From Stdlib Require Import ZArith Lia Bool Ascii String Floats.SpecFloat.
From stdpp Require Import tactics base option list strings pretty.
From S2P Require Import Prelude Float64 GoStrings.

#[global] Open Scope Z_scope.

Definition DefaultAlpha : f64 := f_of_ratio 1 10.
Definition DefaultTauL2 : f64 := f_of_ratio 55 100.
Definition DefaultSuccessFloor : f64 := f_of_ratio 7 10.
Definition DefaultInjectCap : f64 := f_of_ratio 3 10.
Definition DefaultFreezeEpoch : Z := 60.
Definition DefaultMinTau : f64 := f_of_ratio 30 100.
Definition DefaultMaxTau : f64 := f_of_ratio 80 100.
Definition TauStep : f64 := f_of_ratio 5 100.
Definition PrefetchStep : f64 := f_of_ratio 5 100.
Definition PollutionRiseAt : f64 := f_of_ratio 30 100.
Definition HitTarget : f64 := f_of_ratio 70 100.
Definition PollutionLow : f64 := f_of_ratio 10 100.
Definition MinSamples : Z := 20.

Record Config := mkConfig {
  c_Alpha : f64;
  c_TauL2 : f64;
  c_SuccessFloor : f64;
  c_InjectCap : f64;
  c_FreezeEpochs : Z;
  c_MinTau : f64;
  c_MaxTau : f64;
  c_MinSamples : Z;
}.

Record Signal := mkSignal { s_Name : string; s_Value : f64; s_Epoch : Z }.

Record Params := mkParams {
  TauL2 : f64;
  TauL3 : f64;
  InjectCap : f64;
  PrefetchConf : f64;
  SuccessFloor : f64;
  FreezeEpochs : Z;
}.
#[export] Instance Params_eta : Eta Params := fun r =>
  mkParams (TauL2 r) (TauL3 r) (InjectCap r) (PrefetchConf r) (SuccessFloor r) (FreezeEpochs r).

Record ewmaEngine := mkEngine {
  alpha : f64;
  minTau : f64;
  maxTau : f64;
  minSamples : Z;
  epoch : Z;
  freezeUntil : Z;
  firstAdjustAt : Z;
  params : Params;
  hitEWMA : f64;
  polEWMA : f64;
  prefetchHitEWMA : f64;
  prefetchWasteEWMA : f64;
  sampleCount : Z;
  adjustments : Z;
}.
#[export] Instance ewmaEngine_eta : Eta ewmaEngine := fun r =>
  mkEngine (alpha r) (minTau r) (maxTau r) (minSamples r) (epoch r) (freezeUntil r) (firstAdjustAt r)
    (params r) (hitEWMA r) (polEWMA r) (prefetchHitEWMA r) (prefetchWasteEWMA r) (sampleCount r) (adjustments r).

(** A configured number that is positive and finite, or the default. *)
Definition configured (x def : f64) : f64 :=
  if (x <=? f0)%f64 || is_nan x || is_inf x then def else x.

Definition overridden (x def : f64) : f64 := if (x >? f0)%f64 && finite x then x else def.

Definition New (c : Config) : ewmaEngine :=
  let freeze := if 0 <? c_FreezeEpochs c then c_FreezeEpochs c else DefaultFreezeEpoch in
  mkEngine (configured (c_Alpha c) DefaultAlpha) (configured (c_MinTau c) DefaultMinTau)
    (configured (c_MaxTau c) DefaultMaxTau)
    (if c_MinSamples c =? 0 then MinSamples else c_MinSamples c) 0 0 freeze
    (mkParams (overridden (c_TauL2 c) DefaultTauL2) f0 (overridden (c_InjectCap c) DefaultInjectCap)
       (f_of_ratio 1 2) (overridden (c_SuccessFloor c) DefaultSuccessFloor) freeze)
    f0 f0 f0 f0 0 0.

Definition ewma (a v old : f64) : f64 := (a * v + (f1 - a) * old)%f64.
Definition decay (a old : f64) : f64 := ((f1 - a) * old)%f64.

(** The new TauL2 when the freeze window is open. *)
Definition adjust_tau (e : ewmaEngine) : f64 :=
  let tau := TauL2 (params e) in
  let tau :=
    if (polEWMA e >=? PollutionRiseAt)%f64 then (tau + TauStep)%f64
    else if (hitEWMA e >=? HitTarget)%f64 && (polEWMA e <=? PollutionLow)%f64 then (tau - TauStep)%f64
    else tau in
  fclamp (minTau e) (maxTau e) tau.

Definition adjust_prefetch (e : ewmaEngine) : f64 :=
  let p := PrefetchConf (params e) in
  let p :=
    if (prefetchWasteEWMA e >? prefetchHitEWMA e)%f64 then (p + PrefetchStep)%f64
    else if (prefetchHitEWMA e >? prefetchWasteEWMA e)%f64 then (p - PrefetchStep)%f64
    else p in
  fclamp (f_of_ratio 5 100) (f_of_ratio 95 100) p.

Definition fneqb (x y : f64) : bool := negb (x =? y)%f64.

Definition maybeAdjustLocked (e : ewmaEngine) : ewmaEngine :=
  if sampleCount e <? minSamples e then e
  else if epoch e <? firstAdjustAt e then e
  else
    let oldTau := TauL2 (params e) in
    let oldPrefetch := PrefetchConf (params e) in
    let tau := if freezeUntil e <=? epoch e then adjust_tau e else oldTau in
    let pre := adjust_prefetch e in
    let e := e <| params ::= fun p => p <| TauL2 := tau |> <| PrefetchConf := pre |> |> in
    let e := if fneqb tau oldTau || fneqb pre oldPrefetch then e <| adjustments ::= fun n => u64 (n + 1) |> else e in
    if fneqb tau oldTau then e <| freezeUntil := u64 (epoch e + FreezeEpochs (params e)) |> else e.

Definition RecordSignal (s : Signal) (e : ewmaEngine) : result unit * ewmaEngine :=
  if is_nan (s_Value s) || is_inf (s_Value s) then (Err "evolve: non-finite signal value rejected", e)
  else if s_Epoch s <? epoch e then (Err "evolve: out-of-order signal epoch", e)
  else
    let e := e <| epoch := if epoch e <? s_Epoch s then s_Epoch s else epoch e |>
               <| sampleCount ::= fun n => u64 (n + 1) |> in
    let v := fclamp f0 f1 (s_Value s) in
    let a := alpha e in
    if (s_Name s =? "cache_hit")%string || (s_Name s =? "success")%string then
      (Ok tt, maybeAdjustLocked (e <| hitEWMA ::= ewma a v |>))
    else if (s_Name s =? "inject_pollution")%string then
      (Ok tt, maybeAdjustLocked (e <| polEWMA ::= ewma a v |>))
    else if (s_Name s =? "prefetch_hit")%string then
      (Ok tt, maybeAdjustLocked (e <| prefetchHitEWMA ::= ewma a v |> <| prefetchWasteEWMA ::= decay a |>))
    else if (s_Name s =? "prefetch_waste")%string then
      (Ok tt, maybeAdjustLocked (e <| prefetchWasteEWMA ::= ewma a v |> <| prefetchHitEWMA ::= decay a |>))
    else (Ok tt, e).

(** *** itoa *)

(** The digits of [n], most significant first; 20 are enough for a uint64. *)
Fixpoint itoa_digits (fuel : nat) (n : Z) (buf : string) : string :=
  match fuel with
  | O => buf
  | S f => if 0 <? n then itoa_digits f (n / 10) (String (ascii_of (48 + n mod 10)) buf) else buf
  end.
Definition itoa (n : Z) : string := if n =? 0 then "0" else itoa_digits 20 n "".

Definition Apply (p : Params) (e : ewmaEngine) : result unit * ewmaEngine :=
  if negb (finite (TauL2 p)) || negb (finite (InjectCap p)) || negb (finite (PrefetchConf p))
     || negb (finite (SuccessFloor p))
  then (Err "evolve: non-finite param rejected", e)
  else if (epoch e <? freezeUntil e) && negb (FreezeEpochs p =? 0)
  then (Err ("evolve: params frozen until epoch " +:+ itoa (freezeUntil e)), e)
  else
    let p := p <| TauL2 ::= fclamp (minTau e) (maxTau e) |> in
    (Ok tt, e <| params := p |> <| freezeUntil := u64 (epoch e + FreezeEpochs p) |>).

Definition Params_ (e : ewmaEngine) : Params := params e.
Definition Adjustments (e : ewmaEngine) : Z := adjustments e.
Definition Epoch (e : ewmaEngine) : Z := epoch e.

(** ** Properties *)

Lemma adjust_frame e :
  epoch (maybeAdjustLocked e) = epoch e
  /\ minTau (maybeAdjustLocked e) = minTau e /\ maxTau (maybeAdjustLocked e) = maxTau e
  /\ FreezeEpochs (params (maybeAdjustLocked e)) = FreezeEpochs (params e).
Proof.
  unfold maybeAdjustLocked. destruct (_ <? _); [done|]. destruct (_ <? _); [done|].
  generalize (if freezeUntil e <=? epoch e then adjust_tau e else TauL2 (params e)), (adjust_prefetch e).
  intros tau pre. cbn zeta. destruct (_ || _), (fneqb tau _); done.
Qed.

Lemma fneqb_refl x : is_nan x = false -> fneqb x x = false.
Proof. intros Hx. unfold fneqb. apply negb_false_iff. by apply feqb_key. Qed.

(** What an adjustment does to TauL2 and its freeze window. *)
Lemma adjust_tau_cases e :
  is_nan (TauL2 (params e)) = false ->
  let e' := maybeAdjustLocked e in
  (TauL2 (params e') = TauL2 (params e) \/ TauL2 (params e') = adjust_tau e)
  /\ ((freezeUntil e' = freezeUntil e /\ fneqb (TauL2 (params e')) (TauL2 (params e)) = false)
      \/ (freezeUntil e <= epoch e /\ freezeUntil e' = u64 (epoch e + FreezeEpochs (params e)))).
Proof.
  intros Hn. apply fneqb_refl in Hn as Hr. unfold maybeAdjustLocked.
  destruct (_ <? minSamples e); [by auto|]. destruct (_ <? firstAdjustAt e); [by auto|].
  generalize (adjust_prefetch e). intros pre. cbn zeta.
  destruct (Z.leb_spec (freezeUntil e) (epoch e)) as [Hf|Hf].
  - generalize (adjust_tau e). intros tau. destruct (fneqb tau (TauL2 (params e))) eqn:En; simpl.
    + auto.
    + destruct (fneqb pre _); simpl; auto.
  - rewrite Hr. simpl. destruct (fneqb pre _); simpl; auto.
Qed.

Definition in_band (e : ewmaEngine) : Prop :=
  fleb (minTau e) (TauL2 (params e)) = true /\ fleb (TauL2 (params e)) (maxTau e) = true.

Definition banded (e : ewmaEngine) : Prop :=
  finite (minTau e) = true /\ finite (maxTau e) = true /\ fleb (minTau e) (maxTau e) = true.

Lemma in_band_finite e : banded e -> in_band e -> finite (TauL2 (params e)) = true.
Proof. intros (Hl & Hh & _) [? ?]. by apply (fleb_finite (minTau e) _ (maxTau e)). Qed.

Lemma finite_not_nan x : finite x = true -> is_nan x = false.
Proof. unfold finite. by destruct (is_nan x). Qed.

Lemma adjust_tau_band e :
  banded e -> in_band e ->
  fleb (minTau e) (adjust_tau e) = true /\ fleb (adjust_tau e) (maxTau e) = true.
Proof.
  intros Hb Hi. pose proof (in_band_finite e Hb Hi) as Hf. unfold adjust_tau.
  apply fclamp_range; [|apply Hb].
  destruct (_ <=? _)%f64; [by apply fadd_not_nan|].
  destruct (_ && _); [|by apply finite_not_nan]. apply fsub_not_nan; [by apply finite_not_nan|done].
Qed.

(** One signal, up to the adjustment. *)
Lemma RecordSignal_cases s e :
  (exists msg, RecordSignal s e = (Err msg, e) /\ (finite (s_Value s) = false \/ s_Epoch s < epoch e))
  \/ (finite (s_Value s) = true /\ epoch e <= s_Epoch s
      /\ (RecordSignal s e).1 = Ok tt
      /\ exists e1, params e1 = params e /\ minTau e1 = minTau e /\ maxTau e1 = maxTau e
           /\ freezeUntil e1 = freezeUntil e /\ epoch e1 = s_Epoch s
           /\ ((RecordSignal s e).2 = maybeAdjustLocked e1 \/ (RecordSignal s e).2 = e1)).
Proof.
  unfold RecordSignal, finite.
  destruct (is_nan (s_Value s) || is_inf (s_Value s)) eqn:Ev.
  { left. eexists. split; [done|]. left. apply orb_true_iff in Ev as [-> | ->]; [done|apply andb_false_r]. }
  apply orb_false_iff in Ev as [-> ->].
  destruct (Z.ltb_spec (s_Epoch s) (epoch e)); [left; eexists; split; [done|by right]|].
  right. split; [done|]. split; [done|].
  assert (He : (if epoch e <? s_Epoch s then s_Epoch s else epoch e) = s_Epoch s)
    by (destruct (Z.ltb_spec (epoch e) (s_Epoch s)); lia).
  rewrite He. generalize (fclamp f0 f1 (s_Value s)). intros v. cbn zeta.
  destruct (_ || _); [|destruct (_ =? _)%string; [|destruct (_ =? _)%string; [|destruct (_ =? _)%string]]].
  1-4: split; [done|]; eexists; split_and!; [..|by left; reflexivity]; done.
  split; [done|]. eexists; split_and!; [..|by right; reflexivity]; done.
Qed.

(** Signals are validated before anything moves: a non-finite value or an
    epoch lower than the last one is refused with the engine untouched, and an
    accepted signal sets the epoch to its own. *)
Theorem RecordSignal_guard s e :
  (is_ok (RecordSignal s e).1 = true <-> finite (s_Value s) = true /\ epoch e <= s_Epoch s)
  /\ (is_ok (RecordSignal s e).1 = false -> (RecordSignal s e).2 = e)
  /\ (is_ok (RecordSignal s e).1 = true -> epoch (RecordSignal s e).2 = s_Epoch s).
Proof.
  destruct (RecordSignal_cases s e) as [(msg & -> & Hbad)|(Hv & He & Hok & e1 & _ & _ & _ & _ & Hep & Hout)]; simpl.
  - split_and!; [|done|done]. split; [done|]. intros [? ?]. destruct Hbad; [congruence|lia].
  - rewrite Hok. simpl. split_and!; [done|done|]. intros _.
    destruct Hout as [-> | ->]; [|done]. by destruct (adjust_frame e1) as (-> & _).
Qed.

Inductive event : Type :=
| ESignal (s : Signal)
| EApply (p : Params).

Definition run_event (ev : event) (e : ewmaEngine) : ewmaEngine :=
  match ev with ESignal s => (RecordSignal s e).2 | EApply p => (Apply p e).2 end.
Definition run_events (l : list event) (e : ewmaEngine) : ewmaEngine := foldl (fun e ev => run_event ev e) e l.

Lemma signal_band s e : banded e -> in_band e -> banded (RecordSignal s e).2 /\ in_band (RecordSignal s e).2.
Proof.
  intros Hb Hi.
  destruct (RecordSignal_cases s e) as [(msg & -> & _)|(_ & _ & _ & e1 & Hp & Hmin & Hmax & _ & _ & Hout)]; [done|].
  assert (Hb1 : banded e1) by (unfold banded; by rewrite Hmin, Hmax).
  assert (Hi1 : in_band e1) by (unfold in_band; by rewrite Hp, Hmin, Hmax).
  destruct Hout as [-> | ->]; [|done].
  destruct (adjust_frame e1) as (_ & Hm & HM & _).
  split; [unfold banded; by rewrite Hm, HM|]. unfold in_band. rewrite Hm, HM.
  pose proof (finite_not_nan _ (in_band_finite e1 Hb1 Hi1)) as Hn.
  destruct (adjust_tau_cases e1 Hn) as [[-> | ->] _]; [exact Hi1|by apply adjust_tau_band].
Qed.

Lemma Apply_band p e : banded e -> in_band e -> banded (Apply p e).2 /\ in_band (Apply p e).2.
Proof.
  intros Hb Hi. unfold Apply. destruct (_ || negb (finite (SuccessFloor p))) eqn:Ef; [done|].
  destruct (_ && _); [done|]. split; [done|]. unfold in_band. simpl.
  apply fclamp_range; [|apply Hb]. apply orb_false_iff in Ef as [Ef _].
  apply orb_false_iff in Ef as [Ef _]. apply orb_false_iff in Ef as [Ef _].
  apply negb_false_iff in Ef. by apply finite_not_nan.
Qed.

(** the injection threshold never leaves its band.  From a threshold inside a
    finite band, any interleaving of signals (corrupt and out-of-order ones
    included) and operator snapshots leaves it a number between the floor and the
    ceiling. *)
Theorem tau_stays_in_band l e :
  banded e -> in_band e -> banded (run_events l e) /\ in_band (run_events l e)
  /\ finite (TauL2 (params (run_events l e))) = true.
Proof.
  intros Hb Hi. assert (H : banded (run_events l e) /\ in_band (run_events l e)).
  { revert e Hb Hi. induction l as [|ev l IH]; intros e Hb Hi; [done|]. simpl.
    assert (He : banded (run_event ev e) /\ in_band (run_event ev e))
      by (destruct ev; [by apply signal_band|by apply Apply_band]).
    destruct He. by apply IH. }
  destruct H. split_and!; [done|done|]. by apply in_band_finite.
Qed.

(** *** The freeze window *)

Definition small (n : Z) : Prop := 0 <= n < 2 ^ 63.

Definition changes_tau (s : Signal) (e : ewmaEngine) : Prop :=
  fneqb (TauL2 (params (RecordSignal s e).2)) (TauL2 (params e)) = true.

Lemma signal_freeze s e :
  banded e -> in_band e -> small (FreezeEpochs (params e)) -> small (s_Epoch s) ->
  FreezeEpochs (params (RecordSignal s e).2) = FreezeEpochs (params e)
  /\ freezeUntil e <= freezeUntil (RecordSignal s e).2
  /\ (changes_tau s e ->
       freezeUntil e <= s_Epoch s
       /\ freezeUntil (RecordSignal s e).2 = s_Epoch s + FreezeEpochs (params e)).
Proof.
  intros Hb Hi HF Hs. pose proof (finite_not_nan _ (in_band_finite e Hb Hi)) as Hn. unfold changes_tau.
  destruct (RecordSignal_cases s e) as [(msg & -> & _)|(_ & _ & _ & e1 & Hp & _ & _ & Hfu & Hep & Hout)]; simpl.
  { rewrite fneqb_refl by done. done. }
  destruct Hout as [-> | ->]; [|rewrite Hp, Hfu, fneqb_refl by done; done].
  destruct (adjust_frame e1) as (_ & _ & _ & ->). rewrite Hp. split; [done|].
  assert (Hn1 : is_nan (TauL2 (params e1)) = false) by (by rewrite Hp).
  destruct (adjust_tau_cases e1 Hn1) as [_ [[Hfz Heq]|[Hle Hset]]]; rewrite Hp in *.
  - rewrite Hfz, Heq, Hfu. done.
  - rewrite Hset, Hep in *. unfold small in *. rewrite u64_id by (unfold in_u64; lia). lia.
Qed.

(** the freeze window.  After a signal has moved the injection threshold at
    some epoch, no signal moves it again until the freeze duration has passed,
    whatever signals come in between. *)
Theorem tau_frozen s1 l s2 e :
  banded e -> in_band e -> small (FreezeEpochs (params e)) ->
  Forall (fun s => small (s_Epoch s)) (s1 :: l ++ [s2]) ->
  changes_tau s1 e ->
  changes_tau s2 (run_events (map ESignal l) (RecordSignal s1 e).2) ->
  s_Epoch s1 + FreezeEpochs (params e) <= s_Epoch s2.
Proof.
  intros Hb Hi HF Hall H1 H2. apply Forall_cons in Hall as [Hs1 Hrest].
  apply Forall_app in Hrest as [Hl Hs2]. apply Forall_cons in Hs2 as [Hs2 _].
  destruct (signal_freeze s1 e Hb Hi HF Hs1) as (HF1 & _ & Hset). destruct (Hset H1) as [_ Hfu].
  destruct (signal_band s1 e Hb Hi) as [Hb1 Hi1]. rewrite <- Hfu.
  rewrite <- HF1 in HF. clear Hset Hfu HF1 H1 Hb Hi Hs1. revert Hb1 Hi1 HF H2.
  generalize (RecordSignal s1 e).2. clear e s1. induction l as [|s l IH]; intros e Hb Hi HF H2; simpl in *.
  - destruct (signal_freeze s2 e Hb Hi HF Hs2) as (_ & _ & Hset). by destruct (Hset H2).
  - apply Forall_cons in Hl as [Hs Hl]. destruct (signal_freeze s e Hb Hi HF Hs) as (HF' & Hmono & _).
    destruct (signal_band s e Hb Hi) as [Hb' Hi']. etransitivity; [exact Hmono|].
    apply IH; [done|done|done|by rewrite HF'|done].
Qed.

(** *** itoa *)

Lemma digit_pretty r : 0 <= r < 10 -> ascii_of (48 + r) = pretty_N_char (Z.to_N r).
Proof.
  intros Hr. assert (H : In r [0;1;2;3;4;5;6;7;8;9]) by (simpl; lia).
  repeat (destruct H as [<-|H]; [done|]). done.
Qed.

Lemma itoa_digits_pretty fuel n buf :
  0 <= n < 10 ^ Z.of_nat fuel -> itoa_digits fuel n buf = pretty_N_go (Z.to_N n) buf.
Proof.
  revert n buf. induction fuel as [|f IH]; intros n buf Hn.
  - replace n with 0 by lia. done.
  - cbn [itoa_digits]. destruct (Z.ltb_spec 0 n) as [Hp|Hp]; [|by replace n with 0 by lia].
    rewrite pretty_N_go_step by lia. rewrite IH.
    + rewrite digit_pretty by (by apply Z.mod_pos_bound). by rewrite Z2N.inj_div, Z2N.inj_mod by lia.
    + rewrite Nat2Z.inj_succ, Z.pow_succ_r in Hn by lia. split; [by apply Z.div_pos; lia|].
      apply Z.div_lt_upper_bound; lia.
Qed.

(** The hand-written formatter prints the decimal numeral of every uint64, and
    its 20-byte buffer is enough. *)
Theorem itoa_decimal n : in_u64 n -> itoa n = pretty (Z.to_N n).
Proof.
  intros [Hlo Hhi]. unfold itoa. destruct (Z.eqb_spec n 0) as [->|Hn]; [done|].
  rewrite itoa_digits_pretty by (change (10 ^ Z.of_nat 20) with 100000000000000000000; lia). unfold pretty, pretty_N.
  by rewrite decide_False by lia.
Qed.

(** ** The properties at concrete inputs *)

Definition sample_engine : ewmaEngine := New (mkConfig f1 f0 f0 f0 2 f0 f0 1).
Definition polluted (ep : Z) : Signal := mkSignal "inject_pollution" f1 ep.

Lemma sample_banded : banded sample_engine.
Proof. by vm_compute. Qed.
Lemma sample_in_band : in_band sample_engine.
Proof. by vm_compute. Qed.

Example tau_stays_in_band_witness :
  let e := run_events [ESignal (polluted 5); EApply (mkParams f1 f0 f0 f0 f0 0); ESignal (polluted 3)] sample_engine in
  fleb (minTau e) (TauL2 (params e)) = true /\ fleb (TauL2 (params e)) (maxTau e) = true.
Proof.
  destruct (tau_stays_in_band [ESignal (polluted 5); EApply (mkParams f1 f0 f0 f0 f0 0); ESignal (polluted 3)]
              sample_engine sample_banded sample_in_band) as (_ & H & _). exact H.
Defined.

Example tau_frozen_witness :
  changes_tau (polluted 5) sample_engine
  /\ changes_tau (polluted 9) (run_events (map ESignal [polluted 6]) (RecordSignal (polluted 5) sample_engine).2)
  /\ 5 + 2 <= 9.
Proof.
  assert (H1 : changes_tau (polluted 5) sample_engine) by (vm_compute; reflexivity).
  assert (H2 : changes_tau (polluted 9)
    (run_events (map ESignal [polluted 6]) (RecordSignal (polluted 5) sample_engine).2)) by (vm_compute; reflexivity).
  split; [exact H1|split; [exact H2|]].
  refine (tau_frozen (polluted 5) [polluted 6] (polluted 9) sample_engine sample_banded sample_in_band _ _ H1 H2);
    [unfold small; simpl; lia|].
  repeat apply Forall_cons_2; [unfold small; simpl; lia..|apply Forall_nil_2].
Defined.

Example itoa_decimal_witness : itoa 18446744073709551615 = pretty 18446744073709551615%N.
Proof. apply (itoa_decimal 18446744073709551615). unfold in_u64. lia. Defined.
