(* ===== verification/Adapt.v ===== *)
(** kernel/adapt/adapt.go: a grey-zone floor per cached slice, learned from the
    outcome of the reuses of that slice, and its state file.

    The state file is what its last successful rewrite left (a temporary file
    and a rename); the outcomes of the next rewrites are a script.  A document
    decodes to the value it was encoded from, and a value holding a NaN or an
    infinity does not encode.  [UpdatedAt] is never set by the code. *)

From Stdlib Require Import ZArith Lia Bool Ascii String Floats.SpecFloat.
From stdpp Require Import tactics base option list sorting gmap strings.
From S2P Require Import Prelude Float64 GoStrings.

#[global] Open Scope Z_scope.

Record Config := mkConfig {
  ErrorBound : f64;
  Step : f64;
  MinSamples : Z;
  MinHits : Z;
  FreezeEpochs : Z;
  Alpha : f64;
  MinTau : f64;
  MaxTau : f64;
}.
#[export] Instance Config_eta : Eta Config := fun r =>
  mkConfig (ErrorBound r) (Step r) (MinSamples r) (MinHits r) (FreezeEpochs r) (Alpha r) (MinTau r) (MaxTau r).

Definition Defaults : Config :=
  mkConfig (f_of_ratio 5 100) (f_of_ratio 5 100) 20 5 60 (f_of_ratio 1 10) (f_of_ratio 30 100) (f_of_ratio 80 100).

Record Entry := mkEntry {
  SliceID : string;
  tau_low : f64;
  Relaxed : bool;
  Pos : Z;
  Neg : Z;
  NegEWMA : f64;
  Frozen : Z;
}.
#[export] Instance Entry_eta : Eta Entry := fun r =>
  mkEntry (SliceID r) (tau_low r) (Relaxed r) (Pos r) (Neg r) (NegEWMA r) (Frozen r).

Definition fresh_entry (id : string) : Entry := mkEntry id f0 false 0 0 f0 0.

Record persisted := mkPersisted { p_Entries : list Entry; p_Epoch : Z; p_Adjustments : Z }.

(** The state file as a read finds it. *)
Inductive state_file :=
| Missing
| Unreadable
| Corrupt
| Saved (p : persisted).

Record Engine := mkEngine {
  cfg : Config;
  path : string;
  enabled : bool;
  epoch : Z;
  adjustments : Z;
  entries : gmap string Entry;
  file : state_file;
  writes : list bool;
}.
#[export] Instance Engine_eta : Eta Engine := fun r =>
  mkEngine (cfg r) (path r) (enabled r) (epoch r) (adjustments r) (entries r) (file r) (writes r).

Definition persistInterval : Z := 64.

Definition load_entry (m : gmap string Entry) (ent : Entry) : gmap string Entry :=
  if (SliceID ent =? "")%string then m
  else <[SliceID ent := if is_nan (NegEWMA ent) || is_inf (NegEWMA ent) then ent <| NegEWMA := f0 |> else ent]> m.

Definition load (e : Engine) : Engine :=
  if (path e =? "")%string then e
  else match file e with
       | Saved p => e <| entries := foldl load_entry (entries e) (p_Entries p) |>
                      <| epoch := p_Epoch p |> <| adjustments := p_Adjustments p |>
       | _ => e
       end.

Definition configure (c : Config) : Config :=
  let positive (v d : f64) := if (v >? f0)%f64 then v else d in
  let count (v d : Z) := if 0 <? v then v else d in
  let d := Defaults in
  let c' := mkConfig (positive (ErrorBound c) (ErrorBound d)) (positive (Step c) (Step d))
    (count (MinSamples c) (MinSamples d)) (count (MinHits c) (MinHits d)) (count (FreezeEpochs c) (FreezeEpochs d))
    (if (Alpha c >? f0)%f64 && negb (is_nan (Alpha c)) && negb (is_inf (Alpha c)) then Alpha c else Alpha d)
    (positive (MinTau c) (MinTau d)) (positive (MaxTau c) (MaxTau d)) in
  if (MinTau c' >=? MaxTau c')%f64 then c' <| MaxTau := (MinTau c' + f_of_ratio 5 100)%f64 |> else c'.

Definition New (c : Config) (p : string) (f : state_file) (ws : list bool) : Engine :=
  if (ErrorBound c <? f0)%f64 then mkEngine Defaults p false 0 0 ∅ f ws
  else load (mkEngine (configure c) p true 0 0 ∅ f ws).

Definition by_slice (a b : Entry) : bool := string_less (SliceID a) (SliceID b).
Definition sorted_entries (e : Engine) : list Entry := go_sort by_slice ((map_to_list (entries e)).*2).

(** [json.Marshal] refuses NaN and the infinities. *)
Definition encodes (l : list Entry) : bool :=
  forallb (fun ent => finite (tau_low ent) && finite (NegEWMA ent)) l.

Definition persistLocked (e : Engine) : Engine :=
  if (path e =? "")%string then e
  else if negb (encodes (sorted_entries e)) then e
  else
    let ok := default true (head (writes e)) in
    let e := e <| writes ::= tail |> in
    if ok then e <| file := Saved (mkPersisted (sorted_entries e) (epoch e) (adjustments e)) |> else e.

(** A write is due after an adjustment and at every 64th observation. *)
Definition flush (write : bool) (e : Engine) : Engine :=
  if write || (epoch e mod persistInterval =? 0) then persistLocked e else e.

(** The evidence folded into an entry. *)
Definition fold_evidence (c : Config) (negative : bool) (ent : Entry) : Entry :=
  if negative then
    ent <| Neg ::= fun n => u64 (n + 1) |>
        <| NegEWMA ::= fun x => (Alpha c * f1 + (f1 - Alpha c) * x)%f64 |>
  else
    ent <| Pos ::= fun n => u64 (n + 1) |> <| NegEWMA ::= fun x => ((f1 - Alpha c) * x)%f64 |>.

(** The value an adjustment starts from. *)
Definition base_tau (c : Config) (curTau : f64) (ent : Entry) : f64 :=
  let base := tau_low ent in
  let base := if (base <=? f0)%f64 then curTau else base in
  if (base <=? f0)%f64 then MinTau c else base.

Definition tightens (c : Config) (ent : Entry) : bool := (NegEWMA ent >? ErrorBound c)%f64.

Definition next_tau (c : Config) (curTau : f64) (ent : Entry) : f64 :=
  let base := base_tau c curTau ent in
  let base :=
    if tightens c ent then (base + Step c)%f64
    else if (NegEWMA ent <? ErrorBound c / f_of_int 2)%f64 && (MinSamples c <=? Pos ent) then (base - Step c)%f64
    else base in
  fclamp (MinTau c) (MaxTau c) base.

Definition Observe (sliceID : string) (negative : bool) (curTau : f64) (e : Engine) : Engine :=
  if (sliceID =? "")%string then e
  else if negb (enabled e) then e
  else
    let c := cfg e in
    let e := e <| epoch ::= fun n => u64 (n + 1) |> in
    let ent := fold_evidence c negative (default (fresh_entry sliceID) (entries e !! sliceID)) in
    let store x e := e <| entries ::= <[sliceID := x]> |> in
    if 0 <? Frozen ent then flush false (store (ent <| Frozen ::= fun n => n - 1 |>) e)
    else if (MinSamples c <=? u64 (Pos ent + Neg ent))
            && negb (next_tau c curTau ent =? base_tau c curTau ent)%f64 then
      let ent := ent <| tau_low := next_tau c curTau ent |> <| Relaxed := negb (tightens c ent) |>
                     <| Frozen := FreezeEpochs c |> in
      flush true (store ent e <| adjustments ::= fun n => u64 (n + 1) |>)
    else flush false (store ent e).

Definition TauLow (sliceID : string) (global : f64) (e : Engine) : f64 :=
  if (sliceID =? "")%string then global
  else if negb (enabled e) then global
  else match entries e !! sliceID with
       | None => global
       | Some ent =>
           if (tau_low ent <=? f0)%f64 then global
           else if Relaxed ent && (Pos ent <? MinHits (cfg e)) then global
           else tau_low ent
       end.

Definition Snapshot (e : Engine) : list Entry := sorted_entries e.
Definition Adjustments (e : Engine) : Z := adjustments e.
Definition Epoch (e : Engine) : Z := epoch e.

(** A caller's observations, in order. *)
Definition observation : Type := string * bool * f64.
Definition observe_all (l : list observation) (e : Engine) : Engine :=
  foldl (fun e '(id, neg, cur) => Observe id neg cur e) e l.

(** ** One observation *)

(** The entry an observation starts from, with its evidence folded in. *)
Definition observed (id : string) (negative : bool) (e : Engine) : Entry :=
  fold_evidence (cfg e) negative (default (fresh_entry id) (entries e !! id)).

Definition adjusted (c : Config) (curTau : f64) (ent : Entry) : Entry :=
  ent <| tau_low := next_tau c curTau ent |> <| Relaxed := negb (tightens c ent) |> <| Frozen := FreezeEpochs c |>.

Definition adjusts (c : Config) (curTau : f64) (ent : Entry) : bool :=
  (MinSamples c <=? u64 (Pos ent + Neg ent)) && negb (next_tau c curTau ent =? base_tau c curTau ent)%f64.

Lemma persistLocked_frame e :
  cfg (persistLocked e) = cfg e /\ path (persistLocked e) = path e /\ enabled (persistLocked e) = enabled e
  /\ epoch (persistLocked e) = epoch e /\ adjustments (persistLocked e) = adjustments e
  /\ entries (persistLocked e) = entries e.
Proof.
  unfold persistLocked. destruct (_ =? _)%string; [done|]. destruct (negb _); [done|].
  by destruct (default true (head (writes e))).
Qed.

(** An observation of a slice stores one entry and either keeps the threshold
    or adjusts it; an adjustment always flushes, and so does every 64th
    observation. *)
Lemma Observe_cases id neg cur e :
  (id =? "")%string = false -> enabled e = true ->
  exists ent' (w : bool) e1,
    Observe id neg cur e = flush w e1
    /\ entries e1 = <[id := ent']> (entries e) /\ epoch e1 = u64 (epoch e + 1)
    /\ cfg e1 = cfg e /\ path e1 = path e /\ enabled e1 = enabled e /\ file e1 = file e /\ writes e1 = writes e
    /\ (if w then Frozen (observed id neg e) <= 0 /\ adjusts (cfg e) cur (observed id neg e) = true
               /\ ent' = adjusted (cfg e) cur (observed id neg e) /\ adjustments e1 = u64 (adjustments e + 1)
        else ent' = observed id neg e <| Frozen := Z.max 0 (Frozen (observed id neg e) - 1) |>
             \/ Frozen (observed id neg e) <= 0 /\ ent' = observed id neg e)
    /\ (w = false -> adjustments e1 = adjustments e).
Proof.
  intros Hid He. unfold Observe. rewrite Hid, He. cbv zeta. cbn [negb].
  set (e0 := e <| epoch := u64 (epoch e + 1) |>).
  change (e <| epoch ::= fun n => u64 (n + 1) |>) with e0. change (entries e0) with (entries e).
  change (fold_evidence _ neg _) with (observed id neg e). generalize (observed id neg e). intros ent.
  destruct (Z.ltb_spec 0 (Frozen ent)) as [Hf|Hf].
  - eexists _, false, _. split; [reflexivity|]. split_and!; try done. left.
    destruct ent as [? ? ? ? ? ? fr]. simpl in *. rewrite Z.max_r by lia. done.
  - fold (adjusts (cfg e) cur ent). destruct (adjusts (cfg e) cur ent).
    + eexists _, true, _. split; [reflexivity|]. by split_and!.
    + eexists _, false, _. split; [reflexivity|]. split_and!; try done. by right.
Qed.

Lemma Observe_noop id neg cur e :
  (id =? "")%string = true \/ enabled e = false -> Observe id neg cur e = e.
Proof. unfold Observe. by intros [-> | ->]; [|destruct (_ =? _)%string]. Qed.

Ltac observe_cases id neg cur e :=
  let Hid := fresh "Hid" in let He := fresh "He" in
  destruct (id =? "")%string eqn:Hid; [rewrite Observe_noop by auto|
  destruct (enabled e) eqn:He; [|rewrite Observe_noop by auto]].

(** What an observation does to the map of entries. *)
Lemma Observe_entries id neg cur e :
  Observe id neg cur e = e
  \/ (cfg (Observe id neg cur e) = cfg e
      /\ exists ent', entries (Observe id neg cur e) = <[id := ent']> (entries e)
         /\ (ent' = observed id neg e <| Frozen := Z.max 0 (Frozen (observed id neg e) - 1) |>
             \/ Frozen (observed id neg e) <= 0
                /\ (ent' = observed id neg e \/ ent' = adjusted (cfg e) cur (observed id neg e)))).
Proof.
  observe_cases id neg cur e; [by left| |by left]. right.
  destruct (Observe_cases id neg cur e Hid He) as (ent' & w & e1 & -> & Hen & _ & Hc & _ & _ & _ & _ & Hw & _).
  destruct (persistLocked_frame e1) as (Hc1 & _ & _ & _ & _ & He1). unfold flush.
  split; [destruct (w || _); congruence|]. exists ent'. split; [destruct (w || _); congruence|].
  destruct w; [right|]; naive_solver.
Qed.

Lemma fold_evidence_frame c neg ent :
  SliceID (fold_evidence c neg ent) = SliceID ent /\ tau_low (fold_evidence c neg ent) = tau_low ent
  /\ Relaxed (fold_evidence c neg ent) = Relaxed ent /\ Frozen (fold_evidence c neg ent) = Frozen ent.
Proof. by destruct neg. Qed.

Lemma observed_frame id neg e :
  let ent := default (fresh_entry id) (entries e !! id) in
  SliceID (observed id neg e) = SliceID ent /\ tau_low (observed id neg e) = tau_low ent
  /\ Relaxed (observed id neg e) = Relaxed ent /\ Frozen (observed id neg e) = Frozen ent.
Proof. apply fold_evidence_frame. Qed.

(** ** The band *)

Definition in_band (c : Config) (x : f64) : Prop := fleb (MinTau c) x = true /\ fleb x (MaxTau c) = true.

Definition banded (c : Config) : Prop :=
  finite (MinTau c) = true /\ finite (MaxTau c) = true /\ finite (Step c) = true /\ in_band c (MinTau c).

(** Not learned, or inside the band. *)
Definition tau_ok (c : Config) (ent : Entry) : Prop :=
  fleb (tau_low ent) f0 = true \/ in_band c (tau_low ent).

Lemma next_tau_band c cur ent :
  banded c -> finite cur = true -> tau_ok c ent -> in_band c (next_tau c cur ent).
Proof.
  intros (Hl & Hh & Hs & Hb) Hcur Hok. assert (Hlh : fleb (MinTau c) (MaxTau c) = true) by apply Hb.
  assert (Hbase : finite (base_tau c cur ent) = true).
  { unfold base_tau. destruct (tau_low ent <=? f0)%f64 eqn:E0; [by destruct (cur <=? f0)%f64|].
    rewrite E0. destruct Hok as [Hc|[H1 H2]]; [congruence|].
    by apply (fleb_finite (MinTau c) _ (MaxTau c)). }
  unfold next_tau, in_band. apply fclamp_range; [|done].
  assert (Hn : is_nan (base_tau c cur ent) = false) by (unfold finite in Hbase; by destruct (is_nan _)).
  assert (Hns : is_nan (Step c) = false) by (unfold finite in Hs; by destruct (is_nan _)).
  destruct (tightens c ent); [by apply fadd_not_nan|]. destruct (_ && _); [by apply fsub_not_nan|done].
Qed.

Lemma Observe_tau_ok id neg cur e :
  banded (cfg e) -> finite cur = true -> map_Forall (fun _ => tau_ok (cfg e)) (entries e) ->
  cfg (Observe id neg cur e) = cfg e /\ map_Forall (fun _ => tau_ok (cfg e)) (entries (Observe id neg cur e)).
Proof.
  intros Hb Hcur Hall. destruct (Observe_entries id neg cur e) as [->|(Hc & ent' & -> & Hent)]; [done|].
  split; [done|]. apply map_Forall_insert_2; [|done].
  destruct (observed_frame id neg e) as (_ & Ht & _ & _).
  assert (Hok : tau_ok (cfg e) (observed id neg e)).
  { unfold tau_ok. rewrite Ht. destruct (entries e !! id) eqn:El; [by apply (Hall _ _ El)|by left]. }
  destruct Hent as [->|[_ [->| ->]]]; [done|done|]. right. by apply next_tau_band.
Qed.

(** Learned thresholds stay legal.  From entries that are unlearned or inside
    the configured band, every sequence of observations leaves each learned
    threshold between the floor and the ceiling, so the decision path reads
    either the global value or one from the band. *)
Theorem learned_tau_in_band l e id global :
  banded (cfg e) -> map_Forall (fun _ => tau_ok (cfg e)) (entries e) ->
  Forall (fun o : observation => finite o.2 = true) l ->
  cfg (observe_all l e) = cfg e
  /\ map_Forall (fun _ => tau_ok (cfg e)) (entries (observe_all l e))
  /\ (TauLow id global (observe_all l e) = global \/ in_band (cfg e) (TauLow id global (observe_all l e))).
Proof.
  intros Hb Hall Hl. assert (H : cfg (observe_all l e) = cfg e
    /\ map_Forall (fun _ => tau_ok (cfg e)) (entries (observe_all l e))).
  { revert e Hb Hall. induction Hl as [|[[i n] x] l Hx Hl IH]; intros e Hb Hall; [done|]. simpl.
    destruct (Observe_tau_ok i n x e Hb Hx Hall) as [Hc Ho].
    rewrite <- Hc. apply IH; by rewrite Hc. }
  destruct H as [Hc Ho]. split; [done|]. split; [done|].
  unfold TauLow. destruct (_ =? _)%string; [by left|]. destruct (negb _); [by left|].
  destruct (entries _ !! id) as [ent|] eqn:El; [|by left]. pose proof (Ho _ _ El) as [Hf|Hok].
  - rewrite Hf. by left.
  - destruct (_ <=? _)%f64; [by left|]. destruct (_ && _); [by left|by right].
Qed.

(** ** The freeze window *)

Definition frozen_of (id : string) (e : Engine) : Z := from_option Frozen 0 (entries e !! id).
Definition tau_of (id : string) (e : Engine) : f64 := from_option tau_low f0 (entries e !! id).
Definition moves (id : string) (o : observation) (e : Engine) : Prop :=
  tau_of id (observe_all [o] e) <> tau_of id e.
Definition count_of (id : string) (l : list observation) : Z :=
  Z.of_nat (length (List.filter (fun o : observation => (o.1.1 =? id)%string) l)).

Lemma observe_frozen id o e :
  0 < frozen_of id e ->
  tau_of id (observe_all [o] e) = tau_of id e
  /\ frozen_of id e - (if (o.1.1 =? id)%string then 1 else 0) <= frozen_of id (observe_all [o] e).
Proof.
  destruct o as [[i n] x]. simpl. unfold frozen_of, tau_of. intros Hf.
  destruct (Observe_entries i n x e) as [->|(_ & ent' & -> & Hent)]; [split; [done|]; case_match; lia|].
  destruct (String.eqb_spec i id) as [->|Hne]; [|rewrite lookup_insert_ne by done; split; [done|lia]].
  rewrite lookup_insert_eq. destruct (observed_frame id n e) as (_ & Ht & _ & Hfr).
  destruct (entries e !! id) as [ent|]; simpl in *; [|lia].
  destruct Hent as [->|[Hz _]]; [|lia]. simpl. split; [done|lia].
Qed.

Lemma move_freezes id o e :
  moves id o e -> frozen_of id e <= 0 /\ frozen_of id (observe_all [o] e) = FreezeEpochs (cfg e).
Proof.
  intros Hm. split.
  { destruct (Z.leb_spec (frozen_of id e) 0) as [|Hf]; [done|]. by destruct (observe_frozen id o e Hf). }
  revert Hm. destruct o as [[i n] x]. unfold moves, frozen_of, tau_of. simpl.
  destruct (Observe_entries i n x e) as [->|(_ & ent' & -> & Hent)]; [done|].
  destruct (String.eqb_spec i id) as [->|Hne]; [|by rewrite lookup_insert_ne].
  rewrite lookup_insert_eq. simpl. destruct (observed_frame id n e) as (_ & Ht & _ & _).
  destruct (entries e !! id) as [ent|]; simpl in *; destruct Hent as [->|[_ [->| ->]]]; simpl; congruence.
Qed.

(** the freeze window is per slice.  Between two observations that move a
    slice's learned threshold lie at least [FreezeEpochs] other observations of
    that slice, whatever happens to other slices. *)
Theorem tau_moves_spaced id o1 l o2 e :
  moves id o1 e -> moves id o2 (observe_all (o1 :: l) e) ->
  FreezeEpochs (cfg e) <= count_of id l.
Proof.
  intros H1 H2. destruct (move_freezes id o1 e H1) as [_ <-].
  change (observe_all (o1 :: l) e) with (observe_all l (observe_all [o1] e)) in H2. revert H2.
  generalize (observe_all [o1] e). clear e H1. induction l as [|o l IH]; intros e H2.
  - by destruct (move_freezes id o2 e H2).
  - unfold count_of in *. simpl. destruct (Z.leb_spec (frozen_of id e) 0) as [|Hf]; [lia|].
    destruct (observe_frozen id o e Hf) as [_ Hle]. specialize (IH (observe_all [o] e) H2).
    destruct (_ =? _)%string; simpl; lia.
Qed.

(** ** The state file *)

(** What an entry contributes to the decision path beyond its counters. *)
Definition learned (ent : Entry) : option (f64 * bool) :=
  if (tau_low ent <=? f0)%f64 then None else Some (tau_low ent, Relaxed ent).

Definition keyed (m : gmap string Entry) : Prop := map_Forall (fun id ent => SliceID ent = id /\ id <> ""%string) m.

Lemma load_entries_keyed l m :
  encodes l = true -> Forall (fun ent => SliceID ent <> ""%string) l -> NoDup (map SliceID l) ->
  foldl load_entry m l = list_to_map (map (fun ent => (SliceID ent, ent)) l) ∪ m.
Proof.
  revert m. induction l as [|ent l IH]; intros m He Hne Hn; [simpl; by rewrite (left_id_L ∅ (∪))|].
  simpl in *. apply andb_true_iff in He as [Hent He]. apply andb_true_iff in Hent as [_ Hfin].
  apply Forall_cons in Hne as [Hne Hnes]. apply NoDup_cons in Hn as [Hni Hn].
  rewrite IH by done. unfold load_entry. destruct (String.eqb_spec (SliceID ent) ""); [done|].
  unfold finite in Hfin. destruct (is_nan _), (is_inf _); try done. simpl.
  rewrite <- insert_union_l, insert_union_r; [done|].
  apply not_elem_of_list_to_map_1. intros ([id ent'] & Hx & Hin)%list_elem_of_fmap. apply Hni.
  apply list_elem_of_In, in_map_iff in Hin as (x & [= <- <-] & Hin). simpl in Hx. rewrite Hx.
  apply list_elem_of_In, in_map_iff. eauto.
Qed.

Lemma map_SliceID_keyed m :
  keyed m -> map (fun ent => (SliceID ent, ent)) (map_to_list m).*2 = map_to_list m.
Proof.
  intros Hk. rewrite <- list_fmap_compose. rewrite <- (list_fmap_id (map_to_list m)) at 2.
  apply list_fmap_ext. intros _ [id ent] Hin%list_elem_of_lookup_2. simpl.
  apply elem_of_map_to_list in Hin. by destruct (Hk _ _ Hin) as [-> _].
Qed.

(** Reading back a written state file restores the entries. *)
Lemma load_saved e :
  keyed (entries e) -> encodes (sorted_entries e) = true ->
  foldl load_entry ∅ (sorted_entries e) = entries e.
Proof.
  intros Hk Henc. assert (Hp : sorted_entries e ≡ₚ (map_to_list (entries e)).*2) by apply go_sort_perm.
  assert (Hpm : map (fun ent => (SliceID ent, ent)) (sorted_entries e) ≡ₚ map_to_list (entries e)).
  { rewrite <- (map_SliceID_keyed (entries e) Hk). by apply (fmap_Permutation (fun ent => (SliceID ent, ent))). }
  assert (Hn : NoDup (map SliceID (sorted_entries e))).
  { replace (map SliceID (sorted_entries e)) with ((map (fun ent => (SliceID ent, ent)) (sorted_entries e)).*1)
      by (by rewrite <- list_fmap_compose). rewrite Hpm. apply NoDup_fst_map_to_list. }
  rewrite load_entries_keyed; [|done| |done].
  - rewrite (right_id_L ∅ (∪)). rewrite (list_to_map_proper _ (map_to_list (entries e))); [apply list_to_map_to_list| |done].
    rewrite Hpm. apply NoDup_fst_map_to_list.
  - rewrite Hp. apply Forall_forall. intros ent ([id ent'] & -> & Hin%elem_of_map_to_list)%list_elem_of_fmap.
    destruct (Hk _ _ Hin) as [Hid Hne]. simpl. by rewrite Hid.
Qed.

(** The engine a restart would build from the file. *)
Definition restarted (e : Engine) : Engine :=
  load (mkEngine (cfg e) (path e) true 0 0 ∅ (file e) []).

Definition recovers (e : Engine) : Prop :=
  omap learned (entries (restarted e)) = omap learned (entries e)
  /\ adjustments (restarted e) = adjustments e
  /\ epoch e / persistInterval * persistInterval <= epoch (restarted e) <= epoch e.

Lemma flush_recovers w e :
  path e <> ""%string -> keyed (entries e) -> encodes (sorted_entries e) = true -> writes e = [] -> 0 <= epoch e ->
  (w = false -> epoch e mod persistInterval <> 0 -> recovers e) ->
  recovers (flush w e) /\ writes (flush w e) = [].
Proof.
  intros Hp Hk Henc Hw Hep Hr. unfold flush. destruct (w || _) eqn:Ew;
    [|apply orb_false_iff in Ew as [-> Ew%Z.eqb_neq]; by auto].
  unfold persistLocked. rewrite (proj2 (String.eqb_neq _ _) Hp), Henc, Hw. simpl. split; [|by rewrite Hw].
  unfold recovers, restarted, load. simpl. rewrite (proj2 (String.eqb_neq _ _) Hp). simpl.
  change (sorted_entries (_ <| writes ::= tail |>)) with (sorted_entries e). rewrite load_saved by done.
  split_and!; [done|done| |done]. unfold persistInterval.
  pose proof (Z.div_mod (epoch e) 64). pose proof (Z.mod_pos_bound (epoch e) 64). lia.
Qed.

Lemma flush_frame w e :
  cfg (flush w e) = cfg e /\ path (flush w e) = path e /\ enabled (flush w e) = enabled e
  /\ epoch (flush w e) = epoch e /\ adjustments (flush w e) = adjustments e /\ entries (flush w e) = entries e.
Proof. unfold flush. destruct (_ || _); [apply persistLocked_frame|done]. Qed.

Record durable (e : Engine) : Prop := {
  du_path : path e <> ""%string;
  du_enabled : enabled e = true;
  du_writes : writes e = [];
  du_keyed : keyed (entries e);
  du_recovers : recovers e;
}.

Lemma Observe_durable id neg cur e :
  durable e -> 0 <= epoch e < 2 ^ 64 - 1 -> encodes (sorted_entries (Observe id neg cur e)) = true ->
  durable (Observe id neg cur e) /\ epoch e <= epoch (Observe id neg cur e) <= epoch e + 1.
Proof.
  intros [Hp Hen Hw Hk Hr] Hep Henc. destruct (id =? "")%string eqn:Hid.
  { rewrite Observe_noop by auto. split; [done|lia]. }
  destruct (Observe_cases id neg cur e Hid Hen) as (ent & w & e1 & Heq & He1 & Hep1 & Hc1 & Hp1 & Hen1 & Hf1 & Hw1 & Hent & Hadj).
  destruct (flush_frame w e1) as (Hfc & Hfp & Hfe & Hfep & _ & Hfen). rewrite Heq in *.
  unfold sorted_entries in Henc. rewrite Hfen in Henc. fold (sorted_entries e1) in Henc.
  rewrite u64_id in Hep1 by (unfold in_u64; lia).
  destruct (observed_frame id neg e) as (Hsid & Htau & Hrel & _).
  assert (Hk1 : keyed (entries e1)).
  { rewrite He1. apply map_Forall_insert_2; [|done]. apply String.eqb_neq in Hid. split; [|done].
    assert (Ho : SliceID (observed id neg e) = id) by (rewrite Hsid; destruct (entries e !! id) eqn:El; [by apply (Hk _ _ El)|done]).
    destruct w; [destruct Hent as (_ & _ & -> & _)|destruct Hent as [->|[_ ->]]]; done. }
  destruct (flush_recovers w e1) as [Hrec Hws]; [by rewrite Hp1|done|done|by rewrite Hw1|lia| |].
  - intros -> Hmod. destruct Hr as (Ht & Ha & Hlag). unfold recovers.
    assert (Hre : restarted e1 = restarted e) by (unfold restarted; by rewrite Hc1, Hp1, Hf1). rewrite Hre, Ht, Ha.
    split_and!; [|by rewrite Hadj| |lia].
    + rewrite He1. apply map_eq. intros i. rewrite !lookup_omap. destruct (decide (i = id)) as [->|Hne];
        [|by rewrite lookup_insert_ne].
      rewrite lookup_insert_eq. simpl. assert (Hl : learned ent = learned (default (fresh_entry id) (entries e !! id)))
        by (unfold learned; destruct Hent as [->|[_ ->]]; simpl; by rewrite Htau, Hrel).
      rewrite Hl. by destruct (entries e !! id).
    + unfold persistInterval in *. rewrite Hep1 in *. pose proof (Z.div_mod (epoch e) 64).
      pose proof (Z.div_mod (epoch e + 1) 64). pose proof (Z.mod_pos_bound (epoch e) 64).
      pose proof (Z.mod_pos_bound (epoch e + 1) 64). lia.
  - split; [|rewrite Hfep; lia]. constructor; [by rewrite Hfp, Hp1|by rewrite Hfe, Hen1|done|by rewrite Hfen|done].
Qed.

Lemma Observe_config id neg cur e : cfg (Observe id neg cur e) = cfg e /\ path (Observe id neg cur e) = path e.
Proof.
  observe_cases id neg cur e; [done| |done].
  destruct (Observe_cases id neg cur e Hid He) as (ent & w & e1 & -> & _ & _ & Hc & Hp & _).
  destruct (flush_frame w e1) as (-> & -> & _). done.
Qed.

Lemma New_enabled c p f :
  (ErrorBound c <? f0)%f64 = false -> New c p f [] = load (mkEngine (configure c) p true 0 0 ∅ f []).
Proof. intros Hb. unfold New. by rewrite Hb. Qed.

Lemma New_missing c p :
  (ErrorBound c <? f0)%f64 = false -> New c p Missing [] = mkEngine (configure c) p true 0 0 ∅ Missing [].
Proof. intros Hb. rewrite New_enabled by done. unfold load. by destruct (_ =? _)%string. Qed.

Lemma history_durable c p l :
  p <> ""%string -> (ErrorBound c <? f0)%f64 = false -> Z.of_nat (length l) < 2 ^ 64 ->
  (forall k, encodes (sorted_entries (observe_all (take k l) (New c p Missing []))) = true) ->
  let e := observe_all l (New c p Missing []) in
  durable e /\ cfg e = configure c /\ path e = p /\ 0 <= epoch e <= Z.of_nat (length l).
Proof.
  intros Hp Hb. rewrite New_missing by done. induction l as [|o l IH] using rev_ind; intros Hlen Henc; cbv zeta.
  { split_and!; try done. constructor; try done. unfold recovers, restarted, load. simpl.
    destruct (String.eqb_spec p ""); [done|]. simpl. by rewrite omap_empty. }
  rewrite length_app in Hlen. simpl in Hlen. destruct IH as (Hd & Hc & Hpt & Hep); [lia| |].
  { intros k. specialize (Henc (min k (length l))). rewrite take_app_le in Henc by lia.
    destruct (decide (k <= length l)%nat); [by rewrite Nat.min_l in Henc by lia|].
    rewrite Nat.min_r, firstn_all in Henc by lia. by rewrite take_ge by lia. }
  specialize (Henc (length (l ++ [o]))). rewrite firstn_all in Henc.
  destruct o as [[id neg] cur]. unfold observe_all in Henc |- *. rewrite foldl_app in Henc |- *. simpl in Henc |- *.
  match goal with |- context [Observe id neg cur ?e] => change e with (observe_all l (mkEngine (configure c) p true 0 0 ∅ Missing [])) in * end.
  destruct (Observe_durable id neg cur _ Hd) as [Hd' Hep']; [lia|done|].
  destruct (Observe_config id neg cur (observe_all l (mkEngine (configure c) p true 0 0 ∅ Missing []))) as [-> ->].
  rewrite length_app. simpl. split_and!; [done..|lia|lia].
Qed.

(** a restart keeps what was learned.  When every rewrite of the state file
    succeeds and the state stays finite, the engine built from the file after
    any history has exactly the learned thresholds (with their gating flag) and
    the adjustment count of the running one, and lags its observation count by
    less than 64. *)
Theorem restart_keeps_thresholds c p l :
  p <> ""%string -> (ErrorBound c <? f0)%f64 = false -> Z.of_nat (length l) < 2 ^ 64 ->
  (forall k, encodes (sorted_entries (observe_all (take k l) (New c p Missing []))) = true) ->
  let e := observe_all l (New c p Missing []) in
  let e' := New c p (file e) [] in
  omap learned (entries e') = omap learned (entries e)
  /\ adjustments e' = adjustments e
  /\ epoch e - persistInterval < epoch e' <= epoch e.
Proof.
  intros Hp Hb Hlen Henc. cbv zeta. pose proof (history_durable c p l Hp Hb Hlen Henc) as H.
  destruct H as (Hd & Hc & Hpt & Hep). destruct (du_recovers _ Hd) as (Ht & Ha & Hlag).
  unfold restarted in *. rewrite Hc, Hpt, <- New_enabled in * by done. split_and!; [done|done| |lia].
  unfold persistInterval in *.
  pose proof (Z.div_mod (epoch (observe_all l (New c p Missing []))) 64).
  pose proof (Z.mod_pos_bound (epoch (observe_all l (New c p Missing []))) 64). lia.
Qed.

(** ** Loosening on negative evidence *)

Definition repeat_obs (n : nat) (o : observation) : list observation := repeat o n.

(** Every adjustment needs a full sample of the slice and an open window, and
    only positive evidence sets the flag that gates a looser threshold; yet a
    false hit can loosen the threshold in effect in two ways.  A global value
    above the ceiling is pulled down to it by a slice whose reuses all failed;
    and when MinHits exceeds MinSamples, one false hit clears the gate of a
    threshold relaxed twice while still below the global value. *)

(** Negative evidence can loosen.  Twenty false hits at a global threshold of
    0.90 bring the slice's threshold down to 0.80; and with MinHits 30 a false
    hit on a gated, relaxed slice lowers the threshold in effect from 0.55. *)
Theorem negatives_can_loosen :
  let g := f_of_ratio 90 100 in
  let bad := observe_all (repeat_obs 20 ("s"%string, true, g)) (New (mkConfig f0 f0 0 0 0 f0 f0 f0) "" Missing []) in
  let h := f_of_ratio 55 100 in
  let gated := observe_all (repeat_obs 23 ("s"%string, false, h)) (New (mkConfig f0 f0 0 30 1 f0 f0 f0) "" Missing []) in
  fltb (TauLow "s" g bad) g = true
  /\ TauLow "s" h gated = h /\ fltb (TauLow "s" h (Observe "s" true h gated)) h = true.
Proof. by vm_compute. Qed.

(** ** The properties at concrete inputs *)

Definition sample_config : Config := mkConfig f0 f0 3 0 2 f0 f0 f0.
Definition sample_engine : Engine := New sample_config "l3-adapt.json" Missing [].
Definition sample_tau : f64 := f_of_ratio 55 100.
Definition sample_history : list observation :=
  [("a", true, sample_tau); ("b", false, sample_tau); ("a", true, sample_tau); ("a", true, sample_tau);
   ("a", true, sample_tau); ("b", false, sample_tau)]%string.

Example learned_tau_in_band_witness :
  TauLow "a" sample_tau (observe_all sample_history sample_engine) = sample_tau
  \/ in_band (cfg sample_engine) (TauLow "a" sample_tau (observe_all sample_history sample_engine)).
Proof.
  refine (proj2 (proj2 (learned_tau_in_band sample_history sample_engine "a" sample_tau _ _ _))).
  - by vm_compute.
  - apply map_Forall_empty.
  - repeat constructor.
Defined.

Example tau_moves_spaced_witness : 2 <= count_of "a" (repeat_obs 2 ("a"%string, true, sample_tau)).
Proof.
  refine (tau_moves_spaced "a" ("a"%string, true, sample_tau) (repeat_obs 2 ("a"%string, true, sample_tau))
            ("a"%string, true, sample_tau)
            (observe_all (repeat_obs 2 ("a"%string, true, sample_tau)) sample_engine) _ _);
    (intros H; vm_compute in H; discriminate H).
Defined.

Example restart_keeps_thresholds_witness :
  let e := observe_all sample_history sample_engine in
  omap learned (entries (New sample_config "l3-adapt.json" (file e) [])) = omap learned (entries e).
Proof.
  refine (proj1 (restart_keeps_thresholds sample_config "l3-adapt.json" sample_history _ _ _ _)).
  - discriminate.
  - vm_compute. reflexivity.
  - simpl. lia.
  - intros k. do 6 (destruct k as [|k]; [vm_compute; reflexivity|]). destruct k; vm_compute; reflexivity.
Defined.
