(* ===== verification/GatewayConfig.v ===== *)
(** gateway/config.go: the gateway's configuration - environment references,
    validation, model routing, freshness windows and the effective zones.

    [os.LookupEnv], [os.UserHomeDir], [url.Parse] and the read of the evolve state
    are arguments.  A pointer field is an option.  Error texts carry no values. *)

From Stdlib Require Import ZArith Lia Bool Ascii String.
From stdpp Require Import tactics base option list sorting gmap strings.
From S2P Require Import Prelude Float64 Evolve GoStrings Text GoPath Slice Fuse Zone.

#[global] Open Scope Z_scope.

(** ** The configuration *)

Record ServerConfig := mkServer { sv_Addr : string; sv_GatewayKey : string; sv_HealthTimeoutSeconds : Z }.
Record StoreConfig := mkStore { st_DB : string; st_Scope : string; st_DepsRoot : string; st_MaxSlices : option Z }.

Record zoneOverride := mkOverride { zo_TauHigh : option f64; zo_TauLow : option f64; zo_AbsHigh : option f64; zo_AbsLow : option f64 }.

Record RetrievalConfig := mkRetrieval {
  rt_Retriever : string; rt_TopK : Z; rt_Budget : Z; rt_VectorDim : Z;
  rt_Fusion : string; rt_RrfK : Z; rt_BM25Weight : option f64;
  rt_EmbedBackend : string; rt_EmbedBaseURL : string; rt_EmbedModel : string; rt_GreyMode : string;
  rt_Zones : zoneOverride;                 (* TauHigh, TauLow, AbsHigh, AbsLow *)
  rt_EvolveDB : string; rt_Adaptive : option bool; rt_ErrorBound : f64; rt_AdaptDB : string;
  rt_ByType : gmap string zoneOverride;
  rt_EventsLog : string; rt_RerankBaseURL : string; rt_RerankTopN : Z; rt_RerankTimeoutMs : Z;
}.

Record CacheConfig := mkCache {
  ca_TTLSeconds : Z; ca_VendorTTL : gmap string Z;
  ca_JudgeAPIKey : string; ca_JudgeBaseURL : string; ca_JudgeModel : string; ca_JudgeProtocol : string; ca_JudgeTimeoutMs : Z;
  ca_LexicalFloor : option f64; ca_FalseHitSim : f64;
  ca_PromoteDB : string; ca_PromoteTTLSeconds : Z; ca_PromoteConsensus : Z; ca_RejectLimit : Z;
}.

Record BillingConfig := mkBilling {
  bl_Enabled : bool; bl_FreeTokens : Z; bl_RechargeURL : string; bl_StateFile : string;
  bl_BalanceURL : string; bl_BalanceKey : string; bl_BalanceCacheSeconds : Z;
}.

Record SliceConfig := mkSliceCfg { sl_MinInjectOrigin : string }.
Record IngestConfig := mkIngest { ig_SessionsDir : string; ig_UsageLog : string; ig_L3SafeDefault : bool }.
Record SanitizeConfig := mkSanitize { sn_StripAttribution : option bool; sn_AttributionMarkers : list string; sn_SortTools : option bool }.

Record UpstreamConfig := mkUpstream {
  up_Name : string; up_BaseURL : string; up_APIKey : string; up_ModelAlias : list string; up_UpstreamModel : string;
  up_Vendor : string; up_StripCacheControl : bool; up_CacheBreakpoints : string;
}.

Record Config := mkConfig {
  Server : ServerConfig; Store : StoreConfig; Retrieval : RetrievalConfig; Cache : CacheConfig; Ingest : IngestConfig;
  SliceCfg : SliceConfig; Sanitize : SanitizeConfig; Billing : BillingConfig; Upstreams : list UpstreamConfig;
}.

#[export] Instance ServerConfig_eta : Eta ServerConfig := fun r => mkServer (sv_Addr r) (sv_GatewayKey r) (sv_HealthTimeoutSeconds r).
#[export] Instance StoreConfig_eta : Eta StoreConfig := fun r => mkStore (st_DB r) (st_Scope r) (st_DepsRoot r) (st_MaxSlices r).
#[export] Instance RetrievalConfig_eta : Eta RetrievalConfig := fun r =>
  mkRetrieval (rt_Retriever r) (rt_TopK r) (rt_Budget r) (rt_VectorDim r) (rt_Fusion r) (rt_RrfK r) (rt_BM25Weight r)
    (rt_EmbedBackend r) (rt_EmbedBaseURL r) (rt_EmbedModel r) (rt_GreyMode r) (rt_Zones r) (rt_EvolveDB r) (rt_Adaptive r)
    (rt_ErrorBound r) (rt_AdaptDB r) (rt_ByType r) (rt_EventsLog r) (rt_RerankBaseURL r) (rt_RerankTopN r) (rt_RerankTimeoutMs r).
#[export] Instance CacheConfig_eta : Eta CacheConfig := fun r =>
  mkCache (ca_TTLSeconds r) (ca_VendorTTL r) (ca_JudgeAPIKey r) (ca_JudgeBaseURL r) (ca_JudgeModel r) (ca_JudgeProtocol r)
    (ca_JudgeTimeoutMs r) (ca_LexicalFloor r) (ca_FalseHitSim r) (ca_PromoteDB r) (ca_PromoteTTLSeconds r) (ca_PromoteConsensus r)
    (ca_RejectLimit r).
#[export] Instance BillingConfig_eta : Eta BillingConfig := fun r =>
  mkBilling (bl_Enabled r) (bl_FreeTokens r) (bl_RechargeURL r) (bl_StateFile r) (bl_BalanceURL r) (bl_BalanceKey r)
    (bl_BalanceCacheSeconds r).
#[export] Instance IngestConfig_eta : Eta IngestConfig := fun r => mkIngest (ig_SessionsDir r) (ig_UsageLog r) (ig_L3SafeDefault r).
#[export] Instance UpstreamConfig_eta : Eta UpstreamConfig := fun r =>
  mkUpstream (up_Name r) (up_BaseURL r) (up_APIKey r) (up_ModelAlias r) (up_UpstreamModel r) (up_Vendor r) (up_StripCacheControl r)
    (up_CacheBreakpoints r).
#[export] Instance Config_eta : Eta Config := fun r =>
  mkConfig (Server r) (Store r) (Retrieval r) (Cache r) (Ingest r) (SliceCfg r) (Sanitize r) (Billing r) (Upstreams r).

(** ** Effective settings *)

Definition StripAttributionEnabled (s : SanitizeConfig) : bool := default true (sn_StripAttribution s).
Definition SortToolsEnabled (s : SanitizeConfig) : bool := default true (sn_SortTools s).

Definition builtinAttributionMarkers : list string := ["x-anthropic-billing-header"%string].

Definition EffectiveAttributionMarkers (s : SanitizeConfig) : list string :=
  builtinAttributionMarkers ++ filter (fun m => m <> ""%string) (map trim_space (sn_AttributionMarkers s)).

Definition defaultMaxSlices : Z := 5000.
Definition EffectiveMaxSlices (s : StoreConfig) : Z := default defaultMaxSlices (st_MaxSlices s).

Definition defaultVendorTTLSeconds : gmap string Z := list_to_map [("deepseek"%string, 24 * 60 * 60); ("anthropic"%string, 5 * 60)].

Definition TTLFor (c : Config) (vendor : string) : Z :=
  match ca_VendorTTL (Cache c) !! vendor with
  | Some v => v
  | None => default (ca_TTLSeconds (Cache c)) (defaultVendorTTLSeconds !! vendor)
  end.

Definition minInjectOrigin (c : Config) : Origin :=
  let o := sl_MinInjectOrigin (SliceCfg c) in
  if existsb (String.eqb o) ["import"; "session-auto"; "prefetch"; "user-curated"]%string then o else ""%string.

Definition fusionConfig (c : Config) : Fuse.Config :=
  Fuse.mkConfig (if (rt_Fusion (Retrieval c) =? "rrf")%string then RRF else Weighted) (rt_RrfK (Retrieval c)) (rt_BM25Weight (Retrieval c)).

(** [ModelList]: the keys of a set of aliases, sorted. *)
Definition ModelList (c : Config) : list string :=
  sort_strings (base.elements (list_to_set (flat_map up_ModelAlias (Upstreams c)) : gset string)).

Fixpoint upstream_for (model : string) (us : list UpstreamConfig) : option UpstreamConfig :=
  match us with
  | [] => None
  | u :: t => if existsb (fun a => (a =? model)%string) (up_ModelAlias u) then Some u else upstream_for model t
  end.

Definition UpstreamFor (c : Config) (model : string) : option UpstreamConfig := upstream_for model (Upstreams c).

(** ** Environment references *)

Section Expand.
Context (env : string -> option string) (home : result string).

Fixpoint expand_loop (n : nat) (b rest : string) : result string :=
  match n with
  | O => Ok (b +:+ rest)
  | S n =>
      match cut "${" rest with
      | None => Ok (b +:+ rest)
      | Some (lit, after) =>
          match cut "}" after with
          | None => Err "unterminated ${"
          | Some (name, rest') =>
              match env name with
              | None => Err ("environment variable " +:+ name +:+ " is not set")
              | Some val => expand_loop n (b +:+ lit +:+ val) rest'
              end
          end
      end
  end.

Definition expandField (v : string) : result string :=
  if (v =? "")%string then Ok ""%string else expand_loop (S (String.length v)) "" v.

Definition expandHome (p : string) : result string :=
  if (p =? "~")%string || has_prefix p "~/" || has_prefix p "~\" then
    let? h := home in Ok (if (p =? "~")%string then h else Join h (String.substring 2 (String.length p - 2) p))
  else Ok p.

Fixpoint expand_list (l : list string) : result (list string) :=
  match l with
  | [] => Ok []
  | v :: t => let? x := expandField v in let? xs := expand_list t in Ok (x :: xs)
  end.

Definition expand_upstream (u : UpstreamConfig) : result UpstreamConfig :=
  let? name := expandField (up_Name u) in
  let? url := expandField (up_BaseURL u) in
  let? key := expandField (up_APIKey u) in
  let? model := expandField (up_UpstreamModel u) in
  let? vendor := expandField (up_Vendor u) in
  let? alias := expand_list (up_ModelAlias u) in
  Ok (u <| up_Name := name |> <| up_BaseURL := url |> <| up_APIKey := key |> <| up_UpstreamModel := model |>
        <| up_Vendor := vendor |> <| up_ModelAlias := alias |>).

Fixpoint expand_upstreams (us : list UpstreamConfig) : result (list UpstreamConfig) :=
  match us with
  | [] => Ok []
  | u :: t => let? x := expand_upstream u in let? xs := expand_upstreams t in Ok (x :: xs)
  end.

Definition home_if (p : string) : result string := if (p =? "")%string then Ok p else expandHome p.

Definition expand (c : Config) : result Config :=
  let? addr := expandField (sv_Addr (Server c)) in
  let? gkey := expandField (sv_GatewayKey (Server c)) in
  let? db := expandField (st_DB (Store c)) in
  let? scope := expandField (st_Scope (Store c)) in
  let? root := expandField (st_DepsRoot (Store c)) in
  let? retriever := expandField (rt_Retriever (Retrieval c)) in
  let? jkey := expandField (ca_JudgeAPIKey (Cache c)) in
  let? jurl := expandField (ca_JudgeBaseURL (Cache c)) in
  let? jmodel := expandField (ca_JudgeModel (Cache c)) in
  let? jproto := expandField (ca_JudgeProtocol (Cache c)) in
  let? sessions := expandField (ig_SessionsDir (Ingest c)) in
  let? ulog := expandField (ig_UsageLog (Ingest c)) in
  let? recharge := expandField (bl_RechargeURL (Billing c)) in
  let? state := expandField (bl_StateFile (Billing c)) in
  let? burl := expandField (bl_BalanceURL (Billing c)) in
  let? bkey := expandField (bl_BalanceKey (Billing c)) in
  let? ups := expand_upstreams (Upstreams c) in
  let? db := home_if db in
  let? root := home_if root in
  let? sessions := home_if sessions in
  let? ulog := home_if ulog in
  let? state := home_if state in
  Ok (c <| Server ::= fun s => s <| sv_Addr := addr |> <| sv_GatewayKey := gkey |> |>
        <| Store ::= fun s => s <| st_DB := db |> <| st_Scope := scope |> <| st_DepsRoot := root |> |>
        <| Retrieval ::= fun r => r <| rt_Retriever := retriever |> |>
        <| Cache ::= fun k => k <| ca_JudgeAPIKey := jkey |> <| ca_JudgeBaseURL := jurl |> <| ca_JudgeModel := jmodel |>
                                <| ca_JudgeProtocol := jproto |> |>
        <| Ingest ::= fun i => i <| ig_SessionsDir := sessions |> <| ig_UsageLog := ulog |> |>
        <| Billing ::= fun b => b <| bl_RechargeURL := recharge |> <| bl_StateFile := state |> <| bl_BalanceURL := burl |>
                                  <| bl_BalanceKey := bkey |> |>
        <| Upstreams := ups |>).
End Expand.

(** ** Validation *)

Definition blank (s : string) : bool := (trim_space s =? "")%string.
Definition one_of (s : string) (l : list string) : bool := existsb (String.eqb s) l.

Definition supportedVendors : list string := ["deepseek"; "openai"; "moonshot"; "anthropic"]%string.
Definition validCacheBreakpoints : list string := [""; "always"; "l2_only"; "off"]%string.
Definition validScope (s : string) : bool := one_of s ["session"; "project"; "user"]%string.
Definition validRetriever (s : string) : bool := one_of s ["bm25"; "vector"; "hybrid"]%string.
Definition defaultFreeTokens : Z := 10000000.

(** The first failing check of a list. *)
Fixpoint first_failure (l : list (bool * string)) : option string :=
  match l with
  | [] => None
  | (bad, e) :: t => if bad then Some e else first_failure t
  end.

Definition bad_tau (v : option f64) : bool :=
  match v with Some x => negb (finite x) || (x <=? f0)%f64 || (x >? f1)%f64 | None => false end.
Definition bad_abs (v : option f64) : bool := match v with Some x => negb (finite x) || (x <? f0)%f64 | None => false end.
Definition bad_order (o : zoneOverride) : bool :=
  match zo_TauHigh o, zo_TauLow o with Some h, Some l => (h <=? l)%f64 | _, _ => false end.

Definition override_checks (o : zoneOverride) : list (bool * string) :=
  [(bad_tau (zo_TauHigh o), "tau_high"); (bad_tau (zo_TauLow o), "tau_low");
   (bad_abs (zo_AbsHigh o), "abs_high"); (bad_abs (zo_AbsLow o), "abs_low"); (bad_order o, "tau_high must be > tau_low")]%string.

(** A rate in [0,1]: neither NaN nor infinite nor outside. *)
Definition bad_rate (x : f64) : bool := negb (finite x) || (x <? f0)%f64 || (x >? f1)%f64.
Definition minus_one : f64 := f_of_int (-1).

Section Validate.
Context (parse_url : string -> result (string * string)).      (* scheme and host *)

Definition validateLoopbackURL (raw : string) : option string :=
  match parse_url raw with
  | Err e => Some e
  | Ok (scheme, host) =>
      if negb (scheme =? "http")%string then Some "must use plain http on loopback"%string
      else if negb (one_of host ["127.0.0.1"; "::1"; "localhost"]%string) then Some "host must be loopback"%string else None
  end.

Definition head_checks (c : Config) : list (bool * string) :=
  let r := Retrieval c in
  [(blank (sv_Addr (Server c)), "[server] addr is required");
   ((sv_GatewayKey (Server c) =? "")%string, "[server] gateway_key is required");
   (blank (st_DB (Store c)), "[store] db is required");
   (negb (st_Scope (Store c) =? "")%string && negb (validScope (st_Scope (Store c))), "[store] scope");
   (negb (rt_Retriever r =? "")%string && negb (validRetriever (rt_Retriever r)), "[retrieval] retriever is not supported");
   (negb (one_of (sl_MinInjectOrigin (SliceCfg c)) [""; "import"; "session-auto"; "prefetch"; "user-curated"]%string),
    "[slice] min_inject_origin");
   (negb (one_of (rt_Fusion r) [""; "weighted"; "rrf"]%string), "[retrieval] fusion must be weighted or rrf");
   (negb (rt_RerankBaseURL r =? "")%string && negb (if validateLoopbackURL (rt_RerankBaseURL r) is None then true else false),
    "[retrieval] rerank_base_url");
   ((rt_RerankTopN r <? 0)%Z, "[retrieval] rerank_top_n must be >= 0");
   ((rt_RerankTimeoutMs r <? 0)%Z, "[retrieval] rerank_timeout_ms must be >= 0");
   ((rt_RrfK r <? 0)%Z, "[retrieval] rrf_k must be >= 0");
   (match rt_BM25Weight r with Some w => bad_rate w | None => false end, "[retrieval] bm25_weight must be in [0,1]")]%string
  ++ override_checks (rt_Zones r)
  ++ [(negb (rt_ErrorBound r =? f0)%f64 && negb (rt_ErrorBound r =? minus_one)%f64 && bad_rate (rt_ErrorBound r),
       "[retrieval] error_bound must be -1 (disabled) or in [0,1]")]%string.

(** The entries of the map come in no particular order. *)
Definition type_checks (entries : list (string * zoneOverride)) : list (bool * string) :=
  flat_map (fun e => (if TypeFromString e.1 is Some _ then false else true, "[retrieval] by_type key is not a slice type"%string)
                     :: override_checks e.2) entries.

Definition tail_checks (c : Config) : list (bool * string) :=
  let k := Cache c in
  [(negb (ca_JudgeAPIKey k =? "")%string && (blank (ca_JudgeBaseURL k) || blank (ca_JudgeModel k)),
    "[cache] judge_api_key requires judge_base_url and judge_model");
   (negb (one_of (ca_JudgeProtocol k) [""; "openai"; "anthropic"]%string), "[cache] judge_protocol");
   ((ca_TTLSeconds k <? 0)%Z, "[cache] ttl_seconds must be >= 0");
   (negb (ca_FalseHitSim k =? f0)%f64 && negb (ca_FalseHitSim k =? minus_one)%f64 && bad_rate (ca_FalseHitSim k),
    "[cache] false_hit_sim must be -1 (disabled) or in [0,1]");
   (negb (ca_PromoteConsensus k =? 0)%Z && negb (ca_PromoteConsensus k =? 1)%Z && negb (ca_PromoteConsensus k =? 2)%Z,
    "[cache] promote_consensus must be 1 or 2");
   ((ca_PromoteTTLSeconds k <? 0)%Z, "[cache] promote_ttl_seconds must be >= 0");
   ((ca_RejectLimit k <? -1)%Z, "[cache] reject_limit must be >= -1");
   ((sv_HealthTimeoutSeconds (Server c) <? 0)%Z, "[server] health_timeout_seconds must be >= 0");
   (match st_MaxSlices (Store c) with Some n => (n <? 0)%Z | None => false end, "[store] max_slices must be >= 0")]%string.

Definition validate_billing (b : BillingConfig) : result BillingConfig :=
  if negb (bl_Enabled b) then Ok b
  else if (bl_FreeTokens b <? 0)%Z then Err "[billing] free_tokens must be >= 0"
  else
    let b := if (bl_FreeTokens b =? 0)%Z then b <| bl_FreeTokens := defaultFreeTokens |> else b in
    if blank (bl_RechargeURL b) then Err "[billing] recharge_url is required when billing is enabled"
    else if negb (Bool.eqb (bl_BalanceURL b =? "")%string (bl_BalanceKey b =? "")%string) then
      Err "[billing] balance_url and balance_key must be set together"
    else if (bl_BalanceCacheSeconds b <? 0)%Z then Err "[billing] balance_cache_seconds must be >= 0"
    else Ok (if (bl_BalanceCacheSeconds b =? 0)%Z then b <| bl_BalanceCacheSeconds := 300 |> else b).

Fixpoint alias_checks (name : string) (seen : gmap string string) (aliases : list string) : result (gmap string string) :=
  match aliases with
  | [] => Ok seen
  | a :: t => match seen !! a with
              | Some _ => Err "model alias is declared by two upstreams"
              | None => alias_checks name (<[a := name]> seen) t
              end
  end.

Definition upstream_checks (u : UpstreamConfig) : list (bool * string) :=
  [(blank (up_Name u), "name is required");
   (blank (up_BaseURL u) || blank (up_APIKey u), "base_url and api_key are required");
   (blank (up_UpstreamModel u), "upstream_model is required");
   (match up_ModelAlias u with [] => true | _ => false end, "model_alias must list at least one alias");
   (negb (one_of (up_Vendor u) supportedVendors), "vendor is not supported by gateway v1");
   (negb (one_of (up_CacheBreakpoints u) validCacheBreakpoints), "cache_breakpoints is not valid")]%string.

Fixpoint validate_upstreams (seen : gmap string string) (us : list UpstreamConfig) : result unit :=
  match us with
  | [] => Ok tt
  | u :: t =>
      match first_failure (upstream_checks u) with
      | Some e => Err e
      | None => let? seen := alias_checks (up_Name u) seen (up_ModelAlias u) in validate_upstreams seen t
      end
  end.

(** [entries] is the order in which the map of overrides is ranged over. *)
Definition validate (entries : list (string * zoneOverride)) (c : Config) : result Config :=
  match first_failure (head_checks c ++ type_checks entries ++ tail_checks c) with
  | Some e => Err e
  | None =>
      let? b := validate_billing (Billing c) in
      match Upstreams c with
      | [] => Err "at least one [[upstreams]] entry is required"
      | us => let? ok := validate_upstreams ∅ us in Ok (c <| Billing := b |>)
      end
  end.
End Validate.

(** ** Effective zones *)

(** What [loadEvolveTauL2] finds: no file, an error, or the stored threshold. *)
Inductive evolve_state :=
| NoEvolve
| BadEvolve (e : string)
| Tuned (tauL2 : f64).

Definition loadEvolveTauL2 (s : evolve_state) : result f64 :=
  match s with
  | NoEvolve => Ok f0
  | BadEvolve e => Err e
  | Tuned tau =>
      if is_nan tau || is_inf tau || (tau <=? f0)%f64 then Ok f0
      else
        let tau := if (tau <? Evolve.DefaultMinTau)%f64 then Evolve.DefaultMinTau else tau in
        Ok (if (tau >? Evolve.DefaultMaxTau)%f64 then Evolve.DefaultMaxTau else tau)
  end.

Definition override (z : Zones) (o : zoneOverride) : Zones :=
  mkZones (default (TauHigh z) (zo_TauHigh o)) (default (TauLow z) (zo_TauLow o))
          (default (AbsHigh z) (zo_AbsHigh o)) (default (AbsLow z) (zo_AbsLow o)) (ByType z).

Definition zoneConfig (evolved : string -> evolve_state) (c : Config) : result Zones :=
  let r := Retrieval c in
  let z := override Default (rt_Zones r) in
  let? tau := match zo_TauLow (rt_Zones r) with
              | None => if (rt_EvolveDB r =? "")%string then Ok f0 else loadEvolveTauL2 (evolved (rt_EvolveDB r))
              | Some _ => Ok f0
              end in
  let z := if (tau >? f0)%f64 then z <| TauLow := tau |> else z in
  Ok (z <| ByType := (fun o => override z o <| ByType := ∅ |>) <$> rt_ByType r |>).

(** ** A validated configuration *)

Lemma first_failure_none l : first_failure l = None <-> Forall (fun c => c.1 = false) l.
Proof.
  induction l as [|[bad e] l IH]; simpl; [by split|]. destruct bad; split; try done.
  - by intros [? _]%Forall_cons.
  - intros H. constructor; [done|by apply IH].
  - intros [_ H]%Forall_cons. by apply IH.
Qed.

Lemma one_of_spec s l : one_of s l = true <-> s ∈ l.
Proof.
  unfold one_of. rewrite existsb_exists. setoid_rewrite list_elem_of_In. split.
  - by intros (x & Hx & ->%String.eqb_eq).
  - intros H. exists s. by rewrite String.eqb_refl.
Qed.

Definition tau_ok (v : option f64) : Prop :=
  forall x, v = Some x -> finite x = true /\ (x >? f0)%f64 = true /\ (x <=? f1)%f64 = true.
Definition abs_ok (v : option f64) : Prop := forall x, v = Some x -> finite x = true /\ (x >=? f0)%f64 = true.
Definition override_ok (o : zoneOverride) : Prop :=
  tau_ok (zo_TauHigh o) /\ tau_ok (zo_TauLow o) /\ abs_ok (zo_AbsHigh o) /\ abs_ok (zo_AbsLow o) /\
  (forall h l, zo_TauHigh o = Some h -> zo_TauLow o = Some l -> (h >? l)%f64 = true).

Lemma bad_tau_spec v : bad_tau v = false -> tau_ok v.
Proof.
  intros H x ->. simpl in H. go_bool. pose proof (finite_not_nan x H).
  split; [done|]. split; [by apply fleb_gt|by apply fltb_ge].
Qed.

Lemma bad_abs_spec v : bad_abs v = false -> abs_ok v.
Proof. intros H x ->. simpl in H. go_bool. split; [done|]. apply fltb_ge; [by apply finite_not_nan|done|done]. Qed.

Lemma override_checks_spec o : first_failure (override_checks o) = None -> override_ok o.
Proof.
  intros H%first_failure_none. unfold override_checks in H. rewrite !Forall_cons in H. simpl in H.
  destruct H as (Hh & Hl & Hah & Hal & Ho & _).
  apply bad_tau_spec in Hh, Hl. apply bad_abs_spec in Hah, Hal. split_and!; try done.
  intros h l Eh El. unfold bad_order in Ho. rewrite Eh, El in Ho.
  destruct (Hh h Eh) as [Fh _], (Hl l El) as [Fl _]. apply fleb_gt; auto using finite_not_nan.
Qed.

Lemma first_failure_app l1 l2 : first_failure (l1 ++ l2) = None <-> first_failure l1 = None /\ first_failure l2 = None.
Proof. rewrite !first_failure_none. apply Forall_app. Qed.

Record upstream_ok (u : UpstreamConfig) : Prop := {
  uo_name : blank (up_Name u) = false;
  uo_url : blank (up_BaseURL u) = false;
  uo_key : blank (up_APIKey u) = false;
  uo_model : blank (up_UpstreamModel u) = false;
  uo_alias : up_ModelAlias u <> [];
  uo_vendor : up_Vendor u ∈ supportedVendors;
  uo_breakpoints : up_CacheBreakpoints u ∈ validCacheBreakpoints;
}.

Lemma upstream_checks_spec u : first_failure (upstream_checks u) = None -> upstream_ok u.
Proof.
  intros H%first_failure_none. unfold upstream_checks in H. rewrite !Forall_cons in H. simpl in H.
  destruct H as (? & ? & ? & Ha & ? & ? & _). go_bool.
  constructor; try done; [by destruct (up_ModelAlias u)|by apply one_of_spec..].
Qed.

Lemma alias_checks_spec name aliases seen seen' : alias_checks name seen aliases = Ok seen' ->
  NoDup aliases /\ (forall a, a ∈ aliases -> seen !! a = None) /\ dom seen' = dom seen ∪ list_to_set aliases.
Proof.
  revert seen. induction aliases as [|a l IH]; intros seen; simpl.
  - intros [= ->]. split; [constructor|]. split; [by intros ? ?%not_elem_of_nil|set_solver].
  - destruct (seen !! a) eqn:Ea; [done|]. intros (Hn & Hs & Hd)%IH. split_and!.
    + constructor; [|done]. intros Ha. specialize (Hs a Ha). by rewrite lookup_insert_eq in Hs.
    + intros x [->|Hx]%elem_of_cons; [done|]. specialize (Hs x Hx). by apply lookup_insert_None in Hs as [? _].
    + rewrite Hd, dom_insert_L. set_solver.
Qed.

Lemma validate_upstreams_spec seen us : validate_upstreams seen us = Ok tt ->
  Forall upstream_ok us /\ NoDup (flat_map up_ModelAlias us) /\ (forall a, a ∈ flat_map up_ModelAlias us -> seen !! a = None).
Proof.
  revert seen. induction us as [|u us IH]; intros seen; cbn [validate_upstreams flat_map].
  { intros _. split_and!; [done|constructor|by intros ? ?%not_elem_of_nil]. }
  destruct (first_failure (upstream_checks u)) eqn:Eu; [done|]. apply upstream_checks_spec in Eu.
  destruct (alias_checks _ _ _) as [seen'|] eqn:Ea; [|done]. simpl. intros (Hf & Hn & Hs)%IH.
  apply alias_checks_spec in Ea as (Hna & Hsa & Hd). split_and!; [by constructor| |].
  - apply NoDup_app. split_and!; [done| |done]. intros a Ha Ha'. apply Hs, not_elem_of_dom in Ha'.
    rewrite Hd in Ha'. set_solver.
  - intros a [Ha|Ha]%elem_of_app; [by apply Hsa|]. apply Hs, not_elem_of_dom in Ha.
    apply not_elem_of_dom. rewrite Hd in Ha. set_solver.
Qed.

(** A rate; a rate or the marker -1 of a mechanism that is off (0 stands for its default). *)
Definition rate_ok (x : f64) : Prop := finite x = true /\ (x >=? f0)%f64 = true /\ (x <=? f1)%f64 = true.
Definition rate_or_off (x : f64) : Prop := (x =? minus_one)%f64 = true \/ (x =? f0)%f64 = true \/ rate_ok x.

(** What the server may rely on once its configuration was accepted: one field per
    check. *)
Record config_ok (parse_url : string -> result (string * string)) (c : Config) : Prop := {
  ok_addr : blank (sv_Addr (Server c)) = false;
  ok_key : sv_GatewayKey (Server c) <> ""%string;
  ok_db : blank (st_DB (Store c)) = false;
  ok_scope : st_Scope (Store c) ∈ [""; "session"; "project"; "user"]%string;
  ok_retriever : rt_Retriever (Retrieval c) ∈ [""; "bm25"; "vector"; "hybrid"]%string;
  ok_origin_known : sl_MinInjectOrigin (SliceCfg c) ∈ [""; "import"; "session-auto"; "prefetch"; "user-curated"]%string;
  ok_origin : sl_MinInjectOrigin (SliceCfg c) = minInjectOrigin c;
  ok_fusion : rt_Fusion (Retrieval c) ∈ [""; "weighted"; "rrf"]%string;
  ok_rerank : rt_RerankBaseURL (Retrieval c) <> ""%string -> exists host,
    parse_url (rt_RerankBaseURL (Retrieval c)) = Ok ("http"%string, host) /\ host ∈ ["127.0.0.1"; "::1"; "localhost"]%string;
  ok_rerank_limits : 0 <= rt_RerankTopN (Retrieval c) /\ 0 <= rt_RerankTimeoutMs (Retrieval c);
  ok_rrf : 0 <= rt_RrfK (Retrieval c);
  ok_bm25 : forall w, rt_BM25Weight (Retrieval c) = Some w -> rate_ok w;
  ok_error_bound : rate_or_off (rt_ErrorBound (Retrieval c));
  ok_zones : override_ok (rt_Zones (Retrieval c));
  ok_types : map_Forall (fun name o => is_Some (TypeFromString name) /\ override_ok o) (rt_ByType (Retrieval c));
  ok_judge : ca_JudgeAPIKey (Cache c) <> ""%string -> blank (ca_JudgeBaseURL (Cache c)) = false /\ blank (ca_JudgeModel (Cache c)) = false;
  ok_protocol : ca_JudgeProtocol (Cache c) ∈ [""; "openai"; "anthropic"]%string;
  ok_ttl : 0 <= ca_TTLSeconds (Cache c);
  ok_false_hit : rate_or_off (ca_FalseHitSim (Cache c));
  ok_consensus : ca_PromoteConsensus (Cache c) ∈ [0; 1; 2];
  ok_promote : 0 <= ca_PromoteTTLSeconds (Cache c) /\ -1 <= ca_RejectLimit (Cache c);
  ok_health : 0 <= sv_HealthTimeoutSeconds (Server c);
  ok_max_slices : forall n, st_MaxSlices (Store c) = Some n -> 0 <= n;
  ok_billing : bl_Enabled (Billing c) = true ->
    0 < bl_FreeTokens (Billing c) /\ 0 < bl_BalanceCacheSeconds (Billing c) /\
    blank (bl_RechargeURL (Billing c)) = false /\ (bl_BalanceURL (Billing c) = ""%string <-> bl_BalanceKey (Billing c) = ""%string);
  ok_upstreams : Upstreams c <> [] /\ Forall upstream_ok (Upstreams c);
  ok_aliases : NoDup (flat_map up_ModelAlias (Upstreams c));
}.

Lemma validate_billing_spec b b' : validate_billing b = Ok b' ->
  (bl_Enabled b' = true -> 0 < bl_FreeTokens b' /\ 0 < bl_BalanceCacheSeconds b' /\ blank (bl_RechargeURL b') = false /\
     (bl_BalanceURL b' = ""%string <-> bl_BalanceKey b' = ""%string)) /\
  validate_billing b' = Ok b'.
Proof.
  unfold validate_billing. destruct b as [[] free url sf bu bk secs]; simpl; [|by intros [= <-]].
  destruct (free <? 0)%Z eqn:E1; [done|].
  destruct (free =? 0)%Z eqn:E2; simpl; (destruct (blank url) eqn:E3; [done|]);
    (destruct (Bool.eqb _ _) eqn:E4; simpl; [|done]); (destruct (secs <? 0)%Z eqn:E5; [done|]);
    destruct (secs =? 0)%Z eqn:E6; intros [= <-]; simpl; rewrite ?E1, ?E2, ?E3; simpl; rewrite ?E3, ?E4, ?E5, ?E6; simpl;
    go_bool; (split; [intros _; split_and!; [unfold defaultFreeTokens in *; lia|lia|done|]|done]).
  all: apply eqb_prop in E4; rewrite <- !String.eqb_eq, E4; done.
Qed.

Lemma one_of_opt s l : negb (s =? "")%string && negb (one_of s l) = false -> s ∈ ""%string :: l.
Proof.
  intros H. destruct (s =? "")%string eqn:E; [apply String.eqb_eq in E; subst; left|].
  simpl in H. go_bool. right. by apply one_of_spec.
Qed.

Section Validated.
Context (parse_url : string -> result (string * string)).

Lemma bad_rate_spec x : bad_rate x = false -> rate_ok x.
Proof.
  unfold bad_rate. intros H. go_bool. pose proof (finite_not_nan x H). split; [done|]. split; [by apply fltb_ge|by apply fltb_ge || apply fgtb_le].
Qed.

Lemma rate_or_off_spec x : negb (x =? f0)%f64 && negb (x =? minus_one)%f64 && bad_rate x = false -> rate_or_off x.
Proof.
  unfold rate_or_off. destruct (x =? f0)%f64; [auto|]. destruct (x =? minus_one)%f64; [auto|]. cbn. intros H%bad_rate_spec. auto.
Qed.

Lemma loopback_spec raw : negb (raw =? "")%string && negb (if validateLoopbackURL parse_url raw is None then true else false) = false ->
  raw <> ""%string -> exists host, parse_url raw = Ok ("http"%string, host) /\ host ∈ ["127.0.0.1"; "::1"; "localhost"]%string.
Proof.
  intros H Hr. apply String.eqb_neq in Hr. rewrite Hr in H. cbn [negb andb] in H. unfold validateLoopbackURL in H.
  destruct (parse_url raw) as [[scheme host]|e]; [|done]. destruct (scheme =? "http")%string eqn:Es; [|done]. apply String.eqb_eq in Es as ->.
  exists host. split; [done|]. apply one_of_spec. by destruct (one_of host _).
Qed.

(** The checks of the scalar fields, one after the other. *)
Lemma head_checks_spec c : first_failure (head_checks parse_url c) = None ->
  Forall (fun k => k.1 = false) (take 12 (head_checks parse_url c)) /\ override_ok (rt_Zones (Retrieval c)) /\ rate_or_off (rt_ErrorBound (Retrieval c)).
Proof.
  unfold head_checks. intros H. rewrite !first_failure_app in H. destruct H as (H & Ho & He). split; [|split].
  - cbn [app take]. by apply first_failure_none.
  - by apply override_checks_spec.
  - apply first_failure_none, Forall_cons in He as [He _]. by apply rate_or_off_spec.
Qed.

Lemma min_origin_spec c : sl_MinInjectOrigin (SliceCfg c) ∈ [""; "import"; "session-auto"; "prefetch"; "user-curated"]%string ->
  sl_MinInjectOrigin (SliceCfg c) = minInjectOrigin c.
Proof.
  intros Hm. unfold minInjectOrigin. destruct (existsb _ _) eqn:E; [done|].
  apply elem_of_cons in Hm as [Hm|Hm]; [done|]. apply one_of_spec in Hm. unfold one_of in Hm. congruence.
Qed.

Lemma type_checks_spec m entries : entries ≡ₚ map_to_list m -> first_failure (type_checks entries) = None ->
  map_Forall (fun name o => is_Some (TypeFromString name) /\ override_ok o) m.
Proof.
  intros Hp H name o Hm. assert (He : (name, o) ∈ entries) by (rewrite Hp; by apply elem_of_map_to_list). clear Hp Hm.
  induction entries as [|[n p] l IH]; [by apply not_elem_of_nil in He|].
  change (type_checks ((n, p) :: l)) with (((if TypeFromString n is Some _ then false else true, "[retrieval] by_type key is not a slice type"%string)
    :: override_checks p) ++ type_checks l) in H.
  apply first_failure_app in H as [H1 H2].
  apply elem_of_cons in He as [[= -> ->]|He]; [|by apply IH]. cbn [first_failure] in H1.
  destruct (TypeFromString n); [|done]. split; [done|by apply override_checks_spec].
Qed.

Lemma validate_ok entries c c' :
  entries ≡ₚ map_to_list (rt_ByType (Retrieval c)) -> validate parse_url entries c = Ok c' -> config_ok parse_url c'.
Proof.
  intros Hp. unfold validate. destruct (first_failure _) eqn:Ef; [done|].
  apply first_failure_app in Ef as [Hh Ef]. apply first_failure_app in Ef as [Ht Hl].
  destruct (validate_billing (Billing c)) as [b|] eqn:Eb; [|done]. cbn [result_bind].
  destruct (Upstreams c) as [|u us] eqn:Eu; [done|].
  destruct (validate_upstreams ∅ (u :: us)) as [[]|] eqn:Ev; [|done]. intros [= <-].
  apply validate_billing_spec in Eb as [Hb Hbb]. pose proof (type_checks_spec _ _ Hp Ht) as Hty. apply validate_upstreams_spec in Ev as (Hf & Hn & _).
  apply head_checks_spec in Hh as (Hh & Hz & He). cbn [head_checks app take] in Hh. rewrite !Forall_cons in Hh. cbn [fst] in Hh.
  destruct Hh as (? & Hk & ? & Hs & Hr & Hm & Hfu & Hlo & Htn & Htm & Hrrf & Hbm & _).
  apply first_failure_none in Hl. unfold tail_checks in Hl. rewrite !Forall_cons in Hl. cbn [fst] in Hl.
  destruct Hl as (Hj & Hjp & Httl & Hfh & Hco & Hpt & Hrl & Hht & Hms & _).
  apply negb_false_iff, one_of_spec in Hm, Hfu, Hjp. apply Z.ltb_ge in Htn, Htm, Hrrf, Httl, Hpt, Hrl, Hht.
  constructor; try done; cbn [Server Store Retrieval Cache SliceCfg Billing Upstreams set_field Config_eta eta].
  - by apply String.eqb_neq.
  - by apply one_of_opt in Hs.
  - by apply one_of_opt in Hr.
  - exact (min_origin_spec c Hm).
  - exact (loopback_spec _ Hlo).
  - intros w Ew. rewrite Ew in Hbm. by apply bad_rate_spec.
  - intros Hne. apply String.eqb_neq in Hne. rewrite Hne in Hj. by apply orb_false_iff in Hj.
  - by apply rate_or_off_spec.
  - destruct (ca_PromoteConsensus (Cache c) =? 0) eqn:E0; [apply Z.eqb_eq in E0 as ->; left|].
    destruct (ca_PromoteConsensus (Cache c) =? 1) eqn:E1; [apply Z.eqb_eq in E1 as ->; right; left|].
    destruct (ca_PromoteConsensus (Cache c) =? 2) eqn:E2; [apply Z.eqb_eq in E2 as ->; right; right; left|done].
  - intros n En. rewrite En in Hms. by apply Z.ltb_ge.
  - by rewrite Eu.
  - by rewrite Eu.
Qed.

(** What is accepted is accepted again, unchanged but for the billing defaults. *)
Lemma validate_again entries c c' : validate parse_url entries c = Ok c' ->
  validate parse_url entries c' = Ok c' /\ c' = c <| Billing := Billing c' |>.
Proof.
  unfold validate at 1. destruct (first_failure _) eqn:Ef; [done|].
  destruct (validate_billing (Billing c)) as [b|] eqn:Eb; [|done]. cbn [result_bind].
  destruct (Upstreams c) as [|u us] eqn:Eu; [done|].
  destruct (validate_upstreams ∅ (u :: us)) as [[]|] eqn:Ev; [|done]. intros [= <-].
  apply validate_billing_spec in Eb as [Hb Hbb]. split; [|by destruct c].
  transitivity (match first_failure (head_checks parse_url c ++ type_checks entries ++ tail_checks c) with
    | Some e => Err e
    | None => let? b' := validate_billing b in
        match Upstreams c with [] => Err "at least one [[upstreams]] entry is required"
        | us => let? ok := validate_upstreams ∅ us in Ok (c <| Billing := b |> <| Billing := b' |>) end
    end); [reflexivity|].
  rewrite Ef, Hbb. cbn [result_bind]. rewrite Eu. cbv beta iota. rewrite Ev. cbn [result_bind]. unfold set_field; cbn. by rewrite Eu.
Qed.

(** C9: A configuration the gateway accepts is well formed: it has a listener, a
    key, a store and at least one complete upstream of a supported vendor; every
    enumerated setting is one of its values (scope, retriever, origin floor, fusion, judge
    protocol, vendor, breakpoint policy); the reranker's URL is plain http on
    loopback; a judge key comes with a URL and a model; thresholds, weights and rates
    are finite and in range, counts and timeouts not negative; every type with
    overrides exists; the billing amounts are positive; and no model alias is declared twice.
    Validation changes nothing but the two billing defaults, and accepts its own
    result. *)
Theorem validate_wellformed entries c c' :
  entries ≡ₚ map_to_list (rt_ByType (Retrieval c)) ->
  validate parse_url entries c = Ok c' ->
  config_ok parse_url c' /\ validate parse_url entries c' = Ok c' /\ c' = c <| Billing := Billing c' |>.
Proof. intros Hp Hv. split; [by apply (validate_ok _ _ _ Hp Hv)|]. by apply validate_again. Qed.
End Validated.

(** ** Routing *)

Lemma upstream_for_spec model us u : NoDup (flat_map up_ModelAlias us) ->
  upstream_for model us = Some u <-> u ∈ us /\ model ∈ up_ModelAlias u.
Proof.
  assert (Hin : forall u, existsb (fun a => (a =? model)%string) (up_ModelAlias u) = true <-> model ∈ up_ModelAlias u).
  { intros v. rewrite existsb_exists. setoid_rewrite list_elem_of_In. split; [by intros (x & ? & ->%String.eqb_eq)|].
    intros H. exists model. by rewrite String.eqb_refl. }
  induction us as [|v us IH]; cbn [upstream_for flat_map].
  { intros _. split; [done|]. by intros [?%not_elem_of_nil _]. }
  intros (Hv & Hd & Hn)%NoDup_app. specialize (IH Hn). destruct (existsb _ _) eqn:E.
  - apply Hin in E. split; [intros [= ->]; split; [left|done]|].
    intros [[->|Hu]%elem_of_cons Hm]; [done|]. exfalso. apply (Hd model E).
    apply list_elem_of_In, in_flat_map. exists u. by rewrite <- !list_elem_of_In.
  - rewrite IH. split; [intros [??]; split; [by right|done]|].
    intros [[->|Hu]%elem_of_cons Hm]; [|done]. apply Hin in Hm. congruence.
Qed.

Lemma upstream_for_sound model us u : upstream_for model us = Some u -> u ∈ us /\ model ∈ up_ModelAlias u.
Proof.
  induction us as [|v us IH]; [done|]. cbn [upstream_for]. destruct (existsb _ _) eqn:E.
  - intros [= ->]. split; [left|]. apply existsb_exists in E as (x & Hx & ->%String.eqb_eq). by apply list_elem_of_In.
  - intros [? ?]%IH. split; [by right|done].
Qed.

(** Routing by model name is total and unambiguous in an accepted
    configuration: the models the gateway lists are, sorted and without
    repetition, exactly the declared aliases, and a listed model is routed to the
    one upstream that declares it, whatever the order of the upstreams. *)
Theorem routing_unambiguous parse_url entries c c' :
  entries ≡ₚ map_to_list (rt_ByType (Retrieval c)) ->
  validate parse_url entries c = Ok c' ->
  StronglySorted (not_after string_less) (ModelList c') /\ NoDup (ModelList c') /\
  (forall m, m ∈ ModelList c' <-> is_Some (UpstreamFor c' m)) /\
  (forall m u, UpstreamFor c' m = Some u <-> u ∈ Upstreams c' /\ m ∈ up_ModelAlias u) /\
  (forall m us, us ≡ₚ Upstreams c' -> UpstreamFor (c' <| Upstreams := us |>) m = UpstreamFor c' m).
Proof.
  intros Hp Hok%(validate_ok _ _ _ _ Hp). pose proof (ok_aliases _ _ Hok) as Hn.
  assert (Hu : forall m u, UpstreamFor c' m = Some u <-> u ∈ Upstreams c' /\ m ∈ up_ModelAlias u) by (intros; by apply upstream_for_spec).
  split_and!; [apply sort_strings_sorted|apply go_sort_NoDup, NoDup_elements| |done|].
  - intros m. unfold ModelList, sort_strings. rewrite elem_of_go_sort, elem_of_elements, elem_of_list_to_set.
    rewrite list_elem_of_In, in_flat_map. unfold is_Some. setoid_rewrite Hu. setoid_rewrite list_elem_of_In. done.
  - intros m us Hs. apply option_eq. intros u. rewrite Hu. unfold UpstreamFor. cbn. rewrite upstream_for_spec; [by rewrite Hs|].
    assert (Hpf : flat_map up_ModelAlias us ≡ₚ flat_map up_ModelAlias (Upstreams c')) by (by apply Permutation_flat_map). by rewrite Hpf.
Qed.

(** ** References in a field *)

(** Text with neither a reference nor a dollar sign that could start one. *)
Definition literal (s : string) : Prop := cut "${" s = None.
Definition variable (s : string) : Prop := cut "}" s = None.

Lemma cut_reference l t : literal l -> cut "${" (l +:+ "${" +:+ t) = Some (l, t).
Proof.
  unfold literal. induction l as [|c l IH]; intros H.
  - rewrite str_nil_l. apply cut_here.
  - cbn [cut] in H. rewrite str_cons. cbn [cut].
    destruct (has_prefix (String c l) "${") eqn:E; [done|]. destruct (cut "${" l) as [[]|] eqn:El; [done|].
    rewrite IH by done. replace (has_prefix _ _) with false; [done|]. symmetry.
    unfold has_prefix in *. destruct l as [|d l]; [|rewrite str_cons; cbn [String.prefix] in E |- *; rewrite !prefix_nil in *; exact E].
    cbn. destruct (ascii_dec "$" c); [|done]. by destruct (ascii_dec "{" "$").
Qed.

Lemma cut_brace n t : variable n -> cut "}" (n +:+ "}" +:+ t) = Some (n, t).
Proof.
  unfold variable. induction n as [|c n IH]; intros H.
  - rewrite str_nil_l. apply cut_here.
  - cbn [cut] in H. rewrite str_cons. cbn [cut].
    destruct (has_prefix (String c n) "}") eqn:E; [done|]. destruct (cut "}" n) as [[]|] eqn:En; [done|].
    rewrite IH by done. replace (has_prefix _ _) with false; [done|]. symmetry. unfold has_prefix in *. cbn [String.prefix] in E |- *. rewrite !prefix_nil in *. exact E.
Qed.

(** A field as its references see it: texts each followed by a reference, then a
    text. *)
Fixpoint source (pieces : list (string * string)) (tail : string) : string :=
  match pieces with
  | [] => tail
  | (l, n) :: t => l +:+ "${" +:+ n +:+ "}" +:+ source t tail
  end.

Fixpoint render (env : string -> option string) (pieces : list (string * string)) (tail : string) : result string :=
  match pieces with
  | [] => Ok tail
  | (l, n) :: t =>
      match env n with
      | None => Err ("environment variable " +:+ n +:+ " is not set")
      | Some v => let? r := render env t tail in Ok (l +:+ v +:+ r)
      end
  end.

Definition pieces_ok (pieces : list (string * string)) : Prop := Forall (fun p => literal p.1 /\ variable p.2) pieces.

Lemma slen_nat s t : String.length (s +:+ t) = (String.length s + String.length t)%nat.
Proof. pose proof (slen_app s t). unfold slen in *. lia. Qed.

Lemma expand_loop_source env pieces tail n b : pieces_ok pieces -> literal tail ->
  (String.length (source pieces tail) < n)%nat ->
  expand_loop env n b (source pieces tail) = (let? r := render env pieces tail in Ok (b +:+ r)).
Proof.
  intros Hp Ht. revert n b. induction Hp as [|[l v] pieces [Hl Hv] Hp IH]; intros [|n] b Hn; try lia; cbn [source render expand_loop].
  - by rewrite Ht.
  - cbn [source] in Hn. rewrite !slen_nat in Hn. cbn [fst snd] in *. rewrite cut_reference by done. rewrite cut_brace by done.
    destruct (env v) as [x|]; [|done]. rewrite IH by (cbn in Hn; lia). destruct (render env pieces tail) as [r|]; [|done].
    cbn [result_bind]. by rewrite !string_app_assoc.
Qed.

Lemma expand_loop_parse env n b rest r : (String.length rest < n)%nat -> expand_loop env n b rest = Ok r ->
  exists pieces tail, pieces_ok pieces /\ literal tail /\ rest = source pieces tail.
Proof.
  revert b rest. induction n as [|n IH]; intros b rest Hn; [lia|]. cbn [expand_loop].
  destruct (cut "${" rest) as [[l after]|] eqn:E1; [|intros _; exists [], rest; split; [constructor|done]].
  destruct (cut "}" after) as [[v rest']|] eqn:E2; [|done]. destruct (env v) as [x|]; [|done].
  apply cut_sound in E1 as H1. apply cut_sound in E2 as H2. subst rest after. rewrite !slen_nat in Hn. intros Hr.
  destruct (IH _ rest' ltac:(cbn in Hn; lia) Hr) as (pieces & tail & Hp & Ht & ->). exists ((l, v) :: pieces), tail.
  split_and!; [constructor; [|done]|done|done]. by split; [apply (cut_first "${" _ _ _ eq_refl E1)|apply (cut_first "}" _ _ _ eq_refl E2)].
Qed.

(** Environment references are substituted exactly: a field that alternates
    texts and references becomes the texts with the values between them, or the
    error of its first unset variable; and only such a field is accepted, so an
    unterminated reference is an error. *)
Theorem expandField_exact env v :
  (forall pieces tail, pieces_ok pieces -> literal tail -> v = source pieces tail -> expandField env v = render env pieces tail) /\
  (forall r, expandField env v = Ok r -> exists pieces tail, pieces_ok pieces /\ literal tail /\ v = source pieces tail).
Proof.
  unfold expandField. destruct (v =? "")%string eqn:E.
  - apply String.eqb_eq in E as ->. split; [|exists [], ""%string; split; [constructor|done]]. intros [|[l n] pieces] tail Hp Ht Hs; cbn [source] in Hs.
    + by subst tail.
    + apply (f_equal String.length) in Hs. rewrite !slen_nat in Hs. cbn in Hs. lia.
  - split.
    + intros pieces tail Hp Ht ->. rewrite expand_loop_source by (done || lia).
      destruct (render env pieces tail) as [r|]; [|done]. cbn [result_bind]. by rewrite str_nil_l.
    + intros r Hr. eapply expand_loop_parse; [|exact Hr]; lia.
Qed.

(** ** Findings *)

Module Sample.
Definition upstream : UpstreamConfig := mkUpstream "deepseek" "https://api.deepseek.com" "k" ["chat"; "fast"]%string "deepseek-chat" "deepseek" false "".
Definition claude : UpstreamConfig := mkUpstream "claude" "https://api.anthropic.com/v1" "k" ["opus"]%string "claude-opus" "anthropic" false "l2_only".
Definition no_override : zoneOverride := mkOverride None None None None.
Definition retrieval : RetrievalConfig :=
  mkRetrieval "bm25" 5 4096 0 "" 0 None "" "" "" "" no_override "" None f0 "" ∅ "" "" 0 0.
Definition config : Config :=
  mkConfig (mkServer ":8080" "key" 3) (mkStore "gw.jsonl" "project" "." None) retrieval
    (mkCache 86400 ∅ "" "" "" "" 0 None f0 "" 0 0 0) (mkIngest "sessions" "usage.jsonl" false) (mkSliceCfg "session-auto")
    (mkSanitize None [] None) (mkBilling true 0 "https://pay" "" "" "" 0) [upstream; claude].
Definition parse (url : string) : result (string * string) := Err "invalid URL".
Definition low_high : Config := config <| Retrieval ::= fun r => r <| rt_Zones := mkOverride (Some (f_of_ratio 1 2)) None None None |> |>.
Definition promoted : Config := config <| Cache ::= fun k => k <| ca_PromoteDB := "${PROMOTE}/p.jsonl" |> |>.
End Sample.

(** A [tau_high] set alone is compared with no [tau_low]: the accepted
    configuration classifies with a high threshold under the low one. *)
Theorem zones_inverted :
  exists c z, is_ok (validate Sample.parse [] c) = true /\
    zoneConfig (fun _ => NoEvolve) c = Ok z /\ (TauHigh z <? TauLow z)%f64 = true.
Proof.
  exists Sample.low_high. eexists. split_and!; [by vm_compute|reflexivity|by vm_compute].
Qed.

(** A reference in [promote_db] is neither resolved nor refused. *)
Theorem placeholder_survives :
  exists c', expand (fun _ => None) (Ok "/root") Sample.promoted = Ok c' /\ is_ok (validate Sample.parse [] c') = true /\
    ca_PromoteDB (Cache c') = "${PROMOTE}/p.jsonl"%string.
Proof. eexists. split_and!; [by vm_compute|by vm_compute|by vm_compute]. Qed.

(** ** Witnesses *)

Lemma validate_wellformed_witness :
  exists c', validate Sample.parse [] Sample.config = Ok c' /\ config_ok Sample.parse c' /\ bl_FreeTokens (Billing c') = 10000000.
Proof.
  eexists. split; [reflexivity|]. split; [|reflexivity].
  refine (proj1 (validate_wellformed Sample.parse [] Sample.config _ _ _)); [done|reflexivity].
Defined.

Lemma routing_unambiguous_witness :
  exists c', validate Sample.parse [] Sample.config = Ok c' /\ ModelList c' = ["chat"; "fast"; "opus"]%string /\
    UpstreamFor c' "opus" = Some Sample.claude.
Proof.
  eexists. split; [reflexivity|]. split; [by vm_compute|].
  refine (proj2 (proj1 (proj2 (proj2 (proj2 (routing_unambiguous Sample.parse [] Sample.config _ _ _)))) "opus"%string Sample.claude) _);
    [done|reflexivity|split; [by right; left|left]].
Defined.

Lemma expandField_exact_witness :
  expandField (fun n => if (n =? "KEY")%string then Some "secret"%string else None) "Bearer ${KEY}!" = Ok "Bearer secret!"%string.
Proof. exact (proj1 (expandField_exact _ "Bearer ${KEY}!") [("Bearer ", "KEY")]%string "!"%string ltac:(repeat constructor) eq_refl eq_refl). Defined.
