(* ===== verification/Chat.v ===== *)
(** gateway/normalize.go, gateway/thinking.go, gateway/sanitize.go and the request
    rewriting of gateway/pipeline.go: what the gateway reads in a chat request and
    how it cleans the body it forwards.

    A body is decoded JSON (Json.v).  The decoders of [encoding/json] are
    arguments; SHA-256 too. *)

From Stdlib Require Import ZArith Lia Bool Ascii String.
From stdpp Require Import tactics base option list sorting gmap strings.
From S2P Require Import Prelude Float64 GoStrings Text Utf8 Blank Json GatewayConfig.

#[global] Open Scope Z_scope.

(** ** Messages *)

Record chatMessage := mkMessage {
  Role : string; Content : json; ToolCalls : json; Name : string; ToolCallID : string; ReasoningContent : string;
}.

Record chatRequest := mkChat { Model : string; Messages : list chatMessage; Stream : bool; Temperature : option f64 }.

Definition text_part (part : json) : string :=
  match part with
  | JObject m => if is_text (field m "type") "text" then text_field m "text" else ""
  | _ => ""
  end.

Definition textParts (content : json) : string :=
  match content with
  | JString s => s
  | JArray parts => concat_strings (map text_part parts)
  | _ => ""
  end.

Definition normalizeQuery (s : string) : string := trim_space (bytes_string (collapse false (string_bytes s))).

Fixpoint first_user_text (ms : list chatMessage) : option string :=
  match ms with
  | [] => None
  | m :: t =>
      if (Role m =? "user")%string then
        let q := normalizeQuery (textParts (Content m)) in
        if (q =? "")%string then first_user_text t else Some q
      else first_user_text t
  end.

(** From the last message back. *)
Definition lastUserText (ms : list chatMessage) : option string := first_user_text (rev ms).

Section Parse.
Context (marshal_messages : list chatMessage -> string) (sha256_hex : string -> string)
  (unmarshal : string -> result chatRequest).

(** Decoded values always marshal. *)
Definition contextHash (ms : list chatMessage) : string := sha256_hex (marshal_messages ms).

Definition parseChatRequest (body : string) : result chatRequest :=
  match unmarshal body with
  | Err e => Err ("invalid request body: " +:+ e)
  | Ok req =>
      if (trim_space (Model req) =? "")%string then Err "model is required"
      else match Messages req with
           | [] => Err "messages must not be empty"
           | ms => if lastUserText ms is Some _ then Ok req else Err "no user message with text content found"
           end
  end.
End Parse.

(** ** Thinking effort *)

Definition effortBudgetTokens : gmap string Z :=
  list_to_map [("low", 1024); ("medium", 4096); ("high", 16384); ("max", 32768)]%string.

Definition anthropicThinking (budget : Z) : json :=
  keyed [("type", JString "enabled"); ("budget_tokens", JNumber (f_of_int budget))]%string.

(** The raw client value is absent, or a JSON value. *)
Definition translateThinking (effort : string) (client : option json) : option json * bool :=
  match client with
  | Some JNull | None =>
      if (effort =? "")%string then (None, true)
      else match effortBudgetTokens !! effort with
           | None => (None, false)
           | Some budget => (Some (anthropicThinking budget), true)
           end
  | Some v => (Some v, true)
  end.

(** ** Prefix hygiene *)

(** [strings.Cut(s, "\n")]. *)
Definition cut_line (s : string) : string * option string :=
  match cut (String (ascii_of 10) "") s with Some (l, t) => (l, Some t) | None => (s, None) end.

Fixpoint strip_head (n : nat) (markers : list string) (text rest : string) : string :=
  match n with
  | O => rest
  | S n =>
      let (line, tail) := cut_line rest in
      let trimmed := trim_space line in
      if (trimmed =? "")%string && negb (rest =? text)%string then
        match tail with Some t => strip_head n markers text t | None => "" end
      else if existsb (has_prefix trimmed) markers then
        match tail with Some t => strip_head n markers text t | None => "" end
      else rest
  end.

Definition stripMarkerHead (text : string) (markers : list string) : string :=
  strip_head (S (String.length text)) markers text text.

Fixpoint strip_part (markers : list string) (parts : list json) : list json :=
  match parts with
  | [] => []
  | JObject p :: t =>
      if is_text (field p "type") "text" then
        match field p "text" with
        | JString s => JObject (<["text" := JString (stripMarkerHead s markers)]> p)
        | _ => JObject p
        end :: t
      else JObject p :: strip_part markers t
  | p :: t => p :: strip_part markers t
  end.

Definition strip_content (markers : list string) (msg : gmap string json) : gmap string json :=
  match field msg "content" with
  | JString c => <["content" := JString (stripMarkerHead c markers)]> msg
  | JArray parts => <["content" := JArray (strip_part markers parts)]> msg
  | _ => msg
  end.

(** The first system message only. *)
Fixpoint strip_messages (markers : list string) (ms : list json) : list json :=
  match ms with
  | [] => []
  | JObject m :: t =>
      if is_text (field m "role") "system" then JObject (strip_content markers m) :: t
      else JObject m :: strip_messages markers t
  | m :: t => m :: strip_messages markers t
  end.

Definition stripAttributionMarkers (markers : list string) (raw : gmap string json) : gmap string json :=
  match field raw "messages" with
  | JArray ms => <["messages" := JArray (strip_messages markers ms)]> raw
  | _ => raw
  end.

Definition nonempty_text (v : json) : option string :=
  match v with JString s => if (s =? "")%string then None else Some s | _ => None end.

Definition toolNameOf (v : json) : option string :=
  match v with
  | JObject m =>
      match (fn ← as_map (field m "function"); nonempty_text (field fn "name")) with
      | Some name => Some name
      | None => nonempty_text (field m "name")
      end
  | _ => None
  end.

(** An unnamed element has the empty name. *)
Definition tool_less (a b : json) : bool :=
  match toolNameOf a, toolNameOf b with
  | Some x, Some y => string_less x y
  | Some _, None => true
  | _, _ => false
  end.

Definition sortToolsArray (raw : gmap string json) : gmap string json :=
  match field raw "tools" with
  | JArray tools => if (length tools <? 2)%nat then raw else <["tools" := JArray (go_sort tool_less tools)]> raw
  | _ => raw
  end.

Fixpoint stripCacheControl (v : json) : json :=
  match v with
  | JObject m => JObject (delete "cache_control"%string (stripCacheControl <$> m))
  | JArray l => JArray (map stripCacheControl l)
  | _ => v
  end.

Definition strip_cache_fields (raw : gmap string json) : gmap string json :=
  delete "cache_control"%string (stripCacheControl <$> raw).

Definition sanitizeOutgoing (cfg : SanitizeConfig) (up : UpstreamConfig) (raw : gmap string json) : gmap string json :=
  let raw := if StripAttributionEnabled cfg then stripAttributionMarkers (EffectiveAttributionMarkers cfg) raw else raw in
  let raw := if SortToolsEnabled cfg then sortToolsArray raw else raw in
  if up_StripCacheControl up then strip_cache_fields raw else raw.

(** ** The forwarded body *)

(** A system message with string content. *)
Definition block_host (m : json) : option (gmap string json * string) :=
  match m with
  | JObject msg =>
      if is_text (field msg "role") "system" then (fun c => (msg, c)) <$> as_string (field msg "content") else None
  | _ => None
  end.

(** The index of the last one, -1 when there is none. *)
Definition last_host (ms : list json) : Z :=
  (foldl (fun '(i, last) m => (i + 1, if block_host m is Some _ then i else last)) (0, -1) ms).2.

Definition append_block (block : string) (m : json) : json :=
  match block_host m with
  | Some (msg, c) => JObject (<["content" := JString (c +:+ String (ascii_of 10) (String (ascii_of 10) block))]> msg)
  | None => m
  end.

Definition attachBlockRaw (ms : list json) (block : string) : list json :=
  let last := last_host ms in
  if 0 <=? last then alter (append_block block) (Z.to_nat last) ms
  else keyed [("role", JString "system"); ("content", JString block)]%string :: ms.

Section Forwarded.
Context (unmarshal : string -> option (gmap string json)) (marshal : gmap string json -> string).

Definition sanitizeBody (cfg : SanitizeConfig) (up : UpstreamConfig) (body : string) : string :=
  match unmarshal body with
  | None => body
  | Some raw => marshal (sanitizeOutgoing cfg up raw)
  end.

(** [block] is the text of the injection, empty when there is none. *)
Definition rewritten (cfg : SanitizeConfig) (up : UpstreamConfig) (block : string) (raw : gmap string json) : gmap string json :=
  let raw := sanitizeOutgoing cfg up (<["model" := JString (up_UpstreamModel up)]> raw) in
  if (block =? "")%string then raw
  else match field raw "messages" with
       | JArray ms => <["messages" := JArray (attachBlockRaw ms block)]> raw
       | _ => raw
       end.

Definition rewriteOutgoing (cfg : SanitizeConfig) (up : UpstreamConfig) (block : string) (body : string) : string :=
  match unmarshal body with
  | None => body
  | Some raw => marshal (rewritten cfg up block raw)
  end.
End Forwarded.

(** ** The query of a conversation *)

Definition normal (l : list Z) : list Z := trim_bytes (collapse false l).
Definition white (s : string) : Prop := Forall (fun b => class_space b = true) (string_bytes s).

Lemma collapse_range inside l : Forall (fun b => 0 <= b < 256) l -> Forall (fun b => 0 <= b < 256) (collapse inside l).
Proof.
  intros H. revert inside. induction H as [|b l Hb _ IH]; intros inside; cbn; [constructor|].
  destruct (class_space b), inside; auto; constructor; auto; lia.
Qed.

Lemma normal_range l : Forall (fun b => 0 <= b < 256) l -> Forall (fun b => 0 <= b < 256) (normal l).
Proof.
  intros H%(collapse_range false). unfold normal. destruct (trim_infix (collapse false l)) as (p & s & E).
  rewrite E in H. by apply Forall_app in H as [_ [? _]%Forall_app].
Qed.

Lemma normalize_bytes s : normalizeQuery s = bytes_string (normal (string_bytes s)).
Proof. unfold normalizeQuery, trim_space. rewrite bytes_string_inv; [done|]. apply collapse_range, string_bytes_range. Qed.

Lemma normal_normal l : normal (normal l) = normal l.
Proof.
  unfold normal at 1. replace (collapse false (normal l)) with (normal l); [apply trimmed_trim, trim_trimmed|].
  symmetry. destruct (trim_infix (collapse false l)) as (p & s & E). apply (collapsed_infix p _ s false).
  unfold normal. rewrite <- E. apply collapse_fixed.
Qed.

Lemma normal_front w l : Forall (fun b => class_space b = true) w -> normal (w ++ l) = normal l.
Proof.
  intros Hw. destruct w as [|b w]; [done|]. unfold normal. rewrite collapse_run by done. cbn [app].
  rewrite trim_space_front by done. apply trim_collapse_true.
Qed.

Lemma normal_back w l : Forall (fun b => class_space b = true) w -> normal (l ++ w) = normal l.
Proof.
  intros Hw. unfold normal. destruct (collapse_back l false w Hw) as [-> | ->]; [done|]. by apply trim_space_back.
Qed.

(** The cache key of a user turn does not depend on its white space: normalising
    is idempotent, any two runs of white space inside a text normalise alike, and
    white space around it disappears. *)
Theorem normalizeQuery_canonical s a b w w' :
  white w -> white w' -> w <> ""%string -> w' <> ""%string ->
  normalizeQuery (normalizeQuery s) = normalizeQuery s /\
  normalizeQuery (a +:+ w +:+ b) = normalizeQuery (a +:+ w' +:+ b) /\
  normalizeQuery (w +:+ a) = normalizeQuery a /\ normalizeQuery (a +:+ w) = normalizeQuery a.
Proof.
  intros Hw Hw' Hn Hn'. assert (Hne : forall x, x <> ""%string -> string_bytes x <> []) by (intros [|? ?]; done).
  rewrite !normalize_bytes, !string_bytes_app. split_and!.
  - rewrite bytes_string_inv by apply normal_range, string_bytes_range. by rewrite normal_normal.
  - unfold normal. by rewrite (collapse_app_run _ false (string_bytes w) (string_bytes w')) by auto.
  - by rewrite normal_front.
  - by rewrite normal_back.
Qed.

Lemma first_user_text_some ms q : first_user_text ms = Some q <->
  exists pre m post, ms = pre ++ m :: post /\ Role m = "user"%string /\ normalizeQuery (textParts (Content m)) = q /\ q <> ""%string /\
    Forall (fun x => Role x = "user"%string -> normalizeQuery (textParts (Content x)) = ""%string) pre.
Proof.
  induction ms as [|m ms IH]; cbn [first_user_text].
  { split; [done|]. by intros ([|? ?] & ? & ? & ? & _). }
  destruct (Role m =? "user")%string eqn:Er; go_bool.
  1: destruct (normalizeQuery (textParts (Content m)) =? "")%string eqn:Eq; go_bool.
  2: { split; [intros [= <-]; by exists [], m, ms|]. intros ([|x pre] & m' & post & [= -> ->] & Hr & <- & Hq & Hp); [done|].
       apply Forall_cons in Hp as [Hp _]. by rewrite Hp in Eq. }
  all: rewrite IH; split; [intros (pre & m' & post & -> & ?); exists (m :: pre), m', post; rewrite Forall_cons; naive_solver|].
  all: intros ([|x pre] & m' & post & [= -> ->] & Hr & Hq & Hne & Hp); [congruence|].
  all: apply Forall_cons in Hp as [_ Hp]; by exists pre, m', post.
Qed.

(** A request the gateway accepts has a model, messages and a query: the
    normalised text of its last user message that has any. *)
Theorem parseChatRequest_query unmarshal body req :
  parseChatRequest unmarshal body = Ok req ->
  unmarshal body = Ok req /\ trim_space (Model req) <> ""%string /\
  exists q pre m post, lastUserText (Messages req) = Some q /\ q <> ""%string /\ normalizeQuery q = q /\
    Messages req = pre ++ m :: post /\ Role m = "user"%string /\ q = normalizeQuery (textParts (Content m)) /\
    (forall x, x ∈ post -> Role x = "user"%string -> normalizeQuery (textParts (Content x)) = ""%string).
Proof.
  unfold parseChatRequest. destruct (unmarshal body) as [r|e]; [|done]. destruct (trim_space (Model r) =? "")%string eqn:E; [done|].
  go_bool. destruct (Messages r) as [|m0 ms] eqn:Em; [done|]. destruct (lastUserText (m0 :: ms)) as [q|] eqn:El; [|done].
  intros [= <-]. split; [done|]. split; [done|]. rewrite Em. apply first_user_text_some in El as H.
  destruct H as (pre & m & post & Hr & Hu & Hq & Hne & Hp). exists q, (rev post), m, (rev pre).
  split_and!; try done.
  - rewrite <- Hq, !normalize_bytes, bytes_string_inv by apply normal_range, string_bytes_range. by rewrite normal_normal.
  - apply (f_equal (@rev chatMessage)) in Hr. rewrite rev_involutive, rev_app_distr in Hr. cbn [rev] in Hr. by rewrite <- app_assoc in Hr.
  - intros x Hx. rewrite Forall_forall in Hp. apply Hp. by rewrite list_elem_of_In, in_rev, <- list_elem_of_In.
Qed.

(** ** Attribution markers *)

Definition lf1 : string := String (ascii_of 10) "".
Definition marker_line (markers : list string) (line : string) : bool := existsb (has_prefix (trim_space line)) markers.
Definition droppable (markers : list string) (line : string) : bool := (trim_space line =? "")%string || marker_line markers line.

(** The loop once something was dropped. *)
Fixpoint drop_lines (n : nat) (markers : list string) (rest : string) : string :=
  match n with
  | O => rest
  | S n =>
      if droppable markers (cut_line rest).1 then
        match (cut_line rest).2 with Some t => drop_lines n markers t | None => "" end
      else rest
  end.

Lemma cut_line_spec s line tail : cut_line s = (line, tail) ->
  cut lf1 line = None /\ match tail with Some t => s = line +:+ lf1 +:+ t | None => s = line end.
Proof.
  unfold cut_line. fold lf1. destruct (cut lf1 s) as [[l t]|] eqn:E; intros [= <- <-]; [|done].
  split; [by apply (cut_first lf1 _ _ _ eq_refl) in E|by apply cut_sound].
Qed.

Lemma cut_line_tail s t : (cut_line s).2 = Some t -> (String.length t < String.length s)%nat.
Proof.
  destruct (cut_line s) as [l o] eqn:E. cbn. intros ->. apply cut_line_spec in E as [_ ->]. rewrite !slen_nat. cbn. lia.
Qed.

Lemma cut_line_app line t : cut lf1 line = None -> cut_line (line +:+ lf1 +:+ t) = (line, Some t).
Proof.
  intros H. unfold cut_line. fold lf1. assert (E : cut lf1 (line +:+ lf1 +:+ t) = Some (line, t)); [|by rewrite E].
  revert H. induction line as [|c l IH]; intros H; [rewrite str_nil_l; apply cut_here|].
  cbn [cut] in H. rewrite str_cons. cbn [cut].
  destruct (has_prefix (String c l) lf1) eqn:Ep; [done|]. destruct (cut lf1 l) as [[]|] eqn:El; [done|].
  rewrite IH by done. replace (has_prefix _ _) with false; [done|]. symmetry.
  unfold has_prefix, lf1 in *. cbn [String.prefix] in Ep |- *. by rewrite !prefix_nil in *.
Qed.

Lemma strip_head_drop n markers text rest : (String.length rest < String.length text)%nat ->
  strip_head n markers text rest = drop_lines n markers rest.
Proof.
  revert rest. induction n as [|n IH]; intros rest Hl; [done|]. cbn [strip_head drop_lines].
  destruct (cut_line rest) as [line tail] eqn:E. cbn [fst snd].
  replace (rest =? text)%string with false by (symmetry; apply String.eqb_neq; intros ->; lia).
  rewrite andb_true_r. unfold droppable. fold (marker_line markers line).
  assert (Ht : match tail with Some t => strip_head n markers text t | None => ""%string end =
               match tail with Some t => drop_lines n markers t | None => ""%string end).
  { destruct tail as [t|]; [|done]. apply IH. pose proof (cut_line_tail rest t). rewrite E in H. specialize (H eq_refl). lia. }
  destruct (trim_space line =? "")%string; cbn [orb]; [done|]. by destruct (marker_line markers line).
Qed.

Lemma drop_lines_fuel n m markers rest : (String.length rest < n)%nat -> (String.length rest < m)%nat ->
  drop_lines n markers rest = drop_lines m markers rest.
Proof.
  revert m rest. induction n as [|n IH]; intros [|m] rest Hn Hm; try lia. cbn [drop_lines].
  destruct (droppable _ _); [|done]. destruct (cut_line rest).2 as [t|] eqn:E; [|done].
  apply cut_line_tail in E. apply IH; lia.
Qed.

Definition drop_head (markers : list string) (rest : string) : string := drop_lines (S (String.length rest)) markers rest.

Lemma drop_head_step markers rest : drop_head markers rest =
  if droppable markers (cut_line rest).1 then match (cut_line rest).2 with Some t => drop_head markers t | None => ""%string end else rest.
Proof.
  unfold drop_head at 1. cbn [drop_lines]. destruct (droppable _ _); [|done].
  destruct (cut_line rest).2 as [t|] eqn:E; [|done]. apply cut_line_tail in E. apply drop_lines_fuel; lia.
Qed.

Lemma strip_marker_step markers text : stripMarkerHead text markers =
  if marker_line markers (cut_line text).1 then match (cut_line text).2 with Some t => drop_head markers t | None => ""%string end else text.
Proof.
  unfold stripMarkerHead. cbn [strip_head]. destruct (cut_line text) as [line tail] eqn:E. cbn [fst snd].
  rewrite String.eqb_refl, andb_false_r. fold (marker_line markers line). destruct (marker_line markers line); [|done].
  destruct tail as [t|]; [|done]. pose proof (cut_line_tail text t) as Ht. rewrite E in Ht. specialize (Ht eq_refl).
  rewrite strip_head_drop by done. apply drop_lines_fuel; lia.
Qed.

(** Whole droppable lines are removed, up to a line that is none. *)
Lemma drop_head_spec markers rest : exists lines,
  Forall (fun l => cut lf1 l = None /\ droppable markers l = true) lines /\
  ((rest = concat_strings (map (fun l => l +:+ lf1) lines) +:+ drop_head markers rest /\
      droppable markers (cut_line (drop_head markers rest)).1 = false) \/
   (drop_head markers rest = ""%string /\ exists l, cut lf1 l = None /\ droppable markers l = true /\
      rest = concat_strings (map (fun l => l +:+ lf1) lines) +:+ l)).
Proof.
  remember (String.length rest) as n eqn:En. revert rest En. induction (lt_wf n) as [n _ IH]. intros rest ->.
  rewrite drop_head_step. destruct (droppable markers (cut_line rest).1) eqn:Ed; [|exists []; split; [constructor|by left]].
  destruct (cut_line rest) as [line [t|]] eqn:E; cbn [fst snd] in *.
  - pose proof (cut_line_tail rest t) as Ht. rewrite E in Ht. specialize (Ht eq_refl).
    apply cut_line_spec in E as [Hl ->]. destruct (IH _ Ht t eq_refl) as (lines & Hf & H). exists (line :: lines).
    split; [by constructor|]. cbn [map concat_strings foldr]. fold (concat_strings (map (fun l => l +:+ lf1) lines)).
    destruct H as [[H1 H2]|(H1 & l & ? & ? & H2)]; [left|right; split; [done|]; exists l; split_and!; try done].
    + split; [|done]. rewrite H1 at 1. by rewrite !string_app_assoc.
    + rewrite H2. by rewrite !string_app_assoc.
  - apply cut_line_spec in E as [Hl ->]. exists []. split; [constructor|]. right. split; [done|]. by exists line.
Qed.

Lemma drop_head_stops markers rest : drop_head markers rest = ""%string \/
  marker_line markers (cut_line (drop_head markers rest)).1 = false.
Proof.
  destruct (drop_head_spec markers rest) as (lines & _ & [[_ H]|[H _]]); [right|by left].
  unfold droppable in H. by go_bool.
Qed.

Lemma strip_marker_idem markers text : stripMarkerHead (stripMarkerHead text markers) markers = stripMarkerHead text markers.
Proof.
  assert (He : forall r, r = ""%string \/ marker_line markers (cut_line r).1 = false -> stripMarkerHead r markers = r).
  { intros r [->|H]; rewrite strip_marker_step; [cbn; by destruct (marker_line markers "")|by rewrite H]. }
  apply He. rewrite strip_marker_step. destruct (marker_line markers (cut_line text).1) eqn:E; [|by right].
  destruct (cut_line text).2 as [t|]; [apply drop_head_stops|by left].
Qed.

Lemma strip_marker_front markers line text :
  cut lf1 line = None -> marker_line markers line = true -> (trim_space (cut_line text).1 =? "")%string = false ->
  stripMarkerHead (line +:+ lf1 +:+ text) markers = stripMarkerHead text markers.
Proof.
  intros Hl Hm Hb. rewrite (strip_marker_step _ (line +:+ lf1 +:+ text)), cut_line_app by done. cbn [fst snd]. rewrite Hm.
  rewrite drop_head_step, strip_marker_step. unfold droppable. rewrite Hb. cbn [orb]. by destruct (marker_line _ _).
Qed.

(** Stripping the attribution head of a system prompt removes whole lines only:
    the first is a marker, the others are markers or blank, and it stops at the
    first line that is neither, so the rest of the prompt is kept byte for byte; a
    prompt that starts with anything else is unchanged; and a marker line put in
    front of a prompt leaves no trace. *)
Theorem stripMarkerHead_exact markers text :
  (marker_line markers (cut_line text).1 = false -> stripMarkerHead text markers = text) /\
  (marker_line markers (cut_line text).1 = true ->
     exists lines last, Forall (fun l => cut lf1 l = None /\ droppable markers l = true) lines /\
       text = concat_strings (map (fun l => l +:+ lf1) lines) +:+ last +:+ stripMarkerHead text markers /\
       ((last = ""%string /\ droppable markers (cut_line (stripMarkerHead text markers)).1 = false) \/
        (stripMarkerHead text markers = ""%string /\ cut lf1 last = None /\ droppable markers last = true))) /\
  (forall line, cut lf1 line = None -> marker_line markers line = true -> (trim_space (cut_line text).1 =? "")%string = false ->
     stripMarkerHead (line +:+ lf1 +:+ text) markers = stripMarkerHead text markers).
Proof.
  split_and!.
  - intros H. by rewrite strip_marker_step, H.
  - intros H. rewrite strip_marker_step, H. destruct (cut_line text) as [line [t|]] eqn:E; cbn [fst snd] in *; apply cut_line_spec in E as [Hl ->].
    + assert (Hd : droppable markers line = true) by (unfold droppable; rewrite H; apply orb_true_r).
      destruct (drop_head_spec markers t) as (lines & Hf & [[H1 H2]|(H1 & l & Hc & Hld & H2)]).
      * exists (line :: lines), ""%string. split; [by constructor|]. split; [|by left]. cbn [map concat_strings foldr].
        fold (concat_strings (map (fun l => l +:+ lf1) lines)). rewrite H1 at 1. by rewrite str_nil_l, !string_app_assoc.
      * exists (line :: lines), l. split; [by constructor|]. split; [|by right]. cbn [map concat_strings foldr].
        fold (concat_strings (map (fun l => l +:+ lf1) lines)). rewrite H1, H2. by rewrite string_app_nil, !string_app_assoc.
    + exists [], line. split; [constructor|]. split; [|right; split_and!; try done]; [|unfold droppable; rewrite H; apply orb_true_r].
      cbn. by rewrite string_app_nil.
  - intros line. apply strip_marker_front.
Qed.

(** ** The whole middleware *)

Lemma strip_part_idem markers ps : strip_part markers (strip_part markers ps) = strip_part markers ps.
Proof.
  induction ps as [|p ps IH]; [done|]. destruct p as [| | | | |m]; cbn [strip_part]; try by rewrite IH.
  destruct (is_text (field m "type") "text") eqn:E; [|cbn [strip_part]; by rewrite E, IH].
  destruct (field m "text") as [| | |s| |] eqn:Et; cbn [strip_part]; rewrite ?E, ?Et; try done.
  unfold field in *. rewrite lookup_insert_ne, lookup_insert_eq by done. rewrite E. cbn [default id]. by rewrite strip_marker_idem, insert_insert_eq.
Qed.

Lemma strip_content_idem markers m : strip_content markers (strip_content markers m) = strip_content markers m.
Proof.
  unfold strip_content at 2 3. destruct (field m "content") as [| | |s|l|] eqn:E; try (unfold strip_content; by rewrite E).
  all: unfold strip_content, field; rewrite lookup_insert_eq; cbn [default id]; rewrite insert_insert_eq; by rewrite ?strip_marker_idem, ?strip_part_idem.
Qed.

Lemma strip_content_field markers m k : k <> "content"%string -> field (strip_content markers m) k = field m k.
Proof. intros Hk. unfold strip_content, field. destruct (default JNull (m !! "content"%string)); try done; by rewrite lookup_insert_ne. Qed.

Lemma strip_messages_idem markers ms : strip_messages markers (strip_messages markers ms) = strip_messages markers ms.
Proof.
  induction ms as [|m ms IH]; [done|]. destruct m as [| | | | |m]; cbn [strip_messages]; try by rewrite IH.
  destruct (is_text (field m "role") "system") eqn:E; cbn [strip_messages].
  - by rewrite strip_content_field, E, strip_content_idem.
  - by rewrite E, IH.
Qed.

Lemma stripAttribution_idem markers raw :
  stripAttributionMarkers markers (stripAttributionMarkers markers raw) = stripAttributionMarkers markers raw.
Proof.
  unfold stripAttributionMarkers at 2 3. destruct (field raw "messages") as [| | | |l|] eqn:E; try (unfold stripAttributionMarkers; by rewrite E).
  unfold stripAttributionMarkers, field. rewrite lookup_insert_eq. cbn [default id]. by rewrite strip_messages_idem, insert_insert_eq.
Qed.

Lemma tool_asym a b : tool_less a b = true -> tool_less b a = false.
Proof. unfold tool_less. destruct (toolNameOf a), (toolNameOf b); auto with go. Qed.

Lemma tool_cotrans a b c : not_after tool_less a b -> not_after tool_less b c -> not_after tool_less a c.
Proof.
  unfold not_after, tool_less. destruct (toolNameOf a), (toolNameOf b), (toolNameOf c); try done. eauto using string_less_cotrans.
Qed.

Lemma tools_sorted l : StronglySorted (not_after tool_less) (go_sort tool_less l).
Proof. apply (go_sort_sorted _ (fun _ => True)); [intros ? ? _ _; apply tool_asym|intros ? ? ? _ _ _; apply tool_cotrans|by apply Forall_true]. Qed.

Lemma sortTools_idem raw : sortToolsArray (sortToolsArray raw) = sortToolsArray raw.
Proof.
  unfold sortToolsArray at 2 3. destruct (field raw "tools") as [| | | |l|] eqn:E; try (unfold sortToolsArray; by rewrite E).
  destruct (length l <? 2)%nat eqn:El; [unfold sortToolsArray; by rewrite E, El|].
  unfold sortToolsArray, field. rewrite lookup_insert_eq. cbn [default id]. rewrite go_sort_length, El, insert_insert_eq.
  by rewrite (go_sort_sorted_id _ (go_sort tool_less l)) by apply tools_sorted.
Qed.

Lemma strip_cache_idem v : stripCacheControl (stripCacheControl v) = stripCacheControl v.
Proof.
  induction v as [|b|n|s|l IH|m IH] using json_rec_ind; try done; cbn [stripCacheControl]; f_equal.
  - rewrite map_map. apply map_ext_in. intros v Hv%list_elem_of_In. by apply IH.
  - apply map_eq. intros k. destruct (decide (k = "cache_control"%string)) as [->|Hk]; [by rewrite !lookup_delete_eq|].
    rewrite !lookup_delete_ne, !lookup_fmap, lookup_delete_ne, lookup_fmap by done.
    destruct (m !! k) as [v|] eqn:E; [|done]. cbn. by rewrite (IH k v E).
Qed.

Lemma strip_fields_idem raw : strip_cache_fields (strip_cache_fields raw) = strip_cache_fields raw.
Proof. pose proof (strip_cache_idem (JObject raw)) as H. cbn [stripCacheControl] in H. by injection H. Qed.

Lemma cache_field m k : k <> "cache_control"%string -> field (strip_cache_fields m) k = stripCacheControl (field m k).
Proof. intros Hk. unfold field, strip_cache_fields. rewrite lookup_delete_ne, lookup_fmap by done. by destruct (m !! k). Qed.

Lemma cache_insert m k v : k <> "cache_control"%string -> strip_cache_fields (<[k := v]> m) = <[k := stripCacheControl v]> (strip_cache_fields m).
Proof. intros Hk. unfold strip_cache_fields. by rewrite fmap_insert, delete_insert_ne. Qed.

Lemma cache_text v s : is_text (stripCacheControl v) s = is_text v s.
Proof. by destruct v. Qed.

(** Removing the cache fields commutes with the other two passes. *)
Lemma cache_part markers ps : strip_part markers (map stripCacheControl ps) = map stripCacheControl (strip_part markers ps).
Proof.
  induction ps as [|p ps IH]; [done|]. destruct p as [| | | | |m]; cbn [map strip_part stripCacheControl]; try by rewrite IH.
  fold (strip_cache_fields m). rewrite cache_field, cache_text by done.
  destruct (is_text (field m "type") "text"); [|cbn [map stripCacheControl]; by rewrite IH].
  rewrite cache_field by done. destruct (field m "text"); cbn [stripCacheControl map]; try done.
  fold (strip_cache_fields (<["text" := JString (stripMarkerHead s markers)]> m)). by rewrite cache_insert.
Qed.

Lemma cache_content markers m : strip_content markers (strip_cache_fields m) = strip_cache_fields (strip_content markers m).
Proof.
  unfold strip_content. rewrite cache_field by done. destruct (field m "content"); cbn [stripCacheControl]; try done.
  - by rewrite cache_insert.
  - rewrite cache_insert by done. cbn [stripCacheControl]. by rewrite cache_part.
Qed.

Lemma cache_messages markers ms : strip_messages markers (map stripCacheControl ms) = map stripCacheControl (strip_messages markers ms).
Proof.
  induction ms as [|m ms IH]; [done|]. destruct m as [| | | | |m]; cbn [map strip_messages stripCacheControl]; try by rewrite IH.
  fold (strip_cache_fields m). rewrite cache_field, cache_text by done.
  destruct (is_text (field m "role") "system"); cbn [map stripCacheControl]; [|by rewrite IH].
  fold (strip_cache_fields (strip_content markers m)). by rewrite cache_content.
Qed.

Lemma cache_attribution markers raw :
  stripAttributionMarkers markers (strip_cache_fields raw) = strip_cache_fields (stripAttributionMarkers markers raw).
Proof.
  unfold stripAttributionMarkers. rewrite cache_field by done. destruct (field raw "messages"); cbn [stripCacheControl]; try done.
  rewrite cache_insert by done. cbn [stripCacheControl]. by rewrite cache_messages.
Qed.

Lemma cache_name v : toolNameOf (stripCacheControl v) = toolNameOf v.
Proof.
  destruct v as [| | | | |m]; try done. unfold toolNameOf; cbn [stripCacheControl]. fold (strip_cache_fields m).
  rewrite !cache_field by done. assert (Hn : forall x, nonempty_text (stripCacheControl x) = nonempty_text x) by (by intros []).
  rewrite Hn. destruct (field m "function") as [| | | | |f]; cbn [as_map stripCacheControl mbind option_bind]; try done.
  fold (strip_cache_fields f). by rewrite cache_field, Hn.
Qed.

Lemma cache_tools raw : sortToolsArray (strip_cache_fields raw) = strip_cache_fields (sortToolsArray raw).
Proof.
  unfold sortToolsArray. rewrite cache_field by done. destruct (field raw "tools"); cbn [stripCacheControl]; try done.
  rewrite length_map. destruct (length l <? 2)%nat; [done|]. rewrite cache_insert by done. cbn [stripCacheControl].
  do 2 f_equal. apply go_sort_map. intros x y. unfold tool_less. by rewrite !cache_name.
Qed.

Lemma attribution_tools markers raw : sortToolsArray (stripAttributionMarkers markers raw) = stripAttributionMarkers markers (sortToolsArray raw).
Proof.
  unfold stripAttributionMarkers, sortToolsArray, field.
  destruct (raw !! "messages"%string) as [[| | | |ms|]|] eqn:Em; cbn [default id]; destruct (raw !! "tools"%string) as [[| | | |ts|]|] eqn:Et; cbn [default id];
    try (destruct (length ts <? 2)%nat eqn:El); rewrite ?lookup_insert_ne, ?Em, ?Et by done; cbn [default id]; rewrite ?El; try done.
  by apply insert_insert_ne.
Qed.

Lemma perm_tools l l' : l ≡ₚ l' -> Forall (fun v => is_Some (toolNameOf v)) l -> NoDup (map toolNameOf l) ->
  go_sort tool_less l = go_sort tool_less l'.
Proof.
  intros Hp Hs Hn. apply (go_sort_perm_eq _ (fun _ => True)); [intros ????; by apply tool_asym|intros ??????; by apply tool_cotrans| |by apply Forall_true|done].
  intros x y Hx Hy Hxy Hyx. rewrite Forall_forall in Hs. destruct (Hs x Hx) as [nx Ex], (Hs y Hy) as [ny Ey].
  unfold tool_less in *. rewrite Ex, Ey in *. assert (nx = ny) by auto with go. subst ny.
  apply list_elem_of_lookup in Hx as [i Hi], Hy as [j Hj].
  assert (i = j); [|congruence]. eapply (NoDup_lookup (map toolNameOf l)); [done| |]; by rewrite list_lookup_fmap, ?Hi, ?Hj; cbn; rewrite ?Ex, ?Ey.
Qed.

Lemma fields_kept cfg up raw k : k ∉ ["messages"; "tools"; "cache_control"]%string ->
  field (sanitizeOutgoing cfg up raw) k = if up_StripCacheControl up then stripCacheControl (field raw k) else field raw k.
Proof.
  intros Hk. assert (k <> "messages" /\ k <> "tools" /\ k <> "cache_control")%string as (Hm & Ht & Hc) by (split_and!; set_solver).
  assert (H1 : forall r, field (sortToolsArray r) k = field r k).
  { intros r. unfold sortToolsArray. destruct (field r "tools"); try done. destruct (_ <? _)%nat; [done|]. unfold field. by rewrite lookup_insert_ne. }
  assert (H2 : forall ms r, field (stripAttributionMarkers ms r) k = field r k).
  { intros ms r. unfold stripAttributionMarkers. destruct (field r "messages"); try done. unfold field. by rewrite lookup_insert_ne. }
  unfold sanitizeOutgoing. destruct (up_StripCacheControl up), (SortToolsEnabled cfg), (StripAttributionEnabled cfg); by rewrite ?cache_field, ?H1, ?H2.
Qed.

(** The prefix-hygiene middleware gives a canonical body: applying it again
    changes nothing, the order in which a client lists distinctly named tools does
    not matter, a marker line in front of the system prompt does not matter, and
    every field other than the messages and the tools is kept (but for cache
    fields, where the upstream asks for their removal). *)
Theorem sanitizeOutgoing_canonical cfg up raw :
  sanitizeOutgoing cfg up (sanitizeOutgoing cfg up raw) = sanitizeOutgoing cfg up raw /\
  (forall tools tools', SortToolsEnabled cfg = true -> (2 <= length tools)%nat -> tools ≡ₚ tools' ->
     Forall (fun v => is_Some (toolNameOf v)) tools -> NoDup (map toolNameOf tools) ->
     sanitizeOutgoing cfg up (<["tools" := JArray tools]> raw) = sanitizeOutgoing cfg up (<["tools" := JArray tools']> raw)) /\
  (forall msg rest line text, StripAttributionEnabled cfg = true -> field msg "role" = JString "system" ->
     cut lf1 line = None -> marker_line (EffectiveAttributionMarkers cfg) line = true -> (trim_space (cut_line text).1 =? "")%string = false ->
     sanitizeOutgoing cfg up (<["messages" := JArray (JObject (<["content" := JString (line +:+ lf1 +:+ text)]> msg) :: rest)]> raw) =
     sanitizeOutgoing cfg up (<["messages" := JArray (JObject (<["content" := JString text]> msg) :: rest)]> raw)) /\
  (forall k, k ∉ ["messages"; "tools"; "cache_control"]%string ->
     field (sanitizeOutgoing cfg up raw) k = if up_StripCacheControl up then stripCacheControl (field raw k) else field raw k).
Proof.
  split_and!.
  - unfold sanitizeOutgoing. destruct (StripAttributionEnabled cfg), (SortToolsEnabled cfg), (up_StripCacheControl up);
      rewrite ?cache_attribution, ?cache_tools, ?strip_fields_idem, <- ?attribution_tools, ?stripAttribution_idem, ?sortTools_idem; done.
  - unfold sanitizeOutgoing. intros tools tools' -> Hl Hp Hs Hn.
    assert (Ht : sortToolsArray (<["tools" := JArray tools]> raw) = sortToolsArray (<["tools" := JArray tools']> raw)).
    { unfold sortToolsArray, field. rewrite !lookup_insert_eq. cbn [default id]. rewrite <- Hp.
      replace (length tools <? 2)%nat with false by (symmetry; apply Nat.ltb_ge; lia).
      by rewrite !insert_insert_eq, (perm_tools tools tools'). }
    destruct (StripAttributionEnabled cfg); [rewrite !attribution_tools|]; by rewrite Ht.
  - unfold sanitizeOutgoing. intros msg rest line text -> Hr Hl Hm Hb.
    assert (Ha : forall c, stripAttributionMarkers (EffectiveAttributionMarkers cfg) (<["messages" := JArray (JObject (<["content" := JString c]> msg) :: rest)]> raw) =
      <["messages" := JArray (JObject (<["content" := JString (stripMarkerHead c (EffectiveAttributionMarkers cfg))]> msg) :: rest)]> raw).
    { intros c. unfold stripAttributionMarkers at 1, field at 1. rewrite lookup_insert_eq. cbn [default id strip_messages].
      unfold field at 1. rewrite lookup_insert_ne by done. unfold field in Hr. rewrite Hr. cbn [is_text]. rewrite String.eqb_refl.
      unfold strip_content, field. rewrite lookup_insert_eq. cbn [default id]. by rewrite !insert_insert_eq. }
    rewrite !Ha. by rewrite strip_marker_front.
  - apply fields_kept.
Qed.

(** ** The forwarded body *)

Lemma last_host_snoc ms m :
  last_host (ms ++ [m]) = if block_host m is Some _ then Z.of_nat (length ms) else last_host ms.
Proof.
  unfold last_host. rewrite foldl_app. cbn [foldl].
  assert (Hi : forall i l, (foldl (fun '(i, last) m => (i + 1, if block_host m is Some _ then i else last)) (i, l) ms).1 = i + Z.of_nat (length ms)).
  { induction ms as [|x ms IH]; intros i l; cbn [foldl length]; [cbn; lia|]. rewrite IH. lia. }
  specialize (Hi 0 (-1)). destruct (foldl _ (0, -1) ms) as [i l]. cbn in *. subst i. by destruct (block_host m).
Qed.

Lemma attach_spec ms block :
  (exists pre m msg c post, ms = pre ++ m :: post /\ block_host m = Some (msg, c) /\ Forall (fun x => block_host x = None) post /\
     attachBlockRaw ms block = pre ++ JObject (<["content" := JString (c +:+ lf1 +:+ lf1 +:+ block)]> msg) :: post) \/
  (Forall (fun x => block_host x = None) ms /\
     attachBlockRaw ms block = keyed [("role", JString "system"); ("content", JString block)]%string :: ms).
Proof.
  assert (H : (exists pre m post, ms = pre ++ m :: post /\ is_Some (block_host m) /\ Forall (fun x => block_host x = None) post /\
      last_host ms = Z.of_nat (length pre)) \/ (Forall (fun x => block_host x = None) ms /\ last_host ms = -1)).
  { induction ms as [|m ms IH] using rev_ind; [right; split; [constructor|done]|]. rewrite last_host_snoc.
    destruct (block_host m) as [p|] eqn:E; [left; exists ms, m, []; rewrite E; split_and!; [done|done|constructor|done]|].
    destruct IH as [(pre & x & post & -> & Hx & Hp & Hl)|[Hf Hl]]; [left|right; split; [apply Forall_app; split; [done|by constructor]|done]].
    exists pre, x, (post ++ [m]). rewrite <- app_assoc. split_and!; try done. apply Forall_app. split; [done|by constructor]. }
  unfold attachBlockRaw. destruct H as [(pre & m & post & -> & [[msg c] Hm] & Hp & Hl)|[Hf Hl]]; rewrite Hl; [left|by right].
  exists pre, m, msg, c, post. split_and!; try done. replace (0 <=? Z.of_nat (length pre)) with true by (symmetry; apply Z.leb_le; lia).
  rewrite Nat2Z.id, alter_app_r_alt, Nat.sub_diag by lia. cbn. unfold append_block. rewrite Hm. done.
Qed.

(** The body forwarded to an OpenAI upstream is the sanitised one with the
    upstream's model, and the block, when there is one, is attached once: at the
    end of the last system message with plain text, or as a new first system
    message; every other message and field is as sanitised. *)
Theorem rewritten_exact cfg up block raw :
  up_StripCacheControl up = false ->
  let base := sanitizeOutgoing cfg up (<["model" := JString (up_UpstreamModel up)]> raw) in
  let out := rewritten cfg up block raw in
  field out "model" = JString (up_UpstreamModel up) /\
  (forall k, k <> "messages"%string -> out !! k = base !! k) /\
  (block = ""%string -> out = base) /\
  (forall ms, block <> ""%string -> field base "messages" = JArray ms -> exists ms', field out "messages" = JArray ms' /\
     ((exists pre m msg c post, ms = pre ++ m :: post /\ block_host m = Some (msg, c) /\ Forall (fun x => block_host x = None) post /\
         ms' = pre ++ JObject (<["content" := JString (c +:+ lf1 +:+ lf1 +:+ block)]> msg) :: post) \/
      (Forall (fun x => block_host x = None) ms /\
         ms' = keyed [("role", JString "system"); ("content", JString block)]%string :: ms))).
Proof.
  intros Hc base out. assert (Hk : forall k, k <> "messages"%string -> out !! k = base !! k).
  { intros k Hk. unfold out, rewritten. fold base. destruct (block =? "")%string; [done|].
    destruct (field base "messages"); try done. by rewrite lookup_insert_ne. }
  split_and!; [|done| |].
  - unfold field. rewrite Hk by done. pose proof (fields_kept cfg up (<["model" := JString (up_UpstreamModel up)]> raw) "model") as H.
    unfold field in H. fold base in H. rewrite H by set_solver. by rewrite Hc, lookup_insert_eq.
  - intros ->. done.
  - intros ms Hb Hm. exists (attachBlockRaw ms block). split; [|apply attach_spec].
    unfold out, rewritten. fold base. apply String.eqb_neq in Hb. rewrite Hb, Hm. unfold field. by rewrite lookup_insert_eq.
Qed.

(** ** Examples and witnesses *)

Module ChatSample.
Definition user (s : string) : chatMessage := mkMessage "user" (JString s) JNull "" "" "".
Definition request : chatRequest := mkChat "chat" [user "first"; user "what  is this?"; user "  "] false None.
Definition tool (name : string) : json := keyed [("type", JString "function"); ("function", keyed [("name", JString name)])]%string.
Definition system (s : string) : json := keyed [("role", JString "system"); ("content", JString s)]%string.
Definition body : gmap string json :=
  list_to_map [("messages", JArray [system "be brief"; keyed [("role", JString "user"); ("content", JString "hi")]]);
               ("tools", JArray [tool "b"; tool "a"]); ("seed", JNumber f1)]%string.
Definition sanitize0 : SanitizeConfig := mkSanitize None [] None.
Definition billing : string := "X: 1".
End ChatSample.

Example stripped : stripMarkerHead ("x-anthropic-billing-header: 7" +:+ lf1 +:+ lf1 +:+ "be brief" +:+ lf1) builtinAttributionMarkers = "be brief" +:+ lf1.
Proof. reflexivity. Qed.

Lemma normalizeQuery_canonical_witness :
  normalizeQuery ("a" +:+ "  " +:+ "b") = normalizeQuery ("a" +:+ String (ascii_of 10) "" +:+ "b").
Proof.
  refine (proj1 (proj2 (normalizeQuery_canonical "" "a" "b" "  " (String (ascii_of 10) "") _ _ _ _))); [unfold white; repeat constructor|unfold white; repeat constructor|done|done].
Defined.

Lemma parseChatRequest_query_witness : exists q, lastUserText (Messages ChatSample.request) = Some q /\ q = "what is this?"%string.
Proof.
  destruct (parseChatRequest_query (fun _ => Ok ChatSample.request) "" ChatSample.request) as (_ & _ & q & pre & m & post & Hq & _); [reflexivity|].
  exists q. split; [exact Hq|]. vm_compute in Hq. by injection Hq as <-.
Defined.

Lemma rewritten_exact_witness :
  field (rewritten ChatSample.sanitize0 GatewayConfig.Sample.upstream "BLOCK" ChatSample.body) "model" = JString "deepseek-chat".
Proof. exact (proj1 (rewritten_exact ChatSample.sanitize0 GatewayConfig.Sample.upstream "BLOCK" ChatSample.body eq_refl)). Defined.

Lemma stripMarkerHead_exact_witness :
  stripMarkerHead (ChatSample.billing +:+ lf1 +:+ "be brief") ["X:"]%string = stripMarkerHead "be brief" ["X:"]%string.
Proof. apply (proj2 (proj2 (stripMarkerHead_exact ["X:"]%string "be brief"))); reflexivity. Defined.

Lemma sanitizeOutgoing_canonical_witness :
  sanitizeOutgoing ChatSample.sanitize0 GatewayConfig.Sample.upstream (<["tools" := JArray [ChatSample.tool "b"; ChatSample.tool "a"]]> ChatSample.body) =
  sanitizeOutgoing ChatSample.sanitize0 GatewayConfig.Sample.upstream (<["tools" := JArray [ChatSample.tool "a"; ChatSample.tool "b"]]> ChatSample.body).
Proof.
  apply (proj1 (proj2 (sanitizeOutgoing_canonical ChatSample.sanitize0 GatewayConfig.Sample.upstream ChatSample.body)));
    [reflexivity|reflexivity|apply Permutation_swap|repeat constructor; by eexists|].
  assert (E : map toolNameOf [ChatSample.tool "b"; ChatSample.tool "a"] = [Some "b"; Some "a"]%string) by reflexivity. rewrite E.
  apply NoDup_cons; split; [set_solver|apply NoDup_singleton].
Defined.
