(* ===== verification/Messages.v ===== *)
(** gateway/anthropic.go, the request side: a chat request as a Messages API
    request - system text, alternating turns of content blocks, tools, thinking
    budget and prompt-cache breakpoints.

    The body's decoder and encoder and the decoder of a tool call's arguments are
    arguments.  A field left out of the wire form when empty holds its zero value,
    [JNull] for a nil interface. *)

From Stdlib Require Import ZArith Lia Bool Ascii String.
From stdpp Require Import tactics base option list gmap strings.
From S2P Require Import Prelude Float64 GoStrings Text Json Inject GatewayConfig Chat.

#[global] Open Scope Z_scope.

Definition defaultAnthropicMaxTokens : Z := 4096.

(** ** Wire types *)

Record openAITool := mkTool { ot_Type : string; ot_Name : string; ot_Description : string; ot_Parameters : json }.

Record anthropicImageSource := mkSource { is_Type : string; is_URL : string; is_MediaType : string; is_Data : string }.

(** [cache_control] is a pointer to the one value {type: ephemeral}. *)
Record anthropicBlock := mkBlock {
  b_Type : string; b_Text : string; b_Thinking : string; b_ID : string; b_Name : string; b_Input : json;
  b_ToolUseID : string; b_Content : json; b_Source : option anthropicImageSource; b_CacheControl : bool;
}.
#[export] Instance anthropicBlock_eta : Eta anthropicBlock := fun b =>
  mkBlock (b_Type b) (b_Text b) (b_Thinking b) (b_ID b) (b_Name b) (b_Input b) (b_ToolUseID b) (b_Content b) (b_Source b) (b_CacheControl b).

Definition zero_block : anthropicBlock := mkBlock "" "" "" "" "" JNull "" JNull None false.
Definition text_block (s : string) : anthropicBlock := zero_block <| b_Type := "text"%string |> <| b_Text := s |>.

Record anthropicMessage := mkAMessage { a_Role : string; a_Content : list anthropicBlock }.
#[export] Instance anthropicMessage_eta : Eta anthropicMessage := fun m => mkAMessage (a_Role m) (a_Content m).

Record anthropicTool := mkATool { t_Name : string; t_Description : string; t_InputSchema : json; t_CacheControl : bool }.
#[export] Instance anthropicTool_eta : Eta anthropicTool := fun t => mkATool (t_Name t) (t_Description t) (t_InputSchema t) (t_CacheControl t).

(** [system]: absent, a string, or an array of blocks. *)
Inductive system_field :=
| NoSystem
| SystemText (s : string)
| SystemBlocks (l : list anthropicBlock).

Record anthropicRequest := mkARequest {
  r_Model : string; r_MaxTokens : Z; r_Messages : list anthropicMessage; r_System : system_field; r_Stream : bool;
  r_Temperature : option f64; r_TopP : option f64; r_StopSequences : list string; r_Tools : list anthropicTool;
  r_ToolChoice : json; r_Thinking : option json;
}.
#[export] Instance anthropicRequest_eta : Eta anthropicRequest := fun r =>
  mkARequest (r_Model r) (r_MaxTokens r) (r_Messages r) (r_System r) (r_Stream r) (r_Temperature r) (r_TopP r) (r_StopSequences r)
    (r_Tools r) (r_ToolChoice r) (r_Thinking r).

Record openAIChatBody := mkBody {
  ob_Request : chatRequest; ob_MaxTokens : Z; ob_MaxCompletionTok : Z; ob_TopP : option f64; ob_Stop : json;
  ob_Tools : list openAITool; ob_ToolChoice : json; ob_ReasoningEffort : string; ob_Thinking : option json;
}.

(** ** Content blocks *)

Definition imageSource (v : json) : option anthropicImageSource :=
  m ← as_map v;
  let url := text_field m "url" in
  if (url =? "")%string then None
  else if has_prefix url "data:" then
    '(meta, data) ← cut "," (trim_prefix url "data:");
    '(mediaType, _) ← cut ";base64" meta;
    Some (mkSource "base64" "" mediaType data)
  else Some (mkSource "url" url "" "").

Definition user_part (part : json) : list anthropicBlock :=
  match part with
  | JObject m =>
      if is_text (field m "type") "text" then
        let s := text_field m "text" in if (s =? "")%string then [] else [text_block s]
      else if is_text (field m "type") "image_url" then
        match imageSource (field m "image_url") with
        | Some src => [zero_block <| b_Type := "image"%string |> <| b_Source := Some src |>]
        | None => []
        end
      else []
  | _ => []
  end.

Definition userBlocks (content : json) : list anthropicBlock :=
  match content with
  | JString v => if (v =? "")%string then [] else [text_block v]
  | JArray parts => flat_map user_part parts
  | _ => []
  end.

Definition empty_object : json := JObject ∅.

Section Requests.
Context (unmarshal_any : string -> option json).

Definition tool_use (tc : json) : list anthropicBlock :=
  match tc with
  | JObject m =>
      if is_text (field m "type") "function" then
        let fn := default ∅ (as_map (field m "function")) in
        let args := text_field fn "arguments" in
        let input := if (args =? "")%string then empty_object else default empty_object (unmarshal_any args) in
        [zero_block <| b_Type := "tool_use"%string |> <| b_ID := text_field m "id" |> <| b_Name := text_field fn "name" |> <| b_Input := input |>]
      else []
  | _ => []
  end.

Definition assistantBlocks (content toolCalls : json) : list anthropicBlock :=
  userBlocks content ++ match toolCalls with JArray tcs => flat_map tool_use tcs | _ => [] end.

Definition thinking_block (s : string) : anthropicBlock := zero_block <| b_Type := "thinking"%string |> <| b_Thinking := s |>.

Definition tool_result (m : chatMessage) : anthropicBlock :=
  let out := textParts (Content m) in
  zero_block <| b_Type := "tool_result"%string |> <| b_ToolUseID := ToolCallID m |>
    <| b_Content := if (out =? "")%string then JNull else JString out |>.

(** The role and the blocks of one message that is not a system message. *)
Definition message_blocks (m : chatMessage) : string * list anthropicBlock :=
  if (Role m =? "user")%string then ("user"%string, userBlocks (Content m))
  else if (Role m =? "assistant")%string then
    let blocks := assistantBlocks (Content m) (ToolCalls m) in
    ("assistant"%string, if (ReasoningContent m =? "")%string then blocks else thinking_block (ReasoningContent m) :: blocks)
  else if (Role m =? "tool")%string then ("user"%string, [tool_result m])
  else (Role m, [text_block (textParts (Content m))]).

(** Merge into the last message when it has the same role. *)
Fixpoint push_blocks (role : string) (blocks : list anthropicBlock) (out : list anthropicMessage) : list anthropicMessage :=
  match out with
  | [] => [mkAMessage role blocks]
  | [m] => if (a_Role m =? role)%string then [m <| a_Content ::= fun c => c ++ blocks |>] else [m; mkAMessage role blocks]
  | m :: t => m :: push_blocks role blocks t
  end.

Definition split_step (st : list string * list anthropicMessage) (m : chatMessage) : list string * list anthropicMessage :=
  let '(sys, out) := st in
  if (Role m =? "system")%string then
    let t := textParts (Content m) in
    (if (trim_space t =? "")%string then sys else sys ++ [t], out)
  else
    let (role, blocks) := message_blocks m in
    (sys, match blocks with [] => out | _ => push_blocks role blocks out end).

Definition blank_line : string := String (ascii_of 10) (String (ascii_of 10) "").

Definition splitSystem (ms : list chatMessage) : string * list anthropicMessage :=
  let '(sys, out) := foldl split_step ([], []) ms in (join blank_line sys, out).

(** ** Tools and stop sequences *)

Definition mapTools (tools : list openAITool) : list anthropicTool :=
  map (fun t => mkATool (ot_Name t) (ot_Description t) (ot_Parameters t) false) tools.

Definition typed (t : string) : json := keyed [("type", JString t)]%string.

Definition mapToolChoice (tc : json) (nTools : nat) : json :=
  match tc with
  | JNull => if (nTools =? 0)%nat then JNull else typed "auto"
  | JString v =>
      if (v =? "auto")%string || (v =? "none")%string then typed v
      else if (v =? "required")%string then typed "any" else JNull
  | JObject m =>
      match as_map (field m "function") with
      | Some fn =>
          let name := text_field fn "name" in
          if (name =? "")%string then JNull else keyed [("type", JString "tool"); ("name", JString name)]%string
      | None => JNull
      end
  | _ => JNull
  end.

Definition stop_item (v : json) : list string :=
  match v with JString s => if (s =? "")%string then [] else [s] | _ => [] end.

(** The empty list when the field is not set. *)
Definition toStopSequences (v : json) : list string :=
  match v with
  | JString s => if (s =? "")%string then [] else [s]
  | JArray l => flat_map stop_item l
  | _ => []
  end.

(** ** Cache breakpoints *)

Inductive cacheBreakpointMode := breakpointsAlways | breakpointsL2Only | breakpointsOff.

Definition cacheBreakpointMode_of (up : UpstreamConfig) : cacheBreakpointMode :=
  if up_StripCacheControl up then breakpointsOff
  else if (up_CacheBreakpoints up =? "l2_only")%string then breakpointsL2Only
  else if (up_CacheBreakpoints up =? "off")%string then breakpointsOff
  else breakpointsAlways.

Definition cacheable (b : anthropicBlock) : bool := one_of (b_Type b) ["text"; "image"; "tool_use"; "tool_result"]%string.

(** From the end of the content back. *)
Fixpoint mark_first (blocks : list anthropicBlock) : list anthropicBlock :=
  match blocks with
  | [] => []
  | b :: t => if cacheable b then b <| b_CacheControl := true |> :: t else b :: mark_first t
  end.

Definition markLastCacheableBlock (m : anthropicMessage) : anthropicMessage := m <| a_Content ::= fun c => rev (mark_first (rev c)) |>.

(** Change the last element of a list. *)
Fixpoint on_last {A} (f : A -> A) (l : list A) : list A :=
  match l with [] => [] | [x] => [f x] | x :: t => x :: on_last f t end.

Definition applyCacheBreakpoints (out : anthropicRequest) (system : string) (inj_text : string) (hasBlock : bool) (mode : cacheBreakpointMode) :
    anthropicRequest :=
  let want := match mode with breakpointsAlways => true | breakpointsL2Only => hasBlock | breakpointsOff => false end in
  let blocks := if (system =? "")%string then [] else [text_block system <| b_CacheControl := want |>] in
  let out := if (system =? "")%string && want && (0 <? length (r_Tools out))%nat
             then out <| r_Tools ::= on_last (fun t => t <| t_CacheControl := true |>) |> else out in
  let blocks := if hasBlock then blocks ++ [text_block inj_text] else blocks in
  let out := out <| r_System := match blocks with
                                | [] => NoSystem
                                | [b] => if b_CacheControl b then SystemBlocks blocks else SystemText (b_Text b)
                                | _ => SystemBlocks blocks
                                end |> in
  if want && (0 <? length (r_Messages out))%nat then out <| r_Messages ::= on_last markLastCacheableBlock |> else out.

(** ** The request *)

Definition translate (o : openAIChatBody) (up : UpstreamConfig) (inj : option Injection) : anthropicRequest :=
  let req := ob_Request o in
  let '(system, msgs) := splitSystem (Messages req) in
  let hasBlock := match inj with Some i => (0 <? length (i_Slices i))%nat | None => false end in
  let out := mkARequest (up_UpstreamModel up)
    (if 0 <? ob_MaxTokens o then ob_MaxTokens o else if 0 <? ob_MaxCompletionTok o then ob_MaxCompletionTok o else defaultAnthropicMaxTokens)
    msgs NoSystem (Stream req) (Temperature req) (match Temperature req with None => ob_TopP o | Some _ => None end)
    (toStopSequences (ob_Stop o)) (mapTools (ob_Tools o)) (mapToolChoice (ob_ToolChoice o) (length (ob_Tools o)))
    (translateThinking (ob_ReasoningEffort o) (ob_Thinking o)).1 in
  applyCacheBreakpoints out system (match inj with Some i => i_Text i | None => ""%string end) hasBlock (cacheBreakpointMode_of up).

Definition toAnthropicRequest (unmarshal : string -> result openAIChatBody) (marshal : anthropicRequest -> string)
    (body : string) (up : UpstreamConfig) (inj : option Injection) : result string :=
  match unmarshal body with
  | Err e => Err ("parse OpenAI body: " +:+ e)
  | Ok o => match Messages (ob_Request o) with
            | [] => Err "messages must not be empty"
            | _ => Ok (marshal (translate o up inj))
            end
  end.
End Requests.

(** ** Well-formed requests *)

Inductive source_ok : anthropicImageSource -> Prop :=
| source_url url : url <> ""%string -> source_ok (mkSource "url" url "" "")
| source_data mediaType data : mediaType <> ""%string -> data <> ""%string -> source_ok (mkSource "base64" "" mediaType data).

(** The blocks of the Messages API the adapter emits, before markers.  A field that
    holds its zero value is left out of the wire form, so those the API requires are
    not: the input of a tool call is an object. *)
Inductive shape : anthropicBlock -> Prop :=
| shape_text s : s <> ""%string -> shape (text_block s)
| shape_image src : source_ok src -> shape (zero_block <| b_Type := "image"%string |> <| b_Source := Some src |>)
| shape_tool_use id name input : id <> ""%string -> name <> ""%string ->
    shape (zero_block <| b_Type := "tool_use"%string |> <| b_ID := id |> <| b_Name := name |> <| b_Input := JObject input |>)
| shape_tool_result id out : id <> ""%string ->
    shape (zero_block <| b_Type := "tool_result"%string |> <| b_ToolUseID := id |>
             <| b_Content := if (out =? "")%string then JNull else JString out |>)
| shape_thinking s : s <> ""%string -> shape (thinking_block s).

(** A client's parts, calls and messages that carry what those fields are made of. *)
Definition url_ok (url : string) : Prop :=
  forall mediaType x data, url = "data:" +:+ (mediaType +:+ ";base64" +:+ x) +:+ "," +:+ data -> mediaType <> ""%string /\ data <> ""%string.
Definition part_ok (part : json) : Prop :=
  forall m u, part = JObject m -> field m "image_url" = JObject u -> url_ok (text_field u "url").
Definition call_ok (unmarshal_any : string -> option json) (tc : json) : Prop :=
  forall m, tc = JObject m -> field m "type" = JString "function" ->
    let fn := default ∅ (as_map (field m "function")) in
    text_field m "id" <> ""%string /\ text_field fn "name" <> ""%string /\
    forall v, text_field fn "arguments" <> ""%string -> unmarshal_any (text_field fn "arguments") = Some v -> exists input, v = JObject input.
Definition client_ok (unmarshal_any : string -> option json) (m : chatMessage) : Prop :=
  (forall parts, Content m = JArray parts -> Forall part_ok parts) /\
  (forall tcs, ToolCalls m = JArray tcs -> Forall (call_ok unmarshal_any) tcs) /\
  (Role m = "tool"%string -> ToolCallID m <> ""%string).

Lemma imageSource_ok u src : url_ok (text_field u "url") -> imageSource (JObject u) = Some src -> source_ok src.
Proof.
  unfold imageSource. cbn [as_map mbind option_bind]. intros Hu.
  destruct (text_field u "url" =? "")%string eqn:E; [done|]. apply String.eqb_neq in E. destruct (has_prefix _ _) eqn:Ep.
  - apply prefix_app_inv in Ep as [rest Hr]. rewrite Hr, trim_prefix_app in *.
    destruct (cut "," rest) as [[meta data]|] eqn:E1; [|done]. cbn. destruct (cut ";base64" meta) as [[mt x]|] eqn:E2; [|done]. intros [= <-].
    apply cut_sound in E1 as ->. apply cut_sound in E2 as ->. destruct (Hu mt x data eq_refl). by constructor.
  - intros [= <-]. by constructor.
Qed.

Lemma user_part_shape part : part_ok part -> Forall shape (user_part part).
Proof.
  destruct part as [| | | | |m]; try by constructor. cbn [user_part]. intros Hp. destruct (is_text (field m "type") "text").
  - destruct (text_field m "text" =? "")%string eqn:E; [constructor|]. apply String.eqb_neq in E. repeat constructor. done.
  - destruct (is_text _ _); [|constructor]. destruct (field m "image_url") as [| | | | |u] eqn:Ei; try by constructor.
    destruct (imageSource _) as [src|] eqn:E; [|constructor]. apply imageSource_ok in E; [|by apply (Hp m)]. by repeat constructor.
Qed.

Lemma Forall_flat_map {A B} (P : B -> Prop) (f : A -> list B) l : Forall (fun x => Forall P (f x)) l -> Forall P (flat_map f l).
Proof. induction 1; [constructor|]. cbn. apply Forall_app. auto. Qed.

Lemma userBlocks_shape c : (forall parts, c = JArray parts -> Forall part_ok parts) -> Forall shape (userBlocks c).
Proof.
  destruct c as [| | |s|l|]; try by constructor; cbn [userBlocks].
  - cbn. intros _. destruct (s =? "")%string eqn:E; [constructor|]. apply String.eqb_neq in E. by repeat constructor.
  - intros Hl. apply Forall_flat_map. eapply Forall_impl; [by apply Hl|]. apply user_part_shape.
Qed.

Section Facts.
Context (unmarshal_any : string -> option json).

Lemma tool_use_shape tc : call_ok unmarshal_any tc -> Forall shape (tool_use unmarshal_any tc).
Proof.
  destruct tc as [| | | | |m]; try by constructor. cbn. intros Hc. destruct (is_text _ _) eqn:E; [|constructor].
  apply is_text_spec in E. destruct (Hc m eq_refl E) as (H1 & H2 & H3). constructor; [|constructor].
  destruct (text_field _ "arguments" =? "")%string eqn:Ea; [by constructor|]. apply String.eqb_neq in Ea.
  destruct (unmarshal_any _) as [v|]; [|by constructor]. destruct (H3 v Ea eq_refl) as [i ->]. by constructor.
Qed.

Lemma assistantBlocks_shape c tcs : (forall parts, c = JArray parts -> Forall part_ok parts) ->
  (forall l, tcs = JArray l -> Forall (call_ok unmarshal_any) l) -> Forall shape (assistantBlocks unmarshal_any c tcs).
Proof.
  intros Hc Ht. apply Forall_app. split; [by apply userBlocks_shape|]. destruct tcs; try constructor.
  apply Forall_flat_map. eapply Forall_impl; [by apply Ht|]. apply tool_use_shape.
Qed.

Definition known_role (m : chatMessage) : Prop := Role m ∈ ["system"; "user"; "assistant"; "tool"]%string.

Lemma message_blocks_role m : known_role m -> Role m <> "system"%string ->
  (message_blocks unmarshal_any m).1 ∈ ["user"; "assistant"]%string.
Proof.
  intros Hk Hs. unfold message_blocks. destruct (Role m =? "user")%string eqn:E1; [left|].
  destruct (Role m =? "assistant")%string eqn:E2; [right; left|].
  destruct (Role m =? "tool")%string eqn:E3; [left|]. go_bool. exfalso. unfold known_role in Hk. set_solver.
Qed.

Lemma message_blocks_shape m : known_role m -> Role m <> "system"%string -> client_ok unmarshal_any m ->
  Forall shape (message_blocks unmarshal_any m).2.
Proof.
  intros Hk Hs (Hp & Hc & Ht). unfold message_blocks. destruct (Role m =? "user")%string eqn:E1; [by apply userBlocks_shape|].
  destruct (Role m =? "assistant")%string eqn:E2; cbn [snd].
  { pose proof (assistantBlocks_shape (Content m) (ToolCalls m) Hp Hc) as H.
    destruct (ReasoningContent m =? "")%string eqn:E; [done|]. apply String.eqb_neq in E. constructor; [by constructor|done]. }
  destruct (Role m =? "tool")%string eqn:E3; cbn [snd].
  { apply String.eqb_eq in E3. constructor; [|constructor]. by apply (shape_tool_result (ToolCallID m) (textParts (Content m))), Ht. }
  go_bool. exfalso. unfold known_role in Hk. set_solver.
Qed.

(** No block carries a marker yet. *)
Definition unmarked (b : anthropicBlock) : Prop := b_CacheControl b = false.

Lemma userBlocks_unmarked c : Forall unmarked (userBlocks c).
Proof.
  destruct c as [| | |s|l|]; try by constructor; cbn [userBlocks].
  - cbn. destruct (s =? "")%string; by repeat constructor.
  - apply Forall_flat_map, Forall_true. intros [| | | | |m]; try by constructor. cbn [user_part].
    destruct (is_text _ _); [destruct (_ =? _)%string; by repeat constructor|]. destruct (is_text _ _); [|constructor].
    destruct (imageSource _); by repeat constructor.
Qed.

Lemma message_blocks_unmarked m : Forall unmarked (message_blocks unmarshal_any m).2.
Proof.
  unfold message_blocks. destruct (Role m =? "user")%string; [apply userBlocks_unmarked|].
  destruct (Role m =? "assistant")%string; cbn [snd]; [|destruct (Role m =? "tool")%string; by repeat constructor].
  assert (Ha : Forall unmarked (assistantBlocks unmarshal_any (Content m) (ToolCalls m))).
  { apply Forall_app. split; [apply userBlocks_unmarked|]. destruct (ToolCalls m); try constructor. apply Forall_flat_map, Forall_true.
    intros [| | | | |o]; try by constructor. cbn. destruct (is_text _ _); by repeat constructor. }
  destruct (ReasoningContent m =? "")%string; [done|by constructor].
Qed.

(** Adjacent messages have different roles. *)
Fixpoint alternating (ms : list anthropicMessage) : Prop :=
  match ms with
  | [] => True
  | m :: t => match t with [] => True | m' :: _ => a_Role m <> a_Role m' end /\ alternating t
  end.

Definition turn_ok (m : anthropicMessage) : Prop := a_Role m ∈ ["user"; "assistant"]%string /\ a_Content m <> [].

Lemma push_head role blocks m t : exists m' t', push_blocks role blocks (m :: t) = m' :: t' /\ a_Role m' = a_Role m.
Proof. destruct t; cbn; [destruct (_ =? _)%string|]; eauto. Qed.

Lemma push_alternating role blocks out : alternating out -> alternating (push_blocks role blocks out).
Proof.
  induction out as [|m [|m2 t] IH]; intros H; [done| |].
  - cbn. destruct (a_Role m =? role)%string eqn:E; [done|]. go_bool. by cbn.
  - destruct H as [Hm Ht]. specialize (IH Ht). destruct (push_head role blocks m2 t) as (m' & t' & E & Er).
    change (push_blocks role blocks (m :: m2 :: t)) with (m :: push_blocks role blocks (m2 :: t)). rewrite E in *. split; [by rewrite Er|done].
Qed.

Lemma push_turns role blocks out : role ∈ ["user"; "assistant"]%string -> blocks <> [] ->
  Forall turn_ok out -> Forall turn_ok (push_blocks role blocks out).
Proof.
  intros Hr Hb. induction out as [|m [|m2 t] IH]; intros H.
  - constructor; [done|constructor].
  - apply Forall_cons in H as [[H1 H2] _]. cbn. destruct (a_Role m =? role)%string.
    + constructor; [|constructor]. split; cbn; [done|by destruct (a_Content m)].
    + constructor; [done|constructor; [done|constructor]].
  - apply Forall_cons in H as [H1 H2].
    change (push_blocks role blocks (m :: m2 :: t)) with (m :: push_blocks role blocks (m2 :: t)). constructor; auto.
Qed.

(** The blocks of a conversation with their roles, whatever the grouping. *)
Definition flatten (ms : list anthropicMessage) : list (string * anthropicBlock) :=
  flat_map (fun m => map (pair (a_Role m)) (a_Content m)) ms.

Lemma push_flatten role blocks out : flatten (push_blocks role blocks out) = flatten out ++ map (pair role) blocks.
Proof.
  unfold flatten. induction out as [|m [|m2 t] IH]; [cbn; by rewrite app_nil_r| |].
  - cbn. destruct (a_Role m =? role)%string eqn:E; cbn; rewrite ?app_nil_r; [|done].
    apply String.eqb_eq in E. by rewrite E, map_app.
  - change (push_blocks role blocks (m :: m2 :: t)) with (m :: push_blocks role blocks (m2 :: t)).
    cbn [flat_map]. cbn [flat_map] in IH. rewrite IH. by rewrite <- !app_assoc.
Qed.

Definition is_system (m : chatMessage) : bool := (Role m =? "system")%string.
Definition system_texts (ms : list chatMessage) : list string :=
  List.filter (fun t => negb (trim_space t =? "")%string) (map (fun m => textParts (Content m)) (List.filter is_system ms)).
Definition turn_blocks (m : chatMessage) : list (string * anthropicBlock) :=
  let (role, blocks) := message_blocks unmarshal_any m in map (pair role) blocks.

Lemma split_fold ms sys out : foldl (split_step unmarshal_any) (sys, out) ms =
  (sys ++ system_texts ms, (foldl (split_step unmarshal_any) (sys, out) ms).2).
Proof.
  revert sys out. induction ms as [|m ms IH]; intros sys out; cbn [foldl]; [by rewrite app_nil_r|].
  unfold split_step at 2 4. unfold system_texts. cbn [List.filter]. unfold is_system at 1.
  destruct (Role m =? "system")%string.
  - rewrite IH. cbn [map List.filter]. destruct (trim_space _ =? "")%string; cbn [negb snd]; [done|]. by rewrite <- app_assoc.
  - destruct (message_blocks unmarshal_any m) as [role blocks]. rewrite IH. done.
Qed.

Lemma split_out ms sys out :
  let r := (foldl (split_step unmarshal_any) (sys, out) ms).2 in
  flatten r = flatten out ++ flat_map turn_blocks (List.filter (fun m => negb (is_system m)) ms) /\
  (alternating out -> alternating r) /\ (Forall known_role ms -> Forall turn_ok out -> Forall turn_ok r).
Proof.
  revert sys out. induction ms as [|m ms IH]; intros sys out; cbn [foldl List.filter]; [cbn; rewrite app_nil_r; auto|].
  unfold is_system at 1. destruct (split_step unmarshal_any (sys, out) m) as [sys' out'] eqn:E. unfold split_step in E.
  destruct (Role m =? "system")%string eqn:Es; cbn [negb].
  - injection E as <- <-. destruct (IH (if (trim_space (textParts (Content m)) =? "")%string then sys else sys ++ [textParts (Content m)]) out) as (H1 & H2 & H3).
    split_and!; [done|done|]. intros [_ Hk]%Forall_cons. auto.
  - destruct (message_blocks unmarshal_any m) as [role blocks] eqn:Em. injection E as <- <-.
    destruct (IH sys (match blocks with [] => out | _ => push_blocks role blocks out end)) as (H1 & H2 & H3). cbn [flat_map].
    unfold turn_blocks at 1. rewrite Em. cbn zeta. split_and!.
    + rewrite H1. destruct blocks as [|b bs]; [done|]. by rewrite push_flatten, <- app_assoc.
    + intros Ha. apply H2. destruct blocks; [done|]. by apply push_alternating.
    + intros [Hm Hk]%Forall_cons Ho. apply H3; [done|]. go_bool. pose proof (message_blocks_role m Hm Es) as Hr.
      rewrite Em in Hr. destruct blocks; [done|]. by apply push_turns.
Qed.
End Facts.

(** ** Markers *)

Definition marks (bs : list anthropicBlock) : nat := length (List.filter b_CacheControl bs).
Definition message_marks (ms : list anthropicMessage) : nat := list_sum (map (fun m => marks (a_Content m)) ms).
Definition system_blocks (s : system_field) : list anthropicBlock := match s with SystemBlocks l => l | _ => [] end.
Definition tool_marks (ts : list anthropicTool) : nat := length (List.filter t_CacheControl ts).
Definition markers (r : anthropicRequest) : nat :=
  (tool_marks (r_Tools r) + marks (system_blocks (r_System r)) + message_marks (r_Messages r))%nat.

(** A block without its marker. *)
Definition plain (b : anthropicBlock) : anthropicBlock := b <| b_CacheControl := false |>.
Definition plain_message (m : anthropicMessage) : anthropicMessage := m <| a_Content ::= map plain |>.

Lemma marks_app l1 l2 : marks (l1 ++ l2) = (marks l1 + marks l2)%nat.
Proof. unfold marks. by rewrite List.filter_app, length_app. Qed.

Lemma marks_rev l : marks (rev l) = marks l.
Proof. induction l as [|b l IH]; [done|]. cbn [rev]. rewrite marks_app, IH. unfold marks. cbn. destruct (b_CacheControl b); cbn; lia. Qed.

Lemma marks_none l : Forall (fun b => b_CacheControl b = false) l -> marks l = 0%nat.
Proof. induction 1 as [|b l Hb _ IH]; [done|]. unfold marks. cbn. by rewrite Hb. Qed.

Lemma mark_first_marks l : Forall (fun b => b_CacheControl b = false) l ->
  marks (mark_first l) = if existsb cacheable l then 1%nat else 0%nat.
Proof.
  induction 1 as [|b l Hb Hl IH]; [done|]. cbn [mark_first existsb]. destruct (cacheable b); cbn [orb].
  - unfold marks. cbn. f_equal. apply (marks_none l Hl).
  - unfold marks in *. cbn. by rewrite Hb.
Qed.

Lemma mark_first_plain l : map plain (mark_first l) = map plain l.
Proof. induction l as [|b l IH]; [done|]. cbn [mark_first]. destruct (cacheable b); cbn; [by destruct b|]. by rewrite IH. Qed.

Lemma mark_last_plain m : plain_message (markLastCacheableBlock m) = plain_message m.
Proof. unfold plain_message, markLastCacheableBlock. destruct m as [r c]. cbn. by rewrite map_rev, mark_first_plain, map_rev, rev_involutive. Qed.

Lemma on_last_snoc {A} (f : A -> A) l x : on_last f (l ++ [x]) = l ++ [f x].
Proof. induction l as [|y [|z l] IH]; [done|done|]. cbn [app on_last] in *. by rewrite <- IH. Qed.

Lemma on_last_map {A B} (g : A -> B) (f : A -> A) l : (forall x, g (f x) = g x) -> map g (on_last f l) = map g l.
Proof. intros H. induction l as [|x [|y l] IH]; [done|cbn; by rewrite H|]. cbn [on_last map] in *. by rewrite IH. Qed.

Lemma message_marks_none ms : Forall (fun m => Forall (fun b => b_CacheControl b = false) (a_Content m)) ms -> message_marks ms = 0%nat.
Proof. induction 1 as [|m ms Hm _ IH]; [done|]. unfold message_marks in *. cbn. by rewrite marks_none. Qed.

Lemma existsb_rev {A} (f : A -> bool) l : existsb f (rev l) = existsb f l.
Proof. induction l as [|x l IH]; [done|]. cbn. rewrite existsb_app, IH. cbn. destruct (f x), (existsb f l); done. Qed.

Lemma message_marks_last ms m : Forall (fun m => Forall (fun b => b_CacheControl b = false) (a_Content m)) (ms ++ [m]) ->
  message_marks (on_last markLastCacheableBlock (ms ++ [m])) = if existsb cacheable (a_Content m) then 1%nat else 0%nat.
Proof.
  intros [H1 H2]%Forall_app. apply Forall_cons in H2 as [H2 _]. rewrite on_last_snoc. unfold message_marks.
  rewrite map_app, list_sum_app. fold (message_marks ms). rewrite message_marks_none by done. cbn [map list_sum foldr].
  change (a_Content (markLastCacheableBlock m)) with (rev (mark_first (rev (a_Content m)))).
  rewrite marks_rev, mark_first_marks by (by apply Forall_rev). rewrite existsb_rev. lia.
Qed.

Lemma tool_marks_last ts t : Forall (fun t => t_CacheControl t = false) (ts ++ [t]) ->
  tool_marks (on_last (fun t => t <| t_CacheControl := true |>) (ts ++ [t])) = 1%nat.
Proof.
  intros [H1 _]%Forall_app. rewrite on_last_snoc. unfold tool_marks. rewrite List.filter_app, length_app. cbn.
  induction H1 as [|x l Hx _ IH]; [done|]. cbn. by rewrite Hx.
Qed.

Lemma tool_marks_none ts : Forall (fun t => t_CacheControl t = false) ts -> tool_marks ts = 0%nat.
Proof. induction 1 as [|x l Hx _ IH]; [done|]. unfold tool_marks. cbn. by rewrite Hx. Qed.

Lemma snoc_cases {A} (l : list A) : l = [] \/ exists l' x, l = l' ++ [x].
Proof. destruct l as [|x l] using rev_ind; eauto. Qed.

(** Whether the request asks for breakpoints, and what the breakpoints leave
    alone. *)
Definition wanted (mode : cacheBreakpointMode) (hasBlock : bool) : bool :=
  match mode with breakpointsAlways => true | breakpointsL2Only => hasBlock | breakpointsOff => false end.

Definition static_head (system : string) (want : bool) : list anthropicBlock :=
  if (system =? "")%string then [] else [text_block system <| b_CacheControl := want |>].

Lemma apply_fields out system text hasBlock mode :
  let r := applyCacheBreakpoints out system text hasBlock mode in
  let want := wanted mode hasBlock in
  r_Tools r = (if (system =? "")%string && want && (0 <? length (r_Tools out))%nat
               then on_last (fun t => t <| t_CacheControl := true |>) (r_Tools out) else r_Tools out) /\
  r_Messages r = (if want && (0 <? length (r_Messages out))%nat then on_last markLastCacheableBlock (r_Messages out) else r_Messages out) /\
  r_System r = (match static_head system want ++ (if hasBlock then [text_block text] else []) with
                | [] => NoSystem
                | [b] => if b_CacheControl b then SystemBlocks [b] else SystemText (b_Text b)
                | l => SystemBlocks l
                end) /\
  r_Model r = r_Model out /\ r_MaxTokens r = r_MaxTokens out /\ r_Stream r = r_Stream out /\ r_Temperature r = r_Temperature out /\
  r_TopP r = r_TopP out /\ r_StopSequences r = r_StopSequences out /\ r_ToolChoice r = r_ToolChoice out /\ r_Thinking r = r_Thinking out.
Proof.
  unfold applyCacheBreakpoints, static_head. fold (wanted mode hasBlock). generalize (wanted mode hasBlock). intros want. cbn zeta.
  destruct out as [mo mt ms sy st te tp ss to tc th]. cbn.
  destruct (system =? "")%string, want, hasBlock; cbn; destruct (length to); cbn; destruct (length ms); cbn; split_and!; reflexivity.
Qed.

Lemma system_marks (system text : string) (want hasBlock : bool) :
  marks (system_blocks (match static_head system want ++ (if hasBlock then [text_block text] else []) with
    | [] => NoSystem | [b] => if b_CacheControl b then SystemBlocks [b] else SystemText (b_Text b) | l => SystemBlocks l end)) =
  if negb (system =? "")%string && want then 1%nat else 0%nat.
Proof. unfold static_head. destruct (system =? "")%string, want, hasBlock; reflexivity. Qed.

(** ** What a translated request says *)

Section Translated.
Context (unmarshal_any : string -> option json).

Lemma splitSystem_spec ms :
  (splitSystem unmarshal_any ms).1 = join blank_line (system_texts ms) /\
  flatten (splitSystem unmarshal_any ms).2 = flat_map (turn_blocks unmarshal_any) (List.filter (fun m => negb (is_system m)) ms) /\
  alternating (splitSystem unmarshal_any ms).2 /\
  (Forall known_role ms -> Forall turn_ok (splitSystem unmarshal_any ms).2).
Proof.
  unfold splitSystem. rewrite split_fold. cbn [fst snd]. destruct (split_out unmarshal_any ms [] []) as (H1 & H2 & H3).
  split_and!; [done|done|by apply H2|]. intros Hk. apply H3; [done|constructor].
Qed.

Lemma flatten_Forall (P : anthropicBlock -> Prop) ms :
  Forall (fun p => P p.2) (flatten ms) <-> Forall (fun m => Forall P (a_Content m)) ms.
Proof.
  unfold flatten. induction ms as [|m ms IH]; [split; constructor|]. cbn [flat_map]. rewrite Forall_app, Forall_cons, IH.
  assert (E : Forall (fun p => P p.2) (map (pair (a_Role m)) (a_Content m)) <-> Forall P (a_Content m)) by apply Forall_map. by rewrite E.
Qed.

Lemma split_unmarked ms : Forall (fun m => Forall (fun b => b_CacheControl b = false) (a_Content m)) (splitSystem unmarshal_any ms).2.
Proof.
  apply flatten_Forall. destruct (splitSystem_spec ms) as (_ & -> & _). apply Forall_flat_map, Forall_true. intros m. unfold turn_blocks.
  pose proof (message_blocks_unmarked unmarshal_any m). destruct (message_blocks unmarshal_any m) as [role blocks]. by apply Forall_map.
Qed.

Lemma split_shapes ms : Forall known_role ms -> Forall (client_ok unmarshal_any) ms ->
  Forall (fun m => Forall shape (a_Content m)) (splitSystem unmarshal_any ms).2.
Proof.
  intros Hk Hc. apply flatten_Forall. destruct (splitSystem_spec ms) as (_ & -> & _). apply Forall_flat_map.
  rewrite Forall_forall in Hk, Hc |- *. intros m [Hm Hs]%list_elem_of_In%filter_In. apply list_elem_of_In in Hm. unfold is_system in Hs.
  apply negb_true_iff, String.eqb_neq in Hs. pose proof (message_blocks_shape unmarshal_any m (Hk m Hm) Hs (Hc m Hm)) as H. unfold turn_blocks.
  destruct (message_blocks unmarshal_any m) as [role blocks]. by apply Forall_map.
Qed.

Lemma plain_id b : b_CacheControl b = false -> plain b = b.
Proof. destruct b. cbn. by intros ->. Qed.

Lemma plain_messages_id ms : Forall (fun m => Forall (fun b => b_CacheControl b = false) (a_Content m)) ms -> map plain_message ms = ms.
Proof.
  induction 1 as [|m ms Hm _ IH]; [done|]. cbn [map]. rewrite IH. f_equal. unfold plain_message. destruct m as [role c]. cbn in *.
  f_equal. induction Hm as [|b c Hb _ IHc]; [done|]. cbn [map]. by rewrite IHc, plain_id.
Qed.

Context (o : openAIChatBody) (up : UpstreamConfig) (inj : option Injection).
Definition has_block : bool := match inj with Some i => (0 <? length (i_Slices i))%nat | None => false end.
Definition inj_text : string := match inj with Some i => i_Text i | None => ""%string end.
Definition want : bool := wanted (cacheBreakpointMode_of up) has_block.
Definition split : string * list anthropicMessage := splitSystem unmarshal_any (Messages (ob_Request o)).
Definition out : anthropicRequest := translate unmarshal_any o up inj.

Lemma out_fields :
  r_Tools out = (if (split.1 =? "")%string && want && (0 <? length (mapTools (ob_Tools o)))%nat
                 then on_last (fun t => t <| t_CacheControl := true |>) (mapTools (ob_Tools o)) else mapTools (ob_Tools o)) /\
  r_Messages out = (if want && (0 <? length split.2)%nat then on_last markLastCacheableBlock split.2 else split.2) /\
  r_System out = (match static_head split.1 want ++ (if has_block then [text_block inj_text] else []) with
                  | [] => NoSystem
                  | [b] => if b_CacheControl b then SystemBlocks [b] else SystemText (b_Text b)
                  | l => SystemBlocks l
                  end) /\
  r_MaxTokens out = (if 0 <? ob_MaxTokens o then ob_MaxTokens o else if 0 <? ob_MaxCompletionTok o then ob_MaxCompletionTok o else defaultAnthropicMaxTokens) /\
  r_Temperature out = Temperature (ob_Request o) /\
  r_TopP out = (match Temperature (ob_Request o) with None => ob_TopP o | Some _ => None end).
Proof.
  unfold out, translate, split. destruct (splitSystem unmarshal_any (Messages (ob_Request o))) as [system msgs]. cbn [fst snd].
  match goal with |- context [applyCacheBreakpoints ?b ?s ?t ?h ?m] => pose proof (apply_fields b s t h m) as (H1 & H2 & H3 & _ & H4 & _ & H5 & H6 & _) end.
  split_and!; [exact H1|exact H2|exact H3|exact H4|exact H5|exact H6].
Qed.

Lemma out_plain : map plain_message (r_Messages out) = split.2.
Proof.
  destruct out_fields as (_ & -> & _). destruct (want && _); [rewrite (on_last_map _ _ _ mark_last_plain)|]; apply plain_messages_id, split_unmarked.
Qed.

Lemma out_message_marks :
  message_marks (r_Messages out) = (if want && existsb cacheable (match last split.2 with Some m => a_Content m | None => [] end) then 1%nat else 0%nat).
Proof.
  destruct out_fields as (_ & -> & _). pose proof (split_unmarked (Messages (ob_Request o))) as Hu. fold split in Hu.
  destruct want; cbn [andb]; [|by apply message_marks_none]. destruct (snoc_cases split.2) as [E|(l & m & E)]; rewrite E in *.
  - done.
  - rewrite last_snoc. replace (0 <? length (l ++ [m]))%nat with true by (symmetry; apply Nat.ltb_lt; rewrite length_app; cbn; lia).
    by apply message_marks_last.
Qed.

Lemma out_static_marks :
  (tool_marks (r_Tools out) + marks (system_blocks (r_System out)))%nat =
  if want && (negb (split.1 =? "")%string || (0 <? length (ob_Tools o))%nat) then 1%nat else 0%nat.
Proof.
  destruct out_fields as (-> & _ & -> & _). rewrite system_marks.
  assert (Hu : Forall (fun t => t_CacheControl t = false) (mapTools (ob_Tools o))) by (apply Forall_map, Forall_true; done).
  assert (Hl : length (mapTools (ob_Tools o)) = length (ob_Tools o)) by apply length_map. rewrite Hl.
  destruct (split.1 =? "")%string, want; cbn [andb orb negb]; rewrite ?(tool_marks_none _ Hu); try done; try lia.
  destruct (snoc_cases (mapTools (ob_Tools o))) as [E|(l & t & E)]; rewrite E in *; [by rewrite <- Hl|].
  replace (0 <? length (ob_Tools o))%nat with true by (symmetry; apply Nat.ltb_lt; rewrite <- Hl, length_app; cbn; lia).
  by rewrite tool_marks_last.
Qed.

Lemma mark_first_cacheable l b : Forall (fun b => b_CacheControl b = false) l -> b ∈ mark_first l -> b_CacheControl b = true -> cacheable b = true.
Proof.
  induction 1 as [|x l Hx Hl IH]; [by intros ?%not_elem_of_nil|]. cbn [mark_first]. destruct (cacheable x) eqn:E.
  - intros [->|Hb]%elem_of_cons Hc; [exact E|]. rewrite Forall_forall in Hl. by rewrite Hl in Hc.
  - intros [->|Hb]%elem_of_cons Hc; [by rewrite Hx in Hc|auto].
Qed.

Lemma marked_cacheable m b : m ∈ r_Messages out -> b ∈ a_Content m -> b_CacheControl b = true -> cacheable b = true.
Proof.
  destruct out_fields as (_ & -> & _). pose proof (split_unmarked (Messages (ob_Request o))) as Hu. fold split in Hu.
  rewrite Forall_forall in Hu. assert (Hp : forall m, m ∈ split.2 -> b ∈ a_Content m -> b_CacheControl b = true -> cacheable b = true).
  { intros x Hx Hb Hc. specialize (Hu x Hx). rewrite Forall_forall in Hu. by rewrite Hu in Hc. }
  destruct (want && _); [|apply Hp]. destruct (snoc_cases split.2) as [E|(l & x & E)]; rewrite E in *; [by intros ?%not_elem_of_nil|].
  rewrite on_last_snoc, elem_of_app, list_elem_of_singleton. intros [Hm| ->]; [apply Hp; set_solver|].
  change (a_Content (markLastCacheableBlock x)) with (rev (mark_first (rev (a_Content x)))).
  rewrite list_elem_of_In, <- in_rev, <- list_elem_of_In. apply mark_first_cacheable. apply Forall_rev, Hu. set_solver.
Qed.
End Translated.

(** ** What a conversation says, read on both sides *)

(** What is said in a block or a part, whatever its wire form. *)
Inductive said :=
| Said (s : string)
| Linked (url : string)
| Embedded (mediaType data : string)
| Called (id name : string) (input : json)
| Answered (id out : string)
| Thought (s : string).

(** The client's side.  A part of a content list: a text that is not empty, a picture at a
    URL, or one inside a base64 data URL, whose media type ends at the first [;base64]
    before the first comma. *)
Inductive part_says : json -> said -> Prop :=
| says_text m s : m !! "type"%string = Some (JString "text") -> m !! "text"%string = Some (JString s) -> s <> ""%string ->
    part_says (JObject m) (Said s)
| says_link m u url : m !! "type"%string = Some (JString "image_url") -> m !! "image_url"%string = Some (JObject u) ->
    u !! "url"%string = Some (JString url) -> url <> ""%string -> (forall t, url <> "data:" +:+ t) ->
    part_says (JObject m) (Linked url)
| says_data m u mediaType x data : m !! "type"%string = Some (JString "image_url") -> m !! "image_url"%string = Some (JObject u) ->
    u !! "url"%string = Some (JString ("data:" +:+ (mediaType +:+ ";base64" +:+ x) +:+ "," +:+ data)) ->
    free_of "," (mediaType +:+ ";base64" +:+ x) -> contains mediaType ";base64" = false ->
    part_says (JObject m) (Embedded mediaType data).

Inductive call_says (unmarshal_any : string -> option json) : json -> said -> Prop :=
| says_call m fn input : m !! "type"%string = Some (JString "function") ->
    fn = match m !! "function"%string with Some (JObject f) => f | _ => ∅ end ->
    input = match fn !! "arguments"%string with
            | Some (JString "") => JObject ∅
            | Some (JString args) => match unmarshal_any args with Some v => v | None => JObject ∅ end
            | _ => JObject ∅
            end ->
    call_says unmarshal_any (JObject m) (Called (text_field m "id") (text_field fn "name") input).

(** One after the other; those that say nothing are skipped. *)
Inductive heard {A} (says : A -> said -> Prop) : list A -> list said -> Prop :=
| heard_nil : heard says [] []
| heard_one p x ps xs : says p x -> heard says ps xs -> heard says (p :: ps) (x :: xs)
| heard_none p ps xs : (forall x, ~ says p x) -> heard says ps xs -> heard says (p :: ps) xs.

Inductive content_says : json -> list said -> Prop :=
| content_nothing : content_says (JString "") []
| content_words s : s <> ""%string -> content_says (JString s) [Said s]
| content_parts ps xs : heard part_says ps xs -> content_says (JArray ps) xs
| content_other v : (forall s, v <> JString s) -> (forall ps, v <> JArray ps) -> content_says v [].

(** The text of a content, without its pictures. *)
Definition said_text (xs : list said) : string := concat_strings (map (fun x => match x with Said s => s | _ => ""%string end) xs).
Definition message_text (m : chatMessage) (t : string) : Prop := exists xs, content_says (Content m) xs /\ t = said_text xs.

Inductive calls_say (unmarshal_any : string -> option json) : json -> list said -> Prop :=
| calls_list tcs xs : heard (call_says unmarshal_any) tcs xs -> calls_say unmarshal_any (JArray tcs) xs
| calls_other v : (forall tcs, v <> JArray tcs) -> calls_say unmarshal_any v [].

(** A message, with the role it is given upstream: reasoning, then content, then calls. *)
Inductive message_says (unmarshal_any : string -> option json) (m : chatMessage) : list (string * said) -> Prop :=
| says_user xs : Role m = "user"%string -> content_says (Content m) xs -> message_says unmarshal_any m (map (pair "user"%string) xs)
| says_assistant thought xs ys : Role m = "assistant"%string ->
    thought = (if decide (ReasoningContent m = ""%string) then [] else [Thought (ReasoningContent m)]) ->
    content_says (Content m) xs -> calls_say unmarshal_any (ToolCalls m) ys ->
    message_says unmarshal_any m (map (pair "assistant"%string) (thought ++ xs ++ ys))
| says_tool out : Role m = "tool"%string -> message_text m out -> message_says unmarshal_any m [("user"%string, Answered (ToolCallID m) out)]
| says_unknown t : Role m ∉ ["system"; "user"; "assistant"; "tool"]%string -> message_text m t -> message_says unmarshal_any m [(Role m, Said t)].

(** The upstream's side: a block by its type. *)
Definition read_source (src : anthropicImageSource) : option said :=
  if (is_Type src =? "url")%string then Some (Linked (is_URL src))
  else if (is_Type src =? "base64")%string then Some (Embedded (is_MediaType src) (is_Data src)) else None.
Definition read_block (b : anthropicBlock) : option said :=
  if (b_Type b =? "text")%string then Some (Said (b_Text b))
  else if (b_Type b =? "thinking")%string then Some (Thought (b_Thinking b))
  else if (b_Type b =? "image")%string then src ← b_Source b; read_source src
  else if (b_Type b =? "tool_use")%string then Some (Called (b_ID b) (b_Name b) (b_Input b))
  else if (b_Type b =? "tool_result")%string then
    match b_Content b with JString s => Some (Answered (b_ToolUseID b) s) | JNull => Some (Answered (b_ToolUseID b) "") | _ => None end
  else None.
Definition read_all (l : list (string * anthropicBlock)) : list (string * option said) := map (fun p => (p.1, read_block p.2)) l.

Lemma field_text m k s : field m k = JString s <-> m !! k = Some (JString s).
Proof. unfold field. destruct (m !! k); cbn; split; congruence. Qed.
Lemma field_object m k u : field m k = JObject u <-> m !! k = Some (JObject u).
Proof. unfold field. destruct (m !! k); cbn; split; congruence. Qed.
Lemma text_field_some (m : gmap string json) k : text_field m k <> ""%string -> m !! k = Some (JString (text_field m k)).
Proof. unfold text_field, field. destruct (m !! k) as [[]|]; cbn; done. Qed.
Lemma text_field_text (m : gmap string json) k s : m !! k = Some (JString s) -> text_field m k = s.
Proof. unfold text_field, field. by intros ->. Qed.

Lemma cut_somewhere sep a b : cut sep (a +:+ sep +:+ b) <> None.
Proof.
  induction a as [|c a IH]; [by rewrite str_nil_l, cut_here|]. rewrite str_cons. cbn [cut].
  destruct (has_prefix _ sep); [done|]. by destruct (cut sep (a +:+ sep +:+ b)) as [[]|].
Qed.

Lemma imageSource_says m u : m !! "type"%string = Some (JString "image_url") -> m !! "image_url"%string = Some (JObject u) ->
  match imageSource (JObject u) with
  | Some src => exists x, read_source src = Some x /\ part_says (JObject m) x
  | None => forall x, ~ part_says (JObject m) x
  end.
Proof.
  intros Ht Hi. unfold imageSource. cbn [as_map mbind option_bind]. destruct (text_field u "url" =? "")%string eqn:E.
  { apply String.eqb_eq in E. intros x Hx. inversion Hx as [? s H1|? u' url H1 H2 H3 H4|? u' mt y d H1 H2 H3]; subst; simplify_eq;
      apply text_field_text in H3; rewrite H3 in E; done. }
  apply String.eqb_neq in E. pose proof (text_field_some u "url" E) as Hu. destruct (has_prefix _ _) eqn:Ep.
  - apply prefix_app_inv in Ep as [rest Hr]. rewrite Hr, trim_prefix_app in *.
    assert (Hnone : (forall mt x d, rest = (mt +:+ ";base64" +:+ x) +:+ "," +:+ d -> free_of "," (mt +:+ ";base64" +:+ x) -> False) -> forall x, ~ part_says (JObject m) x).
    { intros Hn x Hx. inversion Hx as [? s H1|? u' url H1 H2 H3 H4 H5|? u' mt y d H1 H2 H3 H4 H5]; subst; simplify_eq; [by apply (H5 rest)|].
      apply (Hn mt y d); [|done]. by apply (inj (String.append "data:")). }
    destruct (cut "," rest) as [[meta data]|] eqn:E1; cbn.
    + destruct (cut ";base64" meta) as [[mt x]|] eqn:E2; cbn.
      * exists (Embedded mt data). split; [done|]. pose proof (cut_first "," _ _ _ eq_refl E1) as F1. pose proof (cut_first ";base64" _ _ _ eq_refl E2) as F2.
        apply cut_sound in E1 as ->. apply cut_sound in E2 as ->. eapply says_data; [done|done|done|done|]. unfold contains. by rewrite F2.
      * apply Hnone. intros mt x d -> Hf. change ("," +:+ d)%string with (String "," d) in E1. rewrite (cut_free _ _ _ Hf) in E1. injection E1 as <- <-. by apply cut_somewhere in E2.
    + apply Hnone. intros mt x d -> Hf. by apply cut_somewhere in E1.
  - exists (Linked (text_field u "url")). split; [done|]. eapply says_link; [done|done|done|done|]. intros t Hd. rewrite Hd in Ep.
    unfold has_prefix in Ep. by rewrite (proj2 (prefix_app_inv "data:" _)) in Ep; [|exists t].
Qed.

Lemma part_reads part :
  match user_part part with
  | [] => forall x, ~ part_says part x
  | b :: l => l = [] /\ exists x, read_block b = Some x /\ part_says part x
  end.
Proof.
  destruct part as [| | | | |m]; try (cbn; intros x Hx; by inversion Hx). cbn [user_part].
  destruct (is_text (field m "type") "text") eqn:E1; [apply is_text_spec, field_text in E1|].
  { destruct (text_field m "text" =? "")%string eqn:E; go_bool.
    - intros x Hx. inversion Hx as [? s H1 H2|? u url H1|? u mt y d H1]; subst; simplify_eq. apply text_field_text in H2. congruence.
    - split; [done|]. exists (Said (text_field m "text")). split; [done|]. constructor; [done|by apply text_field_some|done]. }
  assert (Ht : m !! "type"%string <> Some (JString "text")) by (intros H%field_text; by rewrite H in E1).
  destruct (is_text (field m "type") "image_url") eqn:E2.
  - apply is_text_spec, field_text in E2. destruct (field m "image_url") as [| | | | |u] eqn:Ei;
      try (cbn; intros x Hx; inversion Hx as [? s0 H1|? u url H1 H2|? u mt y d H1 H2]; subst; simplify_eq; apply field_object in H2; congruence).
    apply field_object in Ei. pose proof (imageSource_says m u E2 Ei) as H. destruct (imageSource (JObject u)) as [src|]; [|done].
    destruct H as (x & Hr & Hx). split; [done|]. exists x. by split.
  - intros x Hx. inversion Hx as [? s H1|? u url H1 H2|? u mt y d H1 H2]; subst; [done| |]; apply field_text in H1; by rewrite H1 in E2.
Qed.

(** Parts, or calls, one after the other. *)
Lemma heard_map {A} (says : A -> said -> Prop) (f : A -> list anthropicBlock) l :
  (forall p, match f p with [] => forall x, ~ says p x | b :: t => t = [] /\ exists x, read_block b = Some x /\ says p x end) ->
  exists xs, heard says l xs /\ map read_block (flat_map f l) = map Some xs.
Proof.
  intros Hf. induction l as [|p l (xs & H1 & H2)]; [exists []; split; [constructor|done]|]. specialize (Hf p). cbn [flat_map].
  destruct (f p) as [|b t]; [exists xs; split; [by apply heard_none|exact H2]|]. destruct Hf as (-> & x & Hr & Hx).
  exists (x :: xs). split; [by apply heard_one|]. cbn [app map]. by rewrite Hr, H2.
Qed.

Lemma content_reads c : exists xs, content_says c xs /\ map read_block (userBlocks c) = map Some xs.
Proof.
  destruct c as [| | |s|l|]; try (exists []; split; [by apply content_other|done]).
  - cbn. destruct (s =? "")%string eqn:E; go_bool; [subst; exists []; split; [constructor|done]|]. exists [Said s]. split; [by constructor|done].
  - destruct (heard_map part_says user_part l part_reads) as (xs & H1 & H2). exists xs. split; [by constructor|exact H2].
Qed.

Lemma call_reads unmarshal_any tc :
  match tool_use unmarshal_any tc with
  | [] => forall x, ~ call_says unmarshal_any tc x
  | b :: l => l = [] /\ exists x, read_block b = Some x /\ call_says unmarshal_any tc x
  end.
Proof.
  destruct tc as [| | | | |m]; try (cbn; intros x Hx; by inversion Hx). cbn [tool_use].
  destruct (is_text (field m "type") "function") eqn:E; [apply is_text_spec, field_text in E|].
  - split; [done|]. eexists. split; [reflexivity|]. cbn [b_ID b_Name b_Input zero_block].
    assert (Hf : default ∅ (as_map (field m "function")) = match m !! "function"%string with Some (JObject f) => f | _ => ∅ end)
      by (unfold field; by destruct (m !! "function"%string) as [[]|]).
    eapply says_call; [done|exact Hf|]. unfold text_field, field.
    destruct (default ∅ _ !! "arguments"%string) as [[| | |[|c a]| |]|]; done.
  - intros x Hx. inversion Hx as [? fn input H1]; subst. apply field_text in H1. by rewrite H1 in E.
Qed.

(** The text of the parts is what is said in words. *)
Lemma part_text part x : part_says part x -> text_part part = match x with Said s => s | _ => ""%string end.
Proof.
  destruct 1 as [m s H1 H2|m u url H1|m u mt y d H1]; apply field_text in H1; unfold text_part; rewrite H1; cbn; [by apply text_field_text|done|done].
Qed.
Lemma part_mute part : (forall x, ~ part_says part x) -> text_part part = ""%string.
Proof.
  intros Hn. destruct part as [| | | | |m]; try done. cbn. destruct (is_text _ _) eqn:E; [|done]. apply is_text_spec, field_text in E.
  destruct (decide (text_field m "text" = ""%string)) as [->|Ht]; [done|]. exfalso. apply (Hn (Said (text_field m "text"))).
  constructor; [done|by apply text_field_some|done].
Qed.
Lemma content_text c xs : content_says c xs -> textParts c = said_text xs.
Proof.
  destruct 1 as [|s Hs|ps xs Hp|v H1 H2]; [done|unfold said_text; cbn; by rewrite string_app_nil| |destruct v; naive_solver].
  unfold said_text. cbn [textParts]. induction Hp as [|p x ps xs Hx _ IH|p ps xs Hn _ IH]; [done| |]; cbn [map].
  - rewrite (part_text p x) by done. cbn [concat_strings foldr]. by f_equal.
  - rewrite (part_mute p Hn). exact IH.
Qed.
Lemma message_reads_text m : message_text m (textParts (Content m)).
Proof. destruct (content_reads (Content m)) as (xs & H & _). exists xs. split; [done|by apply content_text]. Qed.

Lemma message_reads unmarshal_any m : Role m <> "system"%string ->
  exists l, message_says unmarshal_any m l /\ read_all (turn_blocks unmarshal_any m) = map (fun p => (p.1, Some p.2)) l.
Proof.
  intros Hs. assert (Hall : forall role bs xs, map read_block bs = map Some xs ->
    read_all (map (pair role) bs) = map (fun p => (p.1, Some p.2)) (map (pair role) xs)).
  { intros role bs xs E. unfold read_all. rewrite !map_map. cbn [fst snd]. rewrite <- (map_map read_block (pair role)), E. by rewrite map_map. }
  unfold turn_blocks, message_blocks. destruct (content_reads (Content m)) as (xs & Hc & Hr).
  destruct (Role m =? "user")%string eqn:E1; go_bool; [exists (map (pair "user"%string) xs); split; [by constructor|by apply Hall]|].
  destruct (Role m =? "assistant")%string eqn:E2; go_bool.
  { assert (Ht : exists ys, calls_say unmarshal_any (ToolCalls m) ys /\
      map read_block (match ToolCalls m with JArray tcs => flat_map (tool_use unmarshal_any) tcs | _ => [] end) = map Some ys).
    { destruct (ToolCalls m) as [| | | |tcs|]; try (exists []; split; [by constructor|done]).
      destruct (heard_map (call_says unmarshal_any) (tool_use unmarshal_any) tcs (call_reads unmarshal_any)) as (ys & H1 & H2). exists ys. split; [by constructor|exact H2]. }
    destruct Ht as (ys & Ht & Hy). eexists. split; [by eapply says_assistant|]. unfold assistantBlocks.
    assert (Hb : map read_block (userBlocks (Content m) ++ match ToolCalls m with JArray tcs => flat_map (tool_use unmarshal_any) tcs | _ => [] end) = map Some (xs ++ ys))
      by (rewrite !map_app; by f_equal).
    destruct (decide (ReasoningContent m = ""%string)) as [E|E].
    - rewrite E. cbn [String.eqb app]. by apply Hall.
    - apply String.eqb_neq in E. rewrite E. apply (Hall _ (_ :: _) (_ :: _)). cbn [map app]. by f_equal. }
  destruct (Role m =? "tool")%string eqn:E3; go_bool.
  { eexists. split; [apply says_tool; [done|apply message_reads_text]|]. cbn. unfold tool_result, read_block. cbn. by destruct (textParts (Content m) =? "")%string eqn:E; go_bool; rewrite ?E. }
  eexists. split; [apply says_unknown; [set_solver|apply message_reads_text]|done].
Qed.

Lemma user_text_blocks c : textParts c <> ""%string -> userBlocks c <> [].
Proof.
  destruct c as [| | |s|l|]; try done; cbn [textParts userBlocks].
  - intros H%String.eqb_neq. by rewrite H.
  - intros H Hb. apply H. clear H. induction l as [|p l IH]; [done|]. cbn [flat_map] in Hb. apply app_eq_nil in Hb as [Hp Hl].
    cbn [map concat_strings foldr]. fold (concat_strings (map text_part l)). rewrite IH by done.
    destruct p as [| | | | |m]; try done. cbn [text_part user_part] in *. destruct (is_text (field m "type") "text"); [|done].
    destruct (text_field m "text" =? "")%string eqn:E; [|done]. apply String.eqb_eq in E. by rewrite E.
Qed.

Lemma turns_nonempty unmarshal_any ms q : lastUserText ms = Some q -> (splitSystem unmarshal_any ms).2 <> [].
Proof.
  intros (pre & m & post & Hr & Hu & Hq & Hne & _)%first_user_text_some Hs.
  destruct (splitSystem_spec unmarshal_any ms) as (_ & Hf & _). rewrite Hs in Hf. cbn in Hf. symmetry in Hf.
  assert (Hm : m ∈ List.filter (fun m => negb (is_system m)) ms).
  { apply list_elem_of_In, filter_In. split; [|by unfold is_system; rewrite Hu]. apply in_rev. rewrite Hr. apply in_or_app. by right; left. }
  assert (Hb : forall l : list chatMessage, m ∈ l -> flat_map (turn_blocks unmarshal_any) l = [] -> turn_blocks unmarshal_any m = []).
  { induction l as [|x l IH]; [by intros ?%not_elem_of_nil|]. cbn [flat_map]. intros [->|Hx]%elem_of_cons [H1 H2]%app_eq_nil; auto. }
  apply (Hb _ Hm) in Hf. unfold turn_blocks, message_blocks in Hf. rewrite Hu in Hf. cbn in Hf. apply map_eq_nil in Hf.
  apply user_text_blocks in Hf; [done|]. intros E. apply Hne. by rewrite <- Hq, E.
Qed.

Lemma plain_cacheable b : cacheable (plain b) = cacheable b.
Proof. by destruct b. Qed.

(** C7: A translated request is well formed for the Messages API when the client
    uses the four known roles: turns alternate between user and assistant, none is
    empty, there is a turn whenever the request has a query, the token limit is
    positive, temperature and top_p are not both set, and at most two cache markers
    are placed, none on a thinking block.  Every block has the non-empty fields of its type -
    text, an image source, a tool call's ID, name and object input, a tool result's call -
    when the client's own messages have what they are made of: IDs and names of tool
    calls, arguments that do not decode to something else than an object, and media
    type and data in base64 URLs. *)
Theorem translate_wellformed unmarshal_any o up inj :
  Forall known_role (Messages (ob_Request o)) ->
  let r := translate unmarshal_any o up inj in
  Forall turn_ok (map plain_message (r_Messages r)) /\ alternating (r_Messages r) /\
  (Forall (client_ok unmarshal_any) (Messages (ob_Request o)) ->
     Forall (fun m => Forall shape (a_Content m)) (map plain_message (r_Messages r))) /\
  (is_Some (lastUserText (Messages (ob_Request o))) -> r_Messages r <> []) /\
  0 < r_MaxTokens r /\ (r_Temperature r = None \/ r_TopP r = None) /\
  (markers r <= 2)%nat /\
  (forall m b, m ∈ r_Messages r -> b ∈ a_Content m -> b_CacheControl b = true -> b_Type b <> "thinking"%string).
Proof.
  intros Hk r. pose proof (out_plain unmarshal_any o up inj) as Hp. fold (out unmarshal_any o up inj) in r.
  destruct (splitSystem_spec unmarshal_any (Messages (ob_Request o))) as (_ & _ & Ha & Ht). fold (split unmarshal_any o) in Ha, Ht.
  assert (Hal : forall ms, alternating (map plain_message ms) <-> alternating ms).
  { induction ms as [|m [|m' ms] IH]; [done|done|]. cbn [map alternating] in *. by rewrite IH. }
  split_and!.
  - unfold r. rewrite Hp. by apply Ht.
  - apply Hal. unfold r. by rewrite Hp.
  - intros Hc. unfold r. rewrite Hp. by apply split_shapes.
  - intros [q Hq] Hr. apply (turns_nonempty unmarshal_any) in Hq. fold (split unmarshal_any o) in Hq. unfold r in Hr. rewrite Hr in Hp. by rewrite <- Hp in Hq.
  - destruct (out_fields unmarshal_any o up inj) as (_ & _ & _ & Hm & _). unfold r. rewrite Hm.
    destruct (0 <? ob_MaxTokens o) eqn:E1; [by apply Z.ltb_lt|]. by destruct (0 <? ob_MaxCompletionTok o) eqn:E2; [apply Z.ltb_lt|].
  - destruct (out_fields unmarshal_any o up inj) as (_ & _ & _ & _ & H1 & H2). unfold r. rewrite H1, H2. destruct (Temperature _); auto.
  - unfold markers, r. rewrite out_static_marks, out_message_marks. repeat destruct (_ && _); lia.
  - intros m b Hm Hb Hc Ht'. pose proof (marked_cacheable unmarshal_any o up inj m b Hm Hb Hc) as H. unfold cacheable in H. rewrite Ht' in H. done.
Qed.

(** A message that is read in some way. *)
Lemma messages_read unmarshal_any ms : Forall (fun m => Role m <> "system"%string) ms ->
  exists ls, Forall2 (message_says unmarshal_any) ms ls /\
    read_all (flat_map (turn_blocks unmarshal_any) ms) = map (fun p => (p.1, Some p.2)) (List.concat ls).
Proof.
  induction 1 as [|m ms Hm _ (ls & H1 & H2)]; [by exists []|]. destruct (message_reads unmarshal_any m Hm) as (l & Hl & Hr).
  exists (l :: ls). split; [by constructor|]. unfold read_all in *. cbn [flat_map List.concat]. by rewrite !map_app, Hr, H2.
Qed.

Lemma plain_reads b : read_block (plain b) = read_block b.
Proof. by destruct b. Qed.
Lemma read_all_plain ms : read_all (flatten (map plain_message ms)) = read_all (flatten ms).
Proof.
  unfold read_all, flatten. induction ms as [|m ms IH]; [done|]. cbn [map flat_map]. rewrite !map_app. f_equal; [|exact IH].
  destruct m as [role c]. cbn. rewrite !map_map. apply map_ext. intros b. cbn. by rewrite plain_reads.
Qed.

Definition not_blank (t : string) : bool := negb (trim_space t =? "")%string.

(** C8: Translation keeps the conversation.  Read block by block, whatever the cache markers
    and the grouping into turns, the upstream is told what each message of the client
    says, in order and under its role: its texts, pictures, tool calls, tool output
    and reasoning, nothing else and nothing less; of tool output, system messages and
    messages of an unknown role it is told the text.  The system field is the
    non-blank system texts in order, joined by a blank line, then the injected block.
    What a message says is read off the client's JSON, not off the adapter's
    own conversion ([message_says]). *)
Theorem translate_faithful unmarshal_any o up inj :
  let r := translate unmarshal_any o up inj in
  let system := List.filter is_system (Messages (ob_Request o)) in
  let others := List.filter (fun m => negb (is_system m)) (Messages (ob_Request o)) in
  exists says texts,
  Forall2 (message_says unmarshal_any) others says /\ Forall2 message_text system texts /\
  read_all (flatten (r_Messages r)) = map (fun p => (p.1, Some p.2)) (List.concat says) /\
  (match r_System r with
   | NoSystem => []
   | SystemText s => [s]
   | SystemBlocks l => map b_Text l
   end) =
    (match List.filter not_blank texts with [] => [] | ts => [join blank_line ts] end) ++
    (match inj with Some i => if decide (i_Slices i = []) then [] else [i_Text i] | None => [] end).
Proof.
  cbn zeta. fold (out unmarshal_any o up inj). pose proof (out_plain unmarshal_any o up inj) as Hp.
  destruct (splitSystem_spec unmarshal_any (Messages (ob_Request o))) as (Hs & Hf & _). fold (split unmarshal_any o) in Hs, Hf.
  destruct (messages_read unmarshal_any (List.filter (fun m => negb (is_system m)) (Messages (ob_Request o)))) as (ls & H1 & H2).
  { apply Forall_forall. intros m [_ Hm]%list_elem_of_In%filter_In. unfold is_system in Hm. by apply negb_true_iff, String.eqb_neq in Hm. }
  exists ls, (map (fun m => textParts (Content m)) (List.filter is_system (Messages (ob_Request o)))). split_and!; [done| | |].
  - induction (List.filter is_system _) as [|m ms IH]; [constructor|]. constructor; [apply message_reads_text|exact IH].
  - by rewrite <- read_all_plain, Hp, Hf.
  - destruct (out_fields unmarshal_any o up inj) as (_ & _ & -> & _). rewrite Hs. unfold system_texts. fold not_blank.
    set (ts := List.filter _ _). assert (Ht : (join blank_line ts =? "")%string = match ts with [] => true | _ => false end).
    { destruct ts as [|t ts'] eqn:E; [done|]. assert (Hin : In t ts) by (rewrite E; by left). apply filter_In in Hin as [_ Hb].
      apply String.eqb_neq. destruct t as [|c t]; [done|]. by destruct ts'. }
    generalize (want up inj). intros w. unfold static_head. rewrite Ht. unfold has_block, inj_text.
    destruct ts as [|t ts'], inj as [[[|sl sls] it ? ? ? ? ?]|], w; reflexivity.
Qed.

(** Cache breakpoints are placed where the policy says: with breakpoints wanted,
    one on the static prefix - the system text, or the last tool when there is none
    - and one on the last turn if it has a block that takes one; otherwise none; and
    what is cached before the injected block does not depend on the injection. *)
Theorem breakpoints_placed unmarshal_any o up inj :
  let r := translate unmarshal_any o up inj in
  let w := want up inj in
  let system := join blank_line (system_texts (Messages (ob_Request o))) in
  (tool_marks (r_Tools r) + marks (system_blocks (r_System r)))%nat =
    (if w && (negb (system =? "")%string || (0 <? length (ob_Tools o))%nat) then 1%nat else 0%nat) /\
  message_marks (r_Messages r) =
    (if w && existsb cacheable (match last (r_Messages r) with Some m => a_Content m | None => [] end) then 1%nat else 0%nat) /\
  (forall inj', want up inj' = w -> let r' := translate unmarshal_any o up inj' in
     r_Tools r' = r_Tools r /\ r_Messages r' = r_Messages r /\
     List.filter b_CacheControl (system_blocks (r_System r')) = List.filter b_CacheControl (system_blocks (r_System r))).
Proof.
  intros r w system. destruct (splitSystem_spec unmarshal_any (Messages (ob_Request o))) as (Hs & _). fold (split unmarshal_any o) in Hs.
  fold (out unmarshal_any o up inj) in r. split_and!.
  - unfold system. rewrite <- Hs. apply out_static_marks.
  - unfold r. rewrite out_message_marks. fold w. do 2 f_equal. rewrite <- (out_plain unmarshal_any o up inj).
    destruct (snoc_cases (r_Messages (out unmarshal_any o up inj))) as [->|(l & m & ->)]; [done|].
    rewrite map_app. cbn [map]. rewrite !last_snoc.
    assert (E : existsb cacheable (a_Content (plain_message m)) = existsb cacheable (a_Content m)); [|by rewrite E].
    destruct m as [role c]. cbn. induction c as [|b c IH]; [done|]. cbn [map existsb]. by rewrite IH, plain_cacheable.
  - intros inj' Hw r'. unfold r', r. fold (out unmarshal_any o up inj'). 
    destruct (out_fields unmarshal_any o up inj) as (H1 & H2 & H3 & _). destruct (out_fields unmarshal_any o up inj') as (H1' & H2' & H3' & _).
    rewrite H1, H2, H3, H1', H2', H3', Hw. fold w. split_and!; [done|done|]. unfold static_head.
    by destruct (_ =? "")%string, w, (has_block inj), (has_block inj').
Qed.

(** ** Findings and witnesses *)

Module MessagesSample.
Definition message (role : string) (content : json) : chatMessage := mkMessage role content JNull "" "" "".
Definition user (s : string) : chatMessage := message "user" (JString s).
Definition call (args : string) : json :=
  keyed [("type", JString "function"); ("id", JString "c1");
         ("function", keyed [("name", JString "read"); ("arguments", JString args)])]%string.
Definition body (ms : list chatMessage) (effort : string) : openAIChatBody :=
  mkBody (mkChat "opus" ms false None) 0 0 None JNull [mkTool "function" "read" "" JNull] JNull effort None.
Definition parse (s : string) : option json := if (s =? "null")%string then Some JNull else None.
Definition conversation : list chatMessage :=
  [message "system" (JString "be brief"); user "look"; mkMessage "assistant" (JString "reading") (JArray [call "{}"]) "" "" "";
   mkMessage "tool" (JString "content") JNull "" "c1" ""].
Definition injected : Injection := mkInjection [Inject.InjectSample.slice "s" "m" "x"] "BLOCK" 5 0 0 [] f0.
Definition always : UpstreamConfig := GatewayConfig.Sample.claude <| up_CacheBreakpoints := "always"%string |>.
End MessagesSample.

Import MessagesSample.

(** The budget of efforts "high" and "max" exceeds the default token limit, which
    the Messages API requires to be larger. *)
Theorem budget_exceeds_limit unmarshal_any ms up inj effort :
  effort = "high"%string \/ effort = "max"%string ->
  exists budget, r_Thinking (translate unmarshal_any (body ms effort) up inj) = Some (anthropicThinking budget) /\
    r_MaxTokens (translate unmarshal_any (body ms effort) up inj) < budget.
Proof.
  intros H. destruct (out_fields unmarshal_any (body ms effort) up inj) as (_ & _ & _ & Hm & _).
  unfold out in Hm. rewrite Hm. unfold translate. destruct (splitSystem _ _) as [system msgs].
  match goal with |- context [applyCacheBreakpoints ?b ?s ?t ?h ?m] => pose proof (apply_fields b s t h m) as (_ & _ & _ & _ & _ & _ & _ & _ & _ & _ & Ht) end.
  cbv zeta. rewrite Ht. destruct H as [-> | ->]; [exists 16384|exists 32768]; (split; [reflexivity|vm_compute; reflexivity]).
Qed.

(** When two assistant messages are merged, the second one's thinking follows the
    first one's text. *)
Theorem thinking_not_first :
  exists m, r_Messages (translate parse (body [user "q"; message "assistant" (JString "a");
      mkMessage "assistant" (JString "b") JNull "" "" "why"] "") always None) = [mkAMessage "user" [text_block "q"]; m] /\
    map b_Type (a_Content m) = ["text"; "thinking"; "text"]%string.
Proof. eexists. split; reflexivity. Qed.

(** A role the adapter does not know is sent as it is. *)
Theorem unknown_role_forwarded :
  map a_Role (r_Messages (translate parse (body [message "developer" (JString "be brief"); user "q"] "") always None)) = ["developer"; "user"]%string.
Proof. reflexivity. Qed.

(** Arguments that are the literal null leave a tool call without an input. *)
Theorem null_arguments : map b_Input (tool_use parse (call "null")) = [JNull] /\ map b_Input (tool_use parse (call "{bad")) = [empty_object].
Proof. split; reflexivity. Qed.

Lemma known_conversation : Forall known_role conversation.
Proof. repeat constructor; unfold known_role; cbn; set_solver. Qed.

Lemma client_conversation : Forall (client_ok parse) conversation.
Proof.
  assert (Hs : forall m s, Content m = JString s -> ToolCalls m = JNull -> (Role m = "tool"%string -> ToolCallID m <> ""%string) -> client_ok parse m)
    by (intros m s E1 E2 E3; split_and!; [intros ps; congruence|intros t; congruence|done]).
  apply Forall_cons_2; [by eapply Hs|]. apply Forall_cons_2; [by eapply Hs|]. apply Forall_cons_2; [|apply Forall_cons_2; [by eapply Hs|constructor]].
  split_and!; [done|intros tcs [= <-]|done]. constructor; [|constructor]. intros m [= <-] _. vm_compute. split_and!; done.
Qed.

Lemma translate_wellformed_witness :
  Forall (fun m => Forall shape (a_Content m)) (map plain_message (r_Messages (translate parse (body conversation "low") always (Some injected)))) /\
  alternating (r_Messages (translate parse (body conversation "low") always (Some injected))) /\
  map a_Role (r_Messages (translate parse (body conversation "low") always (Some injected))) = ["user"; "assistant"; "user"]%string.
Proof.
  destruct (translate_wellformed parse (body conversation "low") always (Some injected) known_conversation) as (_ & H1 & H2 & _).
  split_and!; [exact (H2 client_conversation)|exact H1|reflexivity].
Defined.

Lemma breakpoints_placed_witness :
  r_Tools (translate parse (body conversation "low") always None) = r_Tools (translate parse (body conversation "low") always (Some injected)).
Proof. exact (proj1 (proj2 (proj2 (breakpoints_placed parse (body conversation "low") always (Some injected))) None eq_refl)). Defined.

Example breakpoints_marks : markers (translate parse (body conversation "low") always (Some injected)) = 2%nat.
Proof. reflexivity. Qed.
