(* ===== verification/Levenshtein.v ===== *)
(** gateway/levenshtein.go: the edit distance behind the retry detection of
    suspected false hits, a two-row dynamic programme, against the inductive
    definition of an edit script. *)

From Stdlib Require Import ZArith Lia Bool Ascii String Floats.SpecFloat.
From stdpp Require Import tactics base option list strings.
From S2P Require Import Prelude Float64 GoStrings.

#[global] Open Scope Z_scope.

(** The inner loop body at column [j]: [ai] is [a[i-1]]. *)
Definition cell (ai : Z) (b prev cur : list Z) (j : nat) : Z :=
  let cost := if ai =? b !!! pred j then 0 else 1 in
  let del := prev !!! j + 1 in
  let ins := cur !!! pred j + 1 in
  let sub := prev !!! pred j + cost in
  let m := del in
  let m := if ins <? m then ins else m in
  if sub <? m then sub else m.

(** [for j := 1; j <= len(b); j++]: fill [cur] from [prev]. *)
Definition fill_row (ai : Z) (b prev cur : list Z) : list Z :=
  foldl (fun cur j => <[j := cell ai b prev cur j]> cur) cur (seq 1 (length b)).

(** One turn of the outer loop on the two rows, the swap included. *)
Definition row_step (b : list Z) (rows : list Z * list Z) (i : nat) (ai : Z) : list Z * list Z :=
  let '(prev, cur) := rows in
  let cur := <[0%nat := Z.of_nat i]> cur in
  (fill_row ai b prev cur, prev).

Fixpoint row_loop (b : list Z) (rows : list Z * list Z) (i : nat) (a : list Z) : list Z * list Z :=
  match a with
  | [] => rows
  | ai :: a' => row_loop b (row_step b rows i ai) (S i) a'
  end.

Definition levenshteinRunes (a b : list Z) : Z :=
  match a, b with
  | [], _ => Z.of_nat (length b)
  | _, [] => Z.of_nat (length a)
  | _, _ =>
      let prev := map Z.of_nat (seq 0 (S (length b))) in
      let cur := replicate (S (length b)) 0 in
      (row_loop b (prev, cur) 1 a).1 !!! length b
  end.

Definition maxEditLen : Z := 2048.

Definition normalizedEditRatio (a b : string) : f64 :=
  let ar := runes a in
  let br := runes b in
  if (length ar =? 0)%nat && (length br =? 0)%nat then f1
  else
    let maxLen := Z.of_nat (length ar) in
    let maxLen := if maxLen <? Z.of_nat (length br) then Z.of_nat (length br) else maxLen in
    if maxLen =? 0 then f1
    else if maxEditLen <? maxLen then f0
    else (f1 - f_of_int (levenshteinRunes ar br) / f_of_int maxLen)%f64.

(** ** Edit scripts *)

Inductive edit : list Z -> list Z -> Z -> Prop :=
| edit_nil : edit [] [] 0
| edit_delete x a b n : edit a b n -> edit (x :: a) b (n + 1)
| edit_insert y a b n : edit a b n -> edit a (y :: b) (n + 1)
| edit_keep x a b n : edit a b n -> edit (x :: a) (x :: b) n
| edit_replace x y a b n : edit a b n -> edit (x :: a) (y :: b) (n + 1).

Lemma edit_app a1 b1 n1 a2 b2 n2 : edit a1 b1 n1 -> edit a2 b2 n2 -> edit (a1 ++ a2) (b1 ++ b2) (n1 + n2).
Proof.
  induction 1; intros H2; simpl.
  - by rewrite Z.add_0_l.
  - replace (n + 1 + n2) with (n + n2 + 1) by lia. apply edit_delete. auto.
  - replace (n + 1 + n2) with (n + n2 + 1) by lia. apply edit_insert. auto.
  - apply edit_keep. auto.
  - replace (n + 1 + n2) with (n + n2 + 1) by lia. apply edit_replace. auto.
Qed.

Lemma edit_rev a b n : edit a b n -> edit (rev a) (rev b) n.
Proof.
  induction 1; simpl; [constructor|..].
  - rewrite <- (app_nil_r (rev b)). eapply edit_app; [done|]. apply (edit_delete x [] [] 0). constructor.
  - rewrite <- (app_nil_r (rev a)). eapply edit_app; [done|]. apply (edit_insert y [] [] 0). constructor.
  - rewrite <- (Z.add_0_r n). eapply edit_app; [done|]. apply edit_keep. constructor.
  - eapply edit_app; [done|]. apply (edit_replace x y [] [] 0). constructor.
Qed.

(** The recurrence of the distance, on the runes from the last to the first. *)
Fixpoint lev (a : list Z) : list Z -> Z :=
  fix go (b : list Z) : Z :=
    match a, b with
    | [], _ => Z.of_nat (length b)
    | _, [] => Z.of_nat (length a)
    | x :: a', y :: b' => Z.min (Z.min (lev a' b + 1) (go b' + 1)) (lev a' b' + (if x =? y then 0 else 1))
    end.

Lemma lev_nil_l b : lev [] b = Z.of_nat (length b).
Proof. by destruct b. Qed.
Lemma lev_nil_r a : lev a [] = Z.of_nat (length a).
Proof. by destruct a. Qed.
Lemma lev_cons x a y b :
  lev (x :: a) (y :: b) =
    Z.min (Z.min (lev a (y :: b) + 1) (lev (x :: a) b + 1)) (lev a b + (if x =? y then 0 else 1)).
Proof. done. Qed.

Lemma lev_delete x a b : lev (x :: a) b <= lev a b + 1.
Proof. destruct b; [rewrite !lev_nil_r; simpl; lia|]. rewrite lev_cons. lia. Qed.
Lemma lev_insert y a b : lev a (y :: b) <= lev a b + 1.
Proof. destruct a; [rewrite !lev_nil_l; simpl; lia|]. rewrite lev_cons. lia. Qed.

Lemma lev_minimal a b n : edit a b n -> lev a b <= n.
Proof.
  induction 1 as [|x a b n _ IH|y a b n _ IH|x a b n _ IH|x y a b n _ IH]; [done|..].
  - pose proof (lev_delete x a b). lia.
  - pose proof (lev_insert y a b). lia.
  - rewrite lev_cons, Z.eqb_refl. lia.
  - rewrite lev_cons. destruct (_ =? _); lia.
Qed.

Lemma edit_all_deleted a : edit a [] (Z.of_nat (length a)).
Proof.
  induction a as [|x a IH]; [constructor|].
  replace (Z.of_nat (length (x :: a))) with (Z.of_nat (length a) + 1) by (simpl; lia). by apply edit_delete.
Qed.
Lemma edit_all_inserted b : edit [] b (Z.of_nat (length b)).
Proof.
  induction b as [|y b IH]; [constructor|].
  replace (Z.of_nat (length (y :: b))) with (Z.of_nat (length b) + 1) by (simpl; lia). by apply edit_insert.
Qed.

Lemma lev_edit a b : edit a b (lev a b).
Proof.
  revert b. induction a as [|x a IHa]; intros b; [rewrite lev_nil_l; apply edit_all_inserted|].
  induction b as [|y b IHb]; [rewrite lev_nil_r; apply edit_all_deleted|].
  rewrite lev_cons. destruct (Z.min_spec (Z.min (lev a (y :: b) + 1) (lev (x :: a) b + 1)) (lev a b + (if x =? y then 0 else 1)))
    as [[_ ->]|[_ ->]].
  - destruct (Z.min_spec (lev a (y :: b) + 1) (lev (x :: a) b + 1)) as [[_ ->]|[_ ->]];
      [by apply edit_delete|by apply edit_insert].
  - destruct (Z.eqb_spec x y) as [->|]; [rewrite Z.add_0_r; by apply edit_keep|by apply edit_replace].
Qed.

(** ** The rows *)

(** The distance between the first [i] runes of [a] and the first [j] of [b]. *)
Definition dist (a b : list Z) (i j : nat) : Z := lev (rev (take i a)) (rev (take j b)).

Definition is_row (a b : list Z) (i : nat) (row : list Z) : Prop :=
  length row = S (length b) /\ forall j, (j <= length b)%nat -> row !!! j = dist a b i j.

Lemma rev_take_S (l : list Z) i x : l !! i = Some x -> rev (take (S i) l) = x :: rev (take i l).
Proof. intros H. by rewrite (take_S_r l i x H), rev_app_distr. Qed.

Lemma dist_step a b i j x y :
  a !! i = Some x -> b !! j = Some y ->
  dist a b (S i) (S j) = Z.min (Z.min (dist a b i (S j) + 1) (dist a b (S i) j + 1)) (dist a b i j + (if x =? y then 0 else 1)).
Proof. intros Ha Hb. unfold dist. by rewrite !(rev_take_S a i x), !(rev_take_S b j y), lev_cons. Qed.

Lemma dist_column_0 a b i : (i <= length a)%nat -> dist a b i 0 = Z.of_nat i.
Proof. intros. unfold dist. simpl. rewrite lev_nil_r, length_rev, length_take. lia. Qed.

Lemma first_row a b : is_row a b 0 (map Z.of_nat (seq 0 (S (length b)))).
Proof.
  split; [by rewrite length_map, length_seq|]. intros j Hj. unfold dist. simpl rev at 1.
  rewrite lev_nil_l, length_rev, length_take, Nat.min_l by lia.
  apply list_lookup_total_correct. rewrite list_lookup_fmap, lookup_seq_lt by lia. done.
Qed.

Lemma fill_row_spec a b i x prev cur :
  a !! i = Some x -> is_row a b i prev -> length cur = S (length b) -> cur !!! 0%nat = dist a b (S i) 0 ->
  is_row a b (S i) (fill_row x b prev cur).
Proof.
  intros Ha [Hlp Hp] Hlc H0. unfold fill_row.
  assert (H : forall m, (m <= length b)%nat ->
    let row := foldl (fun cur j => <[j := cell x b prev cur j]> cur) cur (seq 1 m) in
    length row = S (length b) /\ forall j, (j <= m)%nat -> row !!! j = dist a b (S i) j).
  { induction m as [|m IH]; intros Hm; cbv zeta.
    - split; [done|]. intros j Hj. by replace j with 0%nat by lia.
    - destruct IH as [Hl Hr]; [lia|]. rewrite seq_S, foldl_app. simpl.
      set (row := foldl _ cur (seq 1 m)) in *. split; [by rewrite length_insert|].
      intros j Hj. destruct (decide (j = S m)) as [->|Hne];
        [|rewrite list_lookup_total_insert_ne by done; apply Hr; lia].
      rewrite list_lookup_total_insert_eq by lia.
      destruct (lookup_lt_is_Some_2 b m) as [y Hy]; [lia|]. rewrite (dist_step a b i m x y Ha Hy).
      unfold cell. simpl pred. rewrite Hp, Hp, Hr by lia. rewrite (list_lookup_total_correct b m y Hy).
      destruct (_ =? _); repeat (case_match; go_bool); lia. }
  destruct (H (length b)) as [Hl Hr]; [lia|]. split; [done|]. exact Hr.
Qed.

Lemma row_loop_spec a b i prev cur :
  is_row a b i prev -> length cur = S (length b) -> (i <= length a)%nat ->
  is_row a b (length a) (row_loop b (prev, cur) (S i) (drop i a)).1.
Proof.
  remember (length a - i)%nat as n eqn:En. revert i prev cur En. induction n as [|n IH]; intros i prev cur En Hp Hc Hi.
  - rewrite drop_ge by lia. by replace (length a) with i by lia.
  - destruct (lookup_lt_is_Some_2 a i) as [x Hx]; [lia|]. rewrite (drop_S a x i Hx). cbn [row_loop row_step].
    apply IH; [lia| |by apply Hp|lia].
    apply fill_row_spec; [done|done|by rewrite length_insert|].
    rewrite list_lookup_total_insert_eq by lia. by rewrite dist_column_0 by lia.
Qed.

Lemma levenshteinRunes_lev a b : levenshteinRunes a b = lev (rev a) (rev b).
Proof.
  unfold levenshteinRunes. destruct a as [|x a]; [by rewrite lev_nil_l, length_rev|].
  destruct b as [|y b]; [by rewrite lev_nil_r, length_rev|].
  generalize (x :: a), (y :: b). clear. intros a b.
  destruct (row_loop_spec a b 0 (map Z.of_nat (seq 0 (S (length b)))) (replicate (S (length b)) 0)) as [_ H];
    [apply first_row|by rewrite length_replicate|lia|].
  rewrite drop_0 in H. rewrite H by lia. unfold dist. by rewrite !firstn_all.
Qed.

(** the two-row programme computes the edit distance: some script of single
    insertions, deletions and replacements turns one rune sequence into the
    other at that cost, none is cheaper, and the cost is at most the longer
    length. *)
Theorem levenshteinRunes_optimal a b :
  edit a b (levenshteinRunes a b)
  /\ (forall n, edit a b n -> levenshteinRunes a b <= n)
  /\ 0 <= levenshteinRunes a b <= Z.of_nat (Nat.max (length a) (length b))
  /\ (levenshteinRunes a b = 0 <-> a = b).
Proof.
  rewrite levenshteinRunes_lev.
  assert (He : edit a b (lev (rev a) (rev b))) by (rewrite <- (rev_involutive a), <- (rev_involutive b) at 1; apply edit_rev, lev_edit).
  assert (Hm : forall n, edit a b n -> lev (rev a) (rev b) <= n) by (intros n Hn; by apply lev_minimal, edit_rev).
  assert (Hnn : forall a b n, edit a b n -> 0 <= n) by (clear; induction 1; lia).
  split_and!; [done|done|by apply (Hnn a b)| |].
  - apply Hm. clear. revert b. induction a as [|x a IH]; intros b.
    { rewrite Nat.max_0_l. apply edit_all_inserted. }
    destruct b as [|y b]; [rewrite Nat.max_0_r; apply edit_all_deleted|].
    simpl length. rewrite <- Nat.succ_max_distr, Nat2Z.inj_succ, <- Z.add_1_r. apply edit_replace, IH.
  - split; [|intros ->].
    + intros H0. rewrite H0 in He. clear -He Hnn. remember 0 as n eqn:En.
      induction He as [|x a b n He|y a b n He|x a b n He IH|x y a b n He]; [done| | |by rewrite IH|];
        apply Hnn in He; lia.
    + apply Z.le_antisymm; [|by apply (Hnn b b)]. apply Hm. clear. induction b as [|y b IH]; [constructor|by apply edit_keep].
Qed.

Example ratio_of_a_retry :
  fltb (normalizedEditRatio "how do I build it" "how do i build it?") (f_of_ratio 9 10) = true
  /\ fltb (f_of_ratio 8 10) (normalizedEditRatio "how do I build it" "how do i build it?") = true.
Proof. by vm_compute. Qed.
