(* ===== verification/Quota.v ===== *)
(** gateway/quota.go: the free-tier meter, its persisted counter and the cached
    wallet probe that unlocks the paid mode.

    The counter file is what the last successful temporary-file-and-rename left;
    the outcomes of the next rewrites are a script.  [billing.FetchWithClient]
    is an argument: [None] for its error, [Some b] for a wallet whose
    availability is [b].  Instants are nanoseconds. *)

From Stdlib Require Import ZArith Lia Bool Ascii String.
From stdpp Require Import tactics base option list strings.
From S2P Require Import Prelude.

#[global] Open Scope Z_scope.

Definition quotaModeFree : string := "free".
Definition quotaModePaid : string := "paid".
Definition quotaModeBlocked : string := "blocked".
Definition balanceErrorBackoff : Z := 5 * 10 ^ 9.

Record BillingConfig := mkBilling {
  FreeTokens : Z;
  RechargeURL : string;
  BalanceURL : string;
  BalanceCacheSeconds : Z;
}.

(** The counter file as a read finds it; a decoded counter is an [int64]. *)
Inductive state_file :=
| NoFile
| Unreadable
| Undecodable
| Counter (used_tokens : Z).

Record quotaStatus := mkStatus {
  st_FreeTokens : Z;
  st_UsedTokens : Z;
  st_RemainingTokens : Z;
  st_Exhausted : bool;
  st_Mode : string;
  st_RechargeURL : string;
}.
#[export] Instance quotaStatus_eta : Eta quotaStatus := fun r =>
  mkStatus (st_FreeTokens r) (st_UsedTokens r) (st_RemainingTokens r) (st_Exhausted r) (st_Mode r) (st_RechargeURL r).

Record quotaEngine := mkQuota {
  cfg : BillingConfig;
  used : Z;
  paidOK : bool;
  paidChecked : option Z;
  probeErrAt : option Z;
  file : state_file;
  writes : list bool;
}.
#[export] Instance quotaEngine_eta : Eta quotaEngine := fun r =>
  mkQuota (cfg r) (used r) (paidOK r) (paidChecked r) (probeErrAt r) (file r) (writes r).

Definition newQuotaEngine (c : BillingConfig) (f : state_file) (ws : list bool) : result quotaEngine :=
  match f with
  | NoFile => Ok (mkQuota c 0 false None None f ws)
  | Unreadable => Err "quota state: read"
  | Undecodable => Err "quota state: decode"
  | Counter n => if n <? 0 then Err "quota state: negative used_tokens" else Ok (mkQuota c n false None None f ws)
  end.

Definition persistLocked : st quotaEngine unit := fun q =>
  let ok := default true (head (writes q)) in
  let q := q <| writes ::= tail |> in
  if ok then (Ok tt, q <| file := Counter (used q) |>) else (Err "quota state: write", q).

Definition Consume (n : Z) : st quotaEngine unit := fun q =>
  if n <=? 0 then (Ok tt, q) else persistLocked (q <| used ::= fun u => u +! n |>).

(** [a.Sub(b)] saturates. *)
Definition time_sub (a b : Z) : Z := Z.max (- 2 ^ 63) (Z.min (2 ^ 63 - 1) (a - b)).

(** [c] is set and less than [d] before [now]. *)
Definition within (now d : Z) (c : option Z) : bool :=
  match c with Some t => time_sub now t <? d | None => false end.

(** The verdict of [balanceActive], and whether the wallet was asked.  [now] is
    the instant of the checks and [after] the one recorded after the fetch. *)
Definition balanceActive (now after : Z) (fetch : option bool) (q : quotaEngine) : bool * bool * quotaEngine :=
  if (BalanceURL (cfg q) =? "")%string then (false, false, q)
  else
    let ttl := i64 (BalanceCacheSeconds (cfg q) * 10 ^ 9) in
    if within now ttl (paidChecked q) then (paidOK q, false, q)
    else if within now balanceErrorBackoff (probeErrAt q) then (paidOK q, false, q)
    else match fetch with
         | None => (paidOK q, true, q <| probeErrAt := Some after |>)
         | Some b => (b, true, q <| paidOK := b |> <| paidChecked := Some after |> <| probeErrAt := None |>)
         end.

Definition Status (now after : Z) (fetch : option bool) (q : quotaEngine) : quotaStatus * bool * quotaEngine :=
  let st := mkStatus (FreeTokens (cfg q)) (used q) (FreeTokens (cfg q) -! used q) false "" (RechargeURL (cfg q)) in
  if 0 <? st_RemainingTokens st then (st <| st_Mode := quotaModeFree |>, false, q)
  else
    let st := st <| st_RemainingTokens := 0 |> <| st_Exhausted := true |> in
    let '(active, asked, q) := balanceActive now after fetch q in
    (st <| st_Mode := if active then quotaModePaid else quotaModeBlocked |>, asked, q).

(** The admission decision of [admitQuota] on an enabled gate. *)
Definition admitQuota (now after : Z) (fetch : option bool) (q : quotaEngine) : bool * quotaEngine :=
  let '(st, _, q) := Status now after fetch q in
  (negb (st_Mode st =? quotaModeBlocked)%string, q).

(** The billing tap of [recordUsage]. *)
Record usage_event := mkUsage { TokensIn : Z; TokensOut : Z; L3Reuse : bool }.
Definition recordUsage (e : usage_event) (q : quotaEngine) : quotaEngine :=
  if L3Reuse e then q else (Consume (TokensIn e +! TokensOut e) q).2.

(** ** Histories *)

Inductive event :=
| Usage (e : usage_event)
| Admit (now after : Z) (fetch : option bool)
| Restart.

Definition run_event (ev : event) (q : quotaEngine) : result quotaEngine :=
  match ev with
  | Usage e => Ok (recordUsage e q)
  | Admit now after fetch => Ok (admitQuota now after fetch q).2
  | Restart => newQuotaEngine (cfg q) (file q) (writes q)
  end.

Fixpoint run (l : list event) (q : quotaEngine) : result quotaEngine :=
  match l with
  | [] => Ok q
  | ev :: l => let? q := run_event ev q in run l q
  end.

(** The tokens a history puts on the meter. *)
Definition billed (ev : event) : Z :=
  match ev with
  | Usage e => if L3Reuse e then 0 else Z.max 0 (TokensIn e + TokensOut e)
  | _ => 0
  end.
Definition total_billed (l : list event) : Z := foldr (fun ev n => billed ev + n) 0 l.

Definition counts_ok (ev : event) : Prop :=
  match ev with Usage e => in_i64 (TokensIn e + TokensOut e) | _ => True end.

Lemma billed_nonneg ev : 0 <= billed ev.
Proof. destruct ev as [e| |]; simpl; [|done..]. destruct (L3Reuse e); lia. Qed.

Lemma total_billed_nonneg l : 0 <= total_billed l.
Proof. induction l as [|ev l IH]; simpl; [done|]. pose proof (billed_nonneg ev). lia. Qed.

(** The counter on disk is the one in memory. *)
Record synced (q : quotaEngine) : Prop := {
  sy_range : 0 <= used q < 2 ^ 63;
  sy_file : file q = Counter (used q) \/ file q = NoFile /\ used q = 0;
  sy_writes : writes q = [];
}.

Lemma balanceActive_frame now after fetch q :
  let q' := (balanceActive now after fetch q).2 in
  cfg q' = cfg q /\ used q' = used q /\ file q' = file q /\ writes q' = writes q.
Proof.
  unfold balanceActive. destruct (_ =? _)%string; [done|]. cbv zeta.
  destruct (within _ _ _); [done|]. destruct (within _ _ _); [done|]. by destruct fetch.
Qed.

Lemma admitQuota_frame now after fetch q :
  let q' := (admitQuota now after fetch q).2 in
  cfg q' = cfg q /\ used q' = used q /\ file q' = file q /\ writes q' = writes q.
Proof.
  unfold admitQuota, Status. cbv zeta. destruct (0 <? _); [done|].
  pose proof (balanceActive_frame now after fetch q) as H. by destruct (balanceActive now after fetch q) as [[? ?] ?].
Qed.

Lemma synced_event ev q :
  synced q -> counts_ok ev -> used q + billed ev < 2 ^ 63 ->
  exists q', run_event ev q = Ok q' /\ synced q' /\ used q' = used q + billed ev /\ cfg q' = cfg q.
Proof.
  intros [Hr Hf Hw] Hc Hb. destruct ev as [e|now after fetch|]; simpl in *.
  - eexists. split; [done|]. unfold recordUsage. destruct (L3Reuse e); [rewrite Z.add_0_r; by split_and!|].
    rewrite (i64_id (TokensIn e + TokensOut e)) by done. unfold Consume.
    destruct (Z.leb_spec (TokensIn e + TokensOut e) 0) as [Hz|Hz].
    { rewrite Z.max_l by lia. rewrite Z.add_0_r. by split_and!. }
    rewrite Z.max_r in * by lia. unfold persistLocked. simpl. rewrite Hw. simpl.
    rewrite i64_id by (unfold in_i64; lia). split_and!; [|lia|done].
    constructor; simpl; [lia|by left|by rewrite ?Hw].
  - eexists. split; [done|]. destruct (admitQuota_frame now after fetch q) as (Hcf & Hu & Hfi & Hwr).
    rewrite Hu, Hcf, Z.add_0_r. split_and!; [|done|done]. constructor; by rewrite ?Hu, ?Hfi, ?Hwr.
  - rewrite Z.add_0_r. destruct Hf as [Hf|[Hf Hu]]; rewrite Hf; simpl; [|eexists; split_and!; [done| |simpl; lia|done]].
    + destruct (Z.ltb_spec (used q) 0); [lia|]. eexists. split_and!; [done| |done|done].
      constructor; simpl; [done|by left|done].
    + constructor; simpl; [lia|by right|done].
Qed.

(** C25: the free tier is granted once.  When the counter file is writable, after
    any history of requests, admissions and restarts the meter holds the tokens
    of all forwarded requests since the first start, no restart fails or resets
    it, and a request is then admitted without a wallet exactly while that total
    is below the tier. *)
Theorem free_tier_granted_once c l :
  0 <= FreeTokens c < 2 ^ 63 -> Forall counts_ok l -> total_billed l < 2 ^ 63 ->
  exists q,
    (let? q := newQuotaEngine c NoFile [] in run l q) = Ok q
    /\ used q = total_billed l
    /\ (forall now after, (admitQuota now after (Some false) (q <| paidChecked := None |> <| probeErrAt := None |>)).1
          = (total_billed l <? FreeTokens c)).
Proof.
  intros Hfree Hc Ht. simpl.
  assert (H : forall q, synced q -> used q + total_billed l < 2 ^ 63 ->
    exists q', run l q = Ok q' /\ synced q' /\ used q' = used q + total_billed l /\ cfg q' = cfg q).
  { clear Ht. induction Hc as [|ev l Hev Hl IH]; intros q Hs Hb; simpl in *; [rewrite Z.add_0_r; eauto|].
    pose proof (total_billed_nonneg l). destruct (synced_event ev q Hs Hev) as (q1 & Hq1 & Hs1 & Hu1 & Hc1); [lia|].
    rewrite Hq1. simpl. destruct (IH q1 Hs1) as (q' & Hr & Hs' & Hu' & Hc'); [lia|].
    exists q'. split_and!; [done|done|lia|congruence]. }
  destruct (H (mkQuota c 0 false None None NoFile [])) as (q & Hr & Hs & Hu & Hcf); [|done|].
  { constructor; simpl; [lia|by right|done]. }
  exists q. split_and!; [done|done|]. intros now after. unfold admitQuota, Status. cbv zeta.
  set (q0 := q <| paidChecked := None |> <| probeErrAt := None |>). simpl st_RemainingTokens.
  change (cfg q0) with (cfg q). change (used q0) with (used q). rewrite Hcf, Hu. simpl.
  pose proof (total_billed_nonneg l). rewrite i64_id by (unfold in_i64; lia). rewrite Z.add_0_l in *.
  destruct (Z.ltb_spec 0 (FreeTokens c - total_billed l)), (Z.ltb_spec (total_billed l) (FreeTokens c)); try lia; [done|].
  unfold balanceActive. by destruct (_ =? _)%string.
Qed.

(** ** The wallet verdict *)

(** One admission at an exhausted tier: its instants and what a fetch would
    return. *)
Definition call : Type := Z * Z * option bool.

(** The admissions of a run of calls, each with the wallet's answer if it was
    asked: [None] not asked, [Some None] a failed probe. *)
Fixpoint admit_all (l : list call) (q : quotaEngine) : list (bool * option (option bool)) * quotaEngine :=
  match l with
  | [] => ([], q)
  | (now, after, fetch) :: l =>
      let '(active, asked, q1) := balanceActive now after fetch q in
      let '(ok, q) := admitQuota now after fetch q in
      let '(rest, q) := admit_all l q in
      ((ok, if asked then Some fetch else None) :: rest, q)
  end.

Definition answered (r : bool * option (option bool)) : option bool := r.2 ≫= id.

Definition exhausted (q : quotaEngine) : Prop := FreeTokens (cfg q) -! used q <= 0.

Lemma admit_exhausted now after fetch q :
  exhausted q ->
  admitQuota now after fetch q = ((balanceActive now after fetch q).1.1, (balanceActive now after fetch q).2).
Proof.
  unfold exhausted, admitQuota, Status. cbv zeta. simpl. intros Hx. destruct (Z.ltb_spec 0 (FreeTokens (cfg q) -! used q)); [lia|].
  destruct (balanceActive now after fetch q) as [[[] ?] ?]; done.
Qed.

(** One check: the verdict is the answer when the wallet answered and the old
    one otherwise; a check that asks comes late enough. *)
Lemma balanceActive_cases now after fetch q :
  BalanceURL (cfg q) <> ""%string ->
  let '(active, asked, q') := balanceActive now after fetch q in
  active = paidOK q'
  /\ (asked = false -> q' = q)
  /\ (asked = true ->
        paidOK q' = default (paidOK q) fetch
        /\ match fetch with
           | Some _ => paidChecked q' = Some after
           | None => probeErrAt q' = Some after
           end
        /\ (forall t, paidChecked q = Some t -> i64 (BalanceCacheSeconds (cfg q) * 10 ^ 9) <= time_sub now t)
        /\ (forall t, probeErrAt q = Some t -> balanceErrorBackoff <= time_sub now t)).
Proof.
  intros Hu. unfold balanceActive. destruct (String.eqb_spec (BalanceURL (cfg q)) ""); [done|]. cbv zeta.
  destruct (within now _ (paidChecked q)) eqn:E1; [by split_and!|].
  destruct (within now balanceErrorBackoff (probeErrAt q)) eqn:E2; [by split_and!|].
  unfold within in *.
  destruct fetch; simpl; split_and!; try done; intros _; split_and!; try done; intros t Ht; rewrite Ht in *;
    by apply Z.ltb_ge.
Qed.

Lemma balanceActive_step now after fetch q :
  exhausted q -> BalanceURL (cfg q) <> ""%string ->
  exhausted (balanceActive now after fetch q).2 /\ BalanceURL (cfg (balanceActive now after fetch q).2) <> ""%string.
Proof. unfold exhausted. destruct (balanceActive_frame now after fetch q) as (-> & -> & _). done. Qed.

(** the wallet verdict.  On an exhausted tier each admission follows the last
    answer the wallet gave, the answer of its own probe included, and the
    verdict before the run if it gave none: failing probes neither lock a paid
    customer out nor let an unpaid one in. *)
Theorem wallet_verdict l q :
  exhausted q -> BalanceURL (cfg q) <> ""%string ->
  let '(admissions, q') := admit_all l q in
  length admissions = length l
  /\ (forall k a r, admissions !! k = Some (a, r) ->
       a = default (paidOK q) (last (omap answered (take (S k) admissions))))
  /\ paidOK q' = default (paidOK q) (last (omap answered admissions)).
Proof.
  revert q. induction l as [|[[now after] fetch] l IH]; intros q Hx Hu; [done|]. simpl.
  pose proof (balanceActive_cases now after fetch q Hu) as Hb. rewrite admit_exhausted by done.
  destruct (balanceActive_step now after fetch q Hx Hu) as [Hx1 Hu1].
  destruct (balanceActive now after fetch q) as [[active asked] q1]. simpl in *. destruct Hb as (-> & Hno & Hyes).
  specialize (IH q1 Hx1 Hu1). destruct (admit_all l q1) as [rest q'] eqn:El. destruct IH as (Hlen & Hk & Hq).
  set (r := if asked then Some fetch else None).
  assert (Hv : paidOK q1 = default (paidOK q) (answered (paidOK q1, r))).
  { subst r. destruct asked; [by destruct (Hyes eq_refl) as (-> & _)|by rewrite Hno]. }
  assert (Hcons : forall rs, default (paidOK q1) (last (omap answered rs))
      = default (paidOK q) (last (omap answered ((paidOK q1, r) :: rs)))).
  { intros rs. simpl. rewrite Hv at 1. destruct (answered (paidOK q1, r)) as [b|]; [|done].
    rewrite last_cons. change (list_omap _ _ answered rs) with (omap answered rs).
    by destruct (last (omap answered rs)). }
  cbv beta iota zeta. split_and!; [simpl; by rewrite Hlen| |by rewrite <- Hcons].
  intros [|k] a r' Hl; simpl in Hl.
  - injection Hl as <- _. change (take 1 ((paidOK q1, r) :: rest)) with ((paidOK q1, r) :: take 0 rest). by rewrite <- Hcons.
  - rewrite firstn_cons, <- Hcons. by apply Hk in Hl.
Qed.

Lemma admit_all_unasked l q :
  exhausted q -> BalanceURL (cfg q) <> ""%string -> Forall (fun x => x.2 = None) (admit_all l q).1 -> (admit_all l q).2 = q.
Proof.
  revert q. induction l as [|[[now after] fetch] l IH]; intros q Hx Hu; [done|]. simpl.
  pose proof (balanceActive_cases now after fetch q Hu) as Hb. rewrite admit_exhausted by done.
  destruct (balanceActive now after fetch q) as [[active asked] q1]. simpl in *. destruct Hb as (_ & Hno & _).
  destruct asked.
  - destruct (admit_all l q1) as [rest q']. simpl. by intros [? _]%Forall_cons.
  - rewrite Hno by done. specialize (IH q Hx Hu). destruct (admit_all l q) as [rest q']. simpl.
    intros [_ Hrest]%Forall_cons. by apply IH.
Qed.

(** The wallet is not hammered.  Between a probe and the next one at least
    the cache period passes if the first was answered, and at least the error
    backoff if it failed. *)
Theorem probes_spaced now1 after1 fetch1 mid now2 after2 fetch2 q :
  exhausted q -> BalanceURL (cfg q) <> ""%string ->
  let '(_, asked1, q1) := balanceActive now1 after1 fetch1 q in
  let '(between, q2) := admit_all mid q1 in
  let '(_, asked2, _) := balanceActive now2 after2 fetch2 q2 in
  asked1 = true -> Forall (fun x => x.2 = None) between -> asked2 = true ->
  match fetch1 with Some _ => i64 (BalanceCacheSeconds (cfg q) * 10 ^ 9) | None => balanceErrorBackoff end
    <= time_sub now2 after1.
Proof.
  intros Hx Hu. pose proof (balanceActive_cases now1 after1 fetch1 q Hu) as H1.
  destruct (balanceActive_step now1 after1 fetch1 q Hx Hu) as [Hx1 Hu1].
  destruct (balanceActive_frame now1 after1 fetch1 q) as (Hc & _).
  destruct (balanceActive now1 after1 fetch1 q) as [[a1 asked1] q1]. simpl in *. destruct H1 as (_ & _ & H1).
  pose proof (admit_all_unasked mid q1 Hx1 Hu1) as Hmid. destruct (admit_all mid q1) as [between q2]. simpl in *.
  destruct (balanceActive now2 after2 fetch2 q2) as [[a2 asked2] q3] eqn:E2.
  intros Ha1 Hbetween Ha2. rewrite (Hmid Hbetween) in *. clear Hmid.
  pose proof (balanceActive_cases now2 after2 fetch2 q1 Hu1) as H2. rewrite E2 in H2. destruct H2 as (_ & _ & H2).
  destruct (H1 Ha1) as (_ & Hset & _). destruct (H2 Ha2) as (_ & _ & Hpaid & Herr). rewrite Hc in Hpaid.
  destruct fetch1; [by apply Hpaid|by apply Herr].
Qed.

(** ** The properties at concrete inputs *)

Definition sample_billing : BillingConfig := mkBilling 1000 "https://pay" "https://wallet" 300.
Definition sample_history : list event :=
  [Usage (mkUsage 400 300 false); Restart; Usage (mkUsage 900 0 true); Admit 10 11 None; Usage (mkUsage 250 100 false); Restart].
Definition sample_exhausted : quotaEngine := mkQuota sample_billing 1050 true None None (Counter 1050) [].

Example free_tier_granted_once_witness : exists q,
  (let? q := newQuotaEngine sample_billing NoFile [] in run sample_history q) = Ok q /\ used q = 1050.
Proof.
  destruct (free_tier_granted_once sample_billing sample_history) as (q & Hq & Hu & _).
  - simpl. lia.
  - repeat constructor; simpl; unfold in_i64; lia.
  - simpl. lia.
  - exists q. split; [exact Hq|]. rewrite Hu. reflexivity.
Defined.

Example wallet_verdict_witness :
  (admit_all [(10, 11, None); (20, 21, None); (6 * 10 ^ 9, 6 * 10 ^ 9, Some false)] sample_exhausted).2
    = (sample_exhausted <| paidOK := false |> <| paidChecked := Some (6 * 10 ^ 9) |>)
  /\ exists a r, (admit_all [(10, 11, None); (20, 21, None)] sample_exhausted).1 !! 1%nat = Some (a, r) /\ a = true.
Proof.
  split; [vm_compute; reflexivity|].
  assert (Hx : exhausted sample_exhausted) by (vm_compute; discriminate).
  pose proof (wallet_verdict [(10, 11, None); (20, 21, None)] sample_exhausted Hx ltac:(discriminate)) as H.
  exists true, None. split; [vm_compute; reflexivity|]. 
  exact (proj1 (proj2 H) 1%nat true None ltac:(vm_compute; reflexivity)).
Defined.

Example probes_spaced_witness : 300 * 10 ^ 9 <= time_sub (400 * 10 ^ 9) 11.
Proof.
  assert (Hx : exhausted sample_exhausted) by (vm_compute; discriminate).
  refine (probes_spaced 10 11 (Some true) [(20, 21, Some true)] (400 * 10 ^ 9) (400 * 10 ^ 9) None
            sample_exhausted Hx _ _ _ _).
  - discriminate.
  - vm_compute; reflexivity.
  - vm_compute. repeat constructor.
  - vm_compute; reflexivity.
Defined.
