(* ===== verification/UsageWire.v ===== *)
(** gateway/usagewire.go, and the usage parts of gateway/anthropic.go: the token
    accounting of the three wire dialects folded into one convention, and written
    out again in the OpenAI one.

    A decoded usage object is a record; absent fields are zero, as
    [json.Unmarshal] leaves them. *)

From Stdlib Require Import ZArith Lia Bool String.
From stdpp Require Import tactics base option strings.
From S2P Require Import Prelude.

#[global] Open Scope Z_scope.

Record tokensDetails := mkDetails { CachedTokens : Z; CacheCreationTokens : Z }.

Record upstreamUsage := mkUpstream {
  PromptTokens : Z;
  CompletionTokens : Z;
  PromptCacheHitTokens : Z;
  PromptCacheMissTokens : Z;
  InputTokens : Z;
  OutputTokens : Z;
  CacheCreationInputTokens : Z;
  CacheReadInputTokens : Z;
  PromptTokensDetails : option tokensDetails;
  Estimator : string;
}.

Record normUsage := mkNorm { Prompt : Z; Completion : Z; CacheHit : Z; CacheWrite : Z }.
Definition zero_usage : normUsage := mkNorm 0 0 0 0.

(** [x], or what the next dialect says when it is zero. *)
Definition or_else (x y : Z) : Z := if x =? 0 then y else x.

Definition normalizeUpstreamUsage (u : option upstreamUsage) : normUsage * bool :=
  match u with
  | None => (zero_usage, false)
  | Some u =>
      if negb (Estimator u =? "")%string then (zero_usage, false) else
      let prompt :=
        if (PromptTokens u =? 0)
           && (negb (InputTokens u =? 0) || negb (CacheCreationInputTokens u =? 0) || negb (CacheReadInputTokens u =? 0))
        then InputTokens u +! CacheCreationInputTokens u +! CacheReadInputTokens u else PromptTokens u in
      let completion := or_else (CompletionTokens u) (OutputTokens u) in
      let hit := or_else (PromptCacheHitTokens u)
                   (match PromptTokensDetails u with Some d => CachedTokens d | None => 0 end) in
      let hit := or_else hit (CacheReadInputTokens u) in
      let write := or_else (CacheCreationInputTokens u)
                     (match PromptTokensDetails u with Some d => CacheCreationTokens d | None => 0 end) in
      if (prompt =? 0) && (completion =? 0) && (hit =? 0) then (zero_usage, false)
      else (mkNorm prompt completion hit write, true)
  end.

(** [parseUsageRaw] and [parseUsageBody] over their [json.Unmarshal]: the object
    itself, and a body whose [usage] field may be absent. *)
Section Parse.
Context (unmarshal_usage : string -> option upstreamUsage) (unmarshal_body : string -> option (option upstreamUsage)).

Definition parseUsageRaw (raw : string) : normUsage * bool :=
  if (String.length raw =? 0)%nat then (zero_usage, false) else
  match unmarshal_usage raw with
  | None => (zero_usage, false)
  | Some u => normalizeUpstreamUsage (Some u)
  end.

Definition parseUsageBody (body : string) : normUsage * bool :=
  match unmarshal_body body with
  | None | Some None => (zero_usage, false)
  | Some (Some u) => normalizeUpstreamUsage (Some u)
  end.
End Parse.

(** ** The Anthropic side *)

(** The usage object of an Anthropic response, or of a stream frame. *)
Record wireSSEUsage := mkFrame {
  fr_InputTokens : Z;
  fr_OutputTokens : Z;
  fr_CacheCreationInputTokens : Z;
  fr_CacheReadInputTokens : Z;
}.

Definition anthropic_usage (u : wireSSEUsage) : upstreamUsage :=
  mkUpstream 0 0 0 0 (fr_InputTokens u) (fr_OutputTokens u) (fr_CacheCreationInputTokens u)
    (fr_CacheReadInputTokens u) None "".

(** [prompt_tokens_details]: the cached tokens, and the written ones when there
    are any. *)
Definition cacheDetails (read write : Z) : option (Z * option Z) :=
  if (read =? 0) && (write =? 0) then None
  else Some (read, if 0 <? write then Some write else None).

(** The usage object the gateway writes to its clients. *)
Record wire_usage := mkWire {
  wu_prompt : Z;
  wu_completion : Z;
  wu_total : Z;
  wu_details : option (Z * option Z);
  wu_estimator : string;
}.

(** The usage of a translated response. *)
Definition translated_usage (u : wireSSEUsage) : wire_usage :=
  let prompt := fr_InputTokens u +! fr_CacheCreationInputTokens u +! fr_CacheReadInputTokens u in
  mkWire prompt (fr_OutputTokens u) (prompt +! fr_OutputTokens u)
    (cacheDetails (fr_CacheReadInputTokens u) (fr_CacheCreationInputTokens u)) "".

(** The usage of a translated stream, from its normalized counters. *)
Definition chunk_usage (nu : normUsage) : wire_usage :=
  mkWire (Prompt nu) (Completion nu) (Prompt nu +! Completion nu) (cacheDetails (CacheHit nu) (CacheWrite nu)) "".

(** What a client's decoder reads from it. *)
Definition read_usage (w : wire_usage) : upstreamUsage :=
  mkUpstream (wu_prompt w) (wu_completion w) 0 0 0 0 0 0
    (option_map (fun d => mkDetails d.1 (default 0 d.2)) (wu_details w)) (wu_estimator w).

Lemma or_else_0 x : or_else x 0 = x.
Proof. unfold or_else. destruct (Z.eqb_spec x 0); lia. Qed.

Lemma or_else_0_l x : or_else 0 x = x.
Proof. done. Qed.

(** What is read from the four figures of a client's usage object. *)
Lemma normalize_client p c t read write :
  0 <= write ->
  normalizeUpstreamUsage (Some (read_usage (mkWire p c t (cacheDetails read write) "")))
  = if (p =? 0) && (c =? 0) && (read =? 0) then (zero_usage, false) else (mkNorm p c read write, true).
Proof.
  intros Hw. unfold normalizeUpstreamUsage, read_usage, cacheDetails. simpl. rewrite andb_false_r, !or_else_0.
  destruct ((read =? 0) && (write =? 0)) eqn:E; simpl.
  - go_bool. subst. done.
  - rewrite ?or_else_0_l, ?or_else_0. replace (default 0 (if 0 <? write then Some write else None)) with write; [done|].
    destruct (Z.ltb_spec 0 write); simpl; lia.
Qed.

(** What is read from an Anthropic usage object. *)
Lemma normalize_anthropic u :
  let prompt := fr_InputTokens u +! fr_CacheCreationInputTokens u +! fr_CacheReadInputTokens u in
  normalizeUpstreamUsage (Some (anthropic_usage u))
  = if (prompt =? 0) && (fr_OutputTokens u =? 0) && (fr_CacheReadInputTokens u =? 0) then (zero_usage, false)
    else (mkNorm prompt (fr_OutputTokens u) (fr_CacheReadInputTokens u) (fr_CacheCreationInputTokens u), true).
Proof.
  destruct u as [i o c r]. unfold normalizeUpstreamUsage, anthropic_usage. simpl. rewrite ?or_else_0_l, ?or_else_0.
  destruct (_ || _) eqn:E; [done|]. go_bool. by subst.
Qed.

(** accounting survives translation.  For every usage an Anthropic upstream
    reports with a cache-write counter that is not negative, a client (or another
    gateway) that reads the translated OpenAI usage, of a response or of a stream,
    accounts exactly what the gateway itself bills: the full prompt, the
    completion, the tokens served from the prefix cache and those written to it. *)
Theorem translated_usage_accounts u :
  0 <= fr_CacheCreationInputTokens u ->
  normalizeUpstreamUsage (Some (read_usage (translated_usage u))) = normalizeUpstreamUsage (Some (anthropic_usage u))
  /\ forall nu, normalizeUpstreamUsage (Some (anthropic_usage u)) = (nu, true) ->
       normalizeUpstreamUsage (Some (read_usage (chunk_usage nu))) = (nu, true).
Proof.
  intros Hw. rewrite normalize_anthropic. unfold translated_usage, chunk_usage. split; [by rewrite normalize_client|].
  intros nu. destruct (_ && _) eqn:E; [done|]. intros [= <-]. rewrite normalize_client by done. simpl. by rewrite E.
Qed.

Lemma translated_usage_accounts_witness :
  normalizeUpstreamUsage (Some (read_usage (translated_usage (mkFrame 10 5 3 7)))) = (mkNorm 20 5 7 3, true).
Proof. exact (proj1 (translated_usage_accounts (mkFrame 10 5 3 7) ltac:(simpl; lia))). Defined.
