(* ===== verification/Usage.v ===== *)
(** kernel/usage/usage.go: the usage log and its summary.

    The log file is the list of its lines: their length and what
    [json.Unmarshal] makes of them.  A failing append is an argument. *)

From Stdlib Require Import ZArith Lia Bool String Floats.SpecFloat.
From stdpp Require Import tactics base option list gmap strings.
From S2P Require Import Prelude Float64.

#[global] Open Scope Z_scope.

(** ** Events *)

Record JudgeDecision := mkDecision {
  jd_SliceID : string;
  jd_RelConfidence : f64;
  jd_Verdict : string;
  jd_Reason : string;
  jd_Called : bool;
  jd_FailClosed : bool;
  jd_Error : string;
  jd_LatencyMs : Z;
  jd_PromptTokens : Z;
}.

Record Event := mkEvent {
  SessionID : string;
  Turn : Z;
  Provider : string;
  Vendor : string;
  Model : string;
  Exact : bool;
  TokensIn : Z;
  TokensOut : Z;
  CacheHitToken : Z;
  CacheWriteToken : Z;
  L3Reuse : bool;
  L3SliceID : string;
  InjectedTokens : Z;
  SliceHits : Z;
  JudgeDecisions : list JudgeDecision;
  L3GreyCandidates : Z;
  L3JudgeReject : Z;
  L3JudgeError : Z;
  L3JudgeApproved : Z;
  L3RulesReject : Z;
  L3FingerprintReject : Z;
  L3IsolatedReject : Z;
  L3FalseHit : bool;
  At : Z;
}.
#[export] Instance Event_eta : Eta Event := fun r =>
  mkEvent (SessionID r) (Turn r) (Provider r) (Vendor r) (Model r) (Exact r) (TokensIn r) (TokensOut r)
    (CacheHitToken r) (CacheWriteToken r) (L3Reuse r) (L3SliceID r) (InjectedTokens r) (SliceHits r)
    (JudgeDecisions r) (L3GreyCandidates r) (L3JudgeReject r) (L3JudgeError r) (L3JudgeApproved r)
    (L3RulesReject r) (L3FingerprintReject r) (L3IsolatedReject r) (L3FalseHit r) (At r).
Definition zero_event : Event :=
  mkEvent "" 0 "" "" "" false 0 0 0 0 false "" 0 0 [] 0 0 0 0 0 0 0 false 0.

(** A line of the log. *)
Inductive log_line := Blank | Malformed | Long | Line (e : Event).

(** [Append]: an event that does not marshal (a confidence that is not finite) and
    a failing write leave the log alone. *)
Definition marshalable_event (e : Event) : bool := forallb (fun d => finite (jd_RelConfidence d)) (JudgeDecisions e).

Definition Append (io_ok : bool) (e : Event) (log : list log_line) : result unit * list log_line :=
  if negb (marshalable_event e) then (Err "usage: marshal", log)
  else if negb io_ok then (Err "usage: write", log)
  else (Ok tt, log ++ [Line e]).

(** ** The summary *)

Record ProviderStats := mkProvider {
  p_Events : Z;
  p_ExactEvents : Z;
  p_TokensIn : Z;
  p_TokensOut : Z;
  p_CacheHitTokens : Z;
  p_CacheWriteTokens : Z;
  p_L3Reuses : Z;
}.
#[export] Instance ProviderStats_eta : Eta ProviderStats := fun r =>
  mkProvider (p_Events r) (p_ExactEvents r) (p_TokensIn r) (p_TokensOut r) (p_CacheHitTokens r) (p_CacheWriteTokens r)
    (p_L3Reuses r).
Definition no_stats : ProviderStats := mkProvider 0 0 0 0 0 0 0.

Definition L1HitRate (p : option ProviderStats) : f64 :=
  match p with
  | None => f0
  | Some p => if p_TokensIn p =? 0 then f0 else (f_of_int (p_CacheHitTokens p) / f_of_int (p_TokensIn p))%f64
  end.

(** The running totals of the scan, the tokens of reused turns included. *)
Record Totals := mkTotals {
  t_Events : Z;
  t_TokensIn : Z;
  t_TokensOut : Z;
  t_CacheHitTokens : Z;
  t_CacheWriteTokens : Z;
  t_InjectedTokens : Z;
  t_SliceHits : Z;
  t_L3Reuses : Z;
  t_l3In : Z;
  t_l3Out : Z;
  t_l3Hit : Z;
  t_JudgeDecisions : Z;
  t_JudgeCalls : Z;
  t_JudgeApproved : Z;
  t_JudgeDeclined : Z;
  t_JudgeFailClosed : Z;
  t_JudgeSkipped : Z;
  t_JudgePromptTokens : Z;
  t_JudgeLatencyMs : Z;
  t_L3GreyCandidates : Z;
  t_L3JudgeReject : Z;
  t_L3JudgeError : Z;
  t_L3JudgeApproved : Z;
  t_L3RulesReject : Z;
  t_L3FingerprintReject : Z;
  t_L3IsolatedReject : Z;
  t_L3FalseHits : Z;
  t_ByProvider : gmap string ProviderStats;
}.
#[export] Instance Totals_eta : Eta Totals := fun r =>
  mkTotals (t_Events r) (t_TokensIn r) (t_TokensOut r) (t_CacheHitTokens r) (t_CacheWriteTokens r) (t_InjectedTokens r)
    (t_SliceHits r) (t_L3Reuses r) (t_l3In r) (t_l3Out r) (t_l3Hit r) (t_JudgeDecisions r) (t_JudgeCalls r)
    (t_JudgeApproved r) (t_JudgeDeclined r) (t_JudgeFailClosed r) (t_JudgeSkipped r) (t_JudgePromptTokens r)
    (t_JudgeLatencyMs r) (t_L3GreyCandidates r) (t_L3JudgeReject r) (t_L3JudgeError r) (t_L3JudgeApproved r)
    (t_L3RulesReject r) (t_L3FingerprintReject r) (t_L3IsolatedReject r) (t_L3FalseHits r) (t_ByProvider r).
Definition no_totals : Totals :=
  mkTotals 0 0 0 0 0 0 0 0 0 0 0 0 0 0 0 0 0 0 0 0 0 0 0 0 0 0 0 ∅.

Definition count (b : bool) : Z := if b then 1 else 0.
Definition when (b : bool) (n : Z) : Z := if b then n else 0.

Definition provider_step (e : Event) (p : ProviderStats) : ProviderStats :=
  let p := p <| p_Events ::= fun n => n +! 1 |> in
  let p := if L3Reuse e then p <| p_L3Reuses ::= fun n => n +! 1 |> else p in
  if Exact e then
    p <| p_ExactEvents ::= fun n => n +! 1 |> <| p_TokensIn ::= fun n => n +! TokensIn e |>
      <| p_TokensOut ::= fun n => n +! TokensOut e |> <| p_CacheHitTokens ::= fun n => n +! CacheHitToken e |>
      <| p_CacheWriteTokens ::= fun n => n +! CacheWriteToken e |>
  else p.

Definition judge_step (t : Totals) (d : JudgeDecision) : Totals :=
  let t := t <| t_JudgeDecisions ::= fun n => n +! 1 |> <| t_JudgeLatencyMs ::= fun n => n +! jd_LatencyMs d |> in
  let t := if jd_Called d then t <| t_JudgeCalls ::= fun n => n +! 1 |> <| t_JudgePromptTokens ::= fun n => n +! jd_PromptTokens d |>
           else t in
  if (jd_Verdict d =? "approved")%string then t <| t_JudgeApproved ::= fun n => n +! 1 |>
  else if (jd_Verdict d =? "declined")%string then t <| t_JudgeDeclined ::= fun n => n +! 1 |>
  else if (jd_Verdict d =? "fail_closed")%string then t <| t_JudgeFailClosed ::= fun n => n +! 1 |>
  else if (jd_Verdict d =? "skipped")%string then t <| t_JudgeSkipped ::= fun n => n +! 1 |>
  else t.

Definition event_step (t : Totals) (e : Event) : Totals :=
  let t := t <| t_Events ::= fun n => n +! 1 |> <| t_TokensIn ::= fun n => n +! TokensIn e |>
             <| t_TokensOut ::= fun n => n +! TokensOut e |> <| t_CacheHitTokens ::= fun n => n +! CacheHitToken e |>
             <| t_CacheWriteTokens ::= fun n => n +! CacheWriteToken e |>
             <| t_InjectedTokens ::= fun n => n +! InjectedTokens e |> <| t_SliceHits ::= fun n => n +! SliceHits e |> in
  let t := t <| t_ByProvider ::= fun m => <[Provider e := provider_step e (default no_stats (m !! Provider e))]> m |> in
  let t := if L3Reuse e then
             t <| t_L3Reuses ::= fun n => n +! 1 |> <| t_l3In ::= fun n => n +! TokensIn e |>
               <| t_l3Hit ::= fun n => n +! CacheHitToken e |> <| t_l3Out ::= fun n => n +! TokensOut e |>
           else t in
  let t := foldl judge_step t (JudgeDecisions e) in
  let t := t <| t_L3GreyCandidates ::= fun n => n +! L3GreyCandidates e |> <| t_L3JudgeReject ::= fun n => n +! L3JudgeReject e |>
             <| t_L3JudgeError ::= fun n => n +! L3JudgeError e |> <| t_L3JudgeApproved ::= fun n => n +! L3JudgeApproved e |>
             <| t_L3RulesReject ::= fun n => n +! L3RulesReject e |>
             <| t_L3FingerprintReject ::= fun n => n +! L3FingerprintReject e |>
             <| t_L3IsolatedReject ::= fun n => n +! L3IsolatedReject e |> in
  if L3FalseHit e then t <| t_L3FalseHits ::= fun n => n +! 1 |> else t.

(** The scan: a line beyond the buffer stops it with an error. *)
Fixpoint scan (l : list log_line) (t : Totals) : result Totals :=
  match l with
  | [] => Ok t
  | Long :: _ => Err "usage: scan"
  | Line e :: l => scan l (event_step t e)
  | _ :: l => scan l t
  end.

Definition million : f64 := f_of_int (10 ^ 6).

Record Costs := mkCosts {
  CostPaidUSD : f64;
  CostNoCacheUSD : f64;
  SavingsUSD : f64;
  SavingsRate : f64;
  InjectROI : f64;
}.

Definition price (tokens : Z) (perMTok : f64) : f64 := (f_of_int tokens * perMTok / million)%f64.

Definition costs (costMiss costHit : f64) (t : Totals) : Costs :=
  let providerHit := t_CacheHitTokens t -! t_l3Hit t in
  let billedIn := t_TokensIn t -! t_l3In t -! providerHit in
  let billedOut := t_TokensOut t -! t_l3Out t in
  let paid := (price billedIn costMiss + price providerHit costHit + price billedOut costMiss)%f64 in
  let noCache := (price (t_TokensIn t) costMiss + price (t_TokensOut t) costMiss)%f64 in
  let savings := (noCache - paid)%f64 in
  mkCosts paid noCache savings (if (noCache >? f0)%f64 then (savings / noCache)%f64 else f0)
    (if 0 <? t_InjectedTokens t then
       let l2 := (f_of_int (t_InjectedTokens t) * (costMiss - costHit) / million)%f64 in
       let l3 := ((f_of_int (t_l3In t) * costMiss + f_of_int (t_l3Out t) * costMiss) / million)%f64 in
       ((l2 + l3) / f_of_int (t_InjectedTokens t) * million)%f64
     else f0).

Definition Summarize (file : option (list log_line)) (costMiss costHit : f64) : result (Totals * Costs) :=
  match file with
  | None => Err "usage: open"
  | Some l => let? t := scan l no_totals in Ok (t, costs costMiss costHit t)
  end.

Definition JudgeCostUSD (t : Totals) (costPerMTok : f64) : f64 := price (t_JudgePromptTokens t) costPerMTok.

(** ** What the totals are *)

Definition zsum {A} (w : A -> Z) (l : list A) : Z := foldr (fun x n => w x + n) 0 l.

Lemma zsum_app {A} (w : A -> Z) l1 l2 : zsum w (l1 ++ l2) = zsum w l1 + zsum w l2.
Proof. induction l1 as [|x l1 IH]; simpl; [done|]. rewrite IH. lia. Qed.

Lemma zsum_ext {A} (w w' : A -> Z) l : (forall x, w x = w' x) -> zsum w l = zsum w' l.
Proof. intros H. induction l as [|x l IH]; simpl; [done|]. by rewrite IH, H. Qed.

Lemma zsum_sub {A} (w w' : A -> Z) l : zsum (fun x => w x - w' x) l = zsum w l - zsum w' l.
Proof. induction l as [|x l IH]; simpl; [done|]. rewrite IH. lia. Qed.

Lemma i64_sub_idemp a b : i64 (i64 a - i64 b) = i64 (a - b).
Proof.
  unfold i64. f_equal.
  replace ((a + 2 ^ 63) mod 2 ^ 64 - 2 ^ 63 - ((b + 2 ^ 63) mod 2 ^ 64 - 2 ^ 63) + 2 ^ 63)
    with ((a + 2 ^ 63) mod 2 ^ 64 - (b + 2 ^ 63) mod 2 ^ 64 + 2 ^ 63) by lia.
  rewrite <- (Z.add_mod_idemp_l ((a + 2 ^ 63) mod 2 ^ 64 - _)) by lia.
  rewrite <- Zminus_mod, Z.add_mod_idemp_l by lia. f_equal. lia.
Qed.

Lemma i64_sub_idemp2 a b c d : i64 (i64 (i64 a - i64 b) - i64 (i64 c - i64 d)) = i64 ((a - b) - (c - d)).
Proof. by rewrite <- (i64_sub_idemp (a - b) (c - d)), <- (i64_sub_idemp a b), <- (i64_sub_idemp c d). Qed.

(** A counter that every step advances by [w]. *)
Lemma fold_counter {T A} (step : T -> A -> T) (f : T -> Z) (w : A -> Z) :
  (forall t x, in_i64 (f t) -> f (step t x) = f t +! w x) ->
  forall l t, in_i64 (f t) -> f (foldl step t l) = i64 (f t + zsum w l).
Proof.
  intros Hs l. induction l as [|x l IH]; intros t Ht; simpl; [by rewrite Z.add_0_r, i64_id|].
  rewrite IH by (rewrite Hs by done; apply i64_range). rewrite Hs, i64_add_idemp by done. f_equal. lia.
Qed.

Lemma fold_counter_0 {T A} (step : T -> A -> T) (f : T -> Z) (w : A -> Z) l t :
  (forall t x, in_i64 (f t) -> f (step t x) = f t +! w x) -> f t = 0 -> f (foldl step t l) = i64 (zsum w l).
Proof. intros Hs H0. rewrite (fold_counter step f w Hs) by (rewrite H0; unfold in_i64; lia). by rewrite H0. Qed.

(** A conditional increment. *)
Lemma add_when n (b : bool) x : in_i64 n -> (if b then n +! x else n) = n +! when b x.
Proof. intros. destruct b; simpl; [done|]. by rewrite Z.add_0_r, i64_id. Qed.

(** The fields of the totals the judge decisions leave alone. *)
Definition judge_frame (t t' : Totals) : Prop :=
  t_Events t' = t_Events t /\ t_TokensIn t' = t_TokensIn t /\ t_TokensOut t' = t_TokensOut t
  /\ t_CacheHitTokens t' = t_CacheHitTokens t /\ t_InjectedTokens t' = t_InjectedTokens t
  /\ t_l3In t' = t_l3In t /\ t_l3Out t' = t_l3Out t /\ t_l3Hit t' = t_l3Hit t /\ t_ByProvider t' = t_ByProvider t.

Lemma judge_step_frame t d : judge_frame t (judge_step t d).
Proof. unfold judge_step. destruct (jd_Called d); repeat (destruct (_ =? _)%string); done. Qed.

Lemma judges_frame l t : judge_frame t (foldl judge_step t l).
Proof.
  revert t. induction l as [|d l IH]; intros t; [done|]. simpl. unfold judge_frame in *.
  pose proof (judge_step_frame t d) as H1. pose proof (IH (judge_step t d)) as H2. unfold judge_frame in H1. intuition congruence.
Qed.

Lemma judge_calls_step t d :
  in_i64 (t_JudgeCalls t) -> t_JudgeCalls (judge_step t d) = t_JudgeCalls t +! when (jd_Called d) 1.
Proof. intros. rewrite <- add_when by done. unfold judge_step. destruct (jd_Called d); repeat (destruct (_ =? _)%string); done. Qed.

Lemma judge_tokens_step t d :
  in_i64 (t_JudgePromptTokens t) ->
  t_JudgePromptTokens (judge_step t d) = t_JudgePromptTokens t +! when (jd_Called d) (jd_PromptTokens d).
Proof. intros. rewrite <- add_when by done. unfold judge_step. destruct (jd_Called d); repeat (destruct (_ =? _)%string); done. Qed.

(** One event, field by field. *)
Lemma event_step_fields t e :
  let t' := event_step t e in
  t_Events t' = t_Events t +! 1 /\ t_TokensIn t' = t_TokensIn t +! TokensIn e /\ t_TokensOut t' = t_TokensOut t +! TokensOut e
  /\ t_CacheHitTokens t' = t_CacheHitTokens t +! CacheHitToken e
  /\ t_l3In t' = (if L3Reuse e then t_l3In t +! TokensIn e else t_l3In t)
  /\ t_l3Out t' = (if L3Reuse e then t_l3Out t +! TokensOut e else t_l3Out t)
  /\ t_l3Hit t' = (if L3Reuse e then t_l3Hit t +! CacheHitToken e else t_l3Hit t)
  /\ t_ByProvider t' = <[Provider e := provider_step e (default no_stats (t_ByProvider t !! Provider e))]> (t_ByProvider t)
  /\ exists t1, t_JudgeCalls t1 = t_JudgeCalls t /\ t_JudgePromptTokens t1 = t_JudgePromptTokens t
       /\ t_JudgeCalls t' = t_JudgeCalls (foldl judge_step t1 (JudgeDecisions e))
       /\ t_JudgePromptTokens t' = t_JudgePromptTokens (foldl judge_step t1 (JudgeDecisions e)).
Proof.
  unfold event_step. cbv zeta.
  set (t1 := if L3Reuse e then _ else _).
  destruct (judges_frame (JudgeDecisions e) t1) as (E1 & E2 & E3 & E4 & _ & E6 & E7 & E8 & E9).
  set (t2 := foldl judge_step t1 (JudgeDecisions e)) in *.
  assert (Hj : t_JudgeCalls t1 = t_JudgeCalls t /\ t_JudgePromptTokens t1 = t_JudgePromptTokens t)
    by (subst t1; by destruct (L3Reuse e)).
  split_and!; [..|exists t1; destruct Hj; split_and!; [done|done|..]]; destruct (L3FalseHit e); simpl;
    rewrite ?E1, ?E2, ?E3, ?E4, ?E6, ?E7, ?E8, ?E9; try done; subst t1; by destruct (L3Reuse e).
Qed.

(** The events of a log, and those that went upstream. *)
Definition events_of (l : list log_line) : list Event :=
  omap (fun x => match x with Line e => Some e | _ => None end) l.
Definition upstream (es : list Event) : list Event := List.filter (fun e => negb (L3Reuse e)) es.

Definition is_long (l : log_line) : bool := match l with Long => true | _ => false end.

Lemma log_scan_spec l t :
  scan l t = if existsb is_long l then Err "usage: scan" else Ok (foldl event_step t (events_of l)).
Proof. revert t. induction l as [|[] l IH]; intros t; simpl; try done; apply IH. Qed.

Lemma zsum_when {A} (p : A -> bool) (w : A -> Z) l : zsum (fun x => when (p x) (w x)) l = zsum w (List.filter p l).
Proof. induction l as [|x l IH]; simpl; [done|]. destruct (p x); simpl; by rewrite IH. Qed.

Lemma zsum_split {A} (p : A -> bool) (w : A -> Z) l :
  zsum w l = zsum w (List.filter p l) + zsum w (List.filter (fun x => negb (p x)) l).
Proof. induction l as [|x l IH]; simpl; [done|]. destruct (p x); simpl; lia. Qed.

Lemma zsum_one {A} (l : list A) : zsum (fun _ => 1) l = Z.of_nat (length l).
Proof. induction l as [|x l IH]; simpl; [done|]. rewrite IH. lia. Qed.

Section Totals.
Context (l : list Event).
Let t := foldl event_step no_totals l.

Ltac field n := apply fold_counter_0; [intros t0 e Ht; destruct (event_step_fields t0 e) as n|done].

Lemma total_events : t_Events t = i64 (Z.of_nat (length l)).
Proof using. rewrite <- zsum_one. field ipattern:((H & _)). exact H. Qed.
Lemma total_in : t_TokensIn t = i64 (zsum TokensIn l).
Proof using. field ipattern:((_ & H & _)). exact H. Qed.
Lemma total_out : t_TokensOut t = i64 (zsum TokensOut l).
Proof using. field ipattern:((_ & _ & H & _)). exact H. Qed.
Lemma total_hit : t_CacheHitTokens t = i64 (zsum CacheHitToken l).
Proof using. field ipattern:((_ & _ & _ & H & _)). exact H. Qed.
Lemma total_l3In : t_l3In t = i64 (zsum TokensIn (List.filter L3Reuse l)).
Proof using. rewrite <- zsum_when. field ipattern:((_ & _ & _ & _ & H & _)). by rewrite H, add_when. Qed.
Lemma total_l3Out : t_l3Out t = i64 (zsum TokensOut (List.filter L3Reuse l)).
Proof using. rewrite <- zsum_when. field ipattern:((_ & _ & _ & _ & _ & H & _)). by rewrite H, add_when. Qed.
Lemma total_l3Hit : t_l3Hit t = i64 (zsum CacheHitToken (List.filter L3Reuse l)).
Proof using. rewrite <- zsum_when. field ipattern:((_ & _ & _ & _ & _ & _ & H & _)). by rewrite H, add_when. Qed.

Definition called_judges : list JudgeDecision := List.filter jd_Called (flat_map JudgeDecisions l).

Lemma judge_totals :
  t_JudgeCalls t = i64 (Z.of_nat (length called_judges))
  /\ t_JudgePromptTokens t = i64 (zsum jd_PromptTokens called_judges).
Proof using.
  assert (Hf : forall (w : JudgeDecision -> Z), zsum w called_judges = zsum (fun e => zsum (fun d => when (jd_Called d) (w d)) (JudgeDecisions e)) l).
  { intros w. unfold called_judges. induction l as [|e es IH]; simpl; [done|].
    by rewrite List.filter_app, zsum_app, zsum_when, IH. }
  rewrite <- zsum_one, !Hf. split.
  - apply fold_counter_0; [|done]. intros t0 e Ht.
    destruct (event_step_fields t0 e) as (_ & _ & _ & _ & _ & _ & _ & _ & t1 & H1 & _ & H2 & _).
    rewrite H2, <- H1. rewrite <- H1 in Ht. by rewrite (fold_counter judge_step t_JudgeCalls _ judge_calls_step).
  - apply fold_counter_0; [|done]. intros t0 e Ht.
    destruct (event_step_fields t0 e) as (_ & _ & _ & _ & _ & _ & _ & _ & t1 & _ & H1 & _ & H2).
    rewrite H2, <- H1. rewrite <- H1 in Ht. by rewrite (fold_counter judge_step t_JudgePromptTokens _ judge_tokens_step).
Qed.
End Totals.

(** The statistics of one endpoint are those of its own events. *)
Definition of_provider (p : string) (es : list Event) : list Event :=
  List.filter (fun e => (Provider e =? p)%string) es.

Lemma provider_totals p l t :
  t_ByProvider (foldl event_step t l) !! p =
    match of_provider p l with
    | [] => t_ByProvider t !! p
    | es => Some (foldl (fun q e => provider_step e q) (default no_stats (t_ByProvider t !! p)) es)
    end.
Proof.
  revert t. induction l as [|e l IH]; intros t; [done|]. simpl. rewrite IH.
  destruct (event_step_fields t e) as (_ & _ & _ & _ & _ & _ & _ & -> & _).
  destruct (String.eqb_spec (Provider e) p) as [->|Hne]; simpl.
  - rewrite lookup_insert_eq. by destruct (of_provider p l).
  - by rewrite lookup_insert_ne.
Qed.

Lemma provider_step_fields e p :
  p_Events (provider_step e p) = p_Events p +! 1
  /\ p_TokensIn (provider_step e p) = (if Exact e then p_TokensIn p +! TokensIn e else p_TokensIn p)
  /\ p_CacheHitTokens (provider_step e p) = (if Exact e then p_CacheHitTokens p +! CacheHitToken e else p_CacheHitTokens p).
Proof. unfold provider_step. by destruct (L3Reuse e), (Exact e). Qed.

(** C15: what a turn costs is what went upstream.  A summary exists unless a line
    exceeds the scanner's buffer; malformed lines count for nothing.  The bill is
    the price of the turns that were not served by verified reuse: their input
    outside the provider's prefix cache, their cached input and their output, all
    in 64-bit arithmetic; a reused turn adds nothing to it, whatever figures it
    carries.  Only judge calls that were made are charged, and an endpoint's
    cache statistics rest on its own exactly metered events. *)
Theorem Summarize_accounts l costMiss costHit :
  match Summarize (Some l) costMiss costHit with
  | Err _ => existsb is_long l = true
  | Ok (t, c) =>
      existsb is_long l = false /\
      let es := events_of l in let up := upstream es in
      t_Events t = i64 (Z.of_nat (length es))
      /\ CostPaidUSD c = (price (i64 (zsum (fun e => (TokensIn e - CacheHitToken e)%Z) up)) costMiss
                          + price (i64 (zsum CacheHitToken up)) costHit + price (i64 (zsum TokensOut up)) costMiss)%f64
      /\ CostNoCacheUSD c = (price (i64 (zsum TokensIn es)) costMiss + price (i64 (zsum TokensOut es)) costMiss)%f64
      /\ t_JudgeCalls t = i64 (Z.of_nat (length (called_judges es)))
      /\ t_JudgePromptTokens t = i64 (zsum jd_PromptTokens (called_judges es))
      /\ forall p, match t_ByProvider t !! p with
         | None => of_provider p es = []
         | Some q => let own := of_provider p es in let exact := List.filter Exact own in
             p_Events q = i64 (Z.of_nat (length own)) /\ p_TokensIn q = i64 (zsum TokensIn exact)
             /\ p_CacheHitTokens q = i64 (zsum CacheHitToken exact)
         end
  end.
Proof.
  unfold Summarize. rewrite log_scan_spec. destruct (existsb is_long l) eqn:El; [done|]. cbn [result_bind]. split; [done|].
  cbv zeta. set (es := events_of l). split; [apply total_events|].
  unfold costs. cbv zeta. cbn [CostPaidUSD CostNoCacheUSD].
  rewrite total_in, total_out, total_hit, total_l3In, total_l3Out, total_l3Hit. split; [|split; [|split; [|split]]].
  - rewrite i64_sub_idemp2, !i64_sub_idemp. unfold upstream. rewrite zsum_sub.
    rewrite (zsum_split L3Reuse TokensIn es), (zsum_split L3Reuse TokensOut es), (zsum_split L3Reuse CacheHitToken es).
    f_equal; [f_equal|]; f_equal; apply (f_equal i64); lia.
  - done.
  - apply judge_totals.
  - apply judge_totals.
  - intros p. rewrite provider_totals. cbn [t_ByProvider no_totals]. rewrite lookup_empty. cbn [default].
    destruct (of_provider p es) as [|e own] eqn:Eo; [done|]. rewrite <- Eo. clear Eo.
    rewrite <- zsum_one, <- !zsum_when. split_and!; apply fold_counter_0; try done; intros q x Hq;
      destruct (provider_step_fields x q) as (H1 & H2 & H3); rewrite ?H1, ?H2, ?H3, ?add_when by done; done.
Qed.
