(* ===== verification/Stream.v ===== *)
(** gateway/sse.go: the aggregator that reads an OpenAI event stream while it is
    relayed.

    [json.Unmarshal] of an event payload is an argument; [None] is its error.
    Lengths are byte counts, far below the 64-bit range. *)

From Stdlib Require Import ZArith Lia Bool Ascii String.
From stdpp Require Import tactics base option list strings.
From S2P Require Import Prelude GoStrings.

#[global] Open Scope Z_scope.

(** ** Lines *)

Definition lf : ascii := ascii_of_nat 10.
Definition cr : ascii := ascii_of_nat 13.
Definition newline : string := String lf "".

(** The complete lines of a text, without their newline, and what follows the
    last one: repeated [ReadString('\n')]. *)
Fixpoint split_lines (s : string) : list string * string :=
  match s with
  | EmptyString => ([], ""%string)
  | String c s =>
      let '(ls, rest) := split_lines s in
      if Ascii.eqb c lf then (""%string :: ls, rest)
      else match ls with
           | [] => ([], String c rest)
           | l :: ls => (String c l :: ls, rest)
           end
  end.

(** [strings.TrimRight(line, "\r\n")]. *)
Fixpoint trim_crlf (s : string) : string :=
  match s with
  | EmptyString => ""
  | String c s =>
      match trim_crlf s with
      | EmptyString => if Ascii.eqb c lf || Ascii.eqb c cr then "" else String c ""
      | t => String c t
      end
  end.

(** ** The aggregator *)

Definition maxSSEAggregateBytes : Z := 2 ^ 20.
Definition maxSSEPendingBytes : Z := maxSSEAggregateBytes.
Definition maxSSELineBytes : Z := 64 * 1024.

(** The fields of a decoded event the aggregator reads.  A choice is its content
    delta and finish reason; the raw usage is empty when absent. *)
Record chunk := mkChunk {
  ck_ID : string;
  ck_Choices : list (string * option string);
  ck_Usage : string;
}.

Record sseAggregator := mkAgg {
  lineBuf : string;
  pending : list string;
  pendingBytes : Z;
  content : string;
  overflow : bool;
  done_ : bool;
  sawUsage : bool;
  usageRaw : string;
  eventID : string;
  limit : Z;
  lineMax : Z;
}.
#[export] Instance sseAggregator_eta : Eta sseAggregator := fun r =>
  mkAgg (lineBuf r) (pending r) (pendingBytes r) (content r) (overflow r) (done_ r) (sawUsage r) (usageRaw r)
    (eventID r) (limit r) (lineMax r).

Definition newSSEAggregator (limit : Z) : sseAggregator :=
  mkAgg "" [] 0 "" false false false "" "" limit maxSSELineBytes.

Section Aggregator.
Context (unmarshal : string -> option chunk).

(** A decoded event: the first identity, the last usage, then the first choice. *)
Definition note_id (evt : chunk) (a : sseAggregator) : sseAggregator :=
  if (eventID a =? "")%string && negb (ck_ID evt =? "")%string then a <| eventID := ck_ID evt |> else a.

Definition has_usage (evt : chunk) : bool := (0 <? slen (ck_Usage evt)) && negb (ck_Usage evt =? "null")%string.

Definition note_usage (evt : chunk) (a : sseAggregator) : sseAggregator :=
  if has_usage evt then a <| sawUsage := true |> <| usageRaw := ck_Usage evt |> else a.

Definition note_finish (finish : option string) (a : sseAggregator) : sseAggregator :=
  if negb (default "" finish =? "")%string then a <| done_ := true |> else a.

Definition take_delta (delta : string) (a : sseAggregator) : sseAggregator :=
  if overflow a then a
  else if (delta =? "")%string then a
  else if limit a <? slen (content a) + slen delta then a <| overflow := true |>
  else a <| content ::= fun c => c +:+ delta |>.

Definition take_event (evt : chunk) (a : sseAggregator) : sseAggregator :=
  let a := note_usage evt (note_id evt a) in
  match ck_Choices evt with
  | [] => a
  | (delta, finish) :: _ => take_delta delta (note_finish finish a)
  end.

Definition take_payload (payload : string) (a : sseAggregator) : sseAggregator :=
  if (payload =? "[DONE]")%string then a <| done_ := true |> else
  match unmarshal payload with
  | None => a
  | Some evt => take_event evt a
  end.

Definition flushEvent (a : sseAggregator) : sseAggregator :=
  match pending a with
  | [] => a
  | ps => take_payload (join newline ps) (a <| pending := [] |> <| pendingBytes := 0 |>)
  end.

Definition handleLine (line : string) (a : sseAggregator) : sseAggregator :=
  if (trim_space line =? "")%string then flushEvent a
  else if has_prefix line "data:" then
    let payload := trim_prefix (trim_prefix line "data:") " " in
    let additional := slen payload + (match pending a with [] => 0 | _ => 1 end) in
    if maxSSEPendingBytes <? pendingBytes a + additional
    then a <| pending := [] |> <| pendingBytes := 0 |> <| overflow := true |>
    else a <| pending ::= fun l => l ++ [payload] |> <| pendingBytes ::= Z.add additional |>
  else a.

(** The loop of [Feed] over the complete lines, leaving [rest] in the buffer. *)
Fixpoint feed_lines (ls : list string) (rest : string) (a : sseAggregator) : sseAggregator :=
  match ls with
  | [] => a <| lineBuf := rest |>
  | l :: ls =>
      let a := handleLine (trim_crlf l) a in
      if overflow a then a <| lineBuf := ""%string |> else feed_lines ls rest a
  end.

Definition Feed (p : string) (a : sseAggregator) : sseAggregator :=
  if overflow a then a
  else if lineMax a <? slen (lineBuf a) + slen p then a <| overflow := true |> <| lineBuf := ""%string |>
  else let '(ls, rest) := split_lines (lineBuf a +:+ p) in feed_lines ls rest a.

Definition Complete (a : sseAggregator) : bool := done_ a && negb (overflow a).
Definition Overflowed (a : sseAggregator) : bool := overflow a.

(** ** The reference: the events of a text *)

(** The payload of a [data:] line. *)
Definition data_of (line : string) : option string :=
  if has_prefix line "data:" then Some (trim_prefix (trim_prefix line "data:") " ") else None.

(** The payloads of the events that a blank line ends; [pend] holds the data
    lines of the one being read. *)
Fixpoint events (pend : list string) (ls : list string) : list string :=
  match ls with
  | [] => []
  | l :: ls =>
      let l := trim_crlf l in
      if (trim_space l =? "")%string then
        match pend with [] => events [] ls | _ => join newline pend :: events [] ls end
      else match data_of l with
           | Some d => events (pend ++ [d]) ls
           | None => events pend ls
           end
  end.

Definition events_of (s : string) : list string := events [] (split_lines s).1.

(** The content an event carries. *)
Definition delta_of (payload : string) : string :=
  if (payload =? "[DONE]")%string then "" else
  match unmarshal payload with
  | Some evt => match ck_Choices evt with (d, _) :: _ => d | [] => "" end
  | None => ""
  end.

(** An event that ends the answer. *)
Definition finishes (payload : string) : bool :=
  (payload =? "[DONE]")%string ||
  match unmarshal payload with
  | Some evt => match ck_Choices evt with (_, Some f) :: _ => negb (f =? "")%string | _ => false end
  | None => false
  end.

(** The identity an event carries. *)
Definition id_of (payload : string) : string :=
  if (payload =? "[DONE]")%string then "" else
  match unmarshal payload with Some evt => ck_ID evt | None => "" end.

(** The raw usage an event carries. *)
Definition usage_of (payload : string) : option string :=
  if (payload =? "[DONE]")%string then None else
  match unmarshal payload with
  | Some evt => if has_usage evt then Some (ck_Usage evt) else None
  | None => None
  end.

(** Every event fits the pending buffer while it is being read. *)
Fixpoint pending_fits (pend : list string) (ls : list string) : bool :=
  match ls with
  | [] => true
  | l :: ls =>
      let l := trim_crlf l in
      if (trim_space l =? "")%string then pending_fits [] ls
      else match data_of l with
           | Some d => (slen (join newline (pend ++ [d])) <=? maxSSEPendingBytes) && pending_fits (pend ++ [d]) ls
           | None => pending_fits pend ls
           end
  end.

Definition text_of (evs : list string) : string := concat_strings (map delta_of evs).

(** The aggregator over a whole text. *)
Definition parse (a : sseAggregator) (s : string) : sseAggregator :=
  let '(ls, rest) := split_lines s in feed_lines ls rest a.
Definition feed_all (ps : list string) (a : sseAggregator) : sseAggregator := foldl (fun a p => Feed p a) a ps.
End Aggregator.

(** ** Lines of a concatenation *)

Lemma slen_cons c s : slen (String c s) = 1 + slen s.
Proof. unfold slen. simpl. lia. Qed.

Lemma split_lines_app s t :
  split_lines (s +:+ t) =
    let '(ls, r) := split_lines s in let '(ls2, r2) := split_lines (r +:+ t) in (ls ++ ls2, r2).
Proof.
  induction s as [|c s IH]; [rewrite str_nil_l; simpl; rewrite str_nil_l; by destruct (split_lines t)|].
  rewrite str_cons. simpl. rewrite IH. destruct (split_lines s) as [ls r].
  destruct (Ascii.eqb c lf) eqn:E; [by destruct (split_lines (r +:+ t))|].
  destruct ls as [|l ls]; simpl; [|by destruct (split_lines (r +:+ t))].
  rewrite ?str_cons. simpl. rewrite E. by destruct (split_lines (r +:+ t)) as [[|l ls2] r2].
Qed.

(** No newline is left after the last line. *)
Lemma split_lines_rest s : split_lines (split_lines s).2 = ([], (split_lines s).2).
Proof.
  induction s as [|c s IH]; simpl; [done|]. destruct (split_lines s) as [ls r]. simpl in *.
  destruct (Ascii.eqb c lf) eqn:E; simpl; [done|]. destruct ls; simpl; [|done]. by rewrite E, IH.
Qed.

Lemma split_lines_rest_len s : slen (split_lines s).2 <= slen s.
Proof.
  induction s as [|c s IH]; simpl; [lia|]. destruct (split_lines s) as [ls r]. rewrite slen_cons. simpl in *.
  destruct (Ascii.eqb c lf); simpl; [lia|]. destruct ls; simpl; [rewrite slen_cons|]; lia.
Qed.

Definition all_lines (s : string) : list string := (split_lines s).1 ++ [(split_lines s).2].

(** The first line of a split text. *)
Definition first_line (p : list string * string) : string := match p.1 with l :: _ => l | [] => p.2 end.

Lemma first_line_elem s : first_line (split_lines s) ∈ all_lines s.
Proof. unfold all_lines, first_line. destruct (split_lines s) as [[|l ls] r]; simpl; left. Qed.

Lemma rest_in_first_line r t : split_lines r = ([], r) -> slen r <= slen (first_line (split_lines (r +:+ t))).
Proof.
  induction r as [|c r IH]; intros Hr; [apply slen_nonneg|]. rewrite str_cons. simpl in *.
  destruct (split_lines r) as [ls0 r0]. destruct (Ascii.eqb c lf) eqn:E; [done|].
  destruct ls0; [|done]. injection Hr as ->. specialize (IH eq_refl). rewrite slen_cons.
  destruct (split_lines (r +:+ t)) as [[|l1 ls1] r1]; unfold first_line in *; simpl in *; rewrite slen_cons; lia.
Qed.

(** What is buffered after a prefix of a text is the beginning of one of its lines. *)
Lemma rest_prefix_of_line s t : exists l, l ∈ all_lines (s +:+ t) /\ slen (split_lines s).2 <= slen l.
Proof.
  unfold all_lines. rewrite split_lines_app. pose proof (split_lines_rest s) as Hr.
  destruct (split_lines s) as [ls r]. simpl in *.
  exists (first_line (split_lines (r +:+ t))). split; [|by apply rest_in_first_line].
  pose proof (first_line_elem (r +:+ t)) as Hf. unfold all_lines in Hf.
  destruct (split_lines (r +:+ t)) as [ls2 r2]. simpl in *. rewrite <- app_assoc, elem_of_app. by right.
Qed.

(** ** Chunking *)

Section AggregatorFacts.
Context (unmarshal : string -> option chunk).
Abbreviation handleLine := (handleLine unmarshal).
Abbreviation feed_lines := (feed_lines unmarshal).
Abbreviation Feed := (Feed unmarshal).
Abbreviation parse := (parse unmarshal).
Abbreviation feed_all := (feed_all unmarshal).

(** A field of the aggregator no event touches: setting it commutes with reading. *)
Lemma take_event_buf evt a x : take_event evt (a <| lineBuf := x |>) = take_event evt a <| lineBuf := x |>.
Proof.
  unfold take_event.
  assert (H1 : forall a, note_id evt (a <| lineBuf := x |>) = note_id evt a <| lineBuf := x |>).
  { intros b. unfold note_id. simpl. by destruct (_ && _). }
  assert (H2 : forall a, note_usage evt (a <| lineBuf := x |>) = note_usage evt a <| lineBuf := x |>).
  { intros b. unfold note_usage. by destruct (has_usage evt). }
  rewrite H1, H2. cbv zeta. destruct (ck_Choices evt) as [|[d f] cs]; [done|].
  generalize (note_usage evt (note_id evt a)). clear H1 H2. intros b.
  assert (H3 : note_finish f (b <| lineBuf := x |>) = note_finish f b <| lineBuf := x |>).
  { unfold note_finish. by destruct (negb _). }
  rewrite H3. generalize (note_finish f b). intros []. unfold take_delta. simpl.
  destruct overflow0; [done|]. destruct (d =? "")%string; [done|]. by destruct (_ <? _).
Qed.

Lemma take_payload_buf p a x : take_payload unmarshal p (a <| lineBuf := x |>) = take_payload unmarshal p a <| lineBuf := x |>.
Proof.
  unfold take_payload. destruct (_ =? _)%string; [done|]. destruct (unmarshal p); [apply take_event_buf|done].
Qed.

Lemma handleLine_buf l a x : handleLine l (a <| lineBuf := x |>) = handleLine l a <| lineBuf := x |>.
Proof.
  unfold Stream.handleLine, flushEvent. destruct a as [b ps]. simpl. destruct (trim_space l =? "")%string.
  - destruct ps as [|p ps]; [done|].
    change (mkAgg x [] 0 content0 overflow0 done_0 sawUsage0 usageRaw0 eventID0 limit0 lineMax0)
      with (mkAgg b [] 0 content0 overflow0 done_0 sawUsage0 usageRaw0 eventID0 limit0 lineMax0 <| lineBuf := x |>).
    by rewrite take_payload_buf.
  - destruct (has_prefix l "data:"); [|done]. by destruct (_ <? _).
Qed.

Lemma feed_lines_buf ls rest a x : feed_lines ls rest (a <| lineBuf := x |>) = feed_lines ls rest a.
Proof.
  revert a x. induction ls as [|l ls IH]; intros a x; [done|]. cbn [Stream.feed_lines].
  rewrite handleLine_buf. cbn zeta. simpl overflow. destruct (overflow _); [done|]. apply IH.
Qed.

Lemma feed_lines_app ls1 ls2 x rest a :
  overflow a = false ->
  feed_lines (ls1 ++ ls2) rest a =
    let a1 := feed_lines ls1 x a in if overflow a1 then a1 else feed_lines ls2 rest a1.
Proof.
  revert a. induction ls1 as [|l ls1 IH]; intros a Ha; cbn [app Stream.feed_lines]; cbv zeta.
  - change (overflow (a <| lineBuf := x |>)) with (overflow a). rewrite Ha. symmetry. apply feed_lines_buf.
  - destruct (overflow (handleLine (trim_crlf l) a)) eqn:E; simpl; [by rewrite ?E|by apply IH].
Qed.

Lemma feed_lines_rest ls rest a : overflow a = false ->
  lineBuf (feed_lines ls rest a) = if overflow (feed_lines ls rest a) then "" else rest.
Proof.
  revert a. induction ls as [|l ls IH]; intros a Ha; simpl; [by rewrite Ha|].
  destruct (overflow (handleLine _ a)) eqn:E; simpl; [by rewrite ?E|by apply IH].
Qed.

Lemma take_event_bounds evt a :
  let a' := take_event evt a in
  lineMax a' = lineMax a /\ limit a' = limit a /\ pending a' = pending a /\ pendingBytes a' = pendingBytes a.
Proof.
  set (same := fun a' b => lineMax a' = lineMax b /\ limit a' = limit b /\ pending a' = pending b /\ pendingBytes a' = pendingBytes b).
  assert (Ht : forall x y z, same x y -> same y z -> same x z) by (unfold same; intuition congruence).
  assert (H1 : forall b, same (note_id evt b) b) by (intros b; unfold note_id; by destruct (_ && _)).
  assert (H2 : forall b, same (note_usage evt b) b) by (intros b; unfold note_usage; by destruct (has_usage evt)).
  assert (H3 : forall f b, same (note_finish f b) b) by (intros f b; unfold note_finish; by destruct (negb _)).
  assert (H4 : forall d b, same (take_delta d b) b).
  { intros d b. unfold take_delta. destruct (overflow b); [done|]. destruct (_ =? _)%string; [done|]. by destruct (_ <? _). }
  change (same (take_event evt a) a). unfold take_event. cbv zeta. destruct (ck_Choices evt) as [|[d f] cs]; eauto.
Qed.

Lemma handleLine_max l a : lineMax (handleLine l a) = lineMax a /\ limit (handleLine l a) = limit a.
Proof.
  unfold Stream.handleLine, flushEvent. destruct (trim_space l =? "")%string.
  - destruct (pending a) as [|p ps]; [done|]. unfold take_payload. destruct (_ =? _)%string; [done|].
    destruct (unmarshal _) as [evt|]; [|done]. destruct (take_event_bounds evt (a <| pending := [] |> <| pendingBytes := 0 |>)) as (-> & -> & _). done.
  - destruct (has_prefix l "data:"); [|done]. by destruct (_ <? _).
Qed.

Lemma feed_lines_max ls rest a : lineMax (feed_lines ls rest a) = lineMax a /\ limit (feed_lines ls rest a) = limit a.
Proof.
  revert a. induction ls as [|l ls IH]; intros a; simpl; [done|].
  pose proof (handleLine_max (trim_crlf l) a) as [H1 H2]. destruct (overflow _); simpl; [by rewrite H1, H2|].
  by rewrite <- H1, <- H2.
Qed.

(** One more piece, when its line bound holds. *)
Lemma Feed_parse a s p :
  overflow a = false -> slen (split_lines s).2 + slen p <= lineMax a ->
  Feed p (parse a s) = parse a (s +:+ p).
Proof.
  intros Ha Hb. unfold Stream.parse. rewrite split_lines_app. destruct (split_lines s) as [ls r]. simpl in Hb.
  pose proof (feed_lines_rest ls r a Ha) as Hr. destruct (feed_lines_max ls r a) as [Hm _].
  unfold Stream.Feed. destruct (overflow (feed_lines ls r a)) eqn:E.
  - destruct (split_lines (r +:+ p)) as [ls2 r2]. rewrite (feed_lines_app ls ls2 r r2 a Ha). cbv zeta. by rewrite E.
  - rewrite Hr, Hm, (proj2 (Z.ltb_ge _ _)) by lia. destruct (split_lines (r +:+ p)) as [ls2 r2].
    rewrite (feed_lines_app ls ls2 r r2 a Ha). cbv zeta. by rewrite E.
Qed.

Definition short_lines (n : Z) (s : string) : Prop := Forall (fun l => slen l <= n) (all_lines s).

Lemma feed_all_parse ps a L P :
  overflow a = false -> lineBuf a = ""%string -> L + P <= lineMax a ->
  Forall (fun p => slen p <= P) ps -> short_lines L (concat_strings ps) ->
  feed_all ps a = parse a (concat_strings ps).
Proof.
  intros Ha Hbuf HLP Hps Hs.
  assert (H : forall qs s, Forall (fun p => slen p <= P) qs -> short_lines L (s +:+ concat_strings qs) ->
    feed_all qs (parse a s) = parse a (s +:+ concat_strings qs)).
  { clear Hps Hs. induction qs as [|q qs IH]; intros s Hqs Hs.
    - cbn. by rewrite string_app_nil.
    - inversion Hqs; subst. cbn [Stream.feed_all foldl]. destruct (rest_prefix_of_line s (concat_strings (q :: qs))) as (l & Hl & Hle).
      unfold short_lines in Hs. rewrite Forall_forall in Hs. specialize (Hs l Hl) as Hl'.
      rewrite Feed_parse by (done || lia).
      change (concat_strings (q :: qs)) with (q +:+ concat_strings qs) in *. rewrite <- string_app_assoc in *.
      apply IH; [done|]. by apply Forall_forall. }
  assert (E : parse a "" = a) by (destruct a; simpl in *; by subst).
  specialize (H ps "" Hps Hs). rewrite E in H. exact H.
Qed.

(** Pieces that end with a line: the line bound is that of each piece alone. *)
Definition whole (p : string) : Prop := (split_lines p).2 = ""%string.

Lemma whole_app s t : whole s -> whole t -> whole (s +:+ t).
Proof.
  unfold whole. rewrite split_lines_app. destruct (split_lines s) as [ls r]. simpl. intros -> Ht.
  rewrite str_nil_l. by destruct (split_lines t).
Qed.

Lemma whole_concat ps : Forall whole ps -> whole (concat_strings ps).
Proof. induction 1 as [|p ps Hp _ IH]; [done|]. by apply whole_app. Qed.

Lemma feed_all_app ps qs a : feed_all (ps ++ qs) a = feed_all qs (feed_all ps a).
Proof. apply foldl_app. Qed.

Lemma feed_all_whole ps q a :
  overflow a = false -> lineBuf a = ""%string -> Forall whole ps ->
  Forall (fun p => slen p <= lineMax a) (ps ++ [q]) ->
  feed_all (ps ++ [q]) a = parse a (concat_strings (ps ++ [q])).
Proof.
  intros Ha Hbuf Hw Hs.
  assert (Hps : feed_all ps a = parse a (concat_strings ps)).
  { apply Forall_app in Hs as [Hs _]. induction ps as [|p ps IH] using rev_ind.
    - cbn. destruct a. simpl in *. by subst.
    - apply Forall_app in Hw as [Hw Hp]. apply Forall_app in Hs as [Hs Hq]. rewrite feed_all_app, IH by done.
      rewrite concat_strings_app. cbn [Stream.feed_all foldl]. unfold Stream.feed_all. cbn [foldl].
      rewrite Forall_singleton in Hq. pose proof (whole_concat ps Hw) as Hr. unfold whole in Hr.
      rewrite Feed_parse; [|done|rewrite Hr; change (slen "") with 0; lia].
      change (concat_strings [p]) with (p +:+ ""). by rewrite string_app_nil. }
  rewrite feed_all_app, Hps, concat_strings_app. unfold Stream.feed_all. cbn [foldl].
  apply Forall_app in Hs as [_ Hq]. rewrite Forall_singleton in Hq.
  pose proof (whole_concat ps Hw) as Hr. unfold whole in Hr.
  rewrite Feed_parse; [|done|rewrite Hr; change (slen "") with 0; lia].
  change (concat_strings [q]) with (q +:+ ""). by rewrite string_app_nil.
Qed.

(** ** What is read *)


(** The events a buffered one and some lines make, with what they amount to. *)
Record reads (a a' : sseAggregator) (evs : list string) : Prop := {
  rd_content : content a' = content a +:+ text_of unmarshal evs;
  rd_done : done_ a' = done_ a || existsb (finishes unmarshal) evs;
  rd_saw : sawUsage a' = sawUsage a || negb (bool_decide (omap (usage_of unmarshal) evs = []));
  rd_usage : usageRaw a' = default (usageRaw a) (list.last (omap (usage_of unmarshal) evs));
  rd_id : eventID a' = foldl (fun i p => if (i =? "")%string then id_of unmarshal p else i) (eventID a) evs;
}.

Lemma reads_trans a1 a2 a3 e1 e2 : reads a1 a2 e1 -> reads a2 a3 e2 -> reads a1 a3 (e1 ++ e2).
Proof.
  intros [C1 D1 S1 U1 I1] [C2 D2 S2 U2 I2]. split.
  - rewrite C2, C1. unfold text_of. by rewrite map_app, concat_strings_app, string_app_assoc.
  - by rewrite D2, D1, existsb_app, orb_assoc.
  - rewrite S2, S1, omap_app, <- orb_assoc. f_equal. by destruct (omap _ e1), (omap _ e2).
  - rewrite U2, U1, omap_app, last_app. by destruct (list.last (omap _ e2)).
  - by rewrite I2, I1, foldl_app.
Qed.

Lemma reads_nil a a' :
  content a' = content a -> done_ a' = done_ a -> sawUsage a' = sawUsage a -> usageRaw a' = usageRaw a ->
  eventID a' = eventID a -> reads a a' [].
Proof.
  intros C D S U I. split; simpl; rewrite ?orb_false_r; try done. cbn. by rewrite string_app_nil.
Qed.

Lemma note_id_set evt a : note_id evt a = a <| eventID ::= fun i => if (i =? "")%string then ck_ID evt else i |>.
Proof.
  unfold note_id. destruct a. simpl. destruct (String.eqb_spec eventID0 "") as [->|]; simpl; [|done].
  by destruct (String.eqb_spec (ck_ID evt) "") as [->|].
Qed.

Lemma note_usage_set evt a :
  note_usage evt a = a <| sawUsage ::= fun b => b || has_usage evt |> <| usageRaw ::= fun u => if has_usage evt then ck_Usage evt else u |>.
Proof. unfold note_usage. destruct a. simpl. destruct (has_usage evt); by rewrite ?orb_true_r, ?orb_false_r. Qed.

Lemma note_finish_set f a : note_finish f a = a <| done_ ::= fun b => b || negb (default "" f =? "")%string |>.
Proof. unfold note_finish. destruct a. simpl. destruct (negb _); by rewrite ?orb_true_r, ?orb_false_r. Qed.

(** Whether an event's content still fits. *)
Definition delta_fits (d : string) (a : sseAggregator) : bool :=
  (d =? "")%string || (slen (content a) + slen d <=? limit a).

Lemma take_delta_set d a : overflow a = false ->
  take_delta d a = if delta_fits d a then a <| content ::= fun c => c +:+ d |> else a <| overflow := true |>.
Proof.
  intros Ha. unfold take_delta, delta_fits. rewrite Ha. destruct (String.eqb_spec d "") as [->|]; simpl.
  - destruct a. simpl. by rewrite string_app_nil.
  - destruct (Z.ltb_spec (limit a) (slen (content a) + slen d)), (Z.leb_spec (slen (content a) + slen d) (limit a)); done || lia.
Qed.

Lemma reads_single a a' p :
  content a' = content a +:+ delta_of unmarshal p -> done_ a' = done_ a || finishes unmarshal p ->
  sawUsage a' = sawUsage a || bool_decide (is_Some (usage_of unmarshal p)) ->
  usageRaw a' = default (usageRaw a) (usage_of unmarshal p) ->
  eventID a' = (if (eventID a =? "")%string then id_of unmarshal p else eventID a) -> reads a a' [p].
Proof.
  intros C D S U I. split; cbn; [|by rewrite orb_false_r| | |done].
  - by rewrite string_app_nil.
  - rewrite S. f_equal. by destruct (usage_of unmarshal p).
  - rewrite U. by destruct (usage_of unmarshal p).
Qed.

(** One event: it is read as it stands, or its content crosses the bound. *)
Lemma take_payload_reads p a :
  overflow a = false ->
  let a' := take_payload unmarshal p a in
  pending a' = pending a /\ pendingBytes a' = pendingBytes a /\ limit a' = limit a
  /\ overflow a' = negb (delta_fits (delta_of unmarshal p) a)
  /\ (overflow a' = true -> content a' = content a)
  /\ (overflow a' = false -> reads a a' [p]).
Proof.
  intros Ha a'.
  assert (Hf : pending a' = pending a /\ pendingBytes a' = pendingBytes a /\ limit a' = limit a).
  { unfold a', take_payload. destruct (_ =? _)%string; [done|]. destruct (unmarshal p) as [evt|]; [|done].
    destruct (take_event_bounds evt a) as (_ & ? & ? & ?). done. }
  destruct Hf as (Hp & Hb & Hl). split; [done|]. split; [done|]. split; [done|]. clear Hp Hb Hl.
  assert (Hskip : id_of unmarshal p = ""%string -> usage_of unmarshal p = None -> finishes unmarshal p = false ->
    delta_of unmarshal p = ""%string -> overflow a = negb (delta_fits (delta_of unmarshal p) a) 
    /\ (overflow a = true -> content a = content a) /\ (overflow a = false -> reads a a [p])).
  { intros Hi Hu Hfin Hd. rewrite Hd. split; [done|]. split; [done|]. intros _. apply reads_single; rewrite ?Hi, ?Hu, ?Hfin, ?Hd; simpl;
      rewrite ?string_app_nil, ?orb_false_r; try done. by destruct (String.eqb_spec (eventID a) ""). }
  unfold a', take_payload. destruct (p =? "[DONE]")%string eqn:Ep.
  { unfold delta_of. rewrite Ep. split; [done|]. split; [done|]. intros _. apply reads_single; unfold delta_of, finishes, usage_of, id_of;
      rewrite Ep; simpl; rewrite ?string_app_nil, ?orb_true_r, ?orb_false_r; try done.
    by destruct (String.eqb_spec (eventID a) ""). }
  destruct (unmarshal p) as [evt|] eqn:Eu;
    [|apply Hskip; unfold delta_of, finishes, usage_of, id_of; by rewrite Ep, Eu].
  unfold take_event. rewrite note_id_set, note_usage_set. cbv zeta.
  set (a1 := a <| eventID ::= _ |> <| sawUsage ::= _ |> <| usageRaw ::= _ |>).
  assert (Hd : delta_of unmarshal p = match ck_Choices evt with (d, _) :: _ => d | [] => "" end)
    by (unfold delta_of; by rewrite Ep, Eu).
  assert (Hfin : finishes unmarshal p = match ck_Choices evt with (_, f) :: _ => negb (default "" f =? "")%string | [] => false end).
  { unfold finishes. rewrite Ep, Eu. simpl. by destruct (ck_Choices evt) as [|[? []] ?]. }
  assert (Hu : usage_of unmarshal p = if has_usage evt then Some (ck_Usage evt) else None)
    by (unfold usage_of; by rewrite Ep, Eu).
  assert (Hi : id_of unmarshal p = ck_ID evt) by (unfold id_of; by rewrite Ep, Eu).
  destruct (ck_Choices evt) as [|[d f] cs].
  - rewrite Hd. split; [done|]. split; [done|]. intros _. apply reads_single; rewrite ?Hd, ?Hfin, ?Hu, ?Hi; subst a1; simpl;
      rewrite ?string_app_nil, ?orb_false_r; try done; by destruct (has_usage evt).
  - rewrite note_finish_set, take_delta_set by done. rewrite Hd.
    change (delta_fits d (a1 <| done_ ::= _ |>)) with (delta_fits d a).
    destruct (delta_fits d a); [|split; [done|]; split; [done|]; intros Hx; discriminate Hx].
    split; [done|]. split; [intros Hx; simpl in Hx; congruence|]. intros _.
    apply reads_single; rewrite ?Hd, ?Hfin, ?Hu, ?Hi; subst a1; simpl; try done; by destruct (has_usage evt).
Qed.

Lemma join_snoc sep (l : list string) d :
  join sep (l ++ [d]) = match l with [] => d | _ => join sep l +:+ sep +:+ d end.
Proof.
  unfold join. destruct l as [|x l]; [done|]. revert x. induction l as [|y l IH]; intros x; [done|].
  cbn [app] in *. change (String.concat sep (x :: y :: l ++ [d])) with (x +:+ sep +:+ String.concat sep (y :: l ++ [d])).
  rewrite IH. change (String.concat sep (x :: y :: l)) with (x +:+ sep +:+ String.concat sep (y :: l)).
  by rewrite !string_app_assoc.
Qed.

Lemma slen_join_snoc (l : list string) d :
  slen (join newline (l ++ [d])) = slen (join newline l) + (slen d + match l with [] => 0 | _ => 1 end).
Proof.
  rewrite join_snoc. destruct l as [|x l]; [change (slen (join newline [])) with 0; lia|].
  rewrite !slen_app. change (slen newline) with 1. lia.
Qed.

(** What the aggregator maintains between lines. *)
Record steady (a : sseAggregator) : Prop := {
  st_overflow : overflow a = false;
  st_bytes : pendingBytes a = slen (join newline (pending a));
  st_content : slen (content a) <= limit a;
}.

Lemma text_of_cons p evs : text_of unmarshal (p :: evs) = delta_of unmarshal p +:+ text_of unmarshal evs.
Proof. done. Qed.

Lemma delta_fits_spec d a : slen (content a) <= limit a -> delta_fits d a = (slen (content a) + slen d <=? limit a).
Proof.
  intros H. unfold delta_fits. destruct (String.eqb_spec d "") as [->|]; simpl; [|done].
  symmetry. apply Z.leb_le. change (slen "") with 0. lia.
Qed.

Lemma feed_lines_reads ls rest a :
  steady a ->
  let a' := feed_lines ls rest a in let evs := events (pending a) ls in
  overflow a' = negb (pending_fits (pending a) ls && (slen (content a) + slen (text_of unmarshal evs) <=? limit a))
  /\ (overflow a' = false -> reads a a' evs).
Proof.
  revert a. induction ls as [|l ls IH]; intros a [Ho Hb Hc]; cbn [Stream.feed_lines events pending_fits]; cbv zeta.
  { change (slen (text_of unmarshal [])) with 0. rewrite (proj2 (Z.leb_le _ _)) by lia. split; [done|].
    intros _. by apply reads_nil. }
  unfold Stream.handleLine, flushEvent, data_of. set (t := trim_crlf l). destruct (trim_space t =? "")%string.
  - destruct (pending a) as [|p ps] eqn:Ep.
    { rewrite Ho. specialize (IH a). rewrite Ep in IH. apply IH. split; [done|by rewrite Ep|done]. }
    set (a0 := a <| pending := [] |> <| pendingBytes := 0 |>). set (q := join newline (p :: ps)).
    destruct (take_payload_reads q a0 Ho) as (Hp1 & Hb1 & Hl1 & Ho1 & _ & Hr1).
    rewrite text_of_cons, slen_app. rewrite delta_fits_spec in Ho1 by done. rewrite Ho1.
    pose proof (slen_nonneg (text_of unmarshal (events [] ls))).
    change (content a0) with (content a) in *. change (limit a0) with (limit a) in *.
    destruct (Z.leb_spec (slen (content a) + slen (delta_of unmarshal q)) (limit a)) as [Hle|Hgt]; cbn [negb] in *.
    + specialize (Hr1 Ho1). pose proof (rd_content _ _ _ Hr1) as Hcont.
      change (content a0) with (content a) in Hcont. rewrite text_of_cons in Hcont.
      change (text_of unmarshal []) with ""%string in Hcont. rewrite string_app_nil in Hcont.
      destruct (IH (take_payload unmarshal q a0)) as [IHo IHr].
      { split; [done|by rewrite Hp1, Hb1|]. rewrite Hcont, slen_app, Hl1. done. }
      change (pending a0) with ([] : list string) in Hp1. rewrite Hp1, Hcont, slen_app, Hl1, <- Z.add_assoc in IHo.
      split; [done|]. intros Hf. rewrite Hp1 in IHr.
      assert (Hr2 : reads a (take_payload unmarshal q a0) [q]) by (destruct Hr1; by split).
      exact (reads_trans _ _ _ [q] _ Hr2 (IHr Hf)).
    + simpl. rewrite Ho1. split; [|done]. symmetry. apply negb_true_iff, andb_false_intro2, Z.leb_gt. lia.
  - destruct (has_prefix t "data:"); [|rewrite Ho; by apply IH].
    set (d := trim_prefix _ " "). rewrite slen_join_snoc, <- Hb.
    destruct (Z.ltb_spec maxSSEPendingBytes (pendingBytes a + (slen d + match pending a with [] => 0 | _ => 1 end))) as [Hgt|Hle].
    + rewrite (proj2 (Z.leb_gt _ _)) by lia. done.
    + rewrite (proj2 (Z.leb_le _ _)) by lia. cbn [andb].
      change (overflow (a <| pending ::= _ |> <| pendingBytes ::= _ |>)) with (overflow a). rewrite Ho.
      set (a1 := a <| pending ::= _ |> <| pendingBytes ::= _ |>).
      destruct (IH a1) as [IHo IHr]; [split; [done| |done]|].
      { subst a1. simpl. rewrite slen_join_snoc, <- Hb. lia. }
      split; [exact IHo|]. intros Hf. destruct (IHr Hf) as [C D S U I]. by split.
Qed.

(** ** Bounds *)

Record bounded (a : sseAggregator) : Prop := {
  bd_line : slen (lineBuf a) <= lineMax a;
  bd_bytes : pendingBytes a = slen (join newline (pending a));
  bd_pending : pendingBytes a <= maxSSEPendingBytes;
  bd_content : slen (content a) <= limit a;
}.

Lemma handleLine_bounded l a : overflow a = false -> bounded a -> bounded (handleLine l a).
Proof.
  intros Ho [Hl Hb Hp Hc]. unfold Stream.handleLine, flushEvent. destruct (trim_space l =? "")%string.
  - destruct (pending a) as [|p ps] eqn:Ep; [split; by rewrite ?Ep|].
    set (a0 := a <| pending := [] |> <| pendingBytes := 0 |>). set (q := join newline (p :: ps)).
    destruct (take_payload_reads q a0 Ho) as (Hp1 & Hb1 & Hl1 & Ho1 & Hk & Hr).
    split; rewrite ?Hp1, ?Hb1, ?Hl1; try done.
    + change (take_payload unmarshal q a0) with (take_payload unmarshal q (a0 <| lineBuf := lineBuf a |>)).
      rewrite take_payload_buf. simpl. pose proof (handleLine_max l a) as [Hm _].
      assert (Hm' : lineMax (take_payload unmarshal q a0) = lineMax a); [|by rewrite Hm'].
      unfold take_payload. destruct (_ =? _)%string; [done|]. destruct (unmarshal q) as [evt|]; [|done].
      by destruct (take_event_bounds evt a0) as (-> & _).
    + destruct (overflow (take_payload unmarshal q a0)) eqn:E; [by rewrite Hk|].
      rewrite (rd_content _ _ _ (Hr eq_refl)), text_of_cons. change (text_of unmarshal []) with ""%string.
      rewrite string_app_nil, slen_app. symmetry in Ho1. apply negb_false_iff in Ho1.
      rewrite delta_fits_spec in Ho1 by done. by apply Z.leb_le in Ho1.
  - destruct (has_prefix l "data:"); [|by split].
    destruct (Z.ltb_spec maxSSEPendingBytes (pendingBytes a + (slen (trim_prefix (trim_prefix l "data:") " ") + match pending a with [] => 0 | _ => 1 end))).
    + by split.
    + split; simpl; rewrite ?slen_join_snoc; lia || done.
Qed.

Lemma feed_lines_bounded ls rest a :
  overflow a = false -> slen rest <= lineMax a -> bounded a -> bounded (feed_lines ls rest a).
Proof.
  revert a. induction ls as [|l ls IH]; intros a Ho Hr Ha; cbn [Stream.feed_lines]; cbv zeta.
  - destruct Ha. by split.
  - pose proof (handleLine_bounded (trim_crlf l) a Ho Ha) as Hb. destruct (handleLine_max (trim_crlf l) a) as [Hm _].
    destruct (overflow (handleLine _ a)) eqn:E; [|apply IH; [done|lia|done]].
    destruct Hb. split; [|done..]. simpl. pose proof (slen_nonneg rest). change (slen "") with 0. lia.
Qed.

Lemma Feed_bounded_step p a : bounded a -> bounded (Feed p a) /\ lineMax (Feed p a) = lineMax a /\ limit (Feed p a) = limit a.
Proof.
  intros Ha. unfold Stream.Feed. destruct (overflow a) eqn:Ho; [done|]. destruct (Z.ltb_spec (lineMax a) (slen (lineBuf a) + slen p)).
  - split; [|done]. destruct Ha. split; [|done..]. simpl. pose proof (slen_nonneg (lineBuf a)). change (slen "") with 0. lia.
  - pose proof (split_lines_rest_len (lineBuf a +:+ p)) as Hr. rewrite slen_app in Hr.
    destruct (split_lines (lineBuf a +:+ p)) as [ls rest]. simpl in Hr. split; [|apply feed_lines_max].
    apply feed_lines_bounded; [done|lia|done].
Qed.
End AggregatorFacts.

(** ** Properties *)

(** memory is bounded.  Whatever pieces the upstream sends, the buffered line,
    the event being assembled and the collected content stay within their bounds,
    and after a bound was crossed no piece changes anything and the stream never
    counts as complete. *)
Theorem Feed_bounded unmarshal ps limit :
  0 <= limit ->
  let a := feed_all unmarshal ps (newSSEAggregator limit) in
  slen (lineBuf a) <= maxSSELineBytes /\ slen (join newline (pending a)) <= maxSSEPendingBytes
  /\ slen (content a) <= limit
  /\ (overflow a = true -> forall qs, feed_all unmarshal qs a = a /\ Complete a = false).
Proof.
  intros Hl a.
  assert (H : bounded a /\ lineMax a = maxSSELineBytes /\ Stream.limit a = limit).
  { subst a. unfold feed_all. apply (rev_ind (fun ps => let a := foldl (fun a p => Feed unmarshal p a) (newSSEAggregator limit) ps in
      bounded a /\ lineMax a = maxSSELineBytes /\ Stream.limit a = limit)).
    - split; [|done]. split; simpl; unfold maxSSELineBytes, maxSSEPendingBytes, maxSSEAggregateBytes; change (slen "") with 0; lia || done.
    - intros p qs. cbv zeta. rewrite foldl_app. intros (Hb & Hm & Hli). cbn [foldl].
      destruct (Feed_bounded_step unmarshal p _ Hb) as (Hb' & -> & ->). done. }
  destruct H as ([H1 H2 H3 H4] & Hm & Hli). rewrite Hm, Hli in *. split; [done|]. split; [lia|]. split; [done|].
  intros Ho qs. split; [|by unfold Complete; rewrite Ho, andb_false_r].
  unfold feed_all. induction qs as [|q qs IH]; [done|]. cbn [foldl]. unfold Feed at 2. by rewrite Ho.
Qed.

(** What the aggregator makes of a whole text. *)
Lemma parse_reads unmarshal limit s :
  0 <= limit ->
  let a := parse unmarshal (newSSEAggregator limit) s in let evs := events_of s in
  Complete a = existsb (finishes unmarshal) evs && pending_fits [] (split_lines s).1 && (slen (text_of unmarshal evs) <=? limit)
  /\ (overflow a = false -> reads unmarshal (newSSEAggregator limit) a evs).
Proof.
  intros Hl a evs. unfold a, parse, evs, events_of. destruct (split_lines s) as [ls rest]. simpl.
  destruct (feed_lines_reads unmarshal ls rest (newSSEAggregator limit)) as [Ho Hr]; [split; simpl; done|].
  cbn [pending content newSSEAggregator Stream.limit] in Ho, Hr. change (slen "") with 0 in Ho. rewrite Z.add_0_l in Ho.
  split; [|done]. unfold Complete. rewrite Ho, negb_involutive, <- andb_assoc. destruct (_ && _) eqn:E.
  - by rewrite (rd_done _ _ _ _ (Hr Ho)).
  - by rewrite !andb_false_r.
Qed.

(** C14: the aggregator reads the stream, not its pieces.  While pieces and lines
    together fit the line buffer, the outcome is a function of the concatenated
    bytes: the stream is complete exactly if some event finishes the answer and
    neither an event nor the collected text exceeds its bound, and then the
    content is the text of the first choices' deltas in order, nothing lost and
    nothing twice, with the first identity and the last usage seen. *)
Theorem Feed_reads unmarshal ps limit L P :
  0 <= limit -> L + P <= maxSSELineBytes ->
  Forall (fun p => slen p <= P) ps -> short_lines L (concat_strings ps) ->
  let a := feed_all unmarshal ps (newSSEAggregator limit) in
  let evs := events_of (concat_strings ps) in
  Complete a = existsb (finishes unmarshal) evs && pending_fits [] (split_lines (concat_strings ps)).1
                 && (slen (text_of unmarshal evs) <=? limit)
  /\ (Complete a = true -> content a = text_of unmarshal evs
       /\ usageRaw a = default "" (list.last (omap (usage_of unmarshal) evs))
       /\ eventID a = foldl (fun i p => if (i =? "")%string then id_of unmarshal p else i) "" evs).
Proof.
  intros Hl HLP Hps Hs a evs. unfold a. rewrite (feed_all_parse unmarshal ps _ L P) by done.
  destruct (parse_reads unmarshal limit (concat_strings ps) Hl) as [Hc Hr]. split; [exact Hc|].
  intros Hd. destruct Hr as [C _ _ U I]; [unfold Complete in Hd; by go_bool|]. by rewrite C, U, I.
Qed.

(** The line bound counts the buffered bytes and the whole incoming piece, so the
    verdict depends on how a stream is cut: 65537 empty lines overflow as one
    piece and not as two. *)
Fixpoint blank_lines (n : nat) : string :=
  match n with O => "" | S n => String lf (blank_lines n) end.

Lemma line_bound_counts_pieces :
  let n := Z.to_nat (2 ^ 15) in let unmarshal := fun _ => None in
  overflow (feed_all unmarshal [blank_lines (n + n + 1)] (newSSEAggregator 10)) = true
  /\ overflow (feed_all unmarshal [blank_lines n; blank_lines (n + 1)] (newSSEAggregator 10)) = false.
Proof. split; vm_compute; reflexivity. Qed.

(** ** On a concrete stream *)

Module Sample.
(** Every payload is an event of its own text. *)
Definition unmarshal (p : string) : option chunk := Some (mkChunk "id1" [(p, None)] "").
Definition pieces : list string :=
  ["data: he"; "llo" +:+ newline +:+ newline +:+ "data: wor"; "ld" +:+ newline +:+ newline +:+ "data: [DO";
   "NE]" +:+ newline +:+ newline].
Definition final : sseAggregator := feed_all unmarshal pieces (newSSEAggregator 100).

Example reads_hello : content final = "helloworld"%string /\ Complete final = true /\ eventID final = "id1"%string.
Proof. vm_compute. done. Qed.
End Sample.

Lemma Feed_bounded_witness : slen (content Sample.final) <= 100.
Proof. exact (proj1 (proj2 (proj2 (Feed_bounded Sample.unmarshal Sample.pieces 100 (proj1 (Z.leb_le 0 100) eq_refl))))). Defined.

Lemma Feed_reads_witness : content Sample.final = text_of Sample.unmarshal (events_of (concat_strings Sample.pieces)).
Proof.
  refine (proj1 (proj2 (Feed_reads Sample.unmarshal Sample.pieces 100 20 20 _ _ _ _) _));
    [lia|unfold maxSSELineBytes; lia| | |].
  - unfold Sample.pieces. repeat (apply Forall_cons; split; [apply Z.leb_le; vm_compute; reflexivity|]). constructor.
  - unfold short_lines. apply Forall_forall. intros l Hl. apply Z.leb_le.
    assert (H : forallb (fun l => slen l <=? 20) (all_lines (concat_strings Sample.pieces)) = true) by (vm_compute; reflexivity).
    rewrite forallb_forall in H. by apply H, list_elem_of_In.
  - vm_compute. reflexivity.
Defined.
