(* ===== verification/Relay.v ===== *)
(** gateway/pipeline.go: the replies of the gateway - the verbatim relay of an
    OpenAI stream, the relayed response, and the stream rebuilt from a verified
    reuse.

    A reply is what is written to the client with what is recorded.  The wire
    codec is an argument: [marshal] writes an object this package builds,
    [unmarshal] is the aggregator's decoder; [wire_laws] states what
    [encoding/json] promises of the pair.  The bytes of an upstream body are those
    that arrived before its end or its failure. *)

From Stdlib Require Import ZArith Lia Bool Ascii String.
From stdpp Require Import tactics base option list strings.
From S2P Require Import Prelude GoStrings Utf8 UsageWire Usage Stream L3.

#[global] Open Scope Z_scope.

(** ** What goes over the wire *)

Inductive delta : Type :=
| DRole
| DContent (s : string)
| DToolStart (index : Z) (id name : string)
| DToolArgs (index : Z) (args : string)
| DEmpty.

(** A chat.completion.chunk: no choice in a usage event. *)
Record out_chunk := mkOut {
  oc_id : string;
  oc_created : Z;
  oc_model : string;
  oc_choice : option (delta * option string);
  oc_usage : option wire_usage;
}.

(** What the aggregator's decoder sees of it. *)
Definition delta_text (d : delta) : string := match d with DContent s => s | _ => "" end.

Definition sse_data (raw : string) : string := "data: " +:+ raw +:+ newline +:+ newline.
Definition done_event : string := sse_data "[DONE]".

(** ** Accounting *)

(** What a request carries into its accounting. *)
Record request := mkRequest {
  rq_session : string;
  rq_model : string;
  rq_query : string;
  rq_injected : Z;
  rq_hits : Z;
  rq_provider : string;
  rq_vendor : string;
  rq_judges : list JudgeDecision;
  rq_obs : Obs;
  rq_falseHit : bool;
  rq_now : Z;
  rq_turns : list (string * string);   (* role and text of the messages *)
}.

(** A reply: status, writes, the session turns recorded, the usage event. *)
Record reply := mkReply {
  rp_status : Z;
  rp_writes : list string;
  rp_session : option (list (string * string));
  rp_usage : option Event;
}.

Definition withL3Obs (e : Event) (o : Obs) (falseHit : bool) : Event :=
  e <| L3GreyCandidates := o_Grey o |> <| L3JudgeReject := o_JudgeReject o |> <| L3JudgeError := o_JudgeError o |>
    <| L3JudgeApproved := o_JudgeApproved o |> <| L3RulesReject := o_RulesReject o |>
    <| L3FingerprintReject := o_FingerprintReject o |> <| L3IsolatedReject := o_IsolatedReject o |>
    <| L3FalseHit := falseHit |>.

(** Provider accounting replaces the estimate. *)
Definition with_exact (nu : normUsage * bool) (e : Event) : Event :=
  if nu.2 then
    e <| TokensIn := Prompt nu.1 |> <| TokensOut := Completion nu.1 |> <| CacheHitToken := CacheHit nu.1 |>
      <| CacheWriteToken := CacheWrite nu.1 |> <| Exact := true |>
  else e.

(** [len(s) / 4]. *)
Definition quarter (s : string) : Z := slen s / 4.

Definition estimated (r : request) (session : string) (out : Z) : Event :=
  withL3Obs
    (zero_event <| SessionID := session |> <| Provider := rq_provider r |> <| Vendor := rq_vendor r |> <| Model := rq_model r |>
       <| TokensIn := quarter (rq_query r) +! rq_injected r |> <| TokensOut := out |>
       <| InjectedTokens := rq_injected r |> <| SliceHits := rq_hits r |> <| JudgeDecisions := rq_judges r |>
       <| At := rq_now r |>)
    (rq_obs r) (rq_falseHit r).

(** [turns]: the request's messages and a reply that is not empty. *)
Definition turns (r : request) (assistant : string) : list (string * string) :=
  rq_turns r ++ (if (assistant =? "")%string then [] else [("assistant"%string, assistant)]).

Definition maxBodyBytes : Z := 10 * 2 ^ 20.

Section Relay.
Context (marshal : out_chunk -> string) (unmarshal : string -> option chunk).
(** The decoders of a usage object and of a response body, and the error
    envelope. *)
Context (unmarshal_usage : string -> option upstreamUsage) (unmarshal_body : string -> option (option upstreamUsage))
        (unmarshal_content : string -> option (list string)) (api_error : string -> string).

(** [writeUsageChunk]; [fresh] is a new random identity. *)
Definition usage_chunk (r : request) (fresh id : string) (prompt completion cached : Z) : out_chunk :=
  mkOut (if (id =? "")%string then "chatcmpl-" +:+ fresh else id) (rq_now r) (rq_model r) None
    (Some (mkWire prompt completion (prompt +! completion) (Some (cached, None)) "bytes/4")).

Definition writeUsageChunk (r : request) (fresh id : string) (prompt completion cached : Z) : string :=
  sse_data (marshal (usage_chunk r fresh id prompt completion cached)).

(** ** The OpenAI stream *)

(** [ReadBytes('\n')] to the end: the lines with their newline, then what is left. *)
Definition read_lines (s : string) : list string :=
  let '(ls, rest) := split_lines s in
  map (fun l => l +:+ newline) ls ++ (if (rest =? "")%string then [] else [rest]).

(** A write to the client: bytes of the upstream, or the gateway's own. *)
Inductive write := Relayed (s : string) | Synth (s : string).
Definition written (w : write) : string := match w with Relayed s | Synth s => s end.

Definition is_done_line (line : string) : bool := has_prefix (trim_space line) "data: [DONE]".

Record relay_state := mkRelay { rs_agg : sseAggregator; rs_sawDone : bool; rs_out : list write }.

Definition relay_step (r : request) (fresh : string) (s : relay_state) (line : string) : relay_state :=
  let a := Feed unmarshal line (rs_agg s) in
  if is_done_line line then
    mkRelay a true
      (rs_out s
       ++ (if negb (sawUsage a) && negb (Overflowed a)
           then [Synth (writeUsageChunk r fresh (eventID a) (quarter (rq_query r) +! rq_injected r) (quarter (content a)) (rq_injected r))]
           else [])
       ++ [Relayed line])
  else mkRelay a (rs_sawDone s) (rs_out s ++ [Relayed line]).

Definition relay_all (r : request) (fresh body : string) : relay_state :=
  foldl (relay_step r fresh) (mkRelay (newSSEAggregator maxSSEAggregateBytes) false []) (read_lines body).

Definition relay_writes (s : relay_state) : list write :=
  rs_out s ++ (if rs_sawDone s then [] else [Synth done_event]).

(** What a reader limited to [maxBodyBytes] returns. *)
Definition limited (body : string) : string :=
  if maxBodyBytes <? slen body then String.substring 0 (Z.to_nat maxBodyBytes) body else body.

Definition error_reply (status : Z) (msg : string) : reply := mkReply status [api_error msg] None None.

Definition streamThrough (r : request) (fresh : string) (status : Z) (body : string) : reply :=
  if 400 <=? status then error_reply status ("upstream returned " +:+ itoa status +:+ ": " +:+ trim_space (limited body)) else
  let s := relay_all r fresh body in
  let a := rs_agg s in
  mkReply status (map written (relay_writes s))
    (if Complete a then Some (turns r (content a)) else None)
    (Some (with_exact (parseUsageRaw unmarshal_usage (usageRaw a))
             (estimated r (rq_session r) (if Complete a then quarter (content a) else 0)))).

(** ** The whole response *)

Definition extractAssistantContent (body : string) : string :=
  match unmarshal_content body with Some (c :: _) => c | _ => "" end.

(** [passthrough]; [read] is the body as far as the limited reader went, or the
    error of reading it, and [translate] is the conversion of an Anthropic body. *)
Definition passthrough (translate : string -> result string) (anthropicError : string -> string) (r : request)
    (status : Z) (read : result string) : reply :=
  match read with
  | Err e => error_reply 502 ("read upstream response: " +:+ e)
  | Ok out =>
      if maxBodyBytes <? slen out then error_reply 502 ("upstream response exceeds " +:+ itoa maxBodyBytes +:+ " bytes") else
      if 400 <=? status then
        error_reply status ("upstream returned " +:+ itoa status +:+ ": "
          +:+ (if (rq_vendor r =? "anthropic")%string then anthropicError out else trim_space out))
      else
      match (if (rq_vendor r =? "anthropic")%string then translate out else Ok out) with
      | Err e => error_reply 502 ("translate anthropic response: " +:+ e)
      | Ok out =>
          mkReply status [out] (Some (turns r (extractAssistantContent out)))
            (Some (with_exact (parseUsageBody unmarshal_body out) (estimated r "" (quarter out))))
      end
  end.

(** ** The rebuilt stream *)

Definition replay_chunk (r : request) (slice_id : string) (d : delta) (finish : option string) : string :=
  sse_data (marshal (mkOut ("chatcmpl-" +:+ slice_id) (rq_now r) (rq_model r) (Some (d, finish)) None)).

Definition replay_deltas (response : string) : list delta :=
  DRole :: map (fun c => DContent (bytes_string c)) (chunks (string_bytes response)).

Definition replayStream (r : request) (fresh slice_id response : string) : list string :=
  map (fun d => replay_chunk r slice_id d None) (replay_deltas response)
  ++ [replay_chunk r slice_id DEmpty (Some "stop")]
  ++ [writeUsageChunk r fresh ("chatcmpl-" +:+ slice_id) (quarter (rq_query r) +! quarter response) 0 (quarter response)]
  ++ [done_event].

(** ** What the codec promises *)

Definition view_choice (c : delta * option string) : string * option string := (delta_text c.1, c.2).

(** The strings of a chunk are valid UTF-8. *)
Definition chunk_utf8 (c : out_chunk) : Prop :=
  utf8_string (oc_id c) /\ match oc_choice c with Some (d, _) => utf8_string (delta_text d) | None => True end.

(** The output of [json.Marshal] for a map: one line in braces that the decoder
    reads back, strings that are valid UTF-8 unchanged. *)
Record wire_laws : Prop := {
  wl_shape : forall c, exists body, marshal c = String "{" (body +:+ "}") /\ split_lines body = ([], body);
  wl_read : forall c, chunk_utf8 c ->
    exists u, unmarshal (marshal c) = Some (mkChunk (oc_id c) (map view_choice (option_list (oc_choice c))) u)
      /\ ((0 <? slen u) && negb (u =? "null")%string = match oc_usage c with Some _ => true | None => false end);
}.
End Relay.

(** ** Events as they are written *)

Definition is_crlf (c : ascii) : bool := Ascii.eqb c lf || Ascii.eqb c cr.

(** A payload on one line that nothing trims. *)
Definition payload (raw : string) : Prop :=
  split_lines raw = ([], raw) /\ exists b c, raw = b +:+ String c "" /\ is_crlf c = false.

Lemma trim_crlf_last b c : is_crlf c = false -> trim_crlf (b +:+ String c "") = b +:+ String c "".
Proof.
  intros Hc. induction b as [|x b IH]; [change (trim_crlf (String c "") = String c ""); simpl; unfold is_crlf in Hc; by rewrite Hc|].
  rewrite str_cons. cbn [trim_crlf]. rewrite IH. by destruct b.
Qed.

Lemma split_lines_single l t :
  split_lines l = ([], l) ->
  split_lines (l +:+ newline +:+ t) = (l :: (split_lines t).1, (split_lines t).2).
Proof.
  intros Hl. rewrite split_lines_app, Hl. 
  assert (H : forall r, split_lines r = ([], r) -> split_lines (r +:+ newline +:+ t) = (r :: (split_lines t).1, (split_lines t).2)).
  { induction r as [|c r IH]; intros Hr.
    - rewrite str_nil_l. unfold newline. rewrite str_cons, str_nil_l. simpl. by destruct (split_lines t).
    - rewrite str_cons. cbn [split_lines] in *. destruct (split_lines r) as [ls r0]. destruct (Ascii.eqb c lf); [done|].
      destruct ls; [|done]. injection Hr as ->. by rewrite IH. }
  by rewrite (H l Hl).
Qed.

Lemma split_sse raw t :
  split_lines raw = ([], raw) ->
  split_lines (sse_data raw +:+ t) = (("data: " +:+ raw)%string :: ""%string :: (split_lines t).1, (split_lines t).2).
Proof.
  intros Hr. unfold sse_data. rewrite !string_app_assoc, <- string_app_assoc, split_lines_single.
  - by rewrite <- (str_nil_l (newline +:+ t)), split_lines_single.
  - change ("data: " +:+ raw) with (String "d" (String "a" (String "t" (String "a" (String ":" (String " " raw)))))).
    cbn [split_lines]. by rewrite Hr.
Qed.

(** A line that starts with a letter is not blank. *)
Lemma trim_left_rev_last n l : (length l <= n)%nat -> trim_left_rev (l ++ [100]) <> [].
Proof.
  revert l. induction n as [|n IH]; intros [|a l] Hl; simpl in Hl; try lia; [done..|].
  cbn [app trim_left_rev]. destruct (space1 a); [apply IH; lia|].
  destruct l as [|b l]; cbn [app]; [by change (space2 100 a) with false|].
  destruct (space2 b a); [apply IH; simpl in Hl; lia|].
  destruct l as [|c l]; cbn [app]; [by change (space3 100 b a) with false|].
  destruct (space3 c b a); [apply IH; simpl in Hl; lia|done].
Qed.

Lemma data_not_blank raw : (trim_space ("data: " +:+ raw) =? "")%string = false.
Proof.
  apply String.eqb_neq. unfold trim_space, trim_bytes.
  change (string_bytes ("data: " +:+ raw)) with (100 :: 97 :: 116 :: 97 :: 58 :: 32 :: string_bytes raw).
  cbn [trim_left]. change (space1 100) with false. change (space2 100 97) with false. change (space3 100 97 116) with false.
  cbv iota. set (l := 97 :: _). change (rev (100 :: l)) with (rev l ++ [100]). intros H.
  assert (E : forall x, bytes_string x = ""%string -> x = []) by (intros [|? ?]; done).
  apply E, (f_equal (@rev Z)) in H. rewrite rev_involutive in H. by apply (trim_left_rev_last (length (rev l)) (rev l)) in H.
Qed.

(** The data line of a payload gives the payload back. *)
Lemma data_line raw : payload raw ->
  trim_crlf ("data: " +:+ raw) = ("data: " +:+ raw)%string /\ data_of ("data: " +:+ raw) = Some raw.
Proof.
  intros (_ & b & c & -> & Hc). split.
  - rewrite <- string_app_assoc. by apply trim_crlf_last.
  - set (raw := b +:+ String c ""). unfold data_of. change (has_prefix ("data: " +:+ raw) "data:") with true. cbv iota.
    change ("data: " +:+ raw)%string with ("data:" +:+ (" " +:+ raw)). by rewrite !trim_prefix_app.
Qed.

Definition data_lines (raws : list string) : list string := flat_map (fun raw => ["data: " +:+ raw; ""])%string raws.

Lemma split_sse_all raws :
  Forall payload raws -> split_lines (concat_strings (map sse_data raws)) = (data_lines raws, ""%string).
Proof.
  induction 1 as [|raw raws [Hl _] _ IH]; [done|]. cbn [map data_lines flat_map].
  change (concat_strings (sse_data raw :: map sse_data raws)) with (sse_data raw +:+ concat_strings (map sse_data raws)).
  rewrite split_sse, IH by done. done.
Qed.

Lemma sse_whole raw : payload raw -> whole (sse_data raw).
Proof. intros [Hl _]. unfold whole. by rewrite <- (string_app_nil (sse_data raw)), split_sse. Qed.

Lemma events_data raws : Forall payload raws ->
  events [] (data_lines raws) = raws
  /\ pending_fits [] (data_lines raws) = forallb (fun r => slen r <=? maxSSEPendingBytes) raws.
Proof.
  induction 1 as [|raw raws Hp _ [IHe IHf]]; [done|].
  destruct (data_line raw Hp) as [Ht Hd]. cbn [data_lines flat_map app events pending_fits]. cbv zeta.
  rewrite Ht, data_not_blank, Hd. cbn [app events pending_fits]. cbv zeta.
  change (trim_space (trim_crlf "") =? "")%string with true. cbv iota.
  change (flat_map (fun raw => ["data: " +:+ raw; ""])%string raws) with (data_lines raws).
  change (join newline [raw]) with raw. rewrite IHe, IHf. done.
Qed.

(** A client that reads a stream of events, write by write. *)
Lemma client_reads unmarshal raws limit :
  0 <= limit -> raws <> [] -> Forall payload raws -> Forall (fun r => slen (sse_data r) <= maxSSELineBytes) raws ->
  slen (text_of unmarshal raws) <= limit ->
  let a := feed_all unmarshal (map sse_data raws) (newSSEAggregator limit) in
  Complete a = existsb (finishes unmarshal) raws /\ reads unmarshal (newSSEAggregator limit) a raws.
Proof.
  intros Hlim Hne Hp Hs Ht a.
  assert (Ha : a = parse unmarshal (newSSEAggregator limit) (concat_strings (map sse_data raws))).
  { subst a. destruct (exists_last Hne) as (init & r & ->). rewrite map_app. apply feed_all_whole; [done..| |].
    - apply Forall_app in Hp as [Hp _]. clear -Hp. induction Hp; simpl; constructor; [by apply sse_whole|done].
    - change ([sse_data r]) with (map sse_data [r]). rewrite <- map_app. by apply Forall_fmap. }
  destruct (parse_reads unmarshal limit (concat_strings (map sse_data raws)) Hlim) as [Hc Hr].
  unfold events_of in Hc, Hr. rewrite split_sse_all in Hc, Hr by done. cbn [fst] in Hc, Hr.
  destruct (events_data raws Hp) as [He Hf]. rewrite He, Hf in Hc. rewrite He in Hr. rewrite <- Ha in Hc, Hr.
  rewrite (proj2 (Z.leb_le _ _)) in Hc by done.
  assert (Hfit : forallb (fun r => slen r <=? maxSSEPendingBytes) raws = true).
  { apply forallb_forall. intros r Hin%list_elem_of_In. rewrite Forall_forall in Hs. specialize (Hs r Hin).
    apply Z.leb_le. unfold sse_data in Hs. rewrite !slen_app in Hs. unfold maxSSELineBytes, maxSSEPendingBytes, maxSSEAggregateBytes in *.
    pose proof (slen_nonneg newline). pose proof (slen_nonneg "data: "). lia. }
  rewrite Hfit, !andb_true_r in Hc. split; [done|]. apply Hr.
  pose proof (proj1 (feed_lines_reads unmarshal (data_lines raws) "" (newSSEAggregator limit) ltac:(split; simpl; done))) as Ho.
  cbn [pending newSSEAggregator content Stream.limit] in Ho. rewrite He, Hf, Hfit in Ho.
  rewrite Ha. unfold parse. rewrite split_sse_all by done. rewrite Ho. apply negb_false_iff. apply Z.leb_le. change (slen "") with 0. lia.
Qed.

(** ** Properties *)

Lemma concat_bytes cs : concat_strings (map bytes_string cs) = bytes_string (concat cs).
Proof. induction cs as [|c cs IH]; [done|]. cbn [concat]. rewrite bytes_string_app, <- IH. done. Qed.

Lemma one_line_app s t : split_lines s = ([], s) -> split_lines t = ([], t) -> split_lines (s +:+ t) = ([], s +:+ t).
Proof.
  intros Hs Ht. induction s as [|c s IH]; [done|]. rewrite str_cons. cbn [split_lines] in *.
  destruct (split_lines s) as [ls r]. destruct (Ascii.eqb c lf); [done|]. destruct ls; [|done]. injection Hs as ->.
  by rewrite IH.
Qed.

Section Replay.
Context (marshal : out_chunk -> string) (unmarshal : string -> option chunk) (W : wire_laws marshal unmarshal).

Lemma marshal_payload c : payload (marshal c).
Proof using W.
  destruct (wl_shape _ _ W c) as (body & E & Hb). rewrite E, <- str_cons. split.
  - apply one_line_app; [|done]. change (String "{" body) with ("{" +:+ body). by apply one_line_app.
  - by exists (String "{" body), "}"%char.
Qed.

Lemma marshal_not_done c : (marshal c =? "[DONE]")%string = false.
Proof using W. destruct (wl_shape _ _ W c) as (body & -> & _). done. Qed.

(** What the aggregator reads in a chunk it can decode. *)
Lemma marshal_read c :
  chunk_utf8 c ->
  delta_of unmarshal (marshal c) = match oc_choice c with Some (d, _) => delta_text d | None => "" end
  /\ finishes unmarshal (marshal c) = match oc_choice c with Some (_, Some f) => negb (f =? "")%string | _ => false end
  /\ (match usage_of unmarshal (marshal c) with Some _ => true | None => false end
      = match oc_usage c with Some _ => true | None => false end)
  /\ id_of unmarshal (marshal c) = oc_id c.
Proof using W.
  intros Hv. destruct (wl_read _ _ W c Hv) as (u & Hu & Hn).
  unfold delta_of, finishes, usage_of, id_of. rewrite marshal_not_done, Hu. cbn [ck_Choices ck_ID orb has_usage ck_Usage].
  unfold has_usage. cbn [ck_Usage]. rewrite Hn. destruct (oc_choice c) as [[d f]|], (oc_usage c); cbn; done.
Qed.

Context (r : request) (fresh slice_id response : string).

(** The payloads of a rebuilt stream. *)
Definition replay_payloads : list string :=
  map (fun d => marshal (mkOut ("chatcmpl-" +:+ slice_id) (rq_now r) (rq_model r) (Some (d, None)) None)) (replay_deltas response)
  ++ [marshal (mkOut ("chatcmpl-" +:+ slice_id) (rq_now r) (rq_model r) (Some (DEmpty, Some "stop"%string)) None);
      marshal (usage_chunk r fresh ("chatcmpl-" +:+ slice_id) (quarter (rq_query r) +! quarter response) 0 (quarter response));
      "[DONE]"%string].

Lemma replay_writes : replayStream marshal r fresh slice_id response = map sse_data replay_payloads.
Proof using. unfold replayStream, replay_payloads. by rewrite map_app, map_map. Qed.

Lemma done_payload : payload "[DONE]".
Proof using. split; [done|]. by exists "[DONE"%string, "]"%char. Qed.

Lemma replay_payload_all : Forall payload replay_payloads.
Proof using W.
  unfold replay_payloads. apply Forall_app. split.
  - apply Forall_fmap, Forall_true. intros d. apply marshal_payload.
  - repeat constructor; try apply marshal_payload; apply done_payload.
Qed.

Lemma utf8_string_app s t : utf8_string s -> utf8_string t -> utf8_string (s +:+ t).
Proof using.
  unfold utf8_string. intros Hs Ht.
  rewrite string_bytes_app. by apply utf8_app.
Qed.

Lemma utf8_prefix : utf8_string "chatcmpl-".
Proof using. exists (map (fun b => [b]) (string_bytes "chatcmpl-")). split; [done|]. repeat constructor; eexists; (split; [reflexivity|discriminate]). Qed.

Lemma text_of_map {A} (f : A -> string) l (g : A -> string) :
  (forall x, x ∈ l -> delta_of unmarshal (f x) = g x) -> text_of unmarshal (map f l) = concat_strings (map g l).
Proof using.
  intros H. unfold text_of. f_equal. rewrite map_map. apply map_ext_in. intros x Hx%list_elem_of_In. by apply H.
Qed.

Lemma replay_text : utf8_string response -> utf8_string slice_id -> text_of unmarshal replay_payloads = response.
Proof using W.
  intros Hr Hi. assert (Hid : utf8_string ("chatcmpl-" +:+ slice_id)) by (apply utf8_string_app; [apply utf8_prefix|done]).
  destruct (utf8_chunks_spec (string_bytes response)) as (Hc & _ & Hu). specialize (Hu Hr).
  assert (Hutf : forall d, d ∈ replay_deltas response -> utf8_string (delta_text d)).
  { intros d [->|Hd]%elem_of_cons; [apply utf8_nil|]. apply list_elem_of_fmap in Hd as (c & -> & Hd).
    rewrite Forall_forall in Hu. unfold delta_text, utf8_string. rewrite bytes_string_inv; [by apply Hu|].
    pose proof (string_bytes_range response) as Hb. rewrite <- Hc, Forall_concat, Forall_forall in Hb. by apply Hb. }
  unfold replay_payloads, text_of. rewrite map_app, concat_strings_app, map_map.
  rewrite (map_ext_in _ delta_text).
  - assert (E : concat_strings (map delta_text (replay_deltas response)) = response).
    { unfold replay_deltas. cbn [map]. rewrite map_map.
      change (concat_strings (delta_text DRole :: ?l)) with ("" +:+ concat_strings l).
      change (fun x : list Z => delta_text (DContent (bytes_string x))) with bytes_string.
      rewrite str_nil_l, concat_bytes, Hc. apply bytes_string_bytes. }
    rewrite E. cbn [map]. 
    destruct (marshal_read (mkOut ("chatcmpl-" +:+ slice_id) (rq_now r) (rq_model r) (Some (DEmpty, Some "stop"%string)) None)) as (-> & _);
      [split; [done|apply utf8_nil]|].
    destruct (marshal_read (usage_chunk r fresh ("chatcmpl-" +:+ slice_id) (quarter (rq_query r) +! quarter response) 0 (quarter response))) as (-> & _);
      [split; done|]. cbn [oc_choice usage_chunk delta_text]. change (delta_of unmarshal "[DONE]") with ""%string.
    change (concat_strings ["";"";""]%string) with ""%string. apply string_app_nil.
  - intros d Hd%list_elem_of_In. 
    destruct (marshal_read (mkOut ("chatcmpl-" +:+ slice_id) (rq_now r) (rq_model r) (Some (d, None)) None)) as (-> & _); [|done].
    split; [done|by apply Hutf].
Qed.

(** What a client collects. *)
Lemma replay_client limit :
  utf8_string response -> utf8_string slice_id -> 0 <= limit -> slen response <= limit ->
  Forall (fun w => slen w <= maxSSELineBytes) (replayStream marshal r fresh slice_id response) ->
  let a := feed_all unmarshal (replayStream marshal r fresh slice_id response) (newSSEAggregator limit) in
  Complete a = true /\ content a = response /\ eventID a = ("chatcmpl-" +:+ slice_id)%string /\ sawUsage a = true.
Proof using W.
  intros Hr Hi Hl Hlen Hw. rewrite replay_writes in *. pose proof (replay_text Hr Hi) as Ht.
  assert (Hid : utf8_string ("chatcmpl-" +:+ slice_id)) by (apply utf8_string_app; [apply utf8_prefix|done]).
  destruct (client_reads unmarshal replay_payloads limit) as [Hc [C _ S _ I]]; [done| |apply replay_payload_all| |by rewrite Ht|].
  { unfold replay_payloads. intros E. apply app_eq_nil in E as [_ E]. done. }
  { rewrite Forall_forall in Hw |- *. intros x Hx. apply Hw, list_elem_of_fmap. eauto. }
  cbv zeta. rewrite C, Hc, Ht, str_nil_l. split; [|split; [done|]].
  - unfold replay_payloads. rewrite existsb_app. apply orb_true_iff. right.
    change (finishes unmarshal "[DONE]") with true. cbn [existsb]. change (finishes unmarshal "[DONE]") with true.
    by rewrite !orb_true_r.
  - split.
    + rewrite I. unfold replay_payloads, replay_deltas. cbn [map app foldl eventID newSSEAggregator].
      destruct (marshal_read (mkOut ("chatcmpl-" +:+ slice_id) (rq_now r) (rq_model r) (Some (DRole, None)) None)) as (_ & _ & _ & E);
        [split; [done|apply utf8_nil]|]. change ("" =? "")%string with true. cbv iota. rewrite E. cbn [oc_id].
      match goal with |- foldl ?f ?i ?l = _ => assert (H : foldl f i l = i); [|exact H] end.
      generalize (map (fun d => marshal (mkOut ("chatcmpl-" +:+ slice_id) (rq_now r) (rq_model r) (Some (d, None)) None)) (map (fun c => DContent (bytes_string c)) (chunks (string_bytes response)))
        ++ [marshal (mkOut ("chatcmpl-" +:+ slice_id) (rq_now r) (rq_model r) (Some (DEmpty, Some "stop"%string)) None);
      marshal (usage_chunk r fresh ("chatcmpl-" +:+ slice_id) (quarter (rq_query r) +! quarter response) 0 (quarter response));
      "[DONE]"%string]). intros l. induction l as [|x l IH]; [done|]. exact IH.
    + rewrite S. cbn [sawUsage newSSEAggregator orb]. apply negb_true_iff, bool_decide_eq_false. unfold replay_payloads.
      rewrite omap_app. intros E. apply app_eq_nil in E as [_ E]. revert E. cbn [omap list_omap].
      destruct (marshal_read (usage_chunk r fresh ("chatcmpl-" +:+ slice_id) (quarter (rq_query r) +! quarter response) 0 (quarter response))) as (_ & _ & E & _);
        [split; done|]. cbn [oc_usage usage_chunk] in E.
      destruct (usage_of unmarshal (marshal (mkOut _ _ _ (Some (DEmpty, _)) _))); [done|].
      destruct (usage_of unmarshal (marshal (usage_chunk _ _ _ _ _ _))); done.
Qed.
(** The chunk of a delta, and the last but two. *)
Definition piece_chunk (d : delta) (finish : option string) : out_chunk :=
  mkOut ("chatcmpl-" +:+ slice_id) (rq_now r) (rq_model r) (Some (d, finish)) None.
Definition replay_usage : out_chunk :=
  usage_chunk r fresh ("chatcmpl-" +:+ slice_id) (quarter (rq_query r) +! quarter response) 0 (quarter response).

Lemma id_utf8 : utf8_string slice_id -> utf8_string ("chatcmpl-" +:+ slice_id).
Proof using. intros Hi. apply utf8_string_app; [apply utf8_prefix|done]. Qed.

Lemma piece_read d finish : utf8_string slice_id -> utf8_string (delta_text d) ->
  delta_of unmarshal (marshal (piece_chunk d finish)) = delta_text d
  /\ finishes unmarshal (marshal (piece_chunk d finish)) = match finish with Some f => negb (f =? "")%string | None => false end
  /\ usage_of unmarshal (marshal (piece_chunk d finish)) = None.
Proof using W.
  intros Hi Hd. destruct (marshal_read (piece_chunk d finish)) as (H1 & H2 & H3 & _); [split; [by apply id_utf8|done]|].
  split; [exact H1|]. split; [by destruct finish|]. by destruct (usage_of unmarshal _).
Qed.

Lemma usage_read : utf8_string slice_id ->
  finishes unmarshal (marshal replay_usage) = false /\ is_Some (usage_of unmarshal (marshal replay_usage)).
Proof using W.
  intros Hi. destruct (marshal_read replay_usage) as (_ & H2 & H3 & _); [split; [by apply id_utf8|done]|].
  split; [exact H2|]. destruct (usage_of unmarshal _) as [u|]; [by exists u|done].
Qed.

(** The cuts of a text. *)
Lemma pieces_spec : utf8_string response ->
  let cs := map bytes_string (chunks (string_bytes response)) in
  concat_strings cs = response /\ Forall (fun c => utf8_string c /\ 0 < slen c <= 256) cs.
Proof using.
  intros Hr. destruct (utf8_chunks_spec (string_bytes response)) as (Hc & Hne & Hu). specialize (Hu Hr).
  pose proof (utf8_chunks_small _ Hr) as Hs. pose proof (string_bytes_range response) as Hb. rewrite <- Hc, Forall_concat in Hb.
  split; [rewrite concat_bytes, Hc; apply bytes_string_bytes|]. apply Forall_map. rewrite Forall_forall in *. intros c Hin.
  assert (E : string_bytes (bytes_string c) = c) by (apply bytes_string_inv; by apply Hb). split; [unfold utf8_string; rewrite E; by apply Hu|].
  assert (El : slen (bytes_string c) = Z.of_nat (length c)) by (clear; unfold slen, bytes_string; induction c as [|b c IH]; [done|]; cbn in *; lia).
  rewrite El. specialize (Hs c Hin). specialize (Hne c Hin).
  destruct c as [|b c]; [done|]. cbn [length] in *. lia.
Qed.

(** C10: a rebuilt stream says what the cache holds.  A client that reads the stream
    of a verified reuse - any cached response that is valid UTF-8 and within the
    aggregation bound - collects exactly the cached text, sees the stream finish, the identity of
    the slice and usage accounting.  The stream is an opening event, the text in
    pieces of at most 256 bytes cut at rune boundaries, one event that finishes it, one
    usage event with the figures of the answer, and one [DONE] at the end; no other
    event finishes it or carries usage. *)
Theorem replay_roundtrip limit :
  utf8_string response -> utf8_string slice_id -> 0 <= limit -> slen response <= limit ->
  Forall (fun w => slen w <= maxSSELineBytes) (replayStream marshal r fresh slice_id response) ->
  let a := feed_all unmarshal (replayStream marshal r fresh slice_id response) (newSSEAggregator limit) in
  (Complete a = true /\ content a = response /\ eventID a = ("chatcmpl-" +:+ slice_id)%string /\ sawUsage a = true) /\
  exists start pieces stop,
    let usage := marshal (usage_chunk r fresh ("chatcmpl-" +:+ slice_id) (quarter (rq_query r) +! quarter response) 0 (quarter response)) in
    replayStream marshal r fresh slice_id response = map sse_data (start :: pieces ++ [stop; usage; "[DONE]"%string]) /\
    delta_of unmarshal start = ""%string /\ concat_strings (map (delta_of unmarshal) pieces) = response /\
    Forall (fun p => utf8_string (delta_of unmarshal p) /\ 0 < slen (delta_of unmarshal p) <= 256) pieces /\
    (finishes unmarshal stop = true /\ stop <> "[DONE]"%string) /\
    (forall p, p ∈ start :: pieces ++ [usage] -> finishes unmarshal p = false) /\
    is_Some (usage_of unmarshal usage) /\ (forall p, p ∈ start :: pieces ++ [stop] -> usage_of unmarshal p = None).
Proof using W.
  intros Hr Hi Hl Hlen Hw a. split; [by apply replay_client|].
  destruct (pieces_spec Hr) as [Hc Hp]. set (cs := map bytes_string _) in *.
  assert (Hread : forall c, c ∈ cs -> delta_of unmarshal (marshal (piece_chunk (DContent c) None)) = c
    /\ finishes unmarshal (marshal (piece_chunk (DContent c) None)) = false /\ usage_of unmarshal (marshal (piece_chunk (DContent c) None)) = None).
  { intros c Hin. rewrite Forall_forall in Hp. destruct (Hp c Hin) as [Hu _]. exact (piece_read (DContent c) None Hi Hu). }
  exists (marshal (piece_chunk DRole None)), (map (fun c => marshal (piece_chunk (DContent c) None)) cs), (marshal (piece_chunk DEmpty (Some "stop"%string))).
  destruct (piece_read DRole None Hi ltac:(apply utf8_nil)) as (H1 & H2 & H3).
  destruct (piece_read DEmpty (Some "stop"%string) Hi ltac:(apply utf8_nil)) as (_ & H5 & H6). destruct (usage_read Hi) as [H7 H8].
  cbn zeta. split_and!.
  - rewrite replay_writes. f_equal. unfold replay_payloads, replay_deltas, cs. cbn [map app]. by rewrite !map_map.
  - exact H1.
  - rewrite <- Hc. f_equal. rewrite map_map. rewrite <- (map_id cs) at 2. apply map_ext_in. intros c Hin%list_elem_of_In. by apply Hread.
  - apply Forall_map. rewrite Forall_forall in Hp |- *. intros c Hin. cbn. destruct (Hread c Hin) as (-> & _). by apply Hp.
  - exact H5.
  - intros E. pose proof (marshal_not_done (piece_chunk DEmpty (Some "stop"%string))) as Hd. rewrite E in Hd. done.
  - intros p [->|[(c & -> & Hin)%list_elem_of_fmap| ->%list_elem_of_singleton]%elem_of_app]%elem_of_cons; [exact H2|by apply Hread|exact H7].
  - exact H8.
  - intros p [->|[(c & -> & Hin)%list_elem_of_fmap| ->%list_elem_of_singleton]%elem_of_app]%elem_of_cons; [exact H3|by apply Hread|exact H6].
Qed.
End Replay.

(** ** The relay *)

Lemma read_lines_concat body : concat_strings (read_lines body) = body.
Proof.
  assert (H : forall s, concat_strings (map (fun l => l +:+ newline) (split_lines s).1) +:+ (split_lines s).2 = s).
  { induction s as [|c s IH]; [done|]. cbn [split_lines]. destruct (split_lines s) as [ls rest]. cbn [fst snd] in IH.
    destruct (Ascii.eqb c lf) eqn:E; [apply Ascii.eqb_eq in E as ->; cbn [fst snd map]; exact (f_equal (String lf) IH)|].
    destruct ls as [|l ls]; cbn [fst snd map]; exact (f_equal (String c) IH). }
  specialize (H body). unfold read_lines. destruct (split_lines body) as [ls rest]. cbn [fst snd] in H. rewrite concat_strings_app.
  destruct (String.eqb_spec rest "") as [->|]; [exact H|].
  change (concat_strings [rest]) with (rest +:+ ""). by rewrite string_app_nil.
Qed.

Lemma one_line_whole l : split_lines l = ([], l) -> whole (l +:+ newline).
Proof. intros Hl. unfold whole. by rewrite <- (string_app_nil newline), split_lines_single. Qed.

Lemma split_lines_all_one s : Forall (fun l => split_lines l = ([], l)) (split_lines s).1.
Proof.
  induction s as [|c s IH]; [constructor|]. cbn [split_lines]. destruct (split_lines s) as [ls rest]. cbn [fst] in *.
  destruct (Ascii.eqb c lf) eqn:E; [by constructor|]. destruct ls as [|l ls]; [constructor|].
  inversion IH; subst. constructor; [|done]. cbn [split_lines]. by rewrite H1, E.
Qed.

(** The aggregator of the relay reads the whole body, its lines within the bound. *)
Lemma relay_parse unmarshal a body :
  overflow a = false -> lineBuf a = ""%string -> Forall (fun l => slen l <= lineMax a) (read_lines body) ->
  feed_all unmarshal (read_lines body) a = parse unmarshal a body.
Proof.
  intros Ho Hb Hs. rewrite <- (read_lines_concat body) at 2.
  destruct (read_lines body) as [|x l] eqn:E using rev_ind.
  { destruct a. cbn in *. by subst. }
  clear IHl. apply feed_all_whole; [done..| |done].
  assert (Hw : forall p, p ∈ map (fun l => l +:+ newline) (split_lines body).1 -> whole p).
  { intros p (q & -> & Hq)%list_elem_of_fmap. apply one_line_whole.
    pose proof (split_lines_all_one body) as H. rewrite Forall_forall in H. by apply H. }
  apply Forall_forall. intros p Hp. apply Hw. unfold read_lines in E.
  destruct (split_lines body) as [ls rest]. cbn [fst] in *. destruct (rest =? "")%string.
  - rewrite app_nil_r in E. rewrite E. apply elem_of_app. by left.
  - apply app_inj_tail in E as [-> _]. done.
Qed.

Definition relayed (w : write) : option string := match w with Relayed s => Some s | Synth _ => None end.

Section RelayFacts.
Context (marshal : out_chunk -> string) (unmarshal : string -> option chunk) (r : request) (fresh : string).
Abbreviation start := (newSSEAggregator maxSSEAggregateBytes).
Abbreviation relay := (foldl (relay_step marshal unmarshal r fresh) (mkRelay start false [])).

(** A synthesized event, where it may stand: before a [DONE] line of a stream whose
    events so far carried no usage. *)
Definition placed (pre : list write) (x : string) (post : list write) : Prop :=
  exists line post', post = Relayed line :: post' /\ is_done_line line = true
    /\ let a := feed_all unmarshal (omap relayed pre ++ [line]) start in
       sawUsage a = false /\ overflow a = false
       /\ x = writeUsageChunk marshal r fresh (eventID a) (quarter (rq_query r) +! rq_injected r) (quarter (content a)) (rq_injected r).

Lemma relay_spec ls :
  rs_agg (relay ls) = feed_all unmarshal ls start
  /\ rs_sawDone (relay ls) = existsb is_done_line ls
  /\ omap relayed (rs_out (relay ls)) = ls
  /\ forall pre x post, rs_out (relay ls) = pre ++ Synth x :: post -> placed pre x post.
Proof using.
  induction ls as [|l ls IH] using rev_ind.
  { split; [done|]. split; [done|]. split; [done|]. intros [|? ?] x post E; done. }
  destruct IH as (Ha & Hd & Ho & Hp). rewrite !foldl_app. cbn [foldl].
  assert (Hagg : Feed unmarshal l (rs_agg (relay ls)) = feed_all unmarshal (ls ++ [l]) start).
  { unfold feed_all. rewrite foldl_app. cbn [foldl]. by rewrite Ha. }
  set (s := relay ls) in *. unfold relay_step. cbv zeta. rewrite Hagg.
  set (a := feed_all unmarshal (ls ++ [l]) start) in *. rewrite existsb_app. cbn [existsb]. rewrite orb_false_r.
  destruct (is_done_line l) eqn:El; cbn [rs_agg rs_sawDone rs_out]; rewrite ?orb_true_r, ?orb_false_r.
  - split; [done|]. split; [done|]. split.
    { rewrite omap_app, Ho. f_equal. by destruct (_ && _). }
    intros pre x post E. destruct (negb (sawUsage a) && negb (Overflowed a)) eqn:Es.
    + cbn [app] in E. apply app_eq_inv in E as [(k & E1 & E2)|(k & E1 & E2)].
      * destruct k as [|y k].
        { cbn [app] in E2. injection E2 as -> ->. rewrite app_nil_r in E1. rewrite <- E1. unfold placed. exists l, [].
          split; [done|]. split; [done|]. rewrite Ho. cbv zeta. go_bool. done. }
        injection E2 as <- E2. destruct (Hp pre x k E1) as (line & post' & -> & Hl & Hx).
        exists line; eexists. split; [by rewrite E2|done].
      * destruct k as [|y [|z k]]; cbn [app] in E2.
        -- injection E2 as <- <-. rewrite app_nil_r in E1. subst pre. unfold placed. exists l, [].
           split; [done|]. split; [done|]. rewrite Ho. cbv zeta. go_bool. done.
        -- injection E2 as _ E2. done.
        -- injection E2 as _ _ E2. by destruct k.
    + cbn [app] in E. apply app_eq_inv in E as [(k & E1 & E2)|(k & E1 & E2)].
      * destruct k as [|y k]; [done|]. injection E2 as <- E2. destruct (Hp pre x k E1) as (line & post' & -> & Hl & Hx).
        exists line; eexists. split; [by rewrite E2|done].
      * destruct k as [|y [|z k]]; cbn [app] in E2; simplify_eq.
  - split; [done|]. split; [done|]. split; [by rewrite omap_app, Ho|].
    intros pre x post E. apply app_eq_inv in E as [(k & E1 & E2)|(k & E1 & E2)].
    + destruct k as [|y k]; [done|]. injection E2 as <- E2. destruct (Hp pre x k E1) as (line & post' & -> & Hl & Hx).
      exists line; eexists. split; [by rewrite E2|done].
    + destruct k as [|y [|z k]]; cbn [app] in E2; simplify_eq.
Qed.
End RelayFacts.

(** C13: the relay is verbatim.  Of a successful stream the client receives the
    upstream's bytes in order, all of them and nothing else but the gateway's own
    events: a usage event directly before a [DONE] line, of a stream that carried
    none so far and crossed no bound, and one [DONE] at the end when the upstream
    sent none - so every stream the client reads is terminated. *)
Theorem relay_faithful marshal unmarshal r fresh body :
  let ws := relay_writes (relay_all marshal unmarshal r fresh body) in
  concat_strings (omap relayed ws) = body
  /\ existsb (fun w => is_done_line (written w)) ws = true
  /\ forall pre x post, ws = pre ++ Synth x :: post ->
       (post = [] /\ x = done_event /\ existsb is_done_line (read_lines body) = false)
       \/ (exists rest, post = rest ++ (if existsb is_done_line (read_lines body) then [] else [Synth done_event])
           /\ placed marshal unmarshal r fresh pre x rest).
Proof.
  cbv zeta. unfold relay_writes, relay_all.
  destruct (relay_spec marshal unmarshal r fresh (read_lines body)) as (_ & Hd & Ho & Hp).
  set (s := foldl _ _ _) in *. rewrite Hd, omap_app, Ho. split; [|split].
  - rewrite concat_strings_app, read_lines_concat. destruct (existsb _ _); cbn; apply string_app_nil.
  - rewrite existsb_app. destruct (existsb is_done_line (read_lines body)) eqn:E.
    + rewrite orb_false_r. apply existsb_exists in E as (l & Hl & Hdone). apply existsb_exists.
      rewrite <- Ho in Hl. apply list_elem_of_In, list_elem_of_omap in Hl as (w & Hw & Hr).
      exists w. split; [by apply list_elem_of_In|]. destruct w; simpl in Hr; by simplify_eq.
    + apply orb_true_iff. right. vm_compute. done.
  - intros pre x post E. apply app_eq_inv in E as [(k & E1 & E2)|(k & E1 & E2)].
    + destruct k as [|y k].
      * cbn [app] in E2. destruct (existsb _ _); [done|]. injection E2 as -> ->. by left.
      * injection E2 as <- ->. right. exists k. split; [done|]. by apply Hp.
    + left. destruct (existsb _ _); [by destruct k|]. destruct k as [|y k]; [|by injection E2 as _ E2; destruct k].
      cbn [app] in E2. by injection E2 as <- <-.
Qed.

(** fail closed.  What a streamed exchange leaves in the reuse library is decided
    by the bytes alone, whatever the client received: the whole text of a stream
    that finished within the bounds, and nothing of a failed, truncated or
    oversized one.  Every successful stream is accounted for, with the provider's
    last figures when it sent them and an estimate otherwise; a failed one is
    not. *)
Theorem stream_recorded marshal unmarshal uu ae r fresh status body :
  Forall (fun l => slen l <= maxSSELineBytes) (read_lines body) ->
  let rp := streamThrough marshal unmarshal uu ae r fresh status body in
  let evs := events_of body in
  let finished := existsb (finishes unmarshal) evs && pending_fits [] (split_lines body).1
                  && (slen (text_of unmarshal evs) <=? maxSSEAggregateBytes) in
  rp_session rp = (if (status <? 400) && finished then Some (turns r (text_of unmarshal evs)) else None)
  /\ (finished = true ->
      rp_usage rp = if status <? 400
        then Some (with_exact (parseUsageRaw uu (default "" (list.last (omap (usage_of unmarshal) evs))))
                     (estimated r (rq_session r) (quarter (text_of unmarshal evs))))
        else None)
  /\ (is_Some (rp_usage rp) <-> status < 400).
Proof.
  intros Hl rp evs finished. unfold rp, streamThrough.
  destruct (Z.leb_spec 400 status) as [Hst|Hst].
  { rewrite (proj2 (Z.ltb_ge status 400)) by lia. split; [done|]. split; [done|].
    split; [by intros [? ?]|lia]. }
  rewrite (proj2 (Z.ltb_lt status 400)) by lia. cbn [andb]. cbv zeta. cbn [rp_session rp_usage].
  destruct (relay_spec marshal unmarshal r fresh (read_lines body)) as (Ha & _). unfold relay_all. rewrite Ha.
  rewrite (relay_parse unmarshal (newSSEAggregator maxSSEAggregateBytes) body) by done.
  destruct (parse_reads unmarshal maxSSEAggregateBytes body) as [Hc Hr]; [done|].
  set (a := parse unmarshal _ body) in *. assert (Hcf : Complete a = finished) by exact Hc. rewrite Hcf.
  destruct finished eqn:Ef.
  - destruct Hr as [C _ _ U _]; [unfold Complete in Hcf; by go_bool|]. cbn in C, U.
    rewrite C, U, str_nil_l. split; [done|]. split; [done|]. split; [done|eauto].
  - split; [done|]. split; [done|]. split; [done|eauto].
Qed.

(** ** On concrete streams *)

(** A codec that keeps the promises of [wire_laws]: every byte as eight binary
    digits, every field closed by a semicolon. *)
Module Codec.
Definition bit (b : bool) : ascii := if b then "1"%char else "0"%char.

Fixpoint enc (s : string) : string :=
  match s with
  | EmptyString => ";"
  | String (Ascii b0 b1 b2 b3 b4 b5 b6 b7) s =>
      String (bit b0) (String (bit b1) (String (bit b2) (String (bit b3)
        (String (bit b4) (String (bit b5) (String (bit b6) (String (bit b7) (enc s))))))))
  end.

Definition is_one (c : ascii) : bool := Ascii.eqb c "1".

Fixpoint dec (s : string) : option (string * string) :=
  match s with
  | String c s0 =>
      if Ascii.eqb c ";" then Some (""%string, s0) else
      match s0 with
      | String c1 (String c2 (String c3 (String c4 (String c5 (String c6 (String c7 s)))))) =>
          match dec s with
          | Some (t, r) =>
              Some (String (Ascii (is_one c) (is_one c1) (is_one c2) (is_one c3) (is_one c4) (is_one c5) (is_one c6) (is_one c7)) t, r)
          | None => None
          end
      | _ => None
      end
  | EmptyString => None
  end.

Lemma is_one_bit b : is_one (bit b) = b.
Proof. by destruct b. Qed.

Lemma dec_enc s t : dec (enc s +:+ t) = Some (s, t).
Proof.
  induction s as [|[b0 b1 b2 b3 b4 b5 b6 b7] s IH]; [done|]. cbn [enc]. rewrite !str_cons. cbn [dec].
  assert (E : forall b, Ascii.eqb (bit b) ";" = false) by by intros []. rewrite E, IH. by rewrite !is_one_bit.
Qed.

Lemma enc_line s : split_lines (enc s) = ([], enc s).
Proof.
  induction s as [|[b0 b1 b2 b3 b4 b5 b6 b7] s IH]; [done|]. cbn [enc split_lines]. rewrite IH.
  assert (E : forall b, Ascii.eqb (bit b) lf = false) by by intros []. by rewrite !E.
Qed.

(** Integers, least bit first, and a usage object. *)
Fixpoint enc_pos (p : positive) : string :=
  match p with xH => ";" | xO p => String "0" (enc_pos p) | xI p => String "1" (enc_pos p) end.
Fixpoint dec_pos (s : string) : option (positive * string) :=
  match s with
  | String c s => if Ascii.eqb c ";" then Some (xH, s)
                  else '(p, r) ← dec_pos s; Some (if is_one c then xI p else xO p, r)
  | EmptyString => None
  end.
Definition enc_Z (z : Z) : string :=
  match z with Z0 => "0" | Zpos p => String "+" (enc_pos p) | Zneg p => String "-" (enc_pos p) end.
Definition dec_Z (s : string) : option (Z * string) :=
  match s with
  | String c s => if Ascii.eqb c "0" then Some (0, s)
                  else '(p, r) ← dec_pos s; Some (if Ascii.eqb c "+" then Zpos p else Zneg p, r)
  | EmptyString => None
  end.

Definition enc_details (d : option (Z * option Z)) : string :=
  match d with
  | None => "n"
  | Some (r, None) => String "r" (enc_Z r)
  | Some (r, Some w) => String "w" (enc_Z r +:+ enc_Z w)
  end.
Definition dec_details (s : string) : option (option (Z * option Z) * string) :=
  match s with
  | String c s => if Ascii.eqb c "n" then Some (None, s)
                  else '(r, s) ← dec_Z s;
                       if Ascii.eqb c "r" then Some (Some (r, None), s) else '(w, s) ← dec_Z s; Some (Some (r, Some w), s)
  | EmptyString => None
  end.

Definition enc_usage (u : wire_usage) : string :=
  enc_Z (wu_prompt u) +:+ enc_Z (wu_completion u) +:+ enc_Z (wu_total u) +:+ enc_details (wu_details u) +:+ enc (wu_estimator u).
Definition unmarshal_usage (s : string) : option upstreamUsage :=
  '(p, s) ← dec_Z s; '(k, s) ← dec_Z s; '(t, s) ← dec_Z s; '(d, s) ← dec_details s; '(e, _) ← dec s;
  Some (read_usage (mkWire p k t d e)).

Lemma dec_enc_pos p t : dec_pos (enc_pos p +:+ t) = Some (p, t).
Proof. induction p as [p IH|p IH|]; [| |done]; cbn [enc_pos]; rewrite str_cons; cbn [dec_pos]; rewrite IH; done. Qed.
Lemma dec_enc_Z z t : dec_Z (enc_Z z +:+ t) = Some (z, t).
Proof. destruct z; [done| |]; cbn [enc_Z]; rewrite str_cons; cbn [dec_Z]; by rewrite dec_enc_pos. Qed.
Lemma dec_enc_details d t : dec_details (enc_details d +:+ t) = Some (d, t).
Proof.
  destruct d as [[r [w|]]|]; cbn [enc_details]; rewrite ?str_cons, ?string_app_assoc; cbn [dec_details]; [| |done];
    rewrite dec_enc_Z; cbn; [by rewrite dec_enc_Z|done].
Qed.
Lemma unmarshal_enc_usage u : unmarshal_usage (enc_usage u) = Some (read_usage u).
Proof.
  unfold unmarshal_usage, enc_usage. rewrite dec_enc_Z. cbn [mbind option_bind]. rewrite dec_enc_Z. cbn [mbind option_bind].
  rewrite dec_enc_Z. cbn [mbind option_bind]. rewrite dec_enc_details. cbn [mbind option_bind].
  rewrite <- (string_app_nil (enc (wu_estimator u))), dec_enc. by destruct u.
Qed.
Lemma enc_usage_sent u : (0 <? slen (enc_usage u)) && negb (enc_usage u =? "null")%string = true.
Proof. unfold enc_usage. by destruct (wu_prompt u). Qed.

Definition body (c : out_chunk) : string :=
  enc (oc_id c) +:+ enc (match oc_choice c with Some _ => "c" | None => "" end)
  +:+ enc (match oc_choice c with Some (d, _) => delta_text d | None => "" end)
  +:+ enc (match oc_choice c with Some (_, Some f) => String "f" f | _ => "" end)
  +:+ enc (match oc_usage c with Some u => enc_usage u | None => "" end).

Definition marshal (c : out_chunk) : string := String "{" (body c +:+ "}").

Definition dec_choice (tag text fin : string) : list (string * option string) :=
  if (tag =? "")%string then [] else [(text, match fin with String _ f => Some f | EmptyString => None end)].

Definition unmarshal (s : string) : option chunk :=
  match s with
  | String _ s =>
      '(id, s) ← dec s; '(tag, s) ← dec s; '(text, s) ← dec s; '(fin, s) ← dec s; '(u, _) ← dec s;
      Some (mkChunk id (dec_choice tag text fin) u)
  | EmptyString => None
  end.

Lemma laws : wire_laws marshal unmarshal.
Proof.
  split.
  - intros c. exists (body c). split; [done|]. unfold body. repeat (apply one_line_app; [apply enc_line|]). apply enc_line.
  - intros c _. exists (match oc_usage c with Some u => enc_usage u | None => "" end)%string.
    split; [|destruct (oc_usage c); [apply enc_usage_sent|done]].
    unfold marshal, unmarshal, body. rewrite !string_app_assoc, dec_enc. cbn [mbind option_bind].
    rewrite dec_enc. cbn [mbind option_bind]. rewrite dec_enc. cbn [mbind option_bind].
    rewrite dec_enc. cbn [mbind option_bind]. rewrite dec_enc. cbn [mbind option_bind].
    do 2 f_equal. by destruct (oc_choice c) as [[d [f|]]|].
Qed.
(** The usage a decoder finds in a chunk is the one that was written. *)
Lemma usage_laws c u raw : oc_usage c = Some u -> usage_of unmarshal (marshal c) = Some raw -> unmarshal_usage raw = Some (read_usage u).
Proof.
  intros Hu. unfold usage_of. destruct (marshal c =? "[DONE]")%string; [done|]. unfold marshal, unmarshal, body. rewrite Hu, !string_app_assoc, dec_enc. cbn [mbind option_bind].
  rewrite dec_enc. cbn [mbind option_bind]. rewrite dec_enc. cbn [mbind option_bind].
  rewrite dec_enc. cbn [mbind option_bind]. rewrite dec_enc. cbn [mbind option_bind].
  unfold has_usage. cbn [ck_Usage]. rewrite enc_usage_sent. intros [= <-]. apply unmarshal_enc_usage.
Qed.
End Codec.

Module Sample.
Definition request0 : request := mkRequest "sess" "glm" "how many words?" 40 1 "up" "openai" [] zero_obs false 1000 [("user", "how many words?")]%string.
(** An answer with a two-byte rune. *)
Definition answer : string := "caf" +:+ bytes_string [195; 169].
Definition stream : string :=
  sse_data (Codec.marshal (mkOut "id7" 1000 "glm" (Some (DContent answer, Some "stop"%string)) None)) +:+ done_event.
Definition recorded : reply :=
  streamThrough Codec.marshal Codec.unmarshal (fun _ => None) (fun s => s) request0 "r1" 200 stream.

Example recorded_answer :
  rp_session recorded = Some [("user", "how many words?"); ("assistant", answer)]%string /\ length (rp_writes recorded) = 5%nat.
Proof. vm_compute. done. Qed.

(** A [DONE] line without the optional space ends the upstream's stream; the relay
    does not recognise it and appends a second one. *)
Example done_without_space :
  let body := "data:[DONE]" +:+ newline +:+ newline in
  rp_writes (streamThrough Codec.marshal Codec.unmarshal (fun _ => None) (fun s => s) request0 "r1" 200 body)
  = ["data:[DONE]" +:+ newline; newline; done_event].
Proof. vm_compute. reflexivity. Qed.
End Sample.

Lemma stream_recorded_witness :
  rp_session Sample.recorded
  = Some (turns Sample.request0 (text_of Codec.unmarshal (events_of Sample.stream))).
Proof.
  refine (eq_trans (proj1 (stream_recorded Codec.marshal Codec.unmarshal (fun _ => None) (fun s => s) Sample.request0 "r1" 200 Sample.stream _)) _);
    [|vm_compute; reflexivity].
  apply Forall_forall. intros l Hl. apply Z.leb_le.
  assert (H : forallb (fun l => slen l <=? maxSSELineBytes) (read_lines Sample.stream) = true) by (vm_compute; reflexivity).
  rewrite forallb_forall in H. by apply H, list_elem_of_In.
Defined.

Lemma Sample_utf8 : utf8_string Sample.answer.
Proof.
  exists [[99]; [97]; [102]; [195; 169]]. split; [reflexivity|].
  repeat (apply Forall_cons; split; [eexists; split; [reflexivity|discriminate]|]). constructor.
Qed.

Lemma replay_roundtrip_witness :
  content (feed_all Codec.unmarshal (replayStream Codec.marshal Sample.request0 "r1" "s9" Sample.answer) (newSSEAggregator 100))
  = Sample.answer.
Proof.
  refine (proj1 (proj2 (proj1 (replay_roundtrip Codec.marshal Codec.unmarshal Codec.laws Sample.request0 "r1" "s9" Sample.answer 100
           Sample_utf8 _ _ _ _)))).
  - exists [[115]; [57]]. split; [reflexivity|].
    repeat (apply Forall_cons; split; [eexists; split; [reflexivity|discriminate]|]). constructor.
  - lia.
  - apply Z.leb_le. vm_compute. reflexivity.
  - apply Forall_forall. intros l Hl. apply Z.leb_le.
    assert (H : forallb (fun l => slen l <=? maxSSELineBytes) (replayStream Codec.marshal Sample.request0 "r1" "s9" Sample.answer) = true)
      by (vm_compute; reflexivity).
    rewrite forallb_forall in H. by apply H, list_elem_of_In.
Defined.
