(* ===== verification/Anthropic.v ===== *)
(** gateway/anthropic.go, the response side: a Messages API stream translated
    event by event into an OpenAI stream, and a whole response into a
    chat.completion.

    The two JSON decodings of a frame (its type, then the fields its handler
    reads) are one argument that yields an [aevent]; a handler whose own decoding
    fails gets [None].  The converter's writes are kept as events; [render] gives
    their bytes over the wire codec of Relay.v. *)

From Stdlib Require Import ZArith Lia Bool Ascii String.
From stdpp Require Import tactics base option list strings.
From S2P Require Import Prelude GoStrings Utf8 UsageWire Usage Stream L3 Relay.

#[global] Open Scope Z_scope.

(** ** Frames and writes *)

Inductive aevent : Type :=
| MessageStart (m : option (string * string * option wireSSEUsage))   (* id, model, usage *)
| BlockStart (b : option (string * string * string))                  (* type, id, name *)
| BlockDelta (d : option (string * string * string))                  (* type, text, partial_json *)
| MessageDelta (d : option (string * option wireSSEUsage))            (* stop_reason, usage *)
| ErrorEvent (e : option (string * string))                           (* type, message *)
| MessageStop
| OtherEvent.

(** A write to the client: a chunk, the error envelope with a message, the
    envelope written when the frame could not be decoded, and [DONE]. *)
Inductive out_event := OChunk (c : out_chunk) | OError (msg : string) | OFault | ODone.

Definition dquote : ascii := ascii_of_nat 34.
Definition quoted (s : string) : string := String dquote (s +:+ String dquote "").
Definition fault_envelope : string :=
  "{" +:+ quoted "error" +:+ ":{" +:+ quoted "message" +:+ ":" +:+ quoted "upstream stream error" +:+ "}}".

Definition payload_of (marshal : out_chunk -> string) (marshal_error : string -> string) (o : out_event) : string :=
  match o with
  | OChunk c => marshal c
  | OError m => marshal_error m
  | OFault => fault_envelope
  | ODone => "[DONE]"
  end.

Definition render (marshal : out_chunk -> string) (marshal_error : string -> string) (o : out_event) : string :=
  sse_data (payload_of marshal marshal_error o).

(** ** The converter *)

Record anthropicSSEConverter := mkConv {
  c_w : list out_event;
  c_toolIdx : Z;
  c_done : bool;
  c_id : string;
  c_model : string;
  c_created : Z;
  c_finishSent : bool;
  c_counters : wireSSEUsage;   (* inTok, outTok, cacheCreate, cacheRead *)
  c_sawUsage : bool;
  c_usageSent : bool;
}.
#[export] Instance anthropicSSEConverter_eta : Eta anthropicSSEConverter := fun r =>
  mkConv (c_w r) (c_toolIdx r) (c_done r) (c_id r) (c_model r) (c_created r) (c_finishSent r) (c_counters r)
    (c_sawUsage r) (c_usageSent r).

Definition no_counters : wireSSEUsage := mkFrame 0 0 0 0.

Definition newAnthropicSSEConverter (created : Z) : anthropicSSEConverter :=
  mkConv [] 0 false "" "" created false no_counters false false.

Definition emit (o : out_event) (c : anthropicSSEConverter) : anthropicSSEConverter := c <| c_w ::= fun l => l ++ [o] |>.

Definition writeChunk (d : delta) (finish : option string) (c : anthropicSSEConverter) : anthropicSSEConverter :=
  emit (OChunk (mkOut (c_id c) (c_created c) (c_model c) (Some (d, finish)) None)) c.

Definition writeDone (c : anthropicSSEConverter) : anthropicSSEConverter := emit ODone c.

(** [mergeUsage] over the counters: each is the maximum seen. *)
Definition max_usage (u v : wireSSEUsage) : wireSSEUsage :=
  mkFrame (Z.max (fr_InputTokens u) (fr_InputTokens v)) (Z.max (fr_OutputTokens u) (fr_OutputTokens v))
    (Z.max (fr_CacheCreationInputTokens u) (fr_CacheCreationInputTokens v))
    (Z.max (fr_CacheReadInputTokens u) (fr_CacheReadInputTokens v)).

Definition mergeUsage (u : option wireSSEUsage) (c : anthropicSSEConverter) : anthropicSSEConverter :=
  match u with
  | None => c
  | Some u => c <| c_sawUsage := true |> <| c_counters ::= fun m => max_usage m u |>
  end.

Definition usage (c : anthropicSSEConverter) : normUsage * bool :=
  if c_sawUsage c then normalizeUpstreamUsage (Some (anthropic_usage (c_counters c))) else (zero_usage, false).

Definition writeUsageChunk (c : anthropicSSEConverter) : anthropicSSEConverter :=
  let '(nu, ok) := usage c in
  if negb ok || c_usageSent c then c
  else emit (OChunk (mkOut (c_id c) (c_created c) (c_model c) None (Some (chunk_usage nu)))) (c <| c_usageSent := true |>).

Definition messageStart (m : option (string * string * option wireSSEUsage)) (c : anthropicSSEConverter) : anthropicSSEConverter :=
  match m with
  | None => c
  | Some (id, model, u) =>
      let c := if (id =? "")%string then c else c <| c_id := id |> in
      let c := if (model =? "")%string then c else c <| c_model := model |> in
      mergeUsage u c
  end.

Definition blockStart (b : option (string * string * string)) (c : anthropicSSEConverter) : anthropicSSEConverter :=
  match b with
  | Some (ty, id, name) =>
      if (ty =? "tool_use")%string
      then writeChunk (DToolStart (c_toolIdx c) id name) None c <| c_toolIdx ::= fun n => n +! 1 |>
      else c
  | None => c
  end.

Definition blockDelta (d : option (string * string * string)) (c : anthropicSSEConverter) : anthropicSSEConverter :=
  match d with
  | Some (ty, text, partial) =>
      if (ty =? "text_delta")%string then writeChunk (DContent text) None c
      else if (ty =? "input_json_delta")%string then writeChunk (DToolArgs (c_toolIdx c -! 1) partial) None c
      else c
  | None => c
  end.

Definition anthropicStopReason (s : string) : string :=
  if (s =? "max_tokens")%string then "length" else if (s =? "tool_use")%string then "tool_calls" else "stop".

Definition messageDelta (d : option (string * option wireSSEUsage)) (c : anthropicSSEConverter) : anthropicSSEConverter :=
  match d with
  | None => c
  | Some (reason, u) =>
      let c := mergeUsage u c in
      if (reason =? "")%string then c
      else writeChunk DEmpty (Some (anthropicStopReason reason)) (c <| c_finishSent := true |>)
  end.

Definition error_message (e : string * string) : string :=
  if negb (e.2 =? "")%string then e.2 else if negb (e.1 =? "")%string then e.1 else "upstream stream error".

Definition writeError (e : option (string * string)) (c : anthropicSSEConverter) : anthropicSSEConverter :=
  writeDone (emit (match e with None => OFault | Some e => OError (error_message e) end) c).

(** One decoded frame; true once the stream has ended. *)
Definition feed_event (ev : aevent) (c : anthropicSSEConverter) : anthropicSSEConverter * bool :=
  match ev with
  | MessageStart m => (writeChunk DRole None (messageStart m c), false)
  | BlockStart b => (blockStart b c, false)
  | BlockDelta d => (blockDelta d c, false)
  | MessageDelta d => (messageDelta d c, false)
  | ErrorEvent e => (writeError e c <| c_done := true |>, true)
  | MessageStop => (writeDone (writeUsageChunk c) <| c_done := true |>, true)
  | OtherEvent => (c, false)
  end.

(** The data payload of a line. *)
Definition frame_payload (line : string) : option string :=
  let trimmed := trim_space line in
  if has_prefix trimmed "data:" then Some (trim_space (trim_prefix trimmed "data:")) else None.

Section Converter.
Context (decode : string -> option aevent).

Definition feed (line : string) (c : anthropicSSEConverter) : anthropicSSEConverter * bool :=
  match frame_payload line with
  | None => (c, false)
  | Some payload =>
      if (payload =? "[DONE]")%string then (c <| c_done := true |>, true)
      else match decode payload with None => (c, false) | Some ev => feed_event ev c end
  end.

Definition finish (c : anthropicSSEConverter) : anthropicSSEConverter :=
  if c_done c then c else
  let c := c <| c_done := true |> in
  let c := if c_finishSent c then c else writeChunk DEmpty (Some "stop"%string) c in
  writeDone (writeUsageChunk c).

(** The reading loop stops at the line that ends the stream. *)
Fixpoint feed_stream (ls : list string) (c : anthropicSSEConverter) : anthropicSSEConverter :=
  match ls with
  | [] => c
  | l :: ls => let '(c, ended) := feed l c in if ended then c else feed_stream ls c
  end.

Definition translate (created : Z) (body : string) : anthropicSSEConverter :=
  finish (feed_stream (read_lines body) (newAnthropicSSEConverter created)).

Definition streamThroughAnthropic (marshal : out_chunk -> string) (marshal_error api_error anthropicError : string -> string)
    (r : request) (created status : Z) (body : string) : reply :=
  if 400 <=? status then
    error_reply api_error status ("upstream returned " +:+ itoa status +:+ ": " +:+ anthropicError (limited body))
  else
  let c := translate created body in
  mkReply status (map (render marshal marshal_error) (c_w c)) (Some (turns r ""))
    (Some (with_exact (usage c) (estimated r (rq_session r) 0))).
End Converter.

(** ** The whole response *)

(** A content block: its type with the fields of a text or a tool_use block;
    [args] is the marshalled input. *)
Record ablock := mkBlock { ab_Type : string; ab_Text : string; ab_ID : string; ab_Name : string; ab_args : string }.

Record anthropicResponse := mkAnthropic {
  ar_ID : string;
  ar_StopReason : string;
  ar_Content : list ablock;
  ar_Usage : wireSSEUsage;
}.

(** The chat.completion written to the client. *)
Record completion := mkCompletion {
  cp_id : string;
  cp_created : Z;
  cp_model : string;
  cp_content : string;
  cp_tool_calls : list (string * string * string);
  cp_finish_reason : string;
  cp_usage : wire_usage;
}.

Definition response_text (l : list ablock) : string :=
  concat_strings (map ab_Text (List.filter (fun b => ab_Type b =? "text")%string l)).
Definition response_tools (l : list ablock) : list (string * string * string) :=
  map (fun b => (ab_ID b, ab_Name b, ab_args b)) (List.filter (fun b => ab_Type b =? "tool_use")%string l).

Definition to_completion (model : string) (now : Z) (a : anthropicResponse) : completion :=
  mkCompletion (ar_ID a) now model (response_text (ar_Content a)) (response_tools (ar_Content a))
    (anthropicStopReason (ar_StopReason a)) (translated_usage (ar_Usage a)).

Definition anthropicToOpenAIResponse (unmarshal : string -> result anthropicResponse) (marshal : completion -> result string)
    (model : string) (now : Z) (body : string) : result string :=
  match unmarshal body with
  | Err e => Err ("parse anthropic response: " +:+ e)
  | Ok a => match marshal (to_completion model now a) with
            | Err e => Err ("marshal openai response: " +:+ e)
            | Ok raw => Ok raw
            end
  end.

(** The readable text of an error body: its message, or the body itself. *)
Definition anthropicError (unmarshal_error : string -> option string) (body : string) : string :=
  match unmarshal_error body with
  | Some m => if (m =? "")%string then trim_space body else m
  | None => trim_space body
  end.

(** ** Reference readings of a stream *)

(** The frames the converter reads, and how the stream ends: with a message_stop,
    an error frame, the upstream's own [DONE], or because the bytes end. *)
Inductive ending := Stopped | Failed (e : option (string * string)) | DoneMark | Cut.

Definition frame_of (decode : string -> option aevent) (line : string) : option (aevent + ending) :=
  match frame_payload line with
  | None => None
  | Some payload =>
      if (payload =? "[DONE]")%string then Some (inr DoneMark) else
      match decode payload with
      | None => None
      | Some MessageStop => Some (inr Stopped)
      | Some (ErrorEvent e) => Some (inr (Failed e))
      | Some ev => Some (inl ev)
      end
  end.

Fixpoint script (decode : string -> option aevent) (ls : list string) : list aevent * ending :=
  match ls with
  | [] => ([], Cut)
  | l :: ls =>
      match frame_of decode l with
      | None => script decode ls
      | Some (inr e) => ([], e)
      | Some (inl ev) => let '(evs, e) := script decode ls in (ev :: evs, e)
      end
  end.

Definition text_delta (ev : aevent) : string :=
  match ev with BlockDelta (Some (ty, text, _)) => if (ty =? "text_delta")%string then text else "" | _ => "" end.

Definition frame_usage (ev : aevent) : option wireSSEUsage :=
  match ev with
  | MessageStart (Some (_, _, u)) => u
  | MessageDelta (Some (_, u)) => u
  | _ => None
  end.

Definition stop_reason (ev : aevent) : option string :=
  match ev with
  | MessageDelta (Some (reason, _)) => if (reason =? "")%string then None else Some (anthropicStopReason reason)
  | _ => None
  end.

(** The counters of a stream: the maxima over its frames. *)
Definition total_usage (evs : list aevent) : wireSSEUsage := foldl max_usage no_counters (omap frame_usage evs).

Definition metered (evs : list aevent) : normUsage * bool :=
  match omap frame_usage evs with
  | [] => (zero_usage, false)
  | _ => normalizeUpstreamUsage (Some (anthropic_usage (total_usage evs)))
  end.

(** The tool calls of a stream: one per tool_use block, with the arguments that
    arrive while it is the last one. *)
Definition add_args (a : string) (l : list (string * string * string)) : list (string * string * string) :=
  match rev l with
  | (id, name, args) :: r => rev r ++ [(id, name, args +:+ a)]
  | [] => []
  end.

Definition tool_step (l : list (string * string * string)) (ev : aevent) : list (string * string * string) :=
  match ev with
  | BlockStart (Some (ty, id, name)) => if (ty =? "tool_use")%string then l ++ [(id, name, ""%string)] else l
  | BlockDelta (Some (ty, _, partial)) => if (ty =? "input_json_delta")%string then add_args partial l else l
  | _ => l
  end.

Definition stream_tools (evs : list aevent) : list (string * string * string) := foldl tool_step [] evs.

(** What a client makes of the chunks: the arguments are appended to the call with
    the chunk's index. *)
Definition client_step (l : list (string * string * string)) (d : delta) : list (string * string * string) :=
  match d with
  | DToolStart i id name => if i =? Z.of_nat (length l) then l ++ [(id, name, ""%string)] else l
  | DToolArgs i a => if i <? 0 then l else alter (fun t => (t.1, t.2 +:+ a)) (Z.to_nat i) l
  | _ => l
  end.

Definition chunk_deltas (os : list out_event) : list delta :=
  omap (fun o => match o with OChunk c => fst <$> oc_choice c | _ => None end) os.
Definition chunk_finishes (os : list out_event) : list string :=
  omap (fun o => match o with OChunk c => oc_choice c ≫= snd | _ => None end) os.
Definition chunk_usages (os : list out_event) : list wire_usage :=
  omap (fun o => match o with OChunk c => oc_usage c | _ => None end) os.
Definition client_tools (os : list out_event) : list (string * string * string) := foldl client_step [] (chunk_deltas os).

Definition stream_id (evs : list aevent) : string :=
  foldl (fun i ev => match ev with MessageStart (Some (id, _, _)) => if (id =? "")%string then i else id | _ => i end) ""%string evs.
Definition stream_model (evs : list aevent) : string :=
  foldl (fun i ev => match ev with MessageStart (Some (_, m, _)) => if (m =? "")%string then i else m | _ => i end) ""%string evs.

(** What follows the chunks of a stream. *)
Definition stream_tail (created : Z) (evs : list aevent) (e : ending) : list out_event :=
  match e with
  | Stopped | Cut =>
      (if (metered evs).2 then [OChunk (mkOut (stream_id evs) created (stream_model evs) None (Some (chunk_usage (metered evs).1)))]
       else []) ++ [ODone]
  | Failed err => [match err with None => OFault | Some err => OError (error_message err) end; ODone]
  | DoneMark => []
  end.

(** The finish reasons a client sees: the upstream's, or a synthetic one for a
    stream that ends without. *)
Definition stream_finishes (evs : list aevent) (e : ending) : list string :=
  match omap stop_reason evs, e with [], Cut => ["stop"%string] | l, _ => l end.

(** The strings of a frame that reach the client as identity or text. *)
Definition frame_strings (ev : aevent) : list string :=
  text_delta ev :: match ev with MessageStart (Some (id, _, _)) => [id] | _ => [] end.
Definition stream_strings (evs : list aevent) : list string := ""%string :: flat_map frame_strings evs.

(** A chunk of the stream: one choice, no usage, strings of the frames. *)
Definition plain (created : Z) (evs : list aevent) (o : out_event) : Prop :=
  exists id model d f, o = OChunk (mkOut id created model (Some (d, f)) None)
    /\ id ∈ stream_strings evs /\ delta_text d ∈ stream_strings evs.

Definition terminal (ev : aevent) : bool := match ev with MessageStop | ErrorEvent _ => true | _ => false end.

(** ** The converter follows the frames *)

Lemma tool_args_len a l : length (add_args a l) = length l.
Proof.
  unfold add_args. rewrite <- (length_rev l). destruct (rev l) as [|[[id name] args] r]; [done|].
  rewrite length_app, length_rev. simpl. lia.
Qed.

Lemma add_args_snoc a l id name args : add_args a (l ++ [(id, name, args)]) = l ++ [(id, name, args +:+ a)].
Proof. unfold add_args. rewrite rev_app_distr. simpl. by rewrite rev_involutive. Qed.

(** The client's reading of an argument chunk for the last call. *)
Lemma client_args_last a l :
  Z.of_nat (length l) < 2 ^ 63 -> client_step l (DToolArgs (Z.of_nat (length l) -! 1) a) = add_args a l.
Proof.
  intros Hl. rewrite i64_id by (unfold in_i64; lia). simpl.
  destruct l as [|[[id name] args] l _] using rev_ind; [done|].
  rewrite add_args_snoc. rewrite length_app in *. simpl in Hl |- *. destruct (Z.ltb_spec (Z.of_nat (length l + 1) - 1) 0); [lia|].
  replace (Z.to_nat (Z.of_nat (length l + 1) - 1)) with (length l + 0)%nat by lia.
  by rewrite alter_app_r.
Qed.

Record tracks (created : Z) (evs : list aevent) (c : anthropicSSEConverter) : Prop := {
  tr_open : c_done c = false /\ c_usageSent c = false /\ c_created c = created;
  tr_plain : Forall (plain created evs) (c_w c);
  tr_text : concat_strings (map delta_text (chunk_deltas (c_w c))) = concat_strings (map text_delta evs);
  tr_finishes : chunk_finishes (c_w c) = omap stop_reason evs;
  tr_finish : c_finishSent c = negb (bool_decide (omap stop_reason evs = []));
  tr_counters : c_counters c = total_usage evs;
  tr_saw : c_sawUsage c = negb (bool_decide (omap frame_usage evs = []));
  tr_id : c_id c = stream_id evs;
  tr_model : c_model c = stream_model evs;
  tr_tools : client_tools (c_w c) = stream_tools evs;
  tr_toolIdx : c_toolIdx c = Z.of_nat (length (stream_tools evs));
}.

Lemma stream_tools_snoc evs ev : stream_tools (evs ++ [ev]) = tool_step (stream_tools evs) ev.
Proof. unfold stream_tools. by rewrite foldl_app. Qed.

Lemma client_tools_snoc l o :
  client_tools (l ++ [o]) = match chunk_deltas [o] with [d] => client_step (client_tools l) d | _ => client_tools l end.
Proof.
  unfold client_tools, chunk_deltas. rewrite omap_app, foldl_app. simpl. by destruct o as [[? ? ? [[]|] ?]| | |].
Qed.

Lemma concat_snoc l s : concat_strings (l ++ [s]) = concat_strings l +:+ s.
Proof. rewrite concat_strings_app. simpl. by rewrite string_app_nil. Qed.

Lemma stream_strings_snoc evs ev : stream_strings (evs ++ [ev]) = stream_strings evs ++ frame_strings ev.
Proof. unfold stream_strings. rewrite flat_map_app. simpl. by rewrite app_nil_r. Qed.

Lemma stream_id_snoc evs ev :
  stream_id (evs ++ [ev])
  = match ev with MessageStart (Some (id, _, _)) => if (id =? "")%string then stream_id evs else id | _ => stream_id evs end.
Proof. unfold stream_id. by rewrite foldl_app. Qed.

Lemma stream_model_snoc evs ev :
  stream_model (evs ++ [ev])
  = match ev with MessageStart (Some (_, m, _)) => if (m =? "")%string then stream_model evs else m | _ => stream_model evs end.
Proof. unfold stream_model. by rewrite foldl_app. Qed.

Lemma stream_id_string evs : stream_id evs ∈ stream_strings evs.
Proof.
  induction evs as [|ev evs IH] using rev_ind; [constructor|]. rewrite stream_id_snoc, stream_strings_snoc, elem_of_app.
  destruct ev as [[[[id ?] ?]|]| | | | | |]; auto. destruct (id =? "")%string; [auto|]. right. simpl. repeat constructor.
Qed.

Lemma plain_mono created evs ev o : plain created evs o -> plain created (evs ++ [ev]) o.
Proof.
  intros (id & m & d & f & -> & Hi & Hd). exists id, m, d, f. rewrite stream_strings_snoc, !elem_of_app. auto.
Qed.

(** A chunk written with the identity of the stream so far. *)
Definition own (created : Z) (evs : list aevent) (text : string) (o : out_event) : Prop :=
  exists d f, o = OChunk (mkOut (stream_id evs) created (stream_model evs) (Some (d, f)) None)
    /\ (delta_text d = ""%string \/ delta_text d = text).

Lemma own_chunk created evs text id m d f :
  id = stream_id evs -> m = stream_model evs -> delta_text d = ""%string \/ delta_text d = text ->
  Forall (own created evs text) [OChunk (mkOut id created m (Some (d, f)) None)].
Proof. intros -> -> H. constructor; [|constructor]. by exists d, f. Qed.

Definition given {A} (o : option A) : bool := match o with Some _ => true | None => false end.

(** A frame leaves the reading of a stream unchanged where it says nothing. *)
Lemma tracks_snoc created evs ev c c' os :
  tracks created evs c ->
  c_w c' = c_w c ++ os ->
  Forall (own created (evs ++ [ev]) (text_delta ev)) os ->
  c_done c' = false /\ c_usageSent c' = false /\ c_created c' = created ->
  concat_strings (map delta_text (chunk_deltas os)) = text_delta ev ->
  chunk_finishes os = option_list (stop_reason ev) ->
  c_finishSent c' = c_finishSent c || given (stop_reason ev) ->
  c_counters c' = from_option (max_usage (c_counters c)) (c_counters c) (frame_usage ev) ->
  c_sawUsage c' = c_sawUsage c || given (frame_usage ev) ->
  c_id c' = stream_id (evs ++ [ev]) -> c_model c' = stream_model (evs ++ [ev]) ->
  foldl client_step (stream_tools evs) (chunk_deltas os) = tool_step (stream_tools evs) ev ->
  c_toolIdx c' = Z.of_nat (length (tool_step (stream_tools evs) ev)) ->
  tracks created (evs ++ [ev]) c'.
Proof.
  intros [? P T F Fs C S ? ? Tl ?] Hw Hp Ho Ht Hf Hfs Hc Hs Hi Hm Htl Hx. split; try done.
  - rewrite Hw. apply Forall_app. split; [eapply Forall_impl; [done|]; intros; by apply plain_mono|].
    eapply Forall_impl; [exact Hp|]. intros o (d & f & -> & Hd). eexists _, _, _, _. split; [reflexivity|]. split; [apply stream_id_string|].
    rewrite stream_strings_snoc. simpl. destruct Hd as [->| ->]; [constructor|]. right. apply elem_of_app. right. constructor.
  - rewrite Hw. unfold chunk_deltas in *. rewrite omap_app, !map_app, concat_strings_app, T, Ht. simpl. by rewrite concat_snoc.
  - rewrite Hw. unfold chunk_finishes in *. rewrite !omap_app, F, Hf. simpl. by destruct (stop_reason ev).
  - rewrite Hfs, Fs, omap_app. simpl. destruct (stop_reason ev), (omap stop_reason evs); done.
  - rewrite Hc, C. unfold total_usage. rewrite omap_app, foldl_app. simpl. by destruct (frame_usage ev).
  - rewrite Hs, S, omap_app. simpl. destruct (frame_usage ev), (omap frame_usage evs); done.
  - rewrite Hw, stream_tools_snoc. unfold client_tools, chunk_deltas in *. by rewrite omap_app, foldl_app, Tl, Htl.
  - by rewrite stream_tools_snoc.
Qed.

(** [tracks_snoc] for a handler that writes nothing, and for one that writes a chunk. *)
Ltac track_with H os :=
  let K := fresh in let Hc := fresh in
  pose proof H as K; destruct K as [(? & ? & Hc) _ _ _ _ _ _ Hid Hmodel _ Hidx];
  cbn [c_created] in Hc; rewrite Hc in *; clear Hc;
  apply (tracks_snoc _ _ _ _ _ os H); try apply own_chunk; simpl; rewrite ?stream_id_snoc, ?stream_model_snoc, ?app_nil_r, ?orb_false_r;
  try done; auto.

Lemma tracks_start created evs m c :
  tracks created evs c -> tracks created (evs ++ [MessageStart m]) (writeChunk DRole None (messageStart m c)).
Proof.
  intros H. destruct c. destruct m as [[[id model] u]|].
  - unfold messageStart. destruct (id =? "")%string eqn:Ei, (model =? "")%string eqn:Em, u as [u|].
    all: track_with H [OChunk (mkOut (if (id =? "")%string then c_id0 else id) created (if (model =? "")%string then c_model0 else model) (Some (DRole, None)) None)].
    all: simpl in *; rewrite ?Ei, ?Em, ?orb_true_r; done.
  - track_with H [OChunk (mkOut c_id0 created c_model0 (Some (DRole, None)) None)].
Qed.

Lemma tracks_block_start created evs b c :
  Z.of_nat (length (stream_tools evs)) < 2 ^ 63 - 1 ->
  tracks created evs c -> tracks created (evs ++ [BlockStart b]) (blockStart b c).
Proof.
  intros Hlen H. destruct c. destruct b as [[[ty id] name]|]; [|track_with H (@nil out_event)].
  unfold blockStart. destruct (ty =? "tool_use")%string eqn:E.
  - track_with H [OChunk (mkOut c_id0 created c_model0 (Some (DToolStart c_toolIdx0 id name, None)) None)].
    all: simpl in *; rewrite E, Hidx. 
    + by rewrite Z.eqb_refl.
    + rewrite i64_succ by (unfold in_i64; lia). rewrite length_app. simpl. lia.
  - track_with H (@nil out_event). all: by rewrite E.
Qed.

Lemma tracks_block_delta created evs d c :
  Z.of_nat (length (stream_tools evs)) < 2 ^ 63 - 1 ->
  tracks created evs c -> tracks created (evs ++ [BlockDelta d]) (blockDelta d c).
Proof.
  intros Hlen H. destruct c. destruct d as [[[ty text] partial]|]; [|track_with H (@nil out_event)].
  unfold blockDelta. destruct (ty =? "text_delta")%string eqn:E; [|destruct (ty =? "input_json_delta")%string eqn:Ej].
  - assert (Ej : (ty =? "input_json_delta")%string = false) by (go_bool; by subst).
    track_with H [OChunk (mkOut c_id0 created c_model0 (Some (DContent text, None)) None)].
    all: simpl in *; rewrite ?E, ?Ej; try done; rewrite ?string_app_nil; auto.
  - track_with H [OChunk (mkOut c_id0 created c_model0 (Some (DToolArgs (c_toolIdx0 -! 1) partial, None)) None)].
    all: cbn [c_toolIdx] in Hidx; simpl; rewrite ?E, ?Ej; try done.
    + subst c_toolIdx0. change (if Z.of_nat (length (stream_tools evs)) -! 1 <? 0 then stream_tools evs
        else alter (fun t : string * string * string => (t.1, t.2 +:+ partial)) (Z.to_nat (Z.of_nat (length (stream_tools evs)) -! 1)) (stream_tools evs))
        with (client_step (stream_tools evs) (DToolArgs (Z.of_nat (length (stream_tools evs)) -! 1) partial)).
      apply client_args_last. lia.
    + by rewrite tool_args_len.
  - track_with H (@nil out_event). all: by rewrite ?E, ?Ej.
Qed.

Lemma tracks_delta created evs d c :
  tracks created evs c -> tracks created (evs ++ [MessageDelta d]) (messageDelta d c).
Proof.
  intros H. destruct c. destruct d as [[reason u]|]; [|track_with H (@nil out_event)].
  unfold messageDelta. destruct (reason =? "")%string eqn:E, u as [u|].
  1-2: track_with H (@nil out_event); rewrite ?E; simpl; by rewrite ?orb_true_r, ?orb_false_r.
  all: track_with H [OChunk (mkOut c_id0 created c_model0 (Some (DEmpty, Some (anthropicStopReason reason))) None)].
  all: simpl; rewrite ?E; simpl; by rewrite ?orb_true_r, ?orb_false_r.
Qed.

Lemma tracks_step created evs ev c :
  Z.of_nat (length (stream_tools evs)) < 2 ^ 63 - 1 -> terminal ev = false ->
  tracks created evs c -> tracks created (evs ++ [ev]) (feed_event ev c).1.
Proof.
  intros Hl Ht H. destruct ev; try done; simpl.
  - by apply tracks_start.
  - by apply tracks_block_start.
  - by apply tracks_block_delta.
  - by apply tracks_delta.
  - destruct c. track_with H (@nil out_event).
Qed.

(** What the end of a stream does to the converter. *)
Definition closed (e : ending) (c : anthropicSSEConverter) : anthropicSSEConverter :=
  match e with
  | Stopped => writeDone (writeUsageChunk c) <| c_done := true |>
  | Failed err => writeError err c <| c_done := true |>
  | DoneMark => c <| c_done := true |>
  | Cut => c
  end.

Definition handle (c : anthropicSSEConverter) (ev : aevent) : anthropicSSEConverter := (feed_event ev c).1.

Section Translation.
Context (decode : string -> option aevent).

Lemma feed_stream_script ls c :
  feed_stream decode ls c = closed (script decode ls).2 (foldl handle c (script decode ls).1).
Proof using.
  revert c. induction ls as [|l ls IH]; intros c; [done|]. cbn [feed_stream script]. unfold feed, frame_of.
  destruct (frame_payload l) as [p|]; [|apply IH]. destruct (p =? "[DONE]")%string; [done|].
  destruct (decode p) as [ev|]; [|apply IH].
  destruct ev; simpl; try done; rewrite IH; by destruct (script decode ls).
Qed.

Lemma script_open ls : Forall (fun ev => terminal ev = false) (script decode ls).1.
Proof using.
  induction ls as [|l ls IH]; [constructor|]. cbn [script]. unfold frame_of.
  destruct (frame_payload l) as [p|]; [|done]. destruct (p =? "[DONE]")%string; [constructor|].
  destruct (decode p) as [[]|]; try done; try constructor; destruct (script decode ls); by constructor.
Qed.

Lemma script_length ls : (length (script decode ls).1 <= length ls)%nat.
Proof using.
  induction ls as [|l ls IH]; [done|]. cbn [script]. destruct (frame_of decode l) as [[ev|e]|]; [|simpl; lia..].
  destruct (script decode ls). simpl in *. lia.
Qed.

Lemma stream_tools_length evs : (length (stream_tools evs) <= length evs)%nat.
Proof using.
  induction evs as [|ev evs IH] using rev_ind; [done|]. rewrite stream_tools_snoc, length_app. simpl.
  assert (H : (length (tool_step (stream_tools evs) ev) <= length (stream_tools evs) + 1)%nat); [|lia].
  destruct ev as [|[[[ty ?] ?]|]|[[[ty ?] ?]|]| | | |]; simpl; try lia; case_match; rewrite ?tool_args_len, ?length_app; simpl; lia.
Qed.

Lemma handle_tracks created evs :
  Forall (fun ev => terminal ev = false) evs -> Z.of_nat (length evs) < 2 ^ 63 ->
  tracks created evs (foldl handle (newAnthropicSSEConverter created) evs).
Proof using.
  induction evs as [|ev evs IH] using rev_ind; intros Ht Hl.
  - by split.
  - apply Forall_app in Ht as [Ht He]. inversion_clear He as [|? ? He' _]. rewrite length_app in Hl. simpl in Hl.
    rewrite foldl_app. cbn [foldl]. apply tracks_step; [|done|apply IH; [done|lia]].
    pose proof (stream_tools_length evs). lia.
Qed.

Lemma usage_tracks created evs c : tracks created evs c -> usage c = metered evs.
Proof using.
  intros [_ _ _ _ _ C S _ _ _ _]. unfold usage, metered. rewrite C, S. by destruct (omap frame_usage evs).
Qed.

(** The usage event, written once, before [DONE]. *)
Lemma usage_chunk_written created evs c :
  tracks created evs c ->
  writeDone (writeUsageChunk c) = c <| c_w ::= fun l => l ++ stream_tail created evs Stopped |> <| c_usageSent := (metered evs).2 |>.
Proof using.
  intros H. pose proof (usage_tracks _ _ _ H) as U. destruct H as [(? & Hs & Hc) _ _ _ _ _ _ I M _ _].
  unfold writeUsageChunk, stream_tail, writeDone, emit. rewrite U. destruct (metered evs) as [nu ok]. destruct c. simpl in *. subst.
  destruct ok; simpl; [by rewrite <- app_assoc|done].
Qed.
End Translation.

Lemma split_lines_length s : (length (split_lines s).1 + (if ((split_lines s).2 =? "")%string then 0 else 1) <= String.length s)%nat.
Proof.
  induction s as [|c s IH]; [done|]. cbn [split_lines]. destruct (split_lines s) as [ls r]. simpl in *.
  destruct (Ascii.eqb c lf); simpl; [lia|]. destruct ls; simpl in *; [destruct (r =? "")%string; lia|lia].
Qed.

Lemma read_lines_length body : Z.of_nat (length (read_lines body)) <= slen body.
Proof.
  unfold read_lines, slen. pose proof (split_lines_length body). destruct (split_lines body) as [ls r]. simpl in *.
  rewrite length_app, length_map. destruct (r =? "")%string; simpl; lia.
Qed.

(** ** Properties *)

Lemma finish_closed created evs e c :
  tracks created evs c ->
  let c' := finish (closed e c) in
  usage c' = metered evs /\
  exists chunks, c_w c' = (c_w c ++ chunks) ++ stream_tail created evs e /\ Forall (plain created evs) chunks
    /\ chunk_finishes chunks = (match omap stop_reason evs, e with [], Cut => ["stop"%string] | _, _ => [] end)
    /\ concat_strings (map delta_text (chunk_deltas chunks)) = ""%string
    /\ foldl client_step (client_tools (c_w c)) (chunk_deltas chunks) = client_tools (c_w c).
Proof.
  intros H. pose proof (usage_tracks _ _ _ H) as U. destruct e as [|err| |]; cbn [closed]; cbv zeta.
  - rewrite (usage_chunk_written created evs c H). split; [by destruct c|]. exists []. destruct c. simpl. rewrite app_nil_r.
    repeat split; try done; by destruct (omap _ _).
  - split; [by destruct c|]. exists []. destruct c, err as [err|]; simpl; rewrite app_nil_r, <- app_assoc; repeat split; try done;
      by destruct (omap _ _).
  - split; [by destruct c|]. exists []. destruct c; simpl. rewrite !app_nil_r. repeat split; try done; by destruct (omap _ _).
  - destruct H as [(Hd & Hs & Hcr) P T F Fs C S I M Tl X]. unfold finish. rewrite Hd. cbv zeta.
    match goal with |- context [if c_finishSent ?x then ?y else ?z] => set (c1 := if c_finishSent x then y else z) end.
    assert (H1 : exists chunks, c_w c1 = c_w c ++ chunks /\ Forall (plain created evs) chunks
      /\ chunk_finishes chunks = (match omap stop_reason evs with [] => ["stop"%string] | _ => [] end)
      /\ concat_strings (map delta_text (chunk_deltas chunks)) = ""%string
      /\ foldl client_step (client_tools (c_w c)) (chunk_deltas chunks) = client_tools (c_w c)
      /\ usage c1 = metered evs /\ c_usageSent c1 = false /\ c_created c1 = created /\ c_id c1 = stream_id evs /\ c_model c1 = stream_model evs).
    { subst c1. destruct c. simpl in *. subst. destruct (omap stop_reason evs); simpl.
      - eexists [_]. repeat split; try done. constructor; [|constructor]. eexists _, _, _, _. split; [done|]. split; [apply stream_id_string|constructor].
      - exists []. rewrite app_nil_r. repeat split; try done. }
    destruct H1 as (chunks & W & P1 & F1 & T1 & Tl1 & U1 & S1 & Cr1 & I1 & M1). clearbody c1.
    unfold writeUsageChunk, stream_tail, writeDone, emit. rewrite U1. destruct (metered evs) as [nu ok]. destruct c1. simpl in *. subst.
    destruct ok; simpl; (split; [exact U1|]); exists chunks; rewrite ?W, <- ?app_assoc; repeat split; done.
Qed.

(** The translation of a stream against its frames. *)
Lemma translate_spec decode created body :
  slen body < 2 ^ 63 ->
  let evs := (script decode (read_lines body)).1 in
  let e := (script decode (read_lines body)).2 in
  let c := translate decode created body in
  usage c = metered evs /\
  exists chunks, c_w c = chunks ++ stream_tail created evs e /\ Forall (plain created evs) chunks
    /\ concat_strings (map delta_text (chunk_deltas chunks)) = concat_strings (map text_delta evs)
    /\ chunk_finishes chunks = stream_finishes evs e
    /\ client_tools chunks = stream_tools evs.
Proof.
  intros Hl evs e c. unfold c, translate. rewrite feed_stream_script. fold evs e.
  assert (Hlen : Z.of_nat (length evs) < 2 ^ 63).
  { subst evs. pose proof (script_length decode (read_lines body)). pose proof (read_lines_length body). lia. }
  pose proof (handle_tracks created evs (script_open decode (read_lines body)) Hlen) as H.
  destruct (finish_closed created evs e _ H) as [U (chunks & W & P & F & T & Tl)]. split; [done|].
  destruct H as [_ P0 T0 F0 _ _ _ _ _ Tl0 _]. rewrite W. eexists. split; [done|]. split; [by apply Forall_app|].
  unfold client_tools, chunk_deltas, chunk_finishes in *. rewrite !omap_app, map_app, concat_strings_app, foldl_app, T0, T, F0, F, Tl, Tl0.
  split; [apply string_app_nil|]. split; [|done]. unfold stream_finishes. by destruct (omap stop_reason evs), e; rewrite ?app_nil_r.
Qed.

(** C12: a Messages stream in OpenAI dress.  Whatever bytes the upstream sends, the
    client receives chunks that say, in order, the text and the tool calls of its
    frames up to the one that ends the stream, and the finish reasons mapped (one
    is made up when the bytes end without any); then one usage event exactly if
    the frames accounted for something, and one [DONE]; after an error frame the
    error and [DONE] and no usage; and the recorded usage is the maximum of each
    counter over the frames. *)
Theorem stream_translated decode created body :
  slen body < 2 ^ 63 ->
  let evs := (script decode (read_lines body)).1 in
  let e := (script decode (read_lines body)).2 in
  let c := translate decode created body in
  usage c = metered evs /\
  exists chunks, c_w c = chunks ++ stream_tail created evs e /\ Forall (plain created evs) chunks
    /\ concat_strings (map delta_text (chunk_deltas chunks)) = concat_strings (map text_delta evs)
    /\ chunk_finishes chunks = stream_finishes evs e
    /\ client_tools chunks = stream_tools evs.
Proof. apply translate_spec. Qed.

(** What the codec promises of the error envelope: an object on one line, and no identity,
    choice or usage to the decoder. *)
Record error_laws (unmarshal : string -> option chunk) (marshal_error : string -> string) : Prop := {
  el_payload : forall m, payload (marshal_error m);
  el_done : forall m, (marshal_error m =? "[DONE]")%string = false;
  el_read : forall m, unmarshal (marshal_error m) = Some (mkChunk "" [] "");
  el_fault : unmarshal fault_envelope = Some (mkChunk "" [] "");
}.

Lemma fault_payload : payload fault_envelope.
Proof. split; [done|]. exists (String.substring 0 (String.length fault_envelope - 1) fault_envelope), "}"%char. split; [vm_compute; reflexivity|done]. Qed.

(** The counters of a metered stream read back from its usage event. *)
Lemma total_usage_nonneg evs : 0 <= fr_CacheCreationInputTokens (total_usage evs).
Proof.
  unfold total_usage. induction (omap frame_usage evs) as [|u l IH] using rev_ind; [done|]. rewrite foldl_app. simpl. lia.
Qed.

Lemma metered_reads evs nu :
  metered evs = (nu, true) -> normalizeUpstreamUsage (Some (read_usage (chunk_usage nu))) = (nu, true).
Proof.
  unfold metered. destruct (omap frame_usage evs); [done|]. rewrite normalize_anthropic. destruct (_ && _) eqn:E; [done|].
  intros [= <-]. unfold chunk_usage. rewrite normalize_client by apply total_usage_nonneg. simpl. by rewrite E.
Qed.

Lemma unmetered evs : (metered evs).2 = false -> metered evs = (zero_usage, false).
Proof.
  unfold metered. destruct (omap frame_usage evs); [done|]. unfold normalizeUpstreamUsage. by repeat case_match.
Qed.

(** The finish reason an event carries. *)
Definition finish_of (unmarshal : string -> option chunk) (payload : string) : option string :=
  if (payload =? "[DONE]")%string then None else
  match unmarshal payload with
  | Some evt => match ck_Choices evt with (_, f) :: _ => f | [] => None end
  | None => None
  end.

Section Client.
Context (marshal : out_chunk -> string) (unmarshal : string -> option chunk) (W : wire_laws marshal unmarshal).
Context (marshal_error : string -> string) (E : error_laws unmarshal marshal_error).
(** The usage object a decoder finds in a chunk decodes to the figures written. *)
Context (unmarshal_usage : string -> option upstreamUsage).
Hypothesis usage_read : forall c u raw, oc_usage c = Some u -> usage_of unmarshal (marshal c) = Some raw -> unmarshal_usage raw = Some (read_usage u).

Abbreviation raw := (payload_of marshal marshal_error).

Lemma raw_payload o : payload (raw o).
Proof using W E.
  destruct o; simpl; [by eapply marshal_payload|by apply (el_payload _ _ E)|apply fault_payload|apply done_payload].
Qed.

Definition out_text (o : out_event) : string :=
  match o with OChunk c => match oc_choice c with Some (d, _) => delta_text d | None => "" end | _ => "" end.
Definition out_usage (o : out_event) : bool := match o with OChunk c => given (oc_usage c) | _ => false end.
Definition out_utf8 (o : out_event) : Prop := match o with OChunk c => chunk_utf8 c | _ => True end.

Lemma empty_event p : unmarshal p = Some (mkChunk "" [] "") -> delta_of unmarshal p = ""%string /\ usage_of unmarshal p = None.
Proof using. intros H. unfold delta_of, usage_of. rewrite H. by destruct (p =? "[DONE]")%string. Qed.

Lemma raw_read o :
  out_utf8 o -> delta_of unmarshal (raw o) = out_text o /\ given (usage_of unmarshal (raw o)) = out_usage o.
Proof using W E.
  destruct o as [c|m| |]; simpl; intros H.
  - destruct (marshal_read _ _ W c H) as (-> & _ & U & _). split; [by destruct (oc_choice c) as [[]|]|]. exact U.
  - by destruct (empty_event _ (el_read _ _ E m)) as [-> ->].
  - by destruct (empty_event _ (el_fault _ _ E)) as [-> ->].
  - done.
Qed.

Lemma raw_finish o : out_utf8 o -> finish_of unmarshal (raw o) = match o with OChunk c => oc_choice c ≫= snd | _ => None end.
Proof using W E.
  destruct o as [c|m| |]; simpl; intros H; unfold finish_of.
  - rewrite (marshal_not_done _ _ W). destruct (wl_read _ _ W c H) as (u & -> & _). cbn. by destruct (oc_choice c) as [[d f]|].
  - rewrite (el_read _ _ E). by destruct (_ =? _)%string.
  - rewrite (el_fault _ _ E). by destruct (_ =? _)%string.
  - done.
Qed.

Lemma raws_finishes os : Forall out_utf8 os -> omap (finish_of unmarshal) (map raw os) = chunk_finishes os.
Proof using W E.
  induction 1 as [|o os H _ IH]; [done|]. unfold chunk_finishes in *. cbn [map omap list_omap]. rewrite raw_finish, IH by done. done.
Qed.

(** The usage objects of the writes are the written ones, decoded. *)
Lemma raws_usages os : Forall out_utf8 os ->
  map unmarshal_usage (omap (usage_of unmarshal) (map raw os)) = map (fun u => Some (read_usage u)) (chunk_usages os).
Proof using W E usage_read.
  induction 1 as [|o os H _ IH]; [done|]. unfold chunk_usages in *. cbn [map omap list_omap]. destruct (raw_read o H) as [_ U].
  destruct o as [c|m| |]; simpl in *; try (destruct (usage_of unmarshal _); [done|]; exact IH).
  destruct (oc_usage c) as [u|] eqn:Eu; destruct (usage_of unmarshal (marshal c)) as [x|] eqn:Ex; try done.
  - cbn [map]. rewrite IH. f_equal. by eapply usage_read.
  - exact IH.
Qed.

Lemma raws_read os : Forall out_utf8 os ->
  text_of unmarshal (map raw os) = concat_strings (map out_text os)
  /\ negb (bool_decide (omap (usage_of unmarshal) (map raw os) = [])) = existsb out_usage os.
Proof using W E.
  induction 1 as [|o os H _ [IHt IHu]]; [done|]. destruct (raw_read o H) as [D U]. split.
  - cbn [map]. rewrite text_of_cons, D, IHt. done.
  - cbn [map omap list_omap existsb]. rewrite <- U, <- IHu. destruct (usage_of unmarshal (raw o)); done.
Qed.
(** The writes a client gets of the whole stream: its text, its usage. *)
Lemma stream_reads created evs e chunks os :
  os = chunks ++ stream_tail created evs e -> Forall (plain created evs) chunks ->
  concat_strings (map delta_text (chunk_deltas chunks)) = concat_strings (map text_delta evs) ->
  Forall utf8_string (stream_strings evs) ->
  Forall out_utf8 os /\ concat_strings (map out_text os) = concat_strings (map text_delta evs)
  /\ existsb out_usage os = match e with Stopped | Cut => (metered evs).2 | _ => false end
  /\ existsb (fun o => match o with ODone => true | _ => false end) os = match e with DoneMark => false | _ => true end.
Proof using.
  intros -> P T Hu. rewrite Forall_forall in Hu.
  assert (Hc : Forall out_utf8 chunks /\ concat_strings (map out_text chunks) = concat_strings (map delta_text (chunk_deltas chunks))
               /\ existsb out_usage chunks = false /\ existsb (fun o => match o with ODone => true | _ => false end) chunks = false).
  { clear T. induction P as [|o l (id & m & d & f & -> & Hi & Hd) _ (IHu & IHt & IHn & IHd)]; [done|].
    split; [constructor; [split; simpl; by apply Hu|done]|]. split; [|done].
    exact (f_equal (String.append (delta_text d)) IHt). }
  destruct Hc as (Hc & Ht & Hn & Hd). rewrite map_app, concat_strings_app, Ht, T, !existsb_app, Hn, Hd.
  assert (Hid : utf8_string (stream_id evs)) by (apply Hu, stream_id_string). unfold stream_tail.
  destruct e as [|[]| |]; try destruct (metered evs) as [nu []]; simpl; rewrite ?string_app_nil, ?app_nil_r; (split; [|done]); try done.
  all: apply Forall_app; (split; [done|]); repeat constructor; done.
Qed.

Lemma raw_done o : "[DONE]"%string = raw o -> o = ODone.
Proof using W E.
  destruct o as [c|m| |]; [| | |done]; simpl; intros Ho.
  - pose proof (marshal_not_done _ _ W c) as H. by rewrite <- Ho in H.
  - pose proof (el_done _ _ E m) as H. by rewrite <- Ho in H.
  - by vm_compute in Ho.
Qed.

(** The last usage object of the stream, decoded and normalized. *)
Lemma usages_parse evs e raws :
  map unmarshal_usage (omap (usage_of unmarshal) raws)
    = map (fun u => Some (read_usage u)) (match e with Stopped | Cut => if (metered evs).2 then [chunk_usage (metered evs).1] else [] | _ => [] end) ->
  parseUsageRaw unmarshal_usage (default ""%string (list.last (omap (usage_of unmarshal) raws)))
    = match e with Stopped | Cut => metered evs | _ => (zero_usage, false) end.
Proof using.
  assert (Hne : Forall (fun x => 0 < slen x) (omap (usage_of unmarshal) raws)).
  { apply Forall_forall. intros x (p & _ & Hx)%list_elem_of_omap. unfold usage_of in Hx. destruct (p =? "[DONE]")%string; [done|].
    destruct (unmarshal p) as [evt|]; [|done]. unfold has_usage in Hx. destruct (0 <? slen (ck_Usage evt)) eqn:El; [|done]. cbn in Hx.
    destruct (negb _); [|done]. injection Hx as <-. by apply Z.ltb_lt. }
  assert (Hnil : parseUsageRaw unmarshal_usage "" = (zero_usage, false)) by done.
  destruct (omap (usage_of unmarshal) raws) as [|x l]; intros H.
  { change (default ""%string (list.last (@nil string))) with ""%string. rewrite Hnil. destruct e; try done; destruct (metered evs) as [nu []] eqn:Em; try done;
      (symmetry; rewrite <- Em; apply unmetered; by rewrite Em). }
  assert (Hx : l = [] /\ unmarshal_usage x = Some (read_usage (chunk_usage (metered evs).1)) /\ (metered evs).2 = true /\ (e = Stopped \/ e = Cut))
    by (destruct e; try done; destruct (metered evs).2; try done; destruct l; try done; injection H as ->; auto).
  destruct Hx as (-> & Hx & Hm & He). apply Forall_cons in Hne as [Hne _]. change (default ""%string (list.last [x])) with x. unfold parseUsageRaw.
  destruct (String.length x =? 0)%nat eqn:E0; [apply Nat.eqb_eq in E0; unfold slen in Hne; lia|]. rewrite Hx.
  destruct (metered evs) as [nu ok] eqn:Em. cbn [fst snd] in Hm |- *. subst ok. rewrite (metered_reads evs nu Em). by destruct He as [-> | ->].
Qed.

(** What the client finds beside the text: the usage, and where the stream ends. *)
Lemma tail_reads created evs e chunks : Forall (plain created evs) chunks ->
  chunk_usages (chunks ++ stream_tail created evs e)
    = (match e with Stopped | Cut => if (metered evs).2 then [chunk_usage (metered evs).1] else [] | _ => [] end)
  /\ chunk_finishes (chunks ++ stream_tail created evs e) = chunk_finishes chunks
  /\ (e <> DoneMark -> exists init, chunks ++ stream_tail created evs e = init ++ [ODone] /\ Forall (fun o => o <> ODone) init).
Proof using.
  intros P. assert (Hu : chunk_usages chunks = []) by (unfold chunk_usages; induction P as [|o l (? & ? & ? & ? & -> & _) _ IH]; done).
  assert (Hd : Forall (fun o => o <> ODone) chunks) by (eapply Forall_impl; [exact P|]; by intros o (? & ? & ? & ? & -> & _)).
  unfold chunk_usages, chunk_finishes in *. rewrite !omap_app, Hu. unfold stream_tail. destruct (metered evs) as [nu ok].
  destruct e as [|[err|]| |]; cbn [fst snd]; try destruct ok; cbn; rewrite ?app_nil_r; split_and!; try done; intros _.
  all: first [by exists chunks|eexists (chunks ++ [_]); split; [by rewrite <- app_assoc|apply Forall_app; split; [done|by constructor]]].
Qed.

(** C11: what the client of a translated stream gets.  Of a successful stream that
    does not end with the upstream's own [DONE], a client that reads the written
    bytes collects the text of the frames and sees the stream finish: the finish
    reasons it reads are those of the frames, mapped, one for each (one made up when the
    bytes end without any), and [DONE] comes once, last.  The usage it decodes has
    the figures the gateway records: the maxima over the frames, when they
    accounted for something and no error ended them, and none otherwise. *)
Theorem translation_read decode api_error ae r created status body limit :
  slen body < 2 ^ 63 -> 0 <= limit -> status < 400 ->
  let evs := (script decode (read_lines body)).1 in
  let e := (script decode (read_lines body)).2 in
  let rp := streamThroughAnthropic decode marshal marshal_error api_error ae r created status body in
  e <> DoneMark -> Forall utf8_string (stream_strings evs) ->
  Forall (fun w => slen w <= maxSSELineBytes) (rp_writes rp) -> slen (concat_strings (map text_delta evs)) <= limit ->
  let a := feed_all unmarshal (rp_writes rp) (newSSEAggregator limit) in
  Complete a = true /\ content a = concat_strings (map text_delta evs) /\
  (exists init, rp_writes rp = map sse_data (init ++ ["[DONE]"%string]) /\ ~ "[DONE]"%string ∈ init /\
     omap (finish_of unmarshal) init = stream_finishes evs e /\
     (length (omap (usage_of unmarshal) init) <= 1)%nat) /\
  rp_usage rp = Some (with_exact (metered evs) (estimated r (rq_session r) 0)) /\
  sawUsage a = (match e with Stopped | Cut => (metered evs).2 | _ => false end) /\
  parseUsageRaw unmarshal_usage (usageRaw a) = (match e with Stopped | Cut => metered evs | _ => (zero_usage, false) end).
Proof using W E usage_read.
  intros Hlen Hlim Hst evs e rp He Hu Hw Ht. destruct (translate_spec decode created body Hlen) as [U (chunks & Hc & P & T & F & _)].
  fold evs e in U, Hc, P, T, F.
  assert (Hrp : rp_writes rp = map sse_data (map raw (c_w (translate decode created body)))
                /\ rp_usage rp = Some (with_exact (metered evs) (estimated r (rq_session r) 0))).
  { subst rp. unfold streamThroughAnthropic. destruct (Z.leb_spec 400 status); [lia|]. cbn [rp_writes rp_usage]. rewrite U. by rewrite map_map. }
  destruct Hrp as [Hrw Hru]. rewrite Hrw in *.
  destruct (stream_reads created evs e chunks _ Hc P T Hu) as (Hou & Hot & Hon & Hod). destruct (tail_reads created evs e chunks P) as (Tu & Tf & Td).
  rewrite <- Hc in Tu, Tf, Td. set (os := c_w (translate decode created body)) in *.
  destruct (raws_read os Hou) as [Rt Rn]. rewrite <- Hot, <- Rt in *.
  pose proof (raws_usages os Hou) as Ru. rewrite Tu in Ru. pose proof (raws_finishes os Hou) as Rf. rewrite Tf, F in Rf.
  destruct (client_reads unmarshal (map raw os) limit) as [Cc [C _ S Ur _]]; try done.
  { intros Hnil. apply map_eq_nil in Hnil. rewrite Hnil in Hod. by destruct e. }
  { apply Forall_fmap, Forall_true. intros o. apply raw_payload. }
  { by rewrite Forall_fmap in Hw. }
  cbv zeta in *. rewrite Cc, C, S, Ur, Rn, Hon. split_and!; [|done| |done|done|].
  - assert (Ho1 : existsb (fun o => match o with ODone => true | _ => false end) os = true) by (rewrite Hod; by destruct e).
    apply existsb_exists in Ho1 as (o & Ho & Hd). apply existsb_exists. exists (raw o). split; [by apply in_map|].
    by destruct o.
  - destruct (Td He) as (init & Ei & Hni). rewrite Ei in *. exists (map raw init).
    rewrite !map_app, omap_app in *. cbn [map omap list_omap payload_of app] in *.
    change (finish_of unmarshal "[DONE]") with (@None string) in Rf. change (usage_of unmarshal "[DONE]") with (@None string) in Ru.
    rewrite app_nil_r in Rf. rewrite ?app_nil_r in Ru.
    split_and!; [done| |done|].
    + intros (o & Ho & Hin)%list_elem_of_fmap. rewrite Forall_forall in Hni. specialize (Hni o Hin). apply raw_done in Ho. done.
    + apply (f_equal length) in Ru. rewrite !length_map in Ru. rewrite Ru. destruct e; try destruct (metered evs).2; cbn; lia.
  - cbn [usageRaw newSSEAggregator]. apply (usages_parse evs e); done.
Qed.
End Client.

(** ** On concrete streams *)

Module AnthropicSample.
(** The codec of Relay.v, which takes any object that starts with a quoted field
    for an error envelope. *)
Definition marshal_error (m : string) : string := "{" +:+ quoted "error" +:+ Codec.enc m +:+ "}".
Definition unmarshal (s : string) : option chunk :=
  if has_prefix s (String "{" (String dquote "")) then Some (mkChunk "" [] "") else Codec.unmarshal s.

Lemma marshal_unquoted c : has_prefix (Codec.marshal c) (String "{" (String dquote "")) = false.
Proof. destruct c as [[|[[] [] [] [] [] [] [] []] s] ? ? ? ?]; reflexivity. Qed.

Lemma wire : wire_laws Codec.marshal unmarshal.
Proof.
  destruct Codec.laws as [S R]. split; [exact S|]. intros c H. destruct (R c H) as (u & Hu & Hn). exists u. split; [|done].
  unfold unmarshal. by rewrite marshal_unquoted.
Qed.

Lemma errors : error_laws unmarshal marshal_error.
Proof.
  split; [|done..]. intros m. split.
  - unfold marshal_error. change "{" with ("{" +:+ ""). repeat (apply one_line_app; [done|]). apply one_line_app; [apply Codec.enc_line|done].
  - unfold marshal_error. exists ("{" +:+ quoted "error" +:+ Codec.enc m), "}"%char. split; [|done]. by rewrite !string_app_assoc.
Qed.

Lemma sample_usage_laws c u raw : oc_usage c = Some u -> usage_of unmarshal (Codec.marshal c) = Some raw -> Codec.unmarshal_usage raw = Some (read_usage u).
Proof. unfold usage_of, unmarshal. rewrite marshal_unquoted. apply Codec.usage_laws. Qed.

(** Frames are single words. *)
Definition decode (p : string) : option aevent :=
  if (p =? "start")%string then Some (MessageStart (Some ("msg1", "claude", Some (mkFrame 10 1 3 7)))%string)
  else if (p =? "hello")%string then Some (BlockDelta (Some ("text_delta", "hello", ""))%string)
  else if (p =? "tool")%string then Some (BlockStart (Some ("tool_use", "t1", "ls"))%string)
  else if (p =? "args")%string then Some (BlockDelta (Some ("input_json_delta", "", "{}"))%string)
  else if (p =? "end")%string then Some (MessageDelta (Some ("tool_use"%string, Some (mkFrame 0 25 0 0))))
  else if (p =? "error")%string then Some (ErrorEvent (Some ("overloaded_error", "busy"))%string)
  else if (p =? "stop")%string then Some MessageStop else None.

Definition lines (ps : list string) : string := concat_strings (map (fun p => "data: " +:+ p +:+ newline)%string ps).
Definition body : string := lines ["start"; "hello"; "ping"; "tool"; "args"; "end"; "stop"].
Definition sent : reply :=
  streamThroughAnthropic decode Codec.marshal marshal_error (fun m => m) (fun m => m) Sample.request0 1000 200 body.

Example tools_and_usage :
  stream_tools (script decode (read_lines body)).1 = [("t1", "ls", "{}")]%string
  /\ metered (script decode (read_lines body)).1 = (mkNorm 20 25 7 3, true)
  /\ length (rp_writes sent) = 7%nat.
Proof. vm_compute. done. Qed.

(** A [DONE] line of the upstream before message_stop ends the reading, and nothing
    is written any more: the client's stream has no finish, no usage and no
    [DONE], though usage was reported and is recorded. *)
Example upstream_done_unterminated :
  let c := translate decode 1000 (lines ["start"; "hello"; "[DONE]"]) in
  chunk_finishes (c_w c) = [] /\ chunk_usages (c_w c) = [] /\ existsb (fun o => match o with ODone => true | _ => false end) (c_w c) = false
  /\ usage c = (mkNorm 20 1 7 3, true).
Proof. vm_compute. done. Qed.

(** A stream that fails half-way, read by a second gateway: the error envelope is
    an event without choices to the aggregator and [DONE] finishes the answer, so
    the partial text enters the second gateway's reuse library. *)
Example failed_stream_recorded :
  let sent := streamThroughAnthropic decode Codec.marshal marshal_error (fun m => m) (fun m => m) Sample.request0 1000 200
                (lines ["start"; "hello"; "error"]) in
  rp_session (streamThrough Codec.marshal unmarshal (fun _ => None) (fun m => m) Sample.request0 "r1" 200 (concat_strings (rp_writes sent)))
  = Some [("user", "how many words?"); ("assistant", "hello")]%string.
Proof. vm_compute. done. Qed.
End AnthropicSample.

Lemma stream_translated_witness :
  usage (translate AnthropicSample.decode 1000 AnthropicSample.body) = (mkNorm 20 25 7 3, true).
Proof. exact (proj1 (stream_translated AnthropicSample.decode 1000 AnthropicSample.body (proj1 (Z.ltb_lt (slen AnthropicSample.body) (2 ^ 63)) eq_refl))). Defined.

Lemma AnthropicSample_utf8 :
  Forall utf8_string (stream_strings (script AnthropicSample.decode (read_lines AnthropicSample.body)).1).
Proof.
  assert (H : forallb (fun s => ascii_only (string_bytes s))
    (stream_strings (script AnthropicSample.decode (read_lines AnthropicSample.body)).1) = true) by (vm_compute; done).
  apply Forall_forall. intros s Hs%list_elem_of_In. rewrite forallb_forall in H. by apply ascii_utf8, H.
Qed.

Lemma translation_read_witness :
  let a := feed_all AnthropicSample.unmarshal (rp_writes AnthropicSample.sent) (newSSEAggregator 100) in
  content a = "hello"%string /\ parseUsageRaw Codec.unmarshal_usage (usageRaw a) = (mkNorm 20 25 7 3, true).
Proof.
  refine ((fun H => conj (proj1 (proj2 H)) (proj2 (proj2 (proj2 (proj2 (proj2 H)))))) (translation_read Codec.marshal AnthropicSample.unmarshal AnthropicSample.wire AnthropicSample.marshal_error
    AnthropicSample.errors Codec.unmarshal_usage AnthropicSample.sample_usage_laws AnthropicSample.decode (fun m => m) (fun m => m) Sample.request0 1000 200 AnthropicSample.body 100
    _ _ _ _ AnthropicSample_utf8 _ _)).
  - apply Z.ltb_lt. vm_compute. reflexivity.
  - lia.
  - lia.
  - vm_compute. discriminate.
  - apply Forall_forall. intros l Hl. apply Z.leb_le.
    assert (H : forallb (fun l => slen l <=? maxSSELineBytes) (rp_writes AnthropicSample.sent) = true) by (vm_compute; reflexivity).
    rewrite forallb_forall in H. by apply H, list_elem_of_In.
  - apply Z.leb_le. vm_compute. reflexivity.
Defined.
