(* ===== verification/Gateway.v ===== *)
(** The gateway as a whole: gateway/server.go (routing and authentication), the
    pipeline of gateway/pipeline.go (handleChat, forward, false-hit tracking, usage
    recording) and the session sidecar and freshness of gateway/gateway.go.

    A request is handled by one function from the gateway's state to a reply, a
    trace of effects in the order of the code, and the next state.  The kernel
    parts are those of the other files, or, for the L3 decider, an interface that
    L3.v implements.  [encoding/json] is a record of codecs; the clock is read once
    per request.  Effects that the code runs in the background (slice statistics,
    ingestion) are recorded where they are scheduled. *)

From Stdlib Require Import ZArith Lia Bool Ascii String.
From stdpp Require Import tactics base option list gmap strings.
From S2P Require Import Prelude Float64 GoStrings GoFmt GoPath Json Slice Levenshtein Inject Judge L3 Quota UsageWire Usage Stream Relay Anthropic GatewayConfig Chat Messages.

#[global] Open Scope Z_scope.

(** ** The L3 decider, as the gateway uses it *)

Class Decider (W : Type) := {
  (** [DecideL3] *)
  decide_l3 : L3.Query -> W -> result (option L3Result) * W;
  (** a fresh accumulator and judge collector for one request *)
  per_request : W -> W;
  (** what they hold afterwards *)
  observed : W -> Obs;
  collected : W -> list JudgeObservation;
}.

(** [observeJudge]: the usage record of one judge observation. *)
Definition decision_of (o : JudgeObservation) : JudgeDecision :=
  Usage.mkDecision (jo_SliceID o) (jo_RelConfidence o) (jo_Verdict o) (jo_Reason o) (jo_Called o) (jo_FailClosed o) (jo_Err o)
    (Z.quot (jo_Latency o) 1000000) (Z.quot (jo_PromptBytes o) 4).

(** ** State, requests and effects *)

Record l3ReuseEntry := mkReuse { re_Query : string; re_SliceID : string; re_At : Z }.

Definition maxL3ReuseEntries : nat := 1024.

Record gateway (W : Type) := mkGateway {
  g_world : W;
  g_reuses : gmap string l3ReuseEntry;
  g_closing : bool;
  g_quota : option quotaEngine;
}.
Arguments mkGateway {W}.
Arguments g_world {W}.
Arguments g_reuses {W}.
Arguments g_closing {W}.
Arguments g_quota {W}.
#[export] Instance gateway_eta W : Eta (gateway W) := fun g => mkGateway (g_world g) (g_reuses g) (g_closing g) (g_quota g).

(** What goes to an upstream. *)
Record upstream_call := mkCall { uc_URL : string; uc_headers : list (string * string); uc_body : string }.

Inductive effect :=
| EUsage (e : Event)                                    (* recordUsage *)
| EStats (deltas : gmap string SliceStats)              (* recordSliceStats *)
| EHit (path slice : string)                            (* recordSliceEvent SliceHit *)
| EInject (path : string) (slices : list string) (bytes : Z)      (* recordSliceEvent SliceInject *)
| EAdapt (slice : string) (negative : bool)             (* adapt.Observe *)
| ERetrieval (session query : string) (i : Injection)   (* recordRetrieval *)
| ECall (c : upstream_call)                             (* one attempt *)
| ESession (path : string) (turns : list (string * string))       (* recordSession *)
| EProbe (url authorization : string).                           (* a GET of the health probe *)

(** An upstream's answer: its status, the bytes of its body, and what a limited
    read of them returns. *)
Record upstream_response := mkResponse { ur_status : Z; ur_body : string; ur_read : result string }.

(** What becomes of the health probe of an upstream: its URL makes no request, the
    request fails (the error without its URL), or there is a status. *)
Inductive probe_answer := ProbeUnbuilt (err : string) | ProbeFailed (reason : string) | ProbeStatus (status : Z).

(** What the outside answers while one request is served: the instant in seconds
    and in nanoseconds (for served answers, and for the quota gate with the instant
    after its wallet probe), a fresh random identity, the wallet, the health probe of each upstream, and the two
    attempts at the upstream. *)
Record env := mkEnv {
  e_now : Z;
  e_nano : Z;
  e_after : Z;
  e_fresh : string;
  e_wallet : option bool;
  e_probe : UpstreamConfig -> probe_answer;
  e_first : result upstream_response;
  e_second : result upstream_response;
}.

Record http_request := mkHTTP {
  h_Path : string; h_Method : string; h_Authorization : string; h_Session : string; h_Scope : string; h_Body : result string;
}.

(** A reply to the client: the [x-semantix-cache] header, the other headers of
    interest, the status and the writes. *)
Record greply := mkReplyH { gr_cache : string; gr_headers : list (string * string); gr_status : Z; gr_writes : list string }.
#[export] Instance greply_eta : Eta greply := fun r => mkReplyH (gr_cache r) (gr_headers r) (gr_status r) (gr_writes r).
Definition mkGReply (cache : string) (status : Z) (writes : list string) : greply := mkReplyH cache [] status writes.

(** The response built for a hit. *)
Record chatCompletion := mkCompletion { cc_id : string; cc_created : Z; cc_model : string; cc_content : string; cc_usage : wire_usage }.

Record codecs := mkCodecs {
  c_chat : string -> result chatRequest;
  c_messages : list chatMessage -> string;
  c_sha : string -> string;
  c_raw : string -> option (gmap string json);
  c_raw_out : gmap string json -> string;
  c_any : string -> option json;
  c_openai : string -> result openAIChatBody;
  c_anthropic : anthropicRequest -> string;
  c_completion : chatCompletion -> string;
  c_chunk_out : out_chunk -> string;
  c_chunk : string -> option chunk;
  c_usage : string -> option upstreamUsage;
  c_body_usage : string -> option (option upstreamUsage);
  c_content : string -> option (list string);
  c_error : string -> string -> string -> string; (* type, code and message *)
  c_models : list string -> string;
  c_quota : quotaStatus -> string;
  c_frame : string -> option aevent;
  c_frame_error : string -> string;
  c_response : string -> result anthropicResponse;
  c_response_out : Anthropic.completion -> result string;
  c_anthropic_error : string -> option string;
}.

Section Gateway.
Context {W : Type} `{Decider W} `{UnicodePrint}.
Context (J : codecs) (cfg : GatewayConfig.Config) (disabled : bool) (adaptive : bool) (defaultScope : Scope)
  (store_get : string -> option Slice) (build : string -> result Injection)
  (order : gmap string l3ReuseEntry -> list (string * l3ReuseEntry)).

Abbreviation G := (gateway W).

(** ** Scopes and freshness *)

Definition parseScope (s : string) : result Scope :=
  if one_of s [""; "project"]%string then Ok Project
  else if (s =? "session")%string then Ok Session
  else if (s =? "user")%string then Ok User
  else Err ("gateway config: [store] scope " +:+ quote s +:+ " must be session, project, or user").

Definition resolveScope (r : http_request) : result Scope :=
  if (h_Scope r =? "")%string then Ok defaultScope else parseScope (h_Scope r).

Definition cacheFresh (now : Z) (s : Slice) (vendor : string) : bool :=
  let ttl := TTLFor cfg vendor in
  if ttl <=? 0 then true
  else if (CreatedAt s <=? 0) || (now <? CreatedAt s) then false
  else now -! CreatedAt s <=? ttl.

(** A slice that left the store fails closed. *)
Definition l3Eligible (now : Z) (id vendor : string) : bool :=
  match store_get id with Some s => cacheFresh now s vendor | None => false end.

(** ** False-hit tracking *)

Definition DefaultFalseHitSim : f64 := f_of_ratio 6 10.

Definition falseHitSim : f64 :=
  let sim := ca_FalseHitSim (Cache cfg) in
  if (sim <? f0)%f64 then f0 else if (sim =? f0)%f64 then DefaultFalseHitSim else sim.

Definition detectFalseHit (session query : string) (g : G) : bool * list effect * G :=
  if (session =? "")%string || (falseHitSim <=? f0)%f64 then (false, [], g)
  else match g_reuses g !! session with
       | None => (false, [], g)
       | Some entry =>
           let g := g <| g_reuses ::= delete session |> in
           if (normalizedEditRatio (re_Query entry) query >=? falseHitSim)%f64 then
             (true, if adaptive && negb (re_SliceID entry =? "")%string then [EAdapt (re_SliceID entry) true] else [], g)
           else (false, [], g)
       end.

(** The key of the oldest entry: the first of the iteration among equals. *)
Definition older (acc : string * Z) (kv : string * l3ReuseEntry) : string * Z :=
  if (acc.1 =? "")%string || (re_At kv.2 <? acc.2) then (kv.1, re_At kv.2) else acc.
Definition oldestKey (m : gmap string l3ReuseEntry) : string := (foldl older (""%string, 0) (order m)).1.

Definition recordL3Reuse (now : Z) (session query slice : string) (g : G) : list effect * G :=
  let adapted := if adaptive && negb (slice =? "")%string then [EAdapt slice false] else [] in
  if (session =? "")%string then (adapted, g)
  else
    let m := <[session := mkReuse query slice now]> (g_reuses g) in
    (adapted, g <| g_reuses := if (maxL3ReuseEntries <? base.size m)%nat then delete (oldestKey m) m else m |>).

(** ** Recording *)

(** [^[A-Za-z0-9_-]{1,64}$] *)
Definition session_char (c : ascii) : bool :=
  let b := byte_of c in in_range 65 90 b || in_range 97 122 b || in_range 48 57 b || (b =? 95) || (b =? 45).
Definition session_id_ok (s : string) : bool :=
  (1 <=? slen s) && (slen s <=? 64) && forallb session_char (list_ascii_of_string s).

Definition session_file (fresh session : string) : string :=
  (if (session =? "")%string || negb (session_id_ok session) then "gw-" +:+ fresh else session) +:+ ".jsonl".

(** The sidecar of a session, unless the gateway is closing or keeps none. *)
Definition sidecar (fresh session : string) (g : G) : option string :=
  if g_closing g then None
  else if (ig_SessionsDir (Ingest cfg) =? "")%string then None
  else Some (Join (ig_SessionsDir (Ingest cfg)) (session_file fresh session)).

Definition recordSession (fresh session : string) (turns : list (string * string)) (g : G) : list effect :=
  match sidecar fresh session g with Some path => [ESession path turns] | None => [] end.

Definition recordUsage (e : Event) (g : G) : list effect * G :=
  ([EUsage e], g <| g_quota ::= fmap (Quota.recordUsage (Quota.mkUsage (TokensIn e) (TokensOut e) (L3Reuse e))) |>).

Definition recordSliceStats (deltas : gmap string SliceStats) (g : G) : list effect :=
  if (base.size deltas =? 0)%nat || g_closing g then [] else [EStats deltas].

Definition recordRetrieval (session query : string) (inj : option Injection) : list effect :=
  match inj with
  | Some i => if (rt_EventsLog (Retrieval cfg) =? "")%string then [] else [ERetrieval session query i]
  | None => []
  end.

Definition api_error (status : Z) (typ msg : string) : greply := mkGReply "" status [c_error J typ "" msg].

(** ** The upstream *)

Fixpoint trim_slashes (s : string) : string :=
  match s with
  | EmptyString => ""
  | String c t => let t := trim_slashes t in if (t =? "")%string && Ascii.eqb c "/" then "" else String c t
  end.

Definition anthropicVersion : string := "2023-06-01".

Definition upstream_request (up : UpstreamConfig) (body : string) : upstream_call :=
  let anthropic := (up_Vendor up =? "anthropic")%string in
  mkCall (trim_slashes (up_BaseURL up) +:+ (if anthropic then "/messages" else "/chat/completions"))
    (("Content-Type", "application/json")%string ::
     (if anthropic then [("x-api-key", up_APIKey up); ("anthropic-version", anthropicVersion)]%string
      else [("Authorization", "Bearer " +:+ up_APIKey up)]%string)) body.

(** A failed attempt is repeated once. *)
Definition forward (e : env) (up : UpstreamConfig) (body : string) : result upstream_response * list effect :=
  let c := upstream_request up body in
  match e_first e with
  | Ok r => (Ok r, [ECall c])
  | Err _ => (e_second e, [ECall c; ECall c])
  end.

(** ** One request *)

(** [decideL3]: a decider error behaves like a miss. *)
Definition decideL3 (q : L3.Query) (g : G) : option L3Result * Obs * list JudgeObservation * G :=
  let '(res, w) := decide_l3 q (per_request (g_world g)) in
  (match res with Ok r => r | Err _ => None end, observed w, collected w, g <| g_world := w |>).

(** The adaptive feedback of [observeJudge]. *)
Definition judge_feedback (os : list JudgeObservation) : list effect :=
  flat_map (fun o => if adaptive && (jo_Verdict o =? JudgeDeclined)%string && negb (jo_SliceID o =? "")%string
                     then [EAdapt (jo_SliceID o) true] else []) os.

Record l3_outcome := mkOutcome { lo_served : option L3Result; lo_obs : Obs; lo_falseHit : bool; lo_judges : list JudgeDecision }.

Definition try_l3 (e : env) (session vendor : string) (q : L3.Query) (g : G) : l3_outcome * list effect * G :=
  if disabled then (mkOutcome None zero_obs false [], [], g)
  else
    let '(retry, eff, g) := detectFalseHit session (q_UserInput q) g in
    if retry then (mkOutcome None zero_obs true [], eff, g)
    else
      let '(res, obs, judged, g) := decideL3 q g in
      let served := match res with Some r => if l3Eligible (e_now e) (r_SliceID r) vendor then Some r else None | None => None end in
      (mkOutcome served obs false (map decision_of judged), eff ++ judge_feedback judged, g).

(** What the request carries into the accounting of its reply. *)
Definition relay_request (e : env) (session : string) (req : chatRequest) (query : string) (up : UpstreamConfig)
    (injected hits : Z) (o : l3_outcome) : Relay.request :=
  Relay.mkRequest session (Chat.Model req) query injected hits (up_Name up) (up_Vendor up) (lo_judges o) (lo_obs o) (lo_falseHit o) (e_now e)
    (map (fun m => (Role m, textParts (Chat.Content m))) (Messages req)).

Definition hit_event (e : env) (session query : string) (req : chatRequest) (up : UpstreamConfig) (o : l3_outcome) (r : L3Result) : Event :=
  withL3Obs
    (zero_event <| SessionID := session |> <| Provider := up_Name up |> <| Vendor := up_Vendor up |> <| Usage.Model := Chat.Model req |>
       <| TokensIn := quarter query +! quarter (r_Response r) |> <| TokensOut := 0 |> <| CacheHitToken := quarter (r_Response r) |>
       <| L3Reuse := true |> <| L3SliceID := r_SliceID r |> <| JudgeDecisions := lo_judges o |> <| At := e_now e |>)
    (lo_obs o) false.

(** [replyFromCache]. *)
Definition replyFromCache (e : env) (rq : Relay.request) (stream : bool) (r : L3Result) : greply :=
  let cached := quarter (r_Response r) in
  let total := quarter (rq_query rq) +! cached in
  mkGReply "hit" 200
    (if stream then replayStream (c_chunk_out J) rq (e_fresh e) (r_SliceID r) (r_Response r)
     else [c_completion J (mkCompletion ("chatcmpl-" +:+ r_SliceID r) (e_now e) (rq_model rq) (r_Response r)
                             (mkWire total 0 total (Some (cached, None)) "bytes/4"))]).

Definition used_once (now : Z) : SliceStats := Slice.zero_stats <| Hits := 1 |> <| LastUsed := now |>.
Definition injected_once (now : Z) : SliceStats := Slice.zero_stats <| Injected := 1 |> <| LastUsed := now |>.

Definition serve_hit (e : env) (session query : string) (req : chatRequest) (up : UpstreamConfig) (o : l3_outcome) (r : L3Result) (g : G) :
    greply * list effect * G :=
  let '(usage, g) := recordUsage (hit_event e session query req up o r) g in
  let stats := recordSliceStats {[r_SliceID r := used_once (e_now e)]} g in
  let hit := match sidecar (e_fresh e) session g with Some path => [EHit path (r_SliceID r)] | None => [] end in
  let '(adapted, g) := recordL3Reuse (e_nano e) session query (r_SliceID r) g in
  (replyFromCache e (relay_request e session req query up 0 0 o) (Stream req) r, usage ++ stats ++ hit ++ adapted, g).

(** The effects of a provider's acceptance of the injected block. *)
Definition record_injection (e : env) (session : string) (inj : option Injection) (status : Z) (g : G) : list effect :=
  match inj with
  | Some i =>
      if (200 <=? status) && (status <? 300) && (0 <? length (i_Slices i))%nat then
        let ids := map ID (i_Slices i) in
        recordSliceStats (list_to_map (map (fun id => (id, injected_once (e_now e))) ids)) g
        ++ match sidecar (e_fresh e) session g with Some path => [EInject path ids (i_Bytes i)] | None => [] end
      else []
  | None => []
  end.

(** The body sent upstream. *)
Definition outgoing (up : UpstreamConfig) (inj : option Injection) (body : string) : result string :=
  if (up_Vendor up =? "anthropic")%string then
    toAnthropicRequest (c_any J) (c_openai J) (c_anthropic J) (sanitizeBody (c_raw J) (c_raw_out J) (GatewayConfig.Sanitize cfg) up body) up inj
  else Ok (rewriteOutgoing (c_raw J) (c_raw_out J) (GatewayConfig.Sanitize cfg) up (match inj with Some i => i_Text i | None => "" end) body).

(** Relaying the upstream's answer. *)
Definition relay_reply (e : env) (rq : Relay.request) (stream : bool) (resp : upstream_response) : Relay.reply :=
  let err := c_error J "upstream_error" "" in
  let aerr := anthropicError (c_anthropic_error J) in
  if stream then
    if (rq_vendor rq =? "anthropic")%string then
      streamThroughAnthropic (c_frame J) (c_chunk_out J) (c_frame_error J) err aerr rq (e_now e) (ur_status resp) (ur_body resp)
    else streamThrough (c_chunk_out J) (c_chunk J) (c_usage J) err rq (e_fresh e) (ur_status resp) (ur_body resp)
  else
    passthrough (c_body_usage J) (c_content J) err
      (anthropicToOpenAIResponse (c_response J) (c_response_out J) (rq_model rq) (e_now e)) aerr rq (ur_status resp) (ur_read resp).

(** [recordSession], then [recordUsage]. *)
Definition record_reply (e : env) (session : string) (rp : Relay.reply) (g : G) : greply * list effect * G :=
  let turns := match rp_session rp with Some t => recordSession (e_fresh e) session t g | None => [] end in
  match rp_usage rp with
  | Some ev => let '(usage, g) := recordUsage ev g in (mkGReply "miss" (rp_status rp) (rp_writes rp), turns ++ usage, g)
  | None => (mkGReply "" (rp_status rp) (rp_writes rp), turns, g)
  end.

Definition upstream_path (e : env) (session query : string) (req : chatRequest) (up : UpstreamConfig) (o : l3_outcome) (body : string) (g : G) :
    greply * list effect * G :=
  let inj := if disabled then None else match build query with Ok i => Some i | Err _ => None end in
  let retrieval := recordRetrieval session query inj in
  let tokens := match inj with Some i => Z.quot (i_Bytes i) 4 | None => 0 end in
  let hits := match inj with Some i => Z.of_nat (length (i_Slices i)) | None => 0 end in
  match outgoing up inj body with
  | Err msg => (api_error 400 "invalid_request_error" ("anthropic conversion: " +:+ msg), retrieval, g)
  | Ok out =>
      let '(answer, calls) := forward e up out in
      match answer with
      | Err msg => (api_error 502 "upstream_error" ("upstream request failed: " +:+ msg), retrieval ++ calls, g)
      | Ok resp =>
          let accepted := record_injection e session inj (ur_status resp) g in
          let rp := relay_reply e (relay_request e session req query up tokens hits o) (Stream req) resp in
          let '(reply, eff, g) := record_reply e session rp g in
          (reply, retrieval ++ calls ++ accepted ++ eff, g)
      end
  end.

Definition handleChat (e : env) (r : http_request) (body : string) (g : G) : greply * list effect * G :=
  match parseChatRequest (c_chat J) body with
  | Err msg => (api_error 400 "invalid_request_error" msg, [], g)
  | Ok req =>
      match UpstreamFor cfg (Chat.Model req) with
      | None => (api_error 404 "model_not_found" ("model " +:+ quote (Chat.Model req) +:+ " is not routed by this gateway"), [], g)
      | Some up =>
          let query := default "" (lastUserText (Messages req)) in
          match resolveScope r with
          | Err msg => (api_error 400 "invalid_request_error" msg, [], g)
          | Ok scope =>
              let q := L3.mkQuery "" query "" (contextHash (c_messages J) (c_sha J) (Messages req)) scope (Chat.Model req)
                         (mkFreshness (e_now e) (TTLFor cfg (up_Vendor up))) in
              let '(o, eff, g) := try_l3 e (h_Session r) (up_Vendor up) q g in
              match lo_served o with
              | Some res => let '(reply, eff', g) := serve_hit e (h_Session r) query req up o res g in (reply, eff ++ eff', g)
              | None => let '(reply, eff', g) := upstream_path e (h_Session r) query req up o body g in (reply, eff ++ eff', g)
              end
          end
      end
  end.

(** ** The server *)

Definition setQuotaHeaders (st : quotaStatus) : list (string * string) :=
  [("x-semantix-quota-limit", itoa (st_FreeTokens st)); ("x-semantix-quota-used", itoa (st_UsedTokens st));
   ("x-semantix-quota-remaining", itoa (st_RemainingTokens st)); ("x-semantix-quota-mode", st_Mode st)]%string
  ++ (if st_Exhausted st && negb (st_RechargeURL st =? "")%string then [("x-semantix-quota-recharge-url"%string, st_RechargeURL st)] else []).

Definition blocked_message (st : quotaStatus) : string :=
  "free tier exhausted: " +:+ itoa (st_UsedTokens st) +:+ " of " +:+ itoa (st_FreeTokens st) +:+ " free tokens used. Top up at "
  +:+ st_RechargeURL st +:+ " to continue — access unlocks automatically once your platform balance is active. 免费额度已用完（已使用 "
  +:+ itoa (st_UsedTokens st) +:+ " / " +:+ itoa (st_FreeTokens st) +:+ " tokens）。请前往 " +:+ st_RechargeURL st +:+ " 充值，到账后自动恢复使用。".

(** The gate of one chat request: the headers it stamps, and the refusal. *)
Definition admitQuota (e : env) (g : G) : list (string * string) * option greply * G :=
  match g_quota g with
  | None => ([], None, g)
  | Some q =>
      let '(st, _, q) := Status (e_nano e) (e_after e) (e_wallet e) q in
      let g := g <| g_quota := Some q |> in
      let headers := setQuotaHeaders st in
      if negb (st_Mode st =? quotaModeBlocked)%string then (headers, None, g)
      else (headers, Some (mkReplyH "" headers 402 [c_error J "insufficient_quota" "free_tier_exhausted" (blocked_message st)]), g)
  end.

Definition authenticate (r : http_request) : option greply :=
  let auth := h_Authorization r in
  if (slen auth <=? slen "Bearer ") || negb (has_prefix auth "Bearer ") then Some (api_error 401 "authentication_error" "missing bearer token")
  else if negb (trim_prefix auth "Bearer " =? sv_GatewayKey (Server cfg))%string then Some (api_error 401 "authentication_error" "invalid gateway key")
  else None.

Definition healthy : string := "{" +:+ quoted "status" +:+ ":" +:+ quoted "ok" +:+ "}".

Definition probe_of (up : UpstreamConfig) : effect :=
  EProbe (trim_slashes (up_BaseURL up) +:+ "/models") ("Bearer " +:+ up_APIKey up).

(** [probeUpstreams]: one upstream after the other, up to the first that fails. *)
Fixpoint probe_each (e : env) (ups : list UpstreamConfig) : option string * list effect :=
  match ups with
  | [] => (None, [])
  | up :: ups =>
      let name := "upstream " +:+ up_Name up in
      match e_probe e up with
      | ProbeUnbuilt err => (Some (name +:+ ": " +:+ err), [])
      | ProbeFailed reason => (Some (name +:+ " unreachable: " +:+ reason), [probe_of up])
      | ProbeStatus st =>
          if (st <? 200) || (300 <=? st) then (Some (name +:+ " unhealthy: status " +:+ itoa st), [probe_of up])
          else let '(err, eff) := probe_each e ups in (err, probe_of up :: eff)
      end
  end.
Definition probeUpstreams (e : env) : option string * list effect := probe_each e (Upstreams cfg).

(** [time.Duration(seconds) * time.Second] *)
Definition health_timeout : Z := i64 (sv_HealthTimeoutSeconds (Server cfg) * 1000000000).

Definition handleHealth (e : env) : greply * list effect :=
  if 0 <? health_timeout then
    match probeUpstreams e with
    | (Some msg, eff) => (api_error 503 "upstream_error" msg, eff)
    | (None, eff) => (mkGReply "" 200 [healthy], eff)
    end
  else (mkGReply "" 200 [healthy], []).

Definition handleModels : greply := mkGReply "" 200 [c_models J (ModelList cfg)].

Definition handleQuota (e : env) (g : G) : greply * G :=
  match g_quota g with
  | None => (api_error 404 "not_found" "billing is not enabled on this gateway", g)
  | Some q => let '(st, _, q) := Status (e_nano e) (e_after e) (e_wallet e) q in
              (mkReplyH "" (setQuotaHeaders st) 200 [c_quota J st], g <| g_quota := Some q |>)
  end.

Definition not_allowed : greply := api_error 405 "invalid_request_error" "method not allowed".

Definition ServeHTTP (e : env) (r : http_request) (g : G) : greply * list effect * G :=
  let get (k : greply * list effect * G) := if (h_Method r =? "GET")%string then k else (not_allowed, [], g) in
  let authenticated (k : greply * list effect * G) := match authenticate r with Some refusal => (refusal, [], g) | None => k end in
  if (h_Path r =? "/healthz")%string then get (let (reply, eff) := handleHealth e in (reply, eff, g))
  else if (h_Path r =? "/v1/models")%string then authenticated (get (handleModels, [], g))
  else if (h_Path r =? "/v1/quota")%string then authenticated (get (let (reply, g) := handleQuota e g in (reply, [], g)))
  else if (h_Path r =? "/v1/chat/completions")%string then
    authenticated
      (if negb (h_Method r =? "POST")%string then (not_allowed, [], g)
       else
         let '(headers, refusal, g) := admitQuota e g in
         match refusal with
         | Some reply => (reply, [], g)
         | None =>
             match h_Body r with
             | Err msg => (api_error 400 "invalid_request_error" ("read body: " +:+ msg) <| gr_headers := headers |>, [], g)
             | Ok body => let '(reply, eff, g) := handleChat e r body g in (reply <| gr_headers := headers |>, eff, g)
             end
         end)
  else (api_error 404 "not_found" ("no such endpoint: " +:+ h_Path r), [], g).

(** Requests one after the other. *)
Fixpoint serve_all (l : list (env * http_request)) (g : G) : list (greply * list effect) * G :=
  match l with
  | [] => ([], g)
  | (e, r) :: l => let '(reply, eff, g) := ServeHTTP e r g in
                   let '(rest, g) := serve_all l g in ((reply, eff) :: rest, g)
  end.

(** ** Facts about one request *)

Definition usages (l : list effect) : list Event := omap (fun x => match x with EUsage e => Some e | _ => None end) l.
Definition calls (l : list effect) : list upstream_call := omap (fun x => match x with ECall c => Some c | _ => None end) l.

Lemma usages_app l1 l2 : usages (l1 ++ l2) = usages l1 ++ usages l2.
Proof. apply omap_app. Qed.
Lemma calls_app l1 l2 : calls (l1 ++ l2) = calls l1 ++ calls l2.
Proof. apply omap_app. Qed.

(** Effects that neither account nor call. *)
Definition quiet (l : list effect) : Prop := usages l = [] /\ calls l = [].

Lemma quiet_app l1 l2 : quiet l1 -> quiet l2 -> quiet (l1 ++ l2).
Proof. intros [H1 H2] [H3 H4]. unfold quiet. by rewrite usages_app, calls_app, H1, H2, H3, H4. Qed.

Lemma usages_one ev l : quiet l -> usages (EUsage ev :: l) = [ev] /\ calls (EUsage ev :: l) = [].
Proof. intros [H1 H2]. split; [exact (f_equal (cons ev) H1)|exact H2]. Qed.

Lemma recordSession_quiet f s t g : quiet (recordSession f s t g).
Proof. unfold recordSession. by destruct (sidecar f s g). Qed.
Lemma recordSliceStats_quiet d g : quiet (recordSliceStats d g).
Proof. unfold recordSliceStats. by destruct (_ || _). Qed.
Lemma recordRetrieval_quiet s q i : quiet (recordRetrieval s q i).
Proof. unfold recordRetrieval. destruct i; [|done]. by destruct (_ =? _)%string. Qed.
Lemma judge_feedback_quiet os : quiet (judge_feedback os).
Proof. induction os as [|o os IH]; [done|]. unfold judge_feedback. cbn [flat_map]. apply quiet_app; [|exact IH]. by destruct (_ && _). Qed.

Lemma recordL3Reuse_quiet now s q i g : quiet (recordL3Reuse now s q i g).1.
Proof. unfold recordL3Reuse. destruct (adaptive && _), (s =? "")%string; done. Qed.

Lemma record_injection_quiet e s i st g : quiet (record_injection e s i st g).
Proof.
  unfold record_injection. destruct i; [|done]. destruct (_ && _); [|done]. apply quiet_app; [apply recordSliceStats_quiet|].
  by destruct (sidecar _ _ _).
Qed.

Lemma detectFalseHit_facts s q g b eff g' : detectFalseHit s q g = (b, eff, g') ->
  quiet eff /\ g_world g' = g_world g /\ g_quota g' = g_quota g /\ g_closing g' = g_closing g.
Proof.
  unfold detectFalseHit. destruct (_ || _); [by intros [= <- <- <-]|]. destruct (g_reuses g !! s) as [en|]; [|by intros [= <- <- <-]].
  destruct (_ >=? _)%f64; [|by intros [= <- <- <-]]. intros [= <- <- <-]. by destruct (adaptive && _).
Qed.

(** The L3 stage accounts nothing and calls no upstream. *)
Lemma try_l3_facts e s v q g o eff g' : try_l3 e s v q g = (o, eff, g') ->
  quiet eff /\ g_quota g' = g_quota g /\ g_closing g' = g_closing g.
Proof.
  unfold try_l3. destruct disabled; [by intros [= <- <- <-]|].
  destruct (detectFalseHit s (q_UserInput q) g) as [[b eff1] g1] eqn:Ed. apply detectFalseHit_facts in Ed as (Hq & _ & Hu & Hc).
  destruct b; [intros [= <- <- <-]; auto|]. unfold decideL3. destruct (decide_l3 q (per_request (g_world g1))) as [res w].
  intros [= <- <- <-]. split; [apply quiet_app; [done|apply judge_feedback_quiet]|done].
Qed.

(** A candidate is served only when the decider gave it, the store still has it and
    it is fresh, and the request is no retry of a served one. *)
Lemma try_l3_served e s v q g o eff g' res : try_l3 e s v q g = (o, eff, g') -> lo_served o = Some res ->
  disabled = false /\ (detectFalseHit s (q_UserInput q) g).1.1 = false /\
  (decide_l3 q (per_request (g_world g))).1 = Ok (Some res) /\
  exists sl, store_get (r_SliceID res) = Some sl /\ cacheFresh (e_now e) sl v = true.
Proof.
  unfold try_l3. destruct disabled; [by intros [= <- <- <-]|].
  destruct (detectFalseHit s (q_UserInput q) g) as [[b eff1] g1] eqn:Ed. apply detectFalseHit_facts in Ed as (_ & Hw & _).
  destruct b; [by intros [= <- <- <-]|]. unfold decideL3. rewrite Hw.
  destruct (decide_l3 q (per_request (g_world g))) as [[[r|]|] w]; intros [= <- <- <-]; cbn [lo_served]; try done.
  unfold l3Eligible. destruct (store_get (r_SliceID r)) as [sl|] eqn:Es; [|done]. destruct (cacheFresh _ _ _) eqn:Ef; [|done].
  intros [= ->]. split_and!; try done. by exists sl.
Qed.

Lemma serve_hit_facts e s q req up o r g reply eff g' : serve_hit e s q req up o r g = (reply, eff, g') ->
  gr_cache reply = "hit"%string /\ gr_status reply = 200 /\ usages eff = [hit_event e s q req up o r] /\ calls eff = [] /\
  g_quota g' = g_quota g /\
  g_reuses g' = g_reuses (recordL3Reuse (e_nano e) s q (r_SliceID r) g).2.
Proof.
  unfold serve_hit, recordUsage. destruct (recordL3Reuse _ _ _ _ _) as [adapted g2] eqn:Er. intros [= <- <- <-].
  assert (Hq : quiet adapted) by (by rewrite <- (f_equal fst Er : _ = adapted); apply recordL3Reuse_quiet).
  split_and!; [done|done| | | |].
  - apply usages_one. apply quiet_app; [apply recordSliceStats_quiet|]. apply quiet_app; [by destruct (sidecar _ _ _)|done].
  - apply usages_one. apply quiet_app; [apply recordSliceStats_quiet|]. apply quiet_app; [by destruct (sidecar _ _ _)|done].
  - pose proof (f_equal snd Er) as E. cbn in E. subst g2. unfold recordL3Reuse.
    assert (Hg : fmap (Quota.recordUsage (Quota.mkUsage (TokensIn (hit_event e s q req up o r)) (TokensOut (hit_event e s q req up o r)) (L3Reuse (hit_event e s q req up o r)))) (g_quota g) = g_quota g)
      by (by destruct (g_quota g)).
    destruct (s =? "")%string; cbn; exact Hg.
  - pose proof (f_equal snd Er) as E. cbn in E. subst g2. unfold recordL3Reuse. by destruct (s =? "")%string.
Qed.

(** The quota after the given events. *)
Definition metered (evs : list Event) (q : option quotaEngine) : option quotaEngine :=
  foldl (fun q e => Quota.recordUsage (Quota.mkUsage (TokensIn e) (TokensOut e) (L3Reuse e)) <$> q) q evs.

(** A relayed reply is accounted exactly when it is no error. *)
Lemma relay_reply_usage e rq st resp :
  match rp_usage (relay_reply e rq st resp) with Some _ => true | None => false end = (rp_status (relay_reply e rq st resp) <? 400).
Proof.
  unfold relay_reply. destruct st.
  - destruct (rq_vendor rq =? "anthropic")%string; [unfold streamThroughAnthropic|unfold streamThrough];
      (destruct (400 <=? ur_status resp) eqn:E; cbn; [|apply Z.leb_gt in E; by apply Z.ltb_lt in E]);
      apply Z.leb_le in E; symmetry; apply Z.ltb_ge; done.
  - unfold passthrough. destruct (ur_read resp) as [out|]; [|done]. destruct (maxBodyBytes <? slen out); [done|].
    destruct (400 <=? ur_status resp) eqn:E; [apply Z.leb_le in E; cbn; symmetry; apply Z.ltb_ge; done|].
    destruct (if (rq_vendor rq =? "anthropic")%string then _ else _); [|done]. cbn. apply Z.leb_gt in E. by apply Z.ltb_lt in E.
Qed.

Lemma record_reply_facts e s rp g reply eff g' : record_reply e s rp g = (reply, eff, g') ->
  usages eff = option_list (rp_usage rp) /\ calls eff = [] /\ g_quota g' = metered (usages eff) (g_quota g) /\
  gr_status reply = rp_status rp /\ gr_cache reply = (if rp_usage rp is Some _ then "miss" else "")%string /\
  g_reuses g' = g_reuses g /\ g_world g' = g_world g.
Proof.
  unfold record_reply, recordUsage.
  assert (Hq : quiet (match rp_session rp with Some t => recordSession (e_fresh e) s t g | None => [] end))
    by (destruct (rp_session rp); [apply recordSession_quiet|done]).
  destruct Hq as [Hu Hc]. destruct (rp_usage rp) as [ev|]; intros [= <- <- <-]; rewrite ?usages_app, ?calls_app, Hu, Hc; by split_and!.
Qed.

Lemma forward_calls e up out answer cs : forward e up out = (answer, cs) ->
  usages cs = [] /\ (calls cs = [upstream_request up out] \/ calls cs = [upstream_request up out; upstream_request up out]).
Proof. unfold forward. destruct (e_first e); intros [= <- <-]; auto. Qed.

Lemma upstream_path_facts e s q req up o body g reply eff g' : upstream_path e s q req up o body g = (reply, eff, g') ->
  gr_cache reply <> "hit"%string /\
  length (usages eff) = (if (gr_status reply <? 400)%Z then 1 else 0)%nat /\
  g_quota g' = metered (usages eff) (g_quota g) /\
  (gr_status reply < 400 -> gr_cache reply = "miss"%string) /\
  (forall c, c ∈ calls eff -> exists inj out, (disabled = true -> inj = None) /\ outgoing up inj body = Ok out /\ c = upstream_request up out) /\
  (length (calls eff) <= 2)%nat /\ (gr_cache reply = "miss"%string -> calls eff <> []) /\
  g_reuses g' = g_reuses g /\ g_world g' = g_world g.
Proof.
  unfold upstream_path. set (inj := if disabled then None else _).
  assert (Hinj : disabled = true -> inj = None) by (by unfold inj; intros ->).
  pose proof (recordRetrieval_quiet s q inj) as [Hr1 Hr2].
  destruct (outgoing up inj body) as [out|msg] eqn:Eo.
  2: { intros [= <- <- <-]. rewrite Hr1, Hr2. split_and!; try done; [intros c Hc; by apply not_elem_of_nil in Hc|cbn; lia]. }
  destruct (forward e up out) as [answer cs] eqn:Ef. apply forward_calls in Ef as [Hf1 Hf2].
  assert (Hc : forall l, calls l = [] -> forall c, c ∈ calls (recordRetrieval s q inj ++ cs ++ l) -> exists inj out, (disabled = true -> inj = None) /\ outgoing up inj body = Ok out /\ c = upstream_request up out).
  { intros l Hl c. rewrite !calls_app, Hr2, Hl, app_nil_r, app_nil_l. intros Hc. exists inj, out. split_and!; [done|done|]. destruct Hf2 as [E|E]; rewrite E in Hc; set_solver. }
  assert (Hlen : forall l, calls l = [] -> (length (calls (recordRetrieval s q inj ++ cs ++ l)) <= 2)%nat /\ calls (recordRetrieval s q inj ++ cs ++ l) <> []).
  { intros l Hl. rewrite !calls_app, Hr2, Hl, app_nil_r, app_nil_l. destruct Hf2 as [-> | ->]; split; cbn; done || lia. }
  destruct answer as [resp|msg].
  - destruct (record_reply _ _ _ _) as [[reply' eff'] g''] eqn:Er. intros [= <- <- <-].
    pose proof (relay_reply_usage e (relay_request e s req q up (match inj with Some i => Z.quot (i_Bytes i) 4 | None => 0 end)
      (match inj with Some i => Z.of_nat (length (i_Slices i)) | None => 0 end) o) (Stream req) resp) as Hs.
    apply record_reply_facts in Er as (H1 & H2 & H3 & H4 & H5 & H6 & H7).
    pose proof (record_injection_quiet e s inj (ur_status resp) g) as [Hi1 Hi2].
    assert (Eu : usages (recordRetrieval s q inj ++ cs ++ record_injection e s inj (ur_status resp) g ++ eff') = usages eff') by (by rewrite !usages_app, Hr1, Hf1, Hi1).
    assert (Ec : calls (record_injection e s inj (ur_status resp) g ++ eff') = []) by (by rewrite calls_app, Hi2, H2).
    rewrite Eu. split_and!; try done.
    + rewrite H5. by destruct (rp_usage _).
    + rewrite H1, H4, <- Hs. by destruct (rp_usage _).
    + intros Hlt. rewrite H5. rewrite H4 in Hlt. apply Z.ltb_lt in Hlt. rewrite Hlt in Hs. by destruct (rp_usage _).
    + by apply Hc.
    + apply (Hlen _ Ec).
    + intros _. apply (Hlen _ Ec).
  - intros [= <- <- <-]. specialize (Hc [] eq_refl). destruct (Hlen [] eq_refl) as [Hl _]. rewrite app_nil_r in *.
    rewrite usages_app, Hr1, Hf1. split_and!; done.
Qed.

(** What every request of the pipeline does. *)
Lemma handleChat_facts e r body g reply eff g' : handleChat e r body g = (reply, eff, g') ->
  length (usages eff) = (if (gr_status reply <? 400)%Z then 1 else 0)%nat /\
  g_quota g' = metered (usages eff) (g_quota g) /\
  (length (calls eff) <= 2)%nat /\
  (forall c, c ∈ calls eff -> exists req up inj out, parseChatRequest (c_chat J) body = Ok req /\ UpstreamFor cfg (Chat.Model req) = Some up /\
     (disabled = true -> inj = None) /\ outgoing up inj body = Ok out /\ c = upstream_request up out) /\
  (gr_cache reply = "hit"%string -> calls eff = []) /\ (gr_cache reply = "miss"%string -> calls eff <> []) /\
  (gr_status reply < 400 -> gr_cache reply = "hit"%string \/ gr_cache reply = "miss"%string).
Proof.
  unfold handleChat. assert (Hnil : forall st msg typ, 400 <= st -> (api_error st typ msg, [], g) = (reply, eff, g') ->
    length (usages eff) = (if (gr_status reply <? 400)%Z then 1 else 0)%nat /\ g_quota g' = metered (usages eff) (g_quota g) /\
    (length (calls eff) <= 2)%nat /\ eff = [] /\ gr_cache reply = ""%string /\ 400 <= gr_status reply).
  { intros st msg typ Hst [= <- <- <-]. cbn. replace (st <? 400) with false by (symmetry; by apply Z.ltb_ge). split_and!; try done. lia. }
  assert (Herr : forall st msg typ, 400 <= st -> (api_error st typ msg, [], g) = (reply, eff, g') ->
    length (usages eff) = (if (gr_status reply <? 400)%Z then 1 else 0)%nat /\ g_quota g' = metered (usages eff) (g_quota g) /\
    (length (calls eff) <= 2)%nat /\
    (forall c, c ∈ calls eff -> exists req up inj out, parseChatRequest (c_chat J) body = Ok req /\ UpstreamFor cfg (Chat.Model req) = Some up /\
       (disabled = true -> inj = None) /\ outgoing up inj body = Ok out /\ c = upstream_request up out) /\
    (gr_cache reply = "hit"%string -> calls eff = []) /\ (gr_cache reply = "miss"%string -> calls eff <> []) /\
    (gr_status reply < 400 -> gr_cache reply = "hit"%string \/ gr_cache reply = "miss"%string)).
  { intros st msg typ Hst Heq. destruct (Hnil st msg typ Hst Heq) as (H1 & H2 & H3 & -> & H4 & H5).
    split_and!; try done; [intros c Hc; by apply not_elem_of_nil in Hc|by rewrite H4|lia]. }
  destruct (parseChatRequest (c_chat J) body) as [req|m] eqn:Ep; [|by apply Herr].
  destruct (UpstreamFor cfg (Chat.Model req)) as [up|] eqn:Eu; [|by apply Herr].
  destruct (resolveScope r) as [scope|m] eqn:Es; [|by apply Herr]. clear Hnil Herr.
  destruct (try_l3 _ _ _ _ _) as [[o eff1] g1] eqn:Et. apply try_l3_facts in Et as ([Hu1 Hc1] & Hq1 & _).
  destruct (lo_served o) as [res|].
  - destruct (serve_hit _ _ _ _ _ _ _ _) as [[rp eff2] g2] eqn:Eh. intros [= <- <- <-].
    apply serve_hit_facts in Eh as (H1 & H2 & H3 & H4 & H5 & _).
    rewrite usages_app, calls_app, Hu1, Hc1, H3, H4, H5, H2, H1, Hq1. cbn [app].
    split_and!; [done| |cbn; lia|intros c Hc; by apply not_elem_of_nil in Hc|done|done|by left].
    cbn. unfold Quota.recordUsage. cbn. by destruct (g_quota g).
  - destruct (upstream_path _ _ _ _ _ _ _ _) as [[rp eff2] g2] eqn:Eh. intros [= <- <- <-].
    apply upstream_path_facts in Eh as (H1 & H2 & H3 & H4 & H5 & H6 & H7 & _).
    rewrite usages_app, calls_app, Hu1, Hc1. cbn [app]. rewrite H3, Hq1. split_and!; try done.
    + intros c Hc. destruct (H5 c Hc) as (inj & out & ? & ? & ?). by exists req, up, inj, out.
    + intros Hlt. right. by apply H4.
Qed.



(** A hit comes from the decider. *)
Lemma handleChat_hit e r body g reply eff g' : handleChat e r body g = (reply, eff, g') -> gr_cache reply = "hit"%string ->
  exists req up scope res sl o,
    parseChatRequest (c_chat J) body = Ok req /\ UpstreamFor cfg (Chat.Model req) = Some up /\ resolveScope r = Ok scope /\
    let query := default ""%string (lastUserText (Messages req)) in
    let q := L3.mkQuery "" query "" (contextHash (c_messages J) (c_sha J) (Messages req)) scope (Chat.Model req)
               (mkFreshness (e_now e) (TTLFor cfg (up_Vendor up))) in
    disabled = false /\ (detectFalseHit (h_Session r) query g).1.1 = false /\
    (decide_l3 q (per_request (g_world g))).1 = Ok (Some res) /\
    store_get (r_SliceID res) = Some sl /\ cacheFresh (e_now e) sl (up_Vendor up) = true /\
    reply = replyFromCache e (relay_request e (h_Session r) req query up 0 0 o) (Stream req) res /\
    usages eff = [hit_event e (h_Session r) query req up o res] /\
    exists g1, g_reuses g1 = g_reuses (detectFalseHit (h_Session r) query g).2 /\
      g_reuses g' = g_reuses (recordL3Reuse (e_nano e) (h_Session r) query (r_SliceID res) g1).2.
Proof.
  unfold handleChat. destruct (parseChatRequest (c_chat J) body) as [req|m] eqn:Ep; [|by intros [= <- _ _]].
  destruct (UpstreamFor cfg (Chat.Model req)) as [up|] eqn:Eu; [|by intros [= <- _ _]].
  destruct (resolveScope r) as [scope|m] eqn:Es; [|by intros [= <- _ _]].
  set (query := default ""%string (lastUserText (Messages req))). set (q := L3.mkQuery _ _ _ _ _ _ _).
  destruct (try_l3 e (h_Session r) (up_Vendor up) q g) as [[o eff1] g1] eqn:Et.
  destruct (lo_served o) as [res|] eqn:Eo.
  - pose proof (try_l3_facts _ _ _ _ _ _ _ _ Et) as ([Hu Hc] & _).
    destruct (try_l3_served _ _ _ _ _ _ _ _ _ Et Eo) as (Hd & Hr & Hl & sl & Hs & Hf).
    destruct (serve_hit _ _ _ _ _ _ _ _) as [[rp eff2] g2] eqn:Eh. intros [= <- <- <-] _.
    pose proof (serve_hit_facts _ _ _ _ _ _ _ _ _ _ _ Eh) as (_ & _ & H3 & _ & _ & H6).
    assert (Hrp : rp = replyFromCache e (relay_request e (h_Session r) req query up 0 0 o) (Stream req) res).
    { unfold serve_hit, recordUsage in Eh. destruct (recordL3Reuse _ _ _ _ _). by injection Eh as <- _ _. }
    exists req, up, scope, res, sl, o. split_and!; try done; [by rewrite usages_app, Hu, H3|].
    exists g1. split; [|done]. unfold try_l3 in Et. rewrite Hd in Et.
    destruct (detectFalseHit (h_Session r) (q_UserInput q) g) as [[b x] gd] eqn:Ed. 
    assert (Ed' : detectFalseHit (h_Session r) (default ""%string (lastUserText (Messages req))) g = (b, x, gd)) by exact Ed.
    rewrite Ed'. clear Ed'.
    destruct b; [by injection Et as <- _ _|]. unfold decideL3 in Et. destruct (decide_l3 _ _). by injection Et as _ _ <-.
  - destruct (upstream_path _ _ _ _ _ _ _ _) as [[rp eff2] g2] eqn:Eh. intros [= <- <- <-] Hh.
    by apply upstream_path_facts in Eh as (H1 & _).
Qed.
End Gateway.

(** The decider of kernel/cache. *)
#[export] Instance L3_Decider {E P} `{Judge.Judge E} `{L3.Promote P} (read : string -> string -> option string)
    (lstat : string -> string -> option (bool * Z)) (sha : string -> string) (Search : string -> Z -> Scope -> result (list Slice.Hit))
    (now latency : Slice -> Z) (d : L3Config E) : Decider (World (E := E) (P := P)) := {
  decide_l3 := DecideL3 read lstat sha Search now latency d;
  per_request w := w <| w_accum := Some zero_obs |> <| w_judged := [] |>;
  observed w := default zero_obs (w_accum w);
  collected w := w_judged w;
}.

(** ** Properties *)

Section Properties.
Context {W : Type} `{Decider W} `{UnicodePrint}.
Context (J : codecs) (cfg : GatewayConfig.Config) (disabled : bool) (adaptive : bool) (defaultScope : Scope)
  (store_get : string -> option Slice) (build : string -> result Injection)
  (order : gmap string l3ReuseEntry -> list (string * l3ReuseEntry)).

Abbreviation handle := (handleChat J cfg disabled adaptive defaultScope store_get build order).
Abbreviation serve := (ServeHTTP J cfg disabled adaptive defaultScope store_get build order).

(** C5: Every chat request is accounted exactly once if it is answered and not at all
    if it is refused, and the quota meters exactly that event.  An upstream is
    called at most twice, never for a cached answer and always for a relayed one;
    each call goes to the upstream that declares the requested model, carries the
    translated or rewritten body and that upstream's key, in its vendor's header. *)
Theorem chat_accounted e r body g reply eff g' :
  handle e r body g = (reply, eff, g') ->
  length (usages eff) = (if (gr_status reply <? 400)%Z then 1 else 0)%nat /\
  g_quota g' = metered (usages eff) (g_quota g) /\
  (gr_status reply < 400 -> gr_cache reply = "hit"%string \/ gr_cache reply = "miss"%string) /\
  (gr_cache reply = "hit"%string -> calls eff = []) /\ (gr_cache reply = "miss"%string -> calls eff <> []) /\
  (length (calls eff) <= 2)%nat /\
  (forall c, c ∈ calls eff -> exists req up inj, parseChatRequest (c_chat J) body = Ok req /\ up ∈ Upstreams cfg /\ Chat.Model req ∈ up_ModelAlias up /\
     outgoing J cfg up inj body = Ok (uc_body c) /\
     uc_URL c = trim_slashes (up_BaseURL up) +:+ (if (up_Vendor up =? "anthropic")%string then "/messages" else "/chat/completions") /\
     uc_headers c = ("Content-Type", "application/json")%string ::
       (if (up_Vendor up =? "anthropic")%string then [("x-api-key", up_APIKey up); ("anthropic-version", anthropicVersion)]%string
        else [("Authorization", "Bearer " +:+ up_APIKey up)]%string)).
Proof.
  intros Hh. destruct (handleChat_facts _ _ _ _ _ _ _ _ _ _ _ _ _ _ _ Hh) as (H1 & H2 & H3 & H4 & H5 & H6 & H7).
  split_and!; try done. intros c Hc. destruct (H4 c Hc) as (req & up & inj & out & Hp & Hu & _ & Ho & ->).
  exists req, up, inj. destruct (upstream_for_sound (Chat.Model req) (Upstreams cfg) up Hu). by split_and!.
Qed.

(** What the health endpoint does: it probes upstreams of the configuration, each with its
    key, and answers 200 only when probing is off or every upstream answered 2xx. *)
Lemma handleHealth_probes e reply eff : handleHealth J cfg e = (reply, eff) ->
  (gr_status reply = 200 -> 0 < health_timeout cfg ->
     forall up, up ∈ Upstreams cfg -> exists st, e_probe e up = ProbeStatus st /\ 200 <= st < 300) /\
  Forall (fun x => 0 < health_timeout cfg /\ exists up, up ∈ Upstreams cfg /\ x = probe_of up) eff.
Proof.
  unfold handleHealth, probeUpstreams. destruct (0 <? health_timeout cfg) eqn:Et; [|intros [= <- <-]; split; [lia|done]].
  assert (Hp : forall ups, let '(err, l) := probe_each e ups in
    (err = None -> forall up, up ∈ ups -> exists st, e_probe e up = ProbeStatus st /\ 200 <= st < 300)
    /\ Forall (fun x => exists up, up ∈ ups /\ x = probe_of up) l).
  { induction ups as [|up ups IH]; [split; [by intros _ ? ?%not_elem_of_nil|done]|]. cbn [probe_each].
    assert (Hone : Forall (fun x => exists u, u ∈ up :: ups /\ x = probe_of u) [probe_of up]) by (constructor; [exists up; split; [left|done]|done]).
    destruct (e_probe e up) as [err|err|st] eqn:Ee; [done|done|]. destruct ((st <? 200) || (300 <=? st)) eqn:Es; [done|].
    destruct (probe_each e ups) as [err l]. destruct IH as [IH1 IH2]. split.
    - intros -> u [-> |Hu]%elem_of_cons; [exists st; split; [done|lia]|by apply IH1].
    - constructor; [exists up; split; [left|done]|]. eapply Forall_impl; [exact IH2|]. intros x (u & Hu & ->). exists u. split; [by right|done]. }
  specialize (Hp (Upstreams cfg)). destruct (probe_each e (Upstreams cfg)) as [[msg|] l]; intros [= <- <-]; destruct Hp as [Hp1 Hp2];
    (split; [|eapply Forall_impl; [exact Hp2|]; intros x Hx; split; [lia|done]]); [done|]. intros _ _. by apply Hp1.
Qed.



(** *** Retries *)

(** An accounted relay accounts its request. *)
Lemma relay_reply_event e rq st resp ev : rp_usage (relay_reply J e rq st resp) = Some ev ->
  exists nu s n, ev = with_exact nu (estimated rq s n).
Proof.
  unfold relay_reply. destruct st.
  - destruct (rq_vendor rq =? "anthropic")%string; [unfold streamThroughAnthropic|unfold streamThrough];
      (destruct (400 <=? ur_status resp); [done|]); intros [= <-]; by eexists _, _, _.
  - unfold passthrough. destruct (ur_read resp) as [out|]; [|done]. destruct (maxBodyBytes <? slen out); [done|].
    destruct (400 <=? ur_status resp); [done|]. destruct (if (rq_vendor rq =? "anthropic")%string then _ else _); [|done].
    intros [= <-]. by eexists _, _, _.
Qed.

Lemma relay_reply_falseHit e rq st resp ev : rp_usage (relay_reply J e rq st resp) = Some ev -> L3FalseHit ev = rq_falseHit rq.
Proof. intros (nu & s & n & ->)%relay_reply_event. unfold with_exact. by destruct nu.2. Qed.

Lemma relay_reply_injected e rq st resp ev : rp_usage (relay_reply J e rq st resp) = Some ev ->
  InjectedTokens ev = rq_injected rq /\ SliceHits ev = rq_hits rq /\ L3Reuse ev = false.
Proof. intros (nu & s & n & ->)%relay_reply_event. unfold with_exact. by destruct nu.2. Qed.

Lemma upstream_falseHit e s q req up o body (g : gateway W) reply eff g' ev :
  upstream_path J cfg disabled build e s q req up o body g = (reply, eff, g') -> ev ∈ usages eff -> L3FalseHit ev = lo_falseHit o.
Proof.
  unfold upstream_path. set (inj := if disabled then None else _). pose proof (recordRetrieval_quiet cfg s q inj) as [Hr _].
  destruct (outgoing J cfg up inj body) as [out|]; [|intros [= <- <- <-]; rewrite Hr; by intros ?%not_elem_of_nil].
  destruct (forward e up out) as [answer cs] eqn:Ef. apply forward_calls in Ef as [Hf _].
  destruct answer as [resp|]; [|intros [= <- <- <-]; rewrite usages_app, Hr, Hf; by intros ?%not_elem_of_nil].
  destruct (record_reply _ _ _ _ _) as [[rp eff2] g2] eqn:Er. intros [= <- <- <-].
  apply record_reply_facts in Er as (H1 & _). rewrite !usages_app, Hr, Hf, (proj1 (record_injection_quiet cfg e s inj (ur_status resp) g)), H1.
  cbn [app]. destruct (rp_usage _) as [ev'|] eqn:Eu; [|by intros ?%not_elem_of_nil]. intros ->%list_elem_of_singleton.
  by apply relay_reply_falseHit in Eu.
Qed.

Lemma detect_retry s q (g : gateway W) en : s <> ""%string -> (falseHitSim cfg >? f0)%f64 = true -> g_reuses g !! s = Some en ->
  (normalizedEditRatio (re_Query en) q >=? falseHitSim cfg)%f64 = true ->
  detectFalseHit cfg adaptive s q g =
    (true, if adaptive && negb (re_SliceID en =? "")%string then [EAdapt (re_SliceID en) true] else [], g <| g_reuses ::= delete s |>).
Proof.
  intros Hs Hp He Hr. unfold detectFalseHit. apply String.eqb_neq in Hs. rewrite Hs. 
  replace (falseHitSim cfg <=? f0)%f64 with false; [cbn [orb]; by rewrite He, Hr|].
  symmetry. apply not_true_is_false. intros Hle. pose proof (fltb_fleb_trans _ _ _ Hp Hle) as Hx. by rewrite fltb_irrefl in Hx.
Qed.

Lemma detect_reuses s q (g : gateway W) :
  g_reuses (detectFalseHit cfg adaptive s q g).2 = g_reuses g \/ g_reuses (detectFalseHit cfg adaptive s q g).2 = delete s (g_reuses g).
Proof.
  unfold detectFalseHit. destruct (_ || _); [by left|]. destruct (g_reuses g !! s); [right|by left].
  by destruct (_ >=? _)%f64.
Qed.

Lemma detect_size s q (g : gateway W) : (base.size (g_reuses (detectFalseHit cfg adaptive s q g).2) <= base.size (g_reuses g))%nat.
Proof. destruct (detect_reuses s q g) as [-> | ->]; [lia|]. rewrite map_size_delete. destruct (_ !! _); cbn; lia. Qed.

Lemma map_size_insert_le {A} (m : gmap string A) k x : (base.size (<[k := x]> m) <= S (base.size m))%nat.
Proof. rewrite map_size_insert. destruct (m !! k); cbn; lia. Qed.

Lemma reuse_recorded now s q i (g : gateway W) : s <> ""%string -> (base.size (g_reuses g) < maxL3ReuseEntries)%nat ->
  g_reuses (recordL3Reuse adaptive order now s q i g).2 !! s = Some (mkReuse q i now).
Proof.
  intros Hs Hl. unfold recordL3Reuse. apply String.eqb_neq in Hs. rewrite Hs.
  destruct (maxL3ReuseEntries <? _)%nat eqn:E; [|cbn; by rewrite lookup_insert_eq].
  exfalso. apply Nat.ltb_lt in E. pose proof (map_size_insert_le (g_reuses g) s (mkReuse q i now)). lia.
Qed.

(** A retry of a served answer goes upstream.  After a request of a session was
    answered from the cache, the next request of that session whose query is close
    enough is not: if it is answered, it comes from the upstream, its usage event
    is marked as a suspected false hit, the learned threshold of the served slice
    gets negative evidence, and the record is consumed. *)
Theorem retry_goes_upstream e1 r1 b1 (g : gateway W) rep1 eff1 g1 e2 r2 b2 rep2 eff2 g2 req1 req2 :
  handle e1 r1 b1 g = (rep1, eff1, g1) -> gr_cache rep1 = "hit"%string ->
  handle e2 r2 b2 g1 = (rep2, eff2, g2) ->
  h_Session r1 <> ""%string -> h_Session r2 = h_Session r1 ->
  (base.size (g_reuses g) < maxL3ReuseEntries)%nat -> (falseHitSim cfg >? f0)%f64 = true ->
  parseChatRequest (c_chat J) b1 = Ok req1 -> parseChatRequest (c_chat J) b2 = Ok req2 ->
  (normalizedEditRatio (default ""%string (lastUserText (Messages req1))) (default ""%string (lastUserText (Messages req2))) >=? falseHitSim cfg)%f64 = true ->
  gr_cache rep2 <> "hit"%string /\
  (gr_status rep2 < 400 -> g_reuses g2 !! h_Session r1 = None /\
    exists ev, usages eff2 = [ev] /\ L3FalseHit ev = true /\
      forall res, usages eff1 = [res] -> adaptive = true -> L3SliceID res <> ""%string -> EAdapt (L3SliceID res) true ∈ eff2).
Proof.
  intros H1 Hh H2 Hs Hsame Hsize Hsim Hp1 Hp2 Hr.
  destruct (handleChat_hit _ _ _ _ _ _ _ _ _ _ _ _ _ _ _ H1 Hh) as (req & up & scope & res & sl & o & Hp & _ & _ & Hd & _ & _ & _ & _ & _ & Hu1 & ga & Hga & Hg1).
  rewrite Hp1 in Hp. injection Hp as <-.
  assert (Hen : g_reuses g1 !! h_Session r1 = Some (mkReuse (default ""%string (lastUserText (Messages req1))) (r_SliceID res) (e_nano e1))).
  { rewrite Hg1. apply reuse_recorded; [done|]. rewrite Hga. pose proof (detect_size (h_Session r1) (default ""%string (lastUserText (Messages req1))) g). lia. }
  pose proof (handleChat_facts _ _ _ _ _ _ _ _ _ _ _ _ _ _ _ H2) as (Hlen & _).
  unfold handleChat in H2. rewrite Hp2 in H2. destruct (UpstreamFor cfg (Chat.Model req2)) as [up2|]; [|injection H2 as <- <- <-; split; [done|cbn; lia]].
  destruct (resolveScope defaultScope r2) as [scope2|]; [|injection H2 as <- <- <-; split; [done|cbn; lia]].
  unfold try_l3 in H2. rewrite Hd in H2. cbn [q_UserInput] in H2. rewrite Hsame, (detect_retry _ _ _ _ Hs Hsim Hen Hr) in H2. cbn [lo_served] in H2.
  rewrite <- Hd in H2. destruct (upstream_path _ _ _ _ _ _ _ _ _ _ _ _) as [[rp eff3] g3] eqn:Eup. injection H2 as <- <- <-.
  pose proof (upstream_path_facts J cfg disabled store_get build e2 _ _ _ _ _ _ _ _ _ _ Eup) as (Hc & _ & _ & _ & _ & _ & _ & Hre & _).
  split; [done|]. intros Hlt. split; [rewrite Hre; cbn; by rewrite lookup_delete_eq|].
  apply Z.ltb_lt in Hlt. rewrite Hlt in Hlen. rewrite usages_app in Hlen |- *.
  assert (Hnil : usages (if adaptive && negb (r_SliceID res =? "")%string then [EAdapt (r_SliceID res) true] else []) = []) by (by destruct (_ && _)).
  cbn [re_SliceID] in *. rewrite Hnil in Hlen |- *. cbn [app] in *. destruct (usages eff3) as [|ev [|? ?]] eqn:Ee; [done| |done].
  exists ev. split; [done|]. split; [apply (upstream_falseHit _ _ _ _ _ _ _ _ _ _ _ ev Eup); rewrite Ee; left|].
  intros ev1 Hev1 -> Hne. rewrite Hu1 in Hev1. injection Hev1 as <-. cbn [andb]. apply elem_of_app. left.
  change (L3SliceID (hit_event e1 (h_Session r1) (default ""%string (lastUserText (Messages req1))) req1 up o res)) with (r_SliceID res) in *.
  apply String.eqb_neq in Hne. rewrite Hne. left.
Qed.
(** *** The memory of served answers *)

Definition reuses_ok (m : gmap string l3ReuseEntry) : Prop := (base.size m <= maxL3ReuseEntries)%nat /\ m !! ""%string = None.

Lemma older_spec l acc :
  Forall (fun kv : string * l3ReuseEntry => kv.1 <> ""%string) l ->
  let r := foldl older acc l in
  (r = acc \/ exists kv, kv ∈ l /\ r = (kv.1, re_At kv.2)) /\
  (l <> [] \/ acc.1 <> ""%string -> r.1 <> ""%string) /\
  (acc.1 <> ""%string -> r.2 <= acc.2) /\ (forall kv, kv ∈ l -> r.2 <= re_At kv.2).
Proof.
  intros Hl. revert acc. induction Hl as [|kv l Hkv Hl IH]; intros acc; cbn [foldl].
  { split_and!; [by left|by intros [?|?]|done|by intros kv ?%not_elem_of_nil]. }
  specialize (IH (older acc kv)). cbn zeta in IH. set (r := foldl older (older acc kv) l) in *.
  destruct IH as (H1 & H2 & H3 & H4). unfold older in *.
  destruct ((acc.1 =? "")%string || (re_At kv.2 <? acc.2)) eqn:E; cbn [fst snd] in *.
  - split_and!.
    + right. destruct H1 as [-> | (kv' & ? & ->)]; [exists kv|exists kv']; split; set_solver.
    + intros _. apply H2. by right.
    + intros Hn. specialize (H3 Hkv). apply orb_true_iff in E as [E%String.eqb_eq|E%Z.ltb_lt]; [done|lia].
    + intros kv' [-> | ?]%elem_of_cons; [by apply H3|by apply H4].
  - apply orb_false_iff in E as [E1%String.eqb_neq E2%Z.ltb_ge]. split_and!.
    + destruct H1 as [-> | (kv' & ? & ->)]; [by left|right; exists kv'; split; set_solver].
    + intros _. apply H2. by right.
    + done.
    + intros kv' [-> | ?]%elem_of_cons; [specialize (H3 E1); lia|by apply H4].
Qed.

(** [oldestKey] is a key of an entry of the least instant. *)
Lemma oldestKey_spec (m : gmap string l3ReuseEntry) : order m ≡ₚ map_to_list m -> m !! ""%string = None -> m <> ∅ ->
  exists en, m !! oldestKey order m = Some en /\ forall k en', m !! k = Some en' -> re_At en <= re_At en'.
Proof.
  intros Hp Hn Hm. unfold oldestKey. destruct (older_spec (order m) (""%string, 0)) as (H1 & H2 & _ & H4).
  { apply Forall_forall. intros [k en] Hin. rewrite Hp in Hin. apply elem_of_map_to_list in Hin. cbn. intros ->. congruence. }
  assert (Hne : order m <> []). { intros E. rewrite E in Hp. apply Permutation_nil_l in Hp. by apply Hm, map_to_list_empty_iff. }
  destruct H1 as [E | ([k en] & Hin & E)]; [exfalso; apply H2; [by left|by rewrite E]|].
  rewrite E in H4 |- *. cbn [fst snd] in *. rewrite Hp in Hin. apply elem_of_map_to_list in Hin. exists en. split; [done|].
  intros k' en' Hk'. apply (H4 (k', en')). rewrite Hp. by apply elem_of_map_to_list.
Qed.

Lemma record_reuses_ok now s q i (g : gateway W) : (forall m, order m ≡ₚ map_to_list m) ->
  reuses_ok (g_reuses g) -> reuses_ok (g_reuses (recordL3Reuse adaptive order now s q i g).2).
Proof.
  intros Ho [Hs Hn]. unfold recordL3Reuse. destruct (String.eqb_spec s ""); [done|]. set (m := <[s := _]> (g_reuses g)).
  change (reuses_ok (if (maxL3ReuseEntries <? base.size m)%nat then delete (oldestKey order m) m else m)).
  assert (Hm : m !! ""%string = None) by (unfold m; by rewrite lookup_insert_ne).
  pose proof (map_size_insert_le (g_reuses g) s (mkReuse q i now)) as Hle. fold m in Hle.
  destruct (Nat.ltb_spec maxL3ReuseEntries (base.size m)); [|by split].
  destruct (oldestKey_spec m (Ho m) Hm) as (en & Hk & _); [intros E; rewrite E, map_size_empty in *; lia|].
  split; [|rewrite lookup_delete_None; by right]. rewrite map_size_delete, Hk. lia.
Qed.

Lemma detect_reuses_ok s q (g : gateway W) : reuses_ok (g_reuses g) -> reuses_ok (g_reuses (detectFalseHit cfg adaptive s q g).2).
Proof.
  intros [Hs Hn]. pose proof (detect_size s q g). split; [lia|].
  destruct (detect_reuses s q g) as [-> | ->]; [done|]. rewrite lookup_delete_None. by right.
Qed.

Lemma try_l3_reuses e s v q (g : gateway W) o eff g' : try_l3 cfg disabled adaptive store_get e s v q g = (o, eff, g') ->
  reuses_ok (g_reuses g) -> reuses_ok (g_reuses g').
Proof.
  unfold try_l3. destruct disabled; [by intros [= _ _ <-]|]. pose proof (detect_reuses_ok s (q_UserInput q) g) as Hd.
  destruct (detectFalseHit cfg adaptive s (q_UserInput q) g) as [[b eff1] g1]. cbn [snd] in Hd.
  destruct b; [intros [= _ _ <-]; done|]. unfold decideL3. destruct (decide_l3 q (per_request (g_world g1))). by intros [= _ _ <-].
Qed.

Lemma handleChat_reuses e r body g reply eff g' : (forall m, order m ≡ₚ map_to_list m) ->
  handle e r body g = (reply, eff, g') -> reuses_ok (g_reuses g) -> reuses_ok (g_reuses g').
Proof.
  intros Ho. unfold handleChat. destruct (parseChatRequest (c_chat J) body) as [req|m]; [|by intros [= _ _ <-]].
  destruct (UpstreamFor cfg (Chat.Model req)) as [up|]; [|by intros [= _ _ <-]].
  destruct (resolveScope defaultScope r) as [scope|m]; [|by intros [= _ _ <-]].
  destruct (try_l3 _ _ _ _ _ _ _ _ _) as [[o eff1] g1] eqn:Et. pose proof (try_l3_reuses _ _ _ _ _ _ _ _ Et) as Ht.
  destruct (lo_served o) as [res|].
  - destruct (serve_hit _ _ _ _ _ _ _ _ _ _ _ _) as [[rp eff2] g2] eqn:Eh. intros [= _ _ <-] Hg.
    apply serve_hit_facts in Eh as (_ & _ & _ & _ & _ & ->). by apply record_reuses_ok, Ht.
  - destruct (upstream_path _ _ _ _ _ _ _ _ _ _ _ _) as [[rp eff2] g2] eqn:Eh. intros [= _ _ <-] Hg.
    apply (upstream_path_facts J cfg disabled store_get) in Eh as (_ & _ & _ & _ & _ & _ & _ & -> & _). by apply Ht.
Qed.

Lemma handleHealth_quiet e reply eff : handleHealth J cfg e = (reply, eff) -> quiet eff.
Proof.
  intros Hh. assert (Hp : Forall (fun x => exists up, x = probe_of up) eff).
  { apply handleHealth_probes in Hh as (_ & Hh). eapply Forall_impl; [exact Hh|]. intros x (_ & up & _ & ->). by exists up. }
  clear Hh. induction Hp as [|x l (up & ->) _ IH]; [done|]. exact IH.
Qed.

(** The state after a request is the state after [handleChat], or differs from the
    state before at most in the quota. *)
Lemma serve_cases e r g reply eff g' : serve e r g = (reply, eff, g') ->
  (quiet eff /\ g_reuses g' = g_reuses g /\ g_world g' = g_world g /\ g_closing g' = g_closing g) \/
  exists body g1 reply', h_Body r = Ok body /\ g_reuses g1 = g_reuses g /\ g_world g1 = g_world g /\ g_closing g1 = g_closing g /\
    handle e r body g1 = (reply', eff, g') /\ gr_cache reply = gr_cache reply'.
Proof.
  unfold ServeHTTP. destruct (h_Path r =? "/healthz")%string.
  { destruct (h_Method r =? "GET")%string; [|intros [= <- <- <-]; by left].
    destruct (handleHealth J cfg e) as [rp ef] eqn:Eh. intros [= <- <- <-]. left. split; [|done]. by eapply handleHealth_quiet. }
  destruct (h_Path r =? "/v1/models")%string.
  { destruct (authenticate J cfg r); [|destruct (h_Method r =? "GET")%string]; intros [= <- <- <-]; by left. }
  destruct (h_Path r =? "/v1/quota")%string.
  { destruct (handleQuota J e g) as [rp g2] eqn:Eq.
    assert (Hq : g_reuses g2 = g_reuses g /\ g_world g2 = g_world g /\ g_closing g2 = g_closing g).
    { unfold handleQuota in Eq. destruct (g_quota g); [|by injection Eq as <- <-]. destruct (Status _ _ _ _) as [[??]?]. by injection Eq as <- <-. }
    destruct (authenticate J cfg r); [|destruct (h_Method r =? "GET")%string]; intros [= <- <- <-]; by left. }
  destruct (h_Path r =? "/v1/chat/completions")%string; [|intros [= <- <- <-]; by left].
  destruct (authenticate J cfg r); [intros [= <- <- <-]; by left|].
  destruct (negb (h_Method r =? "POST")%string); [intros [= <- <- <-]; by left|].
  destruct (admitQuota J e g) as [[headers refusal] g1] eqn:Ea.
  assert (Hg : g_reuses g1 = g_reuses g /\ g_world g1 = g_world g /\ g_closing g1 = g_closing g).
  { unfold admitQuota in Ea. destruct (g_quota g); [|by injection Ea as <- <- <-]. destruct (Status _ _ _ _) as [[??]?].
    destruct (negb _); by injection Ea as <- <- <-. }
  destruct refusal; [intros [= <- <- <-]; by left|]. destruct (h_Body r) as [body|]; [|intros [= <- <- <-]; by left].
  destruct (handle e r body g1) as [[reply' eff'] g2] eqn:Eh. intros [= <- <- <-]. right. exists body, g1, reply'. by destruct Hg as (? & ? & ?).
Qed.

(** The memory of served answers stays bounded.  Over any sequence of requests
    from a state that holds at most 1024 served answers, none of them anonymous, it
    never holds more, nor one of a request without a session - whatever order the
    map iterates in and however the clock runs. *)
Theorem reuses_bounded l g :
  (forall m, order m ≡ₚ map_to_list m) -> (base.size (g_reuses g) <= maxL3ReuseEntries)%nat -> g_reuses g !! ""%string = None ->
  let g' := (serve_all J cfg disabled adaptive defaultScope store_get build order l g).2 in
  (base.size (g_reuses g') <= maxL3ReuseEntries)%nat /\ g_reuses g' !! ""%string = None.
Proof.
  intros Ho Hs Hn. revert g Hs Hn. induction l as [|[e r] l IH]; intros g Hs Hn; [done|]. cbn [serve_all].
  destruct (serve e r g) as [[reply eff] g1] eqn:Es. apply serve_cases in Es.
  assert (Hok : reuses_ok (g_reuses g1)).
  { destruct Es as [(_ & -> & _)|(body & g0 & rp & _ & Hg & _ & _ & Hh & _)]; [by split|].
    apply (handleChat_reuses _ _ _ _ _ _ _ Ho) in Hh; [done|by rewrite Hg]. }
  destruct Hok as [Hok1 Hok2]. specialize (IH g1 Hok1 Hok2).
  by destruct (serve_all _ _ _ _ _ _ _ _ l g1).
Qed.
(** *** A gateway without memory *)

(** What a disabled gateway does: account, call an upstream, keep the transcript. *)
Definition plain (x : effect) : bool := match x with EUsage _ | ECall _ | ESession _ _ => true | _ => false end.

Lemma plain_app l1 l2 : forallb plain (l1 ++ l2) = forallb plain l1 && forallb plain l2.
Proof. apply forallb_app. Qed.

Lemma upstream_path_plain e s q req up o body (g : gateway W) reply eff g' : disabled = true ->
  upstream_path J cfg disabled build e s q req up o body g = (reply, eff, g') ->
  forallb plain eff = true /\ forall ev, ev ∈ usages eff -> InjectedTokens ev = 0 /\ SliceHits ev = 0 /\ L3Reuse ev = false.
Proof.
  intros Hd. unfold upstream_path. rewrite Hd. cbn [recordRetrieval app].
  destruct (outgoing J cfg up None body) as [out|]; [|intros [= <- <- <-]; split; [done|by intros ev ?%not_elem_of_nil]].
  assert (Hf : forall a cs, forward e up out = (a, cs) -> forallb plain cs = true /\ usages cs = [])
    by (unfold forward; intros a cs; destruct (e_first e); by intros [= <- <-]).
  destruct (forward e up out) as [answer cs]. destruct (Hf _ _ eq_refl) as [Hf1 Hf2].
  destruct answer as [resp|]; [|intros [= <- <- <-]; rewrite Hf2; split; [done|by intros ev ?%not_elem_of_nil]].
  destruct (record_reply _ _ _ _ _) as [[rp eff2] g2] eqn:Er. intros [= <- <- <-]. cbn [record_injection app].
  rewrite plain_app, Hf1, usages_app, Hf2. cbn [andb app].
  pose proof (record_reply_facts _ _ _ _ _ _ _ _ Er) as (H1 & _). split.
  - unfold record_reply, recordUsage, recordSession in Er. 
    destruct (rp_session _) as [t|]; [destruct (sidecar _ _ _ _)|]; destruct (rp_usage _); by injection Er as _ <- _.
  - rewrite H1. intros ev Hev. destruct (rp_usage _) as [ev'|] eqn:Eu; [|by apply not_elem_of_nil in Hev].
    apply list_elem_of_singleton in Hev as ->. by apply relay_reply_injected in Eu.
Qed.

(** A disabled gateway only forwards.  With every memory mechanism off a request
    is never answered from the cache, reads and changes nothing of the decider's or
    the retry state, records nothing but its usage and its transcript, claims no
    injected tokens, and what it sends is the client's body with no block added,
    whatever a store, an index or a judge holds. *)
Theorem disabled_forwards e r body g reply eff g' :
  disabled = true -> handle e r body g = (reply, eff, g') ->
  gr_cache reply <> "hit"%string /\ g_world g' = g_world g /\ g_reuses g' = g_reuses g /\
  (forall x, x ∈ eff -> (exists ev, x = EUsage ev /\ InjectedTokens ev = 0 /\ SliceHits ev = 0 /\ L3Reuse ev = false) \/
     (exists path turns, x = ESession path turns) \/
     (exists c req up, x = ECall c /\ parseChatRequest (c_chat J) body = Ok req /\ UpstreamFor cfg (Chat.Model req) = Some up /\
        outgoing J cfg up None body = Ok (uc_body c))).
Proof.
  intros Hd Hh. pose proof Hh as Hh'. apply handleChat_facts in Hh' as (_ & _ & _ & Hc & _). unfold handleChat in Hh.
  assert (Hnil : forall x : effect, x ∈ [] -> False) by (by intros x ?%not_elem_of_nil).
  destruct (parseChatRequest (c_chat J) body) as [req|m]; [|injection Hh as <- <- <-; split_and!; try done; by intros x ?%Hnil].
  destruct (UpstreamFor cfg (Chat.Model req)) as [up|] eqn:Eu; [|injection Hh as <- <- <-; split_and!; try done; by intros x ?%Hnil].
  destruct (resolveScope defaultScope r) as [scope|m]; [|injection Hh as <- <- <-; split_and!; try done; by intros x ?%Hnil].
  unfold try_l3 in Hh. rewrite Hd in Hh. cbn [lo_served] in Hh. rewrite <- Hd in Hh.
  destruct (upstream_path _ _ _ _ _ _ _ _ _ _ _ _) as [[rp eff2] g2] eqn:Eup. injection Hh as <- <- <-.
  destruct (upstream_path_plain _ _ _ _ _ _ _ _ _ _ _ Hd Eup) as [Hp He].
  apply (upstream_path_facts J cfg disabled store_get) in Eup as (H1 & _ & _ & _ & _ & _ & _ & H2 & H3).
  split_and!; [done..|]. cbn [app] in *. intros x Hx. rewrite forallb_forall in Hp. specialize (Hp x (proj1 (list_elem_of_In _ _) Hx)).
  destruct x as [ev| | | | | |c|path turns|]; try done.
  - left. exists ev. split; [done|]. apply He. apply list_elem_of_omap. by exists (EUsage ev).
  - right. right. destruct (Hc c) as (req' & up' & inj & out & Hr & Hu & Hi & Ho & ->); [apply list_elem_of_omap; by exists (ECall c)|].
    rewrite (Hi Hd) in Ho. by exists (upstream_request up' out), req', up'.
  - right. left. by exists path, turns.
Qed.
End Properties.




(** *** The gateway over the decider of kernel/cache *)

Section Verified.
Context {E P : Type} `{Judge.Judge E} `{L3.Promote P} `{UnicodePrint}.
Context (read : string -> string -> option string) (lstat : string -> string -> option (bool * Z)) (sha : string -> string)
  (Search : string -> Z -> Scope -> result (list Slice.Hit)) (now latency : Slice -> Z) (d : L3Config E).
#[local] Instance decider : Decider (World (E := E) (P := P)) := L3_Decider read lstat sha Search now latency d.
Context (J : codecs) (cfg : GatewayConfig.Config) (disabled : bool) (adaptive : bool) (defaultScope : Scope)
  (store_get : string -> option Slice) (build : string -> result Injection)
  (order : gmap string l3ReuseEntry -> list (string * l3ReuseEntry)).

(** C3: What the gateway answers from memory is verified.  A request answered with
    [x-semantix-cache: hit] gets the content of a Result slice that the retrieval
    returned for the last user text in the request's scope, admitted by the whole
    verification chain - relevance, context and model isolation, unchanged
    dependencies, a judge wherever one is due - for the hash of this conversation
    and this model; that slice is still in the store and within the vendor's
    freshness window; and the gateway is not disabled. *)
Theorem hit_verified e r body (g : gateway (World (E := E) (P := P))) reply eff g' :
  handleChat J cfg disabled adaptive defaultScope store_get build order e r body g = (reply, eff, g') ->
  gr_cache reply = "hit"%string ->
  disabled = false /\
  exists req up scope query hits s h w1 sl rq,
    parseChatRequest (c_chat J) body = Ok req /\ UpstreamFor cfg (Chat.Model req) = Some up /\ resolveScope defaultScope r = Ok scope /\
    lastUserText (Messages req) = Some query /\
    Search query (k d) scope = Ok hits /\ h ∈ hits /\ HitSlice h = Some s /\ SType s = Result /\
    reusable (P := P) read lstat sha now d
      (L3.mkQuery "" query "" (contextHash (c_messages J) (c_sha J) (Messages req)) scope (Chat.Model req)
         (mkFreshness (e_now e) (TTLFor cfg (up_Vendor up)))) s h (result_top hits) (global_top hits) w1 /\
    store_get (ID s) = Some sl /\ cacheFresh cfg (e_now e) sl (up_Vendor up) = true /\
    reply = replyFromCache J e rq (Stream req) (mkL3Result (ID s) (Slice.Content s) f0).
Proof.
  intros Hh Hc. destruct (handleChat_hit _ _ _ _ _ _ _ _ _ _ _ _ _ _ _ Hh Hc) as (req & up & scope & res & sl & o & Hp & Hu & Hs & Hd & _ & Hdec & Hg & Hf & Hr & _).
  split; [done|]. assert (Hq : exists query, lastUserText (Messages req) = Some query).
  { unfold parseChatRequest in Hp. destruct (c_chat J body) as [req'|]; [|done]. destruct (_ =? _)%string; [done|]. destruct (Messages req') eqn:Em; [done|].
    destruct (lastUserText _) as [query|] eqn:El; [|done]. injection Hp as <-. rewrite Em. by exists query. }
  destruct Hq as [query Hq]. rewrite Hq in *. cbn [default] in *.
  apply DecideL3_served in Hdec as (hits & pre & s & h & post & o1 & w1 & Ha & Hb & Hc1 & Hd1 & _ & _ & -> & He).
  by exists req, up, scope, query, hits, s, h, w1, sl, (relay_request e (h_Session r) req query up 0 0 o).
Qed.
End Verified.

(** ** Witnesses *)

Module GatewaySample.
#[local] Instance print : UnicodePrint := fun _ => true.
Definition world_t : Type := World (E := Judge.Sample.counting) (P := L3.Sample.store).
Definition slice : Slice := L3.Sample.answer <| Meta ::= fun m => m <| MetaModel := "chat"%string |> |>.
Definition search (_ : string) (_ : Z) (_ : Scope) : result (list Slice.Hit) := Ok [L3.Sample.hit slice (f_of_int 4)].
#[local] Instance decider : Decider world_t :=
  L3_Decider Judge.Sample.read L3.Sample.lstat Judge.Sample.sha search (fun _ => 1000) (fun _ => 5) L3.Sample.config.
Definition request : chatRequest := mkChat "chat" [ChatSample.user "what?"] false None.
Definition J : codecs :=
  mkCodecs (fun _ => Ok request) (fun _ => "messages") (fun _ => "c") (fun _ => Some ∅) (fun _ => "rewritten") (fun _ => None)
    (fun _ => Err "unused") (fun _ => "") (fun c => cc_content c) (fun _ => "") (fun _ => None) (fun _ => None) (fun _ => Some None)
    (fun s => Some [s]) (fun t _ m => t +:+ m) (fun _ => "models") (fun _ => "quota") (fun _ => None) (fun s => s) (fun _ => Err "unused")
    (fun _ => Err "unused") (fun _ => None).
Definition cfg : GatewayConfig.Config := GatewayConfig.Sample.config.
Definition store_get (id : string) : option Slice := if (id =? "r1")%string then Some slice else None.
Definition build (_ : string) : result Injection := Err "no index".
Definition order : gmap string l3ReuseEntry -> list (string * l3ReuseEntry) := map_to_list.
Definition e : env := mkEnv 1000 1000000000000 1000000000000 "fresh" None (fun _ => ProbeStatus 200) (Ok (mkResponse 200 "{}" (Ok "{}"))) (Err "unused").
Definition post : http_request := mkHTTP "/v1/chat/completions" "POST" "Bearer key" "s1" "" (Ok "body").
Definition g : gateway world_t := mkGateway L3.Sample.world ∅ false None.
Definition spent : gateway world_t := g <| g_quota := Some (sample_exhausted <| Quota.paidOK := false |>) |>.
Definition run (disabled : bool) (g : gateway world_t) : greply * list effect * gateway world_t :=
  handleChat J cfg disabled true Project store_get build order e post "body" g.
Definition first := run false g.
Definition second := run false first.2.

Example first_is_hit : gr_cache first.1.1 = "hit"%string /\ gr_writes first.1.1 = ["42"%string].
Proof. vm_compute. done. Qed.
Example second_is_relayed : gr_cache second.1.1 = "miss"%string /\ length (calls second.1.2) = 1%nat.
Proof. vm_compute. done. Qed.
Example blocked : gr_status (ServeHTTP J cfg false true Project store_get build order e post spent).1.1 = 402.
Proof. vm_compute. done. Qed.

(** A run and its parts. *)
Lemma run_parts disabled g0 :
  handleChat J cfg disabled true Project store_get build order e post "body" g0 =
    ((run disabled g0).1.1, (run disabled g0).1.2, (run disabled g0).2).
Proof. unfold run. by destruct (handleChat _ _ _ _ _ _ _ _ _ _ _ _) as [[??]?]. Qed.
End GatewaySample.

Section Witnesses.
#[local] Existing Instances GatewaySample.print GatewaySample.decider.
Import GatewaySample.

Lemma chat_accounted_witness :
  length (usages second.1.2) = 1%nat /\ calls second.1.2 <> [] /\
  forall c, c ∈ calls second.1.2 -> uc_URL c = "https://api.deepseek.com/chat/completions"%string.
Proof.
  destruct (chat_accounted J cfg false true Project store_get build order e post "body" first.2 _ _ _ (run_parts false first.2)) as (H1 & _ & _ & _ & H2 & _ & H3).
  split_and!; [exact H1|apply H2; vm_compute; reflexivity|].
  intros c Hc. destruct (H3 c Hc) as (req & up & inj & Hp & Hu & Ha & _ & -> & _).
  injection Hp as <-. cbn in Hu. apply elem_of_cons in Hu as [-> | Hu]; [vm_compute; reflexivity|].
  apply list_elem_of_singleton in Hu as ->. cbn in Ha. by apply list_elem_of_singleton in Ha.
Defined.


Lemma retry_goes_upstream_witness :
  gr_cache second.1.1 <> "hit"%string /\
  (gr_status second.1.1 < 400 -> g_reuses second.2 !! "s1"%string = None /\
    exists ev, usages second.1.2 = [ev] /\ L3FalseHit ev = true /\
      forall res, usages first.1.2 = [res] -> true = true -> L3SliceID res <> ""%string -> EAdapt (L3SliceID res) true ∈ second.1.2).
Proof.
  refine (retry_goes_upstream J cfg false true Project store_get build order e post "body" g _ _ _ e post "body" _ _ _ request request
            (run_parts false g) _ (run_parts false first.2) _ _ _ _ _ _ _); [vm_compute; reflexivity|done|reflexivity|apply Nat.ltb_lt; vm_compute; reflexivity|by vm_compute|reflexivity|reflexivity|by vm_compute].
Defined.

Lemma reuses_bounded_witness :
  (base.size (g_reuses (serve_all J cfg false true Project store_get build order [(e, post); (e, post)] g).2) <= 1024)%nat.
Proof.
  refine (proj1 (reuses_bounded J cfg false true Project store_get build order [(e, post); (e, post)] g _ _ _)); [done|apply Nat.leb_le; vm_compute; reflexivity|reflexivity].
Defined.

Lemma disabled_forwards_witness :
  gr_cache (run true g).1.1 <> "hit"%string /\ g_world (run true g).2 = g_world g /\ g_reuses (run true g).2 = ∅.
Proof.
  destruct (disabled_forwards J cfg true true Project store_get build order e post "body" g _ _ _ eq_refl (run_parts true g)) as (H1 & H2 & H3 & _).
  split_and!; [exact H1|exact H2|exact H3].
Defined.

Lemma hit_verified_witness : exists s rq, HitSlice (L3.Sample.hit slice (f_of_int 4)) = Some s /\ SType s = Result /\
  first.1.1 = replyFromCache J e rq false (mkL3Result (ID s) (Slice.Content s) f0).
Proof.
  destruct (hit_verified Judge.Sample.read L3.Sample.lstat Judge.Sample.sha search (fun _ => 1000) (fun _ => 5) L3.Sample.config
              J cfg false true Project store_get build order e post "body" g _ _ _ (run_parts false g) ltac:(vm_compute; reflexivity))
    as (_ & req & up & scope & query & hits & s & h & w1 & sl & rq & Hp & _ & _ & _ & Hs & Hh & H3 & H4 & _ & _ & _ & H7).
  injection Hs as <-. apply list_elem_of_singleton in Hh as ->. injection Hp as <-. exists s, rq. split; [exact H3|]. split; [exact H4|]. exact H7.
Defined.
End Witnesses.
