(* ===== verification/ShellParse.v ===== *)
(** harness/shellparse/bash.go: what the harness reads off a Bash command without
    running it.

    The parser is mvdan.cc/sh/v3/syntax, which is outside: [node] has the kinds of its
    syntax tree the code tells apart, with the fields it reads and offsets into the
    source; every other kind is [Other] with its children.  [ShellSyntax] holds the
    parser and [syntax.SplitBraces]. *)

From Stdlib Require Import ZArith Lia Bool Ascii String.
From stdpp Require Import tactics base option list strings.
From S2P Require Import Prelude GoStrings Text Task.

#[global] Open Scope Z_scope.

(** ** The syntax tree *)

Inductive bin_op := AndStmt | OrStmt | Pipe | PipeAll.
(** [RdrIn], [RdrInOut] and the here-documents are [RdrOther]. *)
Inductive redir_op := DplOut | DplIn | RdrOut | AppOut | RdrClob | AppClob | RdrAll | AppAll | RdrAllClob | AppAllClob | RdrOther.

(** The offsets of [Pos()] and [End()]. *)
Record span := mkSpan { sp_start : Z; sp_end : Z }.
Record stmt_flags := mkFlags { Negated : bool; Background : bool; Coprocess : bool; Disown : bool }.

(** An offset is [None] when the position is not valid. *)
Inductive node :=
| Stmt (fl : stmt_flags) (sp : span) (Semicolon : option Z) (Cmd : option node) (Redirs : list node)
| CallExpr (Assigns Args : list node)
| BinaryCmd (op : bin_op) (X Y : node)
| Word (sp : option span) (Parts : list node)
| Lit (Value : string)
| SglQuoted (Dollar : bool) (Value : string)
| DblQuoted (Dollar : bool) (Parts : list node)
| CmdSubst (TempFile ReplyVar : bool) (Stmts : list node)
| ProcSubst (Stmts : list node)
| ParamExp (l : list node)
| ArithmExp (l : list node)
| ExtGlob (l : list node)
| Redirect (op : redir_op) (OpPos EndPos : Z) (N : option (string * option Z)) (word hdoc : option node)
| Assign (Append Naked : bool) (Name : option string) (Index Array_ AValue : option node)
| Other (l : list node).

(** [syntax.Walk] with a visitor that looks for a node: [Walk] visits a node before its
    children. *)
Fixpoint some_node (p : node -> bool) (n : node) : bool :=
  let opt o := match o with Some x => some_node p x | None => false end in
  p n || match n with
         | Stmt _ _ _ c rs => opt c || existsb (some_node p) rs
         | CallExpr assigns args => existsb (some_node p) assigns || existsb (some_node p) args
         | BinaryCmd _ x y => some_node p x || some_node p y
         | Word _ l | DblQuoted _ l | CmdSubst _ _ l | ProcSubst l | ParamExp l | ArithmExp l | ExtGlob l | Other l => existsb (some_node p) l
         | Redirect _ _ _ _ w h => opt w || opt h
         | Assign _ _ _ i a v => opt i || opt a || opt v
         | Lit _ | SglQuoted _ _ => false
         end.
Definition some_in (p : node -> bool) (file : list node) : bool := existsb (some_node p) file.

(** The parser, with the text of its error, and the splitting of the braces of a word. *)
Class ShellSyntax := {
  ParseBash : string -> result (list node);
  SplitBraces : node -> node;
}.

Section AllSome.
Context {A B : Type} (f : A -> option B).
Fixpoint all_some (l : list A) : option (list B) :=
  match l with
  | [] => Some []
  | x :: l => match f x with Some y => cons y <$> all_some l | None => None end
  end.
End AllSome.

(** ** Static words *)

Definition escape : ascii := ascii_of 92.

Fixpoint unescapeLit (s : string) (inDoubleQuotes : bool) : string :=
  match s with
  | EmptyString => ""
  | String c t =>
      match t with
      | String next u =>
          if negb (Ascii.eqb c escape) then String c (unescapeLit t inDoubleQuotes)
          else if Ascii.eqb next lf then unescapeLit u inDoubleQuotes
          else if negb inDoubleQuotes || existsb (Z.eqb (byte_of next)) [36; 96; 34; 92] then String next (unescapeLit u inDoubleQuotes)
          else String c (unescapeLit t inDoubleQuotes)
      | EmptyString => String c ""
      end
  end.

(** A leading dollar of a quotation is not looked at. *)
Fixpoint staticWordPart (inDoubleQuotes : bool) (part : node) : option string :=
  match part with
  | Lit v => Some (unescapeLit v inDoubleQuotes)
  | SglQuoted _ v => Some v
  | DblQuoted _ parts => join "" <$> all_some (staticWordPart true) parts
  | _ => None
  end.

Definition StaticWord (word : node) : option string :=
  match word with Word _ parts => join "" <$> all_some (staticWordPart false) parts | _ => None end.
(** Of a word that may be missing. *)
Definition static_word (word : option node) : option string := match word with Some w => StaticWord w | None => None end.

(** A character of [meta] that no backslash precedes. *)
Fixpoint hasUnescapedMeta (escaped : bool) (value meta : string) : bool :=
  match value with
  | EmptyString => false
  | String c t =>
      if escaped then hasUnescapedMeta false t meta
      else if Ascii.eqb c escape then hasUnescapedMeta true t meta
      else one_char meta c || hasUnescapedMeta false t meta
  end.
Definition hasUnescapedGlobMeta (value : string) : bool := hasUnescapedMeta false value "*?[".

Definition lit_with (meta : string) (part : node) : bool :=
  match part with Lit v => hasUnescapedMeta false v meta | _ => false end.
Definition wordHasUnescapedBrace (word : node) : bool :=
  match word with Word _ parts => existsb (lit_with "{") parts | _ => false end.

(** ** Static commands *)

Record StaticCommandPolicy := mkPolicy { AllowEnvAssignments : bool; AllowStderrToStdout : bool }.
Record StaticCommand := mkStatic { Argv : list string; Env : list string; MergeStderr : bool }.

Inductive StaticRejectReason :=
  StaticRejectParse | StaticRejectHereDoc | StaticRejectControl | StaticRejectRedirection | StaticRejectAssignment | StaticRejectExpansion.
Definition reason_string (r : StaticRejectReason) : string :=
  match r with
  | StaticRejectParse => "parse error"
  | StaticRejectHereDoc => "here document"
  | StaticRejectControl => "shell control syntax"
  | StaticRejectRedirection => "shell redirection"
  | StaticRejectAssignment => "shell assignment"
  | StaticRejectExpansion => "shell expansion"
  end.

(** The error carries its reason and a detail. *)
Inductive static_result (A : Type) := Static (a : A) | Rejected (reason : StaticRejectReason) (detail : string).
Arguments Static {A} a.
Arguments Rejected {A} reason detail.

Definition reject_error (r : StaticRejectReason) (detail : string) : string := if (detail =? "")%string then reason_string r else detail.

Definition staticFieldsMessage (r : StaticRejectReason) (detail : string) : string :=
  match r with
  | StaticRejectParse => reject_error r detail
  | StaticRejectHereDoc => "here document"
  | StaticRejectExpansion => "shell expansion"
  | _ => "shell control syntax"
  end.

Definition static_assign (assign : node) : static_result string :=
  match assign with
  | Assign false false (Some name) None None v =>
      match v with
      | None => Static (name +:+ "=")
      | Some w => match StaticWord w with Some value => Static (name +:+ "=" +:+ value) | None => Rejected StaticRejectExpansion "" end
      end
  | _ => Rejected StaticRejectAssignment ""
  end.
Fixpoint static_assigns (assigns : list node) : static_result (list string) :=
  match assigns with
  | [] => Static []
  | a :: rest =>
      match static_assign a with
      | Rejected r d => Rejected r d
      | Static e => match static_assigns rest with Static env => Static (e :: env) | Rejected r d => Rejected r d end
      end
  end.
Definition staticAssignments (assigns : list node) (policy : StaticCommandPolicy) : static_result (list string) :=
  if negb (AllowEnvAssignments policy) then Rejected StaticRejectAssignment "" else static_assigns assigns.

Definition isStderrToStdout (redir : node) : bool :=
  match redir with
  | Redirect DplOut _ _ (Some (n, _)) w _ => (n =? "2")%string && bool_decide (static_word w = Some "1"%string)
  | _ => false
  end.
Fixpoint static_redirs (redirs : list node) (policy : StaticCommandPolicy) (merge : bool) : static_result bool :=
  match redirs with
  | [] => Static merge
  | r :: rest =>
      if negb (AllowStderrToStdout policy) || negb (isStderrToStdout r) || merge then Rejected StaticRejectRedirection ""
      else static_redirs rest policy true
  end.
Definition staticRedirections (redirs : list node) (policy : StaticCommandPolicy) : static_result bool := static_redirs redirs policy false.

Definition is_heredoc (n : node) : bool := match n with Redirect _ _ _ _ _ (Some _) => true | _ => false end.
Definition HasHereDoc (file : list node) : bool := some_in is_heredoc file.

(** Negated, background, coprocess or disowned. *)
Definition flagged (fl : stmt_flags) : bool := Negated fl || Background fl || Coprocess fl || Disown fl.

(** The one simple command of a file: assignments, arguments and redirections. *)
Definition simple_call (file : list node) : option (list node * list node * list node) :=
  match file with
  | [Stmt fl _ _ (Some (CallExpr assigns args)) redirs] => if flagged fl then None else Some (assigns, args, redirs)
  | _ => None
  end.

Definition static_call (policy : StaticCommandPolicy) (assigns args redirs : list node) : static_result StaticCommand :=
  match staticRedirections redirs policy with
  | Rejected r d => Rejected r d
  | Static merge =>
      match (match assigns with [] => Static [] | _ => staticAssignments assigns policy end) with
      | Rejected r d => Rejected r d
      | Static env =>
          match all_some StaticWord args with
          | None => Rejected StaticRejectExpansion ""
          | Some argv =>
              match argv, env with
              | [], _ :: _ => Rejected StaticRejectAssignment "shell assignment without command"
              | _, _ => Static (mkStatic argv env merge)
              end
          end
      end
  end.

Section Parse.
Context `{ShellSyntax}.

Definition ParseStaticCommand (command : string) (policy : StaticCommandPolicy) : static_result StaticCommand :=
  if (trim_space command =? "")%string then Static (mkStatic [] [] false)
  else
    match ParseBash command with
    | Err e => Rejected StaticRejectParse e
    | Ok file =>
        if HasHereDoc file then Rejected StaticRejectHereDoc ""
        else match simple_call file with
             | None => Rejected StaticRejectControl ""
             | Some (assigns, args, redirs) => static_call policy assigns args redirs
             end
    end.

(** The fields, and what is malformed. *)
Definition StaticFields (command : string) : list string * string :=
  match ParseStaticCommand command (mkPolicy false false) with
  | Static cmd => (Argv cmd, ""%string)
  | Rejected r d => ([], staticFieldsMessage r d)
  end.

Definition ContainsShellSyntax (command : string) : bool :=
  if (trim_space command =? "")%string then false else negb ((StaticFields command).2 =? "")%string.

(** ** Approval features *)

Record ApprovalFeatures := mkFeatures {
  CommandPrefix : list string;
  DynamicCommandName : bool;
  NestedExecution : bool;
  Expansion : bool;
  Assignment : bool;
  Redirection : bool;
}.

(** The leading static fields, and the index of the first dynamic one. *)
Fixpoint static_prefix (args : list node) : list string * option nat :=
  match args with
  | [] => ([], None)
  | a :: rest =>
      match StaticWord a with
      | None => ([], Some O)
      | Some f => let '(fs, d) := static_prefix rest in (f :: fs, S <$> d)
      end
  end.

Definition split_braces_of (arg : node) : node := if wordHasUnescapedBrace arg then SplitBraces arg else arg.

Definition is_nested (n : node) : bool := match n with CmdSubst _ _ _ | ProcSubst _ => true | _ => false end.
Definition is_expansion (n : node) : bool := match n with ParamExp _ | ArithmExp _ | ExtGlob _ => true | _ => false end.
Definition is_assign (n : node) : bool := match n with Assign _ _ _ _ _ _ => true | _ => false end.
Definition is_redirect (n : node) : bool := match n with Redirect _ _ _ _ _ _ => true | _ => false end.

Definition AnalyzeApprovalFeatures (command : string) : option ApprovalFeatures :=
  match ParseBash command with
  | Err _ => None
  | Ok file =>
      match simple_call file with
      | None => None
      | Some (_, args, _) =>
          let '(prefix, dynamic) := static_prefix (map split_braces_of args) in
          Some (mkFeatures prefix (bool_decide (dynamic = Some O)) (some_in is_nested file)
                  (some_in is_expansion file || bool_decide (is_Some dynamic)) (some_in is_assign file) (some_in is_redirect file))
      end
  end.

Definition glob_word (n : node) : bool := match n with Word _ parts => existsb (lit_with "*?[") parts | _ => false end.
Definition ContainsUnquotedGlob (command : string) : bool :=
  match ParseBash command with Err _ => true | Ok file => some_in glob_word file end.

(** ** Exit statuses *)

(** Whether a later part can hide a failure; [None] when it cannot be told. *)
Fixpoint stmtCanMaskEarlierFailure (stmt : node) : option bool :=
  match stmt with
  | Stmt fl _ _ cmd _ =>
      if Negated fl || Coprocess fl || Disown fl then None
      else if Background fl then Some true
      else match cmd with
           | Some (BinaryCmd op x y) =>
               match op with
               | AndStmt =>
                   match stmtCanMaskEarlierFailure x with
                   | None => None
                   | Some mx => match stmtCanMaskEarlierFailure y with None => None | Some my => Some (mx || my) end
                   end
               | _ => Some true
               end
           | Some (CallExpr _ _) => Some false
           | _ => None
           end
  | _ => None
  end.

Definition CanMaskEarlierFailure (command : string) : option bool :=
  if (trim_space command =? "")%string then Some false
  else match ParseBash command with
       | Err _ => None
       | Ok file =>
           if HasHereDoc file then None
           else match file with [] => Some false | [stmt] => stmtCanMaskEarlierFailure stmt | _ => Some true end
       end.

(** ** Segments *)

(** [source[start:end]] when the offsets are in order and within the text. *)
Definition source_slice (source : string) (a b : Z) : option string :=
  if (a <? 0) || (b <? a) || (slen source <? b) then None
  else Some (String.substring (Z.to_nat a) (Z.to_nat (b - a)) source).

Definition sourceForStmt (source : string) (sp : span) (semicolon : option Z) : string :=
  let '(mkSpan start stop) := sp in
  let stop := match semicolon with Some semi => if (start <=? semi) && (semi <=? stop) then semi else stop | None => stop end in
  match source_slice source start stop with Some s => trim_space s | None => "" end.

(** The segments of a statement and whether it splits; [None] when it cannot be split
    safely. *)
Fixpoint appendTopLevelSegments (source : string) (stmt : node) : option (list string * bool) :=
  match stmt with
  | Stmt fl sp semi cmd redirs =>
      if Negated fl || Coprocess fl || Disown fl then None
      else match cmd with
           | Some (BinaryCmd _ x y) =>
               if Background fl || negb (length redirs =? 0)%nat then None
               else match appendTopLevelSegments source x with
                    | None => None
                    | Some (sx, _) => match appendTopLevelSegments source y with None => None | Some (sy, _) => Some (sx ++ sy, true) end
                    end
           | Some (CallExpr _ _) =>
               let segment := sourceForStmt source sp semi in
               Some (if (segment =? "")%string then [] else [segment], Background fl)
           | _ => None
           end
  | _ => None
  end.

Definition compactSegments (l : list string) : list string :=
  List.filter (fun s => negb ((s =? "")%string || has_prefix s "#")) (map trim_space l).

(** The segments and whether there was something to split. *)
Definition SplitTopLevel (command : string) : option (list string * bool) :=
  if (trim_space command =? "")%string then Some ([], false)
  else match ParseBash command with
       | Err _ => None
       | Ok file =>
           if HasHereDoc file then None
           else match all_some (appendTopLevelSegments command) file with
                | None => None
                | Some l => Some (compactSegments (concat (map fst l)), (1 <? Z.of_nat (length file)) || existsb snd l)
                end
       end.
End Parse.

(** [IsAssignment] and [WordBase]. *)
Definition name_start (c : ascii) : bool := let b := byte_of c in (b =? 95) || in_range 65 90 b || in_range 97 122 b.
Definition name_char (c : ascii) : bool := name_start c || in_range 48 57 (byte_of c).
Definition IsAssignment (word : string) : bool :=
  match cut "=" word with
  | Some (String c name, _) => name_start c && forallb name_char (list_ascii_of_string name)
  | _ => false
  end.
Definition WordBase (word : string) : string := match last_cut "/" word with Some (_, b) => b | None => word end.
