(* ===== verification/ShellSafe.v ===== *)
(** harness/shellsafe: which Bash commands are read-only, and what the others write.

    [filepath.Base] is that of Unix; [equal_fold] is [strings.EqualFold]. *)

From Stdlib Require Import ZArith Lia Bool Ascii String.
From stdpp Require Import tactics base option list sorting strings.
From S2P Require Import Prelude GoStrings Text Transcript ShellParse.

#[global] Open Scope Z_scope.

(** [filepath.Base]. *)
Definition Base (p : string) : string :=
  if (p =? "")%string then "."
  else match trim_right p "/" with
       | EmptyString => "/"
       | q => match last_cut "/" q with Some (_, b) => b | None => q end
       end.

(** [strings.TrimSuffix]. *)
Definition trim_suffix (s suffix : string) : string :=
  if has_suffix s suffix then String.substring 0 (String.length s - String.length suffix) s else s.

(** ** Redirections (bash_redirect.go) *)

Class UnicodeFold := equal_fold : string -> string -> bool.

Definition redirectWordSource (source : string) (word : option node) : string :=
  match word with
  | Some (Word (Some (mkSpan a b)) _) => match source_slice source a b with Some s => trim_space s | None => "" end
  | _ => ""
  end.

Definition is_digit_byte (c : ascii) : bool := in_range 48 57 (byte_of c).
Definition isSafeFDDupWord (source : string) (word : option node) : bool :=
  let value := redirectWordSource source word in
  if (value =? "-")%string then true
  else if (value =? "")%string then false else forallb is_digit_byte (list_ascii_of_string value).

Definition writes_file (op : redir_op) : bool :=
  match op with RdrOut | AppOut | RdrClob | AppClob | RdrAll | AppAll | RdrAllClob | AppAllClob => true | _ => false end.

Section Redirects.
Context `{UnicodeFold}.

Definition isNullRedirectWord (source : string) (word : option node) : bool :=
  let value := redirectWordSource source word in
  if (value =? "/dev/null")%string then true else equal_fold value "$null" || equal_fold value "nul".

Definition safe_target (source : string) (op : redir_op) (word : option node) : bool :=
  match op with
  | DplOut | DplIn => isSafeFDDupWord source word
  | RdrOther => false
  | _ => isNullRedirectWord source word
  end.

Definition safeRedirectSpan (source : string) (redir : node) : option span :=
  match redir with
  | Redirect op pos stop n word _ =>
      if negb (safe_target source op word) then None
      else
        let start := match n with Some (_, Some p) => p | _ => pos end in
        if (start <? 0) || (stop <? start) || (slen source <? stop) then None else Some (mkSpan start stop)
  | _ => None
  end.

Fixpoint appendSafeRedirectSpans (source : string) (stmt : node) : option (list span) :=
  match stmt with
  | Stmt _ _ _ cmd redirs =>
      match all_some (safeRedirectSpan source) redirs with
      | None => None
      | Some spans =>
          match cmd with
          | Some (BinaryCmd _ x y) =>
              match appendSafeRedirectSpans source x with
              | None => None
              | Some sx => match appendSafeRedirectSpans source y with None => None | Some sy => Some (spans ++ sx ++ sy) end
              end
          | _ => Some spans
          end
      end
  | _ => Some []
  end.
Definition safeRedirectSpans (source : string) (stmts : list node) : option (list span) :=
  match all_some (appendSafeRedirectSpans source) stmts with Some l => Some (concat l) | None => None end.

(** The text between the spans. *)
Fixpoint without_spans (source : string) (last : Z) (spans : list span) : option string :=
  match spans with
  | [] => Some (String.substring (Z.to_nat last) (String.length source - Z.to_nat last) source)
  | mkSpan a b :: rest =>
      if (a <? last) || (slen source <? b) then None
      else match without_spans source b rest with
           | Some s => Some (String.substring (Z.to_nat last) (Z.to_nat (a - last)) source +:+ s)
           | None => None
           end
  end.

Context `{ShellSyntax}.

Definition NormalizeBashSafeRedirectsForMatch (subject : string) : option string :=
  match ParseBash subject with
  | Err _ => None
  | Ok file =>
      if HasHereDoc file then None
      else match safeRedirectSpans subject file with
           | None => None
           | Some [] => Some subject
           | Some spans => trim_space <$> without_spans subject 0 (go_sort (fun a b => sp_start a <? sp_start b) spans)
           end
  end.
End Redirects.

(** ** Tables (shellsafe.go) *)

Definition readOnlyCommands : list string :=
  ["cat"; "head"; "tail"; "less"; "more"; "ls"; "find"; "locate"; "which"; "whereis"; "type"; "grep"; "egrep"; "fgrep"; "rg";
   "echo"; "printf"; "pwd"; "cd"; "whoami"; "id"; "uname"; "hostname"; "date"; "printenv"; "wc"; "sort"; "uniq"; "cut"; "tr";
   "stat"; "file"; "du"; "df"; "ps"; "top"; "htop"; "diff"; "cmp"; "comm"; "man"; "info"; "help"; "true"; "false"; "test"; "[";
   "basename"; "dirname"; "realpath"; "readlink"; "get-childitem"; "get-content"; "get-item"; "get-location"; "get-process";
   "get-command"; "get-nettcpconnection"; "resolve-path"; "select-string"; "measure-object"; "compare-object"]%string.

Definition workspaceNonMutatingCommands : list string := ["test-netconnection"]%string.

Definition readOnlyPrefixes (base : string) : list string :=
  (if (base =? "git")%string then
     ["log"; "status"; "diff"; "show"; "tag"; "blame"; "grep"; "ls-files"; "ls-tree"; "rev-parse"; "rev-list"; "describe"; "reflog";
      "shortlog"; "whatchanged"; "cherry"; "cat-file"; "for-each-ref"; "name-rev"]
   else if (base =? "go")%string then ["vet"; "doc"; "list"; "version"; "env"]
   else if (base =? "npm")%string then ["ls"; "list"; "view"; "info"; "outdated"; "audit"]
   else if (base =? "cargo")%string then ["check"; "doc"; "search"]
   else if (base =? "docker")%string then ["ps"; "images"; "inspect"; "logs"; "stats"; "info"; "version"]
   else if (base =? "kubectl")%string then ["get"; "describe"; "logs"; "explain"; "api-resources"; "api-versions"]
   else if (base =? "node")%string then ["-v"; "--version"]
   else if (base =? "python")%string || (base =? "python3")%string then ["--version"; "-v"; "-V"]
   else [])%string.

Definition resolvedSubstitutionPlaceholder : string := "__semantix_read_only_substitution__".

Definition substitutionSafeCommands : list string :=
  ["cat"; "head"; "tail"; "ls"; "grep"; "egrep"; "fgrep"; "rg"; "echo"; "printf"; "pwd"; "whoami"; "id"; "uname"; "hostname"; "wc";
   "stat"; "file"; "du"; "df"; "cmp"; "comm"; "true"; "false"; "test"; "["; "basename"; "dirname"; "realpath"; "readlink"]%string.

Definition hasResolvedSubstitution (fields : list string) : bool := existsb (fun f => contains f resolvedSubstitutionPlaceholder) fields.

Definition arg_starts (p : string) (arg : string) : bool := has_prefix arg p.

(** What [nestedReadOnlyArgsSafe] refuses. *)
Definition nested_arg_unsafe (base sub arg : string) : bool :=
  ((base =? "find")%string && listed ["-exec"; "-execdir"; "-delete"; "-ok"; "-okdir"; "-fls"; "-fprint"; "-fprint0"; "-fprintf"]%string arg)
  || ((base =? "sed")%string && (has_prefix arg "-i" || has_prefix arg "--in-place"))
  || ((base =? "sort")%string && (has_prefix arg "-o" || (arg =? "--output")%string || has_prefix arg "--output="))
  || ((base =? "git")%string && listed ["diff"; "show"; "log"]%string sub && ((arg =? "--output")%string || has_prefix arg "--output="))
  || ((base =? "go")%string && (sub =? "env")%string && listed ["-w"; "-u"]%string arg).

Definition nestedReadOnlyArgsSafe (base sub : string) (fields : list string) : bool :=
  let args := tail fields in
  let args := if negb (sub =? "")%string && negb (length args =? 0)%nat then tail args else args in
  negb (existsb (nested_arg_unsafe base sub) args)
  && (negb (base =? "git")%string || negb (sub =? "tag")%string
      || match args with [] => true | a :: _ => (a =? "-l")%string || (a =? "--list")%string end).

Section Resolve.
Context `{UnicodeLower}.

Definition readOnlyFields (fields : list string) : option (string * string) :=
  match fields with
  | [] => None
  | f :: rest =>
      let base := to_lower f in
      if listed readOnlyCommands base then Some (base, ""%string)
      else match rest with
           | s :: _ => let sub := to_lower s in if listed (readOnlyPrefixes base) sub then Some (base, sub) else None
           | [] => None
           end
  end.

(** The nested command of a substitution. *)
Definition resolved_fields (nested : bool) (words : option (list (string * bool))) : option (list string * bool) :=
  match words with
  | None => None
  | Some [] => None
  | Some ws =>
      let fields := map fst ws in
      match readOnlyFields fields with
      | None => None
      | Some (base, sub) =>
          if nested && (negb (listed substitutionSafeCommands base) || negb (nestedReadOnlyArgsSafe base sub fields)) then None
          else Some (fields, existsb snd ws)
      end
  end.

Definition join_parts (l : option (list (string * bool))) : option (string * bool) :=
  match l with Some ps => Some (join "" (map fst ps), existsb snd ps) | None => None end.

(** A word part: its text and whether it holds a substitution. *)
Fixpoint resolvedReadOnlyWordPart (doubleQuoted : bool) (part : node) : option (string * bool) :=
  match part with
  | Lit v => Some (v, false)
  | SglQuoted _ v => Some (v, false)
  | DblQuoted _ parts => join_parts (all_some (resolvedReadOnlyWordPart true) parts)
  | CmdSubst temp reply [Stmt fl _ _ (Some (CallExpr [] args)) []] =>
      if negb doubleQuoted || temp || reply || flagged fl then None
      else match resolved_fields true (all_some (fun w =>
               match StaticWord w with
               | Some s => Some (s, false)
               | None => match w with Word _ parts => join_parts (all_some (resolvedReadOnlyWordPart false) parts) | _ => None end
               end) args) with
           | Some _ => Some (resolvedSubstitutionPlaceholder, true)
           | None => None
           end
  | _ => None
  end.

Definition resolvedReadOnlyWord (w : node) : option (string * bool) :=
  match StaticWord w with
  | Some s => Some (s, false)
  | None => match w with Word _ parts => join_parts (all_some (resolvedReadOnlyWordPart false) parts) | _ => None end
  end.

Definition resolvedReadOnlyStmt (stmt : node) (nested : bool) : option (list string * bool) :=
  match stmt with
  | Stmt fl _ _ (Some (CallExpr [] args)) [] => if flagged fl then None else resolved_fields nested (all_some resolvedReadOnlyWord args)
  | _ => None
  end.

Context `{ShellSyntax}.

Definition resolvedReadOnlyFields (command : string) (nested : bool) : option (list string * bool) :=
  match ParseBash command with Ok [stmt] => resolvedReadOnlyStmt stmt nested | _ => None end.

(** Base, subcommand and fields. *)
Definition ClassifyReadOnlyCommand (command : string) : option (string * string * list string) :=
  let '(fields, malformed) := StaticFields command in
  let fields := if (malformed =? "")%string then Some fields
                else match resolvedReadOnlyFields command false with Some (fs, true) => Some fs | _ => None end in
  match fields with
  | None | Some [] => None
  | Some ((f :: rest) as fields) =>
      let base := to_lower f in
      if listed readOnlyCommands base then
        if hasResolvedSubstitution fields && negb (listed substitutionSafeCommands base) then None else Some (base, ""%string, fields)
      else match rest with
           | s :: _ => let sub := to_lower s in if listed (readOnlyPrefixes base) sub then Some (base, sub, fields) else None
           | [] => None
           end
  end.
Definition CommandIsReadOnly (command : string) : option (string * string) := fst <$> ClassifyReadOnlyCommand command.

Definition ClassifyWorkspaceNonMutatingCommand (command : string) : option (string * string * list string) :=
  match ClassifyReadOnlyCommand command with
  | Some r => Some r
  | None =>
      let '(fields, malformed) := StaticFields command in
      if negb (malformed =? "")%string then None
      else match fields with
           | [] => None
           | f :: _ => let base := to_lower f in if listed workspaceNonMutatingCommands base then Some (base, ""%string, fields) else None
           end
  end.
Definition CommandIsWorkspaceNonMutating (command : string) : option (string * string) := fst <$> ClassifyWorkspaceNonMutatingCommand command.
End Resolve.
