(* ===== verification/ShellEffect.v ===== *)
(** harness/shellsafe/effect.go: the effects of a Bash command, segment by segment. *)

From Stdlib Require Import ZArith Lia Bool Ascii String.
From stdpp Require Import tactics base option list strings.
From S2P Require Import Prelude GoStrings Text Transcript ShellParse ShellSafe.

#[global] Open Scope Z_scope.

Inductive Certainty := EffectUnknown | EffectKnown.
#[export] Instance Certainty_eq_dec : EqDecision Certainty.
Proof. solve_decision. Defined.

(** Write domains are bits. *)
Definition WriteWorkspaceContent : Z := 1.
Definition WriteRepositoryMetadata : Z := 2.
Definition WriteHostState : Z := 4.
Definition WriteExternalState : Z := 8.

Record CommandEffect := mkEffect {
  Cert : Certainty;
  Writes : Z;
  PermissionSafe : bool;
  ExecutesCode : bool;
  UsesNetwork : bool;
  CommandFamily : string;
  Reason : string;
}.
#[export] Instance CommandEffect_eta : Eta CommandEffect := fun r =>
  mkEffect (Cert r) (Writes r) (PermissionSafe r) (ExecutesCode r) (UsesNetwork r) (CommandFamily r) (Reason r).

Definition known (e : CommandEffect) : bool := bool_decide (Cert e = EffectKnown).
Definition AnyMutation (e : CommandEffect) : bool := negb (known e) || negb (Writes e =? 0).
Definition WorkspaceMutation (e : CommandEffect) : bool :=
  negb (known e) || negb (Z.land (Writes e) (Z.lor WriteWorkspaceContent WriteRepositoryMetadata) =? 0).
Definition ContentMutation (e : CommandEffect) : bool := negb (known e) || negb (Z.land (Writes e) WriteWorkspaceContent =? 0).
Definition RepositoryMutation (e : CommandEffect) : bool := negb (Z.land (Writes e) WriteRepositoryMetadata =? 0).
Definition IsPermissionReader (e : CommandEffect) : bool := known e && (Writes e =? 0) && PermissionSafe e.

Definition knownReader (family : string) : CommandEffect := mkEffect EffectKnown 0 true false false family "".
Definition knownWriter (family : string) (writes : Z) (reason : string) : CommandEffect := mkEffect EffectKnown writes false false false family reason.
Definition unknownEffect (family reason : string) : CommandEffect := mkEffect EffectUnknown 0 false false false (trim_space family) reason.
Definition unknownCodeEffect (family reason : string) : CommandEffect := unknownEffect family reason <| ExecutesCode := true |>.

(** ** Arguments *)

(** [strings.SplitN(arg, "=", 2)[0]]. *)
Definition before_eq (arg : string) : string := match cut "=" arg with Some (a, _) => a | None => arg end.

Definition hasEffectArg (args candidates : list string) : bool := existsb (fun arg => listed candidates (before_eq arg)) args.
Definition hasArgPrefix (args : list string) (prefix : string) : bool := existsb (arg_starts prefix) args.
Definition allEffectArgs (args allowed : list string) : bool := negb (length args =? 0)%nat && forallb (listed allowed) args.
Definition hasOutputArg (args : list string) : bool := hasEffectArg args ["-o"; "--output"]%string || hasArgPrefix args "-o".
Definition shortOptionContains (arg : string) (flag : ascii) : bool :=
  match arg with
  | String a (String b _ as rest) => Ascii.eqb a "-" && negb (Ascii.eqb b "-") && one_char rest flag
  | _ => false
  end.

Definition branchMutationArg (arg : string) : bool :=
  listed ["-d"; "-D"; "--delete"; "--no-delete"; "-m"; "-M"; "--move"; "--no-move"; "-c"; "-C"; "--copy"; "--no-copy"; "-f"; "--force";
          "--no-force"; "-t"; "--track"; "--no-track"; "-u"; "--set-upstream-to"; "--unset-upstream"; "--edit-description";
          "--create-reflog"; "--recurse-submodules"]%string (before_eq arg).
Definition branchValueOption (arg : string) : bool :=
  listed ["--contains"; "--no-contains"; "--merged"; "--no-merged"; "--points-at"; "--sort"; "--format"; "--color"; "--column"; "--abbrev"]%string (before_eq arg).
Definition tagMutationArg (arg : string) : bool :=
  listed ["-d"; "--delete"; "-a"; "--annotate"; "-s"; "--sign"; "-u"; "--local-user"; "-f"; "--force"; "-m"; "--message"; "-F"; "--file";
          "-e"; "--edit"; "--trailer"; "--cleanup"; "--create-reflog"]%string (before_eq arg).
Definition tagFlagOption (arg : string) : bool :=
  listed ["--contains"; "--no-contains"; "--merged"; "--no-merged"; "--points-at"; "--sort"; "--format"; "--column"; "--no-column";
          "--color"; "--no-color"; "--omit-empty"; "--no-omit-empty"]%string (before_eq arg).
Definition tagOptionConsumesNext (arg : string) : bool :=
  negb (contains arg "=") && listed ["--contains"; "--no-contains"; "--merged"; "--no-merged"; "--points-at"; "--sort"; "--format"]%string arg.

Section Effects.
Context `{UnicodeLower} `{UnicodeFold}.

Definition configReadAction (arg : string) : bool :=
  listed ["get"; "get-all"; "get-regexp"; "get-urlmatch"; "list"; "--get"; "--get-all"; "--get-regexp"; "--get-urlmatch"; "--list";
          "--get-color"; "--get-colorbool"]%string (to_lower arg).
Definition containsConfigReadAction (args : list string) : bool := existsb configReadAction args.
Definition configOptionConsumesNext (arg : string) : bool :=
  listed ["--file"; "-f"; "--blob"; "--type"; "--default"; "--fixed-value"]%string (to_lower arg).

(** ** git *)

(** An effect that ends the scan of the options, or what the scan found. *)
Fixpoint branch_scan (family : string) (args : list string) (listing : bool) (operands : Z) : CommandEffect + (bool * Z) :=
  match args with
  | [] => inr (listing, operands)
  | arg :: rest =>
      if listed ["-l"; "--list"; "--all"; "-a"; "--remotes"; "-r"; "--show-current"]%string arg
         || listed ["-v"; "-vv"; "--verbose"; "-q"; "--quiet"; "-i"; "--ignore-case"; "--omit-empty"; "--no-omit-empty"]%string arg
      then branch_scan family rest true operands
      else if branchValueOption arg then
        if contains arg "=" then branch_scan family rest true operands
        else match rest with
             | [] => inl (unknownEffect family "missing branch filter value")
             | _ :: rest => branch_scan family rest true operands
             end
      else if has_prefix arg "-" then inl (unknownEffect family "unknown branch option")
      else branch_scan family rest listing (operands + 1)
  end.

Definition classifyGitBranch (args : list string) : CommandEffect :=
  let family := "git branch"%string in
  if existsb branchMutationArg args then knownWriter family WriteRepositoryMetadata "updates branch refs or configuration"
  else match branch_scan family args (length args =? 0)%nat 0 with
       | inl e => e
       | inr (listing, operands) =>
           if (0 <? operands) && negb (hasEffectArg args ["-l"; "--list"]%string) then knownWriter family WriteRepositoryMetadata "creates or resets a branch ref"
           else if listing then knownReader family else unknownEffect family "ambiguous branch operation"
       end.

(** Listing, verification and operands. *)
Fixpoint tag_scan (family : string) (args : list string) (listing verify : bool) (operands : Z) : CommandEffect + (bool * bool * Z) :=
  match args with
  | [] => inr (listing, verify, operands)
  | arg :: rest =>
      if tagMutationArg arg then inl (knownWriter family WriteRepositoryMetadata "updates tag refs")
      else if listed ["-l"; "--list"]%string arg then tag_scan family rest true verify operands
      else if listed ["-v"; "--verify"]%string arg then tag_scan family rest listing true operands
      else if listed ["-i"; "--ignore-case"]%string arg || has_prefix arg "-n" || tagFlagOption arg then
        if tagOptionConsumesNext arg then
          match rest with
          | [] => inl (unknownEffect family "missing tag filter value")
          | _ :: rest => tag_scan family rest true verify operands
          end
        else tag_scan family rest true verify operands
      else if has_prefix arg "-" then inl (unknownEffect family "unknown tag option")
      else tag_scan family rest listing verify (operands + 1)
  end.

Definition classifyGitTag (args : list string) : CommandEffect :=
  let family := "git tag"%string in
  match tag_scan family args (length args =? 0)%nat false 0 with
  | inl e => e
  | inr (listing, verify, operands) =>
      if verify then
        if operands =? 0 then unknownEffect family "missing tag verification operand"
        else mkEffect EffectKnown 0 false true false family "tag verification may execute a signature helper"
      else if (0 <? operands) && negb (hasEffectArg args ["-l"; "--list"]%string) then knownWriter family WriteRepositoryMetadata "creates a tag ref"
      else if listing then knownReader family else unknownEffect family "ambiguous tag operation"
  end.

Definition classifyGitRemote (args : list string) : CommandEffect :=
  let family := "git remote"%string in
  match args with
  | [] => knownReader family
  | a :: _ =>
      if allEffectArgs args ["-v"; "--verbose"]%string then knownReader family
      else
        let action := to_lower a in
        if (action =? "get-url")%string then knownReader family
        else if listed ["add"; "remove"; "rm"; "rename"; "set-url"; "prune"; "update"]%string action
             then knownWriter family WriteRepositoryMetadata "updates remote configuration or refs"
             else unknownEffect family "remote operation is not a proven local reader"
  end.

Definition config_write (family : string) (domain : Z) (arg : string) : option CommandEffect :=
  let name := to_lower (before_eq arg) in
  if listed ["--edit"; "-e"]%string name then Some (knownWriter family domain "opens an editor that can write git configuration")
  else if listed ["set"; "unset"; "unset-all"; "add"; "replace-all"; "rename-section"; "remove-section"; "--unset"; "--unset-all"; "--add";
                  "--replace-all"; "--rename-section"; "--remove-section"]%string name
       then Some (knownWriter family domain "updates git configuration") else None.

Fixpoint first_some {A B} (f : A -> option B) (l : list A) : option B :=
  match l with [] => None | x :: l => match f x with Some y => Some y | None => first_some f l end end.

Fixpoint config_positional (args : list string) : Z :=
  match args with
  | [] => 0
  | arg :: rest =>
      if configOptionConsumesNext arg then match rest with [] => 0 | _ :: rest => config_positional rest end
      else if has_prefix arg "-" || configReadAction arg then config_positional rest
      else 1 + config_positional rest
  end.

Definition classifyGitConfig (args : list string) : CommandEffect :=
  let family := "git config"%string in
  let domain := if hasEffectArg args ["--global"; "--system"]%string then WriteHostState else WriteRepositoryMetadata in
  match first_some (config_write family domain) args with
  | Some e => e
  | None =>
      if (config_positional args <=? 1) || containsConfigReadAction args then knownReader family
      else knownWriter family domain "updates git configuration"
  end.

Definition WriteBoth : Z := Z.lor WriteWorkspaceContent WriteRepositoryMetadata.

Definition first_is (args words : list string) : bool := match args with a :: _ => listed words (to_lower a) | [] => false end.

Definition classifyGitWorktree (args : list string) : CommandEffect :=
  let family := "git worktree"%string in
  if match args with a :: _ => equal_fold a "list" | [] => false end then knownReader family
  else if first_is args ["add"; "remove"; "move"; "prune"]%string then knownWriter family WriteBoth "updates worktrees"
  else if first_is args ["lock"; "unlock"; "repair"]%string then knownWriter family WriteRepositoryMetadata "updates worktree metadata"
  else unknownEffect family "worktree operation is not a proven reader".

Definition classifyGitStash (args : list string) : CommandEffect :=
  let family := "git stash"%string in
  if first_is args ["list"; "show"]%string then knownReader family
  else if first_is args ["push"; "save"; "pop"; "apply"; "drop"; "clear"; "branch"; "store"; "create"]%string
       then knownWriter family WriteBoth "updates stash or working tree state"
       else unknownEffect family "stash operation is not a proven reader".

Definition classifyGitClean (args : list string) : CommandEffect :=
  let family := "git clean"%string in
  let dryRun := existsb (fun a => (a =? "--dry-run")%string || shortOptionContains a "n") args in
  let force := existsb (fun a => (a =? "--force")%string || shortOptionContains a "f") args in
  if dryRun && negb force then knownReader family else knownWriter family WriteWorkspaceContent "removes untracked workspace content".

Definition classifyGitSubmodule (args : list string) : CommandEffect :=
  let family := "git submodule"%string in
  if first_is args ["status"; "summary"]%string then knownReader family
  else if first_is args ["add"; "init"; "update"; "deinit"; "sync"; "set-url"; "set-branch"; "foreach"; "absorbgitdirs"]%string
       then knownWriter family WriteBoth "updates submodule state"
       else unknownEffect family "submodule operation is not a proven reader".

Fixpoint commit_scan (family : string) (args : list string) (pure : bool) : CommandEffect :=
  match args with
  | [] => if pure then knownWriter family WriteRepositoryMetadata "creates a commit and moves refs" else knownWriter family WriteBoth "ambiguous commit form"
  | arg :: rest =>
      if listed ["-q"; "--quiet"]%string arg then commit_scan family rest pure
      else if listed ["-m"; "--message"]%string arg then
        match rest with [] => knownWriter family WriteBoth "ambiguous commit form" | _ :: rest => commit_scan family rest true end
      else if has_prefix arg "--message=" then commit_scan family rest true
      else knownWriter family WriteBoth "commit form may include workspace content"
  end.
Definition classifyGitCommit (args : list string) : CommandEffect := commit_scan "git commit" args false.

Definition classifyGit (args : list string) : CommandEffect :=
  match args with
  | [] => unknownEffect "git" "missing git subcommand"
  | a :: rest =>
      let sub := to_lower a in
      if (sub =? "branch")%string then classifyGitBranch rest
      else if (sub =? "tag")%string then classifyGitTag rest
      else if (sub =? "remote")%string then classifyGitRemote rest
      else if (sub =? "config")%string then classifyGitConfig rest
      else if (sub =? "worktree")%string then classifyGitWorktree rest
      else if (sub =? "stash")%string then classifyGitStash rest
      else if (sub =? "clean")%string then classifyGitClean rest
      else if (sub =? "submodule")%string then classifyGitSubmodule rest
      else if (sub =? "commit")%string then classifyGitCommit rest
      else if (sub =? "reflog")%string then
        if first_is rest ["expire"; "delete"; "drop"]%string then knownWriter "git reflog" WriteRepositoryMetadata "updates reflog metadata"
        else knownReader "git reflog"
      else if listed ["diff"; "show"; "log"]%string sub then
        if hasOutputArg rest then knownWriter ("git " +:+ sub) WriteWorkspaceContent "writes command output"
        else if hasEffectArg rest ["--ext-diff"; "--textconv"]%string then unknownCodeEffect ("git " +:+ sub) "may execute an external diff helper"
        else knownReader ("git " +:+ sub)
      else if (sub =? "grep")%string then
        if hasArgPrefix rest "--open-files-in-pager" then unknownCodeEffect "git grep" "may execute an external pager" else knownReader "git grep"
      else if (sub =? "cat-file")%string then
        if hasEffectArg rest ["--filters"; "--textconv"]%string then unknownCodeEffect "git cat-file" "may execute an external content filter"
        else knownReader "git cat-file"
      else if listed (readOnlyPrefixes "git") sub then knownReader ("git " +:+ sub)
      else unknownEffect ("git " +:+ sub) "git subcommand effects are not statically known"
  end.

(** ** Other families *)

Fixpoint date_scan (family : string) (args : list string) : CommandEffect :=
  match args with
  | [] => knownReader family
  | arg :: rest =>
      if (arg =? "-s")%string || (arg =? "--set")%string || has_prefix arg "--set=" then knownWriter family WriteHostState "sets the host clock"
      else if has_prefix arg "+" then date_scan family rest
      else if listed ["-u"; "--utc"; "--universal"; "-R"; "--rfc-email"; "--resolution"; "--debug"; "-j"]%string arg then date_scan family rest
      else if has_prefix arg "--iso-8601" || has_prefix arg "--rfc-3339" then date_scan family rest
      else if listed ["-d"; "--date"; "-r"; "--reference"; "-f"; "--file"]%string arg then
        match rest with [] => unknownEffect family "missing date reader value" | _ :: rest => date_scan family rest end
      else if has_prefix arg "--date=" || has_prefix arg "--reference=" || has_prefix arg "--file=" then date_scan family rest
      else if has_prefix arg "-" then unknownEffect family "unknown date option"
      else knownWriter family WriteHostState "may set the host clock"
  end.
Definition classifyDate (args : list string) : CommandEffect := date_scan "date" args.

Fixpoint module_update (args : list string) : bool :=
  match args with
  | [] => false
  | arg :: rest =>
      (arg =? "-modfile")%string || has_prefix arg "-modfile=" || (arg =? "-mod=mod")%string
      || ((arg =? "-mod")%string && match rest with next :: _ => (next =? "mod")%string | [] => false end)
      || module_update rest
  end.

Definition classifyGo (args : list string) : CommandEffect :=
  match args with
  | [] => unknownEffect "go" "missing go subcommand"
  | a :: rest =>
      let sub := to_lower a in
      let family := "go " +:+ sub in
      if (sub =? "env")%string && hasEffectArg rest ["-w"; "-u"]%string then knownWriter family WriteHostState "updates Go environment configuration"
      else if (sub =? "list")%string && module_update rest then knownWriter family WriteWorkspaceContent "may update module files"
      else if listed (readOnlyPrefixes "go") sub then knownReader family
      else unknownEffect family "go subcommand effects are not statically known"
  end.

Definition classifyNPM (args : list string) : CommandEffect :=
  match args with
  | [] => unknownEffect "npm" "missing npm subcommand"
  | a :: rest =>
      let sub := to_lower a in
      let family := "npm " +:+ sub in
      if (sub =? "audit")%string then
        let effect := knownReader family <| UsesNetwork := true |> in
        if hasEffectArg rest ["fix"; "--fix"]%string then
          effect <| Writes := WriteWorkspaceContent |> <| PermissionSafe := false |> <| Reason := "updates dependency manifests or lockfiles"%string |>
        else effect
      else if listed (readOnlyPrefixes "npm") sub then knownReader family <| UsesNetwork := listed ["view"; "info"; "outdated"]%string sub |>
      else unknownEffect family "npm subcommand effects are not statically known"
  end.

Definition classifyCargo (args : list string) : CommandEffect :=
  match args with
  | [] => unknownEffect "cargo" "missing cargo subcommand"
  | a :: _ =>
      let sub := to_lower a in
      let family := "cargo " +:+ sub in
      if listed ["check"; "doc"]%string sub then
        knownWriter family WriteWorkspaceContent "writes build artifacts and may run build scripts" <| ExecutesCode := true |>
      else if (sub =? "search")%string then knownReader family <| UsesNetwork := true |>
      else unknownEffect family "cargo subcommand effects are not statically known"
  end.

Definition joinFamily (base sub : string) : string := if (sub =? "")%string then base else base +:+ " " +:+ sub.

Definition command_base (field : string) : string := to_lower (trim_suffix (Base field) ".exe").

Definition classifyStaticFields (fields : list string) : CommandEffect :=
  match fields with
  | [] => unknownEffect "shell" "empty command"
  | f :: args =>
      let base := command_base f in
      if (base =? "git")%string then classifyGit args
      else if (base =? "date")%string then classifyDate args
      else if (base =? "go")%string then classifyGo args
      else if (base =? "npm")%string then classifyNPM args
      else if (base =? "cargo")%string then classifyCargo args
      else if (base =? "test-netconnection")%string then mkEffect EffectKnown 0 false false true base "network probe requires permission"
      else if listed readOnlyCommands base then
        if (base =? "find")%string then
          if hasEffectArg args ["-exec"; "-execdir"; "-ok"; "-okdir"]%string then unknownCodeEffect base "executes a nested command"
          else if hasEffectArg args ["-delete"; "-fls"; "-fprint"; "-fprint0"; "-fprintf"]%string then knownWriter base WriteWorkspaceContent "writes filesystem state"
          else knownReader base
        else if (base =? "sort")%string && hasOutputArg args then knownWriter base WriteWorkspaceContent "writes command output"
        else knownReader base
      else match args with
           | a :: _ =>
               if listed (readOnlyPrefixes base) (to_lower a) then
                 knownReader (joinFamily base (to_lower a)) <| UsesNetwork := (base =? "docker")%string || (base =? "kubectl")%string |>
               else unknownEffect base "command effects are not statically known"
           | [] => unknownEffect base "command effects are not statically known"
           end
  end.

(** ** Segments *)

Fixpoint skip_assignments (rest : list string) : option (list string) :=
  match rest with
  | [] => None
  | tok :: more => if has_prefix tok "-" then None else if negb (contains tok "=") then Some rest else skip_assignments more
  end.

(** The command behind an [env] wrapper, and whether there was one. *)
Definition unwrapEnvArgv (argv : list string) : option (list string * bool) :=
  match argv with
  | [] => None
  | a :: rest =>
      if negb (command_base a =? "env")%string then Some (argv, false)
      else match skip_assignments rest with Some fields => Some (fields, true) | None => None end
  end.

Definition applyEnvPrefix (effect : CommandEffect) (envPrefixed : bool) : CommandEffect :=
  if negb envPrefixed then effect
  else
    let effect := effect <| PermissionSafe := false |> in
    if (Reason effect =? "")%string then effect <| Reason := "environment prefix requires permission"%string |> else effect.

Context `{ShellSyntax}.

Definition staticArgv (command : string) : option (list string * bool) :=
  match ParseStaticCommand command (mkPolicy true true) with
  | Rejected _ _ => None
  | Static cmd =>
      match Argv cmd with
      | [] => None
      | argv => match unwrapEnvArgv argv with
                | None => None
                | Some (fields, envPrefixed) => Some (fields, envPrefixed || negb (length (Env cmd) =? 0)%nat)
                end
      end
  end.
Definition CommandArgv (command : string) : option (list string * bool) := staticArgv (trim_space command).

Definition commandFamilyFromSource (command : string) : string :=
  match AnalyzeApprovalFeatures command with
  | None => "shell"
  | Some features =>
      match CommandPrefix features with
      | [] => "shell"
      | f :: rest =>
          let base := command_base f in
          match rest with
          | s :: _ => if listed ["git"; "go"; "npm"; "cargo"; "docker"; "kubectl"]%string base then joinFamily base (to_lower s) else base
          | [] => base
          end
      end
  end.

Definition lifecycle_node (n : node) : bool :=
  match n with Stmt fl _ _ _ _ => Background fl || Coprocess fl || Disown fl | _ => false end.
Definition bashHasUnsafeLifecycle (command : string) : bool :=
  match ParseBash command with Err _ => false | Ok file => some_in lifecycle_node file end.

(** Every redirection writes a file; whether there is one. *)
Definition output_redirects (redirs : list node) : option bool :=
  if forallb (fun r => match r with Redirect op _ _ _ _ _ => writes_file op | _ => false end) redirs
  then Some (negb (length redirs =? 0)%nat) else None.

Definition staticFieldsWithOutputRedirect (command : string) : option (list string * bool) :=
  match ParseBash command with
  | Err _ => None
  | Ok file =>
      if HasHereDoc file then None
      else match simple_call file with
           | Some ([], args, redirs) =>
               match all_some StaticWord args with
               | None => None
               | Some fields =>
                   match output_redirects redirs with
                   | None => None
                   | Some writes => if (length fields =? 0)%nat then None else Some (fields, writes)
                   end
               end
           | _ => None
           end
  end.

Definition redirected (effect : CommandEffect) : CommandEffect :=
  let effect := effect <| Writes ::= Z.lor WriteWorkspaceContent |> <| PermissionSafe := false |> in
  if (Reason effect =? "")%string then effect <| Reason := "writes command output"%string |> else effect.

Definition classifyBashSegment (segment : string) : CommandEffect :=
  match NormalizeBashSafeRedirectsForMatch segment with
  | Some normalized =>
      match staticArgv normalized with
      | Some (fields, envPrefixed) => applyEnvPrefix (classifyStaticFields fields) envPrefixed
      | None =>
          let unknown := unknownEffect (commandFamilyFromSource normalized) "dynamic command shape" in
          match ClassifyReadOnlyCommand normalized with
          | Some (base, sub, fields) =>
              let effect := classifyStaticFields fields in
              if known effect && (Writes effect =? 0) then effect <| CommandFamily := joinFamily base sub |> else unknown
          | None => unknown
          end
      end
  | None =>
      match staticFieldsWithOutputRedirect segment with
      | None => unknownEffect (commandFamilyFromSource segment) "unsafe or unsupported redirection"
      | Some (fields, writesFile) =>
          let effect := classifyStaticFields fields in
          if writesFile then redirected effect else effect
      end
  end.

(** One more segment. *)
Definition aggregate_step (agg effect : CommandEffect) : CommandEffect :=
  let agg := agg <| Writes ::= fun w => Z.lor w (Writes effect) |> <| ExecutesCode ::= fun b => b || ExecutesCode effect |>
                 <| UsesNetwork ::= fun b => b || UsesNetwork effect |> <| PermissionSafe ::= fun b => b && IsPermissionReader effect |> in
  let agg := if (CommandFamily agg =? "")%string || AnyMutation effect || negb (PermissionSafe effect)
             then agg <| CommandFamily := CommandFamily effect |> else agg in
  let agg := if (Reason agg =? "")%string && negb (Reason effect =? "")%string then agg <| Reason := Reason effect |> else agg in
  if known effect then agg else agg <| Cert := EffectUnknown |>.

Definition aggregate (effects : list CommandEffect) : CommandEffect :=
  let agg := foldl aggregate_step (mkEffect EffectKnown 0 true false false "" "") effects in
  if (CommandFamily agg =? "")%string then agg <| CommandFamily := "shell"%string |> else agg.

Definition ClassifyBash (command : string) : CommandEffect :=
  let command := trim_space command in
  if (command =? "")%string then unknownEffect "shell" "empty command"
  else if bashHasUnsafeLifecycle command then unknownEffect (commandFamilyFromSource command) "background or process lifecycle syntax"
  else match SplitTopLevel command with
       | Some ((_ :: _) as segments, _) => aggregate (map classifyBashSegment segments)
       | _ => unknownEffect (commandFamilyFromSource command) "unsupported shell syntax"
       end.
End Effects.
