(* ===== verification/ShellReader.v ===== *)
(** What the classifier of harness/shellsafe/effect.go checks of a command it lets run
    unasked, collected from its per-program functions into one declarative form: each
    of its parts is one program of the tables, called with static words, with none of
    the options that the classifier's lists name and no file written by a redirection.
    The lists are the classifier's: a program can write or run code in ways they do not
    name ([unlisted_writers], [dollar_quotation]). *)

From Stdlib Require Import ZArith Lia Bool Ascii String.
From stdpp Require Import tactics base option list strings.
From S2P Require Import Prelude GoStrings Text Transcript ShellParse ShellSafe ShellEffect.

#[global] Open Scope Z_scope.

(** ** What the classifier calls a reader *)







Section Reads.
Context `{UnicodeLower} `{UnicodeFold}.



(** ** Each family *)












(** ** git *)









(** ** One command *)


(** ** Segments *)







Context `{ShellSyntax}.











End Reads.

(** ** Samples *)

(** A parser of the commands of the samples: words between single blanks, joined by
    [&&]; a word may be a substitution or a redirection of the errors. *)
Module ShellSample.
Definition no_flags : stmt_flags := mkFlags false false false false.

Definition word_at (off : Z) (w : string) : node :=
  Word (Some (mkSpan off (off + slen w)))
    (match cut "$(" w with Some (_, body) => [CmdSubst false false [Other [Lit body]]] | None => [Lit w] end).

Fixpoint words_at (off : Z) (ws : list string) : list node * list node :=
  match ws with
  | [] => ([], [])
  | w :: rest =>
      let '(args, redirs) := words_at (off + slen w + 1) rest in
      match cut "2>" w with
      | Some ("", target) =>
          (args, Redirect RdrOut (off + 1) (off + slen w) (Some ("2"%string, Some off)) (Some (word_at (off + 2) target)) None :: redirs)
      | _ => (word_at off w :: args, redirs)
      end
  end.

Definition simple (off : Z) (text : string) : node :=
  let '(args, redirs) := words_at off (split_on " " text) in
  Stmt no_flags (mkSpan off (off + slen text)) None (Some (CallExpr [] args)) redirs.

Definition parse (text : string) : result (list node) :=
  match cut " && " text with
  | Some (a, b) =>
      Ok [Stmt no_flags (mkSpan 0 (slen text)) None (Some (BinaryCmd AndStmt (simple 0 a) (simple (slen a + 4) b))) []]
  | None => if contains text "(" && negb (contains text ")") then Err "unclosed" else Ok [simple 0 text]
  end.

#[export] Instance syntax : ShellSyntax := {| ParseBash := parse; SplitBraces := fun w => w |}.
#[export] Instance lower : UnicodeLower := fun r => r.
#[export] Instance fold : UnicodeFold := fun a b => (to_lower a =? to_lower b)%string.

Example readers :
  map (fun c => IsPermissionReader (ClassifyBash c))
    ["git log 2>/dev/null && head -5"; "ls -la"; "git branch -d x"; "git branch --list"; "git log 2>err"; "go env -w X=1"; "rm -rf x && ls"; "date -d x";
     "date x"; "find . -delete"; "env ls"; "ls $(pwd)"]%string
  = [true; true; false; true; false; false; false; true; false; false; false; false].
Proof. vm_compute. reflexivity. Qed.

(** The escapes of a dollar quotation are not read: the shell would pass [-delete]. *)
Example dollar_quotation :
  StaticWord (Word None [SglQuoted true "\055delete"]) = Some "\055delete"%string
  /\ IsPermissionReader (classifyStaticFields ["find"; "."; "\055delete"]%string) = true
  /\ IsPermissionReader (classifyStaticFields ["find"; "."; "-delete"]%string) = false.
Proof. by vm_compute. Qed.

(** Readers that write: the second operand of uniq, the short option of git grep that
    opens a pager, a shortened long option. *)
Example unlisted_writers :
  map (fun fields => IsPermissionReader (classifyStaticFields fields))
    [["uniq"; "in"; "out"]; ["git"; "grep"; "-Ovi"; "x"]; ["sort"; "--outp=x"; "y"]]%string = [true; true; true].
Proof. by vm_compute. Qed.
End ShellSample.

Import ShellSample.

