(* ===== verification/Permission.v ===== *)
(** harness/permission: whether a tool call is allowed, denied or put to the user.

    The arguments of a call are raw JSON; [ToolArgs] decodes them as a map and as the
    parameters of the bash tool.  The approver is a function of the call and of the
    reason shown to the user. *)

From Stdlib Require Import ZArith Lia Bool Ascii String.
From stdpp Require Import tactics base option list gmap strings.
From S2P Require Import Prelude Float64 GoStrings Json Text Task Transcript ShellParse ShellSafe ShellEffect ShellReader.

#[global] Open Scope Z_scope.

Inductive Decision := Allow | Ask | Deny.
#[export] Instance Decision_eq_dec : EqDecision Decision.
Proof. solve_decision. Defined.

Definition decision_string (d : Decision) : string := match d with Allow => "allow" | Ask => "ask" | Deny => "deny" end.

Record Rule := mkRule { Tool : string; RSubject : string; Literal : bool }.

(** ** Globs *)

(** The state of the matcher: what is left of the pattern and of the name, and the last
    star with the name it was met at. *)
Fixpoint drop_stars (p : string) : string :=
  match p with String c t => if Ascii.eqb c "*" then drop_stars t else p | EmptyString => p end.

Fixpoint glob_loop (fuel : nat) (p n : string) (star : option (string * string)) : option bool :=
  match fuel with
  | O => None
  | S fuel =>
      match n with
      | EmptyString => Some (drop_stars p =? "")%string
      | String d n' =>
          let retry := match star with
                       | Some (sp, String _ sn) => glob_loop fuel sp sn (Some (sp, sn))
                       | _ => Some false
                       end in
          match p with
          | String c p' =>
              if Ascii.eqb c "*" then glob_loop fuel p' n (Some (p', n))
              else if Ascii.eqb c "?" || Ascii.eqb c d then glob_loop fuel p' n' star
              else retry
          | EmptyString => retry
          end
      end
  end.

Definition glob_fuel (p n : string) : nat := (String.length n + 2) * (String.length p + 2).
Definition matchGlob (pattern name : string) : bool := default false (glob_loop (glob_fuel pattern name) pattern name None).

Definition hasGlobMeta (s : string) : bool := existsb (one_char "*?") (list_ascii_of_string s).

(** ** Rules *)

Section Permission.
Context `{UnicodeLower} `{UnicodeFold} `{ShellSyntax}.

Definition ParseDecision (s : string) : Decision :=
  let s := to_lower (trim_space s) in
  if (s =? "allow")%string then Allow else if (s =? "deny")%string then Deny else Ask.

Definition ParseRule (s : string) : option Rule :=
  let s := trim_space s in
  if (s =? "")%string then None
  else
    let plain := match cut "(" s with
                 | Some (a, b) =>
                     if has_suffix s ")" then
                       let tool := trim_space a in if (tool =? "")%string then None else Some (mkRule tool (trim_suffix b ")") false)
                     else Some (mkRule s "" false)
                 | None => Some (mkRule s "" false)
                 end in
    match cut "=" s with
    | Some (a, b) =>
        if negb (a =? "")%string && negb (contains a "(") then
          let tool := trim_space a in if (tool =? "")%string then None else Some (mkRule tool b true)
        else plain
    | None => plain
    end.

Definition legacyBarePowerShellDenyCmdlet (s : string) : option string :=
  let s := to_lower (trim_space s) in
  if (s =? "set-content")%string then Some "Set-Content"%string
  else if (s =? "add-content")%string then Some "Add-Content"%string
  else if (s =? "out-file")%string then Some "Out-File"%string
  else None.

Definition parseRules (ss : list string) : list Rule := omap ParseRule ss.

Definition deny_rules (s : string) : list Rule :=
  match ParseRule s with
  | None => []
  | Some r =>
      r :: (if (RSubject r =? "")%string then
              match legacyBarePowerShellDenyCmdlet (Tool r) with Some c => [mkRule "Bash" (c +:+ ":*") false] | None => [] end
            else [])
  end.
Definition parseDenyRules (ss : list string) : list Rule := concat (map deny_rules ss).

Record Policy := mkPolicy {
  Mode : Decision;
  PAllow : list Rule;
  PAsk : list Rule;
  PDeny : list Rule;
  SessionAllow : list Rule;
  AllowDynamicBash : bool;
}.
#[export] Instance Policy_eta : Eta Policy := fun r => mkPolicy (Mode r) (PAllow r) (PAsk r) (PDeny r) (SessionAllow r) (AllowDynamicBash r).

Definition WithSessionAllow (p : Policy) (rules : list string) : Policy := p <| SessionAllow ::= fun l => l ++ parseRules rules |>.
Definition WithAllowDynamicBashFallback (p : Policy) (enabled : bool) : Policy := p <| AllowDynamicBash := enabled |>.
Definition New (mode : string) (allow ask deny : list string) : Policy :=
  mkPolicy (ParseDecision mode) (parseRules allow) (parseRules ask) (parseDenyRules deny) [] false.

Definition IsFileMutationTool (toolName : string) : bool :=
  listed ["write_file"; "edit_file"; "multi_edit"; "move_file"; "notebook_edit"; "delete_range"; "delete_symbol"]%string toolName.

Definition canonicalRuleTool (toolName : string) : string :=
  let t := trim_space toolName in
  if listed ["Bash"; "bash"]%string t then "bash"
  else if listed ["Edit"; "edit"; "file_mutation"]%string t then "file_mutation"
  else toolName.

Definition ruleToolMatches (ruleTool toolName : string) : bool :=
  let t := canonicalRuleTool ruleTool in
  (t =? toolName)%string || ((t =? "file_mutation")%string && IsFileMutationTool toolName).
Definition ruleToolCompatible (existingTool candidateTool : string) : bool :=
  let e := canonicalRuleTool existingTool in
  let c := canonicalRuleTool candidateTool in
  (e =? c)%string || ((e =? "file_mutation")%string && ((c =? "file_mutation")%string || IsFileMutationTool c)).

(** ** Prefix rules *)

Definition prefix_base (suffix pattern : string) : option string :=
  if negb (has_suffix pattern suffix) then None
  else let base := trim_suffix pattern suffix in if (base =? "")%string then None else Some base.
Definition bashColonPrefixBase (pattern : string) : option string := prefix_base ":*" pattern.
Definition legacyBashSpaceStarPrefixBase (pattern : string) : option string := prefix_base " *" pattern.
Definition bashPrefixBase (pattern : string) : option string :=
  match bashColonPrefixBase pattern with Some b => Some b | None => legacyBashSpaceStarPrefixBase pattern end.

Fixpoint fields_prefix (want got : list string) : bool :=
  match want, got with
  | [], _ => true
  | w :: ws, g :: gs => (g =? w)%string && fields_prefix ws gs
  | _, [] => false
  end.

Definition bashPrefixMatches (base subject : string) : bool :=
  let subject := default subject (NormalizeBashSafeRedirectsForMatch subject) in
  let '(fields, malformed) := StaticFields subject in
  let '(baseFields, base_malformed) := StaticFields base in
  (malformed =? "")%string && (base_malformed =? "")%string && negb (length baseFields =? 0)%nat && fields_prefix baseFields fields.

Definition ruleSubjectMatches (rule : Rule) (subject : string) : bool :=
  if (RSubject rule =? "")%string then true
  else if (subject =? "")%string then false
  else if Literal rule then (RSubject rule =? subject)%string
  else
    let glob := matchGlob (RSubject rule) subject in
    if (canonicalRuleTool (Tool rule) =? "bash")%string then
      match bashPrefixBase (RSubject rule) with Some base => bashPrefixMatches base subject | None => glob end
    else glob.

Definition isCaseInsensitivePowerShellCmdlet (s : string) : bool := bool_decide (is_Some (legacyBarePowerShellDenyCmdlet s)).

(** The first field of a cmdlet is compared without case. *)
Definition first_field_matches (want got : string) : bool :=
  (got =? want)%string || (isCaseInsensitivePowerShellCmdlet want && equal_fold got want).
Definition raw_fields_prefix (want got : list string) : bool :=
  match want, got with
  | w :: ws, g :: gs => first_field_matches w g && fields_prefix ws gs
  | _, _ => false
  end.

Definition follows_blank (rest : string) : bool :=
  match rest with String c _ => existsb (Z.eqb (byte_of c)) [32; 9; 13; 10] | EmptyString => false end.

Definition rawBashPrefixMatches (base subject : string) : bool :=
  let '(baseFields, malformed) := StaticFields base in
  let by_fields :=
    (malformed =? "")%string
    && match AnalyzeApprovalFeatures subject with Some features => raw_fields_prefix baseFields (CommandPrefix features) | None => false end in
  by_fields
  || (let base := trim_space base in
      let subject := trim_space subject in
      let folded := isCaseInsensitivePowerShellCmdlet base in
      if (subject =? base)%string || (folded && equal_fold subject base) then true
      else if (String.length subject <=? String.length base)%nat then false
      else
        (if folded then equal_fold (string_take (String.length base) subject) base else has_prefix subject base)
        && follows_blank (string_drop (String.length base) subject)).

Definition rawRuleSubjectMatches (rule : Rule) (subject : string) : bool :=
  if Literal rule then (RSubject rule =? subject)%string
  else if (canonicalRuleTool (Tool rule) =? "bash")%string then
    match bashPrefixBase (RSubject rule) with
    | Some base => rawBashPrefixMatches base subject
    | None => matchGlob (RSubject rule) subject
    end
  else matchGlob (RSubject rule) subject.

(** ** Matching *)

Definition rule_matches (subject_matches : Rule -> string -> bool) (toolName subject : string) (r : Rule) : bool :=
  ruleToolMatches (Tool r) toolName
  && ((RSubject r =? "")%string || (negb (subject =? "")%string && subject_matches r subject)).

Definition matchAny (rules : list Rule) (toolName subject : string) : bool := existsb (rule_matches ruleSubjectMatches toolName subject) rules.
Definition matchAnyRaw (rules : list Rule) (toolName subject : string) : bool := existsb (rule_matches rawRuleSubjectMatches toolName subject) rules.

Definition firstMatchingRule (rules : list Rule) (toolName subject : string) (raw : bool) : option Rule :=
  find (rule_matches (if raw then rawRuleSubjectMatches else ruleSubjectMatches) toolName subject) rules.

Definition exact_rule (toolName subject : string) (r : Rule) : bool :=
  ruleToolMatches (Tool r) toolName && negb (RSubject r =? "")%string
  && (RSubject r =? subject)%string && (Literal r || negb (hasGlobMeta (RSubject r))).
Definition matchAnyExact (rules : list Rule) (toolName subject : string) : bool :=
  if (subject =? "")%string then false else existsb (exact_rule toolName subject) rules.

Definition ruleConfigString (rule : Rule) : string :=
  if (RSubject rule =? "")%string then Tool rule
  else if Literal rule then Tool rule +:+ "=" +:+ RSubject rule
  else Tool rule +:+ "(" +:+ RSubject rule +:+ ")".

(** ** Bash approvals (bash_approval.go) *)

Inductive bashApprovalClass := bashApprovalReusable | bashApprovalExactOnly | bashApprovalRequireHuman.
Definition class_rank (c : bashApprovalClass) : Z :=
  match c with bashApprovalReusable => 0 | bashApprovalExactOnly => 1 | bashApprovalRequireHuman => 2 end.
Definition worse (a b : bashApprovalClass) : bashApprovalClass := if class_rank a <? class_rank b then b else a.

(** After the last slash or backslash. *)
Fixpoint after_separator (s : string) : option string :=
  match s with
  | EmptyString => None
  | String c t => match after_separator t with
                  | Some b => Some b
                  | None => if existsb (Z.eqb (byte_of c)) [47; 92] then Some t else None
                  end
  end.
Definition executableBase (command : string) : string :=
  trim_suffix (to_lower (default command (after_separator command))) ".exe".

Definition letter_rune (r : Z) : bool := in_range 97 122 r || in_range 65 90 r.
Definition isEnvironmentAssignment (arg : string) : bool :=
  match cut "=" arg with
  | Some (name, _) =>
      match runes name with
      | [] => false
      | r :: rest => (letter_rune r || (r =? 95)) && forallb (fun r => letter_rune r || in_range 48 57 r || (r =? 95)) rest
      end
  | None => false
  end.

Fixpoint hasShellCommandFlag (args : list string) : bool :=
  match args with
  | [] => false
  | arg :: rest =>
      let lower := to_lower arg in
      if (lower =? "--")%string then false
      else if (lower =? "--command")%string then true
      else if has_prefix lower "-" && negb (has_prefix lower "--") && contains (trim_prefix lower "-") "c" then true
      else hasShellCommandFlag rest
  end.

Definition folded_arg (lower candidate : string) : bool :=
  let len := String.length candidate in
  (lower =? candidate)%string
  || (has_prefix candidate "--" && (has_prefix lower (candidate +:+ "=") || has_prefix lower (candidate +:+ ":")))
  || (has_prefix candidate "-" && negb (has_prefix candidate "--") && (len =? 2)%nat && has_prefix lower candidate && negb (has_prefix lower "--"))
  || (has_prefix candidate "/" && (len =? 2)%nat && has_prefix lower candidate)
  || ((2 <? len)%nat && has_prefix candidate "-" && has_prefix lower (candidate +:+ ":")).
Definition hasAnyFoldedArg (args candidates : list string) : bool :=
  existsb (fun arg => existsb (fun c => folded_arg (to_lower arg) (to_lower c)) candidates) args.

(** [env]: the arguments of env are being read. *)
Fixpoint indirect (env : bool) (fields : list string) : bool :=
  match fields with
  | [] => true
  | f :: args =>
      if env && isEnvironmentAssignment f then indirect true args
      else if env && has_prefix f "-" then true
      else
        let base := executableBase f in
        if listed ["eval"; "source"; "."; "xargs"]%string base then true
        else if (base =? "env")%string then indirect true args
        else if listed ["builtin"; "command"; "exec"; "nohup"; "sudo"]%string base then
          match args with [] => true | a :: _ => if has_prefix a "-" then true else indirect false args end
        else if listed ["bash"; "dash"; "fish"; "ksh"; "sh"; "zsh"]%string base then hasShellCommandFlag args
        else if listed ["powershell"; "pwsh"]%string base then hasAnyFoldedArg args ["-c"; "-command"; "-e"; "-enc"; "-encodedcommand"]%string
        else if (base =? "cmd")%string then hasAnyFoldedArg args ["/c"; "/k"]%string
        else if listed ["node"; "bun"]%string base then hasAnyFoldedArg args ["-e"; "--eval"; "-p"; "--print"]%string
        else if (base =? "deno")%string then hasAnyFoldedArg args ["eval"]%string
        else if listed ["python"; "python3"; "py"; "pypy"; "pypy3"]%string base then hasAnyFoldedArg args ["-c"]%string
        else if listed ["perl"; "ruby"; "lua"; "luajit"; "r"; "rscript"; "osascript"]%string base then hasAnyFoldedArg args ["-e"]%string
        else if (base =? "php")%string then hasAnyFoldedArg args ["-r"]%string
        else if (base =? "find")%string then hasAnyFoldedArg args ["-exec"; "-execdir"; "-ok"; "-okdir"]%string
        else false
  end.
Definition isIndirectExecution (fields : list string) : bool := indirect false fields.

Fixpoint env_assigns (args : list string) : bool :=
  match args with
  | [] => false
  | a :: rest => if isEnvironmentAssignment a then true else if has_prefix a "-" then env_assigns rest else false
  end.
Definition hasEnvWrapperAssignment (fields : list string) : bool :=
  match fields with f :: ((_ :: _) as args) => (executableBase f =? "env")%string && env_assigns args | _ => false end.

Definition classifyBashSegmentApproval (subject : string) : bashApprovalClass :=
  let subject := default subject (NormalizeBashSafeRedirectsForMatch subject) in
  match AnalyzeApprovalFeatures subject with
  | None => bashApprovalRequireHuman
  | Some features =>
      if NestedExecution features || DynamicCommandName features then bashApprovalRequireHuman
      else if negb (length (CommandPrefix features) =? 0)%nat && isIndirectExecution (CommandPrefix features) then bashApprovalRequireHuman
      else if Expansion features || Assignment features || Redirection features || ContainsUnquotedGlob subject
              || hasEnvWrapperAssignment (CommandPrefix features) then bashApprovalExactOnly
      else bashApprovalReusable
  end.

Definition classifyBashApproval (subject : string) : bashApprovalClass :=
  if (trim_space subject =? "")%string then bashApprovalReusable
  else match SplitTopLevel subject with
       | None => classifyBashSegmentApproval subject
       | Some ([], _) => bashApprovalRequireHuman
       | Some (segments, _) => foldl (fun c s => worse c (classifyBashSegmentApproval s)) bashApprovalReusable segments
       end.
Definition BashSubjectRequiresExplicitApproval (subject : string) : bool := class_rank (classifyBashApproval subject) =? 2.
Definition bashSubjectRequiresExactRule (subject : string) : bool := negb (class_rank (classifyBashApproval subject) =? 0).

Definition matchAnyAllow (rules : list Rule) (toolName subject : string) : bool :=
  if matchAnyExact rules toolName subject then true
  else if (canonicalRuleTool toolName =? "bash")%string && bashSubjectRequiresExactRule subject then false
  else matchAny rules toolName subject.

Definition DecomposeBashCommand (cmd : string) : option (list string) :=
  match SplitTopLevel cmd with Some (out, true) => if (length out <? 2)%nat then None else Some out | _ => None end.

Definition isReadOnlyBashSubject (subject : string) : bool := IsPermissionReader (ClassifyBash subject).

(** ** Decisions *)

(** The decision on the parts of a command, by the decision on one part. *)
Fixpoint decide_parts (decide : bool -> string -> option Decision) (readOnly : bool) (parts : list string) (out : Decision) : option Decision :=
  match parts with
  | [] => Some out
  | sub :: rest =>
      match decide (readOnly || isReadOnlyBashSubject sub) sub with
      | None => None
      | Some Deny => Some Deny
      | Some Ask => decide_parts decide readOnly rest Ask
      | Some Allow => decide_parts decide readOnly rest out
      end
  end.

(** A bash command that is not split. *)
Definition decide_atomic (p : Policy) (toolName : string) (readOnly : bool) (subject : string) : Decision :=
  match classifyBashApproval subject with
  | bashApprovalRequireHuman =>
      match Mode p with
      | Deny => Deny
      | Allow => if AllowDynamicBash p then Allow else Ask
      | Ask => Ask
      end
  | bashApprovalExactOnly => if readOnly then Allow else Mode p
  | bashApprovalReusable =>
      if matchAnyAllow (PAllow p) toolName subject then Allow else if readOnly then Allow else Mode p
  end.

(** [None] is out of fuel: a part of a part. *)
Fixpoint decide_bash (fuel : nat) (p : Policy) (toolName : string) (readOnly : bool) (subject : string) : option Decision :=
  match fuel with
  | O => None
  | S fuel =>
      let parts := DecomposeBashCommand subject in
      if matchAnyRaw (PDeny p) toolName subject then Some Deny
      else if matchAnyExact (SessionAllow p) toolName subject then Some Allow
      else if negb (bashSubjectRequiresExactRule subject) && bool_decide (parts = None) && matchAnyAllow (SessionAllow p) toolName subject then Some Allow
      else if matchAnyRaw (PAsk p) toolName subject then Some Ask
      else if matchAnyExact (PAllow p) toolName subject then Some Allow
      else match parts with
           | Some parts => decide_parts (decide_bash fuel p "bash") readOnly parts Allow
           | None => Some (decide_atomic p toolName readOnly subject)
           end
  end.

Definition decide_plain (p : Policy) (toolName : string) (readOnly : bool) (subject : string) : Decision :=
  if matchAny (PDeny p) toolName subject then Deny
  else if matchAny (SessionAllow p) toolName subject then Allow
  else if matchAny (PAsk p) toolName subject then Ask
  else if matchAny (PAllow p) toolName subject then Allow
  else if readOnly then Allow
  else Mode p.

(** A command and its parts. *)
Definition decide_fuel : nat := 2.
Definition DecideSubject (p : Policy) (toolName : string) (readOnly : bool) (subject : string) : Decision :=
  if (canonicalRuleTool toolName =? "bash")%string then default Deny (decide_bash decide_fuel p toolName readOnly subject)
  else decide_plain p toolName readOnly subject.

Fixpoint decide_all (p : Policy) (toolName : string) (readOnly : bool) (subjects : list string) (out : Decision) : Decision :=
  match subjects with
  | [] => out
  | s :: rest =>
      match DecideSubject p toolName readOnly s with
      | Deny => Deny
      | Ask => decide_all p toolName readOnly rest Ask
      | Allow => decide_all p toolName readOnly rest out
      end
  end.
Definition DecideSubjects (p : Policy) (toolName : string) (readOnly : bool) (subjects : list string) : Decision :=
  match subjects with [] => DecideSubject p toolName readOnly "" | _ => decide_all p toolName readOnly subjects Allow end.
End Permission.

(** ** Calls *)

(** [json.Unmarshal] into a map and into the parameters of the bash tool: the command,
    and whether it or its children stay in the background. *)
Class ToolArgs := {
  args_map : string -> option (gmap string json);
  bash_params : string -> option (string * bool * bool);
}.

(** Tool, subject, arguments and reason: whether to allow, to remember, and the reason of
    a denial. *)
Abbreviation approver := (string -> string -> string -> string -> result (bool * bool * string)).

Section Calls.
Context `{UnicodeLower} `{UnicodeFold} `{ShellSyntax} `{ToolArgs}.

Definition subjectKeys : list string := ["command"; "file_path"; "path"; "source_path"; "destination_path"; "pattern"]%string.

Definition Subjects (args : string) : list string :=
  if (args =? "")%string then []
  else match args_map args with
       | None => []
       | Some m =>
           let src := text_field m "source_path" in
           let dst := text_field m "destination_path" in
           if negb (src =? "")%string && negb (dst =? "")%string then src :: (if (dst =? src)%string then [] else [dst])
           else match find (fun k => negb (text_field m k =? "")%string) subjectKeys with
                | Some k => [text_field m k]
                | None => []
                end
       end.
Definition Subject (args : string) : string := match Subjects args with s :: _ => s | [] => "" end.
(** A call without a subject has the empty one. *)
Definition subjects_or_empty (args : string) : list string := match Subjects args with [] => [""%string] | l => l end.

Definition Decide (p : Policy) (toolName : string) (readOnly : bool) (args : string) : Decision :=
  DecideSubjects p toolName readOnly (Subjects args).

Definition ExplicitlyDenies (p : Policy) (toolName args : string) : bool :=
  existsb (matchAnyRaw (PDeny p) toolName) (subjects_or_empty args).

(** The subject and, for bash, its parts. *)
Definition candidates (raw : bool) (subject : string) : list string :=
  subject :: (if raw then default [] (DecomposeBashCommand subject) else []).

Definition responsible (p : Policy) (toolName : string) (decision : Decision) (rules : list Rule) (raw : bool) (candidate : string) : option string :=
  if negb (bool_decide (DecideSubject p toolName false candidate = decision)) then None
  else match firstMatchingRule rules toolName candidate raw with Some r => Some (ruleConfigString r) | None => None end.

Definition MatchedRule (p : Policy) (toolName : string) (decision : Decision) (args : string) : option string :=
  let raw := (canonicalRuleTool toolName =? "bash")%string in
  let search rules := first_some (responsible p toolName decision rules raw) (concat (map (candidates raw) (subjects_or_empty args))) in
  match decision with Ask => search (PAsk p) | Deny => search (PDeny p) | Allow => None end.

(** ** Remembered rules *)

Definition RuleMatchesString (rule toolName subject : string) : bool :=
  match ParseRule rule with Some r => matchAnyAllow [r] toolName subject | None => false end.

Definition bashRulePrefixBaseMatches (existing candidate : Rule) : bool :=
  if negb (canonicalRuleTool (Tool existing) =? "bash")%string || negb (canonicalRuleTool (Tool candidate) =? "bash")%string then false
  else match bashPrefixBase (RSubject existing), bashPrefixBase (RSubject candidate) with
       | Some e, Some c => (e =? c)%string
       | _, _ => false
       end.

Definition RuleCoversString (existing candidate : string) : bool :=
  match ParseRule existing, ParseRule candidate with
  | Some a, Some b =>
      let concrete := Literal b || negb (hasGlobMeta (RSubject b)) in
      if negb (ruleToolCompatible (Tool a) (Tool b)) then false
      else if (RSubject b =? "")%string then (RSubject a =? "")%string
      else if (canonicalRuleTool (Tool b) =? "bash")%string && concrete && bashSubjectRequiresExactRule (RSubject b)
           then matchAnyExact [a] (canonicalRuleTool (Tool b)) (RSubject b)
      else if (RSubject a =? "")%string then true
      else if bashRulePrefixBaseMatches a b then true
      else if concrete then ruleSubjectMatches a (RSubject b)
      else negb (Literal a) && (RSubject a =? RSubject b)%string
  | _, _ => false
  end.

(** Patterns and labels of the warning. *)
Definition dangerousBashPatterns : list (string * string) :=
  [("rm -rf*", "recursive delete"); ("rm -r *", "recursive delete"); ("rm -fr*", "recursive delete");
   ("git push*--force*", "force push"); ("git push*-f*", "force push"); ("git reset --hard*", "hard reset"); ("git clean -f*", "force clean");
   ("git restore*", "discards uncommitted changes"); ("git checkout -- *", "discards uncommitted changes");
   ("git checkout .*", "discards uncommitted changes"); ("git stash drop*", "drops stashed changes"); ("git stash clear*", "drops stashed changes");
   ("chmod 777*", "world-writable"); ("chmod -R 777*", "world-writable recursive"); ("chown *", "ownership change"); ("sudo *", "superuser");
   ("mkfs*", "filesystem format"); ("dd if=*", "raw device write"); ("fdisk*", "partition table"); ("> /dev/*", "device overwrite")]%string.
Definition BashDangerWarning (subject : string) : string :=
  let s := trim_space subject in
  match find (fun d => matchGlob d.1 s) dangerousBashPatterns with Some d => d.2 | None => "" end.

Definition isPackageManagerRun (base : string) : bool := listed ["npm"; "pnpm"; "yarn"; "bun"]%string base.

Definition BashCommandPrefix (subject : string) : string :=
  let cmd := trim_space subject in
  if (cmd =? "")%string || ContainsShellSyntax cmd || bashSubjectRequiresExactRule cmd then ""
  else if negb (BashDangerWarning cmd =? "")%string then ""
  else
    let '(fields, malformed) := StaticFields cmd in
    if negb (malformed =? "")%string then ""
    else match fields with
         | f0 :: f1 :: rest =>
             match rest with
             | f2 :: _ =>
                 if isPackageManagerRun (to_lower f0) && (to_lower f1 =? "run")%string then f0 +:+ " " +:+ f1 +:+ " " +:+ f2 +:+ ":*"
                 else f0 +:+ " " +:+ f1 +:+ ":*"
             | [] => f0 +:+ " " +:+ f1 +:+ ":*"
             end
         | _ => ""
         end.

(** The session grant is built by the same rule. *)
Definition RememberRuleForScope (toolName subject : string) : string :=
  let subject := trim_space subject in
  if negb (subject =? "")%string && (toolName =? "bash")%string then
    let pattern := BashCommandPrefix subject in
    if negb (pattern =? "")%string then "Bash(" +:+ pattern +:+ ")" else "Bash=" +:+ subject
  else if IsFileMutationTool toolName then "Edit"
  else toolName.
Definition SessionGrantRuleForScope (toolName subject : string) : string := RememberRuleForScope toolName subject.

(** ** The gate *)

Definition BashCommandIsReadOnly (args : string) : bool :=
  match bash_params args with
  | Some (command, background, preserve) =>
      if (trim_space command =? "")%string then false
      else if background || preserve then false else isReadOnlyBashSubject command
  | None => false
  end.

Record verdict := mkVerdict { v_allow : bool; v_reason : string; v_error : option string }.

Definition deny_reason : string :=
  "denied by permission policy — this tool/command is on the deny list. Do not retry it; choose another approach or stop and explain.".
Definition decline_reason : string :=
  "the user declined this tool call — do not retry it; ask how they would like to proceed or choose another approach.".

(** The verdict, the rules handed to the front-end to remember, and the policy after the
    call. *)
Definition GateCheck (p : Policy) (approve : option approver) (remembers : bool) (toolName args : string) (readOnly : bool) : verdict * list string * Policy :=
  let readOnly := readOnly || ((toolName =? "bash")%string && BashCommandIsReadOnly args) in
  let decision := Decide p toolName readOnly args in
  let ruleReason := match MatchedRule p toolName decision args with
                    | Some rule => "Matched permission rule: " +:+ decision_string decision +:+ " " +:+ rule
                    | None => ""
                    end in
  match decision with
  | Deny => (mkVerdict false (if (ruleReason =? "")%string then deny_reason else ruleReason +:+ lf_string +:+ deny_reason) None, [], p)
  | Allow => (mkVerdict true "" None, [], p)
  | Ask =>
      match approve with
      | None => (mkVerdict true "" None, [], p)
      | Some ask =>
          match ask toolName (Subject args) args ruleReason with
          | Err e => (mkVerdict false "approval aborted" (Some e), [], p)
          | Ok (allow, remember, reason) =>
              if negb allow then (mkVerdict false (if (reason =? "")%string then decline_reason else reason) None, [], p)
              else if remember && remembers then
                (mkVerdict true "" None, [toolName],
                 match ParseRule toolName with Some r => p <| PAllow ::= fun l => l ++ [r] |> | None => p end)
              else (mkVerdict true "" None, [], p)
          end
      end
  end.
End Calls.

(** ** The matcher computes the glob relation *)

(** Some suffix satisfies [f]. *)
Fixpoint some_suffix (f : string -> bool) (n : string) : bool :=
  f n || match n with String _ n => some_suffix f n | EmptyString => false end.

(** The reference: a star stands for any text, a question mark for any byte. *)
Fixpoint globs (p n : string) : bool :=
  match p with
  | EmptyString => (n =? "")%string
  | String c p =>
      if Ascii.eqb c "*" then some_suffix (globs p) n
      else match n with String d n => (Ascii.eqb c "?" || Ascii.eqb c d) && globs p n | EmptyString => false end
  end.

Lemma some_suffix_spec f n : some_suffix f n = true <-> exists u t, n = u +:+ t /\ f t = true.
Proof.
  induction n as [|c n IH]; cbn [some_suffix]; rewrite ?orb_true_iff.
  - split; [intros [Hf|]; [by exists ""%string, ""%string|done]|]. intros (u & t & E & Hf). left.
    destruct u; [|done]. by rewrite str_nil_l in E; subst t.
  - rewrite IH. split.
    + intros [Hf|(u & t & -> & Hf)]; [by exists ""%string, (String c n)|]. by exists (String c u), t.
    + intros (u & t & E & Hf). destruct u as [|d u]; [left; rewrite str_nil_l in E; by subst t|]. rewrite str_cons in E. injection E as -> ->.
      right. by exists u, t.
Qed.

Lemma some_suffix_app f u n : some_suffix f n = true -> some_suffix f (u +:+ n) = true.
Proof. rewrite !some_suffix_spec. intros (v & t & -> & Hf). exists (u +:+ v), t. by rewrite string_app_assoc. Qed.

Fixpoint star_free (p : string) : bool :=
  match p with String c p => negb (Ascii.eqb c "*") && star_free p | EmptyString => true end.

(** A part without stars consumes its length. *)
Lemma globs_star_free q p t : star_free q = true -> globs (q +:+ p) t = true ->
  exists t1 t2, t = t1 +:+ t2 /\ String.length t1 = String.length q /\ globs p t2 = true.
Proof.
  revert t. induction q as [|c q IH]; intros t Hq Hg; [by exists ""%string, t|]. rewrite str_cons in Hg. cbn [star_free] in Hq. apply andb_true_iff in Hq as [Hc Hq].
  cbn [globs] in Hg. apply negb_true_iff in Hc. rewrite Hc in Hg. destruct t as [|d t]; [done|]. apply andb_true_iff in Hg as [_ Hg].
  destruct (IH t Hq Hg) as (t1 & t2 & -> & Hl & Hp). exists (String d t1), t2. split; [done|]. cbn [String.length]. by rewrite Hl.
Qed.

Lemma drop_stars_globs p : (drop_stars p =? "")%string = globs p "".
Proof. induction p as [|c p IH]; [done|]. cbn [drop_stars globs some_suffix]. destruct (Ascii.eqb c "*"); [by rewrite IH, orb_false_r|done]. Qed.

Lemma string_app_split a b c d : a +:+ b = c +:+ d -> (String.length a <= String.length c)%nat -> exists e, c = a +:+ e /\ b = e +:+ d.
Proof.
  revert c. induction a as [|x a IH]; intros c E Hl; [by exists c|]. destruct c as [|y c]; [cbn in Hl; lia|].
  rewrite !str_cons in E. injection E as -> E. cbn [String.length] in Hl. destruct (IH c E ltac:(lia)) as (e & -> & ->). by exists e.
Qed.

(** What the last star still allows: it takes at least one more byte. *)
Definition later (star : option (string * string)) : bool :=
  match star with Some (sp, String _ sn) => some_suffix (globs sp) sn | _ => false end.

(** Since the last star, its rest was matched byte by byte. *)
Definition tracked (star : option (string * string)) (p n : string) : Prop :=
  match star with
  | Some (sp, sn) => exists q m, sp = q +:+ p /\ sn = m +:+ n /\ String.length q = String.length m /\ star_free q = true
  | None => True
  end.

(** A new star makes the old one redundant. *)
Lemma later_absorbed star p n : tracked star (String "*" p) n -> later star = true -> some_suffix (globs p) n = true.
Proof.
  destruct star as [[sp sn]|]; [|done]. intros (q & m & -> & -> & Hl & Hq) Hlat. cbn [later] in Hlat.
  destruct (m +:+ n) as [|d w] eqn:E; [done|]. apply some_suffix_spec in Hlat as (u & t & -> & Hg).
  destruct (globs_star_free _ _ _ Hq Hg) as (t1 & t2 & -> & Ht & Hs). cbn [globs] in Hs. cbn in Hs.
  assert (Hsplit : m +:+ n = (String d u +:+ t1) +:+ t2) by (rewrite E, !str_cons; by rewrite string_app_assoc).
  apply string_app_split in Hsplit as (e & _ & ->); [|rewrite string_length_app, Ht, Hl; cbn [String.length]; lia]. by apply some_suffix_app.
Qed.

(** At the end of the name nothing is left to retry. *)
Lemma later_end star p : tracked star p "" -> later star = false.
Proof.
  destruct star as [[sp sn]|]; [|done]. intros (q & m & -> & -> & Hl & Hq). rewrite string_app_nil. cbn [later]. destruct m as [|d w]; [done|].
  apply not_true_iff_false. intros (u & t & -> & Hg)%some_suffix_spec. destruct (globs_star_free _ _ _ Hq Hg) as (t1 & t2 & -> & Ht & _).
  cbn [String.length] in Hl. rewrite !string_length_app in Hl. lia.
Qed.

Definition glob_measure (L : nat) (p n : string) (star : option (string * string)) : nat :=
  match star with Some (_, sn) => String.length sn | None => S (String.length n) end * (L + 2) + String.length p.

Lemma glob_loop_spec L fuel p n star :
  (String.length p <= L)%nat -> match star with Some (sp, _) => (String.length sp <= L)%nat | None => True end ->
  (glob_measure L p n star < fuel)%nat -> tracked star p n ->
  glob_loop fuel p n star = Some (globs p n || later star).
Proof.
  revert p n star. induction fuel as [|fuel IH]; intros p n star Hp Hs Hm Ht; [lia|]. cbn [glob_loop].
  destruct n as [|d n'].
  { rewrite (later_end _ _ Ht), orb_false_r. by rewrite drop_stars_globs. }
  set (n := String d n') in *.
  assert (Hretry : globs p n = false -> match star with Some (sp, String _ sn) => glob_loop fuel sp sn (Some (sp, sn)) | _ => Some false end = Some (globs p n || later star)).
  { intros ->. destruct star as [[sp [|e sn]]|]; [done| |done]. cbn [orb later].
    rewrite IH; [|done|done|unfold glob_measure in *; cbn [String.length] in Hm; lia|by exists ""%string, ""%string].
    destruct sn as [|g sn]; cbn [some_suffix later]; by rewrite ?orb_false_r. }
  destruct p as [|c p']; [by apply Hretry|]. cbn [String.length] in Hp. destruct (Ascii.eqb_spec c "*") as [->|Hc].
  - rewrite IH; [|lia|lia| |by exists ""%string, ""%string].
    + assert (E : globs (String "*" p') n = globs p' n || later (Some (p', n))) by done. rewrite <- E.
      destruct (later star) eqn:El; [|by rewrite orb_false_r]. rewrite orb_true_r. f_equal. by apply (later_absorbed star).
    + unfold glob_measure in *. cbn [String.length] in Hm. destruct star as [[sp sn]|]; [|lia].
      destruct Ht as (q & m & _ & -> & _). rewrite string_length_app in Hm. nia.
  - assert (Hcf : Ascii.eqb c "*" = false) by by apply Ascii.eqb_neq. destruct (Ascii.eqb c "?" || Ascii.eqb c d) eqn:Ecd.
    + rewrite IH; [|lia|done| |].
      * unfold n. cbn [globs]. by rewrite Hcf, Ecd.
      * unfold glob_measure in *. unfold n in Hm. cbn [String.length] in Hm. destruct star as [[sp sn]|]; lia.
      * destruct star as [[sp sn]|]; [|done]. destruct Ht as (q & m & -> & -> & Hl & Hq). exists (q +:+ String c ""), (m +:+ String d "").
        rewrite !string_app_assoc, !string_length_app, Hl. split; [done|]. split; [done|]. split; [done|].
        clear - Hq Hcf. induction q as [|x q IHq]; [rewrite str_nil_l; cbn [star_free]; by rewrite Hcf|].
        rewrite str_cons. cbn [star_free] in *. apply andb_true_iff in Hq as [-> Hq]. by apply IHq.
    + apply Hretry. unfold n. cbn [globs]. by rewrite Hcf, Ecd.
Qed.

(** C31: The matcher with backtracking terminates within its fuel and computes the glob
    relation, whatever bytes the rule and the command hold. *)
Theorem matchGlob_globs pattern name :
  glob_loop (glob_fuel pattern name) pattern name None = Some (globs pattern name) /\ matchGlob pattern name = globs pattern name.
Proof.
  assert (E : glob_loop (glob_fuel pattern name) pattern name None = Some (globs pattern name)).
  { rewrite (glob_loop_spec (String.length pattern)); [by rewrite orb_false_r|done|done| |done]. unfold glob_measure, glob_fuel. nia. }
  split; [done|]. unfold matchGlob. by rewrite E.
Qed.

(** ** Decisions on several subjects *)

(** Deny before ask before allow. *)
Definition worst (ds : list Decision) : Decision :=
  if existsb (fun d => bool_decide (d = Deny)) ds then Deny else if existsb (fun d => bool_decide (d = Ask)) ds then Ask else Allow.

Section Precedence.
Context `{UnicodeLower} `{UnicodeFold} `{ShellSyntax} `{ToolArgs}.

Lemma decide_all_worst p t ro subjects out :
  out <> Deny -> decide_all p t ro subjects out = worst (out :: map (DecideSubject p t ro) subjects).
Proof.
  revert out. induction subjects as [|s rest IH]; intros out Ho; [by destruct out|]. cbn [decide_all map].
  destruct (DecideSubject p t ro s); [rewrite IH by done|rewrite IH by done|]; by destruct out.
Qed.

Lemma Decide_subjects p t ro args : Decide p t ro args = worst (map (DecideSubject p t ro) (subjects_or_empty args)).
Proof.
  unfold Decide, subjects_or_empty, DecideSubjects. destruct (Subjects args) as [|s l]; [cbn; by destruct (DecideSubject p t ro "")|].
  by rewrite decide_all_worst.
Qed.

Lemma worst_deny ds : Deny ∈ ds -> worst ds = Deny.
Proof.
  intros Hin. unfold worst. assert (E : existsb (fun d => bool_decide (d = Deny)) ds = true); [|by rewrite E].
  apply existsb_exists. exists Deny. split; [by apply list_elem_of_In|done].
Qed.
Lemma worst_allow ds : worst ds = Allow -> Forall (fun d => d = Allow) ds.
Proof. induction ds as [|d ds IH]; [done|]. unfold worst in *. cbn. destruct d; cbn; intros Hw; [by constructor; [|apply IH]|by destruct (existsb _ _)|done]. Qed.

(** For a tool that is not the shell the two readings of a rule agree. *)
Lemma rule_matches_raw t subject r :
  (canonicalRuleTool t =? "bash")%string = false ->
  rule_matches rawRuleSubjectMatches t subject r = rule_matches ruleSubjectMatches t subject r.
Proof.
  intros Ht. unfold rule_matches. destruct (ruleToolMatches (Tool r) t) eqn:Em; [|done]. cbn [andb].
  unfold ruleSubjectMatches, rawRuleSubjectMatches. destruct (RSubject r =? "")%string; [done|]. destruct (subject =? "")%string; [done|]. cbn [orb andb negb].
  assert (Hb : (canonicalRuleTool (Tool r) =? "bash")%string = false); [|by rewrite Hb].
  apply String.eqb_neq. intros E. unfold ruleToolMatches in Em. rewrite E in Em. apply orb_true_iff in Em as [<-%String.eqb_eq|Em]; [|done]. done.
Qed.

Lemma DecideSubject_denied p t ro s : matchAnyRaw (PDeny p) t s = true -> DecideSubject p t ro s = Deny.
Proof.
  intros Hd. unfold DecideSubject. destruct (canonicalRuleTool t =? "bash")%string eqn:Et.
  - unfold decide_fuel. cbn [decide_bash]. by rewrite Hd.
  - unfold decide_plain. assert (E : matchAny (PDeny p) t s = true); [|by rewrite E]. rewrite <- Hd. unfold matchAny, matchAnyRaw.
    clear Hd. induction (PDeny p) as [|r l IH]; [done|]. cbn. by rewrite IH, rule_matches_raw.
Qed.

(** C30: A call is decided by the worst decision on its subjects, and a configured deny
    rule that matches one of them denies it in every mode, whatever else the policy
    allows and whether or not the tool only reads. *)
Theorem Decide_precedence p t ro args :
  Decide p t ro args = worst (map (DecideSubject p t ro) (subjects_or_empty args))
  /\ (ExplicitlyDenies p t args = true -> Decide p t ro args = Deny).
Proof.
  split; [apply Decide_subjects|]. unfold ExplicitlyDenies. intros (s & Hin & Hm)%existsb_exists. rewrite Decide_subjects. apply worst_deny.
  rewrite <- (DecideSubject_denied p t ro s Hm). apply list_elem_of_fmap_2. by apply list_elem_of_In.
Qed.

(** ** What lets a command run *)

Definition exactly_allowed (p : Policy) (s : string) : bool := matchAnyExact (SessionAllow p) "bash" s || matchAnyExact (PAllow p) "bash" s.

(** Why a part of a command may run. *)
Definition justified (p : Policy) (readOnly : bool) (part : string) : Prop :=
  exactly_allowed p part = true
  \/ match classifyBashApproval part with
     | bashApprovalRequireHuman => Mode p = Allow /\ AllowDynamicBash p = true
     | bashApprovalExactOnly => readOnly = true \/ Mode p = Allow
     | bashApprovalReusable => matchAny (SessionAllow p) "bash" part = true \/ matchAny (PAllow p) "bash" part = true \/ readOnly = true \/ Mode p = Allow
     end.

(** The parts with what is known of their effects. *)
Definition parts_of (readOnly : bool) (s : string) : list (bool * string) :=
  match DecomposeBashCommand s with
  | Some parts => map (fun part => (readOnly || isReadOnlyBashSubject part, part)) parts
  | None => [(readOnly, s)]
  end.

Lemma decide_atomic_justified p ro s : decide_atomic p "bash" ro s = Allow -> justified p ro s.
Proof.
  unfold decide_atomic, justified, exactly_allowed. destruct (classifyBashApproval s) eqn:Ec.
  - destruct (matchAnyAllow _ _ _) eqn:Em; [|destruct ro; auto 6]. intros _. unfold matchAnyAllow in Em.
    destruct (matchAnyExact (PAllow p) "bash" s); [rewrite orb_true_r; by left|]. destruct (_ && _) in Em; [done|]. auto.
  - destruct ro; auto.
  - destruct (Mode p); try done. destruct (AllowDynamicBash p); [auto|done].
Qed.

Lemma reusable_class s : bashSubjectRequiresExactRule s = false -> classifyBashApproval s = bashApprovalReusable.
Proof. unfold bashSubjectRequiresExactRule. by destruct (classifyBashApproval s). Qed.

Lemma matchAnyAllow_cases rules t s :
  matchAnyAllow rules t s = true -> matchAnyExact rules t s = true \/ matchAny rules t s = true.
Proof. unfold matchAnyAllow. destruct (matchAnyExact _ _ _); [by left|]. destruct (_ && _); [done|by right]. Qed.

(** One level of a decision that allows. *)
Lemma decide_bash_allow fuel p ro s :
  decide_bash (S fuel) p "bash" ro s = Some Allow ->
  matchAnyRaw (PDeny p) "bash" s = false
  /\ (exactly_allowed p s = true
      \/ match DecomposeBashCommand s with
         | None => justified p ro s
         | Some parts => decide_parts (decide_bash fuel p "bash") ro parts Allow = Some Allow
         end).
Proof.
  cbn [decide_bash]. destruct (matchAnyRaw (PDeny p) "bash" s); [done|]. intros Hd. split; [done|]. unfold exactly_allowed.
  destruct (matchAnyExact (SessionAllow p) "bash" s) eqn:E1; [by left|]. destruct (matchAnyExact (PAllow p) "bash" s) eqn:E2; [by left|]. right.
  destruct (DecomposeBashCommand s) as [parts|]; cbn [bool_decide decide] in Hd.
  - rewrite bool_decide_false, andb_false_r in Hd by done. cbn [andb] in Hd. by destruct (matchAnyRaw (PAsk p) "bash" s).
  - rewrite bool_decide_true, andb_true_r in Hd by done. destruct (negb _ && _) eqn:E3 in Hd.
    + apply andb_true_iff in E3 as [Hn%negb_true_iff%reusable_class Hm]. right. rewrite Hn.
      apply matchAnyAllow_cases in Hm as [Hm|Hm]; [congruence|by left].
    + destruct (matchAnyRaw (PAsk p) "bash" s); [done|]. apply decide_atomic_justified. by injection Hd.
Qed.

Lemma decide_parts_ask decide ro parts : decide_parts decide ro parts Ask <> Some Allow.
Proof. induction parts as [|s parts IH]; [done|]. cbn. by destruct (decide _ s) as [[]|]. Qed.
Lemma decide_parts_allow decide ro parts :
  decide_parts decide ro parts Allow = Some Allow -> Forall (fun s => decide (ro || isReadOnlyBashSubject s) s = Some Allow) parts.
Proof.
  induction parts as [|s parts IH]; [done|]. cbn. destruct (decide _ s) as [[]|] eqn:Ed; [|by intros ?%decide_parts_ask|done..].
  intros Hp. constructor; [done|by apply IH].
Qed.

(** A part of a part is out of fuel. *)
Lemma part_not_split p ro s parts : DecomposeBashCommand s = Some parts -> decide_parts (decide_bash 0 p "bash") ro parts Allow <> Some Allow.
Proof.
  unfold DecomposeBashCommand. destruct (SplitTopLevel s) as [[out []]|]; [|done..]. destruct (length out <? 2)%nat eqn:El; [done|]. intros [= <-].
  by destruct out.
Qed.

Lemma DecideSubject_allow p ro s :
  DecideSubject p "bash" ro s = Allow ->
  matchAnyRaw (PDeny p) "bash" s = false
  /\ (exactly_allowed p s = true
      \/ Forall (fun part => matchAnyRaw (PDeny p) "bash" part.2 = false /\ justified p part.1 part.2) (parts_of ro s)).
Proof.
  unfold DecideSubject. change (canonicalRuleTool "bash" =? "bash")%string with true. cbv iota.
  destruct (decide_bash decide_fuel p "bash" ro s) as [d|] eqn:Ed; [|done]. intros E. change (d = Allow) in E. subst d.
  apply decide_bash_allow in Ed as [Hd Hj]. split; [done|]. destruct Hj as [Hj|Hj]; [by left|right]. unfold parts_of.
  destruct (DecomposeBashCommand s) as [parts|]; [|by constructor; [split|constructor]].
  apply decide_parts_allow in Hj. apply Forall_map. eapply Forall_impl; [exact Hj|]. cbn [fst snd]. intros part Hp.
  apply decide_bash_allow in Hp as [Hp Hpj]. split; [done|]. destruct Hpj as [He|Hpj]; [by left|].
  destruct (DecomposeBashCommand part) eqn:Ep; [|done]. by eapply part_not_split in Ep.
Qed.

(** C28: A command of the shell that a policy allows has no deny rule against it, and
    either an exact rule names it or every one of its parts is justified and not denied:
    a part that runs other code needs an exact rule or the dynamic fallback, whatever
    prefix rules exist and even if it only reads; a part with expansions, assignments
    or redirections needs an exact rule, a proof that it only reads, or mode allow; and
    only the others are open to prefix rules. *)
Theorem allowed_justified p ro s :
  DecideSubject p "bash" ro s = Allow ->
  matchAnyRaw (PDeny p) "bash" s = false
  /\ (exactly_allowed p s = true
      \/ Forall (fun part => matchAnyRaw (PDeny p) "bash" part.2 = false /\ justified p part.1 part.2) (parts_of ro s)).
Proof. apply DecideSubject_allow. Qed.

(** Parts that do not split again leave nothing open. *)
Lemma decide_bash_total p ro s :
  (forall parts part, DecomposeBashCommand s = Some parts -> part ∈ parts -> DecomposeBashCommand part = None) ->
  is_Some (decide_bash decide_fuel p "bash" ro s).
Proof.
  intros Hatom. assert (Hone : forall ro part, DecomposeBashCommand part = None -> is_Some (decide_bash 1 p "bash" ro part)).
  { intros ro' part Hn. cbn [decide_bash]. rewrite Hn. by repeat case_match. }
  unfold decide_fuel. remember 1%nat as one. cbn [decide_bash]. destruct (DecomposeBashCommand s) as [parts|]; [|by repeat case_match].
  assert (Hparts : forall out, is_Some (decide_parts (decide_bash one p "bash") ro parts out)); [|by repeat case_match].
  specialize (Hatom parts). assert (Ha : forall part, part ∈ parts -> DecomposeBashCommand part = None) by auto. clear Hatom.
  induction parts as [|part parts IH]; intros out; [done|]. cbn [decide_parts].
  destruct (Hone (ro || isReadOnlyBashSubject part) part) as [d Hd]; [apply Ha; left|]. subst one. rewrite Hd.
  destruct d; [apply IH|apply IH|done]; intros part' Hin; apply Ha; by right.
Qed.

(** ** The gate *)

(** The effect of the bash tool on what counts as read-only. *)
Definition gate_reads (toolName args : string) (readOnly : bool) : bool := readOnly || ((toolName =? "bash")%string && BashCommandIsReadOnly args).

(** The user said yes. *)
Definition approved (ask : approver) (p : Policy) (toolName args : string) (readOnly : bool) : Prop :=
  Decide p toolName (gate_reads toolName args readOnly) args = Ask
  /\ exists remember reason policyReason, ask toolName (Subject args) args policyReason = Ok (true, remember, reason).

Lemma GateCheck_allowed p ask remembers toolName args readOnly v granted p' :
  GateCheck p (Some ask) remembers toolName args readOnly = (v, granted, p') ->
  if v_allow v then Decide p toolName (gate_reads toolName args readOnly) args = Allow \/ approved ask p toolName args readOnly
  else v_reason v <> ""%string /\ p' = p /\ granted = [].
Proof.
  unfold GateCheck, approved. cbn zeta. fold (gate_reads toolName args readOnly).
  set (rule := match MatchedRule _ _ _ _ with Some _ => _ | None => _ end).
  destruct (Decide p toolName (gate_reads toolName args readOnly) args) eqn:Ed.
  - intros [= <- <- <-]. by left.
  - destruct (ask _ _ _ rule) as [[[[] remember] reason]|e] eqn:Ea.
    + destruct (remember && remembers); cbn [negb]; intros [= <- <- <-]; right; split; try done; by exists remember, reason, rule.
    + intros [= <- <- <-]. split; [|done]. cbn. by destruct (reason =? "")%string eqn:Er; [|apply String.eqb_neq].
    + by intros [= <- <- <-].
  - intros [= <- <- <-]. split; [|done]. cbn. destruct (rule =? "")%string eqn:Er; [done|]. by destruct rule.
Qed.

(** The classifier's readers. *)
Definition reads_as_parts (s : string) : Prop :=
  exists parts, DecomposeBashCommand s = Some parts /\ Forall (fun part => isReadOnlyBashSubject part = true) parts.

(** Without allow rules and in mode ask only readers are justified. *)
Lemma unruled_reader p ro s :
  Mode p = Ask -> PAllow p = [] -> SessionAllow p = [] -> justified p ro s -> ro = true.
Proof.
  intros Hm Ha Hs. unfold justified, exactly_allowed, matchAnyExact. rewrite Hm, Ha, Hs. cbn [existsb matchAny].
  destruct (s =? "")%string; destruct (classifyBashApproval s); intuition discriminate.
Qed.

(** C29: Behind a gate with a user to ask, in mode ask and without allow rules: when the
    policy reads the command that the tool runs - the arguments decode to one subject,
    the command the tool decodes - a call of the shell runs only when the user approved
    that command, when the whole command is classified as reading and stays in the
    foreground, or when it splits into parts each classified as reading, which may be in
    the background ([ClassifyBash_reader] says what that classification checks).  A call
    that does not run, whatever its arguments, leaves the policy unchanged and tells the
    model why.  Arguments that decode differently are not covered: [keys_differ]. *)
Theorem unasked_reads p ask remembers args v granted p' :
  Mode p = Ask -> PAllow p = [] -> SessionAllow p = [] ->
  GateCheck p (Some ask) remembers "bash" args false = (v, granted, p') ->
  if v_allow v
  then forall command background preserve,
    bash_params args = Some (command, background, preserve) -> Subjects args = [command] ->
    (exists remember reason policyReason, ask "bash"%string command args policyReason = Ok (true, remember, reason))
    \/ (isReadOnlyBashSubject command = true /\ background = false /\ preserve = false)
    \/ reads_as_parts command
  else v_reason v <> ""%string /\ p' = p /\ granted = [].
Proof.
  intros Hm Ha Hs Hg. apply GateCheck_allowed in Hg. destruct (v_allow v); [|done]. intros command background preserve Hb Hsub.
  destruct Hg as [Hd|(_ & remember & reason & why & Hd)].
  2: { left. exists remember, reason, why. unfold Subject in Hd. by rewrite Hsub in Hd. }
  right. change (gate_reads "bash" args false) with (BashCommandIsReadOnly args) in Hd. unfold BashCommandIsReadOnly in Hd. rewrite Hb in Hd.
  destruct (if (trim_space command =? "")%string then false else if background || preserve then false else isReadOnlyBashSubject command) eqn:Er.
  { left. destruct (_ =? _)%string; [done|]. destruct background, preserve; try done. }
  right. rewrite Decide_subjects in Hd. apply worst_allow in Hd. unfold subjects_or_empty in Hd. rewrite Hsub in Hd. apply Forall_inv in Hd.
  apply DecideSubject_allow in Hd as [_ [He|Hj]].
  - unfold exactly_allowed, matchAnyExact in He. rewrite Ha, Hs in He. by destruct (command =? "")%string.
  - unfold parts_of in Hj. unfold reads_as_parts. destruct (DecomposeBashCommand command) as [parts|].
    + exists parts. split; [done|]. apply Forall_map in Hj. eapply Forall_impl; [exact Hj|]. cbn. intros part [_ Hp%unruled_reader]; done.
    + apply Forall_inv in Hj as [_ Hp%unruled_reader]; done.
Qed.
End Precedence.

(** ** Samples *)

(** Arguments that are the command; a leading ampersand asks for the background, and
    two commands around a bar are what [Decide] and what the tool read of a call whose
    keys differ only in case. *)
Module PermissionSample.
Import ShellSample.

Definition command_of (args : string) : string := match cut "|" args with Some (seen, _) => seen | None => trim_prefix args "&" end.
Definition run_of (args : string) : string := match cut "|" args with Some (_, run) => run | None => trim_prefix args "&" end.
#[export] Instance tool_args : ToolArgs := {|
  args_map := fun args => Some {["command"%string := JString (command_of args)]};
  bash_params := fun args => Some (run_of args, has_prefix args "&", false) |}.

Definition cautious : Policy := New "ask" [] [] ["Bash(rm:*)"]%string.
Definition working : Policy := New "ask" ["Bash(go test:*)"] [] ["Bash(rm:*)"]%string.
Definition refuses : approver := fun _ _ _ _ => Ok (false, false, ""%string).
Definition remembers_all : approver := fun _ _ _ _ => Ok (true, true, ""%string).
Definition runs_unasked (p : Policy) (args : string) : bool := v_allow (GateCheck p (Some refuses) true "bash" args false).1.1.

Example gate :
  map (runs_unasked cautious) ["ls -la"; "git log && pwd"; "go test x"; "rm x"; "ls && rm x"; "&ls"]%string = [true; true; false; false; false; false].
Proof. by vm_compute. Qed.

(** Two readers asked for in the background run unasked; one asks. *)
Example background_readers : map (runs_unasked cautious) ["&ls"; "&ls && pwd"]%string = [false; true].
Proof. by vm_compute. Qed.

(** The rules are matched against one key and the tool runs another. *)
Example keys_differ :
  command_of "ls && pwd|rm -rf x" = "ls && pwd"%string /\ run_of "ls && pwd|rm -rf x" = "rm -rf x"%string
  /\ runs_unasked cautious "rm -rf x" = false /\ runs_unasked cautious "ls && pwd|rm -rf x" = true.
Proof. by vm_compute. Qed.

(** An exact rule for the whole command outranks the denial of its part. *)
Example exact_before_part_deny :
  let p := New "ask" ["Bash=ls && rm x"] [] ["Bash(rm:*)"]%string in
  DecideSubject p "bash" false "rm x" = Deny /\ DecideSubject p "bash" false "ls && rm x" = Allow.
Proof. by vm_compute. Qed.

(** Remembering one command allows every command of the tool. *)
Example remembers_the_tool :
  let '(v, granted, p) := GateCheck cautious (Some remembers_all) true "bash" "go test x" false in
  granted = ["bash"%string] /\ RememberRuleForScope "bash" "go test x" = "Bash(go test:*)"%string
  /\ runs_unasked cautious "go install y" = false /\ runs_unasked p "go install y" = true.
Proof. by vm_compute. Qed.

Lemma Decide_precedence_witness :
  ExplicitlyDenies (New "allow" ["Bash"] [] ["Bash(rm:*)"]%string) "bash" "rm x" = true
  /\ Decide (New "allow" ["Bash"] [] ["Bash(rm:*)"]%string) "bash" true "rm x" = Deny.
Proof.
  assert (Hd : ExplicitlyDenies (New "allow" ["Bash"] [] ["Bash(rm:*)"]%string) "bash" "rm x" = true) by (vm_compute; reflexivity).
  split; [exact Hd|]. exact (proj2 (Decide_precedence (New "allow" ["Bash"] [] ["Bash(rm:*)"]%string) "bash" true "rm x") Hd).
Defined.

Lemma allowed_justified_witness :
  DecideSubject working "bash" false "ls -la && go test x" = Allow
  /\ (exactly_allowed working "ls -la && go test x" = true
      \/ Forall (fun part => matchAnyRaw (PDeny working) "bash" part.2 = false /\ justified working part.1 part.2) (parts_of false "ls -la && go test x")).
Proof.
  assert (Hd : DecideSubject working "bash" false "ls -la && go test x" = Allow) by (vm_compute; reflexivity).
  split; [exact Hd|]. exact (proj2 (allowed_justified working false "ls -la && go test x" Hd)).
Defined.

Lemma unasked_reads_witness :
  (exists remember reason policyReason, refuses "bash"%string "git log && pwd"%string "git log && pwd"%string policyReason = Ok (true, remember, reason))
  \/ (isReadOnlyBashSubject "git log && pwd" = true /\ false = false /\ false = false)
  \/ reads_as_parts "git log && pwd".
Proof.
  exact (unasked_reads cautious refuses true "git log && pwd" (mkVerdict true "" None) [] cautious
           ltac:(vm_compute; reflexivity) ltac:(vm_compute; reflexivity) ltac:(vm_compute; reflexivity) ltac:(vm_compute; reflexivity)
           "git log && pwd"%string false false ltac:(vm_compute; reflexivity) ltac:(vm_compute; reflexivity)).
Defined.
End PermissionSample.
